(* ===== verification/_CoqProject ===== *)
-Q . S2P
Prelude.v
LinkedList.v
TmrHeap.v
Tmr.v
RepeatingTimer.v
UAManager.v
Sipperf.v
Mem.v
Pl.v
Mbuf.v
Codec.v
Wire.v
Base64.v
Uric.v
Hash.v
Dname.v
DnsHdr.v
Rtp.v
Jbuf.v
Replay.v
RtpSource.v
DnsRr.v
RrList.v
Regex.v
Param.v
Sa.v
Print.v
Printers.v
Uri.v
SipHdr.v
SipId.v
SipMsg.v
SipScan.v
Store.v
Ctrans.v
Strans.v
Sipreg.v
Dialog.v
SipTransp.v
SipConn.v
SipConnInv.v
SipStream.v
SipRequest.v
SipRequestInv.v
SipRequestEnd.v
Sipsess.v
SipsessInv.v
SipsessEnd.v
