(* ===== verification/Prelude.v ===== *)
(** * Verification of sipperf and its bundled SIP library

    sipperf registers simulated user agents with a SIP server and lets them call each
    other at a given rate.  The load generator itself is under src/src and src/include;
    the SIP stack it is built on, libre, is bundled under src/libre.  This library models
    the load generator and those layers of libre that it runs on, and proves the
    behaviour of each.

    ** Conventions

    A C integer is a [Z] and every operation that can leave its width writes the
    wrap-around ([u8] to [u64], [s8] to [s64] below).  A pointer is a [Z], null is 0; a
    string that may be null is an option.  A byte string is a list of [Z].  A function
    that can misbehave (an access outside an object, through a dangling or null pointer,
    to a variable that was never set) returns an option, and [None] is that undefined
    behaviour; an error the code reports is a value.  What comes from outside the code is
    an argument: clock readings, random numbers, what the allocator returned, what the
    transport or the system's parser of network addresses answered; where there are many,
    they are the lists of an environment, consumed in the order of the calls.  Calls out
    of a component (sending, callbacks) are recorded as actions in the order they are
    made.  Null checks of arguments are left out where the file says so.

    ** Parts

    The load generator
    - [UAManager]: src/src/uamanager.cpp, the registry of user agents, over an interface
      to the standard library's unordered map
    - [RepeatingTimer]: src/src/timer.cpp, the periodic timers, in binary64 arithmetic
    - [Sipperf]: src/src/sipperf.cpp, useragent.cpp, stack.cpp: the tasks (registrations,
      calls, cleanup), the handlers of the SIP library's events and the round robin over
      the stacks, with a step relation for what the main loop may deliver

    Infrastructure of libre
    - [LinkedList] (list.c), [TmrHeap] and [Tmr] (tmr_heap.c, tmr.c), [Mem] (mem.c),
      [Pl] (pl.c, ch.c), [Mbuf] (mbuf.c), [Hash] (hash.c, func.c), [Base64] (b64.c)
    - [Codec]: the interface of buffers to the encoders and decoders, as a class with its
      laws, of which [Mbuf] is the instance; [Wire]: messages as sequences of fields

    Text
    - [Regex] (fmt/regex.c), the expression interpreter that all parsers are built on,
      with a declarative semantics of expressions
    - [Print] and [Printers] (fmt/print.c): the interpreter of formats over the interface
      of a print handler, and the handlers that implement it
    - [Param] (msg/param.c, msg/ctype.c, fmt/prm.c), [Uric] and [Uri] (uri/), [Sa] (sa/)

    DNS
    - [Dname], [DnsHdr], [DnsRr], [RrList] (dns/)

    SIP messages
    - [SipHdr] (sip/addr.c, via.c, cseq.c), [SipId] (the names of the header fields) and
      [SipMsg] (sip/msg.c): the decoders; [SipScan]: what is proved of the decoder of
      messages; [SipStream]: decoding a message of which only a part has come

    The layers of SIP
    - [SipTransp] and [SipConn] (sip/transp.c, keepalive.c): the choice of a transport,
      and connections with their queues and framing; [SipConnInv]: their invariant
    - [Store]: objects reached through hash tables, as the transaction layer keeps them
    - [Ctrans] and [Strans] (sip/ctrans.c, strans.c): the transactions with their timers
      and tables
    - [SipRequest] (sip/request.c): finding the destinations of a request, sending and
      failing over; [SipRequestInv] and [SipRequestEnd]: its invariant and its runs
    - [Dialog] (sip/dialog.c): the two sides of a dialog and what they print
    - [Sipreg] (sipreg/reg.c, with the loop state of sip/request.c): registrations
    - [Sipsess] (sipsess/): sessions; [SipsessInv] and [SipsessEnd]: their invariant, and
      that they end

    Media, for the parts of it that are data structures and codecs
    - [Rtp] (rtp/rtp.c), [RtpSource] (rtp/source.c), [Jbuf] (jbuf/jbuf.c), [Replay]
      (srtp/replay.c)

    The program's handlers in [Sipperf] are what [Sipreg] and [Sipsess] call; a session
    sends its requests through [SipRequest], which starts a [Ctrans], and answers through
    [Strans]; [SipConn] hands on the messages that [SipMsg] takes out of a stream; the
    transactions arm timers as [Tmr] provides them and find their objects through [Hash].
    [SipMsg] is built from [SipHdr], which is built from [Uri], [Param] and [Sa], which
    are built from [Regex].  [Dialog] and [SipRequest] print with [Print] to any [Codec]
    buffer; the DNS codecs work on any [Codec] buffer, and [RrList] sorts the lists of
    [LinkedList].

    ** What the theorems show

    - The program: in every reachable state an event of the main loop is handled without
      undefined behaviour exactly when it is none of three named ones; the phases run in
      order; a tick of a scheduler does exactly what is due ([program_safe],
      [phases_in_order], [call_tick_distinct_parties], [registrar_tick_exact]).
    - Refinements: the timer heap is a priority queue; the lists, buffers, hash tables and
      transaction tables do on the heap what is specified on sequences; polling the timers
      follows the run [poll_run] for handlers that start and cancel timers themselves; the
      jitter buffer is a finite map of unwrapped indices, the replay window the unbounded
      filter.
    - State machines: invariants by induction over the steps, at most one final outcome
      per transaction and per request, the lifecycle of both, registrations that never
      stall and are released after boundedly many responses, queued messages that meet
      one end each, sessions whose reference count is exact, whose establish and close
      handlers are called at most once, and that are freed.
    - What is sent: the text of a request with its Via, the destinations in their order,
      the header fields of a dialog, which the other side's dialog recognises.
    - Decoders: what is accepted, what every part becomes, and that nothing outside the
      text or a local array is touched, or exactly when it is; the messages taken out of
      a stream do not depend on how it was cut; round trips for encoders.
    - The interpreter of expressions finds the first match of the declarative semantics
      and stores its captures, unless it gives up, which is characterised; the decoders
      of header fields are verified with the evaluation lemmas that follow from it.

    Where the code does not do what it means to, an Example or a clause of a theorem says
    so next to the definition.

    ** Conditions

    The handlers a component calls are parameters or recorded.  What they must not do is
    said with the theorems: timeout handlers return and keep the heap sound (and for
    termination start no timer that is due); the handlers of a connection do not close
    connections or cancel what waits on the one at hand; the offer and the answer handler
    of a session do not give up the application's reference, and [sess_no_dangling] says
    what happens when they do.  An encoder into a buffer either succeeds or a write of it
    ran out of memory; [writes_fail] says that a buffer has such writes.

    ** Loops and fuel

    A loop is a structural recursion where the code consumes a list or counts down.
    Otherwise it has fuel, and running out is [None], which the theorem about the
    function excludes: the heap operations take the number of elements, the poll of the
    timers as many turns as its handlers leave timers due, the list sort a number of
    passes that is proved to suffice for a total order, the search for aliases 17 levels,
    the loops over parameters the length of the text, of which every turn consumes one
    character or more, the receiving loop of a connection one turn more than the bytes it
    has, the search for the next destination of a request [next_fuel], which counts its
    addresses and services, and flushing a jitter buffer the number of its frames.

    ** Not modelled

    - Input and output: sockets, the main loop, the operating system layer, logging,
      statistics output, TLS; the CSV reader and the generated argument parser; the DNS
      client, whose answers are arguments.
    - Digests and ciphers, which restate reference implementations or wrap OpenSSL, and
      the credentials of HTTP authentication, which are made with them.
    - The text of responses and of REGISTER, ACK, BYE and INFO requests, which are actions
      without it.
    - The listeners of a stack that find the session of a request.
    - The one session description that the load generator encodes with SDP for all its
      calls: to the sessions a description is there or not.
    - The parts of libre that the load generator does not use: RTCP, STUN, TURN, ICE,
      HTTP, WebSocket, BFCP, JSON, event subscriptions. *)
From stdpp Require Export base gmap list strings fin_maps.
From Stdlib Require Export ZArith Lia Ascii Sorting.Sorted.

Declare Scope word_scope.
Delimit Scope word_scope with word.
#[global] Open Scope Z_scope.

(** ** Machine integers

    A C integer of width [w] is a [Z]; every operation that can leave the
    range writes the wrap-around with one of these functions. *)

Definition u8 (z : Z) : Z := z mod 256.
Definition u16 (z : Z) : Z := z mod 65536.
Definition u32 (z : Z) : Z := z mod 4294967296.
Definition u64 (z : Z) : Z := z mod 18446744073709551616.

(** Two's complement reinterpretation of the low 8, 32 and 64 bits. *)
Definition s8 (z : Z) : Z := let r := u8 z in if r <? 128 then r else r - 256.
Definition s32 (z : Z) : Z :=
  let r := u32 z in if r <? 2147483648 then r else r - 4294967296.
Definition s64 (z : Z) : Z :=
  let r := u64 z in
  if r <? 9223372036854775808 then r else r - 18446744073709551616.


Lemma u8_small z : 0 <= z < 256 -> u8 z = z.
Proof. apply Z.mod_small. Qed.
Lemma u16_small z : 0 <= z < 65536 -> u16 z = z.
Proof. apply Z.mod_small. Qed.
Lemma u32_small z : 0 <= z < 4294967296 -> u32 z = z.
Proof. apply Z.mod_small. Qed.
Lemma u64_small z : 0 <= z < 18446744073709551616 -> u64 z = z.
Proof. apply Z.mod_small. Qed.
Lemma s32_small z : -2147483648 <= z < 2147483648 -> s32 z = z.
Proof.
  intros H. unfold s32, u32.
  destruct (Z.ltb_spec (z mod 4294967296) 2147483648);
    pose proof (Z.mod_pos_bound z 4294967296 eq_refl);
    pose proof (Z.div_mod z 4294967296); lia.
Qed.
Lemma s64_small z :
  -9223372036854775808 <= z < 9223372036854775808 -> s64 z = z.
Proof.
  intros H. unfold s64, u64.
  destruct (Z.ltb_spec (z mod 18446744073709551616) 9223372036854775808);
    pose proof (Z.mod_pos_bound z 18446744073709551616 eq_refl);
    pose proof (Z.div_mod z 18446744073709551616); lia.
Qed.

Lemma u8_range z : 0 <= u8 z < 256.
Proof. by apply Z.mod_pos_bound. Qed.
Lemma u16_range z : 0 <= u16 z < 65536.
Proof. by apply Z.mod_pos_bound. Qed.
Lemma u32_range z : 0 <= u32 z < 4294967296.
Proof. by apply Z.mod_pos_bound. Qed.
Lemma u64_range z : 0 <= u64 z < 18446744073709551616.
Proof. by apply Z.mod_pos_bound. Qed.

(** The ranges of the reinterpretations. *)
Create HintDb width.
#[export] Hint Resolve u8_range u16_range u32_range u64_range : width.
#[export] Hint Rewrite u8_small u16_small u32_small u64_small s32_small s64_small using lia : width.

(** Rewrites away every wrap-around whose argument is known to be in range. *)
Ltac word_simpl :=
  repeat match goal with
  | |- context [u8 ?x] => rewrite (u8_small x) by lia
  | |- context [u16 ?x] => rewrite (u16_small x) by lia
  | |- context [u32 ?x] => rewrite (u32_small x) by lia
  | |- context [u64 ?x] => rewrite (u64_small x) by lia
  | |- context [s32 ?x] => rewrite (s32_small x) by lia
  | |- context [s64 ?x] => rewrite (s64_small x) by lia
  end.

(** ** Error numbers (Linux [errno.h]) *)
Definition ENOENT : Z := 2.
Definition ENOMEM : Z := 12.
Definition EINVAL : Z := 22.
Definition ERANGE : Z := 34.
Definition ENODATA : Z := 61.
Definition EPROTO : Z := 71.
Definition EBADMSG : Z := 74.
Definition EOVERFLOW : Z := 75.
Definition ECONNRESET : Z := 104.
Definition ETIMEDOUT : Z := 110.

(** ** Case analysis on the boolean comparisons of the code *)
Ltac no_if t :=
  lazymatch t with context [if _ then _ else _] => fail | _ => idtac end.

Ltac zcase :=
  repeat match goal with
  | |- context [Z.eqb ?a ?b] =>
      no_if a; no_if b; destruct (Z.eqb_spec a b); subst; try lia
  | |- context [Z.ltb ?a ?b] =>
      no_if a; no_if b; destruct (Z.ltb_spec a b); try lia
  | |- context [Z.leb ?a ?b] =>
      no_if a; no_if b; destruct (Z.leb_spec a b); try lia
  end; simpl; auto.

(** ** Lists *)

Lemma filter_all {A} (P : A -> Prop) `{!forall x, Decision (P x)} (l : list A) :
  (forall x, x ∈ l -> P x) -> filter P l = l.
Proof.
  induction l as [|x l IH]; intros HP; [done|]. rewrite filter_cons_True by (apply HP; by left).
  f_equal. apply IH. intros y Hy. apply HP. by right.
Qed.

(** A decidable statement about a byte is checked on all of them. *)
Lemma byte_cases (P : Z -> bool) :
  forallb P (seqZ 0 256) = true -> forall b, 0 <= b < 256 -> P b = true.
Proof.
  intros H b Hb. rewrite forallb_forall in H. apply H, list_elem_of_In, elem_of_seqZ. lia.
Qed.

(** Or-ing bits above the [k]-th is adding them. *)
Lemma lor_high a k d : 0 <= k -> 0 <= d < 2 ^ k -> Z.lor d (Z.shiftl a k) = d + a * 2 ^ k.
Proof.
  intros Hk Hd.
  assert (Z.land d (Z.shiftl a k) = 0) as E.
  { apply Z.bits_inj'. intros n Hn. rewrite Z.land_spec, Z.bits_0, Z.shiftl_spec by done.
    destruct (Z.lt_ge_cases n k).
    - rewrite (Z.testbit_neg_r a) by lia. apply andb_false_r.
    - rewrite <- (Z.mod_small d (2 ^ k)), Z.mod_pow2_bits_high by lia. done. }
  rewrite <- Z.shiftl_mul_pow2, <- Z.lxor_lor by done. symmetry. by apply Z.add_nocarry_lxor.
Qed.

(** ** String literals of C

    The characters of a literal, with the escape sequences the sources use. *)

Definition code (c : ascii) : Z := Z.of_N (N_of_ascii c).

Fixpoint c_str (s : string) : list Z :=
  match s with
  | EmptyString => []
  | String c r =>
      if Ascii.eqb c (ascii_of_nat 92) then
        match r with
        | String d r =>
            (if Ascii.eqb d "t" then 9 else if Ascii.eqb d "n" then 10
             else if Ascii.eqb d "r" then 13 else code d) :: c_str r
        | EmptyString => []
        end
      else code c :: c_str r
  end.
