(* ===== verification/LinkedList.v ===== *)
(** * Doubly linked lists: src/libre/src/list/list.c

    The elements are embedded in the objects of the program; the model is a heap of
    elements and list headers at addresses, and [None] is an access outside it.
    The refinement relates a heap to the sequences of its lists. *)
From S2P Require Import Prelude.

Module LinkedList.

(** ** The heap *)

Record le := mk_le { prev : Z; next : Z; llist : Z; ldata : Z }.
Record list_t := mk_list { head : Z; tail : Z }.
Record heap := mk_heap { les : gmap Z le; lists : gmap Z list_t }.

Definition set_prev (q : Z) (e : le) : le := mk_le q (next e) (llist e) (ldata e).
Definition set_next (q : Z) (e : le) : le := mk_le (prev e) q (llist e) (ldata e).
Definition set_head (q : Z) (l : list_t) : list_t := mk_list q (tail l).
Definition set_tail (q : Z) (l : list_t) : list_t := mk_list (head l) q.

(** Assignments through a pointer. *)
Definition upd_le (h : heap) (p : Z) (f : le -> le) : option heap :=
  e ← les h !! p; Some (mk_heap (<[p := f e]> (les h)) (lists h)).
Definition upd_list (h : heap) (L : Z) (f : list_t -> list_t) : option heap :=
  l ← lists h !! L; Some (mk_heap (les h) (<[L := f l]> (lists h))).

(** ** The operations; 0 is the null pointer *)

Definition list_init (h : heap) (L : Z) : option heap :=
  if L =? 0 then Some h else upd_list h L (fun _ => mk_list 0 0).

(** The loop of [list_flush] and [list_clear]: the data pointers, in order. *)
Fixpoint clear_loop (fuel : nat) (h : heap) (p : Z) (acc : list Z) : option (heap * list Z) :=
  if p =? 0 then Some (h, acc)
  else match fuel with
  | O => None
  | S fuel =>
      e ← les h !! p;
      h ← upd_le h p (fun _ => mk_le 0 0 0 0);
      clear_loop fuel h (next e) (acc ++ [ldata e])
  end.

(** An element occurs once in a list, so the loops end after [size (les h)] steps. *)
Definition enough (h : heap) : nat := S (size (les h)).

(** The data pointers are passed to [mem_deref]. *)
Definition list_flush (h : heap) (L : Z) : option (heap * list Z) :=
  if L =? 0 then Some (h, [])
  else l ← lists h !! L;
       '(h, ds) ← clear_loop (enough h) h (head l) [];
       h ← list_init h L; Some (h, ds).

Definition list_clear (h : heap) (L : Z) : option heap :=
  if L =? 0 then Some h
  else l ← lists h !! L;
       '(h, _) ← clear_loop (enough h) h (head l) [];
       list_init h L.

Definition list_append (h : heap) (L p d : Z) : option heap :=
  if (L =? 0) || (p =? 0) then Some h
  else e ← les h !! p;
    if negb (llist e =? 0) then Some h
    else
      l ← lists h !! L;
      h ← upd_le h p (fun _ => mk_le (tail l) 0 L d);
      h ← (if head l =? 0 then upd_list h L (set_head p) else Some h);
      h ← (if tail l =? 0 then Some h else upd_le h (tail l) (set_next p));
      upd_list h L (set_tail p).

Definition list_prepend (h : heap) (L p d : Z) : option heap :=
  if (L =? 0) || (p =? 0) then Some h
  else e ← les h !! p;
    if negb (llist e =? 0) then Some h
    else
      l ← lists h !! L;
      h ← upd_le h p (fun _ => mk_le 0 (head l) L d);
      h ← (if head l =? 0 then Some h else upd_le h (head l) (set_prev p));
      h ← (if tail l =? 0 then upd_list h L (set_tail p) else Some h);
      upd_list h L (set_head p).

Definition list_insert_before (h : heap) (L q p d : Z) : option heap :=
  if (L =? 0) || (q =? 0) || (p =? 0) then Some h
  else e ← les h !! p;
    if negb (llist e =? 0) then Some h
    else
      c ← les h !! q; l ← lists h !! L;
      h ← (if negb (prev c =? 0) then upd_le h (prev c) (set_next p)
           else if head l =? q then upd_list h L (set_head p) else Some h);
      h ← upd_le h p (fun _ => mk_le (prev c) q L d);
      upd_le h q (set_prev p).

Definition list_insert_after (h : heap) (L q p d : Z) : option heap :=
  if (L =? 0) || (q =? 0) || (p =? 0) then Some h
  else e ← les h !! p;
    if negb (llist e =? 0) then Some h
    else
      c ← les h !! q; l ← lists h !! L;
      h ← (if negb (next c =? 0) then upd_le h (next c) (set_prev p)
           else if tail l =? q then upd_list h L (set_tail p) else Some h);
      h ← upd_le h p (fun _ => mk_le q (next c) L d);
      upd_le h q (set_next p).

Definition list_unlink (h : heap) (p : Z) : option heap :=
  if p =? 0 then Some h
  else e ← les h !! p;
    if llist e =? 0 then Some h
    else
      h ← (if prev e =? 0 then upd_list h (llist e) (set_head (next e))
           else upd_le h (prev e) (set_next (next e)));
      e ← les h !! p;
      h ← (if next e =? 0 then upd_list h (llist e) (set_tail (prev e))
           else upd_le h (next e) (set_prev (prev e)));
      upd_le h p (fun e => mk_le 0 0 0 (ldata e)).

(** The sort handler is given the elements with their data. *)
Fixpoint sort_pass (fuel : nat) (sh : Z * Z -> Z * Z -> bool) (h : heap) (L p : Z) (sort : bool) :
    option (heap * bool) :=
  if p =? 0 then Some (h, sort)
  else
    e ← les h !! p;
    if next e =? 0 then Some (h, sort)
    else match fuel with
    | O => None
    | S fuel =>
        e' ← les h !! next e;
        if sh (p, ldata e) (next e, ldata e') then sort_pass fuel sh h L (next e) sort
        else
          h ← list_unlink h p;
          e1 ← les h !! p;
          h ← list_insert_after h L (next e) p (ldata e1);
          sort_pass fuel sh h L p true
    end.

(** [None] also when [fuel] passes, of at most [fuel] steps, are not enough. *)
Fixpoint sort_retry (n fuel : nat) (sh : Z * Z -> Z * Z -> bool) (h : heap) (L : Z) : option heap :=
  match n with
  | O => None
  | S n =>
      l ← lists h !! L;
      '(h, sort) ← sort_pass fuel sh h L (head l) false;
      if sort : bool then sort_retry n fuel sh h L else Some h
  end.

Definition list_sort (fuel : nat) (h : heap) (L : Z) (sh : Z * Z -> Z * Z -> bool) : option heap :=
  if L =? 0 then Some h else sort_retry fuel fuel sh h L.

Fixpoint apply_loop (fuel : nat) (h : heap) (fwd : bool) (ah : Z -> Z -> bool) (p : Z) : option Z :=
  if p =? 0 then Some 0
  else match fuel with
  | O => None
  | S fuel =>
      e ← les h !! p;
      if ah p (ldata e) then Some p
      else apply_loop fuel h fwd ah (if fwd then next e else prev e)
  end.

Definition list_apply (h : heap) (L : Z) (fwd : bool) (ah : Z -> Z -> bool) : option Z :=
  if L =? 0 then Some 0
  else l ← lists h !! L;
       apply_loop (enough h) h fwd ah (if fwd then head l else tail l).

Definition list_head (h : heap) (L : Z) : option Z :=
  if L =? 0 then Some 0 else l ← lists h !! L; Some (head l).
Definition list_tail (h : heap) (L : Z) : option Z :=
  if L =? 0 then Some 0 else l ← lists h !! L; Some (tail l).

Fixpoint count_loop (fuel : nat) (h : heap) (p n : Z) : option Z :=
  if p =? 0 then Some n
  else match fuel with
  | O => None
  | S fuel => e ← les h !! p; count_loop fuel h (next e) (u32 (n + 1))
  end.

Definition list_count (h : heap) (L : Z) : option Z :=
  if L =? 0 then Some 0 else l ← lists h !! L; count_loop (enough h) h (head l) 0.

Definition list_ledata (h : heap) (p : Z) : option Z :=
  if p =? 0 then Some 0 else e ← les h !! p; Some (ldata e).
Definition list_contains (h : heap) (L p : Z) : option bool :=
  if p =? 0 then Some false else e ← les h !! p; Some (llist e =? L).
Definition list_isempty (h : heap) (L : Z) : option bool :=
  if L =? 0 then Some true else l ← lists h !! L; Some (head l =? 0).

(** ** The sequences of a heap *)

(** The elements with their data, in order. *)
Abbreviation seq := (list (Z * Z)).

Definition hd0 (xs : seq) : Z := match xs with [] => 0 | x :: _ => fst x end.
Definition last0 (xs : seq) : Z := match last xs with Some x => fst x | None => 0 end.

Record heap_ok (h : heap) (ls : gmap Z seq) : Prop := {
  ho_null : les h !! 0 = None;
  ho_list : forall L xs, ls !! L = Some xs ->
    L <> 0 /\ NoDup xs.*1 /\ lists h !! L = Some (mk_list (hd0 xs) (last0 xs));
  ho_cell : forall L xs l1 p d l2, ls !! L = Some xs -> xs = l1 ++ (p, d) :: l2 ->
    les h !! p = Some (mk_le (last0 l1) (hd0 l2) L d);
  ho_free : forall p e, les h !! p = Some e -> llist e = 0 \/
    exists xs, ls !! llist e = Some xs /\ p ∈ xs.*1 }.

Lemma hd0_in xs : hd0 xs = 0 \/ hd0 xs ∈ xs.*1.
Proof. destruct xs as [|x xs]; simpl; [by left|right; by left]. Qed.
Lemma last0_snoc xs x : last0 (xs ++ [x]) = fst x.
Proof. unfold last0. by rewrite last_snoc. Qed.
Lemma last0_app xs x ys : last0 (xs ++ x :: ys) = last0 (x :: ys).
Proof. unfold last0. by rewrite last_app_cons. Qed.
Lemma last0_in xs : last0 xs = 0 \/ last0 xs ∈ xs.*1.
Proof.
  destruct xs as [|x xs _] using rev_ind; [by left|]. rewrite last0_snoc. right.
  rewrite fmap_app. apply elem_of_app. right. by left.
Qed.

Lemma cell_in h ls L xs q : heap_ok h ls -> ls !! L = Some xs -> q ∈ xs.*1 ->
  exists l1 d l2, xs = l1 ++ (q, d) :: l2 /\ les h !! q = Some (mk_le (last0 l1) (hd0 l2) L d).
Proof.
  intros Hh HL ([q' d]&->&(l1&l2&->)%list_elem_of_split)%list_elem_of_fmap.
  exists l1, d, l2. split; [done|]. by eapply ho_cell.
Qed.

Lemma elem_nonzero h ls L xs q : heap_ok h ls -> ls !! L = Some xs -> q ∈ xs.*1 -> q <> 0.
Proof.
  intros Hh HL Hq ->. destruct (cell_in h ls L xs 0 Hh HL Hq) as (?&?&?&_&E).
  by rewrite (ho_null _ _ Hh) in E.
Qed.

(** *** The elements around a position that is changed *)

(** [A]'s last element is followed by [x], [B]'s first preceded by [y]. *)
Definition around (A B : seq) (x y : Z) (m : gmap Z le) : gmap Z le :=
  alter (set_prev y) (hd0 B) (alter (set_next x) (last0 A) m).

Section Around.
Context (h : heap) (ls : gmap Z seq) (L : Z) (A M B : seq) (x y : Z).
Context (Hh : heap_ok h ls) (HL : ls !! L = Some (A ++ M ++ B)).

Lemma around_nodup : NoDup (A ++ M ++ B).*1.
Proof. apply (ho_list _ _ Hh _ _ HL). Qed.

Lemma around_disjoint q : q ∈ A.*1 -> q ∈ B.*1 -> False.
Proof.
  intros Ha Hb. pose proof around_nodup as H. rewrite !fmap_app in H.
  apply NoDup_app in H as (_&H&_). apply (H q); [done|]. apply elem_of_app. by right.
Qed.

Lemma around_nonzero q : q ∈ A.*1 \/ q ∈ B.*1 -> q <> 0.
Proof.
  intros Hq. apply (elem_nonzero h ls L _ q Hh HL). rewrite !fmap_app, !elem_of_app. tauto.
Qed.

Lemma around_other q : ~ (q ∈ A.*1) -> ~ (q ∈ B.*1) -> around A B x y (les h) !! q = les h !! q.
Proof.
  intros Ha Hb. unfold around.
  assert (forall m f k, m !! 0 = None -> k = 0 \/ k <> q -> alter f k m !! q = (m : gmap Z le) !! q) as Halt.
  { intros m f k H0 Hk. destruct (decide (k = q)) as [->|]; [|by rewrite lookup_alter_ne].
    destruct Hk as [->|]; [|done]. by rewrite lookup_alter_eq, H0. }
  rewrite !Halt; try done.
  - apply (ho_null _ _ Hh).
  - destruct (last0_in A) as [|Hin]; [by left|]. right. by intros <-.
  - destruct (decide (last0 A = 0)) as [->|]; [by rewrite lookup_alter_eq, (ho_null _ _ Hh)|].
    rewrite lookup_alter_ne by done. apply (ho_null _ _ Hh).
  - destruct (hd0_in B) as [|Hin]; [by left|]. right. by intros <-.
Qed.

Lemma around_left l1 q d l2 : A = l1 ++ (q, d) :: l2 ->
  around A B x y (les h) !! q =
    Some (mk_le (last0 l1) (match l2 with [] => x | _ => hd0 l2 end) L d).
Proof.
  intros EA. assert (q ∈ A.*1) as Hq.
  { rewrite EA, fmap_app. apply elem_of_app. right. by left. }
  assert (les h !! q = Some (mk_le (last0 l1) (hd0 (l2 ++ M ++ B)) L d)) as Hc.
  { apply (ho_cell _ _ Hh L (A ++ M ++ B) l1 q d (l2 ++ M ++ B)); [done|].
    rewrite EA, <- app_assoc. done. }
  unfold around. rewrite lookup_alter_ne.
  2: { destruct (hd0_in B) as [->|Hin].
       - intros E. by apply (around_nonzero q); [left|].
       - intros E. rewrite E in Hin. by apply (around_disjoint q). }
  destruct l2 as [|[r dr] l2].
  - assert (last0 A = q) as -> by (rewrite EA; apply last0_snoc).
    by rewrite lookup_alter_eq, Hc.
  - rewrite lookup_alter_ne; [by rewrite Hc|]. rewrite EA, last0_app. unfold last0.
    intros E. pose proof around_nodup as Hn. rewrite EA, !fmap_app in Hn.
    apply NoDup_app in Hn as (Hn&_&_). apply NoDup_app in Hn as (_&_&Hn). simpl in Hn.
    apply NoDup_cons in Hn as [Hn _]. apply Hn. rewrite last_cons_cons in E.
    destruct (last ((r, dr) :: l2)) as [[s ds]|] eqn:El; [|by rewrite last_None in El].
    simpl in E. subst q. apply last_Some in El as (l'&El).
    assert (s ∈ ((r, dr) :: l2).*1) as Hin; [|exact Hin].
    rewrite El, fmap_app. apply elem_of_app. right. by left.
Qed.

Lemma around_right l1 q d l2 : B = l1 ++ (q, d) :: l2 ->
  around A B x y (les h) !! q =
    Some (mk_le (match l1 with [] => y | _ => last0 l1 end) (hd0 l2) L d).
Proof.
  intros EB. assert (q ∈ B.*1) as Hq.
  { rewrite EB, fmap_app. apply elem_of_app. right. by left. }
  assert (les h !! q = Some (mk_le (last0 (A ++ M ++ l1)) (hd0 l2) L d)) as Hc.
  { apply (ho_cell _ _ Hh L (A ++ M ++ B) (A ++ M ++ l1) q d l2); [done|].
    rewrite EB, <- !app_assoc. done. }
  assert (alter (set_next x) (last0 A) (les h) !! q = Some (mk_le (last0 (A ++ M ++ l1)) (hd0 l2) L d)) as Ha.
  { rewrite lookup_alter_ne; [done|]. destruct (last0_in A) as [->|Hin].
    - intros E. by apply (around_nonzero q); [right|].
    - intros E. rewrite E in Hin. by apply (around_disjoint q). }
  unfold around. destruct l1 as [|[r dr] l1].
  - assert (hd0 B = q) as -> by by rewrite EB. by rewrite lookup_alter_eq, Ha.
  - rewrite lookup_alter_ne.
    + rewrite Ha. do 2 f_equal. by rewrite (app_assoc A M), last0_app.
    + rewrite EB. simpl. intros E. pose proof around_nodup as Hn.
      rewrite EB, !fmap_app in Hn. apply NoDup_app in Hn as (_&_&Hn).
      apply NoDup_app in Hn as (_&_&Hn). simpl in Hn. apply NoDup_cons in Hn as [Hn _].
      apply Hn. subst r. apply elem_of_app. right. by left.
Qed.

End Around.

(** *** Linking and unlinking an element *)

Definition header (xs : seq) : list_t := mk_list (hd0 xs) (last0 xs).

Definition link (h : heap) (L : Z) (A B : seq) (p d : Z) : heap :=
  mk_heap (<[p := mk_le (last0 A) (hd0 B) L d]> (around A B p p (les h)))
          (<[L := header (A ++ (p, d) :: B)]> (lists h)).

Definition unlink (h : heap) (L : Z) (A B : seq) (p d : Z) : heap :=
  mk_heap (<[p := mk_le 0 0 0 d]> (around A B (hd0 B) (last0 A) (les h)))
          (<[L := header (A ++ B)]> (lists h)).

Lemma free_not_in h ls p e L xs : heap_ok h ls -> les h !! p = Some e -> llist e = 0 ->
  ls !! L = Some xs -> ~ (p ∈ xs.*1).
Proof.
  intros Hh He H0 HL Hin. destruct (cell_in h ls L xs p Hh HL Hin) as (?&?&?&_&E).
  destruct (ho_list _ _ Hh L xs HL) as [HL0 _]. simplify_eq/=.
Qed.

Lemma other_list h ls L L' xs xs' q : heap_ok h ls -> ls !! L = Some xs -> ls !! L' = Some xs' ->
  L <> L' -> q ∈ xs.*1 -> ~ (q ∈ xs'.*1).
Proof.
  intros Hh HL HL' Hne Hq Hq'.
  destruct (cell_in h ls L xs q Hh HL Hq) as (?&?&?&_&E).
  destruct (cell_in h ls L' xs' q Hh HL' Hq') as (?&?&?&_&E'). simplify_eq.
Qed.

Lemma app_fst (A M B : seq) q : q ∈ (A ++ M ++ B).*1 <-> q ∈ A.*1 \/ q ∈ M.*1 \/ q ∈ B.*1.
Proof. rewrite !fmap_app, !elem_of_app. tauto. Qed.

(** What holds of the cells after any change around one position. *)
Lemma around_elsewhere h ls L A M B x y L' xs q : heap_ok h ls -> ls !! L = Some (A ++ M ++ B) ->
  ls !! L' = Some xs -> L <> L' -> q ∈ xs.*1 -> around A B x y (les h) !! q = les h !! q.
Proof.
  intros Hh HL HL' Hne Hq. apply (around_other h ls A B x y Hh).
  - intros Hin. apply (other_list h ls L L' (A ++ M ++ B) xs q); try done. apply app_fst. tauto.
  - intros Hin. apply (other_list h ls L L' (A ++ M ++ B) xs q); try done. apply app_fst. tauto.
Qed.

Lemma around_dom A B x y m q : is_Some (around A B x y m !! q) <-> is_Some (m !! q).
Proof. unfold around. by rewrite !lookup_alter_is_Some. Qed.

Lemma around_list A B x y m q e : around A B x y m !! q = Some e ->
  exists e0, m !! q = Some e0 /\ llist e0 = llist e.
Proof.
  unfold around. intros H. apply lookup_alter_Some in H as [(<-&e1&H&->)|(_&H)];
    apply lookup_alter_Some in H as [(<-&e0&H&->)|(_&H)]; by eexists.
Qed.

Lemma link_ok h ls L A B p d e : heap_ok h ls -> ls !! L = Some (A ++ B) ->
  les h !! p = Some e -> llist e = 0 ->
  heap_ok (link h L A B p d) (<[L := A ++ (p, d) :: B]> ls).
Proof.
  intros Hh HL He H0. pose proof (free_not_in h ls p e L _ Hh He H0 HL) as Hp.
  assert (p <> 0) as Hp0 by (intros ->; by rewrite (ho_null _ _ Hh) in He).
  destruct (ho_list _ _ Hh L _ HL) as (HL0&Hnd&_).
  assert (ls !! L = Some (A ++ [] ++ B)) as HL' by done.
  pose proof (around_nonzero h ls L A [] B Hh HL') as Hnz.
  split; unfold link; cbn [les lists].
  - rewrite lookup_insert_ne by done.
    rewrite (around_other h ls A B p p Hh) by (done || intros ?; by apply (Hnz 0); auto).
    apply (ho_null _ _ Hh).
  - intros L' xs. destruct (decide (L' = L)) as [->|Hne].
    + rewrite !lookup_insert_eq. intros [= <-]. split_and!; [done| |done].
      rewrite fmap_app in Hnd, Hp |- *. rewrite fmap_cons. cbn [fst].
      rewrite elem_of_app in Hp. apply NoDup_app in Hnd as (H1&H2&H3). apply NoDup_app.
      split_and!; [done| |apply NoDup_cons; split; [tauto|done]].
      intros q Hq [->|Hq']%elem_of_cons; [tauto|by apply (H2 q)].
    + rewrite !lookup_insert_ne by done. apply (ho_list _ _ Hh).
  - intros L' xs l1 q dq l2. destruct (decide (L' = L)) as [->|Hne].
    + rewrite lookup_insert_eq. intros [= <-] Hxs.
      apply app_eq_app in Hxs as (l&[[EA EB]|[EA EB]]); (destruct l as [|[a da] l]; simpl in EB).
      * injection EB as -> -> ->. by rewrite EA, app_nil_r, lookup_insert_eq.
      * injection EB as <- <- ->. subst A. rewrite lookup_insert_ne.
        2: { intros ->. apply Hp. rewrite <- app_assoc, !fmap_app, !elem_of_app. right. left. by left. }
        rewrite (around_left h ls L _ [] B p p Hh HL l1 q dq l eq_refl). by destruct l.
      * injection EB as -> -> ->. by rewrite EA, app_nil_r, lookup_insert_eq.
      * injection EB as <- <- ->. subst l1. rewrite lookup_insert_ne.
        2: { intros ->. apply Hp. rewrite !fmap_app, !elem_of_app. right. right. by left. }
        rewrite (around_right h ls L A [] _ p p Hh HL l q dq l2 eq_refl).
        rewrite last0_app. destruct l as [|z l]; [done|]. unfold last0. by rewrite last_cons_cons.
    + rewrite lookup_insert_ne by done. intros HLx ->.
      assert (q ∈ (l1 ++ (q, dq) :: l2).*1) as Hq by (rewrite fmap_app, elem_of_app; right; by left).
      rewrite lookup_insert_ne.
      2: { intros ->. by apply (free_not_in h ls q e L' _ Hh He H0 HLx). }
      rewrite (around_elsewhere h ls L A [] B p p L' _ q Hh HL' HLx) by done.
      by apply (ho_cell _ _ Hh L' (l1 ++ (q, dq) :: l2)).
  - intros q c. destruct (decide (q = p)) as [->|Hne].
    + rewrite lookup_insert_eq. intros [= <-]. right. exists (A ++ (p, d) :: B).
      rewrite lookup_insert_eq. split; [done|]. rewrite fmap_app, elem_of_app. right. by left.
    + rewrite lookup_insert_ne by done. intros (c0&Hc&<-)%around_list.
      destruct (ho_free _ _ Hh q c0 Hc) as [|(xs&Hx&Hq)]; [by left|right].
      destruct (decide (llist c0 = L)) as [El|]; [|exists xs; by rewrite lookup_insert_ne].
      exists (A ++ (p, d) :: B). rewrite El, lookup_insert_eq. split; [done|].
      rewrite El, HL in Hx. injection Hx as <-. rewrite fmap_app, elem_of_app in Hq. rewrite fmap_app, elem_of_app, fmap_cons, elem_of_cons. tauto.
Qed.

Lemma unlink_ok h ls L A B p d : heap_ok h ls -> ls !! L = Some (A ++ (p, d) :: B) ->
  heap_ok (unlink h L A B p d) (<[L := A ++ B]> ls).
Proof.
  intros Hh HL. destruct (ho_list _ _ Hh L _ HL) as (HL0&Hnd&_).
  assert (ls !! L = Some (A ++ [(p, d)] ++ B)) as HL' by done.
  assert (~ (p ∈ (A ++ B).*1) /\ NoDup (A ++ B).*1) as [Hp Hnd'].
  { rewrite !fmap_app, elem_of_app in *. rewrite fmap_cons in Hnd. cbn [fst] in Hnd.
    apply NoDup_app in Hnd as (H1&H2&[H3 H4]%NoDup_cons). split; [intros [Hq|Hq]|].
    - apply (H2 p); [done|by left].
    - done.
    - apply NoDup_app. split_and!; [done| |done]. intros q Hq Hq'. apply (H2 q); [done|by right]. }
  assert (p <> 0) as Hp0.
  { apply (elem_nonzero h ls L _ p Hh HL). rewrite fmap_app, elem_of_app. right. by left. }
  pose proof (around_nonzero h ls L A [(p, d)] B Hh HL') as Hnz.
  split; unfold unlink; cbn [les lists].
  - rewrite lookup_insert_ne by done.
    rewrite (around_other h ls A B (hd0 B) (last0 A) Hh) by (done || intros ?; by apply (Hnz 0); auto).
    apply (ho_null _ _ Hh).
  - intros L' xs. destruct (decide (L' = L)) as [->|Hne].
    + rewrite !lookup_insert_eq. by intros [= <-].
    + rewrite !lookup_insert_ne by done. apply (ho_list _ _ Hh).
  - intros L' xs l1 q dq l2. destruct (decide (L' = L)) as [->|Hne].
    + rewrite lookup_insert_eq. intros [= <-] Hxs.
      rewrite lookup_insert_ne.
      2: { intros ->. apply Hp. rewrite Hxs, fmap_app, elem_of_app. right. by left. }
      apply app_eq_app in Hxs as (l&[[EA EB]|[EA EB]]).
      * destruct l as [|[a da] l]; simpl in EB.
        -- rewrite app_nil_r in EA. subst A.
           rewrite (around_right h ls L l1 [(p, d)] B (hd0 B) (last0 l1) Hh HL' [] q dq l2 (eq_sym EB)).
           done.
        -- injection EB as <- <- ->. subst A.
           rewrite (around_left h ls L _ [(p, d)] B (hd0 B) (last0 (l1 ++ (q, dq) :: l)) Hh HL'
             l1 q dq l eq_refl). by destruct l.
      * subst l1. rewrite (around_right h ls L A [(p, d)] B (hd0 B) (last0 A) Hh HL' l q dq l2 EB).
        destruct l as [|z l]; [by rewrite app_nil_r|]. by rewrite last0_app.
    + rewrite lookup_insert_ne by done. intros HLx ->.
      assert (q ∈ (l1 ++ (q, dq) :: l2).*1) as Hq by (rewrite fmap_app, elem_of_app; right; by left).
      rewrite lookup_insert_ne.
      2: { intros ->. apply (other_list h ls L' L _ _ q Hh HLx HL); [done|done|].
           rewrite fmap_app, elem_of_app. right. by left. }
      rewrite (around_elsewhere h ls L A [(p, d)] B _ _ L' _ q Hh HL' HLx) by done.
      by apply (ho_cell _ _ Hh L' (l1 ++ (q, dq) :: l2)).
  - intros q c. destruct (decide (q = p)) as [->|Hne].
    + rewrite lookup_insert_eq. intros [= <-]. by left.
    + rewrite lookup_insert_ne by done. intros (c0&Hc&<-)%around_list.
      destruct (ho_free _ _ Hh q c0 Hc) as [|(xs&Hx&Hq)]; [by left|right].
      destruct (decide (llist c0 = L)) as [El|]; [|exists xs; by rewrite lookup_insert_ne].
      exists (A ++ B). rewrite El, lookup_insert_eq. split; [done|].
      rewrite El, HL in Hx. injection Hx as <-. rewrite fmap_app, elem_of_app, fmap_cons, elem_of_cons in Hq.
      cbn [fst] in Hq. rewrite fmap_app, elem_of_app. tauto.
Qed.

(** *** The code links and unlinks *)

Lemma alter_some {A} (m : gmap Z A) f k c : m !! k = Some c -> alter f k m = <[k := f c]> m.
Proof.
  intros Hk. apply map_eq. intros j. destruct (decide (j = k)) as [->|].
  - by rewrite lookup_alter_eq, lookup_insert_eq, Hk.
  - by rewrite lookup_alter_ne, lookup_insert_ne.
Qed.
Lemma alter_none {A} (m : gmap Z A) f k : m !! k = None -> alter f k m = m.
Proof.
  intros Hk. apply map_eq. intros j. destruct (decide (j = k)) as [->|].
  - by rewrite lookup_alter_eq, Hk.
  - by rewrite lookup_alter_ne.
Qed.

Lemma upd_le_some h p f e : les h !! p = Some e ->
  upd_le h p f = Some (mk_heap (<[p := f e]> (les h)) (lists h)).
Proof. intros E. unfold upd_le. by rewrite E. Qed.
Lemma upd_list_some h L f l : lists h !! L = Some l ->
  upd_list h L f = Some (mk_heap (les h) (<[L := f l]> (lists h))).
Proof. intros E. unfold upd_list. by rewrite E. Qed.

Lemma last_cell h ls L ys t dt B : heap_ok h ls -> ls !! L = Some ((ys ++ [(t, dt)]) ++ B) ->
  les h !! t = Some (mk_le (last0 ys) (hd0 B) L dt).
Proof.
  intros Hh HL. apply (ho_cell _ _ Hh L _ ys t dt B HL). by rewrite <- app_assoc.
Qed.

Lemma hd0_app ys x B C : hd0 ((ys ++ [x]) ++ B) = hd0 ((ys ++ [x]) ++ C).
Proof. by destruct ys. Qed.
Lemma hd0_snoc ys x B : hd0 ((ys ++ [x]) ++ B) = hd0 (ys ++ [x]).
Proof. by destruct ys. Qed.

Lemma append_links h ls L xs p d e : heap_ok h ls -> ls !! L = Some xs ->
  les h !! p = Some e -> llist e = 0 -> list_append h L p d = Some (link h L xs [] p d).
Proof.
  intros Hh HL He H0. pose proof (free_not_in h ls p e L xs Hh He H0 HL) as Hp.
  assert (p <> 0) as Hp0 by (intros ->; by rewrite (ho_null _ _ Hh) in He).
  destruct (ho_list _ _ Hh L _ HL) as (HL0&_&Hl).
  unfold list_append. destruct (Z.eqb_spec L 0), (Z.eqb_spec p 0); try done. simpl.
  rewrite He. simpl. rewrite H0, Hl. simpl. rewrite (upd_le_some h p _ e He). simpl.
  unfold link, around. cbn [hd0].
  destruct xs as [|[t dt] ys _] using rev_ind.
  - simpl. unfold upd_list. simpl. rewrite Hl. simpl. rewrite lookup_insert_eq. simpl.
    rewrite insert_insert_eq. unfold last0. simpl.
    by rewrite !(alter_none (les h)) by apply (ho_null _ _ Hh).
  - assert (t ∈ (ys ++ [(t, dt)]).*1) as Ht by (rewrite fmap_app, elem_of_app; right; by left).
    pose proof (last_cell h ls L ys t dt [] Hh ltac:(by rewrite app_nil_r)) as Hc.
    assert (t <> p) as Htp by by intros ->.
    pose proof (elem_nonzero h ls L _ t Hh HL Ht) as Ht0.
    assert (hd0 (ys ++ [(t, dt)]) <> 0) as Hh0.
    { destruct ys as [|[y dy] ys]; [done|]. apply (elem_nonzero h ls L _ y Hh HL). by left. }
    rewrite last0_snoc. cbn [fst]. destruct (Z.eqb_spec (hd0 (ys ++ [(t, dt)])) 0); [done|].
    destruct (Z.eqb_spec t 0); [done|]. unfold upd_le, upd_list. simpl.
    rewrite lookup_insert_ne by done. rewrite Hc. simpl. rewrite Hl. simpl.
    rewrite insert_insert_ne by done. f_equal. f_equal.
    + rewrite (alter_some (les h) _ t _ Hc). rewrite alter_none; [done|].
      rewrite lookup_insert_ne by done. apply (ho_null _ _ Hh).
    + unfold header, set_tail. cbn [head]. by rewrite last0_snoc, hd0_snoc.
Qed.

Lemma prepend_links h ls L xs p d e : heap_ok h ls -> ls !! L = Some xs ->
  les h !! p = Some e -> llist e = 0 -> list_prepend h L p d = Some (link h L [] xs p d).
Proof.
  intros Hh HL He H0. pose proof (free_not_in h ls p e L xs Hh He H0 HL) as Hp.
  assert (p <> 0) as Hp0 by (intros ->; by rewrite (ho_null _ _ Hh) in He).
  destruct (ho_list _ _ Hh L _ HL) as (HL0&_&Hl).
  unfold list_prepend. destruct (Z.eqb_spec L 0), (Z.eqb_spec p 0); try done. simpl.
  rewrite He. simpl. rewrite H0, Hl. simpl. rewrite (upd_le_some h p _ e He). simpl.
  unfold link, around. change (last0 []) with 0.
  rewrite (alter_none (les h) _ 0) by apply (ho_null _ _ Hh).
  destruct xs as [|[t dt] ys].
  - simpl. unfold upd_list. simpl. rewrite Hl. simpl. rewrite lookup_insert_eq. simpl.
    rewrite insert_insert_eq. by rewrite alter_none by apply (ho_null _ _ Hh).
  - assert (t ∈ ((t, dt) :: ys).*1) as Ht by by left.
    pose proof (ho_cell _ _ Hh L _ [] t dt ys HL eq_refl) as Hc.
    assert (t <> p) as Htp by by intros ->.
    pose proof (elem_nonzero h ls L _ t Hh HL Ht) as Ht0.
    assert (last0 ((t, dt) :: ys) <> 0) as Hh0.
    { destruct (last0_in ((t, dt) :: ys)) as [E|Hin]; [|by apply (elem_nonzero h ls L _ _ Hh HL)].
      destruct ys as [|y ys _] using rev_ind; [done|].
      rewrite app_comm_cons, last0_snoc in *. rewrite E.
      apply (elem_nonzero h ls L _ 0 Hh HL). rewrite <- E, fmap_app, elem_of_app. right. by left. }
    cbn [hd0 fst]. destruct (Z.eqb_spec (last0 ((t, dt) :: ys)) 0); [done|].
    destruct (Z.eqb_spec t 0); [done|]. unfold upd_le, upd_list. simpl.
    rewrite lookup_insert_ne by done. rewrite Hc. simpl. rewrite Hl. simpl.
    rewrite insert_insert_ne by done. f_equal. f_equal.
    + by rewrite (alter_some (les h) _ t _ Hc).
Qed.

(** The element before a position, if there is one. *)
Lemma last0_cases A : (A = [] /\ last0 A = 0) \/
  exists ys a da, A = ys ++ [(a, da)] /\ last0 A = a.
Proof.
  destruct A as [|[a da] ys _] using rev_ind; [by left|right]. exists ys, a, da.
  by rewrite last0_snoc.
Qed.
Lemma hd0_cases B : (B = [] /\ hd0 B = 0) \/ exists b db zs, B = (b, db) :: zs /\ hd0 B = b.
Proof. destruct B as [|[b db] zs]; [by left|right; by exists b, db, zs]. Qed.

Lemma before_links h ls L A q dq B p d e : heap_ok h ls -> ls !! L = Some (A ++ (q, dq) :: B) ->
  les h !! p = Some e -> llist e = 0 ->
  list_insert_before h L q p d = Some (link h L A ((q, dq) :: B) p d).
Proof.
  intros Hh HL He H0. pose proof (free_not_in h ls p e L _ Hh He H0 HL) as Hp.
  assert (p <> 0) as Hp0 by (intros ->; by rewrite (ho_null _ _ Hh) in He).
  assert (q ∈ (A ++ (q, dq) :: B).*1) as Hq by (rewrite fmap_app, elem_of_app; right; by left).
  pose proof (elem_nonzero h ls L _ q Hh HL Hq) as Hq0.
  assert (q <> p) as Hqp by by intros ->.
  pose proof (ho_cell _ _ Hh L _ A q dq B HL eq_refl) as Hc.
  destruct (ho_list _ _ Hh L _ HL) as (HL0&Hnd&Hl).
  unfold list_insert_before.
  destruct (Z.eqb_spec L 0), (Z.eqb_spec q 0), (Z.eqb_spec p 0); try done.
  cbn [orb]. rewrite He. cbn [mbind option_bind]. rewrite H0. cbn [negb Z.eqb].
  rewrite Hc, Hl. cbn [mbind option_bind prev head].
  unfold link, around. cbn [hd0 fst].
  destruct (last0_cases A) as [[-> El]|(ys&a&da&->&El)]; rewrite El.
  - cbn [Z.eqb negb app hd0 fst]. rewrite Z.eqb_refl.
    rewrite (upd_list_some h L _ _ Hl). cbn [mbind option_bind].
    erewrite upd_le_some by exact He. cbn [mbind option_bind les lists].
    erewrite upd_le_some by (cbn [les]; rewrite lookup_insert_ne by done; exact Hc).
    cbn [les lists]. rewrite insert_insert_ne by done.
    rewrite (alter_none (les h)) by apply (ho_null _ _ Hh). by rewrite (alter_some (les h) _ q _ Hc).
  - assert (a ∈ ((ys ++ [(a, da)]) ++ (q, dq) :: B).*1) as Ha.
    { rewrite !fmap_app, !elem_of_app. left. right. by left. }
    pose proof (elem_nonzero h ls L _ a Hh HL Ha) as Ha0.
    assert (a <> p) as Hap by by intros ->.
    assert (a <> q) as Haq.
    { intros ->. apply (around_disjoint h ls L (ys ++ [(q, da)]) [] ((q, dq) :: B) Hh HL q);
        [rewrite fmap_app, elem_of_app; right|]; by left. }
    pose proof (last_cell h ls L ys a da ((q, dq) :: B) Hh HL) as Hca.
    destruct (Z.eqb_spec a 0); [done|]. cbn [negb].
    rewrite (upd_le_some h a _ _ Hca). cbn [mbind option_bind].
    erewrite upd_le_some by (cbn [les]; rewrite lookup_insert_ne by done; exact He).
    cbn [mbind option_bind les lists].
    erewrite upd_le_some by (cbn [les]; rewrite !lookup_insert_ne by done; exact Hc).
    cbn [les lists]. rewrite insert_insert_ne by done. f_equal. f_equal.
    + rewrite (alter_some (les h) _ a _ Hca). f_equal. rewrite (alter_some _ _ q (mk_le a (hd0 B) L dq)).
      * by rewrite El.
      * rewrite lookup_insert_ne by done. by rewrite Hc, El.
    + rewrite insert_id; [done|]. rewrite Hl. unfold header. f_equal. f_equal.
      * by rewrite !hd0_snoc.
      * by rewrite !last0_app.
Qed.

Lemma after_links h ls L A q dq B p d e : heap_ok h ls -> ls !! L = Some (A ++ (q, dq) :: B) ->
  les h !! p = Some e -> llist e = 0 ->
  list_insert_after h L q p d = Some (link h L (A ++ [(q, dq)]) B p d).
Proof.
  intros Hh HL He H0. pose proof (free_not_in h ls p e L _ Hh He H0 HL) as Hp.
  assert (p <> 0) as Hp0 by (intros ->; by rewrite (ho_null _ _ Hh) in He).
  assert (q ∈ (A ++ (q, dq) :: B).*1) as Hq by (rewrite fmap_app, elem_of_app; right; by left).
  pose proof (elem_nonzero h ls L _ q Hh HL Hq) as Hq0.
  assert (q <> p) as Hqp by by intros ->.
  pose proof (ho_cell _ _ Hh L _ A q dq B HL eq_refl) as Hc.
  destruct (ho_list _ _ Hh L _ HL) as (HL0&Hnd&Hl).
  unfold list_insert_after.
  destruct (Z.eqb_spec L 0), (Z.eqb_spec q 0), (Z.eqb_spec p 0); try done.
  cbn [orb]. rewrite He. cbn [mbind option_bind]. rewrite H0. cbn [negb Z.eqb].
  rewrite Hc, Hl. cbn [mbind option_bind next tail].
  unfold link, around. rewrite last0_snoc. cbn [fst].
  destruct (hd0_cases B) as [[-> El]|(b&db&zs&->&El)]; rewrite El.
  - cbn [Z.eqb negb]. rewrite last0_snoc. cbn [fst]. rewrite Z.eqb_refl.
    rewrite (upd_list_some h L _ _ Hl). cbn [mbind option_bind].
    erewrite upd_le_some by exact He. cbn [mbind option_bind les lists].
    erewrite upd_le_some by (cbn [les]; rewrite lookup_insert_ne by done; exact Hc).
    cbn [les lists]. rewrite insert_insert_ne by done. f_equal. f_equal.
    + rewrite (alter_some (les h) _ q _ Hc). rewrite alter_none; [done|].
      rewrite lookup_insert_ne by done. apply (ho_null _ _ Hh).
    + unfold header, set_tail. cbn [head]. by rewrite last0_snoc, hd0_snoc.
  - assert (b ∈ (A ++ (q, dq) :: (b, db) :: zs).*1) as Hb.
    { rewrite fmap_app, elem_of_app. right. right. by left. }
    pose proof (elem_nonzero h ls L _ b Hh HL Hb) as Hb0.
    assert (b <> p) as Hbp by by intros ->.
    assert (b <> q) as Hbq.
    { intros ->. rewrite fmap_app in Hnd. apply NoDup_app in Hnd as (_&_&Hnd).
      apply NoDup_cons in Hnd as [Hnd _]. apply Hnd. by left. }
    assert (les h !! b = Some (mk_le q (hd0 zs) L db)) as Hcb.
    { rewrite (ho_cell _ _ Hh L _ (A ++ [(q, dq)]) b db zs HL) by by rewrite <- app_assoc.
      by rewrite last0_snoc. }
    destruct (Z.eqb_spec b 0); [done|]. cbn [negb].
    rewrite (upd_le_some h b _ _ Hcb). cbn [mbind option_bind].
    erewrite upd_le_some by (cbn [les]; rewrite lookup_insert_ne by done; exact He).
    cbn [mbind option_bind les lists].
    erewrite upd_le_some by (cbn [les]; rewrite !lookup_insert_ne by done; exact Hc).
    cbn [les lists]. rewrite insert_insert_ne by done. f_equal. f_equal.
    + rewrite (alter_some (les h) _ q _ Hc). f_equal.
      rewrite (alter_some _ _ b (mk_le q (hd0 zs) L db)) by by rewrite lookup_insert_ne.
      by rewrite insert_insert_ne.
    + rewrite insert_id; [done|]. rewrite Hl. unfold header. f_equal. f_equal.
      * rewrite hd0_snoc. by destruct A.
      * rewrite !last0_app. unfold last0. by rewrite !last_cons_cons.
Qed.

Lemma unlink_first h ls L p d B : heap_ok h ls -> ls !! L = Some ((p, d) :: B) ->
  list_unlink h p = Some (unlink h L [] B p d).
Proof.
  intros Hh HL. pose proof (ho_cell _ _ Hh L _ [] p d B HL eq_refl) as Hc.
  pose proof (elem_nonzero h ls L _ p Hh HL ltac:(by left)) as Hp0.
  destruct (ho_list _ _ Hh L _ HL) as (HL0&Hnd&Hl).
  unfold list_unlink, unlink, around. destruct (Z.eqb_spec p 0); [done|].
  rewrite Hc. cbn [mbind option_bind llist prev next]. destruct (Z.eqb_spec L 0); [done|].
  change (last0 [] =? 0) with true. cbv iota. rewrite (upd_list_some h L _ _ Hl).
  cbn [mbind option_bind les lists]. rewrite Hc. cbn [mbind option_bind next llist prev].
  change (last0 []) with 0. rewrite (alter_none (les h) _ 0) by apply (ho_null _ _ Hh).
  destruct (hd0_cases B) as [[-> El]|(b&db&zs&->&El)]; rewrite El.
  - cbn [Z.eqb]. erewrite upd_list_some by (cbn [lists]; by rewrite lookup_insert_eq).
    cbn [mbind option_bind les lists]. erewrite upd_le_some by exact Hc. cbn [les lists ldata].
    by rewrite (alter_none (les h)), insert_insert_eq by apply (ho_null _ _ Hh).
  - pose proof (elem_nonzero h ls L _ b Hh HL ltac:(right; by left)) as Hb0.
    assert (b <> p) as Hbp by (intros ->; apply NoDup_cons in Hnd as [Hnd _]; apply Hnd; by left).
    pose proof (ho_cell _ _ Hh L _ [(p, d)] b db zs HL eq_refl) as Hcb.
    destruct (Z.eqb_spec b 0); [done|].
    erewrite upd_le_some by exact Hcb. cbn [mbind option_bind les lists].
    erewrite upd_le_some by (cbn [les]; rewrite lookup_insert_ne by done; exact Hc).
    cbn [les lists ldata]. rewrite (alter_some (les h) _ b _ Hcb). reflexivity.
Qed.

Lemma unlink_later h ls L ys a da p d B : heap_ok h ls ->
  ls !! L = Some ((ys ++ [(a, da)]) ++ (p, d) :: B) ->
  list_unlink h p = Some (unlink h L (ys ++ [(a, da)]) B p d).
Proof.
  intros Hh HL. pose proof (ho_cell _ _ Hh L _ (ys ++ [(a, da)]) p d B HL eq_refl) as Hc.
  assert (forall q, q = a \/ q = p \/ q ∈ B.*1 -> q ∈ ((ys ++ [(a, da)]) ++ (p, d) :: B).*1) as Hin.
  { intros q Hq. rewrite !fmap_app, !elem_of_app. cbn [fmap list_fmap fst].
    rewrite !elem_of_cons. tauto. }
  pose proof (elem_nonzero h ls L _ p Hh HL (Hin p ltac:(tauto))) as Hp0.
  pose proof (elem_nonzero h ls L _ a Hh HL (Hin a ltac:(tauto))) as Ha0.
  destruct (ho_list _ _ Hh L _ HL) as (HL0&Hnd&Hl).
  assert (a <> p /\ ~ (a ∈ B.*1) /\ ~ (p ∈ B.*1)) as (Hap&HaB&HpB).
  { rewrite <- app_assoc, fmap_app in Hnd. apply NoDup_app in Hnd as (_&_&Hnd). simpl in Hnd.
    apply NoDup_cons in Hnd as [H1 [H2 _]%NoDup_cons]. rewrite elem_of_cons in H1. tauto. }
  pose proof (last_cell h ls L ys a da ((p, d) :: B) Hh HL) as Hca.
  rewrite last0_snoc in Hc. unfold list_unlink, unlink, around. rewrite last0_snoc. cbn [fst] in *.
  destruct (Z.eqb_spec p 0); [done|]. rewrite Hc. cbn [mbind option_bind llist prev next].
  destruct (Z.eqb_spec L 0); [done|]. destruct (Z.eqb_spec a 0); [done|].
  erewrite upd_le_some by exact Hca. cbn [mbind option_bind les lists].
  rewrite lookup_insert_ne, Hc by done. cbn [mbind option_bind llist prev next].
  destruct (hd0_cases B) as [[-> El]|(b&db&zs&->&El)]; rewrite El.
  - cbn [Z.eqb]. erewrite upd_list_some by exact Hl. cbn [mbind option_bind les lists].
    erewrite upd_le_some by (cbn [les]; rewrite lookup_insert_ne by done; exact Hc).
    cbn [les lists ldata]. rewrite (alter_some (les h) _ a _ Hca). rewrite alter_none.
    2: { rewrite lookup_insert_ne by done. apply (ho_null _ _ Hh). }
    f_equal. f_equal. f_equal. unfold set_tail, header. cbn [head].
    by rewrite app_nil_r, last0_snoc, hd0_snoc.
  - pose proof (elem_nonzero h ls L _ b Hh HL (Hin b ltac:(right; right; by left))) as Hb0.
    assert (b <> p) as Hbp by (intros ->; apply HpB; by left).
    assert (b <> a) as Hba by (intros ->; apply HaB; by left).
    assert (les h !! b = Some (mk_le p (hd0 zs) L db)) as Hcb.
    { rewrite (ho_cell _ _ Hh L _ ((ys ++ [(a, da)]) ++ [(p, d)]) b db zs HL) by
        by rewrite <- !app_assoc. by rewrite last0_snoc. }
    destruct (Z.eqb_spec b 0); [done|].
    erewrite upd_le_some by (cbn [les]; rewrite lookup_insert_ne by done; exact Hcb).
    cbn [mbind option_bind les lists].
    erewrite upd_le_some by (cbn [les]; rewrite !lookup_insert_ne by done; exact Hc).
    cbn [les lists ldata]. rewrite (alter_some (les h) _ a _ Hca).
    erewrite (alter_some (<[a:=_]> _)) by (rewrite lookup_insert_ne by done; exact Hcb).
    f_equal. f_equal. rewrite insert_id; [done|]. rewrite Hl. unfold header. f_equal. f_equal.
    + by rewrite !hd0_snoc.
    + rewrite !last0_app. unfold last0. by rewrite !last_cons_cons.
Qed.

Lemma unlink_links h ls L A p d B : heap_ok h ls -> ls !! L = Some (A ++ (p, d) :: B) ->
  list_unlink h p = Some (unlink h L A B p d).
Proof.
  intros Hh HL. destruct (last0_cases A) as [[-> _]|(ys&a&da&->&_)].
  - by eapply unlink_first.
  - by eapply unlink_later.
Qed.

(** *** Traversals *)

Lemma enough_ok h ls L xs : heap_ok h ls -> ls !! L = Some xs -> (length xs < enough h)%nat.
Proof.
  intros Hh HL. destruct (ho_list _ _ Hh L xs HL) as (_&Hn&_). unfold enough.
  rewrite <- size_dom, <- (length_fmap fst xs), <- (size_list_to_set (C := gset Z) xs.*1) by done.
  apply Nat.lt_succ_r, subseteq_size. intros q Hq%elem_of_list_to_set. apply elem_of_dom.
  destruct (cell_in h ls L xs q Hh HL Hq) as (?&?&?&_&E). by eexists.
Qed.

Definition found (o : option (Z * Z)) : Z := match o with Some x => fst x | None => 0 end.

Lemma apply_fwd h ls L ah B : heap_ok h ls -> forall fuel A, ls !! L = Some (A ++ B) ->
  (length B < fuel)%nat ->
  apply_loop fuel h true ah (hd0 B) = Some (found (List.find (fun x => ah (fst x) (snd x)) B)).
Proof.
  intros Hh. induction B as [|[q d] B IH]; intros [|fuel] A HL Hf; simpl in Hf; try lia; [done|].
  pose proof (ho_cell _ _ Hh L _ A q d B HL eq_refl) as Hc.
  assert (q <> 0) as Hq0 by (intros ->; by rewrite (ho_null _ _ Hh) in Hc).
  simpl. destruct (Z.eqb_spec q 0); [done|]. rewrite Hc. simpl.
  destruct (ah q d); [done|]. apply (IH fuel (A ++ [(q, d)])); [by rewrite <- app_assoc|lia].
Qed.

Lemma apply_bwd h ls L ah A : heap_ok h ls -> forall fuel B, ls !! L = Some (A ++ B) ->
  (length A < fuel)%nat ->
  apply_loop fuel h false ah (last0 A) = Some (found (List.find (fun x => ah (fst x) (snd x)) (rev A))).
Proof.
  intros Hh. induction A as [|[q d] A IH] using rev_ind; intros [|fuel] B HL Hf; try lia.
  - done.
  - pose proof (last_cell h ls L A q d B Hh HL) as Hc.
    assert (q <> 0) as Hq0 by (intros ->; by rewrite (ho_null _ _ Hh) in Hc).
    rewrite length_app in Hf. simpl in Hf.
    rewrite last0_snoc, rev_app_distr. simpl. destruct (Z.eqb_spec q 0); [done|]. rewrite Hc. simpl.
    destruct (ah q d); [done|]. apply (IH fuel ((q, d) :: B)); [by rewrite <- app_assoc in HL|lia].
Qed.

Lemma count_ok h ls L B : heap_ok h ls -> forall fuel A n, ls !! L = Some (A ++ B) ->
  (length B < fuel)%nat -> u32 n = n ->
  count_loop fuel h (hd0 B) n = Some (u32 (n + Z.of_nat (length B))).
Proof.
  intros Hh. induction B as [|[q d] B IH]; intros [|fuel] A n HL Hf Hn; simpl in Hf; try lia.
  { simpl. by rewrite Z.add_0_r, Hn. }
  pose proof (ho_cell _ _ Hh L _ A q d B HL eq_refl) as Hc.
  assert (q <> 0) as Hq0 by (intros ->; by rewrite (ho_null _ _ Hh) in Hc).
  cbn [count_loop hd0 fst]. destruct (Z.eqb_spec q 0); [done|]. rewrite Hc. cbn [mbind option_bind next].
  rewrite (IH fuel (A ++ [(q, d)])); [|by rewrite <- app_assoc|lia|apply Z.mod_mod; lia].
  rewrite length_cons, Nat2Z.inj_succ. unfold u32. rewrite Zplus_mod_idemp_l.
  by replace (n + 1 + Z.of_nat (length B)) with (n + Z.succ (Z.of_nat (length B))) by lia.
Qed.

(** Reading: in a well-formed heap [list_apply] finds the first element, or
    from the end the last one, that the handler accepts, without leaving the list
    and in a bounded number of steps; the count, the ends and the membership tests
    are those of the sequence (the count modulo 2^32). *)
Theorem list_reads_exact h ls L xs : heap_ok h ls -> ls !! L = Some xs ->
  (forall ah, list_apply h L true ah = Some (found (List.find (fun x => ah (fst x) (snd x)) xs)) /\
     list_apply h L false ah = Some (found (List.find (fun x => ah (fst x) (snd x)) (rev xs)))) /\
  list_count h L = Some (u32 (Z.of_nat (length xs))) /\
  list_head h L = Some (hd0 xs) /\ list_tail h L = Some (last0 xs) /\
  list_isempty h L = Some (bool_decide (xs = [])) /\
  (forall p d, (p, d) ∈ xs -> list_ledata h p = Some d /\ list_contains h L p = Some true) /\
  (forall p e, les h !! p = Some e -> ~ (p ∈ xs.*1) -> list_contains h L p = Some false).
Proof.
  intros Hh HL. destruct (ho_list _ _ Hh L xs HL) as (HL0&Hn&Hl).
  pose proof (enough_ok h ls L xs Hh HL) as Hf.
  unfold list_apply, list_count, list_head, list_tail, list_isempty.
  destruct (Z.eqb_spec L 0); [done|]. rewrite Hl. cbn [mbind option_bind head tail]. split_and!.
  - intros ah. split; [by apply (apply_fwd h ls L ah xs Hh _ [])|].
    apply (apply_bwd h ls L ah xs Hh _ []); [by rewrite app_nil_r|done].
  - by apply (count_ok h ls L xs Hh _ []).
  - done.
  - done.
  - destruct xs as [|[p d] xs]; [done|]. f_equal. rewrite bool_decide_eq_false_2 by done.
    apply Z.eqb_neq. apply (elem_nonzero h ls L _ p Hh HL). by left.
  - intros p d (l1&l2&->)%list_elem_of_split. pose proof (ho_cell _ _ Hh L _ l1 p d l2 HL eq_refl) as Hc.
    unfold list_ledata, list_contains. rewrite Hc. destruct (Z.eqb_spec p 0) as [->|].
    { by rewrite (ho_null _ _ Hh) in Hc. }
    simpl. by rewrite Z.eqb_refl.
  - intros p e He Hp. unfold list_contains. destruct (Z.eqb_spec p 0); [done|]. rewrite He. simpl.
    f_equal. apply Z.eqb_neq. intros E.
    destruct (ho_free _ _ Hh p e He) as [H0|(xs'&Hx&Hq)]; [congruence|].
    rewrite E, HL in Hx. by injection Hx as <-.
Qed.

(** *** Clearing *)

(** The cells of [B] lead from its first element to the end. *)
Definition chain (m : gmap Z le) (B : seq) : Prop :=
  forall l1 q d l2, B = l1 ++ (q, d) :: l2 ->
    exists e, m !! q = Some e /\ next e = hd0 l2 /\ ldata e = d.

Lemma clear_ok B : forall h fuel acc, chain (les h) B -> NoDup B.*1 -> ~ (0 ∈ B.*1) ->
  (length B < fuel)%nat ->
  exists m, clear_loop fuel h (hd0 B) acc = Some (mk_heap m (lists h), acc ++ B.*2) /\
    dom m = dom (les h) /\
    forall q, m !! q = if decide (q ∈ B.*1) then Some (mk_le 0 0 0 0) else les h !! q.
Proof.
  induction B as [|[p d] B IH]; intros h [|fuel] acc Hc Hn H0 Hf; simpl in Hf; try lia.
  { exists (les h). rewrite app_nil_r. destruct h. split_and!; [done|done|]. intros q.
    rewrite decide_False; [done|apply not_elem_of_nil]. }
  destruct (Hc [] p d B eq_refl) as (e&He&Hnx&Hd). rewrite fmap_cons in *. cbn [fst] in *.
  rewrite elem_of_cons in H0. apply NoDup_cons in Hn as [Hp Hn].
  cbn [clear_loop hd0 fst]. destruct (Z.eqb_spec p 0); [subst; tauto|].
  rewrite He. cbn [mbind option_bind]. rewrite (upd_le_some h p _ e He). cbn [mbind option_bind].
  rewrite Hnx, Hd.
  destruct (IH (mk_heap (<[p := mk_le 0 0 0 0]> (les h)) (lists h)) fuel (acc ++ [d])) as (m&E&Hdom&Hm).
  - intros l1 q dq l2 EB. cbn [les]. rewrite lookup_insert_ne.
    + apply (Hc ((p, d) :: l1) q dq l2). by rewrite EB.
    + intros ->. apply Hp. rewrite EB, fmap_app, elem_of_app. right. by left.
  - done.
  - tauto.
  - lia.
  - exists m. rewrite E. cbn [lists les] in *. split_and!; [by rewrite <- app_assoc| |].
    + rewrite Hdom. apply dom_insert_lookup_L. by eexists.
    + intros q. rewrite Hm. destruct (decide (q ∈ B.*1)) as [Hq|Hq].
      { rewrite decide_True; [done|by right]. }
      destruct (decide (q = p)) as [->|Hqp].
      { rewrite lookup_insert_eq, decide_True; [done|by left]. }
      rewrite lookup_insert_ne by done. rewrite decide_False; [done|]. by intros [->|?]%elem_of_cons.
Qed.

Lemma cleared h ls L xs : heap_ok h ls -> ls !! L = Some xs -> exists h',
  ('(h1, ds) ← clear_loop (enough h) h (hd0 xs) []; h2 ← list_init h1 L; Some (h2, ds)) =
    Some (h', xs.*2) /\
  heap_ok h' (<[L := []]> ls) /\ dom (les h') = dom (les h).
Proof.
  intros Hh HL. destruct (ho_list _ _ Hh L xs HL) as (HL0&Hn&Hl).
  destruct (clear_ok xs h (enough h) []) as (m&E&Hdom&Hm).
  - intros l1 q d l2 EB. pose proof (ho_cell _ _ Hh L xs l1 q d l2 HL EB). by eexists.
  - done.
  - intros H0. by apply (elem_nonzero h ls L xs 0 Hh HL).
  - by apply (enough_ok h ls L).
  - rewrite E. cbn [mbind option_bind]. unfold list_init. destruct (Z.eqb_spec L 0); [done|].
    erewrite upd_list_some by exact Hl. cbn [mbind option_bind]. eexists. split; [done|].
    split; [|done]. split; cbn [les lists].
    + rewrite Hm, decide_False; [apply (ho_null _ _ Hh)|].
      intros H0. by apply (elem_nonzero h ls L xs 0 Hh HL).
    + intros L' ys. destruct (decide (L' = L)) as [->|Hne].
      * rewrite !lookup_insert_eq. intros [= <-]. split_and!; [done|constructor|done].
      * rewrite !lookup_insert_ne by done. apply (ho_list _ _ Hh).
    + intros L' ys l1 q d l2. destruct (decide (L' = L)) as [->|Hne].
      * rewrite lookup_insert_eq. intros [= <-]. by destruct l1.
      * rewrite lookup_insert_ne by done. intros Hy ->.
        assert (q ∈ (l1 ++ (q, d) :: l2).*1) as Hq by (rewrite fmap_app, elem_of_app; right; by left).
        rewrite Hm, decide_False.
        -- by apply (ho_cell _ _ Hh L' (l1 ++ (q, d) :: l2)).
        -- by apply (other_list h ls L' L _ xs q Hh Hy HL).
    + intros q e He. rewrite Hm in He. destruct (decide (q ∈ xs.*1)) as [Hq|Hq].
      { injection He as <-. by left. }
      destruct (ho_free _ _ Hh q e He) as [|(ys&Hy&Hq')]; [by left|right]. exists ys.
      rewrite lookup_insert_ne; [done|]. intros E'. rewrite <- E', HL in Hy. by injection Hy as <-.
Qed.

(** *** The operations on the sequences *)

Inductive op :=
| OpAppend (L p d : Z)
| OpPrepend (L p d : Z)
| OpBefore (L q p d : Z)
| OpAfter (L q p d : Z)
| OpUnlink (p : Z)
| OpFlush (L : Z)
| OpClear (L : Z).

(** The heap, and the data passed to [mem_deref]. *)
Definition run_op (h : heap) (o : op) : option (heap * list Z) :=
  let plain r := h ← r; Some (h, []) in
  match o with
  | OpAppend L p d => plain (list_append h L p d)
  | OpPrepend L p d => plain (list_prepend h L p d)
  | OpBefore L q p d => plain (list_insert_before h L q p d)
  | OpAfter L q p d => plain (list_insert_after h L q p d)
  | OpUnlink p => plain (list_unlink h p)
  | OpFlush L => list_flush h L
  | OpClear L => plain (list_clear h L)
  end.

Definition linked (ls : gmap Z seq) (p : Z) : Prop := exists L xs, ls !! L = Some xs /\ p ∈ xs.*1.

Definition insert_at (q : Z) (before : bool) (x : Z * Z) (xs : seq) : seq :=
  xs ≫= fun y => if fst y =? q then if before then [x; y] else [y; x] else [y].

(** What an operation does to the sequences, when the element to insert is free. *)
Definition spec_op (ls : gmap Z seq) (o : op) : gmap Z seq * list Z :=
  match o with
  | OpAppend L p d => (alter (fun xs => xs ++ [(p, d)]) L ls, [])
  | OpPrepend L p d => (alter (fun xs => (p, d) :: xs) L ls, [])
  | OpBefore L q p d => (alter (insert_at q true (p, d)) L ls, [])
  | OpAfter L q p d => (alter (insert_at q false (p, d)) L ls, [])
  | OpUnlink p => (filter (fun x => fst x <> p) <$> ls, [])
  | OpFlush L => (<[L := []]> ls, match ls !! L with Some xs => xs.*2 | None => [] end)
  | OpClear L => (<[L := []]> ls, [])
  end.

Definition inserted (o : op) : option Z :=
  match o with
  | OpAppend _ p _ | OpPrepend _ p _ | OpBefore _ _ p _ | OpAfter _ _ p _ => Some p
  | _ => None
  end.

(** The lists and the elements exist, and a position is in its list. *)
Definition op_ok (h : heap) (ls : gmap Z seq) (o : op) : Prop :=
  match o with
  | OpAppend L p _ | OpPrepend L p _ => is_Some (ls !! L) /\ p ∈ dom (les h)
  | OpBefore L q p _ | OpAfter L q p _ =>
      (exists xs, ls !! L = Some xs /\ q ∈ xs.*1) /\ p ∈ dom (les h)
  | OpUnlink p => p ∈ dom (les h)
  | OpFlush L | OpClear L => is_Some (ls !! L)
  end.

Lemma insert_at_split A q dq B before x : NoDup (A ++ (q, dq) :: B).*1 ->
  insert_at q before x (A ++ (q, dq) :: B) =
    if before then A ++ x :: (q, dq) :: B else A ++ (q, dq) :: x :: B.
Proof.
  intros Hn. rewrite fmap_app in Hn. apply NoDup_app in Hn as (_&Hd&Hn).
  apply NoDup_cons in Hn as [Hq _]. cbn [fst] in Hq.
  assert (forall C, ~ (q ∈ C.*1) -> insert_at q before x C = C) as Hid.
  { intros C. induction C as [|[c dc] C IH]; intros Hc; [done|]. unfold insert_at in *.
    cbn [mbind list_bind fst]. rewrite fmap_cons, elem_of_cons in Hc. cbn [fst] in Hc.
    destruct (Z.eqb_spec c q); [subst; tauto|]. simpl. by rewrite IH by tauto. }
  unfold insert_at in *. rewrite bind_app. cbn [mbind list_bind fst]. rewrite Z.eqb_refl.
  rewrite !Hid.
  - by destruct before.
  - done.
  - intros Hq'. apply (Hd q Hq'). by left.
Qed.

Lemma filter_others h ls L A p d B : heap_ok h ls -> ls !! L = Some (A ++ (p, d) :: B) ->
  filter (fun x => fst x <> p) <$> ls = <[L := A ++ B]> ls.
Proof.
  intros Hh HL. destruct (ho_list _ _ Hh L _ HL) as (_&Hn&_).
  assert (forall C, ~ (p ∈ C.*1) -> filter (fun x : Z * Z => fst x <> p) C = C) as Hid.
  { intros C Hc. apply filter_all. intros x Hx E. apply Hc. rewrite <- E. by apply list_elem_of_fmap_2. }
  rewrite fmap_app in Hn. apply NoDup_app in Hn as (_&Hd&Hn).
  apply NoDup_cons in Hn as [Hq _]. cbn [fst] in Hq.
  apply map_eq. intros L'. rewrite lookup_fmap. destruct (decide (L' = L)) as [->|Hne].
  - rewrite HL, lookup_insert_eq. simpl. f_equal. rewrite filter_app.
    rewrite filter_cons_False by (simpl; tauto). rewrite !Hid; [done|done|].
    intros Ha. apply (Hd p Ha). by left.
  - rewrite lookup_insert_ne by done. destruct (ls !! L') as [xs|] eqn:E; [|done]. simpl. f_equal.
    apply Hid. intros Hp. apply (other_list h ls L' L xs _ p Hh E HL Hne Hp).
    rewrite fmap_app, elem_of_app. right. by left.
Qed.

Lemma link_dom h L A B p d e : les h !! p = Some e -> dom (les (link h L A B p d)) = dom (les h).
Proof.
  intros He. unfold link. cbn [les]. rewrite dom_insert_lookup_L.
  - unfold around. by rewrite !dom_alter_L.
  - apply around_dom. by eexists.
Qed.

Lemma cell_free h ls p e : heap_ok h ls -> les h !! p = Some e -> ~ linked ls p -> llist e = 0.
Proof.
  intros Hh He Hl. destruct (ho_free _ _ Hh p e He) as [|(xs&Hx&Hp)]; [done|].
  destruct Hl. by exists (llist e), xs.
Qed.

(** An insertion that the code performs as [link]. *)
Lemma insertion_ok h ls L A B p d e r f : heap_ok h ls -> ls !! L = Some (A ++ B) ->
  les h !! p = Some e -> llist e = 0 -> r = Some (link h L A B p d) ->
  f (A ++ B) = A ++ (p, d) :: B ->
  exists h' ds, (h ← r; Some (h, [])) = Some (h', ds) /\
    (alter f L ls, [] : list Z) = (alter f L ls, ds) /\
    heap_ok h' (alter f L ls) /\ dom (les h') = dom (les h).
Proof.
  intros Hh HL He H0 -> Hf. exists (link h L A B p d), []. split_and!; [done|done| |].
  - rewrite (alter_some ls f L _ HL), Hf. by apply (link_ok h ls L A B p d e).
  - by apply (link_dom h L A B p d e).
Qed.

Lemma insert_ops h ls o p : heap_ok h ls -> op_ok h ls o -> inserted o = Some p -> ~ linked ls p ->
  exists h' ds, run_op h o = Some (h', ds) /\ spec_op ls o = (fst (spec_op ls o), ds) /\
    heap_ok h' (fst (spec_op ls o)) /\ dom (les h') = dom (les h).
Proof.
  intros Hh Ho Hi Hp. destruct o; simpl in Ho; try done; injection Hi as ->;
    destruct Ho as [HL [e He]%elem_of_dom]; pose proof (cell_free h ls p e Hh He Hp) as H0.
  - destruct HL as [xs HL]. unfold spec_op. cbn [fst run_op].
    apply (insertion_ok h ls L xs [] p d e); try done; [by rewrite app_nil_r| |by rewrite app_nil_r].
    by apply (append_links h ls L xs p d e).
  - destruct HL as [xs HL]. unfold spec_op. cbn [fst run_op].
    apply (insertion_ok h ls L [] xs p d e); try done. by apply (prepend_links h ls L xs p d e).
  - destruct HL as (xs&HL&Hq). destruct (cell_in h ls L xs q Hh HL Hq) as (A&dq&B&->&_).
    unfold spec_op. cbn [fst run_op].
    apply (insertion_ok h ls L A ((q, dq) :: B) p d e); try done.
    + by apply (before_links h ls L A q dq B p d e).
    + rewrite insert_at_split; [done|]. apply (ho_list _ _ Hh L _ HL).
  - destruct HL as (xs&HL&Hq). destruct (cell_in h ls L xs q Hh HL Hq) as (A&dq&B&->&_).
    unfold spec_op. cbn [fst run_op].
    apply (insertion_ok h ls L (A ++ [(q, dq)]) B p d e); try done.
    + by rewrite <- app_assoc.
    + by apply (after_links h ls L A q dq B p d e).
    + rewrite <- !app_assoc. simpl. rewrite insert_at_split; [done|]. apply (ho_list _ _ Hh L _ HL).
Qed.

Lemma linked_noop h ls o p : heap_ok h ls -> op_ok h ls o -> inserted o = Some p -> linked ls p ->
  run_op h o = Some (h, []).
Proof.
  intros Hh Ho Hi (L'&xs'&HL'&Hp). destruct (cell_in h ls L' xs' p Hh HL' Hp) as (?&dp&?&_&He).
  destruct (ho_list _ _ Hh L' _ HL') as (HL0&_).
  destruct o; simpl in Hi; try done; injection Hi as ->; unfold run_op;
    unfold list_append, list_prepend, list_insert_before, list_insert_after;
    (destruct (_ || _); [done|]; rewrite He; cbn [mbind option_bind llist];
     by destruct (Z.eqb_spec L' 0)).
Qed.

(** Changing: on a well-formed heap every operation is defined, keeps the heap
    well-formed, neither creates nor loses elements, and does to the sequences of
    all lists what its specification says: an element that is not linked is put at
    the end, at the front, before or after the given element, an element that is
    linked already is left where it is; unlinking removes it from the list it is
    in; flushing empties the list and releases the data in order. *)
Theorem list_ops_refine h ls o : heap_ok h ls -> op_ok h ls o ->
  exists h' ls' ds, run_op h o = Some (h', ds) /\ heap_ok h' ls' /\ dom (les h') = dom (les h) /\
    ((exists p, inserted o = Some p /\ linked ls p /\ ls' = ls /\ ds = []) \/
     ((forall p, inserted o = Some p -> ~ linked ls p) /\ (ls', ds) = spec_op ls o)).
Proof.
  intros Hh Ho. destruct (inserted o) as [p|] eqn:Ei.
  - destruct (decide (Exists (fun x => p ∈ (snd x).*1) (map_to_list ls))) as [Hd|Hd].
    + assert (linked ls p) as Hl.
      { apply Exists_exists in Hd as ([L xs]&HL%elem_of_map_to_list&Hp). by exists L, xs. }
      exists h, ls, []. split_and!; [by eapply linked_noop|done|done|]. left. by exists p.
    + assert (~ linked ls p) as Hl.
      { intros (L&xs&HL&Hp). apply Hd, Exists_exists. exists (L, xs).
        split; [by apply elem_of_map_to_list|done]. }
      destruct (insert_ops h ls o p Hh Ho Ei Hl) as (h'&ds&E&Es&Hh'&Hdom).
      exists h', (fst (spec_op ls o)), ds. split_and!; try done. right. split; [|done].
      by intros q [= <-].
  - destruct o as [| | | |p|L|L]; try done; simpl in Ho.
    + apply elem_of_dom in Ho as [e He]. cbn [run_op spec_op].
      destruct (decide (llist e = 0)) as [H0|H0].
      * exists h, ls, []. assert (list_unlink h p = Some h) as ->.
        { unfold list_unlink. destruct (p =? 0); [done|]. rewrite He. simpl. by rewrite H0. }
        split_and!; [done|done|done|]. right. split; [done|]. f_equal. apply map_eq. intros L.
        rewrite lookup_fmap. destruct (ls !! L) as [xs|] eqn:E; [|done]. simpl. f_equal.
        symmetry. apply filter_all. intros x Hx <-. apply (free_not_in h ls (fst x) e L xs Hh He H0 E).
        by apply list_elem_of_fmap_2.
      * destruct (ho_free _ _ Hh p e He) as [|(xs&Hx&Hp)]; [done|].
        destruct (cell_in h ls _ xs p Hh Hx Hp) as (A&d&B&->&_).
        rewrite (unlink_links h ls _ A p d B Hh Hx). cbn [mbind option_bind].
        do 3 eexists. split; [done|]. split; [by apply unlink_ok|]. split.
        -- unfold unlink. cbn [les]. rewrite dom_insert_lookup_L.
           ++ unfold around. by rewrite !dom_alter_L.
           ++ apply around_dom. by eexists.
        -- right. split; [done|]. by rewrite (filter_others h ls _ A p d B Hh Hx).
    + destruct Ho as [xs HL]. destruct (ho_list _ _ Hh L _ HL) as (HL0&_&Hl).
      destruct (cleared h ls L xs Hh HL) as (h'&E&Hh'&Hdom). cbn [run_op spec_op]. unfold list_flush.
      destruct (Z.eqb_spec L 0); [done|]. rewrite Hl. cbn [mbind option_bind head].
      exists h', (<[L := []]> ls), xs.*2. split_and!; [exact E|done|done|]. right.
      split; [done|]. by rewrite HL.
    + destruct Ho as [xs HL]. destruct (ho_list _ _ Hh L _ HL) as (HL0&_&Hl).
      destruct (cleared h ls L xs Hh HL) as (h'&E&Hh'&Hdom). cbn [run_op spec_op]. unfold list_clear.
      destruct (Z.eqb_spec L 0); [done|]. rewrite Hl. cbn [mbind option_bind head].
      exists h', (<[L := []]> ls), []. split_and!; [|done|done|by right].
      destruct (clear_loop (enough h) h (hd0 xs) []) as [[h1 ds]|]; [|done].
      cbn [mbind option_bind] in E |- *. destruct (list_init h1 L); [|done]. simpl in *.
      by injection E as ->.
Qed.

(** ** Sorting *)

Section Bubble.
Context {A : Type} (sh : A -> A -> bool).

(** One pass carries [x] towards the end while it is out of order. *)
Fixpoint bubble (x : A) (B : list A) : list A * bool :=
  match B with
  | [] => ([x], false)
  | y :: B =>
      if sh x y then let '(r, s) := bubble y B in (x :: r, s)
      else let '(r, _) := bubble x B in (y :: r, true)
  end.

Definition count (x : A) (l : list A) : nat := length (filter (fun y => sh x y = false) l).
Fixpoint inversions (l : list A) : nat :=
  match l with [] => O | x :: l => (count x l + inversions l)%nat end.

Lemma bubble_perm B : forall x, fst (bubble x B) ≡ₚ x :: B.
Proof.
  induction B as [|y B IH]; intros x; simpl; [done|]. destruct (sh x y).
  - specialize (IH y). destruct (bubble y B) as [r s]. simpl in *. by rewrite IH.
  - specialize (IH x). destruct (bubble x B) as [r s]. simpl in *. rewrite IH. constructor.
Qed.

Lemma count_perm x l l' : l ≡ₚ l' -> count x l = count x l'.
Proof. intros H. unfold count. by rewrite H. Qed.

Lemma count_cons x y l : count x (y :: l) = ((if sh x y then 0 else 1) + count x l)%nat.
Proof.
  unfold count. rewrite filter_cons. destruct (sh x y); by case_decide.
Qed.

(** With a total order a pass that changes anything removes an inversion. *)
Lemma bubble_inversions B : (forall x y, sh x y = false -> sh y x = true) -> forall x,
  (inversions (fst (bubble x B)) + (if snd (bubble x B) then 1 else 0) <= inversions (x :: B))%nat.
Proof.
  intros Ht. induction B as [|y B IH]; intros x; cbn [bubble]; [simpl; lia|].
  destruct (sh x y) eqn:E.
  - specialize (IH y). pose proof (bubble_perm B y) as Hp.
    destruct (bubble y B) as [r s]. cbn [fst snd inversions] in *.
    rewrite (count_perm x _ _ Hp). rewrite !count_cons, E in *. lia.
  - specialize (IH x). pose proof (bubble_perm B x) as Hp.
    destruct (bubble x B) as [r s]. cbn [fst snd inversions] in *.
    rewrite (count_perm y _ _ Hp). rewrite !count_cons, E, (Ht _ _ E) in *.
    destruct s; lia.
Qed.

Lemma bubble_sorted B : forall x, snd (bubble x B) = false ->
  fst (bubble x B) = x :: B /\ Sorted (fun a b => sh a b = true) (x :: B).
Proof.
  induction B as [|y B IH]; intros x; cbn [bubble]; [by repeat constructor|].
  destruct (sh x y) eqn:E.
  - specialize (IH y). destruct (bubble y B) as [r s]. cbn [fst snd] in *. intros Hs.
    destruct (IH Hs) as [-> Hsort]. split; [done|]. constructor; [done|by constructor].
  - destruct (bubble x B) as [r s]. done.
Qed.

Lemma inversions_bound l : (inversions l <= length l * length l)%nat.
Proof.
  induction l as [|x l IH]; simpl; [lia|]. assert (count x l <= length l)%nat; [|lia].
  unfold count. apply length_filter.
Qed.

(** Passes until one changes nothing. *)
Fixpoint bubble_sort (n : nat) (l : list A) : list A :=
  match n, l with
  | S n, x :: B => let '(l', s) := bubble x B in if s : bool then bubble_sort n l' else l'
  | _, _ => l
  end.

Lemma bubble_sort_ok n : (forall x y, sh x y = false -> sh y x = true) -> forall l, (inversions l < n)%nat ->
  bubble_sort n l ≡ₚ l /\ Sorted (fun a b => sh a b = true) (bubble_sort n l).
Proof.
  intros Ht. induction n as [|n IH]; intros l Hn; [lia|]. destruct l as [|x B]; [by split|]. cbn [bubble_sort].
  pose proof (bubble_perm B x) as Hp. pose proof (bubble_inversions B Ht x) as Hi.
  pose proof (bubble_sorted B x) as Hs. destruct (bubble x B) as [l' []]; cbn [fst snd] in *.
  - destruct (IH l') as [Hp' ?]; [lia|]. split; [by rewrite Hp'|done].
  - destruct (Hs eq_refl) as [-> ?]. by split.
Qed.

Lemma bubble_sort_more n : (forall x y, sh x y = false -> sh y x = true) -> forall m l, (inversions l < n)%nat ->
  (inversions l < m)%nat -> bubble_sort m l = bubble_sort n l.
Proof.
  intros Ht. induction n as [|n IH]; intros m l Hn Hm; [lia|]. destruct m as [|m]; [lia|].
  destruct l as [|x B]; [done|]. cbn [bubble_sort]. pose proof (bubble_inversions B Ht x) as Hi.
  destruct (bubble x B) as [l' []]; cbn [fst snd] in *; [apply IH; lia|done].
Qed.

End Bubble.

Lemma bubble_map {A A'} (f : A -> A') sh sh' B : (forall x y, sh x y = sh' (f x) (f y)) -> forall x,
  bubble sh' (f x) (map f B) = (map f (fst (bubble sh x B)), snd (bubble sh x B)).
Proof.
  intros Hf. induction B as [|y B IH]; intros x; [done|]. cbn [map bubble]. rewrite <- Hf.
  destruct (sh x y); rewrite IH; by destruct (bubble sh _ B).
Qed.

Lemma bubble_sort_map {A A'} (f : A -> A') sh sh' n : (forall x y, sh x y = sh' (f x) (f y)) -> forall l,
  bubble_sort sh' n (map f l) = map f (bubble_sort sh n l).
Proof.
  intros Hf. induction n as [|n IH]; intros [|x B]; try done. cbn [map bubble_sort].
  rewrite (bubble_map f sh sh' B Hf x). destruct (bubble sh x B) as [l' []]; simpl; [apply IH|done].
Qed.

Section Sorting.
Context (sh : Z * Z -> Z * Z -> bool).

(** *** The code performs [bubble] *)

Lemma swap_ok h ls L A x y B : heap_ok h ls -> ls !! L = Some (A ++ x :: y :: B) -> exists h1 h',
  list_unlink h (fst x) = Some h1 /\ (exists e, les h1 !! fst x = Some e /\ ldata e = snd x) /\
  list_insert_after h1 L (fst y) (fst x) (snd x) = Some h' /\
  heap_ok h' (<[L := (A ++ [y]) ++ x :: B]> ls) /\ dom (les h') = dom (les h).
Proof.
  intros Hh HL. destruct x as [p d], y as [q dq]. cbn [fst snd].
  set (h1 := unlink h L A ((q, dq) :: B) p d).
  pose proof (unlink_links h ls L A p d _ Hh HL) as E1.
  pose proof (unlink_ok h ls L A _ p d Hh HL) as Hh1. fold h1 in E1, Hh1.
  assert (les h1 !! p = Some (mk_le 0 0 0 d)) as Hp by (unfold h1, unlink; cbn [les]; apply lookup_insert_eq).
  assert (<[L := A ++ (q, dq) :: B]> ls !! L = Some (A ++ (q, dq) :: B)) as HL1 by apply lookup_insert_eq.
  exists h1, (link h1 L (A ++ [(q, dq)]) B p d). split; [done|]. split; [by eexists|].
  split; [by apply (after_links h1 _ L A q dq B p d _ Hh1 HL1 Hp)|]. split.
  - rewrite <- (insert_insert_eq ls L _ (A ++ (q, dq) :: B)).
    apply (link_ok h1 _ L (A ++ [(q, dq)]) B p d (mk_le 0 0 0 d)); try done.
    by rewrite <- app_assoc.
  - rewrite (link_dom _ _ _ _ _ _ _ Hp). unfold h1, unlink. cbn [les].
    rewrite dom_insert_lookup_L; [unfold around; by rewrite !dom_alter_L|]. apply around_dom.
    rewrite (ho_cell _ _ Hh L _ A p d _ HL eq_refl). by eexists.
Qed.

Lemma sort_pass_ok L B : forall fuel h ls A x s, heap_ok h ls -> ls !! L = Some (A ++ x :: B) ->
  (length B <= fuel)%nat -> exists h',
  sort_pass fuel sh h L (fst x) s = Some (h', s || snd (bubble sh x B)) /\
  heap_ok h' (<[L := A ++ fst (bubble sh x B)]> ls) /\ dom (les h') = dom (les h).
Proof.
  induction B as [|y B IH]; intros fuel h ls A [p d] s Hh HL Hf;
    pose proof (ho_cell _ _ Hh L _ A p d _ HL eq_refl) as Hc;
    (assert (p <> 0) as Hp0 by (intros ->; by rewrite (ho_null _ _ Hh) in Hc)).
  - exists h. destruct fuel; cbn [sort_pass bubble fst snd];
      (destruct (Z.eqb_spec p 0); [done|]); rewrite Hc; cbn [mbind option_bind next hd0 Z.eqb];
      rewrite orb_false_r, insert_id by done; done.
  - destruct y as [q dq]. destruct fuel as [|fuel]; simpl in Hf; [lia|].
    assert (ls !! L = Some ((A ++ [(p, d)]) ++ (q, dq) :: B)) as HLq by by rewrite <- app_assoc.
    pose proof (ho_cell _ _ Hh L _ _ q dq B HLq eq_refl) as Hcq.
    assert (q <> 0) as Hq0 by (intros ->; by rewrite (ho_null _ _ Hh) in Hcq).
    cbn [sort_pass fst]. destruct (Z.eqb_spec p 0); [done|]. rewrite Hc.
    cbn [mbind option_bind next hd0 fst ldata]. destruct (Z.eqb_spec q 0); [done|].
    rewrite Hcq. cbn [mbind option_bind ldata bubble]. destruct (sh (p, d) (q, dq)).
    + destruct (IH fuel h ls (A ++ [(p, d)]) (q, dq) s Hh HLq ltac:(lia)) as (h'&E&Hh'&Hd).
      exists h'. cbn [fst] in E. rewrite E. destruct (bubble sh (q, dq) B) as [r t]. cbn [fst snd] in *.
      by rewrite <- app_assoc in Hh'.
    + destruct (swap_ok h ls L A (p, d) (q, dq) B Hh HL) as (h1&h2&E1&(e&He&Hed)&E2&Hh2&Hd2).
      cbn [fst snd] in *. rewrite E1. cbn [mbind option_bind]. rewrite He. cbn [mbind option_bind].
      rewrite Hed, E2. cbn [mbind option_bind].
      destruct (IH fuel h2 (<[L := (A ++ [(q, dq)]) ++ (p, d) :: B]> ls) (A ++ [(q, dq)]) (p, d) true Hh2)
        as (h'&E&Hh'&Hd); [apply lookup_insert_eq|lia|].
      exists h'. cbn [fst] in E. rewrite E. destruct (bubble sh (p, d) B) as [r t]. cbn [fst snd] in *.
      rewrite insert_insert_eq, <- app_assoc in Hh'. rewrite orb_true_r. split_and!; [done|done|congruence].
Qed.

Lemma sort_retry_ok n : forall fuel h ls L xs, heap_ok h ls -> ls !! L = Some xs ->
  (forall x y, sh x y = false -> sh y x = true) ->
  (length xs <= fuel)%nat -> (inversions sh xs < n)%nat -> exists h',
  sort_retry n fuel sh h L = Some h' /\ heap_ok h' (<[L := bubble_sort sh n xs]> ls) /\ dom (les h') = dom (les h).
Proof.
  induction n as [|n IH]; intros fuel h ls L xs Hh HL Ht Hf Hn; [lia|].
  destruct (ho_list _ _ Hh L xs HL) as (HL0&_&Hl). cbn [sort_retry]. rewrite Hl.
  cbn [mbind option_bind head]. destruct xs as [|x B].
  - exists h. cbn [hd0 bubble_sort]. assert (sort_pass fuel sh h L 0 false = Some (h, false)) as -> by by destruct fuel.
    by rewrite insert_id by done.
  - simpl in Hf. destruct (sort_pass_ok L B fuel h ls [] x false Hh HL ltac:(lia)) as (h1&E&Hh1&Hd1).
    cbn [hd0 bubble_sort]. rewrite E. cbn [mbind option_bind orb].
    pose proof (bubble_perm sh B x) as Hp. pose proof (bubble_inversions sh B Ht x) as Hi. simpl app in Hh1.
    destruct (bubble sh x B) as [l' s]. cbn [fst snd] in *. destruct s; [|by exists h1].
    apply Permutation_length in Hp. simpl in Hp.
    destruct (IH fuel h1 (<[L := l']> ls) L l' Hh1) as (h'&E'&Hh'&?); [apply lookup_insert_eq|done|lia|lia|].
    exists h'. rewrite insert_insert_eq in Hh'. split_and!; [done|done|congruence].
Qed.

End Sorting.

Lemma strict_diverges sh n : forall fuel h ls L x y, heap_ok h ls -> ls !! L = Some [x; y] ->
  sh x y = false -> sh y x = false -> (0 < fuel)%nat -> sort_retry n fuel sh h L = None.
Proof.
  induction n as [|n IH]; intros fuel h ls L x y Hh HL H1 H2 Hf; [done|].
  destruct (ho_list _ _ Hh L _ HL) as (HL0&_&Hl). cbn [sort_retry]. rewrite Hl.
  cbn [mbind option_bind head hd0].
  destruct (sort_pass_ok sh L [y] fuel h ls [] x false Hh HL) as (h1&E&Hh1&_); [simpl; lia|].
  rewrite E. cbn [bubble mbind option_bind orb]. simpl in Hh1 |- *. rewrite H1 in *. simpl in *.
  apply (IH fuel h1 (<[L := [y; x]]> ls) L y x); try done. apply lookup_insert_eq.
Qed.

Lemma list_sort_ok sh h ls L xs fuel : heap_ok h ls -> ls !! L = Some xs ->
  (forall x y, sh x y = false -> sh y x = true) ->
  (forall x y z, sh x y = true -> sh y z = true -> sh x z = true) ->
  (length xs * length xs < fuel)%nat ->
  exists h' ys, list_sort fuel h L sh = Some h' /\ heap_ok h' (<[L := ys]> ls) /\ ys ≡ₚ xs /\
    StronglySorted (fun x y => sh x y = true) ys /\ dom (les h') = dom (les h) /\
    ys = bubble_sort sh (S (length xs * length xs)) xs.
Proof.
  intros Hh HL Ht Htr Hf. destruct (ho_list _ _ Hh L xs HL) as (HL0&_&_).
  unfold list_sort. destruct (Z.eqb_spec L 0); [done|].
  pose proof (inversions_bound sh xs) as Hb.
  destruct (sort_retry_ok sh fuel fuel h ls L xs Hh HL Ht) as (h'&E&?&?); [nia|lia|].
  destruct (bubble_sort_ok sh fuel Ht xs) as [Hp Hs]; [lia|].
  exists h', (bubble_sort sh fuel xs). split_and!; try done.
  - apply Sorted_StronglySorted; [|done]. intros x y z. apply Htr.
  - apply bubble_sort_more; [done|lia|lia].
Qed.

(** Sorting: with a handler that is a total order [list_sort] ends, within a
    number of passes that is at most the square of the length, and leaves the heap
    well-formed, the list holding the same elements in order and every other list
    as it was; with a handler that accepts two elements in neither order, such as
    a strict comparison of equal keys, it never ends. *)
Theorem list_sort_sorts sh h ls L : heap_ok h ls ->
  (forall xs fuel, ls !! L = Some xs ->
     (forall x y, sh x y = false -> sh y x = true) ->
     (forall x y z, sh x y = true -> sh y z = true -> sh x z = true) ->
     (length xs * length xs < fuel)%nat ->
     exists h' ys, list_sort fuel h L sh = Some h' /\ heap_ok h' (<[L := ys]> ls) /\ ys ≡ₚ xs /\
       StronglySorted (fun x y => sh x y = true) ys /\ dom (les h') = dom (les h)) /\
  (forall x y fuel, ls !! L = Some [x; y] -> sh x y = false -> sh y x = false ->
     list_sort fuel h L sh = None).
Proof.
  intros Hh. split.
  - intros xs fuel HL Ht Htr Hf.
    destruct (list_sort_ok sh h ls L xs fuel) as (h'&ys&?&?&?&?&?&_); try done. by exists h', ys.
  - intros x y fuel HL H1 H2. destruct (ho_list _ _ Hh L _ HL) as (HL0&_&_).
    unfold list_sort. destruct (Z.eqb_spec L 0); [done|]. destruct fuel as [|fuel]; [done|].
    apply (strict_diverges sh (S fuel) (S fuel) h ls L x y); try done. lia.
Qed.

(** *** Witnesses: two lists, at 10 and 20; elements 1, 2 and 3 in the first, 4 free *)

Definition ex_h : heap :=
  mk_heap (list_to_map [(1, mk_le 0 2 10 30); (2, mk_le 1 3 10 20); (3, mk_le 2 0 10 20);
                        (4, mk_le 0 0 0 0)])
          (list_to_map [(10, mk_list 1 3); (20, mk_list 0 0)]).
Definition ex_ls : gmap Z seq :=
  list_to_map [(10, [(1, 30); (2, 20); (3, 20)]); (20, [])].

Lemma ex_lookup L xs : ex_ls !! L = Some xs ->
  (L = 10 /\ xs = [(1, 30); (2, 20); (3, 20)]) \/ (L = 20 /\ xs = []).
Proof.
  unfold ex_ls. simpl. rewrite !lookup_insert_Some. intros [[<- <-]|[_ [[<- <-]|[_ H]]]]; auto.
  done.
Qed.

Lemma ex_heap_ok : heap_ok ex_h ex_ls.
Proof.
  split.
  - by vm_compute.
  - intros L xs [[-> ->]|[-> ->]]%ex_lookup; split_and!; try done; try by vm_compute.
    + repeat constructor; rewrite ?elem_of_cons; intros H; by destruct_or? H; try apply elem_of_nil in H.
    + constructor.
  - intros L xs l1 p d l2 [[-> ->]|[-> ->]]%ex_lookup Hl; [|by destruct l1].
    destruct l1 as [|? [|? [|? [|? ?]]]]; simplify_eq/=; by vm_compute.
  - intros p e H. assert (llist e = 0 \/ (llist e = 10 /\ (p = 1 \/ p = 2 \/ p = 3))) as [|[-> Hp]].
    { unfold ex_h in H. simpl in H. rewrite !lookup_insert_Some in H.
      destruct H as [[<- <-]|[_ [[<- <-]|[_ [[<- <-]|[_ [[<- <-]|[_ H]]]]]]]]; simpl; auto 10.
      done. }
    + by left.
    + right. exists [(1, 30); (2, 20); (3, 20)]. split; [by vm_compute|].
      destruct Hp as [->|[->| ->]]; simpl; rewrite !elem_of_cons; auto.
Qed.

Lemma list_reads_exact_witness :
  list_apply ex_h 10 true (fun _ d => d =? 20) = Some 2 /\
  list_apply ex_h 10 false (fun _ d => d =? 20) = Some 3 /\ list_count ex_h 10 = Some 3.
Proof.
  destruct (list_reads_exact ex_h ex_ls 10 _ ex_heap_ok eq_refl) as (Ha&Hc&_).
  destruct (Ha (fun _ d => d =? 20)) as [H1 H2]. split_and!; [exact H1|exact H2|exact Hc].
Defined.

Lemma list_ops_refine_witness :
  exists h' ls' ds, run_op ex_h (OpBefore 10 2 4 25) = Some (h', ds) /\ heap_ok h' ls' /\
    ls' !! 10 = Some [(1, 30); (4, 25); (2, 20); (3, 20)].
Proof.
  destruct (list_ops_refine ex_h ex_ls (OpBefore 10 2 4 25) ex_heap_ok) as (h'&ls'&ds&E&Hh&_&H).
  - split.
    + exists [(1, 30); (2, 20); (3, 20)]. split; [by vm_compute|right; by left].
    + apply elem_of_dom. by eexists.
  - exists h', ls', ds. split_and!; [exact E|exact Hh|].
    destruct H as [(p&[= <-]&(L&xs&[[-> ->]|[-> ->]]%ex_lookup&Hp)&_)|[_ Hs]].
    + exfalso. simpl in Hp. rewrite !elem_of_cons in Hp. destruct_or? Hp; try done.
      by apply elem_of_nil in Hp.
    + by apply elem_of_nil in Hp.
    + injection Hs as -> _. by vm_compute.
Defined.

Lemma list_sort_sorts_witness : exists h' ys,
  list_sort 10 ex_h 10 (fun x y => snd x <=? snd y) = Some h' /\ heap_ok h' (<[10 := ys]> ex_ls) /\
  StronglySorted (fun x y => (snd x <=? snd y) = true) ys.
Proof.
  destruct (list_sort_sorts (fun x y => snd x <=? snd y) ex_h ex_ls 10 ex_heap_ok) as [H _].
  destruct (H [(1, 30); (2, 20); (3, 20)] 10%nat) as (h'&ys&?&?&_&?&_).
  - by vm_compute.
  - intros x y. lia.
  - intros x y z. lia.
  - simpl. lia.
  - by exists h', ys.
Defined.

End LinkedList.
