(* ===== verification/TmrHeap.v ===== *)
(** * The timer heap: src/libre/src/tmr/tmr_heap.c

    A binary min-heap of pointers to [struct tmr], ordered by [jfs], in which
    each timer records its own index ([heap_idx]) so that it can be removed
    without a search.  The model keeps the array, the timers it points to and
    the back pointers in one [store]; [None] as the result of an operation is
    undefined behaviour (a read or write outside the allocated array, of an
    uninitialised entry, or through a dangling pointer) or exhausted fuel, and
    the theorems exclude both. *)
From S2P Require Import Prelude.

Module TmrHeap.

(** ** State *)

(** [struct tmr]; a pointer (to a timer, a handler or its argument) is a [Z],
    0 is NULL. *)
Record tmr := mk_tmr { th : Z; arg : Z; jfs : Z; heap_idx : Z }.

(** [struct heap_s].  [acap] is the number of entries really allocated for
    [array]; an absent key below [acap] is an uninitialised entry. *)
Record heap_s := mk_heap { size : Z; count : Z; array : gmap Z Z; acap : Z }.

(** The heap together with the timers that live in client memory. *)
Record store := mk_store { hp : heap_s; tmrs : gmap Z tmr }.

Definition DEFAULT_CAPACITY : Z := 13.
Definition DEADBEEF : Z := 3735928559.

Definition set_count (s : store) (c : Z) : store :=
  mk_store (mk_heap (size (hp s)) c (array (hp s)) (acap (hp s))) (tmrs s).

(** [h->array[i]] as an rvalue and as an lvalue. *)
Definition array_get (s : store) (i : Z) : option Z :=
  if (0 <=? i) && (i <? acap (hp s)) then array (hp s) !! i else None.

Definition array_set (s : store) (i p : Z) : option store :=
  if (0 <=? i) && (i <? acap (hp s)) then
    Some (mk_store
            (mk_heap (size (hp s)) (count (hp s)) (<[i := p]> (array (hp s)))
                     (acap (hp s))) (tmrs s))
  else None.

(** [p->heap_idx = i] *)
Definition set_heap_idx (s : store) (p i : Z) : option store :=
  t ← tmrs s !! p;
  Some (mk_store (hp s)
          (<[p := mk_tmr (th t) (arg t) (jfs t) i]> (tmrs s))).

(** [h->array[i]->jfs] *)
Definition jfs_at (s : store) (i : Z) : option Z :=
  p ← array_get s i; t ← tmrs s !! p; Some (jfs t).

(** ** Operations *)

Definition keycompare (a b : Z) : Z :=
  if a <? b then 1 else if b <? a then -1 else 0.

Definition __child_left (idx : Z) : Z := s32 (idx * 2 + 1).
Definition __child_right (idx : Z) : Z := s32 (idx * 2 + 2).
Definition __parent (idx : Z) : Z := Z.quot (s32 (idx - 1)) 2.

Definition heap_init (h : heap_s) (sz : Z) : heap_s :=
  mk_heap sz 0 (array h) (acap h).

(** Both allocations succeed; the array's entries are uninitialised. *)
Definition heap_new : heap_s :=
  heap_init (mk_heap 0 0 ∅ DEFAULT_CAPACITY) DEFAULT_CAPACITY.

Definition heap_count (s : store) : Z := s32 (count (hp s)).
Definition heap_size (s : store) : Z := s32 (size (hp s)).

(** [realloc_ok n] tells whether [realloc] to [n] entries succeeds. *)
Definition __ensurecapacity (realloc_ok : Z -> bool) (s : store) : Z * store :=
  let h := hp s in
  if count h <? size h then (0, s)
  else
    let size' := u32 (size h * 2) in
    if realloc_ok size' then
      (0, mk_store (mk_heap size' (count h) (array h) size') (tmrs s))
    else (1, mk_store (mk_heap size' (count h) (array h) (acap h)) (tmrs s)).

Definition __swap (s : store) (i1 i2 : Z) : option store :=
  tmp ← array_get s i1;
  p2 ← array_get s i2;
  s1 ← array_set s i1 p2;
  q1 ← array_get s1 i1;
  s2 ← set_heap_idx s1 q1 i1;
  s3 ← array_set s2 i2 tmp;
  q2 ← array_get s3 i2;
  set_heap_idx s3 q2 i2.

(** The loop of [__pushup]; each turn moves to a smaller index, so [idx + 1]
    units of fuel are enough. *)
Fixpoint __pushup (fuel : nat) (s : store) (idx : Z) : option (Z * store) :=
  match fuel with
  | O => None
  | S fuel =>
      if idx =? 0 then Some (idx, s)
      else
        let parent := __parent (s32 idx) in
        ji ← jfs_at s idx;
        jp ← jfs_at s parent;
        if keycompare ji jp <? 0 then Some (-1, s)
        else s' ← __swap s idx parent; __pushup fuel s' (u32 parent)
  end.

(** The end of a turn of [__pushdown]: go on below [child], or stop. *)
Definition pushdown_to (rec : store -> Z -> option store) (s : store)
    (idx child : Z) : option store :=
  ji ← jfs_at s idx;
  jc ← jfs_at s child;
  if keycompare ji jc <? 0 then s' ← __swap s idx child; rec s' child
  else Some s.

(** The loop of [__pushdown]; the index at least doubles each turn and stays
    below [count], so [count + 1] units of fuel are enough. *)
Fixpoint __pushdown (fuel : nat) (s : store) (idx : Z) : option store :=
  match fuel with
  | O => None
  | S fuel =>
      let childl := u32 (__child_left (s32 idx)) in
      let childr := u32 (__child_right (s32 idx)) in
      if count (hp s) <=? childr then
        if count (hp s) <=? childl then Some s
        else pushdown_to (__pushdown fuel) s idx childl
      else
        jl ← jfs_at s childl;
        jr ← jfs_at s childr;
        pushdown_to (__pushdown fuel) s idx
          (if keycompare jl jr <? 0 then childr else childl)
  end.

Definition fuel_of (n : Z) : nat := S (Z.to_nat n).
Lemma fuel_of_enough n : n < Z.of_nat (fuel_of n).
Proof. unfold fuel_of. lia. Qed.
#[global] Opaque fuel_of.

Definition __heap_offerx (s : store) (item : Z) : option store :=
  s1 ← set_heap_idx s item (s32 (count (hp s)));
  s2 ← array_set s1 (count (hp s1)) item;
  let c := count (hp s2) in
  r ← __pushup (fuel_of c) (set_count s2 (u32 (c + 1))) c;
  Some (snd r).

Definition heap_offerx (s : store) (item : Z) : option (Z * store) :=
  if count (hp s) =? size (hp s) then Some (-1, s)
  else s' ← __heap_offerx s item; Some (0, s').

Definition heap_offer (realloc_ok : Z -> bool) (s : store) (item : Z) :
    option (Z * store) :=
  let '(err, s1) := __ensurecapacity realloc_ok s in
  if negb (err =? 0) then Some (-1, s1)
  else s' ← __heap_offerx s1 item; Some (0, s').

Definition heap_poll (s : store) : option (Z * store) :=
  if heap_count s =? 0 then Some (0, s)
  else
    item ← array_get s 0;
    s1 ← set_heap_idx s item (-1);
    last ← array_get s1 (u32 (count (hp s1) - 1));
    s2 ← array_set s1 0 last;
    q ← array_get s2 0;
    s3 ← set_heap_idx s2 q 0;
    let s4 := set_count s3 (u32 (count (hp s3) - 1)) in
    if 1 <? count (hp s4) then
      s5 ← __pushdown (fuel_of (count (hp s4))) s4 0; Some (item, s5)
    else Some (item, s4).

Definition heap_peek (s : store) : option Z :=
  if heap_count s =? 0 then Some 0 else array_get s 0.

Definition heap_clear (s : store) : store := set_count s 0.

Definition heap_remove_item (s : store) (item : Z) : option store :=
  t ← tmrs s !! item;
  let idx := heap_idx t in
  s1 ← set_heap_idx s item (-1);
  if idx =? -1 then Some s1
  else
    last ← array_get s1 (u32 (count (hp s1) - 1));
    s2 ← array_set s1 idx last;
    q ← array_get s2 idx;
    s3 ← set_heap_idx s2 q idx;
    s4 ← array_set s3 (u32 (count (hp s3) - 1)) DEADBEEF;
    let s5 := set_count s4 (u32 (count (hp s4) - 1)) in
    let parent_idx := __parent idx in
    if u32 idx =? count (hp s5) then Some s5
    else
      ji ← jfs_at s5 idx;
      jp ← jfs_at s5 parent_idx;
      if jp <=? ji then __pushdown (fuel_of (count (hp s5))) s5 (u32 idx)
      else r ← __pushup (fuel_of idx) s5 (u32 idx); Some (snd r).

Definition heap_contains_item (s : store) (item : Z) : option bool :=
  t ← tmrs s !! item; Some (negb (heap_idx t =? -1)).

(** ** Invariant *)

Definition heap_max : Z := 536870912.

(** The array and the back pointers agree, within the allocated array. *)
Definition shape (s : store) : Prop :=
  0 <= count (hp s) <= acap (hp s) /\ acap (hp s) <= heap_max /\
  forall i, 0 <= i < count (hp s) ->
    exists p t, array (hp s) !! i = Some p /\ tmrs s !! p = Some t /\
                heap_idx t = i.

(** The client-visible fields of every timer; no heap operation changes them. *)
Definition client (t : tmr) : Z * Z * Z := (th t, arg t, jfs t).
Definition fields (s : store) : gmap Z (Z * Z * Z) := client <$> tmrs s.

(** The expiry of the timer in slot [i]. *)
Definition key (s : store) (i : Z) : Z :=
  match array (hp s) !! i with
  | Some p => match fields s !! p with Some f => snd f | None => 0 end
  | None => 0
  end.

Definition parent (i : Z) : Z := (i - 1) / 2.

Definition ordered (s : store) : Prop :=
  forall i, 0 < i < count (hp s) -> key s (parent i) <= key s i.

Definition heap_wf (s : store) : Prop :=
  shape s /\ 0 < size (hp s) /\ size (hp s) = acap (hp s) /\ ordered s.

(** [p] is one of the timers in the heap. *)
Definition in_heap (s : store) (p : Z) : Prop :=
  exists i, 0 <= i < count (hp s) /\ array (hp s) !! i = Some p.


(** ** Lemmas *)

(** What every heap operation leaves alone. *)
Record same_frame (s s' : store) : Prop := {
  sf_count : count (hp s') = count (hp s);
  sf_size : size (hp s') = size (hp s);
  sf_acap : acap (hp s') = acap (hp s);
  sf_fields : fields s' = fields s }.

#[global] Instance same_frame_preorder : PreOrder same_frame.
Proof.
  split; [by intros s|].
  intros s1 s2 s3 [] []; split; congruence.
Qed.

Lemma shape_bounds s : shape s ->
  0 <= count (hp s) <= acap (hp s) /\ acap (hp s) <= heap_max.
Proof. by intros (?&?&?). Qed.

Lemma shape_slot s i : shape s -> 0 <= i < count (hp s) ->
  exists p t, array_get s i = Some p /\ array (hp s) !! i = Some p /\
              tmrs s !! p = Some t /\ heap_idx t = i.
Proof.
  intros (?&?&H) Hi. destruct (H i Hi) as (p&t&?&?&?). exists p, t.
  repeat split; auto. unfold array_get.
  rewrite (proj2 (Z.leb_le 0 i)), (proj2 (Z.ltb_lt i _)) by lia. done.
Qed.

Lemma shape_inj s i j p : shape s ->
  0 <= i < count (hp s) -> 0 <= j < count (hp s) ->
  array (hp s) !! i = Some p -> array (hp s) !! j = Some p -> i = j.
Proof.
  intros Hs Hi Hj Ei Ej.
  destruct (shape_slot s i Hs Hi) as (?&?&_&?&?&?).
  destruct (shape_slot s j Hs Hj) as (?&?&_&?&?&?). by simplify_eq.
Qed.

Lemma jfs_at_key s i : shape s -> 0 <= i < count (hp s) ->
  jfs_at s i = Some (key s i).
Proof.
  intros Hs Hi. destruct (shape_slot s i Hs Hi) as (p&t&Hg&Ha&Ht&_).
  unfold jfs_at, key, fields. rewrite Hg; simpl. by rewrite Ha, lookup_fmap, Ht.
Qed.

Lemma set_heap_idx_fields s p i s' :
  set_heap_idx s p i = Some s' -> fields s' = fields s /\ hp s' = hp s.
Proof.
  unfold set_heap_idx. intros H. simplify_option_eq.
  unfold fields; simpl. split; [|done].
  rewrite fmap_insert. apply insert_id. by rewrite lookup_fmap, Heqo.
Qed.

Lemma set_heap_idx_eq s p i t : tmrs s !! p = Some t ->
  set_heap_idx s p i =
    Some (mk_store (hp s) (<[p := mk_tmr (th t) (arg t) (jfs t) i]> (tmrs s))).
Proof. intros H. unfold set_heap_idx. by rewrite H. Qed.

Lemma array_set_eq s i p : 0 <= i < acap (hp s) ->
  array_set s i p =
    Some (mk_store (mk_heap (size (hp s)) (count (hp s))
                      (<[i := p]> (array (hp s))) (acap (hp s))) (tmrs s)).
Proof.
  intros Hi. unfold array_set.
  by rewrite (proj2 (Z.leb_le 0 i)), (proj2 (Z.ltb_lt i _)) by lia.
Qed.

Lemma array_get_eq s i : 0 <= i < acap (hp s) ->
  array_get s i = array (hp s) !! i.
Proof.
  intros Hi. unfold array_get.
  by rewrite (proj2 (Z.leb_le 0 i)), (proj2 (Z.ltb_lt i _)) by lia.
Qed.

(** [fields] ignores a change of back pointer. *)
Lemma fields_insert_idx (m : gmap Z tmr) p t i : m !! p = Some t ->
  client <$> <[p := mk_tmr (th t) (arg t) (jfs t) i]> m = client <$> m.
Proof.
  intros H. rewrite fmap_insert. apply insert_id. by rewrite lookup_fmap, H.
Qed.

Definition transpose (i j k : Z) : Z :=
  if k =? i then j else if k =? j then i else k.

Lemma transpose_invol i j k : transpose i j (transpose i j k) = k.
Proof.
  unfold transpose. destruct (Z.eqb_spec k i), (Z.eqb_spec k j); zcase; congruence.
Qed.

Lemma transpose_range i j k n :
  0 <= i < n -> 0 <= j < n -> 0 <= k < n -> 0 <= transpose i j k < n.
Proof. unfold transpose. zcase. Qed.

Lemma swap_spec s i j : shape s ->
  0 <= i < count (hp s) -> 0 <= j < count (hp s) -> i <> j ->
  exists s', __swap s i j = Some s' /\ shape s' /\ same_frame s s' /\
    (forall k, array (hp s') !! k = array (hp s) !! transpose i j k).
Proof.
  intros Hs Hi Hj Hne. pose proof (shape_bounds s Hs) as Hb.
  destruct (shape_slot s i Hs Hi) as (p&tp&Gp&Ap&Tp&Ip).
  destruct (shape_slot s j Hs Hj) as (q&tq&Gq&Aq&Tq&Iq).
  assert (p <> q) as Hpq by (intros ->; congruence).
  unfold __swap. rewrite Gp, Gq; simpl.
  rewrite array_set_eq by lia; simpl. rewrite array_get_eq by (simpl; lia); simpl.
  rewrite lookup_insert_eq; simpl.
  rewrite (set_heap_idx_eq _ _ _ tq) by done; simpl.
  rewrite array_set_eq by (simpl; lia); simpl.
  rewrite array_get_eq by (simpl; lia); simpl.
  rewrite lookup_insert_eq; simpl.
  rewrite (set_heap_idx_eq _ _ _ tp) by (simpl; by rewrite lookup_insert_ne).
  simpl. eexists; split; [done|]. split_and!; simpl.
  - repeat split; simpl; try lia. intros k Hk.
    destruct (decide (k = j)) as [->|]; [|destruct (decide (k = i)) as [->|]].
    + exists p. eexists. by rewrite !lookup_insert_eq.
    + exists q. eexists. rewrite lookup_insert_ne, lookup_insert_eq by done.
      rewrite lookup_insert_ne, lookup_insert_eq by done. done.
    + destruct (shape_slot s k Hs Hk) as (r&tr&_&Ar&Tr&Ir).
      exists r, tr. by rewrite !lookup_insert_ne by congruence.
  - split; simpl; try done. unfold fields; simpl.
    rewrite (fields_insert_idx (<[q:=_]> _) p tp) by (by rewrite lookup_insert_ne).
    by apply fields_insert_idx.
  - intros k. unfold transpose.
    destruct (Z.eqb_spec k i) as [->|]; [|destruct (Z.eqb_spec k j) as [->|]].
    + by rewrite lookup_insert_ne, lookup_insert_eq by done.
    + by rewrite lookup_insert_eq.
    + by rewrite !lookup_insert_ne by done.
Qed.

Lemma key_of_array s s' k k' : fields s' = fields s ->
  array (hp s') !! k = array (hp s) !! k' -> key s' k = key s k'.
Proof. unfold key. intros -> ->. done. Qed.

(** [s'] holds the same timers as [s], with the same client fields. *)
Definition rearranged (s s' : store) : Prop :=
  same_frame s s' /\ forall p, in_heap s' p <-> in_heap s p.

#[global] Instance rearranged_preorder : PreOrder rearranged.
Proof.
  split; [by intros s|].
  intros s1 s2 s3 [? H1] [? H2]; split; [by etrans|].
  intros p. by rewrite H2.
Qed.

Lemma swap_rearranged s i j s' : shape s ->
  0 <= i < count (hp s) -> 0 <= j < count (hp s) ->
  same_frame s s' ->
  (forall k, array (hp s') !! k = array (hp s) !! transpose i j k) ->
  rearranged s s'.
Proof.
  intros Hs Hi Hj Hf Ha. split; [done|]. intros p. unfold in_heap.
  rewrite (sf_count _ _ Hf). split; intros (k&Hk&Ek); exists (transpose i j k).
  - rewrite <- Ha. split; [by apply transpose_range|done].
  - rewrite Ha, transpose_invol. split; [by apply transpose_range|done].
Qed.

Lemma key_swap s s' i j k : fields s' = fields s ->
  (forall k, array (hp s') !! k = array (hp s) !! transpose i j k) ->
  key s' k = key s (transpose i j k).
Proof. intros Hf Ha. by apply key_of_array. Qed.

#[local] Ltac Zify.zify_post_hook ::= Z.div_mod_to_equations.

Lemma parent_range k : 0 < k -> 0 <= parent k < k.
Proof. unfold parent. lia. Qed.

Lemma parent_child k i : 0 < k ->
  parent k = i <-> k = 2 * i + 1 \/ k = 2 * i + 2.
Proof. unfold parent. lia. Qed.

Lemma __parent_spec i : 0 < i < 2147483648 -> __parent i = parent i.
Proof.
  intros Hi. unfold __parent, parent. word_simpl.
  apply Z.quot_div_nonneg; lia.
Qed.

Lemma __child_left_spec i : 0 <= i <= heap_max -> i * 2 + 1 < 2147483648 ->
  u32 (__child_left (s32 i)) = 2 * i + 1.
Proof. unfold __child_left, heap_max. intros. word_simpl. lia. Qed.

Lemma __child_right_spec i : 0 <= i <= heap_max -> i * 2 + 2 < 2147483648 ->
  u32 (__child_right (s32 i)) = 2 * i + 2.
Proof. unfold __child_right, heap_max. intros. word_simpl. lia. Qed.

Lemma keycompare_neg a b : (keycompare a b <? 0) = (b <? a).
Proof. unfold keycompare. zcase. Qed.

(** The heap order with one exception: the entry at [idx] may be smaller than
    its ancestors ([up_ordered]) or larger than its descendants
    ([down_ordered]). *)
Definition up_ordered (s : store) (idx : Z) : Prop :=
  (forall k, 0 < k < count (hp s) -> k <> idx -> key s (parent k) <= key s k) /\
  (forall k, 0 < k < count (hp s) -> 0 < idx -> parent k = idx ->
             key s (parent idx) <= key s k).

Definition down_ordered (s : store) (idx : Z) : Prop :=
  (forall k, 0 < k < count (hp s) -> parent k <> idx ->
             key s (parent k) <= key s k) /\
  (forall k, 0 < k < count (hp s) -> 0 < idx -> parent k = idx ->
             key s (parent idx) <= key s k).

Lemma swap_up_ordered s s' idx : shape s -> 0 < idx < count (hp s) ->
  same_frame s s' ->
  (forall k, array (hp s') !! k = array (hp s) !! transpose idx (parent idx) k) ->
  up_ordered s idx -> key s idx <= key s (parent idx) ->
  up_ordered s' (parent idx).
Proof.
  intros Hs Hi Hf Ha [H1 H2] Hle.
  pose proof (parent_range idx ltac:(lia)) as Hp.
  pose proof (fun k => key_swap s s' _ _ k (sf_fields _ _ Hf) Ha) as Hk.
  unfold up_ordered. rewrite (sf_count _ _ Hf). split.
  - intros k Hk0 Hne. pose proof (parent_range k ltac:(lia)).
    pose proof (H1 k Hk0) as H1k. pose proof (H2 k Hk0) as H2k.
    rewrite !Hk. unfold transpose.
    destruct (Z.eqb_spec k idx) as [->|]; zcase; try congruence.
    rewrite e in H1k. specialize (H1k n). lia.
  - intros k Hk0 Hp0 Hpk. pose proof (parent_range k ltac:(lia)).
    pose proof (parent_range (parent idx) ltac:(lia)).
    pose proof (H1 k Hk0) as H1k. pose proof (H1 (parent idx) ltac:(lia) ltac:(lia)).
    rewrite !Hk. unfold transpose.
    destruct (Z.eqb_spec k idx) as [->|]; zcase.
    rewrite Hpk in H1k. lia.
Qed.

Lemma pushup_spec fuel : forall s idx,
  shape s -> 0 <= idx < count (hp s) -> idx < Z.of_nat fuel ->
  up_ordered s idx ->
  exists r s', __pushup fuel s idx = Some (r, s') /\ shape s' /\ ordered s' /\
               rearranged s s'.
Proof.
  induction fuel as [|fuel IH]; intros s idx Hs Hi Hfuel Ho; [lia|].
  pose proof (shape_bounds s Hs) as Hb. unfold heap_max in Hb. simpl.
  destruct (Z.eqb_spec idx 0) as [->|Hne].
  { exists 0, s. split_and!; try done. intros k Hk. apply Ho; lia. }
  pose proof (parent_range idx ltac:(lia)) as Hp.
  rewrite s32_small, __parent_spec by lia.
  rewrite !jfs_at_key by (done || lia); simpl. rewrite keycompare_neg.
  destruct (Z.ltb_spec (key s (parent idx)) (key s idx)).
  { exists (-1), s. split_and!; try done.
    intros k Hk. destruct (decide (k = idx)) as [->|]; [lia|]. by apply Ho. }
  destruct (swap_spec s idx (parent idx)) as (s1&E1&Hs1&Hf1&Ha1); try lia; [done|].
  rewrite E1; simpl. rewrite u32_small by lia.
  destruct (IH s1 (parent idx)) as (r&s2&E2&Hs2&Ho2&Hr2); try done.
  - rewrite (sf_count _ _ Hf1). lia.
  - lia.
  - apply (swap_up_ordered s s1 idx); done || lia.
  - exists r, s2. split_and!; try done.
    etrans; [|exact Hr2]. apply (swap_rearranged s idx (parent idx)); done || lia.
Qed.

Lemma swap_down_ordered s s' idx c : shape s ->
  0 <= idx < count (hp s) -> 0 < c < count (hp s) -> parent c = idx ->
  same_frame s s' ->
  (forall k, array (hp s') !! k = array (hp s) !! transpose idx c k) ->
  (forall k, 0 < k < count (hp s) -> parent k = idx -> key s c <= key s k) ->
  key s c < key s idx -> down_ordered s idx -> down_ordered s' c.
Proof.
  intros Hs Hi Hc Hpc Hf Ha Hmin Hlt [H1 H2].
  pose proof (parent_range c ltac:(lia)) as Hp.
  pose proof (fun k => key_swap s s' _ _ k (sf_fields _ _ Hf) Ha) as Hk.
  unfold down_ordered. rewrite (sf_count _ _ Hf). split.
  - intros k Hk0 Hne. pose proof (parent_range k ltac:(lia)).
    pose proof (H1 k Hk0) as H1k. pose proof (Hmin k Hk0) as Hmk.
    rewrite !Hk. unfold transpose.
    destruct (Z.eqb_spec k idx) as [->|]; [|destruct (Z.eqb_spec k c) as [->|]]; zcase; apply H2; lia.
  - intros k Hk0 Hc0 Hpk. pose proof (parent_range k ltac:(lia)).
    pose proof (H1 k Hk0) as H1k. rewrite !Hk, Hpc. unfold transpose.
    destruct (Z.eqb_spec k idx) as [->|]; zcase.
Qed.

(** One turn of the loop once the smaller child is known. *)
Lemma pushdown_step s idx c : shape s ->
  0 <= idx < count (hp s) -> 0 < c < count (hp s) -> parent c = idx ->
  (forall k, 0 < k < count (hp s) -> parent k = idx -> key s c <= key s k) ->
  down_ordered s idx ->
  (key s c < key s idx /\ exists s', __swap s idx c = Some s' /\ shape s' /\
     down_ordered s' c /\ rearranged s s') \/
  (key s idx <= key s c /\ ordered s).
Proof.
  intros Hs Hi Hc Hpc Hmin Ho. pose proof (parent_range c ltac:(lia)).
  destruct (Z.lt_ge_cases (key s c) (key s idx)) as [Hlt|Hge].
  - left; split; [done|].
    destruct (swap_spec s idx c) as (s1&E1&Hs1&Hf1&Ha1); try lia; [done|].
    exists s1. split_and!; try done.
    + by apply (swap_down_ordered s s1 idx c).
    + apply (swap_rearranged s idx c); done || lia.
  - right; split; [lia|]. intros k Hk.
    destruct (decide (parent k = idx)) as [E|]; [|by apply Ho].
    rewrite E. specialize (Hmin k Hk E). lia.
Qed.

Lemma pushdown_spec fuel : forall s idx,
  shape s -> 0 <= idx < count (hp s) -> count (hp s) - idx < Z.of_nat fuel ->
  down_ordered s idx ->
  exists s', __pushdown fuel s idx = Some s' /\ shape s' /\ ordered s' /\
             rearranged s s'.
Proof.
  induction fuel as [|fuel IH]; intros s idx Hs Hi Hfuel Ho; [lia|].
  pose proof (shape_bounds s Hs) as Hb. unfold heap_max in Hb. simpl.
  rewrite __child_left_spec, __child_right_spec by (unfold heap_max; lia).
  assert (Hdesc : forall c, 0 < c < count (hp s) -> parent c = idx ->
    (forall k, 0 < k < count (hp s) -> parent k = idx -> key s c <= key s k) ->
    exists s', pushdown_to (__pushdown fuel) s idx c = Some s' /\
      shape s' /\ ordered s' /\ rearranged s s').
  { intros c Hc Hpc Hmin. unfold pushdown_to.
    rewrite !jfs_at_key by (done || lia); simpl.
    rewrite keycompare_neg. pose proof (parent_range c ltac:(lia)).
    destruct (pushdown_step s idx c) as [(Hlt&s1&E1&Hs1&Ho1&Hr1)|(Hge&Hord)];
      try done.
    - rewrite (proj2 (Z.ltb_lt _ _)), E1 by lia; simpl.
      pose proof (sf_count _ _ (proj1 Hr1)) as Hcnt.
      destruct (IH s1 c) as (s2&E2&?&?&Hr2); try done; try lia.
      exists s2. split_and!; try done. by etrans.
    - rewrite (proj2 (Z.ltb_ge _ _)) by lia. by exists s. }
  destruct (Z.leb_spec (count (hp s)) (2 * idx + 2)).
  - destruct (Z.leb_spec (count (hp s)) (2 * idx + 1)).
    + exists s. split_and!; try done. intros k Hk. apply Ho; [done|].
      rewrite parent_child by lia. lia.
    + apply Hdesc; [lia|unfold parent; lia|]. intros k Hk Hpk.
      assert (k = 2 * idx + 1) as -> by (unfold parent in Hpk; lia). lia.
  - rewrite !jfs_at_key by (done || lia); simpl. rewrite keycompare_neg.
    destruct (Z.ltb_spec (key s (2 * idx + 2)) (key s (2 * idx + 1)));
      (apply Hdesc; [lia|unfold parent; lia|]); intros k Hk Hpk;
      apply parent_child in Hpk as [->| ->]; lia.
Qed.

(** *** Adding an entry *)

Lemma not_in_heap_ne s p i q : shape s -> ~ in_heap s p ->
  0 <= i < count (hp s) -> array (hp s) !! i = Some q -> q <> p.
Proof. intros Hs Hn Hi Ha ->. apply Hn. by exists i. Qed.

Lemma offerx_spec s item t : heap_wf s -> count (hp s) < acap (hp s) ->
  tmrs s !! item = Some t -> ~ in_heap s item ->
  exists s', __heap_offerx s item = Some s' /\ heap_wf s' /\
    fields s' = fields s /\ count (hp s') = count (hp s) + 1 /\
    acap (hp s') = acap (hp s) /\
    (forall p, in_heap s' p <-> p = item \/ in_heap s p).
Proof.
  intros (Hs&Hsz&Hcap&Hord) Hlt Ht Hn.
  pose proof (shape_bounds s Hs) as Hb. unfold heap_max in Hb.
  unfold __heap_offerx. rewrite s32_small by lia.
  rewrite (set_heap_idx_eq _ _ _ t) by done; simpl.
  rewrite array_set_eq by (simpl; lia). simpl.
  unfold set_count; simpl. rewrite u32_small by lia.
  set (s2 := mk_store _ _).
  assert (Hf2 : fields s2 = fields s) by (by apply fields_insert_idx).
  assert (Ha2 : forall k, k <> count (hp s) ->
            array (hp s2) !! k = array (hp s) !! k).
  { intros k Hk. simpl. by rewrite lookup_insert_ne. }
  assert (Hk2 : forall k, k <> count (hp s) -> key s2 k = key s k).
  { intros k Hk. apply key_of_array; auto. }
  assert (Hs2 : shape s2).
  { split_and!; simpl; unfold heap_max; try lia. intros i Hi.
    destruct (decide (i = count (hp s))) as [->|Hi'].
    - exists item. eexists. by rewrite !lookup_insert_eq.
    - destruct (shape_slot s i Hs) as (p&tp&_&Ap&Tp&Ip); [lia|].
      exists p, tp. rewrite lookup_insert_ne by done. split_and!; try done.
      rewrite lookup_insert_ne; [done|].
      intros ->. eapply not_in_heap_ne; eauto. lia. }
  destruct (pushup_spec (fuel_of (count (hp s))) s2 (count (hp s)))
    as (r&s3&E3&Hs3&Ho3&[Hr3 Hin3]); [done|simpl; lia|apply fuel_of_enough| |].
  { split; intros k Hk; simpl in Hk; pose proof (parent_range k ltac:(lia)).
    - intros Hne. rewrite !Hk2 by lia. apply Hord. lia.
    - intros _ Hpk. lia. }
  rewrite E3; simpl. exists s3. destruct Hr3 as [Hc3 Hz3 Ha3 Hf3]. simpl in *.
  split_and!; try done; try congruence; try (split_and!; congruence || lia).
  - split_and!; congruence || lia || done.
  - intros p. rewrite Hin3. unfold in_heap; simpl. split.
    + intros (i&Hi&Ei). destruct (decide (i = count (hp s))) as [->|].
      * rewrite lookup_insert_eq in Ei. left; congruence.
      * rewrite lookup_insert_ne in Ei by done. right. exists i. split; [lia|done].
    + intros [->|(i&Hi&Ei)].
      * exists (count (hp s)). rewrite lookup_insert_eq. split; [lia|done].
      * exists i. rewrite lookup_insert_ne by lia. split; [lia|done].
Qed.

(** *** Removing an entry *)

(** [s'] is [s] with the last entry moved into slot [idx]. *)
Record vacated (s : store) (idx : Z) (s' : store) : Prop := {
  vac_shape : shape s';
  vac_count : count (hp s') = count (hp s) - 1;
  vac_size : size (hp s') = size (hp s);
  vac_acap : acap (hp s') = acap (hp s);
  vac_fields : fields s' = fields s;
  vac_array : forall k, 0 <= k < count (hp s) - 1 ->
    array (hp s') !! k =
    array (hp s) !! (if k =? idx then count (hp s) - 1 else k) }.

Lemma vacated_key s idx s' k : vacated s idx s' -> 0 <= k < count (hp s) - 1 ->
  key s' k = key s (if k =? idx then count (hp s) - 1 else k).
Proof. intros Hv Hk. apply key_of_array; [apply Hv|by apply Hv]. Qed.

Lemma vacated_in_heap s idx s' item : shape s -> vacated s idx s' ->
  0 <= idx < count (hp s) -> array (hp s) !! idx = Some item ->
  forall p, in_heap s' p <-> p <> item /\ in_heap s p.
Proof.
  intros Hs Hv Hi Ha p. unfold in_heap. rewrite (vac_count _ _ _ Hv). split.
  - intros (k&Hk&Ek). rewrite (vac_array _ _ _ Hv) in Ek by done.
    assert (Hne : (if k =? idx then count (hp s) - 1 else k) <> idx) by zcase.
    split; [|eexists; split; [|exact Ek]; zcase].
    intros ->. apply Hne. eapply (shape_inj s); eauto. zcase.
  - intros (Hne&k&Hk&Ek). assert (k <> idx) by congruence.
    destruct (decide (k = count (hp s) - 1)) as [->|].
    + exists idx. rewrite (vac_array _ _ _ Hv), Z.eqb_refl by lia. split; [lia|done].
    + exists k. rewrite (vac_array _ _ _ Hv) by lia.
      rewrite (proj2 (Z.eqb_neq k idx)) by done. split; [lia|done].
Qed.

Lemma vacated_last s s' : ordered s -> vacated s (count (hp s) - 1) s' ->
  ordered s'.
Proof.
  intros Ho Hv k. rewrite (vac_count _ _ _ Hv). intros Hk.
  pose proof (parent_range k ltac:(lia)).
  rewrite !(vacated_key _ _ _ _ Hv) by lia. zcase. apply Ho. lia.
Qed.

Lemma vacated_down s idx s' : ordered s -> vacated s idx s' ->
  0 <= idx < count (hp s) - 1 ->
  (0 < idx -> key s' (parent idx) <= key s' idx) -> down_ordered s' idx.
Proof.
  intros Ho Hv Hi Htest. unfold down_ordered. rewrite (vac_count _ _ _ Hv).
  split; intros k Hk.
  - intros Hne. destruct (decide (k = idx)) as [->|]; [apply Htest; lia|].
    pose proof (parent_range k ltac:(lia)).
    rewrite !(vacated_key _ _ _ _ Hv) by lia. zcase. apply Ho. lia.
  - intros H0 Hpk. pose proof (parent_range k ltac:(lia)).
    pose proof (parent_range idx ltac:(lia)).
    rewrite !(vacated_key _ _ _ _ Hv) by lia. zcase.
    pose proof (Ho k ltac:(lia)) as Hok. pose proof (Ho (parent k) ltac:(lia)).
    lia.
Qed.

Lemma vacated_up s idx s' : ordered s -> vacated s idx s' ->
  0 < idx < count (hp s) - 1 ->
  key s' idx < key s' (parent idx) -> up_ordered s' idx.
Proof.
  intros Ho Hv Hi Htest. unfold up_ordered. rewrite (vac_count _ _ _ Hv).
  pose proof (parent_range idx ltac:(lia)) as Hp.
  pose proof (Ho idx ltac:(lia)) as Hoi.
  assert (Hpk : key s' (parent idx) = key s (parent idx)).
  { rewrite (vacated_key _ _ _ _ Hv) by lia. zcase. }
  split; intros k Hk; pose proof (parent_range k ltac:(lia));
    pose proof (Ho k ltac:(lia)) as Hok.
  - intros Hne. destruct (decide (parent k = idx)) as [E|].
    + rewrite E, (vacated_key _ _ _ k Hv) by lia. zcase; rewrite E in Hok; lia.
    + rewrite !(vacated_key _ _ _ _ Hv) by lia. zcase.
  - intros _ E. rewrite Hpk, (vacated_key _ _ _ k Hv) by lia. zcase;
      rewrite E in Hok; lia.
Qed.

(** The prefix shared by [heap_remove_item] and [heap_poll]: move the last
    entry to [idx] and shrink.  Timers other than the moved and the removed one
    keep their back pointers. *)
Lemma vacated_intro s idx item t tq q m arr : shape s ->
  0 <= idx < count (hp s) ->
  array (hp s) !! idx = Some item -> tmrs s !! item = Some t ->
  array (hp s) !! (count (hp s) - 1) = Some q ->
  (<[item := mk_tmr (th t) (arg t) (jfs t) (-1)]> (tmrs s)) !! q = Some tq ->
  m = <[q := mk_tmr (th tq) (arg tq) (jfs tq) idx]>
        (<[item := mk_tmr (th t) (arg t) (jfs t) (-1)]> (tmrs s)) ->
  (forall k, 0 <= k < count (hp s) - 1 ->
     arr !! k = <[idx := q]> (array (hp s)) !! k) ->
  vacated s idx (mk_store (mk_heap (size (hp s)) (count (hp s) - 1) arr
                                   (acap (hp s))) m).
Proof.
  intros Hs Hi Ha Ht Hq Htq -> Harr.
  pose proof (shape_bounds s Hs) as Hb.
  assert (Hk : forall k, 0 <= k < count (hp s) - 1 -> arr !! k =
    array (hp s) !! (if k =? idx then count (hp s) - 1 else k)).
  { intros k Hk. rewrite Harr by done. zcase.
    - by rewrite lookup_insert_eq, Hq.
    - by rewrite lookup_insert_ne by done. }
  split; simpl; try done.
  - split_and!; simpl; try lia. intros k Hk0. rewrite Hk by done.
    destruct (Z.eqb_spec k idx) as [->|Hne].
    + exists q. eexists. by rewrite lookup_insert_eq.
    + destruct (shape_slot s k Hs) as (r&tr&_&Ar&Tr&Ir); [lia|].
      exists r, tr. split; [done|].
      assert (r <> item).
      { intros ->. apply Hne, (shape_inj s k idx item); done || lia. }
      assert (r <> q).
      { intros ->. enough (k = count (hp s) - 1) by lia.
        apply (shape_inj s _ _ q); done || lia. }
      by rewrite !lookup_insert_ne by done.
  - unfold fields; simpl. rewrite fields_insert_idx by done.
    by apply fields_insert_idx.
Qed.

Lemma heap_wf_count s : heap_wf s ->
  0 <= count (hp s) <= acap (hp s) /\ acap (hp s) <= 536870912.
Proof. intros (Hs&_). by apply shape_bounds. Qed.

Lemma in_heap_idx s item : shape s -> in_heap s item ->
  exists t, tmrs s !! item = Some t /\ 0 <= heap_idx t < count (hp s) /\
            array (hp s) !! heap_idx t = Some item.
Proof.
  intros Hs (i&Hi&Ei). destruct (shape_slot s i Hs Hi) as (p&t&_&Ap&Tp&Ip).
  simplify_eq. by exists t.
Qed.

Lemma wf_of_vacated s idx s1 s2 : heap_wf s -> vacated s idx s1 ->
  shape s2 -> ordered s2 -> same_frame s1 s2 -> heap_wf s2.
Proof.
  intros (Hs&?&?&_) Hv ? ? [? Hz Hc _].
  pose proof (vac_size _ _ _ Hv). pose proof (vac_acap _ _ _ Hv).
  split_and!; try done; congruence || lia.
Qed.

(** What removing [item] promises. *)
Record removed (s : store) (item : Z) (s' : store) : Prop := {
  rem_wf : heap_wf s';
  rem_fields : fields s' = fields s;
  rem_count : count (hp s') = count (hp s) - 1;
  rem_acap : acap (hp s') = acap (hp s);
  rem_in : forall p, in_heap s' p <-> p <> item /\ in_heap s p }.

Lemma removed_intro s idx item s1 s2 : heap_wf s -> vacated s idx s1 ->
  0 <= idx < count (hp s) -> array (hp s) !! idx = Some item ->
  shape s2 -> ordered s2 -> rearranged s1 s2 -> removed s item s2.
Proof.
  intros Hw Hv Hi Ha Hs2 Ho2 [Hf Hin]. split.
  - by eapply wf_of_vacated.
  - rewrite (sf_fields _ _ Hf). apply Hv.
  - rewrite (sf_count _ _ Hf). apply Hv.
  - rewrite (sf_acap _ _ Hf). apply Hv.
  - intros p. rewrite Hin. eapply vacated_in_heap; eauto. apply Hw.
Qed.

Lemma remove_item_spec s item : heap_wf s -> in_heap s item ->
  exists s', heap_remove_item s item = Some s' /\ removed s item s'.
Proof.
  intros Hw Hin. pose proof (heap_wf_count s Hw) as Hb.
  pose proof Hw as (Hs&Hsz&Hcap&Hord).
  destruct (in_heap_idx s item Hs Hin) as (t&Ht&Hi&Ha).
  set (idx := heap_idx t) in *.
  destruct (shape_slot s (count (hp s) - 1) Hs) as (q&tq0&_&Hq&Htq0&_); [lia|].
  unfold heap_remove_item. rewrite Ht; simpl. fold idx.
  rewrite (set_heap_idx_eq _ _ _ t) by done; simpl.
  rewrite (proj2 (Z.eqb_neq idx (-1))) by lia.
  rewrite (u32_small (count _ - 1)) by lia.
  rewrite array_get_eq by (simpl; lia). simpl. rewrite Hq; simpl.
  rewrite array_set_eq by (simpl; lia); simpl.
  rewrite array_get_eq by (simpl; lia); simpl. rewrite lookup_insert_eq; simpl.
  assert (exists tq, (<[item := mk_tmr (th t) (arg t) (jfs t) (-1)]> (tmrs s)) !! q
                     = Some tq) as [tq Htq].
  { rewrite lookup_insert. case_decide; eauto. }
  rewrite (set_heap_idx_eq _ _ _ tq) by done; simpl.
  rewrite (u32_small (count _ - 1)) by lia.
  rewrite array_set_eq by (simpl; lia); simpl. unfold set_count; simpl.
  rewrite (u32_small (count _ - 1)), (u32_small idx) by lia.
  set (s5 := mk_store _ _).
  assert (Hv : vacated s idx s5).
  { eapply (vacated_intro s idx item t tq q); eauto. intros k Hk.
    by rewrite lookup_insert_ne by lia. }
  destruct (Z.eqb_spec idx (count (hp s) - 1)) as [Elast|Hlast].
  { exists s5. split; [done|]. apply (removed_intro s idx item s5 s5); try done.
    - apply Hv.
    - apply (vacated_last s); [done|]. by rewrite <- Elast. }
  assert (Hpar : 0 <= __parent idx < count (hp s5) /\
                 (0 < idx -> __parent idx = parent idx) /\
                 (idx = 0 -> __parent idx = 0)).
  { simpl. destruct (decide (idx = 0)) as [->|].
    - change (__parent 0) with 0. lia.
    - rewrite __parent_spec by lia. pose proof (parent_range idx). lia. }
  destruct Hpar as (Hpr&Hp1&Hp0).
  rewrite !jfs_at_key by (simpl in *; (apply Hv || lia)); simpl.
  destruct (Z.leb_spec (key s5 (__parent idx)) (key s5 idx)) as [Hle|Hgt].
  - destruct (pushdown_spec (fuel_of (count (hp s) - 1)) s5 idx)
      as (s6&E6&Hs6&Ho6&Hr6); [apply Hv|simpl; lia| | |].
    + simpl. pose proof (fuel_of_enough (count (hp s) - 1)). lia.
    + apply (vacated_down s); try done; [lia|]. intros H0. by rewrite <- Hp1.
    + exists s6. split; [done|]. by eapply removed_intro.
  - assert (idx <> 0).
    { intros E. assert (__parent idx = idx) as E' by (specialize (Hp0 E); lia).
      rewrite E' in Hgt. lia. }
    destruct (pushup_spec (fuel_of idx) s5 idx) as (r&s6&E6&Hs6&Ho6&Hr6);
      [apply Hv|simpl; lia|apply fuel_of_enough| |].
    + apply (vacated_up s); try done; [lia|]. by rewrite <- Hp1 by lia.
    + rewrite E6; simpl. exists s6. split; [done|]. by eapply removed_intro.
Qed.

(** *** Growth *)

Definition room (realloc_ok : Z -> bool) (s : store) : Prop :=
  count (hp s) < size (hp s) \/
  (realloc_ok (size (hp s) * 2) = true /\ size (hp s) * 2 <= heap_max).

(** What adding [item] promises. *)
Record added (s : store) (item : Z) (s' : store) : Prop := {
  add_wf : heap_wf s';
  add_fields : fields s' = fields s;
  add_count : count (hp s') = count (hp s) + 1;
  add_in : forall p, in_heap s' p <-> p = item \/ in_heap s p }.

Lemma ensurecapacity_spec realloc_ok s : heap_wf s -> room realloc_ok s ->
  exists s', __ensurecapacity realloc_ok s = (0, s') /\ heap_wf s' /\
    count (hp s') < acap (hp s') /\ array (hp s') = array (hp s) /\
    count (hp s') = count (hp s) /\ tmrs s' = tmrs s.
Proof.
  intros Hw Hroom. pose proof (heap_wf_count s Hw) as Hb.
  pose proof Hw as (Hs&Hsz&Hcap&Hord). unfold __ensurecapacity.
  destruct (Z.ltb_spec (count (hp s)) (size (hp s))).
  { exists s. split_and!; try done. lia. }
  destruct Hroom as [|[Hok Hmax]]; [lia|]. unfold heap_max in Hmax.
  rewrite u32_small, Hok by lia. eexists; split; [done|]; simpl.
  split_and!; simpl; try done; unfold heap_max; try lia.
  destruct Hs as (_&_&Hs).
  split_and!; simpl; try done; try lia. split_and!; simpl; done || (unfold heap_max; lia).
Qed.

Lemma offer_spec realloc_ok s item t : heap_wf s -> tmrs s !! item = Some t ->
  ~ in_heap s item -> room realloc_ok s ->
  exists s', heap_offer realloc_ok s item = Some (0, s') /\ added s item s'.
Proof.
  intros Hw Ht Hn Hroom.
  destruct (ensurecapacity_spec realloc_ok s) as (s1&E1&Hw1&Hlt&Ha&Hc&Hm);
    [done..|].
  assert (Hin1 : forall p, in_heap s1 p <-> in_heap s p).
  { intros p. unfold in_heap. by rewrite Hc, Ha. }
  destruct (offerx_spec s1 item t) as (s2&E2&Hw2&Hf2&Hc2&_&Hin2);
    [done|done|by rewrite Hm|by rewrite Hin1|].
  unfold heap_offer. rewrite E1; simpl. rewrite E2; simpl.
  exists s2. split; [done|]. split; try done.
  - rewrite Hf2. unfold fields. by rewrite Hm.
  - lia.
  - intros p. by rewrite Hin2, Hin1.
Qed.

(** *** The smallest entry *)

Lemma root_min s i : ordered s -> 0 <= i < count (hp s) -> key s 0 <= key s i.
Proof.
  intros Ho Hi. assert (0 <= i) as H0 by lia. revert Hi.
  pattern i. apply Z_lt_induction; [|done]. clear i H0. intros i IH Hi.
  destruct (decide (i = 0)) as [->|]; [lia|].
  pose proof (parent_range i ltac:(lia)). specialize (Ho i ltac:(lia)).
  specialize (IH (parent i) ltac:(lia) ltac:(lia)). lia.
Qed.

Definition jfs_of (s : store) (p : Z) : option Z := jfs <$> tmrs s !! p.

Lemma jfs_of_fields s s' p : fields s' = fields s -> jfs_of s' p = jfs_of s p.
Proof.
  intros Hf. unfold jfs_of.
  assert (fields s' !! p = fields s !! p) as E by (by rewrite Hf).
  unfold fields in E. rewrite !lookup_fmap in E.
  destruct (tmrs s' !! p), (tmrs s !! p); simplify_eq/=; congruence.
Qed.

Lemma key_jfs_of s i p : shape s -> 0 <= i < count (hp s) ->
  array (hp s) !! i = Some p -> jfs_of s p = Some (key s i).
Proof.
  intros Hs Hi Ha. destruct (shape_slot s i Hs Hi) as (q&t&_&Aq&Tq&_).
  simplify_eq. unfold jfs_of, key, fields. by rewrite Ha, lookup_fmap, Tq.
Qed.

(** [p] is in the heap and no entry expires before it. *)
Definition earliest (s : store) (p : Z) : Prop :=
  in_heap s p /\ exists j, jfs_of s p = Some j /\
    forall q j', in_heap s q -> jfs_of s q = Some j' -> j <= j'.

Lemma root_earliest s p : heap_wf s -> 0 < count (hp s) ->
  array (hp s) !! 0 = Some p -> earliest s p.
Proof.
  intros (Hs&_&_&Ho) Hc Ha. split; [exists 0; split; [lia|done]|].
  exists (key s 0). split; [by apply key_jfs_of|].
  intros q j' (i&Hi&Ai) Hj. rewrite (key_jfs_of s i q) in Hj by done.
  simplify_eq. by apply root_min.
Qed.

Lemma peek_spec s : heap_wf s ->
  (count (hp s) = 0 /\ heap_peek s = Some 0) \/
  (0 < count (hp s) /\ exists p, heap_peek s = Some p /\ earliest s p).
Proof.
  intros Hw. pose proof (heap_wf_count s Hw).
  unfold heap_peek, heap_count. word_simpl.
  destruct (Z.eqb_spec (count (hp s)) 0); [by left|right]. split; [lia|].
  destruct (shape_slot s 0) as (p&t&Gp&Ap&_); [apply Hw|lia|].
  exists p. split; [done|]. by apply root_earliest; try lia.
Qed.

Lemma poll_spec s : heap_wf s -> 0 < count (hp s) ->
  exists p s', heap_peek s = Some p /\ heap_poll s = Some (p, s') /\
    earliest s p /\ removed s p s'.
Proof.
  intros Hw Hc. pose proof (heap_wf_count s Hw) as Hb.
  pose proof Hw as (Hs&Hsz&Hcap&Hord).
  destruct (shape_slot s 0 Hs) as (p&t&Gp&Ap&Tp&_); [lia|].
  destruct (shape_slot s (count (hp s) - 1) Hs) as (q&tq0&_&Hq&Htq0&_); [lia|].
  unfold heap_peek, heap_poll, heap_count. rewrite s32_small by lia.
  rewrite (proj2 (Z.eqb_neq _ 0)), Gp by lia; simpl.
  rewrite (set_heap_idx_eq _ _ _ t) by done; simpl.
  rewrite (u32_small (count _ - 1)) by lia.
  rewrite array_get_eq by (simpl; lia). simpl. rewrite Hq; simpl.
  rewrite array_set_eq by (simpl; lia); simpl.
  rewrite array_get_eq by (simpl; lia); simpl. rewrite lookup_insert_eq; simpl.
  assert (exists tq, (<[p := mk_tmr (th t) (arg t) (jfs t) (-1)]> (tmrs s)) !! q
                     = Some tq) as [tq Htq].
  { rewrite lookup_insert. case_decide; eauto. }
  rewrite (set_heap_idx_eq _ _ _ tq) by done; simpl. unfold set_count; simpl.
  rewrite (u32_small (count _ - 1)) by lia.
  set (s5 := mk_store _ _).
  assert (Hv : vacated s 0 s5).
  { by eapply (vacated_intro s 0 p t tq q); eauto; lia. }
  assert (He : earliest s p) by (by apply root_earliest).
  destruct (Z.ltb_spec 1 (count (hp s) - 1)).
  - destruct (pushdown_spec (fuel_of (count (hp s) - 1)) s5 0)
      as (s6&E6&Hs6&Ho6&Hr6); [apply Hv|simpl; lia| | |].
    + simpl. pose proof (fuel_of_enough (count (hp s) - 1)). lia.
    + apply (vacated_down s); try done; lia.
    + rewrite E6; simpl. exists p, s6. split_and!; try done.
      eapply removed_intro; eauto; lia.
  - exists p, s5. split_and!; try done.
    eapply (removed_intro s 0 p s5 s5); eauto; try done; try lia.
    + apply Hv.
    + intros k Hk. simpl in Hk. lia.
Qed.

(** ** The abstract priority queue

    [Q] maps every queued timer to its expiry. *)
Definition represents (s : store) (Q : gmap Z Z) : Prop :=
  heap_wf s /\ forall p j, Q !! p = Some j <-> in_heap s p /\ jfs_of s p = Some j.

Lemma heap_new_represents m : represents (mk_store heap_new m) ∅.
Proof.
  split.
  - unfold heap_wf, shape, ordered, heap_max; simpl.
    change DEFAULT_CAPACITY with 13. split_and!; intros; lia.
  - intros p j. rewrite lookup_empty. split; [done|].
    intros [(i&Hi&_) _]. simpl in Hi. lia.
Qed.

Lemma represents_in s Q p : represents s Q ->
  in_heap s p <-> exists j, Q !! p = Some j.
Proof.
  intros [[Hs _] HQ]. split.
  - intros Hin. destruct (in_heap_idx s p Hs Hin) as (t&Ht&_).
    exists (jfs t). apply HQ. split; [done|]. unfold jfs_of. by rewrite Ht.
  - intros [j Hj]. by apply HQ in Hj as [? _].
Qed.

Lemma added_represents s Q item t s' : represents s Q ->
  tmrs s !! item = Some t -> added s item s' ->
  represents s' (<[item := jfs t]> Q).
Proof.
  intros [Hw HQ] Ht [Hw' Hf _ Hin]. split; [done|]. intros p j.
  rewrite Hin, (jfs_of_fields s s') by done.
  assert (jfs_of s item = Some (jfs t)) as Hj by (unfold jfs_of; by rewrite Ht).
  destruct (decide (p = item)) as [->|Hne].
  - rewrite lookup_insert_eq. naive_solver.
  - rewrite lookup_insert_ne, HQ by done. naive_solver.
Qed.

Lemma removed_represents s Q item s' : represents s Q -> removed s item s' ->
  represents s' (delete item Q).
Proof.
  intros [Hw HQ] [Hw' Hf _ _ Hin]. split; [done|]. intros p j.
  rewrite Hin, (jfs_of_fields s s') by done.
  destruct (decide (p = item)) as [->|Hne].
  - rewrite lookup_delete_eq. naive_solver.
  - rewrite lookup_delete_ne, HQ by done. naive_solver.
Qed.

Lemma represents_earliest s Q p : represents s Q -> earliest s p ->
  exists j, Q !! p = Some j /\ forall q j', Q !! q = Some j' -> j <= j'.
Proof.
  intros [_ HQ] (Hin&j&Hj&Hmin). exists j. split; [by apply HQ|].
  intros q j' Hq. apply HQ in Hq as [??]. by eapply Hmin.
Qed.

Lemma represents_empty s Q : represents s Q -> count (hp s) = 0 <-> Q = ∅.
Proof.
  intros HR. pose proof (heap_wf_count s (proj1 HR)). split.
  - intros Hc. apply map_empty. intros p. apply eq_None_not_Some. intros [j Hj].
    apply HR in Hj as [(i&Hi&_) _]. lia.
  - intros ->. destruct (Z.eq_dec (count (hp s)) 0) as [|Hc]; [done|].
    destruct (shape_slot s 0) as (p&t&_&Ap&_); [apply HR|lia|].
    destruct (proj1 (represents_in s ∅ p HR)) as [j Hj]; [exists 0; split; [lia|done]|].
    by rewrite lookup_empty in Hj.
Qed.

(** ** Properties *)

(** [heap_offer] of a timer that is not queued implements insertion into
    the priority queue: with room in the array, or a successful [realloc], it
    returns 0 without undefined behaviour, the heap invariant holds again, the
    queue gains exactly that timer with its expiry, and no timer's handler,
    argument or expiry changes. *)
Theorem heap_offer_refines realloc_ok s Q item t :
  represents s Q -> tmrs s !! item = Some t -> Q !! item = None ->
  room realloc_ok s ->
  exists s', heap_offer realloc_ok s item = Some (0, s') /\
    represents s' (<[item := jfs t]> Q) /\ fields s' = fields s.
Proof.
  intros HR Ht HQ Hroom.
  destruct (offer_spec realloc_ok s item t) as (s'&E&Ha); try done; [apply HR| |].
  - rewrite (represents_in s Q) by done. intros [j ?]. congruence.
  - exists s'. split_and!; [done|by eapply added_represents|apply Ha].
Qed.

(** C26: [heap_remove_item] of a queued timer implements deletion, wherever in
    the array the timer is: the invariant holds again and exactly that timer
    leaves the queue. *)
Theorem heap_remove_item_refines s Q item j :
  represents s Q -> Q !! item = Some j ->
  exists s', heap_remove_item s item = Some s' /\
    represents s' (delete item Q) /\ fields s' = fields s.
Proof.
  intros HR HQ.
  destruct (remove_item_spec s item) as (s'&E&Hr); [apply HR| |].
  - rewrite (represents_in s Q) by done. by exists j.
  - exists s'. split_and!; [done|by eapply removed_represents|apply Hr].
Qed.

(** On a non-empty queue [heap_peek] and [heap_poll] agree on a timer with
    the smallest expiry, and [heap_poll] removes exactly that timer. *)
Theorem heap_poll_refines s Q :
  represents s Q -> Q <> ∅ ->
  exists p j s', heap_peek s = Some p /\ heap_poll s = Some (p, s') /\
    Q !! p = Some j /\ (forall q j', Q !! q = Some j' -> j <= j') /\
    represents s' (delete p Q) /\ fields s' = fields s.
Proof.
  intros HR Hne. pose proof (represents_empty s Q HR) as He.
  assert (0 < count (hp s)) as Hc.
  { pose proof (heap_wf_count s (proj1 HR)).
    destruct (Z.eq_dec (count (hp s)) 0); [tauto|lia]. }
  destruct (poll_spec s) as (p&s'&Epk&Ep&Hep&Hr); [apply HR|done|].
  destruct (represents_earliest s Q p HR Hep) as (j&Hj&Hmin).
  exists p, j, s'. split_and!; try done; [by eapply removed_represents|apply Hr].
Qed.

(** A failed [realloc] leaves the heap with a recorded size twice the
    allocated one: [heap_offer] reports the failure, but the next [heap_offer]
    then writes past the end of the array whatever the allocator does. *)
Theorem heap_offer_after_failed_realloc realloc_ok realloc_ok' s item item' t :
  heap_wf s -> count (hp s) = size (hp s) -> size (hp s) * 2 <= heap_max ->
  realloc_ok (size (hp s) * 2) = false -> tmrs s !! item' = Some t ->
  exists s1, heap_offer realloc_ok s item = Some (-1, s1) /\
             heap_offer realloc_ok' s1 item' = None.
Proof.
  intros Hw Hfull Hmax Hfail Ht. pose proof (heap_wf_count s Hw).
  pose proof Hw as (_&Hsz&Hcap&_). unfold heap_max in Hmax.
  unfold heap_offer at 1, __ensurecapacity.
  rewrite (proj2 (Z.ltb_ge _ _)) by lia. rewrite u32_small, Hfail by lia; simpl.
  eexists; split; [done|]. unfold heap_offer, __ensurecapacity; simpl.
  rewrite (proj2 (Z.ltb_lt _ _)) by lia; simpl. unfold __heap_offerx.
  rewrite (set_heap_idx_eq _ _ _ t) by done; simpl. unfold array_set; simpl.
  rewrite (proj2 (Z.ltb_ge _ _)) by lia. by rewrite andb_false_r.
Qed.

(** Removing the timer in the last slot resets its back pointer to that
    slot, so [heap_contains_item] still claims that it is queued. *)
Theorem heap_contains_item_after_removal s item :
  heap_wf s -> 0 < count (hp s) ->
  array (hp s) !! (count (hp s) - 1) = Some item ->
  exists s', heap_remove_item s item = Some s' /\ ~ in_heap s' item /\
             heap_contains_item s' item = Some true.
Proof.
  intros Hw Hc Ha. pose proof (heap_wf_count s Hw) as Hb.
  assert (in_heap s item) as Hin by (exists (count (hp s) - 1); split; [lia|done]).
  destruct (remove_item_spec s item) as (s'&E&Hr); [done..|].
  exists s'. split; [done|]. split; [rewrite (rem_in _ _ _ Hr); tauto|].
  destruct (in_heap_idx s item (proj1 Hw) Hin) as (t&Ht&Hi&Ai).
  assert (heap_idx t = count (hp s) - 1) as Hidx.
  { apply (shape_inj s _ _ item); [apply Hw|lia|lia|done|done]. }
  revert E. unfold heap_remove_item. rewrite Ht; simpl. rewrite Hidx.
  rewrite (set_heap_idx_eq _ _ _ t) by done; simpl.
  rewrite (proj2 (Z.eqb_neq _ (-1))) by lia.
  rewrite !(u32_small (count _ - 1)) by lia.
  rewrite array_get_eq by (simpl; lia). simpl. rewrite Ha; simpl.
  rewrite array_set_eq by (simpl; lia); simpl.
  rewrite array_get_eq by (simpl; lia); simpl. rewrite lookup_insert_eq; simpl.
  rewrite (set_heap_idx_eq _ _ _ (mk_tmr (th t) (arg t) (jfs t) (-1)))
    by (simpl; apply lookup_insert_eq); simpl.
  rewrite !(u32_small (count (hp s) - 1)) by lia.
  rewrite array_set_eq by (simpl; lia); simpl.
  rewrite !(u32_small (count (hp s) - 1)) by lia.
  rewrite Z.eqb_refl. intros [= <-]. unfold heap_contains_item; simpl.
  rewrite lookup_insert_eq; simpl.
  by rewrite (proj2 (Z.eqb_neq _ (-1))) by lia.
Qed.

(** ** Concrete instances *)

Definition ex_tmrs : gmap Z tmr :=
  {[ 1 := mk_tmr 7 8 50 (-1); 2 := mk_tmr 7 8 20 (-1) ]}.
Definition ex_store : store := mk_store heap_new ex_tmrs.

(** The heap after queuing timers 1 and 2. *)
Definition ex_offer (s : store) (p : Z) : store :=
  default s (snd <$> heap_offer (fun _ => true) s p).
Definition ex_store2 : store := ex_offer (ex_offer ex_store 1) 2.

Lemma ex_offer_represents s Q p t : represents s Q -> tmrs s !! p = Some t ->
  Q !! p = None -> count (hp s) < size (hp s) ->
  represents (ex_offer s p) (<[p := jfs t]> Q).
Proof.
  intros HR Ht HQ Hlt.
  destruct (offer_spec (fun _ => true) s p t) as (s'&E&Ha);
    [apply HR|done| |by left|].
  - rewrite (represents_in s Q) by done. intros [j ?]. congruence.
  - unfold ex_offer. rewrite E; simpl. by eapply added_represents.
Qed.

Lemma ex_store2_represents : represents ex_store2 (<[2 := 20]> (<[1 := 50]> ∅)).
Proof.
  apply (ex_offer_represents _ _ 2 (mk_tmr 7 8 20 (-1)));
    [|by vm_compute..].
  apply (ex_offer_represents _ _ 1 (mk_tmr 7 8 50 (-1))); [|by vm_compute..].
  apply heap_new_represents.
Qed.

(** A heap of capacity one that is full. *)
Definition ex_full : store :=
  mk_store (mk_heap 1 1 {[ 0 := 1 ]} 1)
           {[ 1 := mk_tmr 7 8 50 0; 2 := mk_tmr 7 8 20 (-1) ]}.

Lemma ex_full_wf : heap_wf ex_full.
Proof.
  unfold heap_wf, shape, ordered, heap_max; simpl. split_and!; try lia.
  intros i Hi. assert (i = 0) as -> by lia. exists 1. eexists. by vm_compute.
Qed.

Lemma heap_offer_refines_witness :
  exists s', heap_offer (fun _ => true) ex_store 1 = Some (0, s') /\
    represents s' (<[1 := 50]> ∅) /\ fields s' = fields ex_store.
Proof.
  apply (heap_offer_refines (fun _ => true) ex_store ∅ 1 (mk_tmr 7 8 50 (-1))).
  - apply heap_new_represents.
  - reflexivity.
  - reflexivity.
  - left. reflexivity.
Defined.

Lemma heap_remove_item_refines_witness :
  exists s', heap_remove_item ex_store2 2 = Some s' /\
    represents s' (delete 2 (<[2 := 20]> (<[1 := 50]> ∅))) /\
    fields s' = fields ex_store2.
Proof.
  apply (heap_remove_item_refines ex_store2 _ 2 20 ex_store2_represents).
  reflexivity.
Defined.

Lemma heap_poll_refines_witness :
  exists p j s', heap_peek ex_store2 = Some p /\
    heap_poll ex_store2 = Some (p, s') /\
    (<[2 := 20]> (<[1 := 50]> (∅ : gmap Z Z))) !! p = Some j /\
    (forall q j', (<[2 := 20]> (<[1 := 50]> (∅ : gmap Z Z))) !! q = Some j' ->
                  j <= j') /\
    represents s' (delete p (<[2 := 20]> (<[1 := 50]> ∅))) /\
    fields s' = fields ex_store2.
Proof.
  apply (heap_poll_refines ex_store2 _ ex_store2_represents).
  intros E. apply (f_equal (lookup 2)) in E. vm_compute in E. discriminate E.
Defined.

Lemma heap_offer_after_failed_realloc_witness :
  exists s1, heap_offer (fun _ => false) ex_full 2 = Some (-1, s1) /\
             heap_offer (fun _ => true) s1 2 = None.
Proof.
  apply (heap_offer_after_failed_realloc _ _ ex_full 2 2
           (mk_tmr 7 8 20 (-1)) ex_full_wf);
    [reflexivity|vm_compute; discriminate|reflexivity|reflexivity].
Defined.

Lemma heap_contains_item_after_removal_witness :
  exists s', heap_remove_item ex_full 1 = Some s' /\ ~ in_heap s' 1 /\
             heap_contains_item s' 1 = Some true.
Proof.
  apply (heap_contains_item_after_removal ex_full 1 ex_full_wf);
    reflexivity.
Defined.

End TmrHeap.
