(* ===== verification/Tmr.v ===== *)
(** * Timers: src/libre/src/tmr/tmr.c

    [tmr_start], [tmr_cancel], [tmr_poll] and the queries, over the store of
    [TmrHeap].  The clock is an argument: [now] is the value [tmr_jiffies]
    returns to the call.  Timeout handlers are a parameter [callh] that may
    change the timers and the rest of the program's state. *)
From S2P Require Import Prelude TmrHeap.
Import TmrHeap.

Module Tmr.

(** ** Operations *)

(** [tv] is the [struct timeval] of [gettimeofday], [None] when it fails. *)
Definition tmr_jiffies (tv : option (Z * Z)) : Z :=
  match tv with
  | None => 0
  | Some (sec, usec) => u64 (u64 (u64 sec * 1000) + u64 (Z.quot usec 1000))
  end.

(** Assignment to the three client fields of [*p]. *)
Definition set_client (s : store) (p th' arg' jfs' : Z) : option store :=
  t ← tmrs s !! p;
  Some (mk_store (hp s) (<[p := mk_tmr th' arg' jfs' (heap_idx t)]> (tmrs s))).

Definition tmr_init (s : store) (p : Z) : store :=
  if p =? 0 then s
  else mk_store (hp s) (<[p := mk_tmr 0 0 0 (-1)]> (tmrs s)).

Definition tmr_start (realloc_ok : Z -> bool) (now : Z) (s : store)
    (p delay th' arg' : Z) : option store :=
  if p =? 0 then Some s
  else
    t ← tmrs s !! p;
    s1 ← (if th t =? 0 then Some s else heap_remove_item s p);
    s2 ← set_client s1 p th' arg' (jfs t);
    if th' =? 0 then Some s2
    else
      s3 ← set_client s2 p th' arg' (u64 (delay + now));
      r ← heap_offer realloc_ok s3 p;
      Some (snd r).

Definition tmr_cancel (realloc_ok : Z -> bool) (now : Z) (s : store) (p : Z) :
    option store :=
  tmr_start realloc_ok now s p 0 0 0.

Definition tmr_isrunning (s : store) (p : Z) : option bool :=
  if p =? 0 then Some false
  else t ← tmrs s !! p; Some (negb (th t =? 0)).

Definition tmr_get_expire (now : Z) (s : store) (p : Z) : option Z :=
  if p =? 0 then Some 0
  else
    t ← tmrs s !! p;
    if th t =? 0 then Some 0
    else Some (if now <? jfs t then u64 (jfs t - now) else 0).

Definition tmr_next_timeout (now : Z) (s : store) : option Z :=
  p ← heap_peek s;
  if p =? 0 then Some 0
  else
    t ← tmrs s !! p;
    if jfs t <=? now then Some 1 else Some (u64 (jfs t - now)).

Section Poll.
Context {W : Type}.
(** [callh th arg w s]: the effect of the call [th(arg)]. *)
Variable callh : Z -> Z -> W -> store -> option (W * store).

(** The loop of [tmr_poll] with the clock value [now] read on entry. *)
Fixpoint tmr_poll (fuel : nat) (now : Z) (w : W) (s : store) :
    option (W * store) :=
  match fuel with
  | O => None
  | S fuel =>
      p ← heap_peek s;
      if p =? 0 then Some (w, s)
      else
        t ← tmrs s !! p;
        if now <? jfs t then Some (w, s)
        else
          s1 ← set_client s p 0 (arg t) (jfs t);
          s2 ← heap_remove_item s1 p;
          if th t =? 0 then tmr_poll fuel now w s2
          else r ← callh (th t) (arg t) w s2; tmr_poll fuel now (fst r) (snd r)
  end.
End Poll.

(** ** Abstract state: the running timers *)

Definition pending (s : store) : gmap Z (Z * Z * Z) :=
  filter (fun kv => kv.2.1.1 <> 0) (fields s).

(** The heap holds exactly the running timers. *)
Definition tmr_wf (s : store) : Prop :=
  heap_wf s /\ tmrs s !! 0 = None /\
  forall p, in_heap s p <-> exists f, pending s !! p = Some f.

Lemma pending_lookup s p f :
  pending s !! p = Some f <-> fields s !! p = Some f /\ f.1.1 <> 0.
Proof. unfold pending. by rewrite map_lookup_filter_Some. Qed.

Lemma fields_lookup s p t : tmrs s !! p = Some t -> fields s !! p = Some (client t).
Proof. intros H. unfold fields. by rewrite lookup_fmap, H. Qed.

Lemma pending_running s p t : tmrs s !! p = Some t -> th t <> 0 ->
  pending s !! p = Some (client t).
Proof. intros Ht Hth. apply pending_lookup. split; [by apply fields_lookup|done]. Qed.

Lemma pending_idle s p t : tmrs s !! p = Some t -> th t = 0 ->
  pending s !! p = None.
Proof.
  intros Ht Hth. apply eq_None_not_Some. intros [f Hf].
  apply pending_lookup in Hf as [Hf Hne].
  rewrite (fields_lookup _ _ _ Ht) in Hf. by simplify_eq.
Qed.

Lemma pending_tmr s p f : pending s !! p = Some f ->
  exists t, tmrs s !! p = Some t /\ client t = f /\ th t <> 0.
Proof.
  intros [Hf Hne]%pending_lookup. unfold fields in Hf. rewrite lookup_fmap in Hf.
  destruct (tmrs s !! p) as [t|] eqn:E; simplify_eq/=. by exists t.
Qed.

Lemma pending_ext s s' : fields s' = fields s -> pending s' = pending s.
Proof. unfold pending. by intros ->. Qed.

Lemma fields_None s p : fields s !! p = None <-> tmrs s !! p = None.
Proof. unfold fields. rewrite lookup_fmap. by destruct (tmrs s !! p). Qed.

Lemma tmrs_dom s s' p t : fields s' = fields s -> tmrs s !! p = Some t ->
  exists t', tmrs s' !! p = Some t' /\ client t' = client t.
Proof.
  intros Hf Ht. apply fields_lookup in Ht. rewrite <- Hf in Ht.
  unfold fields in Ht. rewrite lookup_fmap in Ht.
  destruct (tmrs s' !! p) as [t'|] eqn:E; simplify_eq/=. exists t'.
  unfold client in *. split; congruence.
Qed.

(** *** Assigning client fields *)

Lemma set_client_spec s p t th' arg' j : tmrs s !! p = Some t ->
  exists s', set_client s p th' arg' j = Some s' /\ hp s' = hp s /\
    fields s' = <[p := (th', arg', j)]> (fields s) /\
    tmrs s' = <[p := mk_tmr th' arg' j (heap_idx t)]> (tmrs s).
Proof.
  intros Ht. unfold set_client. rewrite Ht; simpl. eexists; split; [done|].
  split_and!; try done. unfold fields; simpl. by rewrite fmap_insert.
Qed.

Lemma set_client_wf s p t th' arg' j s' : heap_wf s -> tmrs s !! p = Some t ->
  ~ in_heap s p \/ j = jfs t -> hp s' = hp s ->
  fields s' = <[p := (th', arg', j)]> (fields s) ->
  tmrs s' = <[p := mk_tmr th' arg' j (heap_idx t)]> (tmrs s) ->
  heap_wf s' /\ (forall q, in_heap s' q <-> in_heap s q).
Proof.
  intros (Hs&Hsz&Hcap&Ho) Ht Hor Hhp Hf Hm.
  assert (Hkey : forall i, 0 <= i < count (hp s) -> key s' i = key s i).
  { intros i Hi. unfold key. rewrite Hhp, Hf.
    destruct (shape_slot s i Hs Hi) as (q&tq&_&Aq&Tq&_). rewrite Aq.
    destruct (decide (q = p)) as [->|Hne].
    - rewrite lookup_insert_eq, (fields_lookup _ _ _ Ht); simpl.
      destruct Hor as [Hn|]; [|done]. destruct Hn. by exists i.
    - by rewrite lookup_insert_ne. }
  split; [|by intros q; unfold in_heap; rewrite Hhp].
  unfold heap_wf, shape, ordered. rewrite Hhp. split_and!; try done; try apply Hs.
  - intros i Hi. destruct (shape_slot s i Hs Hi) as (q&tq&_&Aq&Tq&Iq).
    rewrite Hm. destruct (decide (q = p)) as [->|Hne].
    + exists p. eexists. rewrite lookup_insert_eq. split_and!; [done..|].
      simpl. congruence.
    + exists q, tq. by rewrite lookup_insert_ne.
  - intros i Hi. pose proof (parent_range i ltac:(lia)).
    rewrite !Hkey by lia. by apply Ho.
Qed.

(** One timer's fields change; the heap gains or loses that timer. *)
Lemma tmr_wf_update s s' p f : tmr_wf s -> heap_wf s' -> p <> 0 ->
  fields s' = <[p := f]> (fields s) ->
  (forall q, in_heap s' q <-> if decide (q = p) then f.1.1 <> 0 else in_heap s q) ->
  tmr_wf s' /\
  pending s' = if decide (f.1.1 = 0) then delete p (pending s)
               else <[p := f]> (pending s).
Proof.
  intros (Hw&H0&Hin) Hw' Hp Hf Hin'.
  assert (pending s' = if decide (f.1.1 = 0) then delete p (pending s)
                       else <[p := f]> (pending s)) as HP.
  { unfold pending. rewrite Hf, map_filter_insert. simpl.
    destruct (decide (f.1.1 = 0)) as [E|E]; destruct (decide (f.1.1 <> 0)); try done.
    by rewrite map_filter_delete. }
  split; [|done]. split_and!; [done| |].
  - apply fields_None. rewrite Hf, lookup_insert_ne by done. by apply fields_None.
  - intros q. rewrite Hin', HP. destruct (decide (q = p)) as [->|Hne].
    + destruct (decide (f.1.1 = 0)) as [E|E].
      * rewrite lookup_delete_eq. split; [done|by intros [? ?]].
      * rewrite lookup_insert_eq. split; [by eexists|done].
    + rewrite Hin. destruct (decide (f.1.1 = 0)).
      * by rewrite lookup_delete_ne by done.
      * by rewrite lookup_insert_ne by done.
Qed.

Lemma stop_spec realloc_ok s p t : tmr_wf s -> tmrs s !! p = Some t ->
  exists s1 t1, (if th t =? 0 then Some s else heap_remove_item s p) = Some s1 /\
    heap_wf s1 /\ fields s1 = fields s /\ (room realloc_ok s -> room realloc_ok s1) /\
    tmrs s1 !! p = Some t1 /\
    (forall q, in_heap s1 q <-> q <> p /\ in_heap s q).
Proof.
  intros (Hw&H0&Hin) Ht. destruct (Z.eqb_spec (th t) 0) as [E|E].
  - exists s, t. split_and!; try done. intros q. split; [|tauto].
    intros Hq. split; [|done]. intros ->. apply Hin in Hq as [f Hf].
    by rewrite (pending_idle s p t) in Hf.
  - destruct (remove_item_spec s p) as (s1&E1&Hr); [done| |].
    { apply Hin. eexists. by apply pending_running. }
    destruct (tmrs_dom s s1 p t) as (t1&Ht1&_); [apply Hr|done|].
    exists s1, t1. split_and!; try done; try apply Hr.
    intros _. left. pose proof (heap_wf_count s Hw). pose proof (rem_count _ _ _ Hr).
    destruct (rem_wf _ _ _ Hr) as (_&_&Hsz&_). pose proof (rem_acap _ _ _ Hr). lia.
Qed.

Lemma tmr_start_spec realloc_ok now s p delay h a : tmr_wf s ->
  (exists t, tmrs s !! p = Some t) -> (h <> 0 -> room realloc_ok s) ->
  exists s', tmr_start realloc_ok now s p delay h a = Some s' /\ tmr_wf s' /\
    pending s' = if decide (h = 0) then delete p (pending s)
                 else <[p := (h, a, u64 (delay + now))]> (pending s).
Proof.
  intros Hwf [t Ht] Hroom. pose proof Hwf as (Hw&H0&Hin).
  assert (p <> 0) as Hp by (intros ->; congruence).
  unfold tmr_start. rewrite (proj2 (Z.eqb_neq p 0)), Ht by done; simpl.
  destruct (stop_spec realloc_ok s p t) as (s1&t1&E1&Hw1&Hf1&Hr1&Ht1&Hin1); [done..|].
  rewrite E1; simpl.
  assert (Hn1 : ~ in_heap s1 p) by (rewrite Hin1; tauto).
  destruct (set_client_spec s1 p t1 h a (jfs t) Ht1) as (s2&E2&Hh2&Hf2&Hm2).
  rewrite E2; simpl.
  destruct (set_client_wf s1 p t1 h a (jfs t) s2) as (Hw2&Hin2);
    [done|done|by left|done|done|done|].
  destruct (Z.eqb_spec h 0) as [->|Hh].
  { exists s2. destruct (tmr_wf_update s s2 p (0, a, jfs t)) as [? HP]; try done.
    - by rewrite Hf2, Hf1.
    - intros q. rewrite Hin2, Hin1. destruct (decide (q = p)); simpl; tauto. }
  destruct (set_client_spec s2 p (mk_tmr h a (jfs t) (heap_idx t1)) h a
              (u64 (delay + now))) as (s3&E3&Hh3&Hf3&Hm3);
    [by rewrite Hm2, lookup_insert_eq|].
  rewrite E3; simpl.
  destruct (set_client_wf s2 p (mk_tmr h a (jfs t) (heap_idx t1)) h a
              (u64 (delay + now)) s3) as (Hw3&Hin3);
    [done|by rewrite Hm2, lookup_insert_eq|left; by rewrite Hin2|done|done|
     by rewrite Hm3|].
  destruct (offer_spec realloc_ok s3 p
              (mk_tmr h a (u64 (delay + now)) (heap_idx t1))) as (s4&E4&Hadd);
    [done|by rewrite Hm3, lookup_insert_eq|by rewrite Hin3, Hin2|
     unfold room; rewrite Hh3, Hh2; by apply Hr1, Hroom|].
  rewrite E4; simpl. exists s4. split; [done|].
  destruct (tmr_wf_update s s4 p (h, a, u64 (delay + now))) as [? HP]; try done.
  - apply Hadd.
  - rewrite (add_fields _ _ _ Hadd), Hf3, Hf2, Hf1. by rewrite insert_insert_eq.
  - intros q. rewrite (add_in _ _ _ Hadd), Hin3, Hin2, Hin1.
    destruct (decide (q = p)); simpl; tauto.
Qed.

(** *** Polling *)

Definition expired (now : Z) (s : store) : gmap Z (Z * Z * Z) :=
  filter (fun kv => kv.2.2 <= now) (pending s).

Definition unexpired (now : Z) (s : store) : gmap Z (Z * Z * Z) :=
  filter (fun kv => now < kv.2.2) (pending s).

Lemma expired_lookup now s p f :
  expired now s !! p = Some f <-> pending s !! p = Some f /\ f.2 <= now.
Proof. unfold expired. by rewrite map_lookup_filter_Some. Qed.

Lemma expired_empty now s : expired now s = ∅ <->
  forall p f, pending s !! p = Some f -> now < f.2.
Proof.
  split.
  - intros E p f Hp. destruct (Z.lt_ge_cases now f.2) as [|Hle]; [done|].
    assert (expired now s !! p = Some f) as Hx by (by apply expired_lookup).
    by rewrite E, lookup_empty in Hx.
  - intros H. apply map_empty. intros p. apply eq_None_not_Some.
    intros [f [Hp Hle]%expired_lookup]. specialize (H p f Hp). lia.
Qed.

Lemma unexpired_all now s : expired now s = ∅ -> unexpired now s = pending s.
Proof.
  intros E. unfold unexpired. apply map_filter_id. intros p f Hp; simpl.
  by eapply expired_empty.
Qed.

(** Handler [h] with argument [a] expires at [j]. *)
Lemma earliest_pending s p : tmr_wf s -> earliest s p ->
  exists t, tmrs s !! p = Some t /\ th t <> 0 /\
    pending s !! p = Some (client t) /\
    forall q f, pending s !! q = Some f -> jfs t <= f.2.
Proof.
  intros (Hw&H0&Hin) (Hp&j&Hj&Hmin). apply Hin in Hp as [f Hf].
  destruct (pending_tmr s p f Hf) as (t&Ht&<-&Hth). exists t. split_and!; try done.
  intros q g Hg. destruct (pending_tmr s q g Hg) as (tq&Htq&<-&_).
  unfold jfs_of in Hj. rewrite Ht in Hj. simplify_eq/=.
  apply (Hmin q); [|unfold jfs_of; by rewrite Htq]. apply Hin. by eexists.
Qed.

Section PollSpec.
Context {W : Type} (callh : Z -> Z -> W -> store -> option (W * store)).

(** One turn of the loop: it stops when nothing has expired, and otherwise
    takes the earliest running timer out and calls its handler. *)
Lemma poll_step n now w s : tmr_wf s ->
  (tmr_poll callh (S n) now w s = Some (w, s) /\ expired now s = ∅) \/
  (exists p h a j s2, pending s !! p = Some (h, a, j) /\ j <= now /\
     (forall q f, pending s !! q = Some f -> j <= f.2) /\
     tmr_wf s2 /\ pending s2 = delete p (pending s) /\
     tmr_poll callh (S n) now w s =
       (r ← callh h a w s2; tmr_poll callh n now (fst r) (snd r))).
Proof.
  intros Hwf. pose proof Hwf as (Hw&H0&Hin). simpl.
  destruct (peek_spec s Hw) as [(Hc&Hpk)|(Hc&p&Hpk&He)]; rewrite Hpk; simpl.
  { left. split; [done|]. apply expired_empty. intros p f Hp.
    destruct (proj2 (Hin p)) as (i&Hi&_); [by eexists|]. lia. }
  destruct (earliest_pending s p Hwf He) as (t&Ht&Hth&Hpt&Hmin).
  assert (p <> 0) by (intros ->; congruence).
  rewrite (proj2 (Z.eqb_neq p 0)), Ht by done; simpl.
  destruct (Z.ltb_spec now (jfs t)).
  { left. split; [done|]. apply expired_empty. intros q f Hq.
    specialize (Hmin q f Hq). lia. }
  right. exists p, (th t), (arg t), (jfs t).
  destruct (set_client_spec s p t 0 (arg t) (jfs t) Ht) as (s1&E1&Hh1&Hf1&Hm1).
  destruct (set_client_wf s p t 0 (arg t) (jfs t) s1) as (Hw1&Hin1);
    [done|done|by right|done|done|done|].
  destruct (remove_item_spec s1 p) as (s2&E2&Hr); [done|apply Hin1, He|].
  destruct (tmr_wf_update s s2 p (0, arg t, jfs t)) as [Hwf2 HP]; try done.
  - apply Hr.
  - by rewrite (rem_fields _ _ _ Hr).
  - intros q. rewrite (rem_in _ _ _ Hr), Hin1. destruct (decide (q = p)); simpl; tauto.
  - exists s2. split_and!; try done.
    rewrite E1; simpl. rewrite E2; simpl. by rewrite (proj2 (Z.eqb_neq _ _)) by done.
Qed.

(** What [tmr_poll] relies on: a handler called on a sound heap returns, leaves
    a sound heap, and starts no timer that has expired already. *)
Definition well_behaved (now : Z) : Prop :=
  forall h a w s, tmr_wf s -> exists w' s', callh h a w s = Some (w', s') /\
    tmr_wf s' /\ expired now s' ⊆ expired now s.

Lemma expired_delete now s s2 p f : pending s !! p = Some f -> f.2 <= now ->
  pending s2 = delete p (pending s) ->
  expired now s2 = delete p (expired now s) /\ expired now s !! p = Some f.
Proof.
  intros Hp Hle HP. split; [|by apply expired_lookup].
  unfold expired. by rewrite HP, map_filter_delete.
Qed.

Lemma poll_complete now : well_behaved now -> forall fuel w s, tmr_wf s ->
  (base.size (expired now s) < fuel)%nat ->
  exists w' s', tmr_poll callh fuel now w s = Some (w', s') /\ tmr_wf s' /\
    expired now s' = ∅.
Proof.
  intros Hgood. induction fuel as [|fuel IH]; intros w s Hwf Hfuel; [lia|].
  destruct (poll_step fuel now w s Hwf)
    as [(E&He)|(p&h&a&j&s2&Hp&Hj&_&Hwf2&HP&E)]; rewrite E.
  { by exists w, s. }
  destruct (Hgood h a w s2 Hwf2) as (w3&s3&E3&Hwf3&Hsub). rewrite E3; simpl.
  apply IH; [done|].
  destruct (expired_delete now s s2 p (h, a, j)) as [Hx Hxp]; [done..|].
  apply map_subseteq_size in Hsub. rewrite Hx in Hsub.
  rewrite map_size_delete_Some in Hsub by (by eexists).
  assert (base.size (expired now s) <> 0)%nat; [|lia].
  intros H0. apply map_size_empty_inv in H0. by rewrite H0, lookup_empty in Hxp.
Qed.

(** A run of [tmr_poll] as the manual tells it: while a running timer has
    expired, one with the earliest expiry - of those that run at that moment,
    whatever the handlers before did - is stopped, and then its handler is
    called.  The list holds the timers fired, in order. *)
Inductive poll_run (now : Z) : W -> store -> list (Z * (Z * Z * Z)) -> W -> store -> Prop :=
| run_stop w s : expired now s = ∅ -> poll_run now w s [] w s
| run_fire w s p h a j s2 w3 s3 l w' s' :
    pending s !! p = Some (h, a, j) -> j <= now ->
    (forall q f, pending s !! q = Some f -> j <= f.2) ->
    tmr_wf s2 -> pending s2 = delete p (pending s) ->
    callh h a w s2 = Some (w3, s3) ->
    poll_run now w3 s3 l w' s' ->
    poll_run now w s ((p, (h, a, j)) :: l) w' s'.

(** A handler called on a sound heap returns and leaves a sound heap; it may
    start and cancel timers as it likes. *)
Definition sane : Prop :=
  forall h a w s, tmr_wf s -> exists w' s', callh h a w s = Some (w', s') /\ tmr_wf s'.

(** Handlers that touch no timer. *)
Definition hands_off : Prop :=
  forall h a w s w' s', callh h a w s = Some (w', s') -> pending s' = pending s.

Lemma good_sane now : well_behaved now -> sane.
Proof.
  intros Hg h a w s Hwf. destruct (Hg h a w s Hwf) as (w'&s'&E&Hwf'&_).
  by exists w', s'.
Qed.

Lemma poll_sound now : sane -> forall fuel w s w' s', tmr_wf s ->
  tmr_poll callh fuel now w s = Some (w', s') ->
  exists l, poll_run now w s l w' s' /\ tmr_wf s' /\ expired now s' = ∅.
Proof.
  intros Hs. induction fuel as [|fuel IH]; intros w s w' s' Hwf E; [done|].
  destruct (poll_step fuel now w s Hwf)
    as [(E'&He)|(p&h&a&j&s2&Hp&Hj&Hmin&Hwf2&HP&E')]; rewrite E' in E.
  { simplify_eq. exists []. split_and!; [by apply run_stop|done|done]. }
  destruct (Hs h a w s2 Hwf2) as (w3&s3&E3&Hwf3). rewrite E3 in E; simpl in E.
  destruct (IH w3 s3 w' s' Hwf3 E) as (l&Hl&?&?).
  exists ((p, (h, a, j)) :: l). split; [|done]. by apply (run_fire now w s p h a j s2 w3 s3).
Qed.

(** Handlers that start no expired timer only take expired timers away. *)
Lemma run_order now w s l w' s' : well_behaved now -> poll_run now w s l w' s' ->
  NoDup l.*1 /\ (forall x, x ∈ l -> expired now s !! x.1 = Some x.2) /\
  StronglySorted (fun x y => x.2.2 <= y.2.2) l.
Proof.
  intros Hg. induction 1 as [|w s p h a j s2 w3 s3 l w' s' Hp Hj Hmin Hwf2 HP E Hl IH].
  { split_and!; [constructor|intros x Hx; by apply not_elem_of_nil in Hx|constructor]. }
  destruct IH as (Hnd&Hin&Hso).
  destruct (expired_delete now s s2 p (h, a, j)) as [Hx Hxp]; [done..|].
  destruct (Hg h a w s2 Hwf2) as (w4&s4&E4&_&Hsub). simplify_eq.
  assert (Hl2 : forall x, x ∈ l -> x.1 <> p /\ expired now s !! x.1 = Some x.2).
  { intros x Hxl. apply Hin in Hxl. eapply lookup_weaken in Hxl; [|exact Hsub].
    rewrite Hx in Hxl. by apply lookup_delete_Some in Hxl as [? ?]. }
  split_and!.
  - constructor; [|done]. intros (x&Ex&Hxl)%list_elem_of_fmap.
    by destruct (Hl2 x Hxl).
  - intros x [->|Hxl]%elem_of_cons; [done|by apply Hl2].
  - constructor; [done|]. apply Forall_forall. intros x Hxl.
    destruct (Hl2 x Hxl) as [_ Hxe]. apply expired_lookup in Hxe as [Hxe _].
    by apply (Hmin x.1).
Qed.

Lemma run_hands_off now w s l w' s' : hands_off -> poll_run now w s l w' s' ->
  l ≡ₚ map_to_list (expired now s) /\ pending s' = unexpired now s.
Proof.
  intros Hh. induction 1 as [w s He|w s p h a j s2 w3 s3 l w' s' Hp Hj Hmin Hwf2 HP E Hl IH].
  { by rewrite He, map_to_list_empty, (unexpired_all _ _ He). }
  destruct IH as (Hpm&Hpe). apply Hh in E.
  destruct (expired_delete now s s2 p (h, a, j)) as [Hx Hxp]; [done..|].
  assert (E2 : expired now s3 = expired now s2) by (unfold expired; by rewrite E).
  split.
  - rewrite Hpm, E2, Hx. by apply map_to_list_delete.
  - rewrite Hpe. unfold unexpired. rewrite E, HP, map_filter_delete_not; [done|].
    intros f Hf. rewrite Hp in Hf. simplify_eq/=. lia.
Qed.
End PollSpec.

Definition record_call (h a : Z) (w : list (Z * Z)) (s : store) :
    option (list (Z * Z) * store) := Some (w ++ [(h, a)], s).

Lemma record_call_good now : well_behaved record_call now.
Proof. intros h a w s Hwf. by exists (w ++ [(h, a)]), s. Qed.

(** ** Properties *)

Definition u64_ok (z : Z) : Prop := 0 <= z < 18446744073709551616.

(** [tmr_start] with a handler, on an idle timer or a running one, makes
    the timer run with that handler and argument and the expiry
    [delay + now]; every other running timer is unaffected.  Until the expiry
    overflows 64 bits, [tmr_get_expire] then reports [delay]. *)
Theorem tmr_start_runs realloc_ok now s p delay h a :
  tmr_wf s -> (exists t, tmrs s !! p = Some t) -> room realloc_ok s -> h <> 0 ->
  0 <= delay -> 0 <= now -> u64_ok (delay + now) ->
  exists s', tmr_start realloc_ok now s p delay h a = Some s' /\ tmr_wf s' /\
    pending s' = <[p := (h, a, delay + now)]> (pending s) /\
    tmr_isrunning s' p = Some true /\ tmr_get_expire now s' p = Some delay.
Proof.
  unfold u64_ok. intros Hwf Ht Hroom Hh Hd Hn Hu.
  destruct (tmr_start_spec realloc_ok now s p delay h a) as (s'&E&Hwf'&HP); [done..|].
  rewrite decide_False, u64_small in HP by done. exists s'. split_and!; try done.
  all: destruct (pending_tmr s' p (h, a, delay + now)) as (t'&Ht'&Hc&Hth);
    [by rewrite HP, lookup_insert_eq|]; destruct t'; injection Hc as -> -> ->; simpl in *.
  all: pose proof Hwf' as (_&H0&_); assert (p <> 0) by (intros ->; congruence).
  - unfold tmr_isrunning. rewrite (proj2 (Z.eqb_neq p 0)), Ht' by done; simpl.
    by rewrite (proj2 (Z.eqb_neq _ 0)).
  - unfold tmr_get_expire. rewrite (proj2 (Z.eqb_neq p 0)), Ht' by done; simpl.
    rewrite (proj2 (Z.eqb_neq _ 0)) by done.
    destruct (Z.ltb_spec now (delay + now)); [|f_equal; lia].
    rewrite u64_small by lia. f_equal. lia.
Qed.

(** [tmr_cancel] stops the timer, whether it runs or not, and no other. *)
Theorem tmr_cancel_stops realloc_ok now s p :
  tmr_wf s -> (exists t, tmrs s !! p = Some t) ->
  exists s', tmr_cancel realloc_ok now s p = Some s' /\ tmr_wf s' /\
    pending s' = delete p (pending s) /\ tmr_isrunning s' p = Some false.
Proof.
  intros Hwf [t Ht].
  destruct (tmr_start_spec realloc_ok now s p 0 0 0) as (s'&E&Hwf'&HP); [done|by exists t|done|].
  simpl in HP. exists s'. split_and!; try done.
  assert (p <> 0) by (intros ->; destruct Hwf as (_&H0&_); congruence).
  unfold tmr_isrunning. rewrite (proj2 (Z.eqb_neq p 0)) by done.
  revert E. unfold tmr_cancel, tmr_start. rewrite (proj2 (Z.eqb_neq p 0)), Ht by done; simpl.
  intros E. destruct (if th t =? 0 then _ else _) as [s1|]; simplify_eq/=.
  unfold set_client in E. destruct (tmrs s1 !! p) as [t1|]; simplify_eq/=.
  rewrite lookup_insert_eq; simpl. done.
Qed.

(** C25: as long as handlers return and do not start timers that have already
    expired, [tmr_poll] terminates - one turn per expired timer and one more
    are enough - and afterwards no running timer has expired. *)
Theorem tmr_poll_terminates {W} (callh : Z -> Z -> W -> store -> option (W * store))
    now w s :
  well_behaved callh now -> tmr_wf s ->
  exists w' s', tmr_poll callh (S (base.size (expired now s))) now w s = Some (w', s') /\
    tmr_wf s' /\ forall p f, pending s' !! p = Some f -> now < f.2.
Proof.
  intros Hg Hwf.
  destruct (poll_complete callh now Hg (S (base.size (expired now s))) w s)
    as (w'&s'&E&Hwf'&He); [done|lia|].
  exists w', s'. split_and!; try done. by apply expired_empty.
Qed.

(** C24: whatever the timeout handlers do to the timers - start, restart or
    cancel any of them - [tmr_poll] fires, one after the other, the earliest of
    the timers that are running and expired at that moment, stops it before its
    handler is called, and returns when none is left.  When the handlers start
    no timer that has expired already, it returns; no timer fires twice, every
    one that fires had expired on entry, with the handler and argument it then
    had, and they fire in the order of their expiry.  When the handlers leave
    the timers alone, exactly the expired timers fire, and exactly the others
    are left running. *)
Theorem tmr_poll_fires_in_order {W} (callh : Z -> Z -> W -> store -> option (W * store))
    now w s :
  sane callh -> tmr_wf s ->
  (forall fuel w' s', tmr_poll callh fuel now w s = Some (w', s') ->
     exists l, poll_run callh now w s l w' s' /\ tmr_wf s' /\ expired now s' = ∅) /\
  (well_behaved callh now ->
   exists l w' s',
     tmr_poll callh (S (base.size (expired now s))) now w s = Some (w', s') /\
     poll_run callh now w s l w' s' /\ tmr_wf s' /\ expired now s' = ∅ /\
     NoDup l.*1 /\ (forall x, x ∈ l -> expired now s !! x.1 = Some x.2) /\
     StronglySorted (fun x y => x.2.2 <= y.2.2) l /\
     (hands_off callh ->
        l ≡ₚ map_to_list (expired now s) /\ pending s' = unexpired now s)).
Proof.
  intros Hs Hwf. split.
  { intros fuel w' s' E. by eapply poll_sound. }
  intros Hg.
  destruct (poll_complete callh now Hg (S (base.size (expired now s))) w s)
    as (w'&s'&E&Hwf'&He); [done|lia|].
  destruct (poll_sound callh now Hs _ w s w' s' Hwf E) as (l&Hl&_).
  destruct (run_order callh now w s l w' s' Hg Hl) as (?&?&?).
  exists l, w', s'. split_and!; try done. intros Hh. by eapply run_hands_off.
Qed.

(** [tmr_next_timeout] is 0 exactly when no timer runs; otherwise waiting
    that long never oversleeps an unexpired timer, and ends exactly at the
    earliest expiry when none has expired. *)
Theorem tmr_next_timeout_exact now s :
  tmr_wf s -> 0 <= now -> (forall p f, pending s !! p = Some f -> u64_ok f.2) ->
  exists d, tmr_next_timeout now s = Some d /\
    (d = 0 <-> pending s = ∅) /\
    (forall p f, pending s !! p = Some f -> now < f.2 -> now + d <= f.2) /\
    (pending s <> ∅ -> expired now s = ∅ ->
       exists p f, pending s !! p = Some f /\ f.2 = now + d).
Proof.
  intros Hwf Hn Hu. pose proof Hwf as (Hw&H0&Hin). unfold tmr_next_timeout.
  destruct (peek_spec s Hw) as [(Hc&Hpk)|(Hc&p&Hpk&He)]; rewrite Hpk; simpl.
  { assert (pending s = ∅) as HE.
    { apply map_empty. intros q. apply eq_None_not_Some. intros [f Hf].
      destruct (proj2 (Hin q)) as (i&Hi&_); [by eexists|]. lia. }
    exists 0. split_and!; try done. intros q f Hq. by rewrite HE, lookup_empty in Hq. }
  destruct (earliest_pending s p Hwf He) as (t&Ht&Hth&Hpt&Hmin).
  assert (p <> 0) by (intros ->; congruence).
  rewrite (proj2 (Z.eqb_neq p 0)), Ht by done; simpl.
  assert (pending s <> ∅) as Hne by (intros E; by rewrite E, lookup_empty in Hpt).
  pose proof (Hu p _ Hpt) as Hup. unfold u64_ok in Hup; simpl in Hup.
  destruct (Z.leb_spec (jfs t) now).
  - exists 1. split_and!; try done; [intros; lia|]. intros _ HE.
    rewrite expired_empty in HE. specialize (HE p _ Hpt). simpl in HE. lia.
  - rewrite u64_small by lia. exists (jfs t - now). split_and!; try done.
    + split; [lia|done].
    + intros q f Hq Hlt. specialize (Hmin q f Hq). lia.
    + intros _ _. exists p, (client t). split; [done|]. simpl. lia.
Qed.

(** ** Concrete instances *)

Definition ex_idle : store :=
  mk_store heap_new {[ 1 := mk_tmr 0 0 0 (-1); 2 := mk_tmr 0 0 0 (-1) ]}.

Lemma ex_idle_wf : tmr_wf ex_idle.
Proof.
  split_and!; [apply heap_new_represents|reflexivity|]. intros p.
  assert (pending ex_idle = ∅) as -> by reflexivity. rewrite lookup_empty.
  split; [intros (i&Hi&_); simpl in Hi; lia|by intros [??]].
Qed.

Definition ex_start (s : store) (p delay h : Z) : store :=
  default s (tmr_start (fun _ => true) 1000 s p delay h 5).

Lemma ex_start_wf s p delay h : tmr_wf s -> (exists t, tmrs s !! p = Some t) ->
  count (hp s) < TmrHeap.size (hp s) -> tmr_wf (ex_start s p delay h).
Proof.
  intros Hwf Ht Hlt. unfold ex_start.
  destruct (tmr_start_spec (fun _ => true) 1000 s p delay h 5) as (s'&E&?&_);
    [done|done|intros _; by left|]. by rewrite E.
Qed.

(** Timer 1 expires at 1050 and timer 2 at 1020. *)
Definition ex_running : store := ex_start (ex_start ex_idle 1 50 7) 2 20 8.

Lemma ex_running_wf : tmr_wf ex_running.
Proof.
  apply ex_start_wf; [apply ex_start_wf; [apply ex_idle_wf| |]| |];
    try (eexists; vm_compute; reflexivity); by vm_compute.
Qed.

Lemma tmr_start_runs_witness :
  exists s', tmr_start (fun _ => true) 1000 ex_running 1 500 9 5 = Some s' /\
    tmr_wf s' /\ pending s' = <[1 := (9, 5, 1500)]> (pending ex_running) /\
    tmr_isrunning s' 1 = Some true /\ tmr_get_expire 1000 s' 1 = Some 500.
Proof.
  apply (tmr_start_runs (fun _ => true) 1000 ex_running 1 500 9 5 ex_running_wf).
  - eexists. vm_compute. reflexivity.
  - left. vm_compute. reflexivity.
  - lia.
  - lia.
  - lia.
  - unfold u64_ok. lia.
Defined.

Lemma tmr_cancel_stops_witness :
  exists s', tmr_cancel (fun _ => true) 1000 ex_running 2 = Some s' /\ tmr_wf s' /\
    pending s' = delete 2 (pending ex_running) /\ tmr_isrunning s' 2 = Some false.
Proof.
  apply (tmr_cancel_stops (fun _ => true) 1000 ex_running 2 ex_running_wf).
  - eexists. vm_compute. reflexivity.
Defined.

Lemma tmr_poll_terminates_witness :
  exists w' s', tmr_poll record_call (S (base.size (expired 1030 ex_running))) 1030
                  [] ex_running = Some (w', s') /\
    tmr_wf s' /\ forall p f, pending s' !! p = Some f -> 1030 < f.2.
Proof.
  apply (tmr_poll_terminates record_call 1030 [] ex_running).
  - apply record_call_good.
  - apply ex_running_wf.
Defined.

(** A handler that stops timer 1 and records its call, as the transactions'
    handlers stop their other timers. *)
Definition cancel_call (h a : Z) (w : list (Z * Z)) (s : store) :
    option (list (Z * Z) * store) :=
  Some (w ++ [(h, a)], default s (tmr_cancel (fun _ => true) 1060 s 1)).

Lemma cancel_call_good now : well_behaved cancel_call now.
Proof.
  intros h a w s Hwf. unfold cancel_call. do 2 eexists. split; [reflexivity|].
  destruct (tmr_cancel (fun _ => true) 1060 s 1) as [s'|] eqn:E; simpl; [|done].
  assert (exists t, tmrs s !! 1 = Some t) as [t Ht].
  { unfold tmr_cancel, tmr_start in E; simpl in E.
    destruct (tmrs s !! 1) as [t|]; [by exists t|done]. }
  destruct (tmr_start_spec (fun _ => true) 1060 s 1 0 0 0 Hwf ltac:(by exists t) ltac:(done))
    as (s2&E2&Hwf2&HP).
  simpl in HP.
  unfold tmr_cancel in E. rewrite E in E2. simplify_eq. split; [done|]. unfold expired. rewrite HP.
  rewrite map_filter_delete. apply delete_subseteq.
Qed.

Example ex_poll_calls :
  fst <$> tmr_poll record_call 3 1060 [] ex_running = Some [(8, 5); (7, 5)] /\
  fst <$> tmr_poll cancel_call 3 1060 [] ex_running = Some [(8, 5)].
Proof. split; vm_compute; reflexivity. Qed.

Lemma tmr_poll_fires_in_order_witness :
  exists l w' s',
    tmr_poll cancel_call (S (base.size (expired 1060 ex_running))) 1060 [] ex_running =
      Some (w', s') /\
    poll_run cancel_call 1060 [] ex_running l w' s' /\ tmr_wf s' /\
    expired 1060 s' = ∅ /\ NoDup l.*1 /\
    (forall x, x ∈ l -> expired 1060 ex_running !! x.1 = Some x.2) /\
    StronglySorted (fun x y => x.2.2 <= y.2.2) l /\
    (hands_off cancel_call ->
       l ≡ₚ map_to_list (expired 1060 ex_running) /\
       pending s' = unexpired 1060 ex_running).
Proof.
  apply (tmr_poll_fires_in_order cancel_call 1060 [] ex_running).
  - exact (good_sane _ 1060 (cancel_call_good 1060)).
  - exact ex_running_wf.
  - exact (cancel_call_good 1060).
Defined.

Lemma tmr_next_timeout_exact_witness :
  exists d, tmr_next_timeout 1000 ex_running = Some d /\
    (d = 0 <-> pending ex_running = ∅) /\
    (forall p f, pending ex_running !! p = Some f -> 1000 < f.2 -> 1000 + d <= f.2) /\
    (pending ex_running <> ∅ -> expired 1000 ex_running = ∅ ->
       exists p f, pending ex_running !! p = Some f /\ f.2 = 1000 + d).
Proof.
  apply (tmr_next_timeout_exact 1000 ex_running ex_running_wf); [lia|].
  intros p f Hp. apply elem_of_map_to_list in Hp. vm_compute in Hp.
  apply list_elem_of_In in Hp. unfold u64_ok.
  destruct Hp as [[= <- <-]|[[= <- <-]|[]]]; simpl; lia.
Defined.

End Tmr.
