(* ===== verification/RepeatingTimer.v ===== *)
(** * Repeating timers: src/src/timer.cpp

    [RepeatingTimer::timer_fn] runs [act] once per interval and re-arms the
    underlying timer so that the schedule does not drift.  The clock readings
    are arguments; [act] is represented by its result. *)
From S2P Require Import Prelude.
From Stdlib Require Import SpecFloat.

Module RepeatingTimer.

(** ** Doubles

    [double] arithmetic is the IEEE binary64 arithmetic of [SpecFloat]
    (53 bits, round to nearest even). *)
Definition double_of_Z (z : Z) : spec_float := binary_normalize 53 1024 z 0 false.

(** Conversion to [uint64_t]: truncation; undefined outside the range. *)
Definition uint64_of_double (f : spec_float) : option Z :=
  match f with
  | S754_zero _ => Some 0
  | S754_finite sgn m e =>
      let a := if 0 <=? e then Z.pos m * 2 ^ e else Z.pos m / 2 ^ (- e) in
      let v := if sgn then - a else a in
      if (0 <=? v) && (v <? 18446744073709551616) then Some v else None
  | _ => None
  end.

(** ** State *)

Record timer := mk_timer {
  _ms_per_tick : Z;   (** unsigned int *)
  _start_time : Z;    (** uint64_t *)
  _tick : Z }.        (** uint64_t *)

Definition RepeatingTimer (interval_ms : Z) : timer := mk_timer interval_ms 0 0.

(** What the timer asks of the underlying [struct tmr]: the delay it is
    started with, or nothing. *)
Definition arm := option Z.

(** [_start_time] is read from the clock and the first call comes at once. *)
Definition start (t : timer) (now : Z) : timer * arm :=
  (mk_timer (_ms_per_tick t) now (_tick t), Some 0).

Definition ms_since_start (t : timer) (now : Z) : Z := u64 (now - _start_time t).

Definition seconds_since_start (t : timer) (now : Z) : spec_float :=
  SFdiv 53 1024 (double_of_Z (ms_since_start t now)) (double_of_Z 1000).

(** The [int diff] of [timer_fn]. *)
Definition tick_diff (t : timer) (now : Z) : Z :=
  s32 (u64 (_start_time t + u64 (_ms_per_tick t * _tick t)) - now).

(** [timer_fn] up to the call of [act]: [inl] is the early return. *)
Definition timer_fn_begin (t : timer) (now : Z) : arm + timer :=
  if 0 <? tick_diff t now then inl (Some (tick_diff t now))
  else inr (mk_timer (_ms_per_tick t) (_start_time t) (u64 (_tick t + 1))).

(** [timer_fn] after [act] returned [reschedule_timer]; [diff] is the value
    computed before the call. *)
Definition timer_fn_end (t : timer) (diff : Z) (reschedule_timer : bool) : arm :=
  if reschedule_timer then
    let ms_to_sleep := s32 (u32 diff + _ms_per_tick t) in
    Some (if ms_to_sleep <? 0 then 0 else ms_to_sleep)
  else None.

(** The whole of [timer_fn]: the new timer, whether [act] was called, and how
    the timer is re-armed. *)
Definition timer_fn (t : timer) (now : Z) (act : bool) : timer * bool * arm :=
  match timer_fn_begin t now with
  | inl a => (t, false, a)
  | inr t' => (t', true, timer_fn_end t' (tick_diff t now) act)
  end.

(** ** Due times *)

Definition due (t : timer) : Z := _start_time t + _ms_per_tick t * _tick t.

(** The clock and the schedule stay clear of the 32-bit difference: at most
    about 24 days between the clock and the next tick. *)
Definition in_range (t : timer) (now : Z) : Prop :=
  0 <= _start_time t /\ 0 < _ms_per_tick t < 2147483648 /\ 0 <= _tick t /\
  due t + _ms_per_tick t < 18446744073709551616 /\
  -2147483648 <= due t - now < 2147483648.

Lemma tick_diff_due t now : in_range t now -> tick_diff t now = due t - now.
Proof.
  unfold in_range, tick_diff, due. intros (?&?&?&?&?).
  assert (0 <= _ms_per_tick t * _tick t) by nia.
  by word_simpl.
Qed.

Lemma tick_succ t now : in_range t now ->
  u64 (_tick t + 1) = _tick t + 1.
Proof. unfold in_range, due. intros (?&?&?&?&?). apply u64_small. nia. Qed.

Lemma sleep_due t now : in_range t now -> due t <= now ->
  timer_fn_end t (due t - now) true = Some (Z.max 0 (due t + _ms_per_tick t - now)).
Proof.
  unfold in_range, timer_fn_end. intros (?&?&?&?&?) Hle. f_equal.
  assert (s32 (u32 (due t - now) + _ms_per_tick t) = due t - now + _ms_per_tick t) as ->.
  { unfold s32, u32. rewrite Zplus_mod_idemp_l.
    apply (s32_small (due t - now + _ms_per_tick t)). lia. }
  zcase; lia.
Qed.

(** One invocation at a time in range: [act] runs exactly when the current tick
    is due, and the timer is re-armed for the due time of the next tick. *)
Lemma timer_fn_spec t now act : in_range t now ->
  (now < due t /\ timer_fn t now act = (t, false, Some (due t - now))) \/
  (due t <= now /\ exists t', due t' = due t + _ms_per_tick t /\
     _ms_per_tick t' = _ms_per_tick t /\ _start_time t' = _start_time t /\
     _tick t' = _tick t + 1 /\
     timer_fn t now act =
       (t', true, if act then Some (Z.max 0 (due t' - now)) else None)).
Proof.
  intros Hr. unfold timer_fn, timer_fn_begin. rewrite tick_diff_due by done.
  destruct (Z.ltb_spec 0 (due t - now)); [left; split; [lia|done]|right].
  split; [lia|]. rewrite (tick_succ t now Hr).
  exists (mk_timer (_ms_per_tick t) (_start_time t) (_tick t + 1)).
  split_and!; [unfold due; simpl; lia|done..|].
  f_equal. destruct act; [|done].
  transitivity (timer_fn_end t (due t - now) true); [done|].
  rewrite sleep_due by (done || lia). do 2 f_equal. unfold due; simpl. lia.
Qed.

(** ** Runs

    The timer over time: [deadline] is when the underlying timer expires,
    [acts] the times of the calls of [act], the latest first. *)
Record run := mk_run { rt : timer; deadline : option Z; clock : Z; acts : list Z }.

Definition run_start (t : timer) (now : Z) : run :=
  let '(t', a) := start t now in mk_run t' ((fun d => now + d) <$> a) now [].

Inductive step : run -> run -> Prop :=
| step_clock r now : clock r <= now ->
    step r (mk_run (rt r) (deadline r) now (acts r))
| step_fire r d act t' acted a : deadline r = Some d -> d <= clock r ->
    in_range (rt r) (clock r) ->
    timer_fn (rt r) (clock r) act = (t', acted, a) ->
    step r (mk_run t' ((fun x => clock r + x) <$> a) (clock r)
                   (if acted then clock r :: acts r else acts r)).

Inductive reachable (t : timer) (t0 : Z) : run -> Prop :=
| reach_start : reachable t t0 (run_start t t0)
| reach_step r r' : reachable t t0 r -> step r r' -> reachable t t0 r'.

(** The [k]-th call of [act] (from 0, the list is latest first). *)
Fixpoint on_schedule (t0 ms : Z) (l : list Z) : Prop :=
  match l with
  | [] => True
  | x :: l' => t0 + ms * Z.of_nat (length l') <= x /\ on_schedule t0 ms l'
  end.

Record run_inv (ms t0 : Z) (r : run) : Prop := {
  ri_ms : _ms_per_tick (rt r) = ms;
  ri_start : _start_time (rt r) = t0;
  ri_tick : _tick (rt r) = Z.of_nat (length (acts r));
  ri_clock : t0 <= clock r;
  ri_past : Forall (fun x => x <= clock r) (acts r);
  ri_sched : on_schedule t0 ms (acts r);
  ri_due : forall d, deadline r = Some d ->
    due (rt r) <= d <= Z.max (clock r) (due (rt r)) }.

Lemma run_inv_reachable t t0 r : _tick t = 0 -> reachable t t0 r ->
  run_inv (_ms_per_tick t) t0 r.
Proof.
  intros H0. induction 1 as [|r r' _ IH Hstep].
  - split; simpl; try done; try lia. intros d [= <-]. unfold due; simpl. lia.
  - destruct IH as [Hms Hst Htk Hck Hpast Hs Hd].
    inversion Hstep as [? now Hle|? d act t' acted a Hdl Hdc Hr Hfn]; subst.
    + split; simpl; try done; try lia.
      * eapply Forall_impl; [exact Hpast|]. simpl; lia.
      * intros d Hd'. specialize (Hd d Hd'). lia.
    + destruct (timer_fn_spec (rt r) (clock r) act Hr)
        as [(Hlt&E)|(Hle&t2&Hdue&Hms2&Hst2&Htk2&E)];
        rewrite E in Hfn; simplify_eq/=.
      * split; simpl; try done. intros d' [= <-]. lia.
      * split; simpl; try congruence; try lia.
        -- by constructor.
        -- split; [|done]. unfold due in Hle. rewrite Htk in Hle. lia.
        -- intros d'. destruct act; simpl; [|done]. intros [= <-]. lia.
Qed.

Lemma on_schedule_bound t0 ms l T : 0 < ms -> on_schedule t0 ms l ->
  Forall (fun x => x <= T) l -> t0 <= T ->
  ms * (Z.of_nat (length l) - 1) <= T - t0.
Proof.
  intros Hms Hs Hf HT. destruct l as [|x l]; simpl in *; [lia|].
  apply Forall_cons in Hf as [Hx _]. lia.
Qed.

Lemma on_schedule_lookup t0 ms l k x : on_schedule t0 ms l ->
  rev l !! k = Some x -> t0 + ms * Z.of_nat k <= x.
Proof.
  induction l as [|y l IH]; simpl; [done|]. intros [Hy Hl] Hk.
  apply lookup_app_Some in Hk as [Hk|[Hle Hk]]; [by apply IH|].
  rewrite length_rev in *. destruct (k - length l)%nat as [|n] eqn:En; simplify_eq/=.
  assert (k = length l) as -> by lia. done.
Qed.

(** ** Properties *)

(** A repeating timer never acts early and never faster than its interval:
    in every reachable state the k-th call of [act] happened no sooner than
    [k] intervals after the start, so [act] ran at most once per started
    interval. *)
Theorem act_rate_bounded t t0 r :
  _tick t = 0 -> 0 < _ms_per_tick t -> reachable t t0 r ->
  (forall k x, rev (acts r) !! k = Some x -> t0 + _ms_per_tick t * Z.of_nat k <= x) /\
  Z.of_nat (length (acts r)) <= (clock r - t0) / _ms_per_tick t + 1.
Proof.
  intros H0 Hms Hr. destruct (run_inv_reachable t t0 r H0 Hr).
  split; [intros k x; by apply on_schedule_lookup|].
  pose proof (on_schedule_bound t0 (_ms_per_tick t) (acts r) (clock r)) as Hb.
  enough (Z.of_nat (length (acts r)) - 1 <= (clock r - t0) / _ms_per_tick t) by lia.
  apply Z.div_le_lower_bound; [done|]. by apply Hb.
Qed.

(** The schedule does not drift: whenever the timer is armed, it is armed
    for the due time of its next tick, [start + interval * ticks], or for now
    if that time has passed; and firing it then runs [act] at once when due. *)
Theorem act_schedule_no_drift t t0 r d :
  _tick t = 0 -> reachable t t0 r -> deadline r = Some d ->
  in_range (rt r) (clock r) -> d <= clock r ->
  due (rt r) = t0 + _ms_per_tick t * Z.of_nat (length (acts r)) /\
  due (rt r) <= d <= Z.max (clock r) (due (rt r)) /\
  forall act, exists t', timer_fn (rt r) (clock r) act =
    (t', true, if act then Some (Z.max 0 (due (rt r) + _ms_per_tick t - clock r))
               else None).
Proof.
  intros H0 Hr Hd Hrange Hle.
  destruct (run_inv_reachable t t0 r H0 Hr) as [Hms Hst Htk Hck Hpast Hs Hdl].
  specialize (Hdl d Hd). split_and!; try lia.
  - unfold due. rewrite Hms, Hst, Htk. lia.
  - intros act. destruct (timer_fn_spec (rt r) (clock r) act Hrange)
      as [(Hlt&_)|(_&t2&Hdue&_&_&_&E)]; [lia|].
    exists t2. rewrite E, Hdue. by rewrite Hms.
Qed.

(** *** Witnesses: a 10 ms timer started at 1000, fired at 1000 and at 1012 *)

Definition ex_t : timer := RepeatingTimer 10.
Definition ex_r1 : run := mk_run (mk_timer 10 1000 1) (Some 1010) 1000 [1000].
Definition ex_r2 : run := mk_run (mk_timer 10 1000 1) (Some 1010) 1012 [1000].
Definition ex_r3 : run := mk_run (mk_timer 10 1000 2) (Some 1020) 1012 [1012; 1000].

Lemma ex_r2_reachable : reachable ex_t 1000 ex_r2.
Proof.
  apply (reach_step _ _ ex_r1); [|by apply (step_clock ex_r1)].
  apply (reach_step _ _ (run_start ex_t 1000)); [constructor|].
  apply (step_fire (run_start ex_t 1000) 1000 true (mk_timer 10 1000 1) true (Some 10));
    [done|simpl; lia|unfold in_range, due; simpl; lia|reflexivity].
Qed.

Lemma ex_r3_reachable : reachable ex_t 1000 ex_r3.
Proof.
  apply (reach_step _ _ ex_r2); [apply ex_r2_reachable|].
  apply (step_fire ex_r2 1010 true (mk_timer 10 1000 2) true (Some 8));
    [done|simpl; lia|unfold in_range, due; simpl; lia|reflexivity].
Qed.

Lemma act_rate_bounded_witness :
  (forall k x, rev (acts ex_r3) !! k = Some x -> 1000 + 10 * Z.of_nat k <= x) /\
  Z.of_nat (length (acts ex_r3)) <= (clock ex_r3 - 1000) / 10 + 1.
Proof. exact (act_rate_bounded ex_t 1000 ex_r3 eq_refl eq_refl ex_r3_reachable). Defined.

Lemma act_schedule_no_drift_witness :
  due (rt ex_r2) = 1000 + 10 * 1 /\ due (rt ex_r2) <= 1010 <= Z.max 1012 1010 /\
  forall act, exists t', timer_fn (rt ex_r2) 1012 act =
    (t', true, if act then Some (Z.max 0 (due (rt ex_r2) + 10 - 1012)) else None).
Proof.
  apply (act_schedule_no_drift ex_t 1000 ex_r2 1010 eq_refl ex_r2_reachable eq_refl);
    [unfold in_range, due; simpl; lia|simpl; lia].
Defined.

End RepeatingTimer.
