(* ===== verification/UAManager.v ===== *)
(** * The registry of user agents: src/src/uamanager.cpp, src/include/useragent.hpp

    [UAManager] keeps two [std::unordered_map]s from names to user agents.  The
    order in which such a container is traversed is not specified, so the
    container is an interface ([UnorderedMap]) whose laws are those of the C++
    standard; every theorem holds for every implementation. *)
From S2P Require Import Prelude.
From stdpp Require Import pretty.
#[local] Open Scope Z_scope.

Module UAManager.

(** ** [std::unordered_map<std::string, T*>] *)

Class UnorderedMap (M : Type) := {
  um_empty : M;
  um_find : string -> M -> option Z;
  um_insert : string -> Z -> M -> M;    (** [m[k] = v] *)
  um_erase : string -> M -> M;
  um_begin : M -> option (string * Z)   (** [*m.begin()], unless it is [m.end()] *)
}.

(** The contents a container represents, and what each operation does to it. *)
Class UnorderedMapLaws (M : Type) `{UnorderedMap M} := {
  um_contents : M -> gmap string Z;
  um_contents_empty : um_contents um_empty = ∅;
  um_find_spec k m : um_find k m = um_contents m !! k;
  um_contents_insert k v m : um_contents (um_insert k v m) = <[k := v]> (um_contents m);
  um_contents_erase k m : um_contents (um_erase k m) = delete k (um_contents m);
  um_begin_some k v m : um_begin m = Some (k, v) -> um_contents m !! k = Some v;
  um_begin_none m : um_begin m = None -> um_contents m = ∅
}.

(** An implementation: traversal in the order of [map_to_list]. *)
#[export] Instance gmap_unordered_map : UnorderedMap (gmap string Z) := {
  um_empty := ∅;
  um_find k m := m !! k;
  um_insert k v m := <[k := v]> m;
  um_erase k m := delete k m;
  um_begin m := head (map_to_list m)
}.

#[export] Instance gmap_unordered_map_laws : UnorderedMapLaws (gmap string Z).
Proof.
  refine {| um_contents := fun m => m |}; try done.
  - intros k v m Hb. apply elem_of_map_to_list.
    simpl in Hb. destruct (map_to_list m); simplify_eq/=. by left.
  - intros m Hb. apply map_to_list_empty_iff. simpl in Hb. by destruct (map_to_list m).
Defined.

(** ** User agents *)

Record UserAgent := mk_ua {
  my_sip : Z;
  my_sess_sock : Z;
  sess : Z;
  reg : Z;
  sdp : Z;
  _registrar : string;
  _uri : string;
  _username : string;
  _password : string;
  _name : string;
  caller : bool }.

(** The constructor; [counter] is the static counter before the call, [pid] the
    process id. *)
Definition new_UserAgent (pid counter : N) (registrar uri username password : string) :
    UserAgent * N :=
  (mk_ua 0 0 0 0 0 registrar uri username password
     ((pretty pid +:+ "-ue") +:+ pretty counter) false,
   ((counter + 1) mod 18446744073709551616)%N).

(** The memory holding the user agents: the address [0] is the null pointer and
    is never allocated. *)
Abbreviation heap := (gmap Z UserAgent).

(** ** The manager *)

Section Manager.
Context {M : Type} {UM : UnorderedMap M} {UL : UnorderedMapLaws M}.

Record UAManager := mk_mgr { free_ues : M; all_ues : M }.

Definition mark_ua_registered (us : heap) (m : UAManager) (u : Z) : option UAManager :=
  a ← us !! u;
  Some (mk_mgr (um_insert (_name a) u (free_ues m)) (um_insert (_name a) u (all_ues m))).

Definition mark_ua_not_in_call (us : heap) (m : UAManager) (u : Z) : option UAManager :=
  if u =? 0 then Some m
  else
    a ← us !! u;
    Some (mk_mgr (um_insert (_name a) u (free_ues m)) (all_ues m)).

Definition mark_ua_in_call (us : heap) (m : UAManager) (u : Z) : option UAManager :=
  a ← us !! u;
  Some (mk_mgr (um_erase (_name a) (free_ues m)) (all_ues m)).

(** [all_ues[name]]: [operator[]] inserts a null pointer under a new key. *)
Definition get_ua_by_name (m : UAManager) (name : string) : Z * UAManager :=
  match um_find name (all_ues m) with
  | Some p => (p, m)
  | None => (0, mk_mgr (free_ues m) (um_insert name 0 (all_ues m)))
  end.

Definition get_ua_free_for_call (us : heap) (m : UAManager) : option (Z * UAManager) :=
  match um_begin (free_ues m) with
  | None => Some (0, m)
  | Some (_, ret) => m' ← mark_ua_in_call us m ret; Some (ret, m')
  end.

Definition clear (m : UAManager) : UAManager := mk_mgr um_empty um_empty.

(** ** What the registry represents *)

Definition free_set (m : UAManager) : gmap string Z := um_contents (free_ues m).
Definition all_set (m : UAManager) : gmap string Z := um_contents (all_ues m).

(** Every entry is filed under the name of a live user agent. *)
Definition entries_ok (us : heap) (c : gmap string Z) : Prop :=
  forall k p, c !! k = Some p -> p <> 0 /\ exists a, us !! p = Some a /\ _name a = k.

Record mgr_ok (us : heap) (m : UAManager) : Prop := {
  mo_all : entries_ok us (all_set m);
  mo_free : free_set m ⊆ all_set m }.

Lemma mo_free_entries us m : mgr_ok us m -> entries_ok us (free_set m).
Proof.
  intros [Ha Hf] k p Hk. apply Ha. eapply lookup_weaken; eauto.
Qed.

Lemma entries_ok_insert us c p a : p <> 0 -> us !! p = Some a ->
  entries_ok us c -> entries_ok us (<[_name a := p]> c).
Proof.
  intros Hp Ha Hc k q Hk. destruct (decide (k = _name a)) as [->|Hne].
  - rewrite lookup_insert_eq in Hk. simplify_eq. eauto.
  - rewrite lookup_insert_ne in Hk by done. by apply Hc.
Qed.

Lemma entries_ok_delete us c k : entries_ok us c -> entries_ok us (delete k c).
Proof. intros Hc j q [_ Hj]%lookup_delete_Some. by apply Hc. Qed.

(** Changing the other fields of a user agent disturbs nothing. *)
Lemma mgr_ok_update us m p a a' : us !! p = Some a -> _name a' = _name a ->
  mgr_ok us m -> mgr_ok (<[p := a']> us) m.
Proof.
  intros Ha Hn [Hall Hf]. split; [|done]. intros k q Hk.
  destruct (Hall k q Hk) as (?&b&Hb&Hbn). split; [done|].
  destruct (decide (q = p)) as [->|Hne].
  - exists a'. rewrite lookup_insert_eq. split; congruence.
  - exists b. by rewrite lookup_insert_ne by done.
Qed.

Lemma mark_ua_registered_ok us m u a : us !! u = Some a -> u <> 0 -> mgr_ok us m ->
  exists m', mark_ua_registered us m u = Some m' /\ mgr_ok us m' /\
    free_set m' = <[_name a := u]> (free_set m) /\
    all_set m' = <[_name a := u]> (all_set m).
Proof.
  intros Ha Hu [Hall Hf]. unfold mark_ua_registered. rewrite Ha. simpl.
  eexists. split; [done|].
  assert (forall X, um_contents (um_insert (_name a) u X) =
                    <[_name a := u]> (um_contents X)) as E
    by apply um_contents_insert.
  unfold free_set, all_set in *; simpl in *. rewrite !E. split_and!; try done.
  split; unfold free_set, all_set; simpl; rewrite ?E.
  - by apply entries_ok_insert.
  - by apply insert_mono.
Qed.

Lemma mark_ua_not_in_call_ok us m u a : us !! u = Some a -> u <> 0 ->
  all_set m !! _name a = Some u -> mgr_ok us m ->
  exists m', mark_ua_not_in_call us m u = Some m' /\ mgr_ok us m' /\
    free_set m' = <[_name a := u]> (free_set m) /\ all_set m' = all_set m.
Proof.
  intros Ha Hu Hin [Hall Hf]. unfold mark_ua_not_in_call.
  destruct (Z.eqb_spec u 0); [done|]. rewrite Ha. simpl. eexists. split; [done|].
  unfold free_set, all_set in *; simpl in *. rewrite um_contents_insert.
  split_and!; try done. split; unfold free_set, all_set; simpl; [done|].
  rewrite um_contents_insert. by apply insert_subseteq_l.
Qed.

Lemma mark_ua_in_call_ok us m u a : us !! u = Some a -> mgr_ok us m ->
  exists m', mark_ua_in_call us m u = Some m' /\ mgr_ok us m' /\
    free_set m' = delete (_name a) (free_set m) /\ all_set m' = all_set m.
Proof.
  intros Ha [Hall Hf]. unfold mark_ua_in_call. rewrite Ha. simpl. eexists. split; [done|].
  unfold free_set, all_set in *; simpl in *. rewrite um_contents_erase.
  split_and!; try done. split; unfold free_set, all_set; simpl; [done|].
  rewrite um_contents_erase. etrans; [apply delete_subseteq|done].
Qed.

(** [get_ua_free_for_call] takes one user agent out of the free set, or returns
    the null pointer when there is none. *)
Lemma get_ua_free_for_call_ok us m : mgr_ok us m ->
  (free_set m = ∅ /\ get_ua_free_for_call us m = Some (0, m)) \/
  (exists u a m', u <> 0 /\ us !! u = Some a /\ free_set m !! _name a = Some u /\
     get_ua_free_for_call us m = Some (u, m') /\ mgr_ok us m' /\
     free_set m' = delete (_name a) (free_set m) /\ all_set m' = all_set m).
Proof.
  intros Hm. unfold get_ua_free_for_call.
  destruct (um_begin (free_ues m)) as [[k u]|] eqn:Hb; [right|left].
  - apply um_begin_some in Hb. destruct (mo_free_entries us m Hm k u Hb) as (Hu&a&Ha&<-).
    destruct (mark_ua_in_call_ok us m u a Ha Hm) as (m'&E&Hm'&Hf&Hall).
    exists u, a, m'. rewrite E. done.
  - split; [|done]. by apply um_begin_none.
Qed.

(** A failed attempt hands the user agents back: the registry is as before. *)
Lemma mark_back us m m' u a : mgr_ok us m -> us !! u = Some a -> u <> 0 ->
  free_set m !! _name a = Some u ->
  mgr_ok us m' -> free_set m' = delete (_name a) (free_set m) ->
  all_set m' = all_set m ->
  exists m'', mark_ua_not_in_call us m' u = Some m'' /\ mgr_ok us m'' /\
    free_set m'' = free_set m /\ all_set m'' = all_set m.
Proof.
  intros Hm Ha Hu Hin Hm' Hf Hall.
  destruct (mark_ua_not_in_call_ok us m' u a) as (m''&E&Hok&Hf'&Ha'); [done..| |done|].
  { rewrite Hall. eapply lookup_weaken; [done|apply Hm]. }
  exists m''. split_and!; [done..| |congruence].
  rewrite Hf', Hf, insert_delete_eq. by apply insert_id.
Qed.

End Manager.
Arguments UAManager : clear implicits.

(** ** Names *)

(** Two user agents of the same process with different counter values never share
    a name, so one entry of the registry never hides another. *)
Lemma new_UserAgent_name_inj pid c1 c2 r1 r2 u1 u2 n1 n2 p1 p2 :
  _name (fst (new_UserAgent pid c1 r1 u1 n1 p1)) =
  _name (fst (new_UserAgent pid c2 r2 u2 n2 p2)) -> c1 = c2.
Proof. simpl. intros E%(inj (String.append _)). by apply pretty_N_inj. Qed.

End UAManager.
