(* ===== verification/Sipperf.v ===== *)
(** * The load generator: src/src/sipperf.cpp, useragent.cpp, stack.cpp

    The state of the program outside the SIP library, one function per handler
    the library calls and one per timer task.  Calls into the library are
    recorded in the trace [out]; what they return is an argument of the handler.
    [None] is undefined behaviour (a null or out-of-range access, an
    out-of-range conversion). *)
From S2P Require Import Prelude UAManager RepeatingTimer.
From stdpp Require Import pretty.
From Stdlib Require Import SpecFloat.
Import UAManager RepeatingTimer.
#[local] Open Scope Z_scope.

Module Sipperf.

(** ** State *)

(** The counters of [StatsDisplayer], [uint32_t] each. *)
Record stats := mk_stats {
  success_reg : Z; init_call : Z; success_call : Z; fail_reg : Z; failed_call : Z }.

Definition StatsDisplayer : stats := mk_stats 0 0 0 0 0.

(** Calls into the library. *)
Inductive libcall :=
| Sipreg_register (u sip : Z)
| Sipsess_connect (u sess_sock : Z) (uri : string)
| Sipsess_accept (u sess_sock : Z)
| Sipsess_answer (sess : Z)
| Sip_bye (sip sess : Z)
| Mem_deref (p : Z)
| Sip_close (sip : Z) (force : bool)
| Start_call_scheduler
| Start_cleanup
| Re_cancel.

Section App.
Context {M : Type} {UM : UnorderedMap M} {UL : UnorderedMapLaws M}.

Record world := mk_world {
  us : gmap Z UserAgent;           (** memory *)
  ues : list Z;                    (** [std::vector<UserAgent*> ues] *)
  mgr : UAManager M;
  st : stats;
  sip_stacks : list (Z * Z);
  active_sip_stacks : Z;
  counter : Z;                     (** static in [get_sip_stack] *)
  dnsc : Z;
  out : list libcall }.            (** latest last *)

Definition set_us (w : world) x := mk_world x (ues w) (mgr w) (st w) (sip_stacks w)
  (active_sip_stacks w) (counter w) (dnsc w) (out w).
Definition set_mgr (w : world) x := mk_world (us w) (ues w) x (st w) (sip_stacks w)
  (active_sip_stacks w) (counter w) (dnsc w) (out w).
Definition set_st (w : world) x := mk_world (us w) (ues w) (mgr w) x (sip_stacks w)
  (active_sip_stacks w) (counter w) (dnsc w) (out w).
Definition set_counter (w : world) x := mk_world (us w) (ues w) (mgr w) (st w)
  (sip_stacks w) (active_sip_stacks w) x (dnsc w) (out w).
Definition emit (w : world) (l : list libcall) := mk_world (us w) (ues w) (mgr w) (st w)
  (sip_stacks w) (active_sip_stacks w) (counter w) (dnsc w) (out w ++ l).

Definition set_ua (w : world) (u : Z) (a : UserAgent) : world :=
  set_us w (<[u := a]> (us w)).

(** Run an operation of the manager. *)
Definition with_mgr (w : world) (f : gmap Z UserAgent -> UAManager M -> option (UAManager M)) :
    option world :=
  m ← f (us w) (mgr w); Some (set_mgr w m).

(** Field updates of a user agent. *)
Definition with_stack (a : UserAgent) (si : Z * Z) (reg' : Z) : UserAgent :=
  mk_ua (fst si) (snd si) (sess a) reg' (sdp a) (_registrar a) (_uri a) (_username a)
        (_password a) (_name a) (caller a).
Definition with_sess (a : UserAgent) (sess' sdp' : Z) (caller' : bool) : UserAgent :=
  mk_ua (my_sip a) (my_sess_sock a) sess' (reg a) sdp' (_registrar a) (_uri a)
        (_username a) (_password a) (_name a) caller'.

(** ** stack.cpp *)

Definition get_sip_stack (w : world) : option ((Z * Z) * world) :=
  let c := counter w + 1 in
  if 2147483647 <? c then None                     (* signed overflow *)
  else
    let n := Z.of_nat (length (sip_stacks w)) in
    if n =? 0 then None                            (* division by zero *)
    else
      si ← sip_stacks w !! Z.to_nat (u64 c mod n);
      Some (si, set_counter w c).

(** [alloc i] is the pair of objects that iteration [i] creates, [dnsc'] the DNS
    client. *)
Definition create_sip_stacks (alloc : nat -> Z * Z) (dnsc' : Z) (w : world) (how_many : Z) :
    world :=
  let n := Z.to_nat how_many in
  mk_world (us w) (ues w) (mgr w) (st w) (sip_stacks w ++ map alloc (seq 0 n))
    (active_sip_stacks w + Z.of_nat n) (counter w) dnsc' (out w).

Definition close_sip_stacks (w : world) (force : bool) : world :=
  emit w (map (fun s => Sip_close (fst s) force) (sip_stacks w)).

Definition free_sip_stacks (w : world) : world :=
  let w1 := emit w (concat (map (fun s => [Mem_deref (fst s); Mem_deref (snd s)])
                                (sip_stacks w))) in
  let w2 := mk_world (us w1) (ues w1) (mgr w1) (st w1) [] (active_sip_stacks w1)
              (counter w1) (dnsc w1) (out w1) in
  emit w2 [Mem_deref (dnsc w2)].

Definition exit_handler (w : world) : world :=
  let n := active_sip_stacks w - 1 in
  let w1 := mk_world (us w) (ues w) (mgr w) (st w) (sip_stacks w) n (counter w)
              (dnsc w) (out w) in
  if n =? 0 then emit w1 [Re_cancel] else w1.

(** ** useragent.cpp *)

Definition unregister (w : world) (u : Z) : option world :=
  a ← us w !! u; Some (emit w [Mem_deref (reg a)]).

(** [res] is the registration object [sipreg_register] stores, if it succeeds. *)
Definition register_ue (w : world) (u : Z) (res : option Z) : option world :=
  '(si, w1) ← get_sip_stack w;
  a ← us w1 !! u;
  Some (emit (set_ua w1 u (with_stack a si (default (reg a) res)))
             [Sipreg_register u (fst si)]).

(** [scode]: the status code of the response, [None] when there is none. *)
Definition register_handler (w : world) (u : Z) (scode : option Z) : option world :=
  let s := st w in
  if match scode with Some c => c =? 200 | None => false end then
    with_mgr (set_st w (mk_stats (u32 (success_reg s + 1)) (init_call s)
                          (success_call s) (fail_reg s) (failed_call s)))
             (fun us m => mark_ua_registered us m u)
  else
    a ← us w !! u;
    Some (set_st w (mk_stats (success_reg s) (init_call s) (success_call s)
                      (u32 (fail_reg s + 1)) (failed_call s))).

(** [sdp'] is the SDP session created for the call, [res] the session object
    [sipsess_connect] stores, if it succeeds. *)
Definition call (w : world) (u : Z) (uri : string) (sdp' : Z) (res : option Z) :
    option world :=
  let s := st w in
  let w1 := set_st w (mk_stats (success_reg s) (u32 (init_call s + 1))
                        (success_call s) (fail_reg s) (failed_call s)) in
  a ← us w1 !! u;
  w2 ← with_mgr (set_ua w1 u (with_sess a (sess a) sdp' true))
                (fun us m => mark_ua_in_call us m u);
  Some (emit (set_ua w2 u (with_sess a (default (sess a) res) sdp' true))
             [Sipsess_connect u (my_sess_sock a) uri]).

Definition connect_handler (w : world) (u : Z) (res : option Z) : option world :=
  a ← us w !! u;
  w1 ← with_mgr (set_ua w u (with_sess a (sess a) (sdp a) false))
                (fun us m => mark_ua_in_call us m u);
  let sess' := default (sess a) res in
  Some (emit (set_ua w1 u (with_sess a sess' (sdp a) false))
             [Sipsess_accept u (my_sess_sock a); Sipsess_answer sess']).

(** The handler of stack.cpp for an incoming INVITE to user [name]. *)
Definition static_connect_handler (w : world) (name : string) (res : option Z) :
    option world :=
  let '(ue, m) := get_ua_by_name (mgr w) name in
  connect_handler (set_mgr w m) ue res.

Definition establish_handler (w : world) (u : Z) : option world :=
  a ← us w !! u;
  if caller a then
    let s := st w in
    let w1 := set_st w (mk_stats (success_reg s) (init_call s)
                          (u32 (success_call s + 1)) (fail_reg s) (failed_call s)) in
    w2 ← with_mgr (emit w1 [Sip_bye (my_sip a) (sess a)])
                  (fun us m => mark_ua_not_in_call us m u);
    Some (set_ua (emit w2 [Mem_deref (sess a); Mem_deref (sdp a)]) u
                 (with_sess a 0 0 (caller a)))
  else Some w.

Definition close_handler (w : world) (u : Z) (err : Z) : option world :=
  w1 ← with_mgr w (fun us m => mark_ua_not_in_call us m u);
  let s := st w1 in
  let w2 := if err =? ECONNRESET then w1
            else set_st w1 (mk_stats (success_reg s) (init_call s) (success_call s)
                              (fail_reg s) (u32 (failed_call s + 1))) in
  a ← us w2 !! u;
  Some (set_ua (emit w2 [Mem_deref (sess a); Mem_deref (sdp a)]) u
               (with_sess a 0 0 (caller a))).

(** ** sipperf.cpp *)

(** *** InitialRegistrar *)

Record InitialRegistrar := mk_ir {
  ir_timer : timer;
  _actual_ues_registered : Z;     (** uint64_t *)
  _registers_per_sec : Z }.       (** int *)

(** The loop; [res] are the results of the successive [sipreg_register]. *)
Fixpoint register_loop (n : nat) (res : nat -> option Z) (w : world) (done : Z) :
    option (world * Z) :=
  match n with
  | O => Some (w, done)
  | S n =>
      a ← ues w !! Z.to_nat done;
      w1 ← register_ue w a (res O);
      register_loop n (fun i => res (S i)) w1 (u64 (done + 1))
  end.

Definition InitialRegistrar_act (w : world) (r : InitialRegistrar) (now : Z)
    (res : nat -> option Z) : option (world * InitialRegistrar * bool) :=
  let size := Z.of_nat (length (ues w)) in
  if _actual_ues_registered r =? size
  then Some (emit w [Start_call_scheduler], r, false)
  else
    x ← uint64_of_double (SFmul 53 1024 (seconds_since_start (ir_timer r) now)
                                (double_of_Z (_registers_per_sec r)));
    let expected_ues_registered := Z.min x size in
    let ues_to_register :=
      s32 (u64 (expected_ues_registered - _actual_ues_registered r)) in
    '(w', d) ← register_loop (Z.to_nat ues_to_register) res w (_actual_ues_registered r);
    Some (w', mk_ir (ir_timer r) d (_registers_per_sec r), true).

(** *** CallScheduler *)

Record CallScheduler := mk_cs {
  cs_timer : timer;
  _actual_calls : Z;              (** uint64_t *)
  _calls_per_sec : Z;             (** int *)
  _max_calls : Z }.               (** uint64_t *)

(** The loop; [res] gives, for each call, the SDP session and the outcome of
    [sipsess_connect]. *)
Fixpoint call_loop (n : nat) (res : nat -> Z * option Z) (w : world) (calls : Z) :
    option (world * Z) :=
  match n with
  | O => Some (w, calls)
  | S n =>
      '(caller, m1) ← get_ua_free_for_call (us w) (mgr w);
      '(callee, m2) ← get_ua_free_for_call (us w) m1;
      let w1 := set_mgr w m2 in
      if negb (caller =? 0) && negb (callee =? 0) then
        b ← us w1 !! callee;
        w2 ← call w1 caller (_uri b) (fst (res O)) (snd (res O));
        call_loop n (fun i => res (S i)) w2 (u64 (calls + 1))
      else
        w2 ← with_mgr w1 (fun us m => mark_ua_not_in_call us m caller);
        w3 ← with_mgr w2 (fun us m => mark_ua_not_in_call us m callee);
        Some (w3, calls)
  end.

Definition CallScheduler_act (w : world) (s : CallScheduler) (now : Z)
    (res : nat -> Z * option Z) : option (world * CallScheduler * bool) :=
  expected_calls ← uint64_of_double (SFmul 53 1024 (seconds_since_start (cs_timer s) now)
                                           (double_of_Z (_calls_per_sec s)));
  let calls_to_make := s32 (u64 (expected_calls - _actual_calls s)) in
  '(w', c) ← call_loop (Z.to_nat calls_to_make) res w (_actual_calls s);
  let s' := mk_cs (cs_timer s) c (_calls_per_sec s) (_max_calls s) in
  if c <? _max_calls s then Some (w', s', true)
  else Some (emit w' [Start_cleanup], s', false).

(** *** Cleanup *)

Definition unregister_all (w : world) : option world :=
  foldl (fun ow u => w ← ow; unregister w u) (Some w) (ues w).

Definition Cleanup_act (w : world) (times : Z) : option (world * Z * bool) :=
  w' ← (if times =? 1 then unregister_all w
        else if times =? 12 then Some (free_sip_stacks (close_sip_stacks w false))
        else if times =? 30 then Some (emit w [Re_cancel])
        else Some w);
  if times =? 2147483647 then None else Some (w', times + 1, true).

(** *** main

    The rows of the users file become user agents, in order; [addr i] is the
    address of the [i]-th. *)
Fixpoint load_users (pid c : N) (target : string) (rows : list (string * string * string))
    (addr : nat -> Z) (us : gmap Z UserAgent) (ues : list Z) : gmap Z UserAgent * list Z :=
  match rows with
  | [] => (us, ues)
  | (sip_uri, username, password) :: rows =>
      let '(a, c') := new_UserAgent pid c target sip_uri username password in
      load_users pid c' target rows (fun i => addr (S i)) (<[addr O := a]> us)
                 (ues ++ [addr O])
  end.

(** ** The program

    The world with the three tasks, which of them is running, and the events
    that the main loop delivers. *)
Record app := mk_app {
  aw : world;
  registrar : InitialRegistrar; registrar_on : bool;
  scheduler : CallScheduler; scheduler_on : bool;
  times : Z; cleanup_on : bool }.

Inductive event :=
| RegTick (now start_now : Z) (res : nat -> option Z)
| CallTick (now : Z) (res : nat -> Z * option Z)
| CleanupTick
| RegisterResp (u : Z) (scode : option Z)
| Invite (name : string) (res : option Z)
| Establish (u : Z)
| Close (u err : Z)
| StackExit.

Definition set_world (a : app) (w : world) : app :=
  mk_app w (registrar a) (registrar_on a) (scheduler a) (scheduler_on a) (times a)
    (cleanup_on a).

Definition start_scheduler (s : CallScheduler) (now : Z) : CallScheduler :=
  mk_cs (fst (start (cs_timer s) now)) (_actual_calls s) (_calls_per_sec s) (_max_calls s).

(** A task that returns [false] is not rescheduled; the last tick of one task
    starts the next one. *)
Definition run_event (a : app) (e : event) : option app :=
  match e with
  | RegTick now start_now res =>
      '(w, r, again) ← InitialRegistrar_act (aw a) (registrar a) now res;
      Some (mk_app w r again
              (if again : bool then scheduler a else start_scheduler (scheduler a) start_now)
              (scheduler_on a || negb again) (times a) (cleanup_on a))
  | CallTick now res =>
      '(w, s, again) ← CallScheduler_act (aw a) (scheduler a) now res;
      Some (mk_app w (registrar a) (registrar_on a) s again (times a)
              (cleanup_on a || negb again))
  | CleanupTick =>
      '(w, t, again) ← Cleanup_act (aw a) (times a);
      Some (mk_app w (registrar a) (registrar_on a) (scheduler a) (scheduler_on a) t again)
  | RegisterResp u scode => set_world a <$> register_handler (aw a) u scode
  | Invite name res => set_world a <$> static_connect_handler (aw a) name res
  | Establish u => set_world a <$> establish_handler (aw a) u
  | Close u err => set_world a <$> close_handler (aw a) u err
  | StackExit => Some (set_world a (exit_handler (aw a)))
  end.

Definition init_world (pid : N) (target : string) (rows : list (string * string * string))
    (addr : nat -> Z) (alloc : nat -> Z * Z) (dnsc' how_many : Z) : world :=
  let '(us, ues) := load_users pid 0 target rows addr ∅ [] in
  create_sip_stacks alloc dnsc'
    (mk_world us ues (mk_mgr um_empty um_empty) StatsDisplayer [] 0 0 0 []) how_many.

(** [main] up to the main loop. *)
Definition main_init (pid : N) (target : string) (rows : list (string * string * string))
    (addr : nat -> Z) (alloc : nat -> Z * Z) (dnsc' now : Z) (rps cps max_calls : Z) : app :=
  mk_app (init_world pid target rows addr alloc dnsc' 75)
    (mk_ir (fst (start (RepeatingTimer 10) now)) 0 rps) true
    (mk_cs (RepeatingTimer 10) 0 cps (u64 max_calls)) false 0 false.

(** ** Invariant of the world *)

Record world_ok (w : world) : Prop := {
  wo_null : us w !! 0 = None;
  wo_mgr : mgr_ok (us w) (mgr w);
  wo_ues : forall u, u ∈ ues w -> is_Some (us w !! u);
  wo_names : forall u v a b, us w !! u = Some a -> us w !! v = Some b ->
    _name a = _name b -> u = v }.

(** A user agent that the registry knows. *)
Definition registered (w : world) (u : Z) : Prop :=
  exists a, us w !! u = Some a /\ all_set (mgr w) !! _name a = Some u.

(** What a handler leaves alone, and the calls it adds to the trace. *)
Definition is_reg (c : libcall) : option Z :=
  match c with Sipreg_register u _ => Some u | _ => None end.
Definition is_connect (c : libcall) : option Z :=
  match c with Sipsess_connect u _ _ => Some u | _ => None end.
(** The user agent whose handlers a new session gets. *)
Definition is_session (c : libcall) : option Z :=
  match c with Sipsess_connect u _ _ | Sipsess_accept u _ => Some u | _ => None end.
Definition regs (w : world) : list Z := omap is_reg (out w).
Definition sessions (w : world) : list Z := omap is_session (out w).
Definition connects (w : world) : list Z := omap is_connect (out w).

Record quiet (w w' : world) : Prop := {
  q_ues : ues w' = ues w;
  q_stacks : sip_stacks w' = sip_stacks w;
  q_counter : counter w' = counter w;
  q_regs : regs w' = regs w;
  q_connects : connects w' = connects w;
  q_init : init_call (st w') = init_call (st w) }.

(** What is registered stays so, and only registered user agents get sessions. *)
Record grows (w w' : world) : Prop := {
  g_kept : forall u, registered w u -> registered w' u;
  g_sess : forall u, u ∈ sessions w' -> u ∈ sessions w \/ registered w' u }.

Lemma grows_trans w1 w2 w3 : grows w1 w2 -> grows w2 w3 -> grows w1 w3.
Proof.
  intros [K1 S1] [K2 S2]. split; [auto|]. intros u Hu. destruct (S2 u Hu) as [H1|]; [|auto].
  destruct (S1 u H1); auto.
Qed.

Lemma grows_intro w w' l : (forall u, _name <$> us w' !! u = _name <$> us w !! u) ->
  all_set (mgr w) ⊆ all_set (mgr w') -> out w' = out w ++ l ->
  Forall (registered w') (omap is_session l) -> grows w w'.
Proof.
  intros Hn Ha Ho Hl. split.
  - intros u (a&Hu&Hin). specialize (Hn u). rewrite Hu in Hn. simpl in Hn.
    destruct (us w' !! u) as [b|] eqn:Hb; [|done]. exists b. split; [done|].
    injection Hn as ->. by eapply lookup_weaken.
  - intros u. unfold sessions. rewrite Ho, omap_app, elem_of_app. intros [?|Hu]; [by left|right].
    by eapply Forall_forall in Hl.
Qed.

Lemma names_insert (m : gmap Z UserAgent) u (a a' : UserAgent) : m !! u = Some a -> _name a' = _name a ->
  forall v, _name <$> <[u := a']> m !! v = _name <$> m !! v.
Proof.
  intros Ha E v. destruct (decide (v = u)) as [->|]; [|by rewrite lookup_insert_ne].
  rewrite lookup_insert_eq, Ha. simpl. by rewrite E.
Qed.

Lemma nonnull w u a : world_ok w -> us w !! u = Some a -> u <> 0.
Proof. intros Hw Hu ->. pose proof (wo_null w Hw). congruence. Qed.

(** Replace one user agent, keeping its name. *)
Lemma set_ua_ok w u a a' : world_ok w -> us w !! u = Some a -> _name a' = _name a ->
  world_ok (set_ua w u a').
Proof.
  intros Hw Ha Hn. pose proof (nonnull w u a Hw Ha) as Hu.
  destruct Hw as [H0 Hm He Hnm]. split; simpl.
  - by rewrite lookup_insert_ne.
  - by eapply mgr_ok_update.
  - intros v Hv. destruct (decide (v = u)) as [->|]; [by rewrite lookup_insert_eq|].
    rewrite lookup_insert_ne by done. by apply He.
  - intros v v' b b' Hb Hb' E.
    apply lookup_insert_Some in Hb as [[<- <-]|[_ Hb]];
      apply lookup_insert_Some in Hb' as [[<- <-]|[_ Hb']]; try done.
    + apply (Hnm u v' a b'); congruence.
    + apply (Hnm v u b a); congruence.
    + by apply (Hnm v v' b b').
Qed.

Lemma set_mgr_ok w m : world_ok w -> mgr_ok (us w) m -> world_ok (set_mgr w m).
Proof. by intros []. Qed.

(** The invariant does not look at the other components. *)
Lemma world_ok_same w w' : us w' = us w -> ues w' = ues w -> mgr w' = mgr w ->
  world_ok w -> world_ok w'.
Proof. intros E1 E2 E3 []. split; rewrite ?E1, ?E2, ?E3; done. Qed.

Lemma quiet_refl w : quiet w w.
Proof. done. Qed.

Lemma quiet_trans w1 w2 w3 : quiet w1 w2 -> quiet w2 w3 -> quiet w1 w3.
Proof. intros [] []. split; congruence. Qed.

(** Adding to the trace calls that are neither registrations nor connects. *)
Lemma quiet_emit w w' l :
  ues w' = ues w -> sip_stacks w' = sip_stacks w -> counter w' = counter w ->
  init_call (st w') = init_call (st w) ->
  out w' = out w ++ l -> omap is_reg l = [] -> omap is_connect l = [] -> quiet w w'.
Proof.
  intros ???? Eo Hr Hc. split; try done; unfold regs, connects;
    rewrite Eo, omap_app, ?Hr, ?Hc; apply app_nil_r.
Qed.

Lemma quiet_silent w w' :
  ues w' = ues w -> sip_stacks w' = sip_stacks w -> counter w' = counter w ->
  init_call (st w') = init_call (st w) -> out w' = out w -> quiet w w'.
Proof. intros. apply (quiet_emit w w' []); rewrite ?app_nil_r; done. Qed.

(** *** Handlers of user agents *)

Lemma register_handler_ok w u scode : world_ok w -> is_Some (us w !! u) ->
  exists w', register_handler w u scode = Some w' /\ world_ok w' /\ quiet w w' /\ grows w w'.
Proof.
  intros Hw [a Ha]. unfold register_handler.
  destruct (match scode with Some c => c =? 200 | None => false end).
  - destruct (mark_ua_registered_ok (us w) (mgr w) u a Ha (nonnull w u a Hw Ha)
      (wo_mgr w Hw)) as (m'&E&Hm'&Hf&Hall).
    unfold with_mgr. simpl. rewrite E. simpl. eexists. split; [done|].
    split; [by apply set_mgr_ok; [by apply (world_ok_same w)|]|]. split; [by apply quiet_silent|].
    apply (grows_intro w _ []); simpl; [done| |by rewrite app_nil_r|done].
    rewrite Hall. apply map_subseteq_spec. intros k p Hk.
    destruct (decide (k = _name a)) as [->|]; [|by rewrite lookup_insert_ne by done].
    rewrite lookup_insert_eq. destruct (mo_all _ _ (wo_mgr w Hw) _ _ Hk) as (_&b&Hb&En).
    f_equal. by apply (wo_names w Hw u p a b).
  - rewrite Ha. simpl. eexists. split; [done|].
    split_and!; [by apply (world_ok_same w)|by apply quiet_silent|].
    apply (grows_intro w _ []); simpl; [done..|by rewrite app_nil_r|done].
Qed.

Lemma connect_handler_ok w u a res : world_ok w -> us w !! u = Some a ->
  all_set (mgr w) !! _name a = Some u ->
  exists w', connect_handler w u res = Some w' /\ world_ok w' /\ quiet w w' /\ grows w w'.
Proof.
  intros Hw Ha Hall. unfold connect_handler, with_mgr. rewrite Ha. simpl.
  set (a1 := with_sess a (sess a) (sdp a) false).
  assert (world_ok (set_ua w u a1)) as Hw1 by (by apply (set_ua_ok w u a)).
  assert (<[u := a1]> (us w) !! u = Some a1) as Ha1 by apply lookup_insert_eq.
  destruct (mark_ua_in_call_ok _ (mgr w) u a1 Ha1 (wo_mgr _ Hw1)) as (m'&E&Hm'&Hf&Hall').
  rewrite E. simpl. eexists. split; [done|]. split; [|split; [by eapply quiet_emit|]].
  - apply (world_ok_same (set_ua (set_mgr (set_ua w u a1) m') u
      (with_sess a (default (sess a) res) (sdp a) false))); try done.
    apply (set_ua_ok _ u a1); [by apply set_mgr_ok|done..].
  - eapply grows_intro; simpl; [|by rewrite Hall'|done|].
    + rewrite insert_insert_eq. by apply (names_insert _ _ a).
    + constructor; [|done]. eexists. split; [apply lookup_insert_eq|]. simpl. by rewrite Hall'.
Qed.

Lemma static_connect_handler_ok w name res : world_ok w ->
  is_Some (all_set (mgr w) !! name) ->
  exists w', static_connect_handler w name res = Some w' /\ world_ok w' /\ quiet w w' /\ grows w w'.
Proof.
  intros Hw [p Hp]. unfold static_connect_handler, get_ua_by_name.
  rewrite um_find_spec. change (um_contents (all_ues (mgr w))) with (all_set (mgr w)).
  rewrite Hp. destruct (mo_all _ _ (wo_mgr w Hw) _ _ Hp) as (_&a&Ha&<-).
  replace (set_mgr w (mgr w)) with w by by destruct w.
  by apply (connect_handler_ok w p a).
Qed.

(** Both ways a session ends free the user agent and clear its session. *)
Lemma release_ok w u a w1 l : world_ok w -> us w !! u = Some a -> all_set (mgr w) !! _name a = Some u ->
  us w1 = us w -> ues w1 = ues w -> mgr w1 = mgr w ->
  exists w2, with_mgr w1 (fun us m => mark_ua_not_in_call us m u) = Some w2 /\
    us w2 = us w /\ ues w2 = ues w /\ st w2 = st w1 /\ out w2 = out w1 /\
    sip_stacks w2 = sip_stacks w1 /\ counter w2 = counter w1 /\
    free_set (mgr w2) = <[_name a := u]> (free_set (mgr w)) /\ all_set (mgr w2) = all_set (mgr w) /\
    forall w3 , us w3 = us w2 -> ues w3 = ues w2 -> mgr w3 = mgr w2 ->
    world_ok (set_ua (emit w3 l) u (with_sess a 0 0 (caller a))).
Proof.
  intros Hw Ha Hs E1 E2 E3. unfold with_mgr. rewrite E1, E3.
  destruct (mark_ua_not_in_call_ok (us w) (mgr w) u a Ha (nonnull w u a Hw Ha)
    Hs (wo_mgr w Hw)) as (m'&E&Hm'&Hf&Hall).
  rewrite E. simpl. eexists. split; [done|]. simpl.
  split_and!; try done.
  intros w3 F1 F2 F3. apply (set_ua_ok _ u a); simpl; try done; [|congruence].
  apply (world_ok_same (set_mgr w m')); simpl; try congruence. by apply set_mgr_ok.
Qed.

Lemma close_handler_ok w u err a : world_ok w -> us w !! u = Some a -> all_set (mgr w) !! _name a = Some u ->
  exists w', close_handler w u err = Some w' /\ world_ok w' /\ quiet w w' /\ grows w w' /\
    free_set (mgr w') = <[_name a := u]> (free_set (mgr w)).
Proof.
  intros Hw Ha Hs. unfold close_handler.
  destruct (release_ok w u a w [Mem_deref (sess a); Mem_deref (sdp a)] Hw Ha Hs
    eq_refl eq_refl eq_refl) as (w2&E&E1&E2&E3&E4&E5&E6&Hf&Hall&Hok).
  rewrite E. simpl.
  set (w3 := if err =? ECONNRESET then w2 else _).
  assert (us w3 = us w2 /\ ues w3 = ues w2 /\ mgr w3 = mgr w2 /\ out w3 = out w2 /\
    sip_stacks w3 = sip_stacks w2 /\ counter w3 = counter w2 /\
    init_call (st w3) = init_call (st w2)) as (F1&F2&F3&F4&F5&F6&F7).
  { unfold w3. by destruct (err =? ECONNRESET). }
  rewrite F1, E1, Ha. simpl. eexists. split; [done|]. split; [by apply Hok|].
  split_and!; [| |simpl; by rewrite F3].
  - eapply quiet_emit; simpl; [congruence..| | |]; [by rewrite F4, E4|done..].
  - eapply grows_intro; simpl; [|by rewrite F3, Hall|by rewrite F4, E4|done].
    rewrite F1, E1. by apply (names_insert _ _ a).
Qed.

Lemma establish_handler_ok w u a : world_ok w -> us w !! u = Some a -> all_set (mgr w) !! _name a = Some u ->
  exists w', establish_handler w u = Some w' /\ world_ok w' /\ quiet w w' /\ grows w w'.
Proof.
  intros Hw Ha Hs. unfold establish_handler. rewrite Ha. simpl.
  destruct (caller a) eqn:Hc.
  2: { exists w. split_and!; [done..|]. apply (grows_intro w w []); [done..|by rewrite app_nil_r|done]. }
  match goal with |- context [with_mgr ?w1 _] => set (w1' := w1) end.
  destruct (release_ok w u a w1' [Mem_deref (sess a); Mem_deref (sdp a)] Hw Ha Hs
    eq_refl eq_refl eq_refl) as (w2&E&E1&E2&E3&E4&E5&E6&Hf&Hall&Hok).
  rewrite E. simpl. eexists. split; [done|].
  rewrite Hc in Hok. split; [by apply Hok|]. set (l := [Sip_bye (my_sip a) (sess a); Mem_deref (sess a); Mem_deref (sdp a)]).
  assert ((out w2 ++ [Mem_deref (sess a); Mem_deref (sdp a)]) = out w ++ l) as Ho.
  { rewrite E4. unfold w1'. simpl. by rewrite <- app_assoc. }
  split.
  - apply (quiet_emit w _ l); simpl; rewrite ?E2, ?E3, ?E5, ?E6; done.
  - apply (grows_intro w _ l); simpl; rewrite ?Hall; try done.
    rewrite E1. by apply (names_insert _ _ a).
Qed.

Lemma exit_handler_ok w : world_ok w ->
  world_ok (exit_handler w) /\ quiet w (exit_handler w) /\ grows w (exit_handler w).
Proof.
  intros Hw. unfold exit_handler. destruct (_ =? 0).
  - split_and!; [by apply (world_ok_same w)|by eapply quiet_emit|by eapply grows_intro].
  - split_and!; [by apply (world_ok_same w)|by apply quiet_silent|].
    apply (grows_intro w _ []); simpl; [done..|by rewrite app_nil_r|done].
Qed.

(** *** Setting up calls *)

(** What a call never changes of a user agent. *)
Definition ident (a : UserAgent) : string * string * Z := (_name a, _uri a, my_sess_sock a).
Definition same_ids (m m' : gmap Z UserAgent) : Prop :=
  forall v, ident <$> m' !! v = ident <$> m !! v.

Lemma same_ids_trans m1 m2 m3 : same_ids m1 m2 -> same_ids m2 m3 -> same_ids m1 m3.
Proof. intros H1 H2 v. by rewrite H2, H1. Qed.

Lemma same_ids_insert m u a a' : m !! u = Some a -> ident a' = ident a ->
  same_ids m (<[u := a']> m).
Proof.
  intros Ha E v. destruct (decide (v = u)) as [->|].
  - rewrite lookup_insert_eq, Ha. simpl. by rewrite E.
  - by rewrite lookup_insert_ne by done.
Qed.

Lemma same_ids_lookup m m' u a' : same_ids m m' -> m' !! u = Some a' ->
  exists a, m !! u = Some a /\ ident a = ident a'.
Proof.
  intros Hs Ha. specialize (Hs u). rewrite Ha in Hs. simpl in Hs.
  destruct (m !! u) as [a|]; [|done]. exists a. split; [done|]. simpl in Hs. congruence.
Qed.

(** What the tasks leave alone. *)
Record keeps (w w' : world) : Prop := {
  k_ues : ues w' = ues w;
  k_stacks : sip_stacks w' = sip_stacks w;
  k_counter : counter w' = counter w;
  k_all : all_set (mgr w') = all_set (mgr w);
  k_ids : same_ids (us w) (us w') }.

Lemma keeps_trans w1 w2 w3 : keeps w1 w2 -> keeps w2 w3 -> keeps w1 w3.
Proof. intros [] []. split; [congruence..|by eapply same_ids_trans]. Qed.

Lemma keeps_mgr w m : all_set m = all_set (mgr w) -> keeps w (set_mgr w m).
Proof. by split. Qed.

Lemma call_ok w u a uri sdp' res : world_ok w -> us w !! u = Some a ->
  all_set (mgr w) !! _name a = Some u ->
  exists w', call w u uri sdp' res = Some w' /\ world_ok w' /\ keeps w w' /\
    out w' = out w ++ [Sipsess_connect u (my_sess_sock a) uri] /\
    init_call (st w') = u32 (init_call (st w) + 1) /\
    free_set (mgr w') = delete (_name a) (free_set (mgr w)).
Proof.
  intros Hw Ha Hall. unfold call, with_mgr. simpl. rewrite Ha. simpl.
  set (a1 := with_sess a (sess a) sdp' true).
  assert (world_ok (set_ua w u a1)) as Hw1 by by apply (set_ua_ok w u a).
  assert (<[u := a1]> (us w) !! u = Some a1) as Ha1 by apply lookup_insert_eq.
  destruct (mark_ua_in_call_ok _ (mgr w) u a1 Ha1 (wo_mgr _ Hw1)) as (m'&E&Hm'&Hf&Hall').
  rewrite E. simpl. eexists. split; [done|]. split_and!; try done.
  - apply (world_ok_same (set_ua (set_mgr (set_ua w u a1) m') u
      (with_sess a (default (sess a) res) sdp' true))); try done.
    apply (set_ua_ok _ u a1); [by apply set_mgr_ok|done..].
  - split; try done. simpl. rewrite insert_insert_eq. by apply (same_ids_insert _ _ a).
Qed.

(** The user agents that the registry offers for a call. *)
Definition is_free (w : world) (u : Z) : Prop :=
  exists a, us w !! u = Some a /\ free_set (mgr w) !! _name a = Some u.

(** The [sipsess_connect] of a call from [fst p] to [snd p]. *)
Definition connect_call (m : gmap Z UserAgent) (p : Z * Z) : libcall :=
  Sipsess_connect (fst p) (default 0 (my_sess_sock <$> m !! fst p))
    (default ""%string (_uri <$> m !! snd p)).

Definition parties (ps : list (Z * Z)) : list Z :=
  concat (map (fun p => [fst p; snd p]) ps).

Lemma connect_call_ids m m' p : same_ids m m' -> connect_call m' p = connect_call m p.
Proof.
  intros Hs. unfold connect_call.
  assert (forall u, my_sess_sock <$> m' !! u = my_sess_sock <$> m !! u /\
                    _uri <$> m' !! u = _uri <$> m !! u) as E.
  { intros u. specialize (Hs u). destruct (m' !! u), (m !! u); simpl in *; try done.
    unfold ident in Hs. split; congruence. }
  by rewrite (proj1 (E _)), (proj2 (E _)).
Qed.

(** Taking two user agents out of the free set. *)
Lemma take_pair us0 m : mgr_ok us0 m ->
  exists c d m1 m2, get_ua_free_for_call us0 m = Some (c, m1) /\
    get_ua_free_for_call us0 m1 = Some (d, m2) /\ mgr_ok us0 m2 /\
    all_set m2 = all_set m /\
    ((exists a b, c <> 0 /\ d <> 0 /\ us0 !! c = Some a /\ us0 !! d = Some b /\
        free_set m !! _name a = Some c /\ free_set m !! _name b = Some d /\
        _name a <> _name b /\
        free_set m2 = delete (_name b) (delete (_name a) (free_set m))) \/
     (d = 0 /\ (base.size (free_set m) <= 1)%nat /\
      exists m3, mark_ua_not_in_call us0 m2 c = Some m3 /\ mgr_ok us0 m3 /\
        free_set m3 = free_set m /\ all_set m3 = all_set m)).
Proof.
  intros Hm. destruct (get_ua_free_for_call_ok us0 m Hm)
    as [[He E]|(c&a&m1&Hc&Ha&Hfa&E&Hm1&Hf1&Hall1)].
  - exists 0, 0, m, m. rewrite E. split_and!; try done. right. rewrite He, map_size_empty.
    split_and!; [done|lia|]. by exists m.
  - destruct (get_ua_free_for_call_ok us0 m1 Hm1)
      as [[He E']|(d&b&m2&Hd&Hb&Hfb&E'&Hm2&Hf2&Hall2)].
    + exists c, 0, m1, m1. split_and!; try done. right. split_and!; [done| |].
      * rewrite Hf1 in He. apply map_size_empty_iff in He.
        pose proof (map_size_delete_Some (_name a) (free_set m) (mk_is_Some _ _ Hfa)) as Hsz.
        lia.
      * destruct (mark_back us0 m m1 c a) as (m3&?&?&?&?); [done..|]. by exists m3.
    + exists c, d, m1, m2. split_and!; [done..|congruence|]. left. exists a, b.
      rewrite Hf1 in Hfb. apply lookup_delete_Some in Hfb as [Hne Hfb].
      split_and!; try done. by rewrite Hf2, Hf1.
Qed.

(** Removing the names of two parties from the free set. *)
Lemma is_free_delete2 w w' c d a b : world_ok w -> keeps w w' ->
  us w !! c = Some a -> us w !! d = Some b ->
  free_set (mgr w') = delete (_name b) (delete (_name a) (free_set (mgr w))) ->
  forall u, is_free w' u <-> is_free w u /\ u <> c /\ u <> d.
Proof.
  intros Hw Hk Ha Hb Hf u. unfold is_free. rewrite Hf. split.
  - intros (x&Hx&Hin).
    destruct (same_ids_lookup _ _ _ _ (k_ids _ _ Hk) Hx) as (y&Hy&E).
    assert (_name y = _name x) as En by (unfold ident in E; congruence).
    rewrite <- En in Hin.
    apply lookup_delete_Some in Hin as [N1 Hin].
    apply lookup_delete_Some in Hin as [N2 Hin].
    split; [by exists y|]. split; intros ->; congruence.
  - intros ((y&Hy&Hin)&N1&N2).
    pose proof (k_ids _ _ Hk u) as E. rewrite Hy in E. simpl in E.
    destruct (us w' !! u) as [x|]; [|done]. simpl in E. exists x. split; [done|].
    assert (_name x = _name y) as -> by (unfold ident in E; congruence).
    rewrite !lookup_delete_ne; [done| |]; intros En.
    + apply N1. symmetry. by apply (wo_names w Hw c u a y).
    + apply N2. symmetry. by apply (wo_names w Hw d u b y).
Qed.

(** The outcome of a tick that asked for [n] calls: [ps] are the calls made. *)
Record tick_calls (n : nat) (w w' : world) (ps : list (Z * Z)) : Prop := {
  tc_ok : world_ok w';
  tc_keeps : keeps w w';
  tc_out : out w' = out w ++ map (connect_call (us w)) ps;
  tc_init : u32 (init_call (st w')) = u32 (init_call (st w) + Z.of_nat (length ps));
  tc_nodup : NoDup (parties ps);
  tc_were : Forall (is_free w) (parties ps);
  tc_free : forall u, is_free w' u <-> is_free w u /\ u ∉ parties ps;
  tc_len : (length ps <= n)%nat;
  tc_short : (length ps < n)%nat -> (base.size (free_set (mgr w')) <= 1)%nat }.

Lemma tick_calls_nil w w' n : world_ok w' -> keeps w w' -> out w' = out w ->
  st w' = st w -> free_set (mgr w') = free_set (mgr w) ->
  (0 < n -> base.size (free_set (mgr w)) <= 1)%nat -> us w' = us w -> tick_calls n w w' [].
Proof.
  intros Hok Hk Ho Hs Hf Hz Hu. split; simpl; rewrite ?Ho, ?Hs, ?app_nil_r, ?Z.add_0_r, ?Hf;
    try done; try constructor; try lia.
  - intros Hin. split; [|apply not_elem_of_nil].
    destruct Hin as (a&?&?). exists a. by rewrite <- Hu, <- Hf.
  - intros [(a&?&?) _]. exists a. by rewrite Hu, Hf.
Qed.

Lemma tick_calls_cons n w w1 w' c d ps : tick_calls n w1 w' ps ->
  keeps w w1 -> out w1 = out w ++ [connect_call (us w) (c, d)] ->
  init_call (st w1) = u32 (init_call (st w) + 1) ->
  c <> d -> is_free w c -> is_free w d ->
  (forall u, is_free w1 u <-> is_free w u /\ u <> c /\ u <> d) ->
  tick_calls (S n) w w' ((c, d) :: ps).
Proof.
  intros [Tok Tk To Ti Tn Tw Tf Tl Ts] Hk Ho Hi Hne Hc Hd Hfree.
  assert (forall u, u ∈ parties ps -> is_free w u /\ u <> c /\ u <> d) as Hps.
  { intros u Hu. apply Hfree. by eapply Forall_forall in Tw. }
  split; try done.
  - by eapply keeps_trans.
  - rewrite To, Ho, <- app_assoc. simpl. do 2 f_equal. apply map_ext. intros p.
    apply connect_call_ids, Hk.
  - rewrite Ti, Hi. unfold u32. rewrite Zplus_mod_idemp_l. f_equal. simpl length. lia.
  - change (parties ((c, d) :: ps)) with (c :: d :: parties ps).
    constructor; [|constructor; [|done]].
    + intros [->|Hin]%elem_of_cons; [done|]. by destruct (Hps c Hin) as (_&?&_).
    + intros Hin. by destruct (Hps d Hin) as (_&_&?).
  - change (parties ((c, d) :: ps)) with (c :: d :: parties ps).
    constructor; [done|]. constructor; [done|].
    apply Forall_forall. intros u Hu. by apply Hps.
  - intros u. rewrite Tf, Hfree. change (parties ((c, d) :: ps)) with (c :: d :: parties ps).
    rewrite !elem_of_cons. tauto.
  - simpl. lia.
  - simpl. intros. apply Ts. lia.
Qed.

(** One iteration that finds both parties. *)
Lemma call_pair_ok w c d a b m2 sdp' res : world_ok w -> mgr_ok (us w) m2 ->
  all_set m2 = all_set (mgr w) -> us w !! c = Some a -> us w !! d = Some b ->
  free_set (mgr w) !! _name a = Some c ->
  free_set m2 = delete (_name b) (delete (_name a) (free_set (mgr w))) ->
  exists w1, call (set_mgr w m2) c (_uri b) sdp' res = Some w1 /\ world_ok w1 /\
    keeps w w1 /\ out w1 = out w ++ [connect_call (us w) (c, d)] /\
    init_call (st w1) = u32 (init_call (st w) + 1) /\
    (forall u, is_free w1 u <-> is_free w u /\ u <> c /\ u <> d).
Proof.
  intros Hw Hm2 Hall Ha Hb Hfa Hf.
  assert (world_ok (set_mgr w m2)) as Hw2 by by apply set_mgr_ok.
  destruct (call_ok (set_mgr w m2) c a (_uri b) sdp' res Hw2 Ha)
    as (w1&E&Hw1&Hk&Ho&Hi&Hf1).
  { simpl. rewrite Hall. eapply lookup_weaken; [done|apply Hw]. }
  assert (keeps w w1) as Hk1.
  { eapply keeps_trans; [|exact Hk]. by apply keeps_mgr. }
  exists w1. split_and!; try done.
  - rewrite Ho. unfold connect_call. simpl. by rewrite Ha, Hb.
  - apply (is_free_delete2 w w1 c d a b); try done.
    rewrite Hf1. simpl. rewrite Hf. apply map_eq. intros k.
    destruct (decide (k = _name a)) as [->|Hka];
      [rewrite lookup_delete_eq; destruct (decide (_name a = _name b)) as [->|];
       [by rewrite lookup_delete_eq|by rewrite lookup_delete_ne, lookup_delete_eq by done]|].
    by rewrite lookup_delete_ne by done.
Qed.

Lemma call_loop_ok n : forall res w calls, world_ok w -> u64 calls = calls ->
  exists w' ps, call_loop n res w calls =
      Some (w', u64 (calls + Z.of_nat (length ps))) /\ tick_calls n w w' ps.
Proof.
  induction n as [|n IH]; intros res w calls Hw Hc.
  { exists w, []. simpl. rewrite Z.add_0_r, Hc. split; [done|].
    apply tick_calls_nil; try done; lia. }
  simpl. destruct (take_pair (us w) (mgr w) (wo_mgr w Hw))
    as (c&d&m1&m2&E1&E2&Hm2&Hall&[(a&b&Hc0&Hd0&Ha&Hb&Hfa&Hfb&Hne&Hf)
                                 |(->&Hsz&m3&E3&Hm3&Hf3&Hall3)]);
    rewrite E1; simpl; rewrite E2; simpl.
  - destruct (Z.eqb_spec c 0); [done|]. destruct (Z.eqb_spec d 0); [done|]. simpl.
    rewrite Hb. simpl.
    destruct (call_pair_ok w c d a b m2 (fst (res O)) (snd (res O)))
      as (w1&E&Hw1&Hk&Ho&Hi&Hfree); [done..|].
    rewrite E. simpl.
    destruct (IH (fun i => res (S i)) w1 (u64 (calls + 1)) Hw1) as (w'&ps&E'&T).
    { unfold u64. by rewrite Zmod_mod. }
    exists w', ((c, d) :: ps). rewrite E'. split.
    + do 2 f_equal. unfold u64. rewrite Zplus_mod_idemp_l. f_equal. simpl length. lia.
    + apply (tick_calls_cons n w w1); try done; [congruence|by exists a|by exists b].
  - rewrite andb_false_r. unfold with_mgr. simpl. rewrite E3. simpl.
    exists (set_mgr w m3), []. simpl. rewrite Z.add_0_r, Hc. split; [done|].
    apply tick_calls_nil; try done. by apply set_mgr_ok.
Qed.

Lemma keeps_grows w w' l : keeps w w' -> out w' = out w ++ l ->
  Forall (registered w') (omap is_session l) -> grows w w'.
Proof.
  intros [] Ho Hl. apply (grows_intro w w' l); [|by rewrite k_all0|done..].
  intros u. specialize (k_ids0 u). destruct (us w' !! u), (us w !! u); simpl in *; try done.
  unfold ident in k_ids0. congruence.
Qed.

Lemma is_free_registered w u : world_ok w -> is_free w u -> registered w u.
Proof.
  intros Hw (x&Hx&Hf). exists x. split; [done|]. eapply lookup_weaken; [exact Hf|apply Hw].
Qed.

Lemma calls_sessions m ps : omap is_session (map (connect_call m) ps) = map fst ps.
Proof. induction ps as [|p ps IH]; [done|]. cbn. f_equal. exact IH. Qed.

Lemma in_parties (p : Z * Z) ps : p ∈ ps -> fst p ∈ parties ps.
Proof.
  induction ps as [|q ps IH]; intros Hin; [by apply elem_of_nil in Hin|].
  change (parties (q :: ps)) with (fst q :: snd q :: parties ps). rewrite !elem_of_cons.
  apply elem_of_cons in Hin as [->|]; auto.
Qed.

Lemma tick_calls_grows n w w' ps : world_ok w -> tick_calls n w w' ps -> grows w w'.
Proof.
  intros Hw []. assert (grows w (set_mgr w (mgr w'))) as [Hkept _].
  { apply (grows_intro _ _ []); simpl; [done|by rewrite (k_all _ _ tc_keeps0)|by rewrite app_nil_r|done]. }
  apply (keeps_grows w w' _ tc_keeps0 tc_out0). rewrite calls_sessions. apply Forall_forall.
  intros u (p&->&Hp)%list_elem_of_fmap. apply in_parties in Hp. eapply Forall_forall in tc_were0; [|exact Hp].
  apply (is_free_registered w _ Hw) in tc_were0 as (a&Ha&Hin).
  pose proof (k_ids _ _ tc_keeps0 (fst p)) as E. rewrite Ha in E. simpl in E.
  destruct (us w' !! fst p) as [b|] eqn:Hb; [|done]. exists b. split; [done|].
  rewrite (k_all _ _ tc_keeps0). simpl in E. unfold ident in E. by injection E as -> _ _.
Qed.

(** *** Registering *)

(** The stack that the registration number [i] (from 0) uses. *)
Definition stack_of (w : world) (i : Z) : Z * Z :=
  default (0, 0) (sip_stacks w !! Z.to_nat ((i + 1) mod Z.of_nat (length (sip_stacks w)))).

Definition reg_call (w : world) (i : Z) : libcall :=
  Sipreg_register (default 0 (ues w !! Z.to_nat i)) (fst (stack_of w i)).

Lemma get_sip_stack_ok w : 0 <= counter w < 2147483647 -> sip_stacks w <> [] ->
  get_sip_stack w = Some (stack_of w (counter w), set_counter w (counter w + 1)).
Proof.
  intros Hc Hne. unfold get_sip_stack, stack_of.
  assert (0 < Z.of_nat (length (sip_stacks w))) by (destruct (sip_stacks w); simpl in *; [done|lia]).
  destruct (Z.ltb_spec 2147483647 (counter w + 1)); [lia|].
  destruct (Z.eqb_spec (Z.of_nat (length (sip_stacks w))) 0); [lia|].
  rewrite u64_small by lia.
  destruct (sip_stacks w !! _) as [si|] eqn:E; [done|].
  apply lookup_ge_None in E.
  pose proof (Z.mod_pos_bound (counter w + 1) (Z.of_nat (length (sip_stacks w)))). lia.
Qed.

Lemma register_ue_ok w u a res : world_ok w -> us w !! u = Some a ->
  0 <= counter w < 2147483647 -> sip_stacks w <> [] ->
  exists w', register_ue w u res = Some w' /\ world_ok w' /\ ues w' = ues w /\
    sip_stacks w' = sip_stacks w /\ counter w' = counter w + 1 /\ st w' = st w /\ grows w w' /\
    out w' = out w ++ [Sipreg_register u (fst (stack_of w (counter w)))].
Proof.
  intros Hw Ha Hc Hne. unfold register_ue. rewrite get_sip_stack_ok by done. simpl.
  rewrite Ha. simpl. eexists. split; [done|]. split_and!; try done.
  - apply (world_ok_same (set_ua w u (with_stack a (stack_of w (counter w))
      (default (reg a) res)))); try done. by apply (set_ua_ok w u a).
  - eapply grows_intro; simpl; [|done..]. by apply (names_insert _ _ a).
Qed.

(** The loop registers [n] consecutive user agents, and takes the stacks in turn. *)
Lemma register_loop_ok n : forall res w i, world_ok w -> sip_stacks w <> [] ->
  counter w = i -> 0 <= i -> i + Z.of_nat n <= Z.of_nat (length (ues w)) ->
  Z.of_nat (length (ues w)) < 2147483648 ->
  exists w', register_loop n res w i = Some (w', i + Z.of_nat n) /\ world_ok w' /\
    ues w' = ues w /\ sip_stacks w' = sip_stacks w /\ counter w' = i + Z.of_nat n /\
    st w' = st w /\ grows w w' /\
    out w' = out w ++ map (fun j => reg_call w (i + Z.of_nat j)) (seq 0 n).
Proof.
  induction n as [|n IH]; intros res w i Hw Hne Hc Hi Hn Hmax.
  { exists w. simpl. rewrite Z.add_0_r, app_nil_r. split_and!; try done.
    apply (grows_intro w w []); [done..|by rewrite app_nil_r|done]. }
  destruct (lookup_lt_is_Some_2 (ues w) (Z.to_nat i)) as [u Hu]; [lia|].
  destruct (wo_ues w Hw u) as [a Ha]; [by eapply list_elem_of_lookup_2|].
  destruct (register_ue_ok w u a (res O) Hw Ha) as (w1&E&Hw1&E1&E2&E3&E4&G1&E5); [lia|done|].
  simpl. rewrite Hu. simpl. rewrite E. simpl. rewrite u64_small by lia.
  destruct (IH (fun i => res (S i)) w1 (i + 1)) as (w'&E'&Hw'&F1&F2&F3&F4&G2&F5);
    rewrite ?E1, ?E2; try done; try lia.
  exists w'. rewrite E', Nat2Z.inj_succ, <- Z.add_succ_comm, <- Z.add_1_r.
  split_and!; try congruence; [by eapply grows_trans|].
  rewrite F5, E5, <- app_assoc. f_equal. simpl. f_equal.
  - unfold reg_call. rewrite Z.add_0_r, Hu. simpl. by rewrite Hc.
  - rewrite <- seq_shift, map_map. apply map_ext. intros j.
    unfold reg_call, stack_of. rewrite E1, E2.
    by replace (i + Z.of_nat (S j)) with (i + 1 + Z.of_nat j) by lia.
Qed.

Lemma s32_u64 z : -2147483648 <= z < 2147483648 -> s32 (u64 z) = z.
Proof.
  intros H. transitivity (s32 z); [|by apply s32_small].
  unfold s32, u32, u64. rewrite Z.mod_mod_divide; [done|]. by exists 4294967296.
Qed.

(** A tick of the registrar brings the number of registered user agents up to
    the number due, and never above the number of user agents. *)
Lemma InitialRegistrar_act_ok w r now res x : world_ok w -> sip_stacks w <> [] ->
  counter w = _actual_ues_registered r ->
  0 <= _actual_ues_registered r < Z.of_nat (length (ues w)) ->
  Z.of_nat (length (ues w)) < 2147483648 ->
  uint64_of_double (SFmul 53 1024 (seconds_since_start (ir_timer r) now)
                          (double_of_Z (_registers_per_sec r))) = Some x -> 0 <= x ->
  let d := Z.max (_actual_ues_registered r) (Z.min x (Z.of_nat (length (ues w)))) in
  exists w', InitialRegistrar_act w r now res =
      Some (w', mk_ir (ir_timer r) d (_registers_per_sec r), true) /\
    world_ok w' /\ ues w' = ues w /\ sip_stacks w' = sip_stacks w /\ counter w' = d /\
    st w' = st w /\ grows w w' /\
    out w' = out w ++ map (fun j => reg_call w (_actual_ues_registered r + Z.of_nat j))
                          (seq 0 (Z.to_nat (d - _actual_ues_registered r))).
Proof.
  intros Hw Hne Hc Ha Hmax Hx Hx0 d. unfold InitialRegistrar_act.
  destruct (Z.eqb_spec (_actual_ues_registered r) (Z.of_nat (length (ues w)))); [lia|].
  rewrite Hx. simpl. rewrite s32_u64 by lia.
  destruct (register_loop_ok (Z.to_nat (Z.min x (Z.of_nat (length (ues w))) -
      _actual_ues_registered r)) res w (_actual_ues_registered r))
    as (w'&E&Hw'&E1&E2&E3&E4&Hg&E5); try done; try lia.
  rewrite E. simpl. exists w'. split_and!; try done.
  - do 2 f_equal. f_equal. f_equal. unfold d. lia.
  - rewrite E3. unfold d. lia.
  - rewrite E5. do 3 f_equal. unfold d. lia.
Qed.

(** *** The cleanup task *)

Lemma unregister_all_ok w : world_ok w ->
  exists l, unregister_all w = Some (emit w l) /\ omap is_reg l = [] /\ omap is_connect l = [] /\
    omap is_session l = [].
Proof.
  intros Hw. unfold unregister_all.
  assert (forall v, v ∈ ues w -> is_Some (us w !! v)) as He by apply (wo_ues w Hw).
  enough (forall l vs, (forall v, v ∈ vs -> is_Some (us w !! v)) ->
    omap is_reg l = [] -> omap is_connect l = [] -> omap is_session l = [] ->
    exists l', foldl (fun ow u => w ← ow; unregister w u) (Some (emit w l)) vs =
      Some (emit w l') /\ omap is_reg l' = [] /\ omap is_connect l' = [] /\ omap is_session l' = []) as Hg.
  { destruct (Hg [] (ues w)) as (l'&E&?&?&?); [done..|]. exists l'. split; [|done].
    rewrite <- E. f_equal. unfold emit. rewrite app_nil_r. by destruct w. }
  intros l vs. revert l. induction vs as [|v vs IH]; intros l Hv Hr Hc Hs; simpl; [by exists l|].
  destruct (Hv v) as [a Ha]; [by left|]. unfold unregister at 2. simpl. rewrite Ha. simpl.
  destruct (IH (l ++ [Mem_deref (reg a)])) as (l'&E&?&?&?).
  - intros u Hu. apply Hv. by right.
  - by rewrite omap_app, Hr.
  - by rewrite omap_app, Hc.
  - by rewrite omap_app, Hs.
  - exists l'. split; [|done]. rewrite <- E. do 2 f_equal. unfold emit. simpl.
    by rewrite <- app_assoc.
Qed.

Lemma Cleanup_act_ok w t : world_ok w -> t <> 2147483647 ->
  exists w', Cleanup_act w t = Some (w', t + 1, true) /\ world_ok w' /\
    ues w' = ues w /\ counter w' = counter w /\ st w' = st w /\
    regs w' = regs w /\ connects w' = connects w /\ grows w w'.
Proof.
  intros Hw Ht. unfold Cleanup_act. apply Z.eqb_neq in Ht. rewrite Ht.
  assert (forall w' l, us w' = us w -> ues w' = ues w -> mgr w' = mgr w ->
    counter w' = counter w -> st w' = st w -> out w' = out w ++ l ->
    omap is_reg l = [] -> omap is_connect l = [] -> omap is_session l = [] ->
    exists w0, Some (w', t + 1, true) = Some (w0, t + 1, true) /\ world_ok w0 /\
      ues w0 = ues w /\ counter w0 = counter w /\ st w0 = st w /\
      regs w0 = regs w /\ connects w0 = connects w /\ grows w w0) as Hgen.
  { intros w' l E1 E2 E3 E4 E5 E6 Hr Hc Hs. exists w'. split_and!; try done.
    - by apply (world_ok_same w).
    - unfold regs. by rewrite E6, omap_app, Hr, app_nil_r.
    - unfold connects. by rewrite E6, omap_app, Hc, app_nil_r.
    - apply (grows_intro w w' l); [by rewrite E1|by rewrite E3|done|by rewrite Hs]. }
  destruct (t =? 1).
  { destruct (unregister_all_ok w Hw) as (l&E&Hr&Hc&Hs). rewrite E. simpl.
    by apply (Hgen _ l). }
  destruct (t =? 12).
  { simpl. eapply Hgen; [done..|simpl; rewrite <- !app_assoc; done| | |];
      rewrite !omap_app; simpl; rewrite app_nil_r.
    all: induction (sip_stacks w); simpl; auto. }
  destruct (t =? 30); simpl.
  - by eapply Hgen.
  - apply (Hgen w []); by rewrite ?app_nil_r.
Qed.

(** *** The invariant of the program *)

Record app_ok (a : app) : Prop := {
  ao_world : world_ok (aw a);
  ao_small : Z.of_nat (length (ues (aw a))) < 2147483648;
  ao_range : 0 <= _actual_ues_registered (registrar a) <= Z.of_nat (length (ues (aw a)));
  ao_counter : counter (aw a) = _actual_ues_registered (registrar a);
  ao_regs : regs (aw a) =
    take (Z.to_nat (_actual_ues_registered (registrar a))) (ues (aw a));
  ao_stacks : cleanup_on a = false -> sip_stacks (aw a) <> [];
  ao_first : registrar_on a = true ->
    scheduler_on a = false /\ cleanup_on a = false /\ connects (aw a) = [];
  ao_then : registrar_on a = false ->
    _actual_ues_registered (registrar a) = Z.of_nat (length (ues (aw a)));
  ao_second : scheduler_on a = true -> cleanup_on a = false;
  ao_last : cleanup_on a = true -> _max_calls (scheduler a) <= _actual_calls (scheduler a);
  ao_calls : _actual_calls (scheduler a) = u64 (Z.of_nat (length (connects (aw a))));
  ao_init : u32 (init_call (st (aw a))) = u32 (Z.of_nat (length (connects (aw a))));
  ao_sess : forall u, u ∈ sessions (aw a) -> registered (aw a) u }.

Lemma grows_sessions w w' : grows w w' -> (forall u, u ∈ sessions w -> registered w u) ->
  forall u, u ∈ sessions w' -> registered w' u.
Proof. intros [Hk Hs] H0 u Hu. destruct (Hs u Hu); auto. Qed.

(** The events that the library and the main loop deliver: a task's timer fires while the
    task runs, a response comes for a user agent of the users file, the handlers of a
    session are called with the user agent that [sipsess_connect] or [sipsess_accept] was
    given, whatever became of its [sess] since, and an INVITE can be for any name. *)
Definition deliverable (a : app) (e : event) : Prop :=
  match e with
  | RegTick _ _ _ => registrar_on a = true
  | CallTick _ _ => scheduler_on a = true
  | CleanupTick => cleanup_on a = true
  | RegisterResp u _ => u ∈ ues (aw a)
  | Invite _ _ => True
  | Establish u | Close u _ => u ∈ sessions (aw a)
  | StackExit => True
  end.

(** The events whose handling is undefined: the number due is not that of a [uint64_t], a
    second of cleanup is the 2^31-th, the name of an INVITE is not registered. *)
Definition undefined (a : app) (e : event) : Prop :=
  match e with
  | RegTick now _ _ => _actual_ues_registered (registrar a) <> Z.of_nat (length (ues (aw a))) /\
      uint64_of_double (SFmul 53 1024 (seconds_since_start (ir_timer (registrar a)) now)
        (double_of_Z (_registers_per_sec (registrar a)))) = None
  | CallTick now _ =>
      uint64_of_double (SFmul 53 1024 (seconds_since_start (cs_timer (scheduler a)) now)
        (double_of_Z (_calls_per_sec (scheduler a)))) = None
  | CleanupTick => times a = 2147483647
  | Invite name _ => all_set (mgr (aw a)) !! name = None
  | _ => False
  end.

Lemma app_ok_quiet a w : app_ok a -> world_ok w -> quiet (aw a) w -> grows (aw a) w ->
  app_ok (set_world a w).
Proof.
  intros [] Hw [] Hg. split; simpl; try done; try congruence.
  - intros Hc. rewrite q_stacks0. auto.
  - intros Hr. rewrite q_connects0. auto.
  - intros Hr. rewrite q_ues0. auto.
  - by eapply grows_sessions.
Qed.

Lemma uint64_of_double_range f x : uint64_of_double f = Some x -> 0 <= x < 18446744073709551616.
Proof.
  destruct f as [| | |sgn m e]; simpl; try done; [by intros [= <-]|].
  set (v := if sgn then _ else _). clearbody v.
  destruct (Z.leb_spec 0 v), (Z.ltb_spec v 18446744073709551616); simpl; intros; simplify_eq.
  lia.
Qed.

Lemma u64_u64 z : u64 (u64 z) = u64 z.
Proof. apply Zmod_mod. Qed.

Lemma calls_regs m ps : omap is_reg (map (connect_call m) ps) = [].
Proof. by induction ps. Qed.

Lemma calls_connects m ps : omap is_connect (map (connect_call m) ps) = map fst ps.
Proof. induction ps as [|p ps IH]; [done|]. cbn. f_equal. exact IH. Qed.

Lemma regs_connects w i n :
  omap is_connect (map (fun j => reg_call w (i + Z.of_nat j)) (seq 0 n)) = [].
Proof. generalize 0%nat. induction n as [|n IH]; intros k; [done|]. cbn. apply IH. Qed.

Lemma regs_regs w i n : 0 <= i -> i + Z.of_nat n <= Z.of_nat (length (ues w)) ->
  omap is_reg (map (fun j => reg_call w (i + Z.of_nat j)) (seq 0 n)) =
  take n (drop (Z.to_nat i) (ues w)).
Proof.
  revert i. induction n as [|n IH]; intros i Hi Hn; [done|].
  destruct (lookup_lt_is_Some_2 (ues w) (Z.to_nat i)) as [u Hu]; [lia|].
  rewrite (drop_S _ _ _ Hu). cbn. rewrite Z.add_0_r, Hu. simpl. f_equal.
  replace (S (Z.to_nat i)) with (Z.to_nat (i + 1)) by lia.
  rewrite <- IH by lia. rewrite <- seq_shift, map_map. f_equal. apply map_ext.
  intros j. f_equal. lia.
Qed.

Lemma reg_tick_ok a now start_now res : app_ok a -> registrar_on a = true ->
  ~ undefined a (RegTick now start_now res) ->
  exists a', run_event a (RegTick now start_now res) = Some a' /\ app_ok a'.
Proof.
  intros Ha Hon Hu. destruct Ha.
  destruct (ao_first0 Hon) as (Hs&Hcl&Hcon). simpl.
  destruct (Z.eq_dec (_actual_ues_registered (registrar a)) (Z.of_nat (length (ues (aw a)))))
    as [E|E].
  - unfold InitialRegistrar_act. rewrite (proj2 (Z.eqb_eq _ _) E). simpl.
    eexists. split; [done|]. split; simpl; try done.
    + by apply (world_ok_same (aw a)).
    + unfold regs in *. simpl. by rewrite omap_app, ao_regs0, app_nil_r.
    + unfold connects in *. simpl. by rewrite omap_app, app_nil_r.
    + unfold connects in *. simpl. by rewrite omap_app, app_nil_r.
    + unfold sessions in *. simpl. by rewrite omap_app, app_nil_r.
  - cbn [undefined] in Hu. destruct (uint64_of_double (SFmul _ _ _ _)) as [x|] eqn:Hx; [|by destruct Hu].
    destruct (InitialRegistrar_act_ok (aw a) (registrar a) now res x)
      as (w'&Ew&Hw'&E1&E2&E3&E4&Hg&E5); [done|by auto|done|lia|done|done| |].
    { by apply (uint64_of_double_range _ _ Hx). }
    rewrite Ew. simpl. eexists. split; [done|].
    split; simpl; rewrite ?E1, ?E2, ?E3, ?E4; try done; try lia.
    + unfold regs in *. rewrite E5, omap_app, ao_regs0, regs_regs by lia.
      rewrite take_take_drop. f_equal. lia.
    + intros _. rewrite Hs. split; [done|]. split; [done|]. unfold connects in *.
      rewrite E5, omap_app, Hcon, regs_connects. done.
    + unfold connects in *. by rewrite E5, omap_app, regs_connects, app_nil_r.
    + unfold connects in *. by rewrite E5, omap_app, regs_connects, app_nil_r.
    + by eapply grows_sessions.
Qed.

Lemma call_tick_ok a now res : app_ok a -> scheduler_on a = true -> ~ undefined a (CallTick now res) ->
  exists a', run_event a (CallTick now res) = Some a' /\ app_ok a'.
Proof.
  intros Ha Hon Hu. cbn [undefined] in Hu. destruct (uint64_of_double (SFmul _ _ _ _)) as [x|] eqn:Hx; [|by destruct Hu].
  destruct Ha. pose proof (ao_second0 Hon) as Hcl.
  assert (registrar_on a = false) as Hroff.
  { destruct (registrar_on a); [|done]. destruct (ao_first0 eq_refl). congruence. }
  simpl. unfold CallScheduler_act. rewrite Hx. simpl.
  destruct (call_loop_ok (Z.to_nat (s32 (u64 (x - _actual_calls (scheduler a))))) res
    (aw a) (_actual_calls (scheduler a)) ao_world0) as (w'&ps&E&T).
  { rewrite ao_calls0. apply u64_u64. }
  pose proof (tick_calls_grows _ _ _ _ ao_world0 T) as Hg. destruct T.
  rewrite E. simpl. destruct tc_keeps0.
  set (c := u64 (_actual_calls (scheduler a) + Z.of_nat (length ps))) in *.
  set (w2 := if c <? _max_calls (scheduler a) then w' else emit w' [Start_cleanup]).
  assert (us w2 = us w' /\ ues w2 = ues w' /\ mgr w2 = mgr w' /\ st w2 = st w' /\
    sip_stacks w2 = sip_stacks w' /\ counter w2 = counter w' /\ regs w2 = regs w' /\
    connects w2 = connects w' /\ sessions w2 = sessions w') as (F1&F2&F3&F4&F5&F6&F7&F8&F9).
  { unfold w2. destruct (_ <? _); [done|]. unfold regs, connects, sessions. simpl.
    by rewrite !omap_app, !app_nil_r. }
  set (s' := mk_cs _ _ _ _).
  assert (app_ok (mk_app w2 (registrar a) (registrar_on a) s'
    (c <? _max_calls (scheduler a)) (times a)
    (cleanup_on a || negb (c <? _max_calls (scheduler a))))) as Hok.
  2: { unfold w2 in Hok. destruct (c <? _); simpl in *; eexists; (split; [done|exact Hok]). }
  assert (connects w2 = connects (aw a) ++ map fst ps) as Hcn.
  { rewrite F8. unfold connects. by rewrite tc_out0, omap_app, calls_connects. }
  split; simpl; rewrite ?F2, ?F4, ?F5, ?F6, ?k_ues0, ?k_stacks0, ?k_counter0; try done.
  - by apply (world_ok_same w').
  - rewrite F7. unfold regs in *. by rewrite tc_out0, omap_app, calls_regs, app_nil_r.
  - rewrite orb_false_iff. intros [? _]. auto.
  - congruence.
  - intros Hlt. rewrite Hcl, Hlt. done.
  - rewrite Hcl. simpl. intros Hge%negb_true_iff%Z.ltb_ge. exact Hge.
  - rewrite Hcn, length_app, length_map. unfold c. rewrite ao_calls0. unfold u64.
    rewrite Zplus_mod_idemp_l. f_equal. lia.
  - rewrite tc_init0, Hcn, length_app, length_map. unfold u32 in *.
    by rewrite Nat2Z.inj_add, <- Zplus_mod_idemp_l, ao_init0, Zplus_mod_idemp_l.
  - intros u. rewrite F9. intros Hin. destruct (grows_sessions _ _ Hg ao_sess0 u Hin) as (b&?&?).
    exists b. by rewrite F1, F3.
Qed.

Lemma cleanup_tick_ok a : app_ok a -> cleanup_on a = true -> ~ undefined a CleanupTick ->
  exists a', run_event a CleanupTick = Some a' /\ app_ok a'.
Proof.
  intros Ha Hon Ht. destruct Ha. simpl.
  destruct (Cleanup_act_ok (aw a) (times a) ao_world0 Ht)
    as (w'&E&Hw'&E1&E2&E3&E4&E5&Hg).
  rewrite E. simpl. eexists. split; [done|].
  split; simpl; rewrite ?E1, ?E2, ?E3, ?E4, ?E5; try done.
  - intros Hr. destruct (ao_first0 Hr) as (?&?&?). congruence.
  - intros Hr. specialize (ao_second0 Hr). congruence.
  - intros _. auto.
  - by eapply grows_sessions.
Qed.

(** Progress and preservation: an event that is delivered is handled without undefined
    behaviour, but for the [undefined] ones, and the invariant holds afterwards. *)
Lemma run_event_ok a e : app_ok a -> deliverable a e -> ~ undefined a e ->
  exists a', run_event a e = Some a' /\ app_ok a'.
Proof.
  intros Ha He Hu. pose proof (ao_world a Ha) as Hw. destruct e.
  - by apply reg_tick_ok.
  - by apply call_tick_ok.
  - by apply cleanup_tick_ok.
  - destruct (register_handler_ok (aw a) u scode Hw) as (w'&E&Hw'&Hq&Hg).
    { by apply (wo_ues (aw a) Hw). }
    simpl. rewrite E. simpl. eexists. split; [done|]. by apply app_ok_quiet.
  - destruct (static_connect_handler_ok (aw a) name res Hw) as (w'&E&Hw'&Hq&Hg).
    { destruct (all_set (mgr (aw a)) !! name) eqn:En; [by eexists|by destruct Hu]. }
    simpl. rewrite E. simpl. eexists. split; [done|]. by apply app_ok_quiet.
  - destruct (ao_sess a Ha u He) as (x&Hx&Hs).
    destruct (establish_handler_ok (aw a) u x Hw Hx Hs) as (w'&E&Hw'&Hq&Hg).
    simpl. rewrite E. simpl. eexists. split; [done|]. by apply app_ok_quiet.
  - destruct (ao_sess a Ha u He) as (x&Hx&Hs).
    destruct (close_handler_ok (aw a) u err x Hw Hx Hs) as (w'&E&Hw'&Hq&Hg&_).
    simpl. rewrite E. simpl. eexists. split; [done|]. by apply app_ok_quiet.
  - destruct (exit_handler_ok (aw a) Hw) as (?&?&?). simpl. eexists. split; [done|].
    by apply app_ok_quiet.
Qed.

Lemma unknown_invite_none w name res : world_ok w -> all_set (mgr w) !! name = None ->
  static_connect_handler w name res = None.
Proof.
  intros Hw Hn. unfold static_connect_handler, get_ua_by_name.
  rewrite um_find_spec. unfold all_set in Hn. rewrite Hn.
  unfold connect_handler. simpl. by rewrite (wo_null w Hw).
Qed.


(** They are undefined indeed. *)
Lemma undefined_none a e : app_ok a -> undefined a e -> run_event a e = None.
Proof.
  intros Ha Hu. destruct e; try done; cbn [run_event undefined] in *.
  - destruct Hu as [Hn Hx]. unfold InitialRegistrar_act.
    destruct (Z.eqb_spec (_actual_ues_registered (registrar a)) (Z.of_nat (length (ues (aw a))))); [done|].
    by rewrite Hx.
  - unfold CallScheduler_act. by rewrite Hu.
  - unfold Cleanup_act. rewrite Hu. done.
  - by rewrite unknown_invite_none by (done || apply Ha).
Qed.

(** *** Start-up *)

Record loaded (pid c : N) (m : gmap Z UserAgent) (l : list Z) : Prop := {
  ld_null : m !! 0 = None;
  ld_ues : forall u, u ∈ l -> is_Some (m !! u);
  ld_ua : forall u a, m !! u = Some a -> sess a = 0 /\
    exists k, (k < c)%N /\ _name a = _name (fst (new_UserAgent pid k "" "" "" ""));
  ld_names : forall u v a b, m !! u = Some a -> m !! v = Some b ->
    _name a = _name b -> u = v }.

Lemma load_users_ok pid target rows : forall c addr m l,
  (c + N.of_nat (length rows) < 18446744073709551616)%N ->
  (forall i j, addr i = addr j -> i = j) -> (forall i, addr i <> 0) ->
  (forall i, m !! addr i = None) -> loaded pid c m l ->
  exists m' l' c', load_users pid c target rows addr m l = (m', l') /\
    length l' = (length l + length rows)%nat /\ loaded pid c' m' l'.
Proof.
  induction rows as [|[[r n] p] rows IH]; intros c addr m l Hc Hinj Hnz Hm [H0 Hu Ha Hn];
    [exists m, l, c; rewrite Nat.add_0_r; by split_and!|].
  simpl in *. rewrite N.mod_small by lia.
  assert (forall u x, m !! u = Some x -> u <> addr O) as Hne.
  { intros u x Hx ->. by rewrite Hm in Hx. }
  assert (forall u x, m !! u = Some x ->
    _name x <> ((pretty pid +:+ "-ue") +:+ pretty c)%string) as Hfresh.
  { intros u x Hx E. destruct (Ha u x Hx) as [_ (j&Hj&En)].
    assert (j = c); [|lia].
    apply (new_UserAgent_name_inj pid j c "" "" "" "" "" "" "" "").
    simpl. congruence. }
  destruct (IH (c + 1)%N (fun i => addr (S i)) (<[addr O := mk_ua 0 0 0 0 0 target r n p
    ((pretty pid +:+ "-ue") +:+ pretty c) false]> m) (l ++ [addr O]))
    as (m'&l'&c'&E&Hl&Hld); try done.
  - lia.
  - intros i j Hij. by apply Hinj in Hij as [= ->].
  - intros i. rewrite lookup_insert_ne; [done|]. intros Hij. by apply Hinj in Hij.
  - split.
    + by rewrite lookup_insert_ne.
    + intros u [Hin| ->%list_elem_of_singleton]%elem_of_app.
      * destruct (Hu u Hin) as [x Hx]. rewrite lookup_insert_ne; [by exists x|].
        by apply not_eq_sym, (Hne u x).
      * rewrite lookup_insert_eq. eauto.
    + intros u a [[<- <-]|[_ Hx]]%lookup_insert_Some.
      * split; [done|]. exists c. split; [lia|done].
      * destruct (Ha u a Hx) as [? (k&?&?)]. split; [done|]. exists k. split; [lia|done].
    + intros u v a b [[<- <-]|[_ Hx]]%lookup_insert_Some
        [[<- <-]|[_ Hy]]%lookup_insert_Some E; simpl in *; try done.
      * by destruct (Hfresh v b Hy).
      * by destruct (Hfresh u a Hx).
      * by apply (Hn u v a b).
  - exists m', l', c'. split_and!; [done| |done]. rewrite Hl, length_app. simpl. lia.
Qed.

Lemma main_init_ok pid target rows addr alloc dnsc' now rps cps max_calls :
  Z.of_nat (length rows) < 2147483648 ->
  (forall i j, addr i = addr j -> i = j) -> (forall i, addr i <> 0) ->
  app_ok (main_init pid target rows addr alloc dnsc' now rps cps max_calls).
Proof.
  intros Hlen Hinj Hnz. unfold main_init, init_world.
  destruct (load_users_ok pid target rows 0 addr ∅ []) as (m&l&c&E&Hl&[H0 Hu Ha Hn]).
  { change 18446744073709551616%N with (Z.to_N 18446744073709551616). lia. }
  { done. } { done. } { done. }
  { split; try done. intros u Hu. by apply elem_of_nil in Hu. }
  simpl in Hl. rewrite E. split; simpl; try done; try lia.
  - split; simpl; try done.
    split; unfold free_set, all_set; simpl; rewrite um_contents_empty; [|done].
    intros k p Hk. by rewrite lookup_empty in Hk.
  - unfold sessions. simpl. intros u Hx. by apply elem_of_nil in Hx.
Qed.

(** *** Runs *)

Inductive reachable (a0 : app) : app -> Prop :=
| reach_init : reachable a0 a0
| reach_event a e a' : reachable a0 a -> deliverable a e -> run_event a e = Some a' ->
    reachable a0 a'.

Lemma reachable_ok a0 a : app_ok a0 -> reachable a0 a -> app_ok a.
Proof.
  intros H0. induction 1 as [|a e a' _ IH He E]; [done|].
  destruct (run_event_ok a e IH He) as (a2&E2&Hok); [|congruence].
  intros Hu%undefined_none; [congruence|done].
Qed.

(** A start of the program: at most 2^31 users, distinct objects in memory. *)
Inductive started : app -> Prop :=
| Started pid target rows addr alloc dnsc' now rps cps max_calls :
    Z.of_nat (length rows) < 2147483648 ->
    (forall i j, addr i = addr j -> i = j) -> (forall i, addr i <> 0) ->
    started (main_init pid target rows addr alloc dnsc' now rps cps max_calls).

Lemma started_ok a0 a : started a0 -> reachable a0 a -> app_ok a.
Proof. intros [] Hr. eapply reachable_ok; [by apply main_init_ok|done]. Qed.

(** ** Properties *)


(** C4: the three tasks run one after the other, and the counters tell the truth:
    the user agents are registered once each, in the order of the users file; no
    call is made before all of them were; cleanup starts only after the required
    number of calls; and [init_call] and [_actual_calls] count the calls made,
    modulo their widths. *)
Theorem phases_in_order a0 a : started a0 -> reachable a0 a ->
  regs (aw a) = take (Z.to_nat (_actual_ues_registered (registrar a))) (ues (aw a)) /\
  (connects (aw a) <> [] -> regs (aw a) = ues (aw a)) /\
  (scheduler_on a = true -> regs (aw a) = ues (aw a) /\ cleanup_on a = false) /\
  (cleanup_on a = true -> regs (aw a) = ues (aw a) /\
     _max_calls (scheduler a) <= _actual_calls (scheduler a)) /\
  _actual_calls (scheduler a) = u64 (Z.of_nat (length (connects (aw a)))) /\
  u32 (init_call (st (aw a))) = u32 (Z.of_nat (length (connects (aw a)))).
Proof.
  intros H0 Hr. destruct (started_ok a0 a H0 Hr).
  assert (registrar_on a = false -> regs (aw a) = ues (aw a)) as Hall.
  { intros Hoff. rewrite ao_regs0, (ao_then0 Hoff), Nat2Z.id. apply firstn_all. }
  destruct (registrar_on a) eqn:Hon.
  - destruct (ao_first0 eq_refl) as (Hs&Hc&Hn). rewrite Hn in *. split_and!; try done;
      intros; congruence.
  - specialize (Hall eq_refl). split_and!; auto.
Qed.

(** C2: a tick of the call scheduler sets up calls between distinct free user
    agents: no user agent takes part in two of the calls of the tick, every party
    was free before, exactly the parties are no longer free afterwards, and fewer
    calls than are due are made only if at most one user agent is left free. *)
Theorem call_tick_distinct_parties a0 a now res x : started a0 -> reachable a0 a ->
  uint64_of_double (SFmul 53 1024 (seconds_since_start (cs_timer (scheduler a)) now)
                          (double_of_Z (_calls_per_sec (scheduler a)))) = Some x ->
  -2147483648 <= x - _actual_calls (scheduler a) < 2147483648 ->
  exists w' s' again ps, CallScheduler_act (aw a) (scheduler a) now res = Some (w', s', again) /\
    NoDup (parties ps) /\ Forall (is_free (aw a)) (parties ps) /\
    (forall u, is_free w' u <-> is_free (aw a) u /\ u ∉ parties ps) /\
    Z.of_nat (length ps) <= Z.max 0 (x - _actual_calls (scheduler a)) /\
    (Z.of_nat (length ps) < x - _actual_calls (scheduler a) ->
       (base.size (free_set (mgr w')) <= 1)%nat) /\
    out w' = out (aw a) ++ map (connect_call (us (aw a))) ps ++
             (if again : bool then [] else [Start_cleanup]).
Proof.
  intros H0 Hr Hx Hle. destruct (started_ok a0 a H0 Hr). pose proof (uint64_of_double_range _ _ Hx).
  unfold CallScheduler_act. rewrite Hx. simpl. rewrite s32_u64 by done.
  destruct (call_loop_ok (Z.to_nat (x - _actual_calls (scheduler a))) res
    (aw a) (_actual_calls (scheduler a)) ao_world0) as (w'&ps&E&[]).
  { rewrite ao_calls0. apply u64_u64. }
  rewrite E. simpl.
  destruct (_ <? _); eexists _, _, _, ps; split_and!; try done; try lia.
  - by rewrite app_nil_r.
  - intros. apply tc_short0. lia.
  - simpl. by rewrite tc_out0, <- app_assoc.
Qed.

(** C3: a tick of the registrar registers the user agents that became due since
    the last tick and no others, in the order of the users file, and hands the
    SIP stacks out in turn: registration number [i] of the run uses stack
    [(i + 1) mod n]. *)
Theorem registrar_tick_exact a0 a now res x : started a0 -> reachable a0 a ->
  registrar_on a = true ->
  _actual_ues_registered (registrar a) < Z.of_nat (length (ues (aw a))) ->
  uint64_of_double (SFmul 53 1024 (seconds_since_start (ir_timer (registrar a)) now)
                          (double_of_Z (_registers_per_sec (registrar a)))) = Some x ->
  let i := _actual_ues_registered (registrar a) in
  let d := Z.max i (Z.min x (Z.of_nat (length (ues (aw a))))) in
  exists w', InitialRegistrar_act (aw a) (registrar a) now res =
      Some (w', mk_ir (ir_timer (registrar a)) d (_registers_per_sec (registrar a)), true) /\
    regs w' = take (Z.to_nat d) (ues (aw a)) /\ sip_stacks w' = sip_stacks (aw a) /\
    out w' = out (aw a) ++ map (fun j => reg_call (aw a) (i + Z.of_nat j))
                               (seq 0 (Z.to_nat (d - i))).
Proof.
  intros H0 Hr Hon Hlt Hx i d. destruct (started_ok a0 a H0 Hr).
  destruct (ao_first0 Hon) as (_&Hcl&_).
  destruct (InitialRegistrar_act_ok (aw a) (registrar a) now res x)
    as (w'&E&Hw'&E1&E2&E3&E4&_&E5); [done|by auto|done|lia|done|done| |].
  { by apply (uint64_of_double_range _ _ Hx). }
  exists w'. split_and!; [done| |done..].
  unfold regs in *. rewrite E5, omap_app, ao_regs0, regs_regs by lia.
  rewrite take_take_drop. f_equal. lia.
Qed.

Lemma parties_pair ps c d : NoDup (parties ps) -> (c, d) ∈ ps ->
  c ∈ parties ps /\ d ∈ parties ps /\ c <> d.
Proof.
  induction ps as [|p ps IH]; intros Hnd Hin; [by apply elem_of_nil in Hin|].
  change (parties (p :: ps)) with (fst p :: snd p :: parties ps) in *.
  apply NoDup_cons in Hnd as [Hn1 Hnd]. apply NoDup_cons in Hnd as [_ Hnd].
  rewrite !elem_of_cons. apply elem_of_cons in Hin as [<-|Hin]; simpl in *.
  - split_and!; auto. intros ->. apply Hn1. by left.
  - destruct (IH Hnd Hin) as (?&?&?). auto.
Qed.

(** A call that fails before its INVITE reaches the callee takes the callee
    out of use: the callee was reserved when the call was set up, only the caller
    is handed back, and no handler of the callee ever runs for that call. *)
Theorem failed_call_loses_callee n w w1 ps c d err w2 : tick_calls n w w1 ps ->
  (c, d) ∈ ps -> close_handler w1 c err = Some w2 -> is_free w d /\ ~ is_free w2 d.
Proof.
  intros [] Hin Hcl.
  destruct (parties_pair ps c d tc_nodup0 Hin) as (Hc&Hd&Hne).
  split; [by eapply Forall_forall in tc_were0|].
  assert (~ is_free w1 d) as Hbusy by (rewrite tc_free0; tauto).
  intros (x&Hx&Hf). apply Hbusy. revert Hcl. unfold close_handler, with_mgr, mark_ua_not_in_call.
  destruct (Z.eqb_spec c 0) as [->|_].
  { destruct (err =? ECONNRESET); simpl; by rewrite (wo_null w1 tc_ok0). }
  destruct (us w1 !! c) as [y|] eqn:Hy; [|done]. simpl.
  set (w3 := if _ =? _ then _ else _). intros E.
  assert (us w3 = us w1 /\ free_set (mgr w3) = <[_name y := c]> (free_set (mgr w1))) as [F1 F2].
  { unfold w3. destruct (_ =? _); simpl; unfold free_set; simpl; by rewrite um_contents_insert. }
  rewrite F1, Hy in E. simplify_eq/=. rewrite F1, lookup_insert_ne in Hx by done.
  exists x. split; [done|]. rewrite F2 in Hf.
  apply lookup_insert_Some in Hf as [[_ <-]|[_ Hf]]; done.
Qed.

(** An INVITE for a user that never registered makes the program dereference a
    null pointer: [get_ua_by_name] invents a null entry for the unknown name. *)
Theorem unknown_user_invite w name res : world_ok w -> all_set (mgr w) !! name = None ->
  static_connect_handler w name res = None.
Proof. apply unknown_invite_none. Qed.

(** A successful re-registration puts a user agent that is in a call back
    among those free for calls. *)
Theorem reregistration_frees_busy w u a : world_ok w -> us w !! u = Some a -> sess a <> 0 ->
  exists w', register_handler w u (Some 200) = Some w' /\ is_free w' u /\
    exists a', us w' !! u = Some a' /\ sess a' <> 0.
Proof.
  intros Hw Ha Hs. unfold register_handler, with_mgr, mark_ua_registered. simpl.
  rewrite Ha. simpl. eexists. split; [done|]. split; [|by exists a].
  exists a. split; [done|]. unfold free_set. simpl. by rewrite um_contents_insert, lookup_insert_eq.
Qed.

End App.

(** *** Witnesses: three users, ten registrations a second, 100 calls a second *)

Definition ex_rows : list (string * string * string) :=
  [("sip:a", "a", "x"); ("sip:b", "b", "x"); ("sip:c", "c", "x")]%string.

Definition ex_start : app (M := gmap string Z) :=
  main_init 7 "sip:proxy" ex_rows (fun i => Z.of_nat i + 100)
    (fun i => (Z.of_nat i + 1000, Z.of_nat i + 2000)) 5 50000 10 100 1.

Lemma ex_started : started ex_start.
Proof. constructor; [by vm_compute|intros i j; lia|intros i; lia]. Qed.

(** The events: all three register and are confirmed, the scheduler starts, and
    its tick after 10 ms makes a call, which ends. *)
Definition ex_events : list event :=
  [RegTick 51000 0 (fun i => Some (Z.of_nat i + 1)); RegisterResp 100 (Some 200);
   RegisterResp 101 (Some 200); RegisterResp 102 (Some 200);
   RegTick 51010 60000 (fun _ => None); CallTick 60010 (fun _ => (9, Some 77));
   Close 101 ECONNRESET].

Definition ex_step (a : app) (e : event) : app := default a (run_event a e).
Definition ex_at (n : nat) : app := foldl ex_step ex_start (take n ex_events).

Lemma ex_reach a e : reachable ex_start a -> deliverable a e -> is_Some (run_event a e) ->
  reachable ex_start (ex_step a e).
Proof.
  intros Hr He [a' E]. apply (reach_event _ a e); [done..|]. unfold ex_step. by rewrite E.
Qed.


Lemma ex_reachable5 : reachable ex_start (ex_at 5).
Proof.
  repeat (apply ex_reach; [| |eexists; by vm_compute]); [constructor|..].
  all: vm_compute; by repeat constructor.
Qed.

Lemma ex_world_ok : world_ok (aw (ex_at 5)).
Proof. apply ao_world. apply (started_ok ex_start); [apply ex_started|apply ex_reachable5]. Qed.

Definition ex_res : nat -> Z * option Z := fun _ => (9, Some 77).

(** The scheduler's tick after the three registrations: one call is made. *)
Example ex_calls : connects (aw (ex_at 6)) = [101] /\ init_call (st (aw (ex_at 6))) = 1 /\
  cleanup_on (ex_at 6) = true.
Proof. vm_compute. done. Qed.



Lemma phases_in_order_witness : regs (aw (ex_at 5)) = ues (aw (ex_at 5)) /\
  cleanup_on (ex_at 5) = false.
Proof.
  destruct (phases_in_order ex_start (ex_at 5) ex_started ex_reachable5) as (_&_&H&_).
  apply H. by vm_compute.
Defined.

Lemma call_tick_distinct_parties_witness : exists w' s' again ps,
  CallScheduler_act (aw (ex_at 5)) (scheduler (ex_at 5)) 60010 ex_res = Some (w', s', again) /\
  NoDup (parties ps) /\ Z.of_nat (length ps) <= 1.
Proof.
  destruct (call_tick_distinct_parties ex_start (ex_at 5) 60010 ex_res 1)
    as (w'&s'&again&ps&E&Hnd&_&_&Hle&_);
    [apply ex_started|apply ex_reachable5|by vm_compute|vm_compute; split; congruence|].
  exists w', s', again, ps. split; [exact E|]. split; [exact Hnd|]. exact Hle.
Defined.

Lemma registrar_tick_exact_witness : exists w',
  InitialRegistrar_act (aw ex_start) (registrar ex_start) 50200 (fun _ => Some 1) =
    Some (w', mk_ir (ir_timer (registrar ex_start)) 2 10, true) /\ regs w' = [100; 101].
Proof.
  destruct (registrar_tick_exact ex_start ex_start 50200 (fun _ => Some 1) 2)
    as (w'&E&Hr&_); [apply ex_started|constructor|by vm_compute..|].
  exists w'. split; [exact E|]. rewrite Hr. by vm_compute.
Defined.

Lemma ex_close w c err : world_ok w -> is_Some (us w !! c) -> exists w', close_handler w c err = Some w'.
Proof.
  intros Hw [y Hy]. unfold close_handler, with_mgr, mark_ua_not_in_call.
  destruct (c =? 0); [|rewrite Hy]; simpl; destruct (err =? ECONNRESET); simpl; rewrite Hy; by eexists.
Qed.

Lemma failed_call_loses_callee_witness : exists w1 w2 c d,
  call_loop 1 ex_res (aw (ex_at 5)) 0 = Some (w1, 1) /\ close_handler w1 c ETIMEDOUT = Some w2 /\
  is_free (aw (ex_at 5)) d /\ ~ is_free w2 d.
Proof.
  destruct (call_loop_ok 1 ex_res (aw (ex_at 5)) 0 ex_world_ok eq_refl) as (w1&ps&E&T).
  assert (1 = u64 (0 + Z.of_nat (length ps))) as Hl.
  { revert E. generalize (u64 (0 + Z.of_nat (length ps))). intros z.
    assert (snd <$> call_loop 1 ex_res (aw (ex_at 5)) 0 = Some 1) as H1 by by vm_compute.
    intros E. rewrite E in H1. by injection H1. }
  assert (ps = [] \/ exists p, ps = [p]) as [->|[[c d] ->]].
  { pose proof (tc_len _ _ _ _ T) as Hle. clear -Hle.
    destruct ps as [|p [|]]; [by left|right; by exists p|simpl in Hle; lia]. }
  { discriminate Hl. }
  pose proof (tc_were _ _ _ _ T) as Hw. apply Forall_cons in Hw as [(x&Hx&_) _].
  destruct (same_ids_lookup _ _ _ _ (fun v => eq_sym (k_ids _ _ (tc_keeps _ _ _ _ T) v)) Hx)
    as (y&Hy&_).
  destruct (ex_close w1 c ETIMEDOUT (tc_ok _ _ _ _ T)) as [w2 E2]; [by exists y|].
  exists w1, w2, c, d. split; [by rewrite E, <- Hl|]. split; [exact E2|].
  apply (failed_call_loses_callee 1 (aw (ex_at 5)) w1 [(c, d)] c d ETIMEDOUT w2 T); [by left|exact E2].
Defined.

Lemma unknown_user_invite_witness :
  static_connect_handler (aw (ex_at 5)) "7-ue9" (Some 8) = None.
Proof. apply (unknown_user_invite (aw (ex_at 5)) "7-ue9" (Some 8) ex_world_ok). by vm_compute. Defined.

(** After the call to user agent 101 arrives there, 101 registers again. *)
Definition ex_busy : world := default (aw (ex_at 5))
  (static_connect_handler (aw (ex_at 5)) "7-ue1" (Some 8)).

Lemma ex_busy_ok : world_ok ex_busy.
Proof.
  destruct (static_connect_handler_ok (aw (ex_at 5)) "7-ue1" (Some 8) ex_world_ok)
    as (w'&E&Hw&_&_); [eexists; by vm_compute|].
  unfold ex_busy. by rewrite E.
Qed.

Lemma reregistration_frees_busy_witness :
  exists w', register_handler ex_busy 101 (Some 200) = Some w' /\ is_free w' 101 /\
    exists a', us w' !! 101 = Some a' /\ sess a' <> 0.
Proof.
  assert (exists a, us ex_busy !! 101 = Some a /\ sess a <> 0) as (a&Ha&Hs).
  { eexists. split; [vm_compute; reflexivity|vm_compute; congruence]. }
  exact (reregistration_frees_busy ex_busy 101 a ex_busy_ok Ha Hs).
Defined.

End Sipperf.
