(* ===== verification/Mem.v ===== *)
(** * Reference-counted memory: src/libre/src/mem/mem.c

    The heap of memory objects with the debug accounting ([MEM_DEBUG] is on in
    the build): header, list of live objects, statistics and the out-of-memory
    threshold.  What [malloc] and [realloc] return is an argument; [None] is
    undefined behaviour (an access to an object that is not allocated). *)
From S2P Require Import Prelude.

Module Mem.

(** ** State *)

(** [struct mem] and the object behind it. *)
Record block (P : Type) := mk_block {
  nrefs : Z;        (** uint32_t *)
  dh : Z;           (** destroy handler, 0 when there is none *)
  bsize : Z;        (** size_t *)
  payload : P }.
Arguments mk_block {P}. Arguments nrefs {P}. Arguments dh {P}.
Arguments bsize {P}. Arguments payload {P}.

Record memstat := mk_stat {
  bytes_cur : Z; bytes_peak : Z; blocks_cur : Z; blocks_peak : Z;
  size_min : Z; size_max : Z }.

Record mem (P : Type) := mk_mem {
  blocks : gmap Z (block P);
  meml : list Z;          (** addresses of the live objects, in list order *)
  stat : memstat;
  threshold : Z }.        (** ssize_t *)
Arguments mk_mem {P}. Arguments blocks {P}. Arguments meml {P}.
Arguments stat {P}. Arguments threshold {P}.

Definition SIZE_MAX : Z := 18446744073709551615.
Definition sizeof_mem : Z := 64.

(** The static initialisers. *)
Definition mem_init {P} : mem P :=
  mk_mem ∅ [] (mk_stat 0 0 0 0 SIZE_MAX 0) (-1).

(** The macros of the statistics. *)
Definition STAT_ALLOC (s : memstat) (size : Z) : memstat :=
  let cur := u64 (bytes_cur s + size) in
  let n := u64 (blocks_cur s + 1) in
  mk_stat cur (Z.max cur (bytes_peak s)) n (Z.max n (blocks_peak s))
    (Z.min (size_min s) size) (Z.max (size_max s) size).

Definition STAT_REALLOC (s : memstat) (oldsize size : Z) : memstat :=
  let cur := u64 (bytes_cur s + u64 (size - oldsize)) in
  mk_stat cur (Z.max cur (bytes_peak s)) (blocks_cur s) (blocks_peak s)
    (Z.min (size_min s) size) (Z.max (size_max s) size).

Definition STAT_DEREF (s : memstat) (size : Z) : memstat :=
  mk_stat (u64 (bytes_cur s - size)) (bytes_peak s) (u64 (blocks_cur s - 1))
    (blocks_peak s) (size_min s) (size_max s).

(** ** Operations *)

Section Ops.
Context {P : Type}.
Implicit Types m : mem P.

(** Simulated out-of-memory: [threshold] compared as [size_t]. *)
Definition over_threshold m : bool :=
  negb (threshold m =? -1) && (u64 (threshold m) <=? blocks_cur (stat m)).

(** [r]: what [malloc] returns, [None] for a null pointer; [init]: the content of
    the new object. *)
Definition mem_alloc m (r : option Z) (size dh : Z) (init : P) : option (Z * mem P) :=
  if over_threshold m then Some (0, m)
  else
    match r with
    | None => Some (0, m)
    | Some p =>
        if SIZE_MAX - sizeof_mem <? size then None
        else Some (p, mk_mem (<[p := mk_block 1 dh size init]> (blocks m)) (meml m ++ [p])
                        (STAT_ALLOC (stat m) size) (threshold m))
    end.

(** [mem_zalloc] differs in the content only: [zero] is the object of [size] zero
    bytes. *)
Definition mem_zalloc m (r : option Z) (size dh : Z) (zero : P) : option (Z * mem P) :=
  mem_alloc m r size dh zero.

(** [r]: what [realloc] returns; [move] is what it makes of the content. *)
Definition mem_realloc m (r : option Z) (data size : Z) (move : P -> P) :
    option (Z * mem P) :=
  if data =? 0 then Some (0, m)
  else
    b ← blocks m !! data;
    if (bsize b <? size) && over_threshold m then Some (0, m)
    else
      let unlinked := filter (fun q => q <> data) (meml m) in
      match r with
      | None => Some (0, mk_mem (blocks m) (unlinked ++ [data]) (stat m) (threshold m))
      | Some p =>
          if SIZE_MAX - sizeof_mem <? size then None
          else Some (p, mk_mem
            (<[p := mk_block (nrefs b) (dh b) size (move (payload b))]>
               (delete data (blocks m)))
            (unlinked ++ [p]) (STAT_REALLOC (stat m) (bsize b) size) (threshold m))
      end.

Definition mem_reallocarray m (r : option Z) (ptr nmemb membsize dh : Z) (init : P)
    (move : P -> P) : option (Z * mem P) :=
  if negb (membsize =? 0) && (SIZE_MAX / membsize <? nmemb) then Some (0, m)
  else
    let tsize := u64 (nmemb * membsize) in
    if ptr =? 0 then mem_alloc m r tsize dh init else mem_realloc m r ptr tsize move.

Definition set_nrefs (b : block P) (n : Z) : block P :=
  mk_block n (dh b) (bsize b) (payload b).

Definition upd_block m (p : Z) (b : block P) : mem P :=
  mk_mem (<[p := b]> (blocks m)) (meml m) (stat m) (threshold m).

Definition mem_ref m (data : Z) : option (Z * mem P) :=
  if data =? 0 then Some (0, m)
  else b ← blocks m !! data; Some (data, upd_block m data (set_nrefs b (u32 (nrefs b + 1)))).

(** [run h data m]: the effect of the destroy handler [h]. *)
Definition mem_deref (run : Z -> Z -> mem P -> option (mem P)) m (data : Z) :
    option (mem P) :=
  if data =? 0 then Some m
  else
    b ← blocks m !! data;
    let m1 := upd_block m data (set_nrefs b (u32 (nrefs b - 1))) in
    if 0 <? u32 (nrefs b - 1) then Some m1
    else
      m2 ← (if dh b =? 0 then Some m1 else run (dh b) data m1);
      b2 ← blocks m2 !! data;
      if 0 <? nrefs b2 then Some m2
      else Some (mk_mem (delete data (blocks m2)) (filter (fun q => q <> data) (meml m2))
                   (STAT_DEREF (stat m2) (bsize b2)) (threshold m2)).

Definition mem_nrefs m (data : Z) : option Z :=
  if data =? 0 then Some 0 else b ← blocks m !! data; Some (nrefs b).

Definition mem_threshold_set m (n : Z) : mem P :=
  mk_mem (blocks m) (meml m) (stat m) n.

Definition mem_get_stat m : memstat := stat m.

(** ** Accounting *)

Definition sizes (bs : gmap Z (block P)) (l : list Z) : Z :=
  foldr (fun p a => (default 0 (bsize <$> bs !! p)) + a) 0 l.

Definition footprint m : Z :=
  sizes (blocks m) (meml m) + sizeof_mem * Z.of_nat (length (meml m)).

Record mem_ok m : Prop := {
  mk_null : blocks m !! 0 = None;
  mk_nodup : NoDup (meml m);
  mk_live p : p ∈ meml m <-> is_Some (blocks m !! p);
  mk_pos p b : blocks m !! p = Some b -> 0 <= bsize b;
  mk_fit : footprint m <= SIZE_MAX;
  mk_bytes : bytes_cur (stat m) = sizes (blocks m) (meml m);
  mk_blocks : blocks_cur (stat m) = Z.of_nat (length (meml m));
  mk_peak : bytes_cur (stat m) <= bytes_peak (stat m) /\
            blocks_cur (stat m) <= blocks_peak (stat m) }.

(** What the C library promises: a new object is not null, does not overlap a
    live one, and the live objects fit in the address space. *)
Definition malloc_ok m (r : option Z) (size : Z) : Prop :=
  forall q, r = Some q -> q <> 0 /\ blocks m !! q = None /\ 0 <= size /\
    footprint m + sizeof_mem + size <= SIZE_MAX.
Definition realloc_ok m (r : option Z) (data size : Z) : Prop :=
  forall q, r = Some q -> q <> 0 /\ (q = data \/ blocks m !! q = None) /\ 0 <= size /\
    footprint m + size <= SIZE_MAX + default 0 (bsize <$> blocks m !! data).

Lemma mem_init_ok : mem_ok mem_init.
Proof.
  split; simpl; try done; [constructor|].
  intros p. rewrite lookup_empty. split; [by intros ?%elem_of_nil|by intros []].
Qed.

Lemma sizes_app bs l1 l2 : sizes bs (l1 ++ l2) = sizes bs l1 + sizes bs l2.
Proof. induction l1 as [|x l1 IH]; simpl; [done|]. unfold sizes in *. lia. Qed.

Lemma sizes_ext bs bs' l : (forall p, p ∈ l -> bsize <$> bs !! p = bsize <$> bs' !! p) ->
  sizes bs l = sizes bs' l.
Proof.
  induction l as [|x l IH]; intros H; simpl; [done|]. rewrite (H x) by by left.
  f_equal. apply IH. intros p Hp. apply H. by right.
Qed.

Lemma sizes_remove bs l p b : NoDup l -> p ∈ l -> bs !! p = Some b ->
  sizes bs (filter (fun q => q <> p) l) = sizes bs l - bsize b.
Proof.
  intros Hnd Hin Hb. induction l as [|x l IH]; [by apply elem_of_nil in Hin|].
  apply NoDup_cons in Hnd as [Hx Hnd]. rewrite filter_cons.
  destruct (decide (x <> p)) as [Hne|Heq].
  - apply elem_of_cons in Hin as [->|Hin]; [done|]. simpl. rewrite IH by done. lia.
  - assert (x = p) as -> by (destruct (decide (x = p)); tauto).
    simpl. rewrite Hb. simpl. rewrite (filter_all _ l); [lia|].
    intros q Hq ->. done.
Qed.

Lemma length_remove l p : NoDup l -> p ∈ l ->
  Z.of_nat (length (filter (fun q : Z => q <> p) l)) = Z.of_nat (length l) - 1.
Proof.
  intros Hnd Hin. induction l as [|x l IH]; [by apply elem_of_nil in Hin|].
  apply NoDup_cons in Hnd as [Hx Hnd]. rewrite filter_cons.
  destruct (decide (x <> p)) as [Hne|Heq].
  - apply elem_of_cons in Hin as [->|Hin]; [done|]. simpl length. specialize (IH Hnd Hin). lia.
  - assert (x = p) as -> by (destruct (decide (x = p)); tauto).
    rewrite (filter_all _ l); [simpl; lia|]. intros q Hq ->. done.
Qed.

Lemma sizes_nonneg m l : mem_ok m -> 0 <= sizes (blocks m) l.
Proof.
  intros Hm. induction l as [|x l IH]; simpl; [done|].
  destruct (blocks m !! x) as [b|] eqn:E; simpl; [|lia].
  pose proof (mk_pos m Hm x b E). lia.
Qed.

(** A change of one block that keeps its size. *)
Lemma upd_block_ok m p b b' : mem_ok m -> blocks m !! p = Some b -> bsize b' = bsize b ->
  mem_ok (upd_block m p b').
Proof.
  intros [H0 Hnd Hl Hpos Hfit Hb Hn Hp] Hpb Hs.
  assert (sizes (<[p := b']> (blocks m)) (meml m) = sizes (blocks m) (meml m)) as E.
  { apply sizes_ext. intros q _. destruct (decide (q = p)) as [->|].
    - rewrite lookup_insert_eq, Hpb. simpl. by rewrite Hs.
    - by rewrite lookup_insert_ne by done. }
  split; simpl; try done.
  - apply lookup_insert_None. split; [done|]. intros ->. congruence.
  - intros q. rewrite Hl. destruct (decide (q = p)) as [->|].
    + rewrite lookup_insert_eq, Hpb. split; by eexists.
    + by rewrite lookup_insert_ne by done.
  - intros q c [[<- <-]|[_ Hq]]%lookup_insert_Some; [rewrite Hs|]; by eapply Hpos.
  - unfold footprint in *. simpl. by rewrite E.
  - by rewrite E.
Qed.

(** Putting the object [p] at the end of the list, in place of the others [l]. *)
Lemma append_ok m l bs p b st : mem_ok m -> NoDup l -> p ∉ l -> p <> 0 -> 0 <= bsize b ->
  (forall q, q ∈ l <-> is_Some (bs !! q)) -> bs ⊆ blocks m ->
  sizes (blocks m) l + bsize b + sizeof_mem * (Z.of_nat (length l) + 1) <= SIZE_MAX ->
  bytes_cur st = sizes (blocks m) l + bsize b -> blocks_cur st = Z.of_nat (length l) + 1 ->
  bytes_cur st <= bytes_peak st /\ blocks_cur st <= blocks_peak st ->
  mem_ok (mk_mem (<[p := b]> bs) (l ++ [p]) st (threshold m)).
Proof.
  intros Hm Hnd Hp Hp0 Hb Hl Hsub Hfit Hby Hbl Hpk.
  assert (sizes (<[p := b]> bs) (l ++ [p]) = sizes (blocks m) l + bsize b) as E.
  { rewrite sizes_app. simpl. rewrite lookup_insert_eq. simpl. rewrite Z.add_0_r. f_equal.
    apply sizes_ext. intros q Hq. rewrite lookup_insert_ne by (by intros ->).
    apply Hl in Hq as [c Hc]. rewrite Hc. by rewrite (lookup_weaken _ _ _ _ Hc Hsub). }
  assert (Z.of_nat (length (l ++ [p])) = Z.of_nat (length l) + 1) as El.
  { rewrite length_app. simpl. lia. }
  split; unfold footprint; simpl; rewrite ?E, ?El; try done.
  - rewrite lookup_insert_ne by done. destruct (bs !! 0) as [c|] eqn:H0; [|done].
    pose proof (lookup_weaken _ _ _ _ H0 Hsub). rewrite (mk_null m Hm) in *. done.
  - apply NoDup_app. split; [done|]. split; [|by repeat constructor; intros ?%elem_of_nil].
    by intros y Hy ->%list_elem_of_singleton.
  - intros y. rewrite elem_of_app, list_elem_of_singleton, Hl.
    destruct (decide (y = p)) as [->|Hne].
    + rewrite lookup_insert_eq. split; [by eexists|by right].
    + rewrite lookup_insert_ne by done. split; [by intros [|]|by left].
  - intros q c [[<- <-]|[_ Hq]]%lookup_insert_Some; [done|].
    eapply (mk_pos m Hm). by eapply lookup_weaken.
Qed.

Lemma mem_alloc_ok m r size dh init : mem_ok m -> malloc_ok m r size ->
  exists p m', mem_alloc m r size dh init = Some (p, m') /\ mem_ok m' /\
    ((p = 0 /\ m' = m) \/
     (r = Some p /\ p <> 0 /\ blocks m !! p = None /\
      blocks m' = <[p := mk_block 1 dh size init]> (blocks m))).
Proof.
  intros Hm Hr. unfold mem_alloc.
  destruct (over_threshold m); [eexists _, _; split; [done|auto]|].
  destruct r as [p|]; [|eexists _, _; split; [done|auto]].
  destruct (Hr p eq_refl) as (Hp0 & Hp & Hsz & Hf).
  pose proof (sizes_nonneg m (meml m) Hm). pose proof Hm as [H0 Hnd Hl Hpos Hfit Hb Hn Hpk].
  unfold footprint, sizeof_mem in *.
  destruct (Z.ltb_spec (SIZE_MAX - 64) size); [lia|].
  eexists _, _. split; [done|]. split; [|right; by split_and!].
  unfold SIZE_MAX in *.
  apply append_ok; simpl; unfold sizeof_mem, SIZE_MAX; rewrite ?Hb, ?Hn, ?u64_small; try done; try lia.
  rewrite Hl, Hp. by intros [].
Qed.

(** The list without one live object. *)
Lemma unlinked_ok m p b : mem_ok m -> blocks m !! p = Some b ->
  let l := filter (fun q => q <> p) (meml m) in
  NoDup l /\ (forall q, q ∈ l <-> is_Some (delete p (blocks m) !! q)) /\
  Z.of_nat (length l) = Z.of_nat (length (meml m)) - 1 /\
  sizes (blocks m) l = sizes (blocks m) (meml m) - bsize b.
Proof.
  intros [H0 Hnd Hl _ _ _ _ _] Hb l. assert (p ∈ meml m) as Hin by (apply Hl; by eexists).
  split; [by apply NoDup_filter|]. split; [|split; [by apply length_remove|by apply sizes_remove]].
  intros q. unfold l. rewrite list_elem_of_filter, Hl, lookup_delete_is_Some.
  split; intros [? ?]; by split; auto.
Qed.

Lemma mem_realloc_ok m r data b size move : mem_ok m -> data <> 0 ->
  blocks m !! data = Some b -> realloc_ok m r data size ->
  exists p m', mem_realloc m r data size move = Some (p, m') /\ mem_ok m' /\
    ((p = 0 /\ blocks m' = blocks m) \/
     (r = Some p /\ p <> 0 /\ (p = data \/ blocks m !! p = None) /\
      blocks m' = <[p := mk_block (nrefs b) (dh b) size (move (payload b))]>
                    (delete data (blocks m)))).
Proof.
  intros Hm Hd Hb Hr. unfold mem_realloc. destruct (Z.eqb_spec data 0); [done|].
  rewrite Hb. simpl.
  destruct (_ && _); [eexists _, _; split; [done|auto]|].
  destruct (unlinked_ok m data b Hm Hb) as (Hnd&Hl&Hlen&Hsz).
  pose proof (sizes_nonneg m (filter (fun q => q <> data) (meml m)) Hm) as Hnn.
  pose proof (mk_pos m Hm data b Hb) as Hbp.
  pose proof Hm as [H0 _ _ _ Hfit Hby Hn Hpk].
  unfold footprint, sizeof_mem in *.
  destruct r as [p|].
  - destruct (Hr p eq_refl) as (Hp0&Hp&Hs&Hf). rewrite Hb in Hf. simpl in Hf.
    unfold footprint, sizeof_mem in *.
    destruct (Z.ltb_spec (SIZE_MAX - 64) size); [lia|].
    eexists _, _. split; [done|]. split; [|right; by split_and!].
    unfold SIZE_MAX in *.
    assert (u64 (bytes_cur (stat m) + u64 (size - bsize b)) =
            sizes (blocks m) (filter (fun q => q <> data) (meml m)) + size) as E.
    { unfold u64. rewrite Zplus_mod_idemp_r, Hby. transitivity (u64 (sizes (blocks m)
        (filter (fun q => q <> data) (meml m)) + size)); [unfold u64; f_equal; lia|].
      apply u64_small. lia. }
    apply append_ok; simpl; rewrite ?E; try done; try lia.
    + rewrite Hl, lookup_delete_is_Some. intros [? [c Hc]]. destruct Hp; congruence.
    + apply delete_subseteq.
    + unfold sizeof_mem, SIZE_MAX. lia.
  - eexists _, _. split; [done|]. split; [|by auto].
    replace (blocks m) with (<[data := b]> (delete data (blocks m))) at 1
      by (rewrite insert_delete_eq; by apply insert_id).
    apply append_ok; simpl; try done; try lia.
    + rewrite Hl, lookup_delete_eq. by intros [].
    + apply delete_subseteq.
    + unfold sizeof_mem. lia.
Qed.

Lemma free_ok m p b : mem_ok m -> blocks m !! p = Some b ->
  mem_ok (mk_mem (delete p (blocks m)) (filter (fun q => q <> p) (meml m))
            (STAT_DEREF (stat m) (bsize b)) (threshold m)).
Proof.
  intros Hm Hb. destruct (unlinked_ok m p b Hm Hb) as (Hnd&Hl&Hlen&Hsz).
  pose proof (sizes_nonneg m (filter (fun q => q <> p) (meml m)) Hm) as Hnn.
  pose proof (mk_pos m Hm p b Hb) as Hbp. pose proof Hm as [H0 _ _ Hpos Hfit Hby Hn Hpk].
  assert (sizes (delete p (blocks m)) (filter (fun q => q <> p) (meml m)) =
          sizes (blocks m) (filter (fun q => q <> p) (meml m))) as E.
  { apply sizes_ext. intros y [? _]%list_elem_of_filter. by rewrite lookup_delete_ne. }
  unfold footprint, sizeof_mem, SIZE_MAX in *.
  assert (u64 (bytes_cur (stat m) - bsize b) = bytes_cur (stat m) - bsize b) as E1
    by (apply u64_small; lia).
  assert (u64 (blocks_cur (stat m) - 1) = blocks_cur (stat m) - 1) as E2
    by (apply u64_small; lia).
  split; unfold footprint, sizeof_mem, SIZE_MAX; simpl; rewrite ?E, ?E1, ?E2; try done; try lia.
  - apply lookup_delete_None. by right.
  - intros q c [_ Hq]%lookup_delete_Some. by eapply Hpos.
Qed.

(** What a destroy handler must do: keep the heap well formed, and leave alone the
    object being destroyed (it may take a new reference to it). *)
Definition handler_ok (run : Z -> Z -> mem P -> option (mem P)) : Prop :=
  forall h p m b, mem_ok m -> blocks m !! p = Some b ->
    exists m', run h p m = Some m' /\ mem_ok m' /\ is_Some (blocks m' !! p).

Lemma mem_deref_ok run m data : handler_ok run -> mem_ok m ->
  (data <> 0 -> is_Some (blocks m !! data)) ->
  exists m', mem_deref run m data = Some m' /\ mem_ok m'.
Proof.
  intros Hrun Hm Hd. unfold mem_deref. destruct (Z.eqb_spec data 0); [by exists m|].
  destruct (Hd n) as [b Hb]. rewrite Hb. simpl.
  set (m1 := upd_block m data _).
  assert (mem_ok m1) as Hm1 by by apply (upd_block_ok _ _ b).
  destruct (0 <? _); [by exists m1|].
  assert (exists m2, (if dh b =? 0 then Some m1 else run (dh b) data m1) = Some m2 /\
    mem_ok m2 /\ is_Some (blocks m2 !! data)) as (m2&E&Hm2&[b2 Hb2]).
  { destruct (dh b =? 0).
    - exists m1. split_and!; try done. simpl. rewrite lookup_insert_eq. by eexists.
    - eapply Hrun; [done|]. simpl. apply lookup_insert_eq. }
  rewrite E. simpl. rewrite Hb2. simpl. destruct (0 <? nrefs b2); [by exists m2|].
  eexists. split; [done|]. by apply free_ok.
Qed.

(** *** Runs of the allocator *)

Inductive mem_op :=
| OpAlloc (r : option Z) (size dh : Z) (init : P)
| OpRealloc (r : option Z) (data size : Z) (move : P -> P)
| OpRef (data : Z)
| OpDeref (data : Z)
| OpThreshold (n : Z).

Definition run_op (run : Z -> Z -> mem P -> option (mem P)) m (o : mem_op) : option (mem P) :=
  match o with
  | OpAlloc r size dh init => snd <$> mem_alloc m r size dh init
  | OpRealloc r data size move => snd <$> mem_realloc m r data size move
  | OpRef data => snd <$> mem_ref m data
  | OpDeref data => mem_deref run m data
  | OpThreshold n => Some (mem_threshold_set m n)
  end.

(** Operations are applied to live objects, and the C library keeps its promises. *)
Definition op_ok m (o : mem_op) : Prop :=
  match o with
  | OpAlloc r size _ _ => malloc_ok m r size
  | OpRealloc r data size _ => data <> 0 /\ is_Some (blocks m !! data) /\ realloc_ok m r data size
  | OpRef data | OpDeref data => is_Some (blocks m !! data)
  | OpThreshold _ => True
  end.

Inductive heap_reachable (run : Z -> Z -> mem P -> option (mem P)) : mem P -> Prop :=
| heap_init : heap_reachable run mem_init
| heap_step m o m' : heap_reachable run m -> op_ok m o -> run_op run m o = Some m' ->
    heap_reachable run m'.

Lemma run_op_ok run m o : handler_ok run -> mem_ok m -> op_ok m o ->
  exists m', run_op run m o = Some m' /\ mem_ok m'.
Proof.
  intros Hrun Hm. destruct o as [r size h init|r data size move|data|data|n]; simpl.
  - intros Hr. destruct (mem_alloc_ok m r size h init Hm Hr) as (p&m'&E&Hm'&_).
    rewrite E. by exists m'.
  - intros (Hd&[b Hb]&Hr).
    destruct (mem_realloc_ok m r data b size move Hm Hd Hb Hr) as (p&m'&E&Hm'&_).
    rewrite E. by exists m'.
  - intros [b Hb]. unfold mem_ref. destruct (data =? 0); [by exists m|]. rewrite Hb. simpl.
    eexists. split; [done|]. by apply (upd_block_ok _ _ b).
  - intros [b Hb]. by apply mem_deref_ok.
  - intros _. eexists. split; [done|]. by destruct Hm.
Qed.

Lemma heap_reachable_ok run m : handler_ok run -> heap_reachable run m -> mem_ok m.
Proof.
  intros Hrun. induction 1 as [|m o m' _ IH Ho E]; [apply mem_init_ok|].
  destruct (run_op_ok run m o Hrun IH Ho) as (m2&E2&?). congruence.
Qed.

Lemma set_nrefs_twice b n1 n2 : set_nrefs (set_nrefs b n1) n2 = set_nrefs b n2.
Proof. done. Qed.

Lemma upd_block_twice m p b1 b2 : upd_block (upd_block m p b1) p b2 = upd_block m p b2.
Proof. unfold upd_block. simpl. by rewrite insert_insert_eq. Qed.

Lemma mem_ref_iter m p b n : p <> 0 -> blocks m !! p = Some b ->
  0 <= nrefs b -> nrefs b + Z.of_nat n < 4294967296 ->
  Nat.iter n (fun o => o ≫= fun m => snd <$> mem_ref m p) (Some m) =
  Some (upd_block m p (set_nrefs b (nrefs b + Z.of_nat n))).
Proof.
  intros Hp Hb H0 Hn. induction n as [|n IH].
  - simpl. rewrite Z.add_0_r. unfold upd_block, set_nrefs.
    rewrite insert_id by (rewrite Hb; by destruct b). by destruct m.
  - rewrite Nat.iter_succ, IH by lia. simpl. unfold mem_ref.
    destruct (Z.eqb_spec p 0); [done|]. simpl. rewrite lookup_insert_eq. simpl.
    rewrite upd_block_twice. do 2 f_equal. simpl. rewrite set_nrefs_twice. f_equal.
    rewrite u32_small; lia.
Qed.

Lemma mem_deref_iter run m p b n : p <> 0 -> blocks m !! p = Some b ->
  Z.of_nat n < nrefs b < 4294967296 ->
  Nat.iter n (fun o => o ≫= fun m => mem_deref run m p) (Some m) =
  Some (upd_block m p (set_nrefs b (nrefs b - Z.of_nat n))).
Proof.
  intros Hp Hb Hn. induction n as [|n IH].
  - simpl. rewrite Z.sub_0_r. unfold upd_block, set_nrefs.
    rewrite insert_id by (rewrite Hb; by destruct b). by destruct m.
  - rewrite Nat.iter_succ, IH by lia. simpl. unfold mem_deref.
    destruct (Z.eqb_spec p 0); [done|]. simpl. rewrite lookup_insert_eq. simpl.
    rewrite u32_small by lia. destruct (Z.ltb_spec 0 (nrefs b - Z.of_nat n - 1)); [|lia].
    rewrite upd_block_twice. do 2 f_equal. rewrite set_nrefs_twice. f_equal. lia.
Qed.

(** ** Properties *)

(** C34: the accounting is exact: after any sequence of allocations, reallocations,
    references, dereferences and threshold changes, successful or not, the list
    of objects holds exactly the live ones, once each, and the statistics are
    their number and total size, never above the recorded peaks; every further
    operation on a live object is defined. *)
Theorem mem_accounting_exact run m : handler_ok run -> heap_reachable run m ->
  NoDup (meml m) /\ (forall p, p ∈ meml m <-> is_Some (blocks m !! p)) /\
  blocks_cur (mem_get_stat m) = Z.of_nat (length (meml m)) /\
  bytes_cur (mem_get_stat m) = sizes (blocks m) (meml m) /\
  bytes_cur (mem_get_stat m) <= bytes_peak (mem_get_stat m) /\
  blocks_cur (mem_get_stat m) <= blocks_peak (mem_get_stat m) /\
  forall o, op_ok m o -> is_Some (run_op run m o).
Proof.
  intros Hrun Hr. pose proof (heap_reachable_ok run m Hrun Hr) as Hm.
  destruct (mk_peak m Hm). split_and!; try done; try apply Hm.
  intros o Ho. destruct (run_op_ok run m o Hrun Hm Ho) as (m'&->&_). by eexists.
Qed.

(** Reference counting: after [n] calls of [mem_ref] an object survives [n]
    calls of [mem_deref], which restore the heap as it was without running its
    destroy handler; one more call runs the handler exactly once and frees the
    object (when the handler takes no new reference). *)
Theorem ref_deref_balance run m p b n m2 b2 : mem_ok m -> blocks m !! p = Some b ->
  nrefs b = 1 -> Z.of_nat n < 4294967295 ->
  (if dh b =? 0 then Some (upd_block m p (set_nrefs b 0))
   else run (dh b) p (upd_block m p (set_nrefs b 0))) = Some m2 ->
  blocks m2 !! p = Some b2 -> nrefs b2 = 0 ->
  let refs := Nat.iter n (fun o => o ≫= fun m => snd <$> mem_ref m p) in
  let derefs := Nat.iter n (fun o => o ≫= fun m => mem_deref run m p) in
  derefs (refs (Some m)) = Some m /\
  mem_deref run m p = Some (mk_mem (delete p (blocks m2))
    (filter (fun q => q <> p) (meml m2)) (STAT_DEREF (stat m2) (bsize b2)) (threshold m2)).
Proof.
  intros Hm Hb H1 Hn Hrun Hb2 H2 refs derefs.
  assert (p <> 0) as Hp by (intros ->; rewrite (mk_null m Hm) in Hb; done).
  split.
  - unfold refs, derefs. rewrite (mem_ref_iter m p b) by (done || lia).
    rewrite (mem_deref_iter run _ p (set_nrefs b (nrefs b + Z.of_nat n))).
    + rewrite upd_block_twice, set_nrefs_twice. simpl.
      replace (nrefs b + Z.of_nat n - Z.of_nat n) with (nrefs b) by lia.
      unfold upd_block, set_nrefs. rewrite insert_id by (rewrite Hb; by destruct b).
      by destruct m.
    + done.
    + apply lookup_insert_eq.
    + simpl. lia.
  - unfold mem_deref. destruct (Z.eqb_spec p 0); [done|]. rewrite Hb. simpl.
    rewrite H1. change (u32 (1 - 1)) with 0. simpl. rewrite Hrun. simpl.
    rewrite Hb2. simpl. by rewrite H2.
Qed.

End Ops.

(** *** Witnesses *)

Definition ex_mem : mem Z := default mem_init (snd <$> mem_alloc mem_init (Some 4096) 8 0 7).

Lemma ex_handler : handler_ok (fun _ _ (m : mem Z) => Some m).
Proof. intros h p m b Hm Hb. exists m. split_and!; [done..|by eexists]. Qed.

Lemma ex_mem_reach : heap_reachable (fun _ _ m => Some m) ex_mem.
Proof.
  apply (heap_step _ mem_init (OpAlloc (Some 4096) 8 0 7)); [constructor| |by vm_compute].
  intros q [= <-]. unfold footprint, SIZE_MAX, sizeof_mem. simpl. by rewrite lookup_empty.
Qed.

Lemma mem_accounting_exact_witness :
  blocks_cur (mem_get_stat ex_mem) = 1 /\ bytes_cur (mem_get_stat ex_mem) = 8.
Proof.
  destruct (mem_accounting_exact _ ex_mem ex_handler ex_mem_reach) as (_&_&E1&E2&_).
  split; [exact E1|exact E2].
Defined.

Lemma ref_deref_balance_witness :
  Nat.iter 3 (fun o => o ≫= fun m => mem_deref (fun _ _ m => Some m) m 4096)
    (Nat.iter 3 (fun o => o ≫= fun m => snd <$> mem_ref m 4096) (Some ex_mem)) = Some ex_mem /\
  (blocks <$> mem_deref (fun _ _ m => Some m) ex_mem 4096) = Some ∅.
Proof.
  destruct (ref_deref_balance (fun _ _ m => Some m) ex_mem 4096 (mk_block 1 0 8 7) 3
    (upd_block ex_mem 4096 (mk_block 0 0 8 7)) (mk_block 0 0 8 7)) as [E1 E2];
    [exact (heap_reachable_ok _ _ ex_handler ex_mem_reach)|by vm_compute..|].
  split; [exact E1|]. rewrite E2. by vm_compute.
Defined.

End Mem.
