(* ===== verification/Pl.v ===== *)
(** * Pointer-length strings: src/libre/src/fmt/pl.c and ch.c

    A [struct pl] is an address and the bytes found there; its length is the
    length of the list.  A pointer to a [struct pl] is an [option pl], [None]
    for a null pointer.  Bytes are integers in [0, 255]; [char] is signed. *)
From S2P Require Import Prelude.
From Stdlib Require Import SpecFloat.

Module Pl.

Record pl := mk_pl { pl_p : Z; pl_s : list Z }.

Definition pl_l (x : pl) : Z := Z.of_nat (length (pl_s x)).
Definition pl_null : pl := mk_pl 0 [].

(** A null-terminated string is represented by the bytes before its terminator. *)
Definition no_nul (l : list Z) : Prop := Forall (fun c => c <> 0) l.

Lemma no_nul_check l : forallb (fun c => negb (c =? 0)) l = true -> no_nul l.
Proof. rewrite forallb_forall. intros H. apply Forall_forall. intros c Hc%list_elem_of_In%H. lia. Qed.

(** ** Conversions *)

(** [const uint8_t c = *--p - '0'], rejected above 9. *)
Definition dec_digit (c : Z) : option Z :=
  let d := u8 (s8 c - 48) in if 9 <? d then None else Some d.

Definition hex_digit (c : Z) : option Z :=
  let ch := s8 c in
  if (48 <=? ch) && (ch <=? 57) then Some (ch - 48)
  else if (65 <=? ch) && (ch <=? 70) then Some (ch - 65 + 10)
  else if (97 <=? ch) && (ch <=? 102) then Some (ch - 97 + 10)
  else None.

(** The loop of the four numeric conversions, from the last byte to the first. *)
Fixpoint num_loop (digit : Z -> option Z) (wrap : Z -> Z) (base : Z)
    (rev_bytes : list Z) (v mul : Z) : Z :=
  match rev_bytes with
  | [] => v
  | b :: r =>
      match digit b with
      | None => 0
      | Some c => num_loop digit wrap base r (wrap (v + wrap (mul * c))) (wrap (mul * base))
      end
  end.

Definition pl_num (digit : Z -> option Z) (wrap : Z -> Z) (base : Z) (x : option pl) : Z :=
  match x with
  | None => 0
  | Some x => if pl_p x =? 0 then 0 else num_loop digit wrap base (rev (pl_s x)) 0 1
  end.

Definition pl_u32 : option pl -> Z := pl_num dec_digit u32 10.
Definition pl_x32 : option pl -> Z := pl_num hex_digit u32 16.
Definition pl_u64 : option pl -> Z := pl_num dec_digit u64 10.
Definition pl_x64 : option pl -> Z := pl_num hex_digit u64 16.

(** [pl_float] in binary64 arithmetic; [first] holds for the byte at [pl->p]. *)
Definition f64_of_Z (z : Z) : spec_float := binary_normalize 53 1024 z 0 false.

Fixpoint float_loop (rev_bytes : list Z) (v mul : spec_float) (neg : bool) : spec_float :=
  match rev_bytes with
  | [] => if neg then SFopp v else v
  | b :: r =>
      let ch := s8 b in
      if (48 <=? ch) && (ch <=? 57) then
        float_loop r (SFadd 53 1024 v (SFmul 53 1024 mul (f64_of_Z (ch - 48))))
                   (SFmul 53 1024 mul (f64_of_Z 10)) neg
      else if ch =? 46 then float_loop r (SFdiv 53 1024 v mul) (f64_of_Z 1) neg
      else if (ch =? 45) && match r with [] => true | _ => false end
      then float_loop r v mul true
      else f64_of_Z 0
  end.

Definition pl_float (x : option pl) : spec_float :=
  match x with
  | None => f64_of_Z 0
  | Some x =>
      if pl_p x =? 0 then f64_of_Z 0
      else float_loop (rev (pl_s x)) (f64_of_Z 0) (f64_of_Z 1) false
  end.

Definition ch_hex (b : Z) : Z :=
  let ch := s8 b in
  if (48 <=? ch) && (ch <=? 57) then u8 (ch - 48)
  else if (65 <=? ch) && (ch <=? 70) then u8 (ch - 65 + 10)
  else if (97 <=? ch) && (ch <=? 102) then u8 (ch - 97 + 10)
  else 0.

(** ** Setting and copying *)

(** [str]: address and bytes of a null-terminated string. *)
Definition pl_set_str (x : option pl) (str : option pl) : option pl :=
  match x, str with
  | Some _, Some s => Some s
  | _, _ => x
  end.

Definition pl_isset (x : option pl) : bool :=
  match x with
  | Some x => negb (pl_p x =? 0) && negb (pl_l x =? 0)
  | None => false
  end.

(** [str] is the buffer before the call, [None] for a null pointer; the result
    is the error code and the buffer afterwards. *)
Definition pl_strcpy (x : option pl) (str : option (list Z)) (size : Z) :
    Z * option (list Z) :=
  match x, str with
  | Some x, Some b =>
      if (pl_p x =? 0) || (size =? 0) then (EINVAL, str)
      else
        let len := Z.to_nat (Z.min (pl_l x) (size - 1)) in
        (0, Some (take len (pl_s x) ++ [0] ++ drop (S len) b))
  | _, _ => (EINVAL, str)
  end.

(** [addr]: what [mem_alloc] returns, 0 when there is no memory. *)
Definition pl_strdup (dst : bool) (src : option pl) (addr : Z) : Z * option pl :=
  match src with
  | Some x =>
      if negb dst || (pl_p x =? 0) then (EINVAL, None)
      else if addr =? 0 then (ENOMEM, None)
      else (0, Some (mk_pl addr (pl_s x ++ [0])))
  | None => (EINVAL, None)
  end.

Definition pl_dup (dst : bool) (src : option pl) (addr : Z) : Z * option pl :=
  match src with
  | Some x =>
      if negb dst || (pl_p x =? 0) then (EINVAL, None)
      else if addr =? 0 then (ENOMEM, None)
      else (0, Some (mk_pl addr (pl_s x)))
  | None => (EINVAL, None)
  end.

(** ** Comparing *)

Definition memcmp_eq (a b : list Z) : bool := bool_decide (a = b).

(** [tolower] in the C locale. *)
Definition tolower (c : Z) : Z := if (65 <=? c) && (c <=? 90) then c + 32 else c.

(** [0 == strncasecmp(a, b, n)] for two blocks of [n] bytes. *)
Fixpoint strncasecmp_eq (a b : list Z) : bool :=
  match a, b with
  | x :: a, y :: b =>
      if tolower x =? tolower y then (x =? 0) || strncasecmp_eq a b else false
  | _, _ => true
  end.

(** The two comparisons share their shortcuts.  (The test [pl1 == pl2] is the
    case of one object, whose [p] equals itself.) *)
Definition pl_cmp_by (eq : list Z -> list Z -> bool) (pl1 pl2 : option pl) : Z :=
  match pl1, pl2 with
  | Some a, Some b =>
      if negb (pl_l a =? pl_l b) then EINVAL
      else if pl_l a =? 0 then 0
      else if pl_p a =? pl_p b then 0
      else if eq (pl_s a) (pl_s b) then 0 else EINVAL
  | _, _ => EINVAL
  end.

Definition pl_cmp : option pl -> option pl -> Z := pl_cmp_by memcmp_eq.
Definition pl_casecmp : option pl -> option pl -> Z := pl_cmp_by strncasecmp_eq.

Definition pl_strcmp (x str : option pl) : Z :=
  match x, str with
  | Some _, Some _ => pl_cmp x (pl_set_str (Some pl_null) str)
  | _, _ => EINVAL
  end.

Definition pl_strcasecmp (x str : option pl) : Z :=
  match x, str with
  | Some _, Some _ => pl_casecmp x (pl_set_str (Some pl_null) str)
  | _, _ => EINVAL
  end.

(** [casecmp], the comparison for platforms without [strings.h].  [LOWER] on the
    four bytes of a word sets bit 5 of each of them. *)
Definition LOWER (b : Z) : Z := Z.lor b 32.

Fixpoint words_eq (n : nat) (a b : list Z) : bool :=
  match n, a, b with
  | S n, a1 :: a2 :: a3 :: a4 :: a, b1 :: b2 :: b3 :: b4 :: b =>
      (LOWER a1 =? LOWER b1) && (LOWER a2 =? LOWER b2) && (LOWER a3 =? LOWER b3) &&
      (LOWER a4 =? LOWER b4) && words_eq n a b
  | _, _, _ => true
  end.

Fixpoint bytes_eq (a b : list Z) : bool :=
  match a, b with
  | x :: a, y :: b => (tolower x =? tolower y) && bytes_eq a b
  | _, _ => true
  end.

Definition casecmp (x : pl) (str : pl) : Z :=
  let aligned := (Z.land (pl_p x) 7 =? 0) && (Z.land (pl_p str) 7 =? 0) in
  let words := if aligned then (length (pl_s x) / 4)%nat else 0%nat in
  if words_eq words (pl_s x) (pl_s str) then
    if bytes_eq (drop (4 * words) (pl_s x)) (drop (4 * words) (pl_s str)) then 0 else EINVAL
  else EINVAL.

(** ** Searching *)

Fixpoint strchr_from (l : list Z) (p c : Z) : Z :=
  match l with
  | [] => 0
  | x :: l => if s8 x =? s8 c then p else strchr_from l (p + 1) c
  end.

Definition pl_strchr (x : option pl) (c : Z) : Z :=
  match x with None => 0 | Some x => strchr_from (pl_s x) (pl_p x) c end.

(** ** Specifications *)

Definition is_byte (b : Z) : Prop := 0 <= b < 256.
Definition bytes (l : list Z) : Prop := Forall is_byte l.

(** The number a digit string denotes, most significant digit first. *)
Fixpoint value_from (digit : Z -> option Z) (base acc : Z) (l : list Z) : option Z :=
  match l with
  | [] => Some acc
  | b :: l => d ← digit b; value_from digit base (acc * base + d) l
  end.
Definition value digit base l := value_from digit base 0 l.

Lemma value_from_app digit base acc l b :
  value_from digit base acc (l ++ [b]) =
  (v ← value_from digit base acc l; d ← digit b; Some (v * base + d)).
Proof.
  revert acc. induction l as [|x l IH]; intros acc; simpl.
  - by destruct (digit b).
  - destruct (digit x); simpl; [apply IH|done].
Qed.

(** The code's loop, from the least significant digit, computes the same number
    modulo the width. *)
Lemma num_loop_value digit (m base : Z) l v mul : 0 < m ->
  (forall b, b ∈ l -> is_Some (digit b)) ->
  forall x, value digit base l = Some x ->
  num_loop digit (fun z => z mod m) base (rev l) (v mod m) (mul mod m) = (v + mul * x) mod m.
Proof.
  intros Hm. revert v mul. induction l as [|b l IH] using rev_ind; intros v mul Hd x Hx.
  - injection Hx as <-. simpl. f_equal. lia.
  - rewrite rev_app_distr. simpl. unfold value in *. rewrite value_from_app in Hx.
    destruct (value_from digit base 0 l) as [y|] eqn:Hy; [|done]. simpl in Hx.
    destruct (digit b) as [d|]; simplify_eq/=.
    assert ((v mod m + (mul mod m * d) mod m) mod m = (v + mul * d) mod m) as ->.
    { rewrite Zmult_mod_idemp_l. by rewrite <- Zplus_mod. }
    rewrite Zmult_mod_idemp_l.
    rewrite (IH (v + mul * d) (mul * base)) with (x := y); [f_equal; lia| |done].
    intros c Hc. apply Hd, elem_of_app. by left.
Qed.

Lemma num_loop_bad digit wrap base l : (exists b, b ∈ l /\ digit b = None) ->
  forall v mul, num_loop digit wrap base l v mul = 0.
Proof.
  induction l as [|x l IH]; intros (b&Hb&Hd) v mul; [by apply elem_of_nil in Hb|].
  simpl. destruct (digit x) as [d|] eqn:Ex; [|done].
  apply elem_of_cons in Hb as [->|Hb]; [congruence|]. eauto.
Qed.

Lemma value_bad digit base l acc : value_from digit base acc l = None <->
  exists b, b ∈ l /\ digit b = None.
Proof.
  revert acc. induction l as [|x l IH]; intros acc; simpl.
  - split; [done|]. by intros (b&?%elem_of_nil&_).
  - destruct (digit x) as [d|] eqn:Ex; simpl.
    + rewrite IH. split; intros (b&Hb&Hd).
      * exists b. split; [by right|done].
      * apply elem_of_cons in Hb as [->|Hb]; [congruence|eauto].
    + split; [|done]. intros _. exists x. split; [by left|done].
Qed.

Lemma pl_num_value digit m base x : 1 < m -> pl_p x <> 0 ->
  pl_num digit (fun z => z mod m) base (Some x) =
  match value digit base (pl_s x) with Some v => v mod m | None => 0 end.
Proof.
  intros Hm Hp. unfold pl_num. destruct (Z.eqb_spec (pl_p x) 0); [done|].
  destruct (value digit base (pl_s x)) as [v|] eqn:Hv.
  - assert (forall b, b ∈ pl_s x -> is_Some (digit b)) as Hd.
    { intros b Hb. destruct (digit b) eqn:Eb; [by eexists|].
      assert (value digit base (pl_s x) = None) as E by (apply value_bad; eauto). congruence. }
    pose proof (num_loop_value digit m base (pl_s x) 0 1 ltac:(lia) Hd v Hv) as E.
    rewrite Zmod_0_l, (Z.mod_small 1) in E by lia. rewrite E. f_equal. lia.
  - apply value_bad in Hv as (b&Hb&Hd). apply num_loop_bad. exists b.
    split; [by apply list_elem_of_In, (proj1 (in_rev _ _)), list_elem_of_In|done].
Qed.

Lemma strncasecmp_eq_spec a b : length a = length b -> no_nul a ->
  strncasecmp_eq a b = bool_decide (map tolower a = map tolower b).
Proof.
  revert b. induction a as [|x a IH]; intros [|y b] Hl Hn; try done. simpl.
  apply Forall_cons in Hn as [Hx Hn]. injection Hl as Hl.
  destruct (Z.eqb_spec (tolower x) (tolower y)) as [E|E].
  - destruct (Z.eqb_spec x 0); [done|]. simpl. rewrite (IH b Hl Hn).
    apply bool_decide_ext. split; congruence.
  - symmetry. apply bool_decide_eq_false. congruence.
Qed.

(** Two strings found at one address are the same string. *)
Definition coherent (a b : pl) : Prop :=
  pl_p a = pl_p b -> pl_l a = pl_l b -> pl_s a = pl_s b.

Lemma pl_cmp_by_spec eq a b : coherent a b ->
  (forall l, eq l l = true) -> (pl_l a = pl_l b -> pl_l a = 0 -> eq (pl_s a) (pl_s b) = true) ->
  pl_cmp_by eq (Some a) (Some b) =
  if (pl_l a =? pl_l b) && eq (pl_s a) (pl_s b) then 0 else EINVAL.
Proof.
  intros Hc Hr H0. unfold pl_cmp_by. destruct (Z.eqb_spec (pl_l a) (pl_l b)) as [El|]; [|done].
  simpl. destruct (Z.eqb_spec (pl_l a) 0); [by rewrite H0|].
  destruct (Z.eqb_spec (pl_p a) (pl_p b)) as [Ep|]; [|done].
  by rewrite (Hc Ep El), Hr.
Qed.

Lemma pl_l_eq a b : pl_l a = pl_l b <-> length (pl_s a) = length (pl_s b).
Proof. unfold pl_l. lia. Qed.

(** ** Properties *)

(** The four numeric conversions return the number the digits denote, modulo
    the width of the result, and 0 when any byte is not a digit. *)
Theorem pl_numbers x : pl_p x <> 0 ->
  pl_u32 (Some x) = match value dec_digit 10 (pl_s x) with Some v => u32 v | None => 0 end /\
  pl_x32 (Some x) = match value hex_digit 16 (pl_s x) with Some v => u32 v | None => 0 end /\
  pl_u64 (Some x) = match value dec_digit 10 (pl_s x) with Some v => u64 v | None => 0 end /\
  pl_x64 (Some x) = match value hex_digit 16 (pl_s x) with Some v => u64 v | None => 0 end.
Proof. intros Hp. split_and!; by apply pl_num_value. Qed.

(** A comparison with a constant, which lives at an address of its own. *)
Lemma pl_strcmp_text x k : pl_p x <> 1 ->
  (pl_strcmp (Some x) (Some (mk_pl 1 k)) =? 0) = bool_decide (pl_s x = k).
Proof.
  intros Hn. unfold pl_strcmp, pl_set_str, pl_cmp. rewrite pl_cmp_by_spec.
  - unfold memcmp_eq, pl_l. simpl.
    destruct (Z.eqb_spec (Z.of_nat (length (pl_s x))) (Z.of_nat (length k))); simpl.
    + by case_bool_decide.
    + symmetry. apply bool_decide_eq_false. congruence.
  - intros Hp. done.
  - intros l. by apply bool_decide_eq_true.
  - intros Hl H0. unfold pl_l in *. apply bool_decide_eq_true.
    simpl in *. destruct (pl_s x), k; simpl in *; done.
Qed.

Lemma pl_cmp_texts a b : coherent a b -> no_nul (pl_s a) ->
  (pl_cmp (Some a) (Some b) = 0 <-> pl_s a = pl_s b) /\
  (pl_casecmp (Some a) (Some b) = 0 <-> map tolower (pl_s a) = map tolower (pl_s b)).
Proof.
  intros Hc Hn.
  assert (forall l, pl_l a = pl_l b -> pl_l a = 0 -> l = pl_s a -> l = pl_s b) as H0.
  { intros l Hl H0 ->. apply pl_l_eq in Hl. unfold pl_l in H0.
    destruct (pl_s a), (pl_s b); simpl in *; done. }
  split.
  - unfold pl_cmp. rewrite pl_cmp_by_spec; [|done|intros; by apply bool_decide_eq_true|].
    2: { intros Hl Hz. apply bool_decide_eq_true. by apply (H0 (pl_s a)). }
    unfold memcmp_eq. destruct (Z.eqb_spec (pl_l a) (pl_l b)) as [El|El]; simpl.
    + case_bool_decide; done.
    + split; [done|]. intros E. unfold pl_l in El. congruence.
  - unfold pl_casecmp. rewrite pl_cmp_by_spec; [|done| |].
    2: { intros l. induction l as [|x l IH]; simpl; [done|].
         rewrite Z.eqb_refl, IH. apply orb_true_r. }
    2: { intros Hl Hz. rewrite <- (H0 (pl_s a)) by done. unfold pl_l in Hz.
         by destruct (pl_s a). }
    destruct (Z.eqb_spec (pl_l a) (pl_l b)) as [El|El]; simpl.
    + rewrite strncasecmp_eq_spec by (done || by apply pl_l_eq). case_bool_decide; done.
    + split; [done|]. intros E%(f_equal length). rewrite !length_map in E.
      by apply pl_l_eq in E.
Qed.

(** [pl_cmp] and [pl_casecmp] return 0 exactly on strings that are equal, and
    equal up to ASCII case: the length test and the two shortcuts change nothing
    (for [pl_casecmp], on strings without null bytes). *)
Theorem pl_compare_exact a b : coherent a b -> no_nul (pl_s a) ->
  (pl_cmp (Some a) (Some b) = 0 <-> pl_s a = pl_s b) /\
  (pl_casecmp (Some a) (Some b) = 0 <-> map tolower (pl_s a) = map tolower (pl_s b)).
Proof. apply pl_cmp_texts. Qed.

(** The fallback comparison of platforms without [strings.h] is not the same
    function: on aligned strings it sets bit 5 of every byte instead of folding
    the letters, so bytes that are no letters compare equal. *)
Theorem casecmp_folds_symbols : exists a b,
  casecmp a b = 0 /\ casecmp (mk_pl (pl_p a + 1) (pl_s a)) b <> 0 /\
  pl_casecmp (Some a) (Some b) <> 0.
Proof. by exists (mk_pl 16 [64; 91; 97; 98]), (mk_pl 32 [96; 123; 97; 98]). Qed.

Definition ex_num : pl := mk_pl 100 [53; 48; 54; 48].

Lemma pl_numbers_witness : pl_u32 (Some ex_num) = 5060.
Proof. destruct (pl_numbers ex_num) as (E&_); [done|]. exact E. Defined.

Lemma pl_compare_exact_witness :
  pl_casecmp (Some (mk_pl 100 [118; 105; 97])) (Some (mk_pl 200 [86; 105; 65])) = 0.
Proof.
  apply (pl_compare_exact (mk_pl 100 [118; 105; 97]) (mk_pl 200 [86; 105; 65])); try done.
  by repeat constructor.
Defined.

End Pl.
