(* ===== verification/Mbuf.v ===== *)
(** * Memory buffers: src/libre/src/mbuf/mbuf.c and include/re_mbuf.h

    A [struct mbuf] over the heap of [Mem] (the objects are blocks of bytes).
    Every operation is refined by the same operation on an abstract buffer: a
    text with a position in it. *)
From S2P Require Import Prelude Mem Pl.
Import Mem Pl.

Module Mbuf.

Abbreviation heap := (mem (list Z)).

Record mbuf := mk_mbuf { buf : Z; size : Z; pos : Z; end_ : Z }.

Definition DEFAULT_SIZE : Z := 512.

(** What [realloc] makes of the bytes [l] of an object that becomes [n] bytes
    long; [junk] is what it finds in the new part. *)
Definition moved (n : Z) (junk l : list Z) : list Z :=
  take (Z.to_nat n) (l ++ junk ++ replicate (Z.to_nat n) 0).

(** [memcpy(p + off, data, length data)] and its converse; an access outside the
    object is undefined. *)
Definition store (w : heap) (p off : Z) (data : list Z) : option heap :=
  match data with
  | [] => Some w
  | _ =>
      b ← blocks w !! p;
      if (off <? 0) || (Z.of_nat (length (payload b)) <? off + Z.of_nat (length data)) then None
      else Some (upd_block w p (mk_block (nrefs b) (dh b) (bsize b)
             (take (Z.to_nat off) (payload b) ++ data ++
              drop (Z.to_nat off + length data) (payload b))))
  end.

Definition load (w : heap) (p off n : Z) : option (list Z) :=
  if n =? 0 then Some []
  else
    b ← blocks w !! p;
    if (off <? 0) || (Z.of_nat (length (payload b)) <? off + n) then None
    else Some (take (Z.to_nat n) (drop (Z.to_nat off) (payload b))).

(** ** Operations

    A pointer to a buffer is an [option mbuf].  [r] is what the C library returns
    to the allocation the operation may make, [junk] the bytes found there. *)

Definition mbuf_init (mb : option mbuf) : option mbuf := (fun _ => mk_mbuf 0 0 0 0) <$> mb.

Definition mbuf_resize (w : heap) (mb : option mbuf) (sz : Z) (r : option Z) (junk : list Z) :
    option (Z * heap * option mbuf) :=
  match mb with
  | None => Some (EINVAL, w, mb)
  | Some b =>
      '(p, w') ← (if buf b =? 0 then mem_alloc w r sz 0 (moved sz junk [])
                  else mem_realloc w r (buf b) sz (moved sz junk));
      if p =? 0 then Some (ENOMEM, w', mb)
      else Some (0, w', Some (mk_mbuf p sz (pos b) (end_ b)))
  end.

(** [mbuf_destructor], and the destroy handler [mem_deref] runs for byte objects:
    they have none. *)
Definition no_handler (h p : Z) (w : heap) : option heap := None.
Definition mbuf_destructor (w : heap) (b : mbuf) : option heap :=
  mem_deref no_handler w (buf b).

(** [ok]: whether the [struct mbuf] itself could be allocated. *)
Definition mbuf_alloc (w : heap) (ok : bool) (sz : Z) (r : option Z) (junk : list Z) :
    option (heap * option mbuf) :=
  if ok then
    '(err, w', mb) ← mbuf_resize w (Some (mk_mbuf 0 0 0 0))
                       (if sz =? 0 then DEFAULT_SIZE else sz) r junk;
    if negb (err =? 0) then
      w2 ← mbuf_destructor w' (default (mk_mbuf 0 0 0 0) mb); Some (w2, None)
    else Some (w', mb)
  else Some (w, None).

Definition mbuf_alloc_ref (w : heap) (ok : bool) (mbr : option mbuf) :
    option (heap * option mbuf) :=
  match mbr with
  | None => Some (w, None)
  | Some b =>
      if ok then
        '(p, w') ← mem_ref w (buf b); Some (w', Some (mk_mbuf p (size b) (pos b) (end_ b)))
      else Some (w, None)
  end.

Definition mbuf_reset (w : heap) (mb : option mbuf) : option (heap * option mbuf) :=
  match mb with
  | None => Some (w, None)
  | Some b => w' ← mem_deref no_handler w (buf b); Some (w', mbuf_init (Some (mk_mbuf 0 (size b) (pos b) (end_ b))))
  end.

Definition mbuf_trim (w : heap) (mb : option mbuf) (r : option Z) (junk : list Z) :
    option (heap * option mbuf) :=
  match mb with
  | None => Some (w, mb)
  | Some b =>
      if (end_ b =? 0) || (end_ b =? size b) then Some (w, mb)
      else '(_, w', mb') ← mbuf_resize w mb (end_ b) r junk; Some (w', mb')
  end.

Definition mbuf_get_left (mb : option mbuf) : Z :=
  match mb with
  | Some b => if pos b <? end_ b then end_ b - pos b else 0
  | None => 0
  end.

Definition mbuf_get_space (mb : option mbuf) : Z :=
  match mb with
  | Some b => if pos b <? size b then size b - pos b else 0
  | None => 0
  end.

Definition mbuf_set_pos (b : mbuf) (p : Z) : mbuf := mk_mbuf (buf b) (size b) p (end_ b).
Definition mbuf_set_end (b : mbuf) (e : Z) : mbuf := mk_mbuf (buf b) (size b) (pos b) e.
Definition mbuf_advance (b : mbuf) (n : Z) : mbuf := mbuf_set_pos b (u64 (pos b + n)).
Definition mbuf_rewind (b : mbuf) : mbuf := mk_mbuf (buf b) (size b) 0 0.
Definition mbuf_skip_to_end (b : mbuf) : mbuf := mbuf_set_pos b (end_ b).

(** [memmove(p + shift, p, left)] with [p] at the position. *)
Definition mbuf_shift (w : heap) (mb : option mbuf) (shift : Z) (r : option Z) (junk : list Z) :
    option (Z * heap * option mbuf) :=
  match mb with
  | None => Some (EINVAL, w, mb)
  | Some b =>
      if (s64 (pos b) + shift <? 0) || (s64 (end_ b) + shift <? 0) then Some (ERANGE, w, mb)
      else
        let rsize := u64 (end_ b + shift) in
        '(err, w1, mb1) ← (if size b <? rsize then mbuf_resize w mb rsize r junk
                           else Some (0, w, mb));
        if negb (err =? 0) then Some (err, w1, mb1)
        else
          let b1 := default b mb1 in
          data ← load w1 (buf b1) (pos b1) (mbuf_get_left mb1);
          w2 ← store w1 (buf b1) (pos b1 + shift) data;
          Some (0, w2, Some (mk_mbuf (buf b1) (size b1) (u64 (pos b1 + shift))
                               (u64 (end_ b1 + shift))))
  end.

(** The growth step [mbuf_write_mem] and [mbuf_fill] share: room for [n] more bytes. *)
Definition reserve (w : heap) (mb : option mbuf) (b : mbuf) (n : Z) (r : option Z)
    (junk : list Z) : option (Z * heap * option mbuf) :=
  let rsize := u64 (pos b + n) in
  if size b <? rsize then
    let dsize := if size b =? 0 then DEFAULT_SIZE else u64 (size b * 2) in
    mbuf_resize w mb (Z.max rsize dsize) r junk
  else Some (0, w, mb).

(** The step after it: write at the position and advance. *)
Definition put (w : heap) (b : mbuf) (data : list Z) : option (Z * heap * option mbuf) :=
  w2 ← store w (buf b) (pos b) data;
  let p := u64 (pos b + Z.of_nat (length data)) in
  Some (0, w2, Some (mk_mbuf (buf b) (size b) p (Z.max (end_ b) p))).

(** [src]: the block of memory to write, at address [pl_p src]. *)
Definition mbuf_write_mem (w : heap) (mb : option mbuf) (src : pl) (r : option Z)
    (junk : list Z) : option (Z * heap * option mbuf) :=
  match mb with
  | None => Some (EINVAL, w, mb)
  | Some b =>
      if pl_p src =? 0 then Some (EINVAL, w, mb)
      else
        '(err, w1, mb1) ← reserve w mb b (pl_l src) r junk;
        if negb (err =? 0) then Some (err, w1, mb1)
        else put w1 (default b mb1) (pl_s src)
  end.

Definition mbuf_fill (w : heap) (mb : option mbuf) (c n : Z) (r : option Z) (junk : list Z) :
    option (Z * heap * option mbuf) :=
  match mb with
  | None => Some (EINVAL, w, mb)
  | Some b =>
      if n =? 0 then Some (EINVAL, w, mb)
      else
        '(err, w1, mb1) ← reserve w mb b n r junk;
        if negb (err =? 0) then Some (err, w1, mb1)
        else put w1 (default b mb1) (replicate (Z.to_nat n) (u8 c))
  end.

(** Integers are stored in the byte order of the machine (little endian); [v] is
    a local variable, whose address is not null. *)
Fixpoint le_bytes (k : nat) (v : Z) : list Z :=
  match k with O => [] | S k => u8 v :: le_bytes k (v / 256) end.
Fixpoint le_value (l : list Z) : Z :=
  match l with [] => 0 | b :: l => b + 256 * le_value l end.

Definition local (l : list Z) : pl := mk_pl 1 l.

Definition mbuf_write_u8 w mb (v : Z) := mbuf_write_mem w mb (local (le_bytes 1 v)).
Definition mbuf_write_u16 w mb (v : Z) := mbuf_write_mem w mb (local (le_bytes 2 v)).
Definition mbuf_write_u32 w mb (v : Z) := mbuf_write_mem w mb (local (le_bytes 4 v)).
Definition mbuf_write_u64 w mb (v : Z) := mbuf_write_mem w mb (local (le_bytes 8 v)).

Definition mbuf_write_str (w : heap) (mb : option mbuf) (str : option pl) (r : option Z)
    (junk : list Z) : option (Z * heap * option mbuf) :=
  match str with
  | None => Some (EINVAL, w, mb)
  | Some s => mbuf_write_mem w mb s r junk
  end.

Definition mbuf_write_pl (w : heap) (mb : option mbuf) (x : option pl) (r : option Z)
    (junk : list Z) : option (Z * heap * option mbuf) :=
  match x with
  | None => Some (EINVAL, w, mb)
  | Some x => mbuf_write_mem w mb x r junk
  end.

(** [nb]: whether the destination is not null.  The bytes read, when there are. *)
Definition mbuf_read_mem (w : heap) (mb : option mbuf) (nb : bool) (n : Z) :
    option (Z * list Z * option mbuf) :=
  match mb with
  | None => Some (EINVAL, [], mb)
  | Some b =>
      if negb nb then Some (EINVAL, [], mb)
      else if mbuf_get_left mb <? n then Some (EOVERFLOW, [], mb)
      else
        data ← load w (buf b) (pos b) n;
        Some (0, data, Some (mbuf_set_pos b (u64 (pos b + n))))
  end.

Definition read_uint (k : nat) (w : heap) (mb : option mbuf) : option (Z * option mbuf) :=
  '(err, data, mb') ← mbuf_read_mem w mb true (Z.of_nat k);
  Some (if err =? 0 then le_value data else 0, mb').

Definition mbuf_read_u8 := read_uint 1.
Definition mbuf_read_u16 := read_uint 2.
Definition mbuf_read_u32 := read_uint 4.
Definition mbuf_read_u64 := read_uint 8.

Fixpoint read_str_loop (n : nat) (w : heap) (mb : option mbuf) (acc : list Z) :
    option (list Z * option mbuf) :=
  match n with
  | O => Some (acc, mb)
  | S n =>
      '(c, mb') ← mbuf_read_u8 w mb;
      if c =? 0 then Some (acc ++ [c], mb') else read_str_loop n w mb' (acc ++ [c])
  end.

(** The bytes written to [str]. *)
Definition mbuf_read_str (w : heap) (mb : option mbuf) (nb : bool) (n : nat) :
    option (Z * list Z * option mbuf) :=
  match mb with
  | None => Some (EINVAL, [], mb)
  | Some _ =>
      if negb nb then Some (EINVAL, [], mb)
      else '(l, mb') ← read_str_loop n w mb []; Some (0, l, mb')
  end.

(** [ok]: whether the copy can be allocated; the new string, with terminator. *)
Definition mbuf_strdup (w : heap) (mb : option mbuf) (nb ok : bool) (len : Z) :
    option (Z * option (list Z) * option mbuf) :=
  match mb with
  | None => Some (EINVAL, None, mb)
  | Some _ =>
      if negb nb then Some (EINVAL, None, mb)
      else if negb ok then Some (ENOMEM, None, mb)
      else
        '(err, data, mb') ← mbuf_read_mem w mb true len;
        Some (err, if err =? 0 then Some (data ++ [0]) else None, mb')
  end.

(** [r1], [r2]: the C library's answers to the two writes. *)
Definition mbuf_write_pl_skip (w : heap) (mb : option mbuf) (x skip : option pl)
    (r1 r2 : option Z) (junk : list Z) : option (Z * heap * option mbuf) :=
  match x, skip with
  | Some x, Some k =>
      if (pl_p k <? pl_p x) || (pl_p x + pl_l x <? pl_p k + pl_l k) then Some (ERANGE, w, mb)
      else
        let n := Z.to_nat (pl_p k - pl_p x) in
        '(err, w1, mb1) ← mbuf_write_mem w mb (mk_pl (pl_p x) (take n (pl_s x))) r1 junk;
        if negb (err =? 0) then Some (err, w1, mb1)
        else
          mbuf_write_mem w1 mb1
            (mk_pl (pl_p k + pl_l k) (drop (n + length (pl_s k)) (pl_s x))) r2 junk
  | _, _ => Some (EINVAL, w, mb)
  end.

(** ** Abstract buffers *)

(** The bytes of the object, and the text: the bytes up to the end. *)
Definition data (w : heap) (b : mbuf) : list Z :=
  match blocks w !! buf b with Some k => payload k | None => [] end.
Definition text (w : heap) (b : mbuf) : list Z := take (Z.to_nat (end_ b)) (data w b).

Record buf_ok (w : heap) (b : mbuf) : Prop := {
  bk_mem : mem_ok w;
  bk_pos : 0 <= pos b <= end_ b;
  bk_end : end_ b <= size b <= SIZE_MAX;
  bk_null : buf b = 0 -> size b = 0;
  bk_data : buf b <> 0 -> exists k, blocks w !! buf b = Some k /\
    bsize k = size b /\ Z.of_nat (length (payload k)) = size b }.

Lemma data_length w b : buf_ok w b -> Z.of_nat (length (data w b)) = size b.
Proof.
  intros [Hm _ _ Hn Hd]. unfold data. destruct (Z.eq_dec (buf b) 0) as [E|E].
  - rewrite E, (mk_null w Hm), (Hn E). done.
  - destruct (Hd E) as (k&Hk&_&Hl). by rewrite Hk.
Qed.

Lemma text_length w b : buf_ok w b -> Z.of_nat (length (text w b)) = end_ b.
Proof.
  intros Hb. unfold text. rewrite length_take. pose proof (data_length w b Hb).
  destruct Hb. lia.
Qed.

Lemma moved_length n junk l : 0 <= n -> Z.of_nat (length (moved n junk l)) = n.
Proof. intros Hn. unfold moved. rewrite length_take, !length_app, length_replicate. lia. Qed.

Lemma moved_take n junk l k : Z.of_nat (length l) <= n -> (k <= length l)%nat ->
  take k (moved n junk l) = take k l.
Proof.
  intros Hn Hk. unfold moved. rewrite take_take, Nat.min_l by lia.
  by rewrite take_app_le by lia.
Qed.

(** What the C library promises to the allocation of [mbuf_resize]. *)
Definition grow_ok (w : heap) (b : mbuf) (r : option Z) (sz : Z) : Prop :=
  if buf b =? 0 then malloc_ok w r sz else realloc_ok w r (buf b) sz.

Lemma mbuf_resize_ok w b sz r junk : buf_ok w b -> size b <= sz <= SIZE_MAX ->
  grow_ok w b r sz ->
  exists err w' b', mbuf_resize w (Some b) sz r junk = Some (err, w', Some b') /\
    ((err = ENOMEM /\ b' = b /\ mem_ok w' /\ blocks w' = blocks w) \/
     (err = 0 /\ buf_ok w' b' /\ b' = mk_mbuf (buf b') sz (pos b) (end_ b) /\
      data w' b' = moved sz junk (data w b))).
Proof.
  intros Hb Hsz Hg. pose proof Hb as [Hm Hp He Hn Hd]. unfold mbuf_resize, grow_ok in *.
  assert (forall p w' k, p <> 0 -> mem_ok w' -> blocks w' !! p = Some k -> bsize k = sz ->
    payload k = moved sz junk (data w b) ->
    exists err w0 b', Some (0, w', Some (mk_mbuf p sz (pos b) (end_ b))) =
        Some (err, w0, Some b') /\
      ((err = ENOMEM /\ b' = b /\ mem_ok w0 /\ blocks w0 = blocks w) \/
       (err = 0 /\ buf_ok w0 b' /\ b' = mk_mbuf (buf b') sz (pos b) (end_ b) /\
        data w0 b' = moved sz junk (data w b)))) as Hfin.
  { intros p w' k Hp0 Hw' Hk Hks Hkp. eexists _, _, _. split; [done|]. right.
    split_and!; try done; [|unfold data; simpl; by rewrite Hk].
    split; simpl; try done; try lia. intros _. exists k. split_and!; try done.
    rewrite Hkp, moved_length; lia. }
  destruct (Z.eqb_spec (buf b) 0) as [E|E].
  - destruct (mem_alloc_ok w r sz 0 (moved sz junk []) Hm Hg)
      as (p&w'&Ea&Hw'&[[-> ->]|(_&Hp0&_&Hbl)]); rewrite Ea; simpl.
    + eexists _, _, _. split; [done|]. left. done.
    + destruct (Z.eqb_spec p 0); [done|].
      eapply Hfin; [done..|by rewrite Hbl, lookup_insert_eq|done|].
      simpl. unfold data. by rewrite E, (mk_null w Hm).
  - destruct (Hd E) as (k&Hk&Hks&Hkl).
    destruct (mem_realloc_ok w r (buf b) k sz (moved sz junk) Hm E Hk Hg)
      as (p&w'&Ea&Hw'&[[-> Hbl]|(_&Hp0&_&Hbl)]); rewrite Ea; simpl.
    + eexists _, _, _. split; [done|]. left. done.
    + destruct (Z.eqb_spec p 0); [done|].
      eapply Hfin; [done..|by rewrite Hbl, lookup_insert_eq|done|].
      simpl. unfold data. by rewrite Hk.
Qed.

(** Writing inside the object. *)
Lemma store_ok w b off l : buf_ok w b -> 0 <= off ->
  off + Z.of_nat (length l) <= size b ->
  exists w', store w (buf b) off l = Some w' /\ buf_ok w' b /\
    data w' b = take (Z.to_nat off) (data w b) ++ l ++
                drop (Z.to_nat off + length l) (data w b).
Proof.
  intros Hb Ho Hl. destruct l as [|x l].
  { exists w. split_and!; [done..|]. simpl. by rewrite Nat.add_0_r, take_drop. }
  pose proof Hb as [Hm Hp He Hn Hd]. simpl length in *.
  assert (buf b <> 0) as E by (intros E; specialize (Hn E); lia).
  destruct (Hd E) as (k&Hk&Hks&Hkl). unfold store. rewrite Hk. simpl mbind.
  destruct (Z.ltb_spec off 0); [lia|]. simpl length.
  destruct (Z.ltb_spec (Z.of_nat (length (payload k))) (off + Z.of_nat (S (length l)))); [lia|].
  simpl orb. cbv iota. eexists. split; [done|].
  assert (data w b = payload k) as -> by (unfold data; by rewrite Hk).
  split.
  - split; try done.
    + by apply (upd_block_ok _ _ k).
    + intros _. simpl. rewrite lookup_insert_eq. eexists. split; [done|]. simpl.
      split; [done|]. rewrite length_app, length_take. simpl.
      rewrite length_app, length_drop. lia.
  - unfold data. simpl. by rewrite lookup_insert_eq.
Qed.

Lemma load_ok w b off n : buf_ok w b -> 0 <= off -> 0 <= n -> off + n <= size b ->
  load w (buf b) off n = Some (take (Z.to_nat n) (drop (Z.to_nat off) (data w b))).
Proof.
  intros Hb Ho Hn Hl. unfold load. destruct (Z.eqb_spec n 0) as [->|Hn0]; [done|].
  pose proof Hb as [Hm Hp He Hnull Hd].
  assert (buf b <> 0) as E by (intros E; specialize (Hnull E); lia).
  destruct (Hd E) as (k&Hk&Hks&Hkl). unfold data. rewrite Hk. simpl.
  destruct (Z.ltb_spec off 0); [lia|].
  destruct (Z.ltb_spec (Z.of_nat (length (payload k))) (off + n)); [lia|]. done.
Qed.

(** The text that writing [l] at position [p] gives. *)
Definition overwrite (p : Z) (l t : list Z) : list Z :=
  take (Z.to_nat p) t ++ l ++ drop (Z.to_nat p + length l) t.

Lemma put_ok w b l : buf_ok w b -> pos b + Z.of_nat (length l) <= size b ->
  exists w' b', put w b l = Some (0, w', Some b') /\ buf_ok w' b' /\
    text w' b' = overwrite (pos b) l (text w b) /\
    pos b' = pos b + Z.of_nat (length l) /\ buf b' = buf b /\ size b' = size b.
Proof.
  intros Hb Hl. pose proof Hb as [Hm Hp He Hn Hd]. unfold put.
  destruct (store_ok w b (pos b) l Hb) as (w'&E&Hb'&Hdata); [lia|done|].
  rewrite E. simpl. unfold SIZE_MAX in *. rewrite u64_small by lia. eexists _, _. split; [done|].
  pose proof (data_length w b Hb) as Hlen.
  split_and!; try done.
  - destruct Hb'. split; simpl; unfold SIZE_MAX in *; try done; lia.
  - unfold text, overwrite. simpl end_. change (data w' _) with (data w' b).
    rewrite Hdata, take_take, Nat.min_l by lia.
    assert (length (take (Z.to_nat (pos b)) (data w b)) = Z.to_nat (pos b)) as Ht
      by (rewrite length_take; lia).
    rewrite take_app_ge, Ht by lia. f_equal. rewrite take_app_ge by lia. f_equal.
    rewrite take_drop_commute.
    destruct (Z.le_gt_cases (end_ b) (pos b + Z.of_nat (length l))).
    + rewrite !drop_ge; [done|rewrite length_take; lia..].
    + do 2 f_equal. lia.
Qed.

(** The size the growth step asks for. *)
Definition grown (b : mbuf) (n : Z) : Z :=
  Z.max (u64 (pos b + n)) (if size b =? 0 then DEFAULT_SIZE else u64 (size b * 2)).

Lemma resize_text w b sz junk w' b' : buf_ok w b -> size b <= sz ->
  end_ b' = end_ b -> data w' b' = moved sz junk (data w b) -> text w' b' = text w b.
Proof.
  intros Hb Hsz He Hd. unfold text. rewrite Hd, He. pose proof (data_length w b Hb).
  destruct Hb. apply moved_take; lia.
Qed.

Lemma reserve_ok w b n r junk : buf_ok w b -> 0 <= n -> pos b + n <= SIZE_MAX ->
  grow_ok w b r (grown b n) ->
  exists err w' b', reserve w (Some b) b n r junk = Some (err, w', Some b') /\
    ((err = ENOMEM /\ b' = b /\ mem_ok w' /\ blocks w' = blocks w) \/
     (err = 0 /\ buf_ok w' b' /\ pos b' = pos b /\ text w' b' = text w b /\
      end_ b' = end_ b /\ pos b + n <= size b')).
Proof.
  intros Hb Hn Hp Hg. pose proof Hb as [_ Hpos He _ _]. unfold reserve.
  unfold grown in Hg. rewrite (u64_small (pos b + n)) in * by (unfold SIZE_MAX in *; lia).
  destruct (Z.ltb_spec (size b) (pos b + n)) as [Hlt|Hge].
  - set (sz := Z.max _ _) in *.
    assert (size b <= sz <= SIZE_MAX) as Hsz.
    { unfold sz. split; [lia|]. apply Z.max_lub; [done|]. destruct (size b =? 0); [done|].
      pose proof (u64_range (size b * 2)). unfold SIZE_MAX. lia. }
    destruct (mbuf_resize_ok w b sz r junk Hb Hsz Hg)
      as (err&w'&b'&E&[(->&->&?&?)|(->&Hb'&Hbe&Hd)]); rewrite E; eexists _, _, _; split; try done.
    + by left.
    + right. rewrite Hbe in *. simpl in *. split_and!; try done; [|lia].
      by apply (resize_text w b sz junk); try lia.
  - exists 0, w, b. split; [done|]. by right.
Qed.

(** Writing [l] with the growth step in front: all or nothing. *)
Definition write_post (w : heap) (b : mbuf) (l : list Z) (res : Z * heap * option mbuf) : Prop :=
  exists err w' b', res = (err, w', Some b') /\
    ((err = ENOMEM /\ b' = b /\ buf_ok w' b /\ text w' b = text w b) \/
     (err = 0 /\ buf_ok w' b' /\ pos b' = pos b + Z.of_nat (length l) /\
      text w' b' = overwrite (pos b) l (text w b))).

Lemma buf_ok_same w w' b : buf_ok w b -> mem_ok w' -> blocks w' = blocks w ->
  buf_ok w' b /\ text w' b = text w b.
Proof.
  intros [] Hm E. split; [split; try done; by rewrite E|]. unfold text, data. by rewrite E.
Qed.

Lemma grow_put_ok w b l r junk : buf_ok w b ->
  pos b + Z.of_nat (length l) <= SIZE_MAX ->
  grow_ok w b r (grown b (Z.of_nat (length l))) ->
  exists res, ('(err, w1, mb1) ← reserve w (Some b) b (Z.of_nat (length l)) r junk;
      if negb (err =? 0) then Some (err, w1, mb1) else put w1 (default b mb1) l) = Some res /\
    write_post w b l res.
Proof.
  intros Hb Hl Hg.
  destruct (reserve_ok w b _ r junk Hb (Nat2Z.is_nonneg (length l)) Hl Hg)
    as (err&w1&b1&E&[(->&->&Hm&Hbl)|(->&Hb1&Hp1&Ht1&He1&Hs1)]); rewrite E; simpl.
  - eexists. split; [done|]. destruct (buf_ok_same w w1 b Hb Hm Hbl).
    eexists _, _, _. split; [done|]. left. done.
  - destruct (put_ok w1 b1 l Hb1) as (w2&b2&E2&Hb2&Ht2&Hp2&_&_); [lia|].
    rewrite E2. eexists. split; [done|]. eexists _, _, _. split; [done|]. right.
    rewrite <- Ht1, <- Hp1. done.
Qed.

Lemma mbuf_write_mem_ok w b src r junk : buf_ok w b -> pl_p src <> 0 ->
  pos b + pl_l src <= SIZE_MAX -> grow_ok w b r (grown b (pl_l src)) ->
  exists res, mbuf_write_mem w (Some b) src r junk = Some res /\ write_post w b (pl_s src) res.
Proof.
  intros Hb Hp Hl Hg. unfold mbuf_write_mem. destruct (Z.eqb_spec (pl_p src) 0); [done|].
  by apply grow_put_ok.
Qed.

(** Reading. *)
Lemma mbuf_read_mem_ok w b n : buf_ok w b -> 0 <= n ->
  mbuf_read_mem w (Some b) true n =
  if end_ b - pos b <? n then Some (EOVERFLOW, [], Some b)
  else Some (0, take (Z.to_nat n) (drop (Z.to_nat (pos b)) (text w b)),
             Some (mbuf_set_pos b (pos b + n))).
Proof.
  intros Hb Hn. pose proof Hb as [_ Hp He _ _]. unfold mbuf_read_mem. simpl.
  assert ((if pos b <? end_ b then end_ b - pos b else 0) = end_ b - pos b) as ->.
  { destruct (Z.ltb_spec (pos b) (end_ b)); lia. }
  destruct (Z.ltb_spec (end_ b - pos b) n); [done|].
  rewrite (load_ok w b) by (done || lia). simpl. unfold SIZE_MAX in *.
  rewrite u64_small by lia. do 3 f_equal. unfold text.
  rewrite !take_drop_commute, take_take. do 2 f_equal. lia.
Qed.

(** Shifting: [memmove] within the object. *)
Lemma mbuf_shift_ok w b shift r junk : buf_ok w b ->
  end_ b <= 9223372036854775807 -> -9223372036854775808 <= shift <= 9223372036854775807 ->
  grow_ok w b r (end_ b + shift) ->
  exists err w' b', mbuf_shift w (Some b) shift r junk = Some (err, w', Some b') /\
    if (pos b + shift <? 0) || (end_ b + shift <? 0) then err = ERANGE /\ b' = b /\ w' = w
    else
      (err = ENOMEM /\ b' = b /\ buf_ok w' b /\ text w' b = text w b) \/
      (err = 0 /\ buf_ok w' b' /\ pos b' = pos b + shift /\ end_ b' = end_ b + shift /\
       drop (Z.to_nat (pos b')) (text w' b') = drop (Z.to_nat (pos b)) (text w b) /\
       (let k := Z.to_nat (Z.min (pos b) (pos b')) in
        take k (text w' b') = take k (text w b))).
Proof.
  intros Hb He63 Hs63 Hg. pose proof Hb as [_ Hp He _ _]. unfold mbuf_shift.
  rewrite !s64_small by lia.
  destruct ((pos b + shift <? 0) || (end_ b + shift <? 0)) eqn:Hneg;
    [eexists _, _, _; done|].
  apply orb_false_iff in Hneg as [H1%Z.ltb_ge H2%Z.ltb_ge].
  rewrite u64_small by lia.
  assert (exists err w1 b1, (if size b <? end_ b + shift
      then mbuf_resize w (Some b) (end_ b + shift) r junk else Some (0, w, Some b)) =
      Some (err, w1, Some b1) /\
    ((err = ENOMEM /\ b1 = b /\ buf_ok w1 b /\ text w1 b = text w b) \/
     (err = 0 /\ buf_ok w1 b1 /\ pos b1 = pos b /\ end_ b1 = end_ b /\
      end_ b + shift <= size b1 /\ text w1 b1 = text w b))) as (err&w1&b1&E&Hcase).
  { destruct (Z.ltb_spec (size b) (end_ b + shift)) as [Hlt|Hge].
    - destruct (mbuf_resize_ok w b (end_ b + shift) r junk Hb)
        as (err&w'&b'&E&[(->&->&Hm&Hbl)|(->&Hb'&Hbe&Hd)]); [unfold SIZE_MAX in *; lia|done|..];
        rewrite E; eexists _, _, _; split; try done.
      + left. destruct (buf_ok_same w w' b Hb Hm Hbl). done.
      + right. rewrite Hbe in *. simpl in *. split_and!; try done; try lia.
        by apply (resize_text w b (end_ b + shift) junk); try lia.
    - exists 0, w, b. split; [done|]. by right. }
  rewrite E. simpl. destruct Hcase as [(->&->&Hb1&Ht1)|(->&Hb1&Hp1&He1&Hs1&Ht1)].
  { eexists _, _, _. split; [done|]. by left. }
  simpl. rewrite Hp1, He1.
  assert ((if pos b <? end_ b then end_ b - pos b else 0) = end_ b - pos b) as ->.
  { destruct (Z.ltb_spec (pos b) (end_ b)); lia. }
  pose proof Hb1 as [_ _ He' _ _]. pose proof (data_length w1 b1 Hb1) as Hdl.
  rewrite (load_ok w1 b1) by (done || lia). simpl.
  set (l := take _ _).
  assert (Z.of_nat (length l) = end_ b - pos b) as Hl.
  { unfold l. rewrite length_take, length_drop. lia. }
  destruct (store_ok w1 b1 (pos b + shift) l Hb1) as (w2&E2&Hb2&Hd2); [lia|lia|].
  rewrite E2. simpl. rewrite !u64_small by lia. eexists _, _, _. split; [done|]. right.
  set (b2 := mk_mbuf _ _ _ _).
  assert (text w2 b2 = take (Z.to_nat (pos b + shift)) (data w1 b1) ++ l) as Ht2.
  { unfold text. simpl end_. change (data w2 b2) with (data w2 b1). rewrite Hd2.
    rewrite take_app_ge by (rewrite length_take; lia). f_equal.
    rewrite length_take, Nat.min_l by lia. rewrite take_app_le by lia.
    apply take_ge. lia. }
  split_and!; try done.
  - destruct Hb2. split; simpl; try done; try lia.
  - rewrite Ht2. simpl pos. rewrite drop_app_ge by (rewrite length_take; lia).
    rewrite length_take, Nat.min_l, Nat.sub_diag by lia. rewrite drop_0. unfold l.
    rewrite <- Ht1. unfold text. rewrite He1, take_drop_commute. do 2 f_equal. lia.
  - rewrite Ht2. simpl pos. rewrite take_app_le by (rewrite length_take; lia).
    rewrite take_take, Nat.min_l by lia. rewrite <- Ht1. unfold text.
    rewrite take_take, Nat.min_l by lia. done.
Qed.

Lemma overwrite_at p l t : 0 <= p <= Z.of_nat (length t) ->
  take (length l) (drop (Z.to_nat p) (overwrite p l t)) = l.
Proof.
  intros Hp. unfold overwrite.
  assert (length (take (Z.to_nat p) t) = Z.to_nat p) as Ht by (rewrite length_take; lia).
  rewrite drop_app_ge, Ht, Nat.sub_diag, drop_0 by lia. by rewrite take_app_length.
Qed.

Lemma overwrite_app p l1 l2 t : 0 <= p <= Z.of_nat (length t) ->
  overwrite (p + Z.of_nat (length l1)) l2 (overwrite p l1 t) = overwrite p (l1 ++ l2) t.
Proof.
  intros Hp. unfold overwrite.
  assert (length (take (Z.to_nat p) t) = Z.to_nat p) as Ht by (rewrite length_take; lia).
  replace (Z.to_nat (p + Z.of_nat (length l1))) with (Z.to_nat p + length l1)%nat by lia.
  rewrite take_app_ge, Ht, take_app_le by lia.
  replace (Z.to_nat p + length l1 - Z.to_nat p)%nat with (length l1) by lia.
  rewrite (take_ge l1) by lia. rewrite <- !app_assoc. do 3 f_equal.
  rewrite drop_app_ge, Ht by lia. rewrite drop_app_ge by lia.
  rewrite drop_drop, length_app. f_equal. lia.
Qed.

Lemma le_bytes_length k v : length (le_bytes k v) = k.
Proof. revert v. induction k as [|k IH]; intros v; simpl; [done|]. by rewrite IH. Qed.

Lemma le_value_bytes k v : le_value (le_bytes k v) = v mod 256 ^ Z.of_nat k.
Proof.
  revert v. induction k as [|k IH]; intros v; [by rewrite Z.mod_1_r|].
  simpl le_value. rewrite IH. unfold u8.
  rewrite Nat2Z.inj_succ, Z.pow_succ_r by lia.
  rewrite (Z.rem_mul_r v 256 (256 ^ Z.of_nat k)); [done|lia|].
  apply Z.pow_pos_nonneg; lia.
Qed.

(** What a successful write of a [k]-byte integer leaves to be read. *)
Lemma read_uint_ok w b k v p : buf_ok w b -> pos b = p + Z.of_nat k -> 0 <= p ->
  take k (drop (Z.to_nat p) (text w b)) = le_bytes k v ->
  read_uint k w (Some (mbuf_set_pos b p)) = Some (v mod 256 ^ Z.of_nat k, Some b).
Proof.
  intros Hb Hp Hp0 Ht. unfold read_uint. pose proof Hb as [? ? He ? ?].
  assert (buf_ok w (mbuf_set_pos b p)) as Hb' by (split; simpl; try done; lia).
  rewrite (mbuf_read_mem_ok w _ _ Hb') by lia. simpl.
  destruct (Z.ltb_spec (end_ b - p) (Z.of_nat k)); [lia|].
  change (text w (mbuf_set_pos b p)) with (text w b).
  rewrite Nat2Z.id, Ht. simpl. rewrite le_value_bytes. do 3 f_equal.
  unfold mbuf_set_pos. simpl. rewrite <- Hp. by destruct b.
Qed.

Lemma write_read_uint w b k v r junk w' b' : buf_ok w b ->
  pos b + Z.of_nat k <= SIZE_MAX -> grow_ok w b r (grown b (Z.of_nat k)) ->
  mbuf_write_mem w (Some b) (local (le_bytes k v)) r junk = Some (0, w', Some b') ->
  read_uint k w' (Some (mbuf_set_pos b' (pos b))) = Some (v mod 256 ^ Z.of_nat k, Some b').
Proof.
  intros Hb Hp Hg E. pose proof Hb as [_ Hpos _ _ _].
  assert (pl_l (local (le_bytes k v)) = Z.of_nat k) as Hk.
  { unfold pl_l. simpl. by rewrite le_bytes_length. }
  destruct (mbuf_write_mem_ok w b (local (le_bytes k v)) r junk Hb)
    as (res&E'&err&w2&b2&->&Hcase); [done|by rewrite Hk|by rewrite Hk|].
  rewrite E in E'. simplify_eq. destruct Hcase as [(?&_)|(_&Hb'&Hp'&Ht)]; [done|].
  simpl in Hp', Ht. rewrite le_bytes_length in Hp'.
  apply read_uint_ok; [done|done|lia|].
  pose proof (text_length w b Hb).
  rewrite Ht. pose proof (overwrite_at (pos b) (le_bytes k v) (text w b)) as Ho.
  rewrite le_bytes_length in Ho. apply Ho. lia.
Qed.

(** ** Properties *)

(** Writing a block (and filling) never leaves the object: it either fails with
    [ENOMEM] and leaves the buffer as it was, or overwrites the text at the
    position, extending it if need be, and advances past what was written. *)
Theorem mbuf_write_refines w b src c n r junk : buf_ok w b -> pl_p src <> 0 ->
  0 < n -> pl_l src = n -> pos b + n <= SIZE_MAX -> grow_ok w b r (grown b n) ->
  (exists res, mbuf_write_mem w (Some b) src r junk = Some res /\ write_post w b (pl_s src) res) /\
  (exists res, mbuf_fill w (Some b) c n r junk = Some res /\
     write_post w b (replicate (Z.to_nat n) (u8 c)) res).
Proof.
  intros Hb Hp Hn Hl Hs Hg. split.
  - by apply mbuf_write_mem_ok; rewrite ?Hl.
  - unfold mbuf_fill. destruct (Z.eqb_spec n 0); [lia|].
    pose proof (grow_put_ok w b (replicate (Z.to_nat n) (u8 c)) r junk Hb) as H.
    rewrite length_replicate, Z2Nat.id in H by lia. auto.
Qed.

(** Integers survive the buffer: what each of the four fixed-width writers
    stores, the matching reader returns from the same position, modulo the width,
    and it leaves the position behind the integer. *)
Theorem mbuf_uint_roundtrip w b v r junk w' b' : buf_ok w b ->
  pos b + 8 <= SIZE_MAX ->
  (forall k, 0 < k <= 8 -> grow_ok w b r (grown b k)) ->
  (mbuf_write_u8 w (Some b) v r junk = Some (0, w', Some b') ->
   mbuf_read_u8 w' (Some (mbuf_set_pos b' (pos b))) = Some (u8 v, Some b')) /\
  (mbuf_write_u16 w (Some b) v r junk = Some (0, w', Some b') ->
   mbuf_read_u16 w' (Some (mbuf_set_pos b' (pos b))) = Some (u16 v, Some b')) /\
  (mbuf_write_u32 w (Some b) v r junk = Some (0, w', Some b') ->
   mbuf_read_u32 w' (Some (mbuf_set_pos b' (pos b))) = Some (u32 v, Some b')) /\
  (mbuf_write_u64 w (Some b) v r junk = Some (0, w', Some b') ->
   mbuf_read_u64 w' (Some (mbuf_set_pos b' (pos b))) = Some (u64 v, Some b')).
Proof.
  intros Hb Hp Hg. split_and!; intros E;
    (eapply (write_read_uint w b _ v r junk w' b') in E; [exact E|done|lia|apply Hg; lia]).
Qed.

(** Shifting moves the bytes from the position to the end by [shift] and keeps
    the bytes before both positions; it fails with [ERANGE] exactly when the
    position or the end would become negative, and with [ENOMEM] it changes
    nothing. *)
Theorem mbuf_shift_refines w b shift r junk : buf_ok w b ->
  end_ b <= 9223372036854775807 -> -9223372036854775808 <= shift <= 9223372036854775807 ->
  grow_ok w b r (end_ b + shift) ->
  exists err w' b', mbuf_shift w (Some b) shift r junk = Some (err, w', Some b') /\
    (err = ERANGE <-> pos b + shift < 0 \/ end_ b + shift < 0) /\
    (err <> 0 -> b' = b /\ text w' b = text w b) /\
    (err = 0 -> buf_ok w' b' /\ pos b' = pos b + shift /\ end_ b' = end_ b + shift /\
       drop (Z.to_nat (pos b')) (text w' b') = drop (Z.to_nat (pos b)) (text w b) /\
       let k := Z.to_nat (Z.min (pos b) (pos b')) in
       take k (text w' b') = take k (text w b)).
Proof.
  intros Hb He Hs Hg. destruct (mbuf_shift_ok w b shift r junk Hb He Hs Hg)
    as (err&w'&b'&E&Hcase).
  exists err, w', b'. split; [done|].
  destruct (Z.ltb_spec (pos b + shift) 0), (Z.ltb_spec (end_ b + shift) 0); simpl in Hcase.
  1-3: destruct Hcase as (->&->&->); split_and!; try done; split; [lia|done].
  destruct Hcase as [(->&->&Hb'&Ht)|(->&Hb'&Hcase)]; split_and!; try done;
    split; try done; lia.
Qed.

(** Writing a string without a section writes exactly the bytes before and
    after the section; a section that is not inside the string is refused. *)
Theorem mbuf_write_pl_skip_exact w b x sk r1 r2 junk w' b' : buf_ok w b ->
  0 < pl_p x -> 0 <= pl_p sk -> pos b + pl_l x <= SIZE_MAX ->
  grow_ok w b r1 (grown b (pl_p sk - pl_p x)) ->
  (forall w1 b1, buf_ok w1 b1 -> pos b1 = pos b + (pl_p sk - pl_p x) ->
     grow_ok w1 b1 r2 (grown b1 (pl_p x + pl_l x - (pl_p sk + pl_l sk)))) ->
  mbuf_write_pl_skip w (Some b) (Some x) (Some sk) r1 r2 junk = Some (0, w', Some b') ->
  exists n, pl_p sk = pl_p x + Z.of_nat n /\ (n + length (pl_s sk) <= length (pl_s x))%nat /\
    buf_ok w' b' /\ text w' b' =
      overwrite (pos b) (take n (pl_s x) ++ drop (n + length (pl_s sk)) (pl_s x)) (text w b).
Proof.
  intros Hb Hx Hsk Hs Hg1 Hg2. unfold mbuf_write_pl_skip. pose proof Hb as [_ Hpos _ _ _].
  destruct (Z.ltb_spec (pl_p sk) (pl_p x)); [done|].
  destruct (Z.ltb_spec (pl_p x + pl_l x) (pl_p sk + pl_l sk)); [done|]. simpl orb. cbv iota.
  set (n := Z.to_nat (pl_p sk - pl_p x)). unfold pl_l in *.
  set (x1 := mk_pl (pl_p x) (take n (pl_s x))).
  assert (pl_l x1 = pl_p sk - pl_p x) as Hl1.
  { unfold pl_l, x1, n. simpl. rewrite length_take. lia. }
  destruct (mbuf_write_mem_ok w b x1 r1 junk Hb)
    as (res&E&err&w1&b1&->&[(->&->&_)|(->&Hb1&Hp1&Ht1)]); [simpl; lia|lia|by rewrite Hl1|..];
    rewrite E; cbv [mbind option_bind]; [done|]. cbn [Z.eqb negb].
  set (x2 := mk_pl _ _).
  assert (pl_l x2 = pl_p x + pl_l x - (pl_p sk + pl_l sk)) as Hl2.
  { unfold pl_l, x2, n. simpl. rewrite length_drop. lia. }
  assert (pos b1 = pos b + (pl_p sk - pl_p x)) as Hp1'.
  { rewrite Hp1. unfold pl_l in Hl1. lia. }
  destruct (mbuf_write_mem_ok w1 b1 x2 r2 junk Hb1)
    as (res&E2&err&w2&b2&->&[(->&->&_)|(->&Hb2&Hp2&Ht2)]);
    [simpl; lia|unfold pl_l in *; lia|rewrite Hl2; by apply Hg2|..]; rewrite E2; [done|].
  intros [= <- <-]. exists n. split_and!; [unfold n; lia|unfold n; lia|done|].
  rewrite Ht2, Ht1, Hp1. rewrite overwrite_app; [done|].
  rewrite (text_length w b Hb). lia.
Qed.

(** A buffer that shares its bytes ([mbuf_alloc_ref]) is left dangling when the
    other one grows: [mem_realloc] moves the object without regard to its second
    reference, and the next read through that reference is a use after free. *)
Theorem shared_buffer_dangles w b w1 b1 src q junk w2 b2 n : buf_ok w b -> buf b <> 0 ->
  mbuf_alloc_ref w true (Some b) = Some (w1, Some b1) ->
  mbuf_write_mem w1 (Some b) src (Some q) junk = Some (0, w2, Some b2) ->
  q <> buf b -> buf b2 = q -> blocks w1 !! q = None ->
  0 < n <= mbuf_get_left (Some b1) ->
  mbuf_read_mem w2 (Some b1) true n = None.
Proof.
  intros Hb Hbuf Href Hw Hq Hb2 Hfresh Hn.
  unfold mbuf_alloc_ref, mem_ref in Href. destruct (Z.eqb_spec (buf b) 0); [done|].
  destruct (blocks w !! buf b) as [k|] eqn:Hk; [|done]. simplify_eq/=.
  assert (blocks w2 !! buf b = None) as Hgone.
  { revert Hw. unfold mbuf_write_mem. destruct (pl_p src =? 0); [done|].
    unfold reserve. destruct (_ <? u64 _).
    - unfold mbuf_resize. destruct (Z.eqb_spec (buf b) 0); [done|].
      unfold mem_realloc. destruct (Z.eqb_spec (buf b) 0); [done|]. simpl.
      rewrite lookup_insert_eq. simpl. destruct (_ && _); [done|].
      destruct (_ <? Z.max _ _); [done|]. simpl.
      destruct (Z.eqb_spec (buf b2) 0); [done|]. simpl. unfold put, store. simpl.
      destruct (pl_s src) as [|c s].
      + simpl. intros [= <- _]. simpl. rewrite lookup_insert_ne, lookup_delete_eq by done. done.
      + simpl. rewrite lookup_insert_eq. simpl. destruct (_ || _); [done|]. simpl.
        intros [= <- _]. simpl. rewrite !lookup_insert_ne, lookup_delete_eq by done. done.
    - simpl. unfold put. destruct (store _ _ _ _); [|done]. simpl. intros [= _ <-]. done. }
  unfold mbuf_read_mem. simpl in *.
  destruct (Z.ltb_spec (if pos b <? end_ b then end_ b - pos b else 0) n); [lia|].
  unfold load. destruct (Z.eqb_spec n 0); [lia|]. by rewrite Hgone.
Qed.

(** *** Witnesses: a buffer of four bytes holding two *)

Definition ex_w0 : heap := default mem_init (fst <$> mbuf_alloc mem_init true 4 (Some 4096) []).
Definition ex_b0 : mbuf := mk_mbuf 4096 4 0 0.
Definition ex_w : heap := default ex_w0
  (snd ∘ fst <$> mbuf_write_u16 ex_w0 (Some ex_b0) 513 None []).
Definition ex_b : mbuf := mk_mbuf 4096 4 2 2.

Lemma ex_w0_ok : mem_ok ex_w0.
Proof.
  destruct (mbuf_resize_ok mem_init (mk_mbuf 0 0 0 0) 4 (Some 4096) [])
    as (err&w'&b'&E&Hcase).
  - split; try done. apply mem_init_ok.
  - done.
  - intros q [= <-]. by vm_compute.
  - vm_compute in E. simplify_eq. destruct Hcase as [(?&_)|(_&Hb&_)]; [done|].
    exact (bk_mem _ _ Hb).
Qed.

Lemma ex_buf_ok : buf_ok ex_w ex_b.
Proof.
  split; try by vm_compute.
  - apply (upd_block_ok ex_w0 4096 (mk_block 1 0 4 [0; 0; 0; 0])); [apply ex_w0_ok|done..].
  - intros _. eexists. split; [vm_compute; reflexivity|]. done.
Qed.

(** The buffer grows into a new object at 8192. *)
Lemma ex_grow : forall k, 0 < k <= 8 -> grow_ok ex_w ex_b (Some 8192) (grown ex_b k).
Proof.
  intros k Hk q [= <-].
  assert (grown ex_b k = Z.max (2 + k) 8) as ->.
  { unfold grown. simpl pos. rewrite u64_small by lia. done. }
  assert (footprint ex_w = 68) as -> by by vm_compute.
  assert (default 0 (bsize <$> blocks ex_w !! buf ex_b) = 4) as -> by by vm_compute.
  split_and!; [done|right; by vm_compute|lia|unfold SIZE_MAX; lia].
Qed.

Lemma mbuf_write_refines_witness :
  exists res, mbuf_fill ex_w (Some ex_b) 65 3 (Some 8192) [] = Some res /\
    write_post ex_w ex_b [65; 65; 65] res.
Proof.
  destruct (mbuf_write_refines ex_w ex_b (mk_pl 100 [1; 2; 3]) 65 3 (Some 8192) [])
    as [_ H]; [exact ex_buf_ok|done|done|done|done|by apply ex_grow|exact H].
Defined.

Lemma mbuf_uint_roundtrip_witness :
  exists w' b', mbuf_write_u32 ex_w (Some ex_b) 67305985 (Some 8192) [] = Some (0, w', Some b') /\
    mbuf_read_u32 w' (Some (mbuf_set_pos b' 2)) = Some (67305985, Some b').
Proof.
  eexists _, _. split; [vm_compute; reflexivity|].
  apply (mbuf_uint_roundtrip ex_w ex_b 67305985 (Some 8192) []);
    [exact ex_buf_ok|done|exact ex_grow|by vm_compute].
Defined.

Lemma mbuf_shift_refines_witness : exists w' b',
  mbuf_shift ex_w (Some ex_b) 1 None [] = Some (0, w', Some b') /\ pos b' = 3.
Proof.
  destruct (mbuf_shift_refines ex_w ex_b 1 None []) as (err&w'&b'&E&_&_&Hok);
    [exact ex_buf_ok|done|done|done|].
  assert (err = 0) as ->.
  { assert (fst ∘ fst <$> mbuf_shift ex_w (Some ex_b) 1 None [] = Some 0) as E0
      by by vm_compute.
    rewrite E in E0. by injection E0. }
  exists w', b'. split; [exact E|]. apply (Hok eq_refl).
Defined.

(** "abcd" without its section "bc". *)
Lemma mbuf_write_pl_skip_exact_witness : exists w' b',
  mbuf_write_pl_skip ex_w (Some ex_b) (Some (mk_pl 100 [97; 98; 99; 100]))
    (Some (mk_pl 101 [98; 99])) (Some 8192) None [] = Some (0, w', Some b') /\
  text w' b' = [1; 2; 97; 100].
Proof.
  destruct (mbuf_write_pl_skip ex_w (Some ex_b) (Some (mk_pl 100 [97; 98; 99; 100]))
    (Some (mk_pl 101 [98; 99])) (Some 8192) None []) as [[[err w'] mb']|] eqn:E;
    [|by vm_compute in E].
  assert (err = 0 /\ is_Some mb') as [-> [b' ->]].
  { vm_compute in E. simplify_eq. split; [done|by eexists]. }
  exists w', b'. split; [done|].
  destruct (mbuf_write_pl_skip_exact ex_w ex_b (mk_pl 100 [97; 98; 99; 100])
    (mk_pl 101 [98; 99]) (Some 8192) None [] w' b' ex_buf_ok) as (n&Hn&_&_&->);
    [done|done|done|apply (ex_grow 1); lia| |exact E|].
  { intros w1 b1 _ _. unfold grow_ok. by destruct (_ =? 0). }
  simpl in Hn. assert (n = 1%nat) as -> by lia. by vm_compute.
Defined.

Definition ex_bz : mbuf := mbuf_set_pos ex_b 0.
Definition ex_ref : heap := default ex_w (fst <$> mbuf_alloc_ref ex_w true (Some ex_bz)).

Lemma shared_buffer_dangles_witness : exists w2 b2,
  mbuf_write_mem ex_ref (Some ex_bz) (mk_pl 100 [1; 2; 3; 4; 5]) (Some 8192) [] =
    Some (0, w2, Some b2) /\
  mbuf_read_mem w2 (Some ex_bz) true 2 = None.
Proof.
  eexists _, _. split; [vm_compute; reflexivity|].
  apply (shared_buffer_dangles ex_w ex_bz ex_ref ex_bz (mk_pl 100 [1; 2; 3; 4; 5]) 8192 []
    _ (mk_mbuf 8192 8 5 5)); try by vm_compute.
  split; try by vm_compute. all: apply ex_buf_ok.
Defined.

End Mbuf.
