(* ===== verification/Codec.v ===== *)
(** * Buffers as the codecs use them

    The interface of src/libre/src/mbuf/mbuf.c to the parts of the library that
    encode and decode messages: an operational class with the operations they call,
    a class with what those promise, and the instance for the buffers of [Mbuf].
    The codecs are defined and verified against the classes. *)
From S2P Require Import Prelude Mem Pl Mbuf.
Import Pl.

Module Codec.

(** ** The operations

    [mb_byte] and [mb_set_byte] are the accesses [mb->buf[i]]; [None] is an access
    outside the buffer.  [mb_text] is the bytes up to the end and [mb_ok] the
    representation invariant, which do not occur in definitions. *)

Class Buffer (B : Type) := {
  mb_pos : B -> Z;
  mb_end : B -> Z;
  mb_set_pos : B -> Z -> B;
  mb_byte : B -> Z -> option Z;
  mb_set_byte : B -> Z -> Z -> option B;
  mbuf_write_mem : B -> list Z -> option (Z * B);
  mbuf_read_mem : B -> Z -> option (Z * list Z * B);
  mb_text : B -> list Z;
  mb_ok : B -> Prop }.

Definition mbuf_get_left {B} `{Buffer B} (b : B) : Z :=
  if mb_pos b <? mb_end b then mb_end b - mb_pos b else 0.

(** What the codecs rely on.  Writing is used only at a position inside the text. *)
Class BufferLaws (B : Type) `{Buffer B} := {
  mb_length b : mb_ok b -> Z.of_nat (length (mb_text b)) = mb_end b;
  mb_bounds b : mb_ok b -> 0 <= mb_pos b /\ 0 <= mb_end b <= Mem.SIZE_MAX;
  mb_pos_set b p : mb_ok b -> 0 <= p ->
    mb_ok (mb_set_pos b p) /\ mb_text (mb_set_pos b p) = mb_text b /\
    mb_pos (mb_set_pos b p) = p /\ mb_end (mb_set_pos b p) = mb_end b;
  mb_pos_set_set b p q : mb_set_pos (mb_set_pos b p) q = mb_set_pos b q;
  mb_pos_same b : mb_set_pos b (mb_pos b) = b;
  mb_byte_ok b i : mb_ok b -> 0 <= i < mb_end b -> mb_byte b i = mb_text b !! Z.to_nat i;
  mb_set_byte_ok b i v : mb_ok b -> 0 <= i < mb_end b ->
    exists b', mb_set_byte b i v = Some b' /\ mb_ok b' /\
      mb_text b' = <[Z.to_nat i := v]> (mb_text b) /\ mb_pos b' = mb_pos b;
  mb_write_ok b l : mb_ok b -> mb_pos b <= mb_end b ->
    mb_pos b + Z.of_nat (length l) <= Mem.SIZE_MAX ->
    exists err b', mbuf_write_mem b l = Some (err, b') /\ mb_ok b' /\
      ((err = 0 /\ mb_pos b' = mb_pos b + Z.of_nat (length l) /\
        mb_text b' = Mbuf.overwrite (mb_pos b) l (mb_text b)) \/
       (err = ENOMEM /\ mb_pos b' = mb_pos b /\ mb_text b' = mb_text b));
  mb_read_ok b n : mb_ok b -> 0 < n \/ (n = 0 /\ mb_pos b <= mb_end b) ->
    mbuf_read_mem b n =
      if mbuf_get_left b <? n then Some (EOVERFLOW, [], b)
      else Some (0, take (Z.to_nat n) (drop (Z.to_nat (mb_pos b)) (mb_text b)),
                 mb_set_pos b (mb_pos b + n)) }.

(** ** Integers and strings *)

(** The C string at the head of a block. *)
Fixpoint cstr (l : list Z) : list Z :=
  match l with [] => [] | c :: l => if c =? 0 then [] else c :: cstr l end.

Section Ops.
Context {B : Type} `{Buffer B}.

Definition mbuf_write_u8 (b : B) (v : Z) := mbuf_write_mem b (Mbuf.le_bytes 1 v).
Definition mbuf_write_u16 (b : B) (v : Z) := mbuf_write_mem b (Mbuf.le_bytes 2 v).
Definition mbuf_write_u32 (b : B) (v : Z) := mbuf_write_mem b (Mbuf.le_bytes 4 v).

Definition read_uint (k : nat) (b : B) : option (Z * B) :=
  '(err, data, b) ← mbuf_read_mem b (Z.of_nat k);
  Some (if err =? 0 then Mbuf.le_value data else 0, b).

(** [mbuf_strdup]: [ok] is whether the copy can be allocated; the new string. *)
Definition mbuf_strdup (ok : bool) (b : B) (len : Z) : option (Z * option (list Z) * B) :=
  if ok then
    '(err, data, b) ← mbuf_read_mem b len;
    Some (err, if err =? 0 then Some (cstr data) else None, b)
  else Some (ENOMEM, None, b).

Definition mbuf_read_u8 := read_uint 1.
Definition mbuf_read_u16 := read_uint 2.
Definition mbuf_read_u32 := read_uint 4.

End Ops.

(** [htons] and [htonl] on a little-endian machine; [ntohs] and [ntohl] are the same. *)
Definition htons (v : Z) : Z := Mbuf.le_value (rev (Mbuf.le_bytes 2 v)).
Definition htonl (v : Z) : Z := Mbuf.le_value (rev (Mbuf.le_bytes 4 v)).

(** The bytes of an integer in network order. *)
Definition be_bytes (k : nat) (v : Z) : list Z := rev (Mbuf.le_bytes k v).

Lemma bytes_check l : forallb (fun c => (0 <=? c) && (c <? 256)) l = true -> bytes l.
Proof.
  rewrite forallb_forall. intros H. apply Forall_forall. intros c Hc%list_elem_of_In%H.
  unfold is_byte. lia.
Qed.

Lemma le_bytes_range k v : bytes (Mbuf.le_bytes k v).
Proof.
  revert v. induction k as [|k IH]; intros v; simpl; [by constructor|].
  constructor; [apply u8_range|apply IH].
Qed.

Lemma le_bytes_value l : bytes l -> Mbuf.le_bytes (length l) (Mbuf.le_value l) = l.
Proof.
  induction 1 as [|b l Hb Hl IH]; [done|]. simpl. unfold is_byte in Hb.
  replace (b + 256 * Mbuf.le_value l) with (b + Mbuf.le_value l * 256) by lia.
  rewrite Z.div_add, Z.div_small, Z.add_0_l, IH by lia. f_equal.
  unfold u8. rewrite Z_mod_plus_full. by apply Z.mod_small.
Qed.

Lemma le_bytes_rev k v : Mbuf.le_bytes k (Mbuf.le_value (rev (Mbuf.le_bytes k v))) = be_bytes k v.
Proof.
  pose proof (le_bytes_value (rev (Mbuf.le_bytes k v))) as E.
  rewrite length_rev, Mbuf.le_bytes_length in E. apply E.
  apply Forall_rev, le_bytes_range.
Qed.

Lemma bytes_htons v : Mbuf.le_bytes 2 (htons v) = be_bytes 2 v.
Proof. apply le_bytes_rev. Qed.
Lemma bytes_htonl v : Mbuf.le_bytes 4 (htonl v) = be_bytes 4 v.
Proof. apply le_bytes_rev. Qed.

Lemma htons_pair a b : is_byte a -> is_byte b -> htons (Mbuf.le_value [a; b]) = 256 * a + b.
Proof.
  intros Ha Hb. unfold htons.
  pose proof (le_bytes_value [a; b]) as E. simpl length in E.
  rewrite E; [simpl; lia|]. apply Forall_cons_2; [done|]. apply Forall_cons_2; [done|]. by apply Forall_nil_2.
Qed.

Lemma be_bytes_length k v : length (be_bytes k v) = k.
Proof. unfold be_bytes. by rewrite length_rev, Mbuf.le_bytes_length. Qed.

Lemma be_bytes_range k v : bytes (be_bytes k v).
Proof. apply Forall_rev, le_bytes_range. Qed.

Lemma be_bytes_back k v : Mbuf.le_value (rev (Mbuf.le_bytes k (Mbuf.le_value (be_bytes k v)))) =
  v mod 256 ^ Z.of_nat k.
Proof.
  unfold be_bytes. rewrite le_bytes_rev. unfold be_bytes. by rewrite rev_involutive, Mbuf.le_value_bytes.
Qed.

Lemma ntohs_be v : htons (Mbuf.le_value (be_bytes 2 v)) = u16 v.
Proof. apply (be_bytes_back 2). Qed.
Lemma ntohl_be v : htonl (Mbuf.le_value (be_bytes 4 v)) = u32 v.
Proof. apply (be_bytes_back 4). Qed.

Lemma be_bytes_app l k v : bytes l -> bytes (l ++ be_bytes k v).
Proof. intros. apply Forall_app. split; [done|apply be_bytes_range]. Qed.

Lemma cstr_no_nul l : Forall (fun c => c <> 0) l -> cstr l = l.
Proof. induction 1 as [|c l Hc Hl IH]; [done|]. simpl. destruct (Z.eqb_spec c 0); [done|]. by rewrite IH. Qed.

(** Overwriting at the end appends. *)
Lemma overwrite_end l t : Mbuf.overwrite (Z.of_nat (length t)) l t = t ++ l.
Proof.
  unfold Mbuf.overwrite. rewrite Nat2Z.id, take_ge by lia. rewrite drop_ge by lia. by rewrite app_nil_r.
Qed.

(** ** Appending at the end of the text *)

Section Append.
Context {B : Type} `{BL : BufferLaws B}.

Definition at_end (b : B) (t : list Z) : Prop :=
  mb_ok b /\ mb_text b = t /\ mb_pos b = Z.of_nat (length t).

(** Memory can run out. *)
Definition writes_fail : Prop := exists (b b' : B) l, mbuf_write_mem b l = Some (ENOMEM, b').

(** What an encoder does at the end of [t] when it appends [l]. *)
Definition appends (t l : list Z) (r : option (Z * B)) : Prop :=
  exists err b', r = Some (err, b') /\ mb_ok b' /\
    ((err = 0 /\ at_end b' (t ++ l)) \/ (err = ENOMEM /\ writes_fail)).

Lemma write_end b t l : at_end b t ->
  Z.of_nat (length t) + Z.of_nat (length l) <= Mem.SIZE_MAX ->
  appends t l (mbuf_write_mem b l).
Proof.
  intros (Hb&Ht&Hp) Hl. pose proof (mb_length b Hb) as Hlen. rewrite Ht in Hlen.
  destruct (mb_write_ok b l Hb) as (err&b'&E&Hb'&Hcase); [lia|lia|].
  exists err, b'. split; [done|]. split; [done|].
  destruct Hcase as [(->&Hp'&Ht')|(->&_)]; [left|right].
  - split; [done|]. split_and!; [done|by rewrite Ht', Hp, Ht, overwrite_end|].
    rewrite Hp', Hp, length_app. lia.
  - split; [done|]. by exists b, b', l.
Qed.

Lemma write_u8_end b t c : at_end b t -> is_byte c ->
  Z.of_nat (length t) + 1 <= Mem.SIZE_MAX -> appends t [c] (mbuf_write_u8 b c).
Proof.
  intros Hb Hc Hl. unfold mbuf_write_u8. simpl. rewrite (u8_small c) by done. by apply write_end.
Qed.

Lemma write_u16_end b t v : at_end b t ->
  Z.of_nat (length t) + 2 <= Mem.SIZE_MAX -> appends t (be_bytes 2 v) (mbuf_write_u16 b (htons v)).
Proof.
  intros Hb Hl. unfold mbuf_write_u16. rewrite bytes_htons. apply write_end; [done|].
  by rewrite be_bytes_length.
Qed.

Lemma write_u32_end b t v : at_end b t ->
  Z.of_nat (length t) + 4 <= Mem.SIZE_MAX -> appends t (be_bytes 4 v) (mbuf_write_u32 b (htonl v)).
Proof.
  intros Hb Hl. unfold mbuf_write_u32. rewrite bytes_htonl. apply write_end; [done|].
  by rewrite be_bytes_length.
Qed.

End Append.

(** ** The buffers of [Mbuf] are such buffers

    [realloc] is what the C library returns to the growth of a buffer, as a
    function of the heap, and [junk] what it finds in the new part. *)

Section MbufBuffer.
Context (realloc : Mbuf.heap -> Mbuf.mbuf -> Z -> option Z) (junk : list Z).

Definition at_start (x : Mbuf.heap * Mbuf.mbuf) : Mbuf.mbuf := Mbuf.mbuf_set_pos (snd x) 0.

#[local] Instance mbuf_buffer : Buffer (Mbuf.heap * Mbuf.mbuf) := {
  mb_pos x := Mbuf.pos (snd x);
  mb_end x := Mbuf.end_ (snd x);
  mb_set_pos x p := (fst x, Mbuf.mbuf_set_pos (snd x) p);
  mb_byte x i := l ← Mbuf.load (fst x) (Mbuf.buf (snd x)) i 1; head l;
  mb_set_byte x i v :=
    w ← Mbuf.store (fst x) (Mbuf.buf (snd x)) i [v]; Some (w, snd x);
  mbuf_write_mem x l :=
    '(err, w, mb) ← Mbuf.mbuf_write_mem (fst x) (Some (snd x)) (Mbuf.local l)
                      (realloc (fst x) (snd x) (Z.of_nat (length l))) junk;
    b ← mb; Some (err, (w, b));
  mbuf_read_mem x n :=
    '(err, l, mb) ← Mbuf.mbuf_read_mem (fst x) (Some (snd x)) true n;
    b ← mb; Some (err, l, (fst x, b));
  mb_text x := Mbuf.text (fst x) (snd x);
  mb_ok x := 0 <= Mbuf.pos (snd x) /\ Mbuf.buf_ok (fst x) (at_start x) }.

Hypothesis realloc_ok : forall w b n, Mbuf.buf_ok w b -> 0 <= n ->
  Mbuf.pos b + n <= Mem.SIZE_MAX -> Mbuf.grow_ok w b (realloc w b n) (Mbuf.grown b n).

Lemma started w b : 0 <= Mbuf.pos b <= Mbuf.end_ b ->
  Mbuf.buf_ok w (Mbuf.mbuf_set_pos b 0) -> Mbuf.buf_ok w b.
Proof. intros Hp []. split; simpl in *; try done; lia. Qed.

Lemma restart w b p : 0 <= p <= Mbuf.end_ b -> Mbuf.buf_ok w b ->
  Mbuf.buf_ok w (Mbuf.mbuf_set_pos b p).
Proof. intros Hp []. split; simpl in *; try done; lia. Qed.

#[local] Instance mbuf_laws : BufferLaws (Mbuf.heap * Mbuf.mbuf).
Proof.
  split.
  - intros [w b] [_ Hb]. apply (Mbuf.text_length w _ Hb).
  - intros [w b] [Hp [_ He Hs _ _]]. simpl in *. unfold Mem.SIZE_MAX in *. lia.
  - intros [w b] p [Hp Hb] Hp'. by split_and!.
  - done.
  - by intros [w [? ? ? ?]].
  - intros [w b] i [Hp Hb] Hi. simpl in *. pose proof (Mbuf.data_length w _ Hb) as Hd.
    pose proof Hb as [_ _ [He _] _ _]. simpl in *.
    pose proof (Mbuf.load_ok w _ i 1 Hb) as E. simpl in E. rewrite E by lia. simpl.
    change (Mbuf.data w (at_start (w, b))) with (Mbuf.data w b) in *. unfold Mbuf.text.
    rewrite lookup_take_lt by lia.
    destruct (drop (Z.to_nat i) (Mbuf.data w b)) as [|x l] eqn:Ed.
    + apply (f_equal length) in Ed. rewrite length_drop in Ed. simpl in Ed. lia.
    + simpl. rewrite <- (Nat.add_0_r (Z.to_nat i)), <- lookup_drop, Ed. done.
  - intros [w b] i v [Hp Hb] Hi. simpl in *. pose proof (Mbuf.data_length w _ Hb) as Hd.
    pose proof Hb as [_ _ [He _] _ _]. simpl in *.
    destruct (Mbuf.store_ok w _ i [v] Hb) as (w'&E&Hb'&Ht); simpl; [lia..|].
    simpl in E. rewrite E. simpl. eexists. split; [done|]. split; [done|]. split; [|done].
    unfold Mbuf.text. simpl. change (Mbuf.data w' b) with (Mbuf.data w' (at_start (w, b))).
    rewrite Ht. change (Mbuf.data w (at_start (w, b))) with (Mbuf.data w b) in *.
    rewrite insert_take_drop by (rewrite length_take; lia).
    rewrite take_take, Nat.min_l by lia. rewrite take_app_ge by (rewrite length_take; lia).
    f_equal. rewrite length_take, Nat.min_l by lia.
    destruct (Z.to_nat (Mbuf.end_ b) - Z.to_nat i)%nat as [|k] eqn:Ek; [lia|]. simpl. f_equal.
    rewrite take_drop_commute, Nat.add_1_r. do 2 f_equal. lia.
  - intros [w b] l [Hp Hb] Hpos Hl. cbn [mb_pos mb_end mb_ok mb_text mbuf_write_mem mbuf_buffer fst snd] in *.
    apply started in Hb; [|done]. cbn [fst snd] in Hb.
    destruct (Mbuf.mbuf_write_mem_ok w b (Mbuf.local l) (realloc w b (Z.of_nat (length l))) junk Hb)
      as (res&E&err&w'&b'&->&Hcase); [done|done|apply (realloc_ok w b (Z.of_nat (length l))); [done|lia|done]|].
    rewrite E. simpl. eexists _, _. split; [done|].
    destruct Hcase as [(->&->&Hb'&Ht)|(->&Hb'&Hp'&Ht)].
    + split; [split; [done|]|right; done]. apply restart; [|done]. destruct Hb'; simpl in *; lia.
    + pose proof Hb' as [_ Hq _ _ _].
      split; [split; simpl; [lia|apply restart; [simpl; lia|done]]|left; done].
  - intros [w b] n [Hp Hb] Hn. simpl in *. unfold mbuf_get_left. simpl.
    unfold Mbuf.mbuf_read_mem. simpl.
    destruct (Z.ltb_spec (if Mbuf.pos b <? Mbuf.end_ b then Mbuf.end_ b - Mbuf.pos b else 0) n)
      as [|Hle]; [done|].
    pose proof (Mbuf.data_length w _ Hb) as Hd. pose proof Hb as [_ _ [He Hm] _ _]. simpl in *.
    assert (Mbuf.pos b + n <= Mbuf.end_ b).
    { destruct (Z.ltb_spec (Mbuf.pos b) (Mbuf.end_ b)); lia. }
    pose proof (Mbuf.load_ok w _ (Mbuf.pos b) n Hb) as E. simpl in E. rewrite E by lia. simpl.
    rewrite u64_small by (unfold Mem.SIZE_MAX in *; lia). do 3 f_equal.
    unfold Mbuf.text. rewrite !take_drop_commute, take_take. do 2 f_equal. lia.
Qed.

End MbufBuffer.

(** ** The abstract buffer: a text with a position, and memory without end *)

Section TextBuffer.

#[local] Instance text_buffer : Buffer (Z * list Z) := {
  mb_pos x := fst x;
  mb_end x := Z.of_nat (length (snd x));
  mb_set_pos x p := (p, snd x);
  mb_byte x i := if i <? 0 then None else snd x !! Z.to_nat i;
  mb_set_byte x i v :=
    if (i <? 0) || (Z.of_nat (length (snd x)) <=? i) then None
    else Some (fst x, <[Z.to_nat i := v]> (snd x));
  mbuf_write_mem x l :=
    Some (0, (fst x + Z.of_nat (length l), Mbuf.overwrite (fst x) l (snd x)));
  mbuf_read_mem x n :=
    let left := if fst x <? Z.of_nat (length (snd x)) then Z.of_nat (length (snd x)) - fst x else 0 in
    if left <? n then Some (EOVERFLOW, [], x)
    else Some (0, take (Z.to_nat n) (drop (Z.to_nat (fst x)) (snd x)), (fst x + n, snd x));
  mb_text x := snd x;
  mb_ok x := 0 <= fst x /\ Z.of_nat (length (snd x)) <= Mem.SIZE_MAX }.

#[local] Instance text_laws : BufferLaws (Z * list Z).
Proof.
  split; simpl.
  - done.
  - intros [p t]; simpl; lia.
  - by intros [p t] q [? ?] ?.
  - done.
  - by intros [p t].
  - intros [p t] i _ Hi. simpl in *. destruct (Z.ltb_spec i 0); [lia|done].
  - intros [p t] i v Hb Hi. simpl in *. destruct (Z.ltb_spec i 0); [lia|].
    destruct (Z.leb_spec (Z.of_nat (length t)) i); [lia|]. simpl.
    eexists. split; [done|]. simpl. by rewrite length_insert.
  - intros [p t] l [Hp Ht] Hpos Hl. simpl in *. eexists _, _. split; [done|]. simpl.
    split; [|left; done]. unfold Mbuf.overwrite.
    rewrite !length_app, length_take, length_drop. lia.
  - by intros [p t] n _ _.
Qed.

Lemma text_never_fails : ~ writes_fail (B := Z * list Z).
Proof. by intros (b&b'&l&E). Qed.

End TextBuffer.

End Codec.
