(* ===== verification/Wire.v ===== *)
(** * Messages as sequences of fields

    The two idioms of the codecs of the library, [err |= write(...)] and a decoder that
    returns at the first error, and the laws by which the theorems about messages are
    put together from those about fields. *)
From S2P Require Import Prelude Mem Pl Mbuf Codec.
Import Pl Codec.

Module Wire.

(** ** Sequences of encoding and decoding steps *)

(** [err |= m1; err |= m2;] *)
Definition also {S} (m1 m2 : S -> option (Z * S)) (s : S) : option (Z * S) :=
  '(e1, s) ← m1 s; '(e2, s) ← m2 s; Some (Z.lor e1 e2, s).
Declare Scope wire_scope.
Create HintDb wire.
#[global] Open Scope wire_scope.
Notation "m1 ;| m2" := (also m1 m2) (at level 60, right associativity) : wire_scope.

(** A step of a decoder gives a value, or an error that ends it. *)
Definition Dec (B A : Type) : Type := B -> option ((Z + A) * B).
Definition ret {B A} (a : A) : Dec B A := fun b => Some (inr a, b).
Definition fail {B A} (err : Z) : Dec B A := fun b => Some (inl err, b).
Definition bind {B A C} (d : Dec B A) (f : A -> Dec B C) : Dec B C := fun b =>
  '(r, b) ← d b;
  match r with inl err => Some (inl err, b) | inr a => f a b end.
Notation "x ⇐ d ; e" := (bind d (fun x => e)) (at level 20, d at level 100, e at level 200) : wire_scope.

Section Steps.
Context {B : Type} `{Buffer B}.

Definition need {A} (n err : Z) (d : Dec B A) : Dec B A := fun b =>
  if mbuf_get_left b <? n then Some (inl err, b) else d b.
Definition get_u16 : Dec B Z := fun b => '(v, b) ← mbuf_read_u16 b; Some (inr (htons v), b).
Definition get_u32 : Dec B Z := fun b => '(v, b) ← mbuf_read_u32 b; Some (inr (htonl v), b).
Definition get_u8 : Dec B Z := fun b => '(v, b) ← mbuf_read_u8 b; Some (inr v, b).
Definition get_mem (n : Z) : Dec B (list Z) := fun b =>
  '(err, l, b) ← mbuf_read_mem b n; Some (if err =? 0 then inr l else inl err, b).

Definition write_n16 (v : Z) (b : B) : option (Z * B) := mbuf_write_u16 b (htons v).
Definition write_n32 (v : Z) (b : B) : option (Z * B) := mbuf_write_u32 b (htonl v).

End Steps.

(** ** Reading fields

    [reads pre w post d a]: after [pre], the decoder [d] takes [w] for the value [a]
    and leaves [post] and whatever follows it. *)

Section Reads.
Context {B : Type} `{BL : BufferLaws B}.

Definition reads {A} (pre w post : list Z) (d : Dec B A) (a : A) : Prop :=
  forall (b : B) x, mb_ok b -> bytes (mb_text b) -> mb_text b = pre ++ w ++ post ++ x ->
    mb_pos b = Z.of_nat (length pre) ->
    d b = Some (inr a, mb_set_pos b (Z.of_nat (length (pre ++ w)))).

Lemma reads_ret {A} pre post (a : A) : reads pre [] post (ret a) a.
Proof.
  intros b x Hb _ _ Hp. unfold ret. rewrite app_nil_r, <- Hp. by rewrite mb_pos_same.
Qed.

Lemma reads_bind {A C} pre w1 w2 post (d : Dec B A) (f : A -> Dec B C) a c :
  reads pre w1 (w2 ++ post) d a -> reads (pre ++ w1) w2 post (f a) c ->
  reads pre (w1 ++ w2) post (bind d f) c.
Proof.
  intros Hd Hf b x Hb Hbytes Ht Hp. unfold bind. rewrite <- !app_assoc in Ht.
  rewrite (Hd b x Hb Hbytes) by (done || by rewrite <- app_assoc). cbn [mbind option_bind].
  destruct (mb_pos_set b (Z.of_nat (length (pre ++ w1))) Hb) as (Hb'&Ht'&Hp'&_); [lia|].
  rewrite (Hf _ x Hb'); [by rewrite mb_pos_set_set, <- app_assoc|by rewrite Ht'| |done].
  rewrite Ht', Ht. by rewrite <- !app_assoc.
Qed.

Lemma reads_map {A C} pre w post (d : Dec B A) (f : A -> C) a c :
  reads pre w post d a -> f a = c -> reads pre w post (bind d (fun a => ret (f a))) c.
Proof.
  intros Hd <-. rewrite <- (app_nil_r w). apply (reads_bind _ _ _ _ _ _ a); [|apply reads_ret].
  done.
Qed.

Lemma left_of (b : B) pre l : mb_ok b -> mb_text b = pre ++ l -> mb_pos b = Z.of_nat (length pre) ->
  mbuf_get_left b = Z.of_nat (length l).
Proof.
  intros Hb Ht Hp. pose proof (mb_length b Hb) as Hl. rewrite Ht, length_app in Hl.
  unfold mbuf_get_left. destruct (Z.ltb_spec (mb_pos b) (mb_end b)); lia.
Qed.

Lemma reads_need {A} pre w post n err (d : Dec B A) a : n <= Z.of_nat (length (w ++ post)) ->
  reads pre w post d a -> reads pre w post (need n err d) a.
Proof.
  intros Hn Hd b x Hb Hbytes Ht Hp. unfold need.
  rewrite (left_of b pre (w ++ post ++ x) Hb Ht Hp).
  destruct (Z.ltb_spec (Z.of_nat (length (w ++ post ++ x))) n) as [Hlt|_]; [|by apply (Hd b x)].
  rewrite app_assoc, length_app in Hlt. lia.
Qed.

(** A block at the position is read whole. *)
Lemma read_block (b : B) pre w l : mb_ok b -> mb_text b = pre ++ w ++ l ->
  mb_pos b = Z.of_nat (length pre) ->
  mbuf_read_mem b (Z.of_nat (length w)) =
    Some (0, w, mb_set_pos b (Z.of_nat (length (pre ++ w)))).
Proof.
  intros Hb Ht Hp. pose proof (mb_length b Hb) as Hlen. rewrite Ht, !length_app in Hlen.
  rewrite mb_read_ok; [|done|destruct w; [right; simpl in *; lia|left; simpl; lia]].
  rewrite (left_of b pre (w ++ l) Hb Ht Hp). rewrite length_app.
  destruct (Z.ltb_spec (Z.of_nat (length w + length l)) (Z.of_nat (length w))); [lia|].
  rewrite Hp, Ht, !Nat2Z.id, drop_app_length, take_app_length, length_app.
  do 3 f_equal. lia.
Qed.

Lemma reads_mem pre w post : reads pre w post (get_mem (Z.of_nat (length w))) w.
Proof.
  intros b x Hb _ Ht Hp. unfold get_mem. by rewrite (read_block b pre w (post ++ x) Hb Ht Hp).
Qed.

Lemma read_uint_be (b : B) k v pre l : mb_ok b -> mb_text b = pre ++ be_bytes k v ++ l ->
  mb_pos b = Z.of_nat (length pre) ->
  read_uint k b = Some (Mbuf.le_value (be_bytes k v),
    mb_set_pos b (Z.of_nat (length (pre ++ be_bytes k v)))).
Proof.
  intros Hb Ht Hp. unfold read_uint. pose proof (read_block b pre (be_bytes k v) l Hb Ht Hp) as E.
  rewrite be_bytes_length in E. by rewrite E.
Qed.

Lemma reads_u16 pre post v : 0 <= v < 65536 -> reads pre (be_bytes 2 v) post get_u16 v.
Proof.
  intros Hv b x Hb _ Ht Hp. unfold get_u16, mbuf_read_u16.
  rewrite (read_uint_be b 2 v pre (post ++ x) Hb Ht Hp). cbn [mbind option_bind].
  by rewrite ntohs_be, u16_small.
Qed.

Lemma reads_u32 pre post v : 0 <= v < 4294967296 -> reads pre (be_bytes 4 v) post get_u32 v.
Proof.
  intros Hv b x Hb _ Ht Hp. unfold get_u32, mbuf_read_u32.
  rewrite (read_uint_be b 4 v pre (post ++ x) Hb Ht Hp). cbn [mbind option_bind].
  by rewrite ntohl_be, u32_small.
Qed.

Lemma reads_u8 pre post v : 0 <= v < 256 -> reads pre [v] post get_u8 v.
Proof.
  intros Hv b x Hb _ Ht Hp. unfold get_u8, mbuf_read_u8, read_uint.
  pose proof (read_block b pre [v] (post ++ x) Hb Ht Hp) as E. simpl length in E.
  rewrite E. cbn [mbind option_bind Z.eqb Mbuf.le_value]. do 3 f_equal. lia.
Qed.

(** ** Writing fields

    The fields of a message are all written, whatever came of the ones before, and the
    error codes are joined.  So a result other than 0 says that some write failed. *)

Definition failed {S} (r : option (Z * S)) : Prop :=
  writes_fail (B := B) /\ forall s, r <> Some (0, s).

Lemma also_zero {S} (m1 m2 : S -> option (Z * S)) s s' : (m1 ;| m2) s = Some (0, s') ->
  exists s1, m1 s = Some (0, s1) /\ m2 s1 = Some (0, s').
Proof.
  unfold also. destruct (m1 s) as [[e1 s1]|]; [|done]. cbn [mbind option_bind].
  destruct (m2 s1) as [[e2 s2]|] eqn:E2; [|done]. cbn [mbind option_bind].
  intros [= [-> ->]%Z.lor_eq_0_iff ->]. by exists s1.
Qed.

Lemma also_fails {S} (m1 m2 : S -> option (Z * S)) s : failed (m1 s) -> failed ((m1 ;| m2) s).
Proof. intros [Hf Hn]. split; [done|]. intros s' (s1&E&_)%also_zero. by apply (Hn s1). Qed.

Lemma also_then_fails {S} (m1 m2 : S -> option (Z * S)) s s1 : m1 s = Some (0, s1) ->
  failed (m2 s1) -> failed ((m1 ;| m2) s).
Proof. intros E1 [Hf Hn]. split; [done|]. intros s' (s2&E&E2)%also_zero. rewrite E1 in E. simplify_eq. by apply (Hn s'). Qed.

(** Nothing but memory that runs out keeps an encoder from appending [w]. *)
Definition emits (w : list Z) (m : B -> option (Z * B)) : Prop :=
  forall b t, at_end b t -> Z.of_nat (length t) + Z.of_nat (length w) <= Mem.SIZE_MAX ->
    (exists b', m b = Some (0, b') /\ at_end b' (t ++ w)) \/ failed (m b).

Lemma emits_appends w m : (forall b t, at_end b t ->
    Z.of_nat (length t) + Z.of_nat (length w) <= Mem.SIZE_MAX -> appends t w (m b)) -> emits w m.
Proof.
  intros Ha b t Hb Hl. destruct (Ha b t Hb Hl) as (err&b'&E&_&[[-> ?]|[-> ?]]); [left; by exists b'|right].
  split; [done|]. intros s. by rewrite E.
Qed.

Lemma emits_mem w : emits w (fun b => mbuf_write_mem b w).
Proof. apply emits_appends. intros. by apply write_end. Qed.

Lemma emits_u8 v : is_byte v -> emits [v] (fun b => mbuf_write_u8 b v).
Proof. intros Hv. apply emits_appends. intros. by apply write_u8_end. Qed.

Lemma emits_n16 v : emits (be_bytes 2 v) (write_n16 v).
Proof. apply emits_appends. intros b t Hb Hl. rewrite be_bytes_length in Hl. by apply write_u16_end. Qed.

Lemma emits_n32 v : emits (be_bytes 4 v) (write_n32 v).
Proof. apply emits_appends. intros b t Hb Hl. rewrite be_bytes_length in Hl. by apply write_u32_end. Qed.

Lemma emits_also w1 w2 m1 m2 : emits w1 m1 -> emits w2 m2 -> emits (w1 ++ w2) (m1 ;| m2).
Proof.
  intros H1 H2 b t Hb Hl. rewrite length_app in Hl.
  destruct (H1 b t Hb) as [(b1&E1&Hb1)|Hf]; [lia| |right; by apply also_fails].
  destruct (H2 b1 _ Hb1) as [(b2&E2&Hb2)|Hf]; [rewrite length_app; lia| |right; by eapply also_then_fails].
  left. exists b2. unfold also. rewrite E1. cbn [mbind option_bind]. rewrite E2. split; [done|]. by rewrite app_assoc.
Qed.

(** ** Staying inside the buffer

    A decoder that is [within] only moves the position, forwards and not past the end,
    whatever the buffer holds. *)
Definition within_at {A} (d : Dec B A) (b : B) : Prop := exists r p, d b = Some (r, mb_set_pos b p) /\ mb_pos b <= p <= mb_end b.
Definition within {A} (d : Dec B A) : Prop := forall b, mb_ok b -> mb_pos b <= mb_end b -> within_at d b.

Lemma within_still {A} (d : Dec B A) b r : mb_ok b -> mb_pos b <= mb_end b -> d b = Some (r, b) -> within_at d b.
Proof. intros Hb Hp E. exists r, (mb_pos b). rewrite mb_pos_same. split; [done|lia]. Qed.

Lemma within_ret {A} (a : A) : within (ret a).
Proof. intros b Hb Hp. by apply (within_still _ b (inr a)). Qed.
Lemma within_fail {A} err : within (A := A) (fail err).
Proof. intros b Hb Hp. by apply (within_still _ b (inl err)). Qed.

Lemma within_bind_at {A C} (d : Dec B A) (f : A -> Dec B C) b : mb_ok b -> within_at d b ->
  (forall a p, d b = Some (inr a, mb_set_pos b p) -> mb_pos b <= p <= mb_end b -> within_at (f a) (mb_set_pos b p)) ->
  within_at (bind d f) b.
Proof.
  intros Hb (r&p&E&Hp) Hf. pose proof (mb_bounds b Hb) as Hbd. unfold within_at, bind. rewrite E. cbn [mbind option_bind].
  destruct r as [err|a]; [by exists (inl err), p|]. destruct (Hf a p E Hp) as (r&q&E2&Hq).
  destruct (mb_pos_set b p Hb) as (_&_&Hp'&He'); [lia|]. rewrite Hp', He' in Hq.
  exists r, q. rewrite E2, mb_pos_set_set. split; [done|lia].
Qed.

Lemma within_bind {A C} (d : Dec B A) (f : A -> Dec B C) : within d -> (forall a, within (f a)) -> within (bind d f).
Proof.
  intros Hd Hf b Hb Hp. apply within_bind_at; [done|by apply Hd|]. intros a p _ Hpp. pose proof (mb_bounds b Hb).
  destruct (mb_pos_set b p Hb) as (Hb'&_&Hp'&He'); [lia|]. apply Hf; [done|]. lia.
Qed.

Lemma within_need_at {A} n err (d : Dec B A) b : mb_ok b -> mb_pos b <= mb_end b ->
  (mb_pos b + n <= mb_end b \/ n <= 0 -> within_at d b) -> within_at (need n err d) b.
Proof.
  intros Hb Hp Hd. unfold within_at, need, mbuf_get_left in *. destruct (Z.ltb_spec (if mb_pos b <? mb_end b then mb_end b - mb_pos b else 0) n).
  - exists (inl err), (mb_pos b). rewrite mb_pos_same. split; [done|lia].
  - apply Hd. destruct (Z.ltb_spec (mb_pos b) (mb_end b)); lia.
Qed.
Lemma within_need {A} n err (d : Dec B A) : within d -> within (need n err d).
Proof. intros Hd b Hb Hp. apply within_need_at; [done|done|]. intros _. by apply Hd. Qed.

Lemma read_mem_cases b n : mb_ok b -> mb_pos b <= mb_end b -> 0 <= n ->
  mbuf_read_mem b n = Some (EOVERFLOW, [], b) \/
  (mb_pos b + n <= mb_end b /\ exists l, mbuf_read_mem b n = Some (0, l, mb_set_pos b (mb_pos b + n))).
Proof.
  intros Hb Hp Hn. rewrite mb_read_ok by (done || lia). unfold mbuf_get_left.
  destruct (Z.ltb_spec (if mb_pos b <? mb_end b then mb_end b - mb_pos b else 0) n); [by left|right].
  split; [destruct (Z.ltb_spec (mb_pos b) (mb_end b)); lia|by eexists].
Qed.

Lemma within_mem n : 0 <= n -> within (get_mem n).
Proof.
  intros Hn b Hb Hp. unfold within_at, get_mem. destruct (read_mem_cases b n Hb Hp Hn) as [->|(Hle&l&->)]; cbn [mbind option_bind].
  - eexists _, (mb_pos b). rewrite mb_pos_same. split; [reflexivity|lia].
  - eexists _, _. split; [reflexivity|lia].
Qed.
Lemma within_uint {A} k (f : Z -> A) : within (fun b => '(v, b) ← read_uint k b; Some (inr (f v), b)).
Proof.
  intros b Hb Hp. unfold within_at, read_uint. destruct (read_mem_cases b (Z.of_nat k) Hb Hp) as [->|(Hle&l&->)]; [lia|..]; cbn [mbind option_bind].
  - eexists _, (mb_pos b). rewrite mb_pos_same. split; [reflexivity|lia].
  - eexists _, _. split; [reflexivity|lia].
Qed.
Lemma within_u8 : within get_u8.
Proof. apply (within_uint 1 (fun v => v)). Qed.
Lemma within_u16 : within get_u16.
Proof. apply (within_uint 2 htons). Qed.
Lemma within_u32 : within get_u32.
Proof. apply (within_uint 4 htonl). Qed.

(** The numbers that are read have their widths. *)
Lemma within_bind_uint {A C} k (g : Z -> A) (P : A -> Prop) (f : A -> Dec B C) : (forall v, P (g v)) ->
  (forall a, P a -> within (f a)) -> within (bind (fun b => '(v, b) ← read_uint k b; Some (inr (g v), b)) f).
Proof.
  intros Hg Hf b Hb Hp. apply within_bind_at; [done|by apply within_uint|]. intros a p E Hpp. pose proof (mb_bounds b Hb).
  destruct (mb_pos_set b p Hb) as (Hb'&_&Hp'&He'); [lia|]. apply Hf; [|done|lia].
  unfold read_uint in E. destruct (mbuf_read_mem b (Z.of_nat k)) as [[[e l] b']|]; [|done]. cbn [mbind option_bind] in E.
  injection E as <- _. apply Hg.
Qed.

Lemma le_value_range l : bytes l -> 0 <= Mbuf.le_value l < 256 ^ Z.of_nat (length l).
Proof.
  induction 1 as [|c l Hc _ IH]; [done|]. cbn [Mbuf.le_value length]. unfold is_byte in Hc.
  rewrite Nat2Z.inj_succ, Z.pow_succ_r by lia. lia.
Qed.
Lemma be_value_range k v : 0 <= Mbuf.le_value (rev (Mbuf.le_bytes k v)) < 256 ^ Z.of_nat k.
Proof.
  pose proof (le_value_range (rev (Mbuf.le_bytes k v)) (be_bytes_range k v)) as Hv.
  rewrite length_rev, Mbuf.le_bytes_length in Hv. done.
Qed.

Lemma within_bind_u16 {C} (f : Z -> Dec B C) : (forall a, 0 <= a < 65536 -> within (f a)) -> within (bind get_u16 f).
Proof. apply (within_bind_uint 2 htons). intros v. apply (be_value_range 2). Qed.
Lemma within_bind_u32 {C} (f : Z -> Dec B C) : (forall a, 0 <= a < 4294967296 -> within (f a)) -> within (bind get_u32 f).
Proof. apply (within_bind_uint 4 htonl). intros v. apply (be_value_range 4). Qed.

End Reads.

#[export] Hint Resolve within_ret within_fail within_mem within_u8 within_u16 within_u32 within_need within_bind : wire.
#[export] Hint Resolve reads_u16 reads_u32 reads_u8 reads_ret : wire.
#[export] Hint Resolve emits_n16 emits_n32 emits_mem emits_u8 : wire.

End Wire.
