(* ===== verification/Base64.v ===== *)
(** * Base64: src/libre/src/base64/b64.c

    Encoding and decoding of buffers.  The capacity of the output buffer is an
    argument; writing beyond it would be undefined, which a theorem excludes. *)
From S2P Require Import Prelude.

Module Base64.

Definition b64_table : list Z := seqZ 65 26 ++ seqZ 97 26 ++ seqZ 48 10 ++ [43; 47].

(** [b64_table[i]]; [None] outside the table. *)
Definition b64_char (i : Z) : option Z :=
  if i <? 0 then None else b64_table !! Z.to_nat i.

(** Bits [k] to [k+5] of [v]. *)
Definition sextet (v k : Z) : Z := Z.land (Z.shiftr v k) 63.

(** The three (or less) bytes of an iteration: the group and the padding. *)
Definition group (x : Z) (rest : list Z) : Z * nat :=
  let v := u32 (Z.shiftl x 16) in
  match rest with
  | [] => (v, 2%nat)
  | [y] => (Z.lor v (Z.shiftl y 8), 1%nat)
  | y :: z :: _ => (Z.lor (Z.lor v (Z.shiftl y 8)) z, 0%nat)
  end.

(** The four characters of an iteration, before those of the rest. *)
Definition emit (g : Z * nat) (rest : option (list Z)) : option (list Z) :=
  let '(v, pad) := g in
  c0 ← b64_char (sextet v 18); c1 ← b64_char (sextet v 12);
  c2 ← (if (2 <=? pad)%nat then Some 61 else b64_char (sextet v 6));
  c3 ← (if (1 <=? pad)%nat then Some 61 else b64_char (sextet v 0));
  o ← rest;
  Some (c0 :: c1 :: c2 :: c3 :: o).

(** The loop of [base64_encode]. *)
Fixpoint encode_loop (i : list Z) : option (list Z) :=
  match i with
  | [] => Some []
  | [x] => emit (group x []) (Some [])
  | [x; y] => emit (group x [y]) (Some [])
  | x :: y :: z :: t => emit (group x [y; z]) (encode_loop t)
  end.

(** The result and, on success, what is written and stored in [*olen].  [None] for
    [i] or [olen]: a null pointer; [o]: whether [out] is not null. *)
Definition base64_encode (i : option (list Z)) (o : bool) (olen : option Z) :
    option (Z * option (list Z)) :=
  match i, o, olen with
  | Some i, true, Some olen =>
      let ilen := Z.of_nat (length i) in
      if olen <? u64 (4 * (u64 (ilen + 2) / 3)) then Some (EOVERFLOW, None)
      else w ← encode_loop i; Some (0, Some w)
  | _, _, _ => Some (EINVAL, None)
  end.

(** The calls of the print handler; [len] bytes are left, of which an iteration
    encodes up to 192 into a buffer of 256. *)
Fixpoint print_loop (fuel : nat) (i : list Z) : option (Z * list (list Z)) :=
  match i with
  | [] => Some (0, [])
  | _ =>
      match fuel with
      | O => None
      | S fuel =>
          r ← base64_encode (Some (take 192 i)) true (Some 256);
          match r with
          | (0, Some w) => '(err, ws) ← print_loop fuel (drop 192 i); Some (err, w :: ws)
          | (err, _) => Some (err, [])
          end
      end
  end.
Definition base64_print (i : option (list Z)) : option (Z * list (list Z)) :=
  match i with Some i => print_loop (length i) i | None => Some (EINVAL, []) end.

(** [char] to 6 bits; padding sets a bit above the group. *)
Definition b64val (x : Z) : Z :=
  let c := s8 x in
  if (65 <=? c) && (c <=? 90) then c - 65
  else if (97 <=? c) && (c <=? 122) then c - 97 + 26
  else if (48 <=? c) && (c <=? 57) then c - 48 + 52
  else if c =? 43 then 62
  else if c =? 47 then 63
  else if c =? 61 then 16777216
  else 0.

Definition quad (a b c d : Z) : Z :=
  Z.lor (Z.lor (Z.lor (u32 (Z.shiftl (b64val a) 18)) (u32 (Z.shiftl (b64val b) 12)))
               (u32 (Z.shiftl (b64val c) 6))) (b64val d).

Definition quad_bytes (v : Z) : list Z :=
  [u8 (Z.shiftr v 16)] ++
  (if Z.testbit v 30 then [] else [Z.land (Z.shiftr v 8) 255]) ++
  (if Z.testbit v 24 then [] else [Z.land v 255]).

(** The loop of [base64_decode]: it stops when less than four characters are left. *)
Fixpoint decode_loop (i : list Z) : list Z :=
  match i with
  | a :: b :: c :: d :: i => quad_bytes (quad a b c d) ++ decode_loop i
  | _ => []
  end.

Definition base64_decode (i : option (list Z)) (o : bool) (olen : option Z) : Z * option (list Z) :=
  match i, o, olen with
  | Some i, true, Some olen =>
      if olen <? u64 (3 * (Z.of_nat (length i) / 4)) then (EOVERFLOW, None)
      else (0, Some (decode_loop i))
  | _, _, _ => (EINVAL, None)
  end.

(** "Man" and "Ma", encoded and decoded by the code. *)
Example encode_man : base64_encode (Some [77; 97; 110; 77; 97]) true (Some 8) =
  Some (0, Some [84; 87; 70; 117; 84; 87; 69; 61]).
Proof. vm_compute. reflexivity. Qed.
Example decode_man : base64_decode (Some [84; 87; 70; 117; 84; 87; 69; 61]) true (Some 6) =
  (0, Some [77; 97; 110; 77; 97]).
Proof. vm_compute. reflexivity. Qed.

(** ** Arithmetic of the groups *)

Definition bytes (l : list Z) : Prop := Forall (fun b => 0 <= b < 256) l.

Lemma lor_add k a b : 0 <= k -> 0 <= b < 2 ^ k -> Z.lor (a * 2 ^ k) b = a * 2 ^ k + b.
Proof.
  intros Hk Hb. rewrite <- Z.add_lor_land.
  assert (Z.land (a * 2 ^ k) b = 0) as ->; [|lia].
  apply Z.bits_inj_0. intros i. rewrite Z.land_spec. destruct (Z.lt_ge_cases i k) as [Hi|Hi].
  - by rewrite Z.mul_pow2_bits_low by lia.
  - rewrite andb_comm. destruct (Z.eq_dec b 0) as [->|]; [by rewrite Z.bits_0|].
    rewrite (Z.bits_above_log2 b); [done|lia|]. apply Z.log2_lt_pow2; [lia|].
    eapply Z.lt_le_trans; [apply Hb|]. apply Z.pow_le_mono_r; lia.
Qed.

Lemma sextet_range v k : 0 <= sextet v k < 64.
Proof.
  unfold sextet. change 63 with (Z.ones 6). rewrite Z.land_ones by lia.
  change (2 ^ 6) with 64. apply Z.mod_pos_bound. lia.
Qed.

Lemma sextet_div v k : 0 <= k -> sextet v k = (v / 2 ^ k) mod 64.
Proof.
  intros Hk. unfold sextet. change 63 with (Z.ones 6).
  by rewrite Z.land_ones, Z.shiftr_div_pow2 by lia.
Qed.

(** A finite check over the alphabet. *)
Lemma table_ok i : 0 <= i < 64 -> exists c, b64_char i = Some c /\ b64val c = i /\ 0 <= c < 256.
Proof.
  intros Hi. assert (forallb (fun i => match b64_char i with
    | Some c => (b64val c =? i) && (0 <=? c) && (c <? 256) | None => false end) (seqZ 0 64) = true) as H
    by by vm_compute.
  rewrite forallb_forall in H. specialize (H i). rewrite <- list_elem_of_In, elem_of_seqZ in H.
  specialize (H ltac:(lia)). destruct (b64_char i) as [c|]; [|done]. exists c. split; [done|].
  apply andb_prop in H as [[?%Z.eqb_eq ?%Z.leb_le]%andb_prop ?%Z.ltb_lt]. lia.
Qed.

(** Four values, the last two of which may be padding. *)
Lemma quad_sum a b c d A B : b64val a = A -> b64val b = B -> 0 <= A < 64 -> 0 <= B < 64 ->
  (forall C D, b64val c = C -> b64val d = D -> 0 <= C < 64 -> 0 <= D < 64 ->
     quad a b c d = A * 262144 + B * 4096 + C * 64 + D) /\
  (forall C, b64val c = C -> b64val d = 16777216 -> 0 <= C < 64 ->
     quad a b c d = 16777216 + (A * 262144 + B * 4096 + C * 64)) /\
  (b64val c = 16777216 -> b64val d = 16777216 ->
     quad a b c d = 1090519040 + (A * 262144 + B * 4096)).
Proof.
  intros Ha Hb HA HB. unfold quad. rewrite Ha, Hb, !Z.shiftl_mul_pow2 by lia.
  change (2 ^ 18) with 262144. change (2 ^ 12) with 4096. change (2 ^ 6) with 64.
  rewrite (u32_small (A * 262144)), (u32_small (B * 4096)) by lia.
  assert (Z.lor (A * 262144) (B * 4096) = (A * 64 + B) * 4096) as ->.
  { change (A * 262144) with (A * 2 ^ 18). rewrite (lor_add 18 A (B * 4096)) by (change (2 ^ 18) with 262144; lia).
    change (2 ^ 18) with 262144. lia. }
  split_and!.
  - intros C D -> -> HC HD. rewrite u32_small by lia.
    change ((A * 64 + B) * 4096) with ((A * 64 + B) * 2 ^ 12).
    rewrite (lor_add 12 (A * 64 + B) (C * 64)) by (change (2 ^ 12) with 4096; lia).
    change (2 ^ 12) with 4096.
    replace ((A * 64 + B) * 4096 + C * 64) with (((A * 64 + B) * 64 + C) * 2 ^ 6) by lia.
    rewrite lor_add by (change (2 ^ 6) with 64; lia). change (2 ^ 6) with 64. lia.
  - intros C -> -> HC. rewrite u32_small by lia.
    change ((A * 64 + B) * 4096) with ((A * 64 + B) * 2 ^ 12).
    rewrite (lor_add 12 (A * 64 + B) (C * 64)) by (change (2 ^ 12) with 4096; lia).
    change (2 ^ 12) with 4096. rewrite Z.lor_comm.
    change 16777216 with (1 * 2 ^ 24) at 1. rewrite (lor_add 24 1) by (change (2 ^ 24) with 16777216; lia). lia.
  - intros -> ->. change (u32 (16777216 * 64)) with 1073741824.
    rewrite <- Z.lor_assoc. change (Z.lor 1073741824 16777216) with (65 * 2 ^ 24).
    rewrite Z.lor_comm, lor_add by (change (2 ^ 24) with 16777216; lia). lia.
Qed.

(** The group of up to three bytes is their big-endian number. *)
Lemma group_value x rest : bytes (x :: rest) ->
  group x rest = match rest with
                 | [] => (x * 65536, 2%nat)
                 | [y] => (x * 65536 + y * 256, 1%nat)
                 | y :: z :: _ => (x * 65536 + y * 256 + z, 0%nat)
                 end.
Proof.
  intros [Hx Hr]%Forall_cons. unfold group. rewrite Z.shiftl_mul_pow2, u32_small by lia.
  destruct rest as [|y rest]; [done|]. apply Forall_cons in Hr as [Hy Hr].
  rewrite Z.shiftl_mul_pow2, lor_add by (change (2 ^ 16) with 65536; lia).
  change (2 ^ 16) with 65536. change (2 ^ 8) with 256. destruct rest as [|z rest]; [done|].
  apply Forall_cons in Hr as [Hz _].
  replace (x * 65536 + y * 256) with ((x * 256 + y) * 2 ^ 8) by lia.
  rewrite lor_add by (change (2 ^ 8) with 256; lia). done.
Qed.

Lemma mod_256 v : Z.land v 255 = v mod 256.
Proof. change 255 with (Z.ones 8). by rewrite Z.land_ones by lia. Qed.

(** Dropping the bits of the padding. *)
Lemma quad_bytes_value p v : 0 <= v < 16777216 -> p = 0 \/ p = 16777216 \/ p = 1090519040 ->
  quad_bytes (p + v) = v / 65536 :: (if p =? 0 then [v / 256 mod 256; v mod 256]
    else if p =? 16777216 then [v / 256 mod 256] else []).
Proof.
  intros Hv Hp. unfold quad_bytes. rewrite !mod_256, !Z.shiftr_div_pow2 by lia.
  rewrite !Z.testbit_odd, !Z.shiftr_div_pow2 by lia.
  change (2 ^ 16) with 65536. change (2 ^ 8) with 256.
  change (2 ^ 30) with 1073741824. change (2 ^ 24) with 16777216. unfold u8.
  assert (forall k, (k * 256 * 65536 + v) / 65536 mod 256 = v / 65536) as Htop.
  { intros k. rewrite Z.div_add_l by lia. rewrite Z.add_comm, Z.mod_add by lia.
    apply Z.mod_small. split; [by apply Z.div_pos; lia|]. apply Z.div_lt_upper_bound; lia. }
  destruct Hp as [->|[->| ->]].
  - rewrite Z.add_0_l. rewrite (Z.div_small v 1073741824), (Z.div_small v 16777216) by lia.
    pose proof (Htop 0) as H. change (0 * 256 * 65536 + v) with v in H. by rewrite H.
  - rewrite (Z.div_small (16777216 + v) 1073741824) by lia.
    replace ((16777216 + v) / 16777216) with 1 by (apply (Z.div_unique _ _ 1 v); lia).
    pose proof (Htop 1) as H. change (1 * 256 * 65536) with 16777216 in H. rewrite H. change (16777216 + v) with (65536 * 256 + v). rewrite Z.div_add_l by lia.
    rewrite (Z.add_comm 65536), (Z.mod_add _ 256 256) by lia. done.
  - replace ((1090519040 + v) / 1073741824) with 1 by
      (apply (Z.div_unique _ _ 1 (16777216 + v)); lia).
    replace ((1090519040 + v) / 16777216) with 65 by (apply (Z.div_unique _ _ 65 v); lia).
    pose proof (Htop 65) as H. change (65 * 256 * 65536) with 1090519040 in H. by rewrite H.
Qed.

Lemma three_bytes x y z : 0 <= x < 256 -> 0 <= y < 256 -> 0 <= z < 256 ->
  (x * 65536 + y * 256 + z) / 65536 = x /\ (x * 65536 + y * 256 + z) / 256 mod 256 = y /\
  (x * 65536 + y * 256 + z) mod 256 = z.
Proof. intros Hx Hy Hz. split_and!; Z.to_euclidean_division_equations; lia. Qed.

Definition encoded_size (n : Z) : Z := 4 * ((n + 2) / 3).

(** What is known of the text of [i]. *)
Definition encodes (i w : list Z) : Prop :=
  Z.of_nat (length w) = encoded_size (Z.of_nat (length i)) /\ decode_loop w = i.

Lemma encoded_size_add3 n : encoded_size (3 + n) = 4 + encoded_size n.
Proof.
  unfold encoded_size. replace (3 + n + 2) with (n + 2 + 1 * 3) by lia.
  rewrite Z.div_add by lia. lia.
Qed.

(** Three bytes at a time. *)
Lemma list_ind3 {A} (P : list A -> Prop) : P [] -> (forall x, P [x]) -> (forall x y, P [x; y]) ->
  (forall x y z t, P t -> P (x :: y :: z :: t)) -> forall l, P l.
Proof.
  intros H0 H1 H2 H3. fix IH 1. intros [|x [|y [|z t]]]; [done|apply H1|apply H2|].
  apply H3, IH.
Qed.

Lemma encode_loop_ok i : bytes i -> exists w, encode_loop i = Some w /\ encodes i w.
Proof.
  induction i as [|x|x y|x y z t IH] using list_ind3; intros Hi.
  { by exists []. }
  - apply Forall_cons in Hi as [Hx Hi]. cbn [encode_loop]. unfold emit.
    rewrite group_value by (by apply Forall_singleton).
    set (v := x * 65536). pose proof (sextet_range v 18) as H18. pose proof (sextet_range v 12) as H12.
    destruct (table_ok _ H18) as (c0&->&E0&_). destruct (table_ok _ H12) as (c1&->&E1&_).
    cbn [mbind option_bind Nat.leb]. eexists. split; [done|]. split; [done|].
    cbn [decode_loop]. destruct (quad_sum c0 c1 61 61 _ _ E0 E1 H18 H12) as (_&_&H).
    rewrite H by done. rewrite !sextet_div by lia.
    assert (v / 2 ^ 18 mod 64 * 262144 + v / 2 ^ 12 mod 64 * 4096 = v) as ->.
    { unfold v. change (2 ^ 18) with 262144. change (2 ^ 12) with 4096.
      Z.to_euclidean_division_equations. lia. }
    rewrite quad_bytes_value by (unfold v; lia). simpl. f_equal. unfold v. by rewrite Z.div_mul.
  - cbn [encode_loop]. unfold emit. rewrite group_value by done.
    apply Forall_cons in Hi as [Hx Hi]. apply Forall_cons in Hi as [Hy _].
    set (v := x * 65536 + y * 256). pose proof (sextet_range v 18) as H18. pose proof (sextet_range v 12) as H12.
    pose proof (sextet_range v 6) as H6.
    destruct (table_ok _ H18) as (c0&->&E0&_). destruct (table_ok _ H12) as (c1&->&E1&_).
    destruct (table_ok _ H6) as (c2&E&E2&_).
    cbn [mbind option_bind Nat.leb]. rewrite E. cbn [mbind option_bind].
    eexists. split; [done|]. split; [done|].
    cbn [decode_loop]. destruct (quad_sum c0 c1 c2 61 _ _ E0 E1 H18 H12) as (_&H&_).
    rewrite (H _ E2) by done. rewrite !sextet_div by lia.
    assert (v / 2 ^ 18 mod 64 * 262144 + v / 2 ^ 12 mod 64 * 4096 + v / 2 ^ 6 mod 64 * 64 = v) as ->.
    { unfold v. change (2 ^ 18) with 262144. change (2 ^ 12) with 4096. change (2 ^ 6) with 64.
      Z.to_euclidean_division_equations. lia. }
    rewrite quad_bytes_value by (unfold v; lia). simpl. unfold v.
    destruct (three_bytes x y 0) as (E'&E''&_); try lia. rewrite Z.add_0_r in E', E''.
    by rewrite E', E''.
  - apply Forall_cons in Hi as [Hx Hi]. apply Forall_cons in Hi as [Hy Hi].
    apply Forall_cons in Hi as [Hz Hi]. cbn [encode_loop]. unfold emit.
    rewrite group_value by (by repeat apply Forall_cons_2).
    set (v := x * 65536 + y * 256 + z).
    pose proof (sextet_range v 18) as H18. pose proof (sextet_range v 12) as H12.
    pose proof (sextet_range v 6) as H6. pose proof (sextet_range v 0) as H0.
    destruct (table_ok _ H18) as (c0&->&E0&_). destruct (table_ok _ H12) as (c1&->&E1&_).
    destruct (table_ok _ H6) as (c2&E&E2&_). destruct (table_ok _ H0) as (c3&E'&E3&_).
    cbn [mbind option_bind Nat.leb]. rewrite E, E'. cbn [mbind option_bind].
    destruct (IH Hi) as (w&Ew&Hlen&Hdec). rewrite Ew. cbn [mbind option_bind].
    eexists. split; [done|]. split.
    + simpl length. rewrite !Nat2Z.inj_succ, Hlen.
      replace (Z.succ (Z.succ (Z.succ (Z.of_nat (length t))))) with (3 + Z.of_nat (length t)) by lia.
      rewrite encoded_size_add3. lia.
    + cbn [decode_loop]. destruct (quad_sum c0 c1 c2 c3 _ _ E0 E1 H18 H12) as (H&_&_).
      rewrite (H _ _ E2 E3), Hdec by done. rewrite !sextet_div by lia.
      assert (v / 2 ^ 18 mod 64 * 262144 + v / 2 ^ 12 mod 64 * 4096 + v / 2 ^ 6 mod 64 * 64 +
              v / 2 ^ 0 mod 64 = 0 + v) as ->.
      { unfold v. change (2 ^ 18) with 262144. change (2 ^ 12) with 4096. change (2 ^ 6) with 64.
        change (2 ^ 0) with 1. Z.to_euclidean_division_equations. lia. }
      rewrite quad_bytes_value by (unfold v; lia). simpl. unfold v.
      destruct (three_bytes x y z Hx Hy Hz) as (->&->&->). done.
Qed.

Lemma decode_length i : forall fuel, (length i <= fuel)%nat ->
  Z.of_nat (length (decode_loop i)) <= 3 * (Z.of_nat (length i) / 4).
Proof.
  intros fuel. revert i. induction fuel as [|fuel IH]; intros i Hf.
  { destruct i; [by vm_compute|simpl in Hf; lia]. }
  destruct i as [|a [|b [|c [|d i]]]];
    [by vm_compute|by vm_compute|by vm_compute|by vm_compute|]. simpl in Hf.
  cbn [decode_loop]. rewrite length_app, Nat2Z.inj_add.
  specialize (IH i ltac:(lia)). assert (length (quad_bytes (quad a b c d)) <= 3)%nat.
  { unfold quad_bytes. by destruct (Z.testbit _ 30), (Z.testbit _ 24); simpl; lia. }
  rewrite !length_cons. rewrite !Nat2Z.inj_succ.
  replace (Z.succ (Z.succ (Z.succ (Z.succ (Z.of_nat (length i)))))) with (Z.of_nat (length i) + 1 * 4) by lia.
  rewrite Z.div_add by lia. lia.
Qed.

Lemma size_small n : 0 <= n < 2 ^ 61 ->
  u64 (4 * (u64 (n + 2) / 3)) = encoded_size n /\ u64 (3 * (n / 4)) = 3 * (n / 4).
Proof.
  intros Hn. change (2 ^ 61) with 2305843009213693952 in Hn. unfold encoded_size, u64.
  rewrite (Z.mod_small (n + 2)) by lia.
  assert (0 <= (n + 2) / 3 <= n + 2) by (split; [apply Z.div_pos|apply Z.div_le_upper_bound]; lia).
  assert (0 <= n / 4 <= n) by (split; [apply Z.div_pos|apply Z.div_le_upper_bound]; lia).
  split; apply Z.mod_small; lia.
Qed.

Lemma encode_ok i cap : bytes i -> Z.of_nat (length i) < 2 ^ 61 ->
  encoded_size (Z.of_nat (length i)) <= cap -> exists w,
  base64_encode (Some i) true (Some cap) = Some (0, Some w) /\ encode_loop i = Some w /\ encodes i w.
Proof.
  intros Hi Hl Hc. destruct (encode_loop_ok i Hi) as (w&E&Hw).
  exists w. unfold base64_encode. destruct (size_small (Z.of_nat (length i)) ltac:(lia)) as [-> _].
  destruct (Z.ltb_spec cap (encoded_size (Z.of_nat (length i)))); [lia|]. by rewrite E.
Qed.

(** Encoding and decoding: a buffer that holds the text is filled with exactly
    four characters for each group of up to three bytes, one that is too small is
    not written; decoding the text gives the bytes back; decoding any text writes
    no more than fits.  No index leaves the table. *)
Theorem base64_roundtrip i cap : bytes i -> Z.of_nat (length i) < 2 ^ 61 ->
  (cap < encoded_size (Z.of_nat (length i)) ->
     base64_encode (Some i) true (Some cap) = Some (EOVERFLOW, None)) /\
  (encoded_size (Z.of_nat (length i)) <= cap -> exists w,
     base64_encode (Some i) true (Some cap) = Some (0, Some w) /\
     Z.of_nat (length w) = encoded_size (Z.of_nat (length i)) /\
     forall c, 3 * (Z.of_nat (length w) / 4) <= c -> Z.of_nat (length w) < 2 ^ 61 ->
       base64_decode (Some w) true (Some c) = (0, Some i)) /\
  (forall t c e o, Z.of_nat (length t) < 2 ^ 61 -> base64_decode (Some t) true (Some c) = (e, Some o) ->
     e = 0 /\ Z.of_nat (length o) <= c).
Proof.
  intros Hi Hl. destruct (size_small (Z.of_nat (length i)) ltac:(lia)) as [Hs _]. split_and!.
  - intros Hc. unfold base64_encode. rewrite Hs.
    by destruct (Z.ltb_spec cap (encoded_size (Z.of_nat (length i)))); [|lia].
  - intros Hc. destruct (encode_ok i cap Hi Hl Hc) as (w&E&_&Hlen&Hd).
    exists w. split_and!; [done|done|]. intros c Hc' Hw. unfold base64_decode.
    destruct (size_small (Z.of_nat (length w)) ltac:(lia)) as [_ ->].
    destruct (Z.ltb_spec c (3 * (Z.of_nat (length w) / 4))); [lia|]. by rewrite Hd.
  - intros t c e o Ht. unfold base64_decode.
    destruct (size_small (Z.of_nat (length t)) ltac:(lia)) as [_ ->].
    destruct (Z.ltb_spec c (3 * (Z.of_nat (length t) / 4))); intros [= <- <-].
    split; [done|]. pose proof (decode_length t (length t) (le_n _)). lia.
Qed.

(** *** Printing *)

Lemma emit_some g r w : emit g r = Some w -> exists p o, r = Some o /\ w = p ++ o /\
  forall o', emit g (Some o') = Some (p ++ o').
Proof.
  unfold emit. destruct g as [v pad].
  destruct (b64_char (sextet v 18)) as [c0|]; [|done].
  destruct (b64_char (sextet v 12)) as [c1|]; [|done]. cbn [mbind option_bind].
  destruct (if (2 <=? pad)%nat then _ else _) as [c2|]; [|done]. cbn [mbind option_bind].
  destruct (if (1 <=? pad)%nat then _ else _) as [c3|]; [|done]. cbn [mbind option_bind].
  destruct r as [o|]; [|done]. intros [= <-]. by exists [c0; c1; c2; c3], o.
Qed.

Lemma encode_app i : forall j w v k, length i = (3 * k)%nat -> encode_loop i = Some w ->
  encode_loop j = Some v -> encode_loop (i ++ j) = Some (w ++ v).
Proof.
  induction i as [|x|x y|x y z t IH] using list_ind3; intros j w v k Hk Ew Ev;
    simpl length in Hk; try lia.
  - simpl in Ew. by injection Ew as <-.
  - cbn [app encode_loop] in *. destruct (emit_some _ _ _ Ew) as (p&o&Eo&->&H).
    rewrite (IH j o v (k - 1)%nat), H; [by rewrite app_assoc|lia|done|done].
Qed.

Lemma print_loop_ok fuel : forall i, bytes i -> (length i <= fuel)%nat -> exists ws,
  print_loop fuel i = Some (0, ws) /\ encode_loop i = Some (mjoin ws) /\
  Forall (fun w => Z.of_nat (length w) <= 256) ws.
Proof.
  induction fuel as [|fuel IH]; intros i Hi Hf.
  { destruct i; [|simpl in Hf; lia]. by exists []. }
  destruct i as [|x r]; [by exists []|]. remember (x :: r) as i eqn:Ei.
  assert (0 < length i)%nat as Hpos by (subst; simpl; lia).
  assert (print_loop (S fuel) i = (r ← base64_encode (Some (take 192 i)) true (Some 256);
    match r with
    | (0, Some w) => '(err, ws) ← print_loop fuel (drop 192 i); Some (err, w :: ws)
    | (err, _) => Some (err, [])
    end)) as -> by by subst.
  assert (bytes (take 192 i) /\ bytes (drop 192 i)) as [Ht Hd].
  { split; [by apply Forall_take|by apply Forall_drop]. }
  assert (Z.of_nat (length (take 192 i)) <= 192) as Hl by (rewrite length_take; lia).
  assert (encoded_size (Z.of_nat (length (take 192 i))) <= 256) as Hs.
  { unfold encoded_size. assert ((Z.of_nat (length (take 192 i)) + 2) / 3 < 65); [|lia].
    apply Z.div_lt_upper_bound; lia. }
  destruct (encode_ok (take 192 i) 256 Ht ltac:(lia) Hs) as (w&E&El&Hlen&_).
  rewrite E. cbn [mbind option_bind].
  destruct (IH (drop 192 i) Hd) as (ws&Ew&Ed&Hws); [rewrite length_drop; lia|].
  rewrite Ew. cbn [mbind option_bind]. exists (w :: ws). split_and!; [done| |].
  - change (mjoin (w :: ws)) with (w ++ mjoin ws). destruct (Nat.le_gt_cases 192 (length i)).
    + rewrite <- (take_drop 192 i). apply (encode_app _ _ _ _ 64); [|done|done].
      rewrite length_take. lia.
    + rewrite (take_ge i), (drop_ge i) in * by lia. simpl in Ed. injection Ed as Ed.
      by rewrite <- Ed, app_nil_r.
  - apply Forall_cons. split; [lia|done].
Qed.

(** [base64_print] prints exactly the text of the whole buffer, in pieces that
    fit its local buffer of 256 characters: cutting the input at multiples of 192
    bytes puts no padding inside the text. *)
Theorem base64_print_whole i cap : bytes i -> Z.of_nat (length i) < 2 ^ 61 ->
  encoded_size (Z.of_nat (length i)) <= cap -> exists ws,
  base64_print (Some i) = Some (0, ws) /\ Forall (fun w => Z.of_nat (length w) <= 256) ws /\
  base64_encode (Some i) true (Some cap) = Some (0, Some (mjoin ws)).
Proof.
  intros Hi Hl Hc. destruct (print_loop_ok (length i) i Hi (le_n _)) as (ws&E&Ee&Hws).
  destruct (encode_ok i cap Hi Hl Hc) as (w&E'&Ew&_). exists ws. split_and!; [done|done|].
  rewrite E'. congruence.
Qed.

Lemma base64_roundtrip_witness : exists w,
  base64_encode (Some [77; 97; 110; 255]) true (Some 8) = Some (0, Some w) /\
  base64_decode (Some w) true (Some 6) = (0, Some [77; 97; 110; 255]).
Proof.
  assert (bytes [77; 97; 110; 255]) as Hb by (by repeat constructor).
  destruct (base64_roundtrip [77; 97; 110; 255] 8 Hb ltac:(by vm_compute)) as (_&H&_).
  destruct H as (w&E&Hl&Hd); [by vm_compute|]. exists w. split; [done|].
  assert (Z.of_nat (length w) = 8) as Hw by (rewrite Hl; by vm_compute).
  apply Hd; rewrite Hw; by vm_compute.
Defined.

Lemma base64_print_whole_witness : exists ws,
  base64_print (Some (replicate 200 65)) = Some (0, ws) /\
  base64_encode (Some (replicate 200 65)) true (Some 300) = Some (0, Some (mjoin ws)).
Proof.
  destruct (base64_print_whole (replicate 200 65) 300) as (ws&E&_&E').
  - by apply Forall_replicate.
  - by vm_compute.
  - by vm_compute.
  - by exists ws.
Defined.

End Base64.
