(* ===== verification/Uric.v ===== *)
(** * Escaping of URI components: src/libre/src/uri/uric.c

    The four pairs of functions that escape and unescape a component, writing to
    the bounded buffer of [re_snprintf] through the print handler, and the part of
    src/libre/src/fmt/print.c that prints the escapes. *)
From S2P Require Import Prelude Pl.
Import Pl.

Module Uric.

(** ** Printing *)

(** The buffer of [re_snprintf]: what is written, and the space that is left. *)
Record buffer := mk_buffer { out : list Z; space : Z }.

Definition print_handler (b : buffer) (p : list Z) : Z * buffer :=
  let size := Z.of_nat (length p) in
  if space b <? size then (ENOMEM, b) else (0, mk_buffer (out b ++ p) (space b - size)).

(** The digits of [n], the last one first; 64 digits are enough for 64 bits. *)
Fixpoint itoa_loop (fuel : nat) (n base a : Z) : list Z :=
  match fuel with
  | O => []
  | S fuel =>
      let dv := n / base in
      let c := n - dv * base in
      let d := if c <? 10 then 48 + c else a + (c - 10) in
      d :: (if dv =? 0 then [] else itoa_loop fuel dv base a)
  end.

Definition local_itoa (n base : Z) (uc : bool) : list Z :=
  rev (itoa_loop 64 n base (if uc then 65 else 97)).

(** Padding on the left, without a prefix. *)
Fixpoint pad_loop (k : nat) (pch err : Z) (b : buffer) : Z * buffer :=
  match k with
  | O => (err, b)
  | S k => let '(e, b) := print_handler b [pch] in pad_loop k pch (Z.lor err e) b
  end.

Definition write_padded (p : list Z) (pad pch : Z) (b : buffer) : Z * buffer :=
  let '(err, b) := pad_loop (Z.to_nat (pad - Z.of_nat (length p))) pch 0 b in
  match p with
  | [] => (err, b)
  | _ => let '(e, b) := print_handler b p in (Z.lor err e, b)
  end.

(** [re_hprintf(pf, "%%%02X", n)] *)
Definition print_escape (b : buffer) (n : Z) : Z * buffer :=
  let '(err, b) := print_handler b [37] in
  if negb (err =? 0) then (err, b) else write_padded (local_itoa n 16 true) 2 48 b.

(** ** The characters that are not escaped *)

(** [isalnum] in the C locale, where it holds of no character above 127. *)
Definition isalnum (c : Z) : bool :=
  ((48 <=? c) && (c <=? 57)) || ((65 <=? c) && (c <=? 90)) || ((97 <=? c) && (c <=? 122)).

Definition is_mark (c : Z) : bool := existsb (Z.eqb c) [45; 95; 46; 33; 126; 42; 39; 40; 41].
Definition is_unreserved (c : Z) : bool := isalnum c || is_mark c.
Definition is_user_unreserved (c : Z) : bool := existsb (Z.eqb c) [38; 61; 43; 36; 44; 59; 63; 47].
Definition is_hnv_unreserved (c : Z) : bool := existsb (Z.eqb c) [91; 93; 47; 63; 58; 43; 36].
Definition is_user (c : Z) : bool := is_unreserved c || is_user_unreserved c.
Definition is_password (c : Z) : bool := existsb (Z.eqb c) [38; 61; 43; 36; 44] || is_unreserved c.
Definition is_param_unreserved (c : Z) : bool := existsb (Z.eqb c) [91; 93; 47; 58; 38; 43; 36].
Definition is_paramchar (c : Z) : bool := is_param_unreserved c || is_unreserved c.
Definition is_hvalue (c : Z) : bool := is_hnv_unreserved c || is_unreserved c.

(** ** Escaping *)

(** The loops over the bytes of the string; a [char] is signed. *)
Fixpoint escape_loop (eh : Z -> bool) (s : list Z) (b : buffer) : Z * buffer :=
  match s with
  | [] => (0, b)
  | x :: s =>
      let c := s8 x in
      let '(err, b) := (if eh c then print_handler b [x] else print_escape b (u32 c)) in
      if err =? 0 then escape_loop eh s b else (err, b)
  end.

Fixpoint unescape_loop (eh : Z -> bool) (s : list Z) (b : buffer) : Z * buffer :=
  match s with
  | [] => (0, b)
  | x :: s =>
      let c := s8 x in
      if eh c then
        let '(err, b) := print_handler b [x] in
        if err =? 0 then unescape_loop eh s b else (err, b)
      else if c =? 37 then
        match s with
        | h :: l :: s =>
            let hi := ch_hex h in
            let lo := ch_hex l in
            let '(err, b) := print_handler b [u8 (Z.lor (Z.shiftl hi 4) lo)] in
            if err =? 0 then unescape_loop eh s b else (err, b)
        | _ => (EBADMSG, b)
        end
      else (EINVAL, b)
  end.

Definition comp_escape (b : option buffer) (x : option pl) (eh : Z -> bool) : Z * option buffer :=
  match b, x with
  | Some b, Some x => let '(err, b) := escape_loop eh (pl_s x) b in (err, Some b)
  | _, _ => (EINVAL, b)
  end.

Definition comp_unescape (b : option buffer) (x : option pl) (eh : Z -> bool) : Z * option buffer :=
  match b, x with
  | Some b, Some x => let '(err, b) := unescape_loop eh (pl_s x) b in (err, Some b)
  | _, _ => (EINVAL, b)
  end.

Definition uri_user_escape b x := comp_escape b x is_user.
Definition uri_user_unescape b x := comp_unescape b x is_user.
Definition uri_password_escape b x := comp_escape b x is_password.
Definition uri_password_unescape b x := comp_unescape b x is_password.
Definition uri_param_escape b x := comp_escape b x is_paramchar.
Definition uri_param_unescape b x := comp_unescape b x is_paramchar.
Definition uri_header_escape b x := comp_escape b x is_hvalue.
Definition uri_header_unescape b x := comp_unescape b x is_hvalue.

(** The bytes 'a', ' ' and e-acute, computed by the code. *)
Example escape_bytes : uri_user_escape (Some (mk_buffer [] 80)) (Some (mk_pl 1 [97; 32; 195; 169])) =
  (0, Some (mk_buffer ([97; 37; 50; 48] ++
     [37; 70; 70; 70; 70; 70; 70; 67; 51] ++ [37; 70; 70; 70; 70; 70; 70; 65; 57]) 58)).
Proof. vm_compute. reflexivity. Qed.

(** ** Specification *)

Definition ascii (s : list Z) : Prop := Forall (fun x => 0 <= x < 128) s.
Definition hex (n : Z) : Z := if n <? 10 then 48 + n else 55 + n.

Definition escaped (eh : Z -> bool) (s : list Z) : list Z :=
  s ≫= fun x => if eh x then [x] else [37; hex (x / 16); hex (x mod 16)].

(** A finite check over the ASCII characters. *)
Lemma all_ascii (P : Z -> bool) : forallb P (seqZ 0 128) = true -> forall x, 0 <= x < 128 -> P x = true.
Proof.
  intros H x Hx. rewrite forallb_forall in H. apply H, list_elem_of_In, elem_of_seqZ. lia.
Qed.

Lemma s8_ascii x : 0 <= x < 128 -> s8 x = x.
Proof. intros Hx. unfold s8. rewrite u8_small by lia. destruct (Z.ltb_spec x 128); lia. Qed.

Lemma itoa_ascii x : 0 <= x < 128 ->
  local_itoa x 16 true = if x <? 16 then [hex x] else [hex (x / 16); hex (x mod 16)].
Proof.
  intros Hx.
  pose proof (all_ascii (fun x => bool_decide (local_itoa x 16 true =
    if x <? 16 then [hex x] else [hex (x / 16); hex (x mod 16)])) ltac:(by vm_compute) x Hx) as H.
  by apply bool_decide_eq_true in H.
Qed.

Lemma unhex_ascii x : 0 <= x < 128 ->
  u8 (Z.lor (Z.shiftl (ch_hex (hex (x / 16))) 4) (ch_hex (hex (x mod 16)))) = x.
Proof.
  intros Hx. apply Z.eqb_eq, (all_ascii (fun x =>
    u8 (Z.lor (Z.shiftl (ch_hex (hex (x / 16))) 4) (ch_hex (hex (x mod 16)))) =? x)); [by vm_compute|done].
Qed.

Lemma print_fits o n p : Z.of_nat (length p) <= n ->
  print_handler (mk_buffer o n) p = (0, mk_buffer (o ++ p) (n - Z.of_nat (length p))).
Proof.
  intros Hn. unfold print_handler. simpl. by destruct (Z.ltb_spec n (Z.of_nat (length p))); [lia|].
Qed.

Lemma print_full o n p : n < Z.of_nat (length p) ->
  print_handler (mk_buffer o n) p = (ENOMEM, mk_buffer o n).
Proof.
  intros Hn. unfold print_handler. simpl. by destruct (Z.ltb_spec n (Z.of_nat (length p))); [|lia].
Qed.

Lemma escape_fits o n x : 0 <= x < 128 -> 3 <= n ->
  print_escape (mk_buffer o n) (u32 x) =
    (0, mk_buffer (o ++ [37; hex (x / 16); hex (x mod 16)]) (n - 3)).
Proof.
  intros Hx Hn. unfold print_escape. rewrite u32_small, print_fits, itoa_ascii by (simpl; lia).
  cbn [negb Z.eqb length Z.of_nat]. destruct (Z.ltb_spec x 16) as [H|H]; unfold write_padded.
  - change (Z.to_nat (2 - Z.of_nat (length [hex x]))) with 1%nat. cbn [pad_loop].
    rewrite print_fits by (simpl; lia). rewrite print_fits by (simpl; lia).
    rewrite Z.div_small, Z.mod_small, <- !app_assoc by lia. simpl. do 2 f_equal. lia.
  - change (Z.to_nat (2 - Z.of_nat (length [hex (x / 16); hex (x mod 16)]))) with 0%nat. cbn [pad_loop].
    rewrite print_fits by (simpl; lia). rewrite <- !app_assoc. simpl. do 2 f_equal. lia.
Qed.

Lemma escape_full o n x : 0 <= x < 128 -> 0 <= n < 3 ->
  fst (print_escape (mk_buffer o n) (u32 x)) = ENOMEM.
Proof.
  intros Hx Hn. unfold print_escape. rewrite u32_small by lia.
  destruct (Z.eq_dec n 0) as [->|H0]; [by rewrite print_full by (simpl; lia)|].
  rewrite print_fits, itoa_ascii by (simpl; lia). cbn [negb Z.eqb length Z.of_nat].
  destruct (Z.ltb_spec x 16) as [H|H]; unfold write_padded.
  - change (Z.to_nat (2 - Z.of_nat (length [hex x]))) with 1%nat. cbn [pad_loop].
    destruct (Z.eq_dec n 1) as [->|].
    + rewrite print_full by (simpl; lia). by rewrite print_full by (simpl; lia).
    + rewrite print_fits by (simpl; lia). by rewrite print_full by (simpl; lia).
  - change (Z.to_nat (2 - Z.of_nat (length [hex (x / 16); hex (x mod 16)]))) with 0%nat. cbn [pad_loop].
    by rewrite print_full by (simpl; lia).
Qed.

Lemma escape_loop_ok eh s : ascii s -> forall o n, 0 <= n ->
  (Z.of_nat (length (escaped eh s)) <= n ->
     escape_loop eh s (mk_buffer o n) =
       (0, mk_buffer (o ++ escaped eh s) (n - Z.of_nat (length (escaped eh s))))) /\
  (n < Z.of_nat (length (escaped eh s)) -> fst (escape_loop eh s (mk_buffer o n)) = ENOMEM).
Proof.
  induction 1 as [|x s Hx Hs IH]; intros o n Hn.
  { simpl. split; [|lia]. intros _. by rewrite app_nil_r, Z.sub_0_r. }
  unfold escaped in *. cbn [mbind list_bind escape_loop] in *. rewrite s8_ascii, length_app, Nat2Z.inj_add by done.
  set (rest := s ≫= _) in *. destruct (eh x).
  - change (Z.of_nat (length [x])) with 1. destruct (Z.eq_dec n 0) as [->|].
    + rewrite print_full by (simpl; lia). split; [lia|done].
    + rewrite print_fits by (simpl; lia). cbn [Z.eqb length]. change (Z.of_nat 1) with 1.
      destruct (IH (o ++ [x]) (n - 1) ltac:(lia)) as [H1 H2]. split; intros H.
      * rewrite H1 by lia. rewrite <- app_assoc. do 2 f_equal. lia.
      * apply H2. lia.
  - change (Z.of_nat (length [37; hex (x / 16); hex (x mod 16)])) with 3.
    destruct (Z.lt_ge_cases n 3) as [H3|H3].
    + pose proof (escape_full o n x Hx ltac:(lia)) as He.
      destruct (print_escape (mk_buffer o n) (u32 x)) as [e b]. simpl in He. subst e.
      split; [lia|done].
    + rewrite escape_fits by done. cbn [Z.eqb].
      destruct (IH (o ++ [37; hex (x / 16); hex (x mod 16)]) (n - 3) ltac:(lia)) as [H1 H2].
      split; intros H.
      * rewrite H1 by lia. rewrite <- app_assoc. do 2 f_equal. lia.
      * apply H2. lia.
Qed.

Lemma unescape_loop_ok eh s : ascii s -> eh 37 = false -> forall o n,
  Z.of_nat (length s) <= n ->
  unescape_loop eh (escaped eh s) (mk_buffer o n) = (0, mk_buffer (o ++ s) (n - Z.of_nat (length s))).
Proof.
  intros Hs He. induction Hs as [|x s Hx Hs IH]; intros o n Hn.
  { simpl. by rewrite app_nil_r, Z.sub_0_r. }
  simpl length in *. rewrite Nat2Z.inj_succ in *. unfold escaped in *. cbn [mbind list_bind].
  destruct (eh x) eqn:Ex; cbn [app unescape_loop].
  - rewrite s8_ascii, Ex, print_fits by (done || simpl; lia). cbn [Z.eqb].
    rewrite IH by (simpl; lia). rewrite <- app_assoc. simpl. do 2 f_equal. lia.
  - change (s8 37) with 37. rewrite He. cbn [Z.eqb Pos.eqb]. rewrite unhex_ascii by done.
    rewrite print_fits by (simpl; lia). cbn [Z.eqb]. rewrite IH by (simpl; lia).
    rewrite <- app_assoc. simpl. do 2 f_equal. lia.
Qed.

(** The four kinds of components. *)
Inductive component := User | Password | Param | Header.
Definition allowed (k : component) : Z -> bool :=
  match k with User => is_user | Password => is_password | Param => is_paramchar | Header => is_hvalue end.
Definition escape (k : component) := match k with
  | User => uri_user_escape | Password => uri_password_escape
  | Param => uri_param_escape | Header => uri_header_escape end.
Definition unescape (k : component) := match k with
  | User => uri_user_unescape | Password => uri_password_unescape
  | Param => uri_param_unescape | Header => uri_header_unescape end.

(** Escaping an ASCII component writes its allowed characters as they are and
    every other one as a percent sign and two upper-case digits, or fails when the
    buffer is too small, and unescaping the result, through a buffer that is large
    enough, gives the component back; the text that is written holds no other
    characters.  It fails for other bytes: a byte above 127 is written as a
    percent sign and eight digits, which unescape to five other bytes. *)
Theorem uric_roundtrip k s p q o o' n n' : ascii s -> 0 <= n -> Z.of_nat (length s) <= n' ->
  (Z.of_nat (length (escaped (allowed k) s)) <= n ->
     escape k (Some (mk_buffer o n)) (Some (mk_pl p s)) =
       (0, Some (mk_buffer (o ++ escaped (allowed k) s) (n - Z.of_nat (length (escaped (allowed k) s)))))) /\
  (n < Z.of_nat (length (escaped (allowed k) s)) ->
     fst (escape k (Some (mk_buffer o n)) (Some (mk_pl p s))) = ENOMEM) /\
  unescape k (Some (mk_buffer o' n')) (Some (mk_pl q (escaped (allowed k) s))) =
    (0, Some (mk_buffer (o' ++ s) (n' - Z.of_nat (length s)))) /\
  Forall (fun c => allowed k c = true \/ c = 37) (escaped (allowed k) s) /\
  (exists t, escape k (Some (mk_buffer [] 80)) (Some (mk_pl p [195])) = (0, Some (mk_buffer t 71)) /\
     unescape k (Some (mk_buffer [] 80)) (Some (mk_pl q t)) =
       (0, Some (mk_buffer [255; 70; 70; 70; 70; 67; 51] 73))).
Proof.
  intros Hs Hn Hn'.
  assert (allowed k 37 = false) as H37 by by destruct k.
  destruct (escape_loop_ok (allowed k) s Hs o n Hn) as [H1 H2].
  pose proof (unescape_loop_ok (allowed k) s Hs H37 o' n' Hn') as H3.
  assert (forall b x, escape k b x = comp_escape b x (allowed k)) as Ee by by destruct k.
  assert (forall b x, unescape k b x = comp_unescape b x (allowed k)) as Eu by by destruct k.
  rewrite !Ee, !Eu. unfold comp_escape at 1 2, comp_unescape at 1. simpl pl_s.
  split_and!.
  - intros H. by rewrite H1.
  - intros H. specialize (H2 H). by destruct (escape_loop _ _ _).
  - by rewrite H3.
  - clear - Hs. unfold escaped. induction Hs as [|x s Hx Hs IH]; [by constructor|].
    cbn [mbind list_bind]. apply Forall_app. split; [|done].
    destruct (allowed k x) eqn:E; [apply Forall_singleton; by left|].
    apply Forall_cons. split; [by right|].
    assert (forall y, 0 <= y < 16 -> allowed k (hex y) = true) as Hh.
    { intros y Hy. assert (forallb (fun y => allowed k (hex y)) (seqZ 0 16) = true) as Hf by by destruct k.
      rewrite forallb_forall in Hf. apply Hf, list_elem_of_In, elem_of_seqZ. lia. }
    pose proof (Z.mod_pos_bound x 16 ltac:(lia)).
    assert (0 <= x / 16 < 16) by (split; [apply Z.div_pos|apply Z.div_lt_upper_bound]; lia).
    apply Forall_cons. split; [left; by apply Hh|]. apply Forall_singleton. left. by apply Hh.
  - eexists. split; [by destruct k; vm_compute|]. by destruct k; vm_compute.
Qed.

Lemma uric_roundtrip_witness :
  unescape Header (Some (mk_buffer [] 10)) (Some (mk_pl 2 [97; 37; 50; 48; 37; 50; 53])) =
    (0, Some (mk_buffer [97; 32; 37] 7)).
Proof.
  apply (uric_roundtrip Header [97; 32; 37] 1 2 [] [] 80 10);
    [by repeat constructor|lia|simpl; lia].
Defined.

End Uric.
