(* ===== verification/Hash.v ===== *)
(** * Hash tables and hash functions: src/libre/src/hash/hash.c and func.c

    A bucket is a list of elements in the order of the linked list.  [None] is
    undefined behaviour (an access outside the array of buckets). *)
From S2P Require Import Prelude Pl.
Import Pl.

Module Hash.

(** ** The table *)

Section Table.
Context {A : Type}.

(** A list element in a bucket: its address ([struct le]) and its data. *)
Record elem := mk_elem { le : Z; edata : A }.

Record hash := mk_hash { bucket : list (list elem); bsize : Z }.

(** [ok]: whether the two allocations succeed. *)
Definition hash_alloc (bs : Z) (ok : bool) : Z * option hash :=
  if bs =? 0 then (EINVAL, None)
  else if negb (Z.land bs (u32 (bs - 1)) =? 0) then (EINVAL, None)
  else if ok then (0, Some (mk_hash (replicate (Z.to_nat bs) []) bs))
  else (ENOMEM, None).

Definition index (h : hash) (key : Z) : nat := Z.to_nat (Z.land key (u32 (bsize h - 1))).

Definition hash_append (h : hash) (key l : Z) (d : A) : option hash :=
  b ← bucket h !! index h key;
  Some (mk_hash (<[index h key := b ++ [mk_elem l d]]> (bucket h)) (bsize h)).

(** [list_unlink] removes the element from whichever list it is in. *)
Definition hash_unlink (h : hash) (l : Z) : hash :=
  mk_hash (map (filter (fun e => le e <> l)) (bucket h)) (bsize h).

(** [list_apply]: the first element for which the handler returns true. *)
Definition list_apply (ah : elem -> bool) (l : list elem) : option elem := List.find ah l.

Definition hash_lookup (h : hash) (key : Z) (ah : elem -> bool) : option (option elem) :=
  b ← bucket h !! index h key; Some (list_apply ah b).

Definition hash_apply (h : hash) (ah : elem -> bool) : option elem :=
  foldl (fun r b => match r with Some _ => r | None => list_apply ah b end) None (bucket h).

Definition hash_list (h : hash) (key : Z) : option (list elem) := bucket h !! index h key.
Definition hash_bsize (h : option hash) : Z := match h with Some h => bsize h | None => 0 end.

(** [hash_flush] dereferences the elements' data, in order; [hash_clear] does not. *)
Definition hash_clear (h : hash) : hash := mk_hash (map (fun _ => []) (bucket h)) (bsize h).
Definition hash_flush (h : hash) : hash * list A :=
  (hash_clear h, map edata (concat (bucket h))).

End Table.
Arguments elem : clear implicits.
Arguments hash : clear implicits.
Arguments mk_elem {A}. Arguments mk_hash {A}.

(** The loop of [hash_valid_size], from [x]; 32 iterations are enough. *)
Fixpoint valid_size_loop (fuel : nat) (sz x : Z) : Z :=
  match fuel with
  | O => x
  | S fuel => if (u32 (Z.shiftl 1 x) <? sz) && (x <? 31)
              then valid_size_loop fuel sz (x + 1) else x
  end.
Definition hash_valid_size (sz : Z) : Z := u32 (Z.shiftl 1 (valid_size_loop 32 sz 0)).

(** ** Jenkins one-at-a-time

    The byte added is the [uint8_t] itself, or a [char] converted to
    [uint32_t]. *)

Definition joaat_step (hash x : Z) : Z :=
  let h1 := u32 (hash + x) in
  let h2 := u32 (h1 + u32 (Z.shiftl h1 10)) in
  Z.lxor h2 (Z.shiftr h2 6).

Definition joaat_end (hash : Z) : Z :=
  let h1 := u32 (hash + u32 (Z.shiftl hash 3)) in
  let h2 := Z.lxor h1 (Z.shiftr h1 11) in
  u32 (h2 + u32 (Z.shiftl h2 15)).

Definition joaat (byte : Z -> Z) (key : list Z) : Z :=
  joaat_end (foldl (fun h b => joaat_step h (byte b)) 0 key).

Definition hash_joaat (key : list Z) : Z := joaat (fun b => b) key.
(** [tolower] of a [char] in the C locale; negative values are unchanged. *)
Definition hash_joaat_ci (str : list Z) : Z := joaat (fun b => u32 (tolower (s8 b))) str.

(** For a null-terminated string: the bytes before the terminator. *)
Definition hash_joaat_str (str : list Z) : Z := joaat (fun b => u32 (s8 b)) str.
Definition hash_joaat_str_ci (str : list Z) : Z := joaat (fun b => u32 (tolower (s8 b))) str.

Definition hash_joaat_pl (x : option pl) : Z :=
  match x with Some x => hash_joaat (pl_s x) | None => 0 end.
Definition hash_joaat_pl_ci (x : option pl) : Z :=
  match x with Some x => hash_joaat_ci (pl_s x) | None => 0 end.

(** ** Jenkins lookup3 *)

Definition rot (x k : Z) : Z := Z.lor (u32 (Z.shiftl x k)) (Z.shiftr x (32 - k)).

Definition abc : Type := Z * Z * Z.

(** One line of [mix]: [x -= z; x ^= rot(z,k); z += y]. *)
Definition mix_line (x y z k : Z) : Z * Z := (Z.lxor (u32 (x - z)) (rot z k), u32 (z + y)).

Definition mix (s : abc) : abc :=
  let '(a, b, c) := s in
  let '(a, c) := mix_line a b c 4 in
  let '(b, a) := mix_line b c a 6 in
  let '(c, b) := mix_line c a b 8 in
  let '(a, c) := mix_line a b c 16 in
  let '(b, a) := mix_line b c a 19 in
  let '(c, b) := mix_line c a b 4 in
  (a, b, c).

Definition final_line (x y k : Z) : Z := u32 (Z.lxor x y - rot y k).

Definition final (s : abc) : abc :=
  let '(a, b, c) := s in
  let c := final_line c b 14 in
  let a := final_line a c 11 in
  let b := final_line b a 25 in
  let c := final_line c b 16 in
  let a := final_line a c 4 in
  let b := final_line b a 14 in
  let c := final_line c b 24 in
  (a, b, c).

(** The bytes of the key from the current position, followed by whatever is in
    memory behind it. *)
Definition k8 (m : list Z) (i : nat) : Z := nth i m 0.
Definition k16 (m : list Z) (i : nat) : Z := k8 m (2 * i) + Z.shiftl (k8 m (2 * i + 1)) 8.
Definition k32 (m : list Z) (i : nat) : Z :=
  k8 m (4 * i) + Z.shiftl (k8 m (4 * i + 1)) 8 + Z.shiftl (k8 m (4 * i + 2)) 16 +
  Z.shiftl (k8 m (4 * i + 3)) 24.

Definition add (x y : Z) : Z := u32 (x + y).

(** *** Aligned to 4: words, the last one masked *)

Definition block4 (m : list Z) (s : abc) : abc :=
  let '(a, b, c) := s in (add a (k32 m 0), add b (k32 m 1), add c (k32 m 2)).

Definition tail4 (m : list Z) (n : nat) (s : abc) : abc :=
  let '(a, b, c) := s in
  match n with
  | 12%nat => (add a (k32 m 0), add b (k32 m 1), add c (k32 m 2))
  | 11%nat => (add a (k32 m 0), add b (k32 m 1), add c (Z.land (k32 m 2) 16777215))
  | 10%nat => (add a (k32 m 0), add b (k32 m 1), add c (Z.land (k32 m 2) 65535))
  | 9%nat => (add a (k32 m 0), add b (k32 m 1), add c (Z.land (k32 m 2) 255))
  | 8%nat => (add a (k32 m 0), add b (k32 m 1), c)
  | 7%nat => (add a (k32 m 0), add b (Z.land (k32 m 1) 16777215), c)
  | 6%nat => (add a (k32 m 0), add b (Z.land (k32 m 1) 65535), c)
  | 5%nat => (add a (k32 m 0), add b (Z.land (k32 m 1) 255), c)
  | 4%nat => (add a (k32 m 0), b, c)
  | 3%nat => (add a (Z.land (k32 m 0) 16777215), b, c)
  | 2%nat => (add a (Z.land (k32 m 0) 65535), b, c)
  | 1%nat => (add a (Z.land (k32 m 0) 255), b, c)
  | _ => s
  end.

(** *** Aligned to 2: half words *)

Definition w16 (m : list Z) (i : nat) : Z := u32 (k16 m i + u32 (Z.shiftl (k16 m (i + 1)) 16)).

Definition block2 (m : list Z) (s : abc) : abc :=
  let '(a, b, c) := s in (add a (w16 m 0), add b (w16 m 2), add c (w16 m 4)).

Definition tail2 (m : list Z) (n : nat) (s : abc) : abc :=
  let '(a, b, c) := s in
  match n with
  | 12%nat => (add a (w16 m 0), add b (w16 m 2), add c (w16 m 4))
  | 11%nat => (add a (w16 m 0), add b (w16 m 2),
               add (add c (Z.shiftl (k8 m 10) 16)) (k16 m 4))
  | 10%nat => (add a (w16 m 0), add b (w16 m 2), add c (k16 m 4))
  | 9%nat => (add a (w16 m 0), add b (w16 m 2), add c (k8 m 8))
  | 8%nat => (add a (w16 m 0), add b (w16 m 2), c)
  | 7%nat => (add a (w16 m 0), add (add b (Z.shiftl (k8 m 6) 16)) (k16 m 2), c)
  | 6%nat => (add a (w16 m 0), add b (k16 m 2), c)
  | 5%nat => (add a (w16 m 0), add b (k8 m 4), c)
  | 4%nat => (add a (w16 m 0), b, c)
  | 3%nat => (add (add a (Z.shiftl (k8 m 2) 16)) (k16 m 0), b, c)
  | 2%nat => (add a (k16 m 0), b, c)
  | 1%nat => (add a (k8 m 0), b, c)
  | _ => s
  end.

(** *** Unaligned: bytes, the cases falling through *)

Definition bytes4 (m : list Z) (i : nat) (x : Z) : Z :=
  add (add (add (add x (k8 m i)) (Z.shiftl (k8 m (i + 1)) 8))
           (Z.shiftl (k8 m (i + 2)) 16)) (Z.shiftl (k8 m (i + 3)) 24).

Definition block1 (m : list Z) (s : abc) : abc :=
  let '(a, b, c) := s in (bytes4 m 0 a, bytes4 m 4 b, bytes4 m 8 c).

(** The addition of case [n]. *)
Definition case1 (m : list Z) (n : nat) (s : abc) : abc :=
  let '(a, b, c) := s in
  let x := Z.shiftl (k8 m (n - 1)) (8 * Z.of_nat ((n - 1) mod 4)) in
  if (9 <=? n)%nat then (a, b, add c x)
  else if (5 <=? n)%nat then (a, add b x, c)
  else (add a x, b, c).

Fixpoint tail1 (m : list Z) (n : nat) (s : abc) : abc :=
  match n with O => s | S k => tail1 m k (case1 m n s) end.

(** The loop and the switch, for one of the three alignments; [n] bytes of [m] are
    left.  Each iteration takes 12 bytes, so [n] iterations are enough. *)
Fixpoint lookup3 (block : list Z -> abc -> abc) (tail : list Z -> nat -> abc -> abc)
    (fuel : nat) (m : list Z) (n : nat) (s : abc) : Z :=
  match fuel with
  | O => 0
  | S fuel =>
      if (12 <? n)%nat then lookup3 block tail fuel (drop 12 m) (n - 12) (mix (block m s))
      else if (n =? 0)%nat then snd s
      else snd (final (tail m n s))
  end.

(** [addr]: the address of the key; [beyond]: the memory behind it. *)
Definition hashlittle (addr : Z) (key beyond : list Z) (initval : Z) : Z :=
  let n := length key in
  let i := u32 (u32 (3735928559 + u32 (Z.of_nat n)) + initval) in
  let m := key ++ beyond in
  if Z.land addr 3 =? 0 then lookup3 block4 tail4 (S n) m n (i, i, i)
  else if Z.land addr 1 =? 0 then lookup3 block2 tail2 (S n) m n (i, i, i)
  else lookup3 block1 tail1 (S n) m n (i, i, i).

Definition hash_fast (k : option pl) (beyond : list Z) : Z :=
  match k with
  | None => 0
  | Some k => if pl_p k =? 0 then 0 else hashlittle (pl_p k) (pl_s k) beyond 810156050
  end.
Definition hash_fast_str (str : option pl) (beyond : list Z) : Z := hash_fast str beyond.

(** [hash_fast] of the bytes "abc" at an aligned address, computed by the code. *)
Example hashlittle_aligned_unaligned :
  hashlittle 4096 [97; 98; 99] [255; 7; 1] 0 = hashlittle 4097 [97; 98; 99] [0; 0; 0] 0.
Proof. vm_compute. reflexivity. Qed.

(** ** The table as one list of entries *)

Section Refinement.
Context {A : Type}.

(** The entries of the table, oldest first, with the key each was added under. *)
Abbreviation entries := (list (Z * elem A)).

Definition in_bucket (bs key : Z) (e : Z * elem A) : Prop := fst e mod bs = key mod bs.
#[local] Instance in_bucket_dec bs key e : Decision (in_bucket bs key e).
Proof. unfold in_bucket. apply _. Defined.

Record table_ok (h : hash A) (es : entries) : Prop := {
  to_size : exists k, 0 <= k < 32 /\ bsize h = 2 ^ k;
  to_len : Z.of_nat (length (bucket h)) = bsize h;
  to_bucket : forall i, 0 <= i < bsize h ->
    bucket h !! Z.to_nat i = Some (snd <$> filter (in_bucket (bsize h) i) es) }.

Lemma mask_mod k key : 0 <= k < 32 -> Z.land key (u32 (2 ^ k - 1)) = key mod 2 ^ k.
Proof.
  intros Hk. rewrite u32_small.
  - rewrite <- Z.land_ones by lia. f_equal. rewrite Z.ones_equiv. lia.
  - pose proof (Z.pow_pos_nonneg 2 k). pose proof (Z.pow_lt_mono_r 2 k 32). lia.
Qed.

Lemma index_ok (h : hash A) es key : table_ok h es ->
  index h key = Z.to_nat (key mod bsize h) /\ 0 <= key mod bsize h < bsize h.
Proof.
  intros [(k&Hk&E) _ _]. unfold index. rewrite E, mask_mod by done. split; [done|].
  apply Z.mod_pos_bound, Z.pow_pos_nonneg; lia.
Qed.

Lemma power_of_two bs : 0 < bs < 4294967296 -> Z.land bs (bs - 1) = 0 ->
  exists k, 0 <= k < 32 /\ bs = 2 ^ k.
Proof.
  intros Hb Hl. set (k := Z.log2 bs).
  assert (0 <= k) as Hk0 by apply Z.log2_nonneg.
  pose proof (Z.log2_spec bs ltac:(lia)) as [Hlo Hhi]. fold k in Hlo, Hhi.
  exists k. split; [split; [done|]|].
  { apply Z.log2_lt_pow2; [lia|]. change (2 ^ 32) with 4294967296. lia. }
  destruct (Z.eq_dec bs (2 ^ k)) as [|Hne]; [done|]. exfalso.
  assert (Z.testbit bs k = true) as H1 by (apply Z.bit_log2; lia).
  assert (Z.log2 (bs - 1) = k) as Hlog by (apply Z.log2_unique; lia).
  assert (Z.testbit (bs - 1) k = true) as H2.
  { rewrite <- Hlog. apply Z.bit_log2. pose proof (Z.pow_pos_nonneg 2 k). lia. }
  assert (Z.testbit (Z.land bs (bs - 1)) k = true) as H3 by by rewrite Z.land_spec, H1, H2.
  by rewrite Hl, Z.bits_0 in H3.
Qed.

Lemma hash_alloc_ok bs : 0 <= bs < 4294967296 -> forall err (h : option (hash A)),
  hash_alloc bs true = (err, h) ->
  (err = 0 <-> exists k, 0 <= k < 32 /\ bs = 2 ^ k) /\
  (err = 0 -> exists h', h = Some h' /\ table_ok h' [] /\ bsize h' = bs).
Proof.
  intros Hb err h. unfold hash_alloc.
  destruct (Z.eqb_spec bs 0) as [->|].
  { intros [= <- <-]. split; [|done]. split; [done|]. intros (k&Hk&E).
    pose proof (Z.pow_pos_nonneg 2 k). lia. }
  rewrite u32_small by lia.
  destruct (Z.eqb_spec (Z.land bs (bs - 1)) 0) as [E|E]; intros [= <- <-]; simpl.
  - pose proof (power_of_two bs ltac:(lia) E). split; [done|]. intros _.
    eexists. split; [done|]. split; [|done]. split; simpl; [done|rewrite length_replicate; lia|].
    intros i Hi. rewrite lookup_replicate_2 by lia. done.
  - split; [|done]. split; [done|]. intros (k&Hk&->). destruct E.
    rewrite <- (u32_small (2 ^ k - 1)), mask_mod by (done || lia). apply Z_mod_same_full.
Qed.

Lemma hash_append_ok (h : hash A) es key l d : table_ok h es ->
  exists h', hash_append h key l d = Some h' /\ bsize h' = bsize h /\
    table_ok h' (es ++ [(key, mk_elem l d)]).
Proof.
  intros Hh. destruct (index_ok h es key Hh) as [Ei Hi]. pose proof Hh as [Hs Hl Hb].
  unfold hash_append. rewrite Ei, (Hb _ Hi). simpl. eexists. split; [done|]. split; [done|].
  split; simpl; [done|by rewrite length_insert|].
  intros i Hi'. rewrite filter_app, fmap_app.
  destruct (Z.eq_dec i (key mod bsize h)) as [->|Hne].
  - rewrite list_lookup_insert_eq by lia. f_equal. f_equal.
    rewrite filter_cons_True; [done|]. unfold in_bucket. simpl. by rewrite Z.mod_mod by lia.
  - rewrite list_lookup_insert_ne by lia. rewrite (Hb i Hi'). f_equal.
    rewrite filter_cons_False; [by rewrite app_nil_r|].
    unfold in_bucket. simpl. rewrite (Z.mod_small i) by done. congruence.
Qed.

Lemma filter_swap {B} (P Q : B -> Prop) `{!forall x, Decision (P x)} `{!forall x, Decision (Q x)}
    (l : list B) : filter P (filter Q l) = filter Q (filter P l).
Proof.
  rewrite !list_filter_filter. apply list_filter_iff. tauto.
Qed.

Lemma hash_unlink_ok (h : hash A) es l : table_ok h es ->
  table_ok (hash_unlink h l) (filter (fun e => le (snd e) <> l) es).
Proof.
  intros [Hs Hl Hb]. split; simpl; [done|by rewrite length_map|].
  intros i Hi. change (map ?f (bucket h) !! ?j) with ((f <$> bucket h) !! j).
  rewrite list_lookup_fmap, (Hb i Hi). simpl. f_equal.
  rewrite filter_swap. generalize (filter (in_bucket (bsize h) i) es). intros es'.
  induction es' as [|e es' IH]; [done|].
  rewrite fmap_cons, !filter_cons. simpl.
  destruct (decide (le (snd e) <> l)); simpl; by rewrite IH.
Qed.

Lemma find_filter (f : elem A -> bool) (P : Z * elem A -> Prop)
    `{!forall x, Decision (P x)} (es : entries) :
  (forall e, e ∈ es -> f (snd e) = true -> P e) ->
  List.find f (snd <$> filter P es) = List.find f (snd <$> es).
Proof.
  intros HP. induction es as [|e es IH]; [done|]. rewrite filter_cons. simpl.
  assert (forall e', e' ∈ es -> f (snd e') = true -> P e') as H' by (intros; apply HP; [by right|done]).
  destruct (decide (P e)) as [Hp|Hp]; simpl.
  - destruct (f (snd e)); [done|by apply IH].
  - destruct (f (snd e)) eqn:E; [|by apply IH]. destruct Hp. apply HP; [by left|done].
Qed.

(** A lookup in the bucket of the key is a search through all entries. *)
Lemma hash_lookup_ok (h : hash A) es key (f : elem A -> bool) : table_ok h es ->
  (forall e, e ∈ es -> f (snd e) = true -> fst e = key) ->
  hash_lookup h key f = Some (List.find f (snd <$> es)).
Proof.
  intros Hh Hf. destruct (index_ok h es key Hh) as [Ei Hi]. destruct Hh as [Hs Hl Hb].
  unfold hash_lookup. rewrite Ei, (Hb _ Hi). simpl. unfold list_apply.
  rewrite find_filter; [done|]. intros e He Hfe. unfold in_bucket.
  by rewrite (Hf e He Hfe), Z.mod_mod by lia.
Qed.

(** *** Runs *)

Inductive hash_op :=
| OpAppend (key l : Z) (d : A)
| OpUnlink (l : Z).

Definition run_hash_op (h : hash A) (o : hash_op) : option (hash A) :=
  match o with
  | OpAppend key l d => hash_append h key l d
  | OpUnlink l => Some (hash_unlink h l)
  end.

Definition spec_op (es : entries) (o : hash_op) : entries :=
  match o with
  | OpAppend key l d => es ++ [(key, mk_elem l d)]
  | OpUnlink l => filter (fun e => le (snd e) <> l) es
  end.

Definition run_hash (h : hash A) (ops : list hash_op) : option (hash A) :=
  foldl (fun oh o => h ← oh; run_hash_op h o) (Some h) ops.

Lemma run_hash_ok ops : forall h es, table_ok h es ->
  exists h', run_hash h ops = Some h' /\ table_ok h' (foldl spec_op es ops).
Proof.
  induction ops as [|o ops IH]; intros h es Hh; [by exists h|].
  unfold run_hash. simpl. destruct o as [key l d|l]; simpl.
  - destruct (hash_append_ok h es key l d Hh) as (h1&E&_&Hh1). rewrite E. by apply IH.
  - by apply IH, hash_unlink_ok.
Qed.

(** The table is a list of entries: whatever was appended and unlinked since
    [hash_alloc], no access leaves the array of buckets, and a lookup whose
    handler accepts only entries of the given key returns the oldest live entry
    that the handler accepts; [hash_alloc] accepts exactly the powers of two. *)
Theorem hash_lookup_exact bs ops key (f : elem A -> bool) : 0 <= bs < 4294967296 ->
  let '(err, h) := hash_alloc (A := A) bs true in
  (err = 0 <-> exists k, 0 <= k < 32 /\ bs = 2 ^ k) /\
  (err = 0 -> exists h0 h', h = Some h0 /\ run_hash h0 ops = Some h' /\
     let es := foldl spec_op [] ops in
     ((forall e, e ∈ es -> f (snd e) = true -> fst e = key) ->
      hash_lookup h' key f = Some (List.find f (snd <$> es)))).
Proof.
  intros Hb. destruct (hash_alloc bs true) as [err h] eqn:E.
  destruct (hash_alloc_ok bs Hb err h E) as [H1 H2]. split; [exact H1|]. intros He.
  destruct (H2 He) as (h0&->&Hh0&_).
  destruct (run_hash_ok ops h0 [] Hh0) as (h'&E'&Hh'). exists h0, h'.
  split; [done|]. split; [done|]. intros es Hf.
  by apply hash_lookup_ok.
Qed.

End Refinement.

(** ** The hash functions *)

Lemma k8_range m i : bytes m -> 0 <= k8 m i < 256.
Proof.
  intros Hm. unfold k8. destruct (nth_in_or_default i m 0) as [Hin| ->]; [|lia].
  by apply list_elem_of_In, (proj1 (Forall_forall _ _) Hm) in Hin.
Qed.

Lemma add_l x y : u32 (u32 x + y) = u32 (x + y).
Proof. apply Zplus_mod_idemp_l. Qed.
Lemma add_r x y : u32 (x + u32 y) = u32 (x + y).
Proof. apply Zplus_mod_idemp_r. Qed.

Lemma add_add x y z : add (add x y) z = add x (y + z).
Proof. unfold add. rewrite add_l. f_equal. lia. Qed.

(** A shifted byte is a multiple of it. *)
Lemma shl8 x : Z.shiftl x 8 = x * 256.
Proof. by rewrite Z.shiftl_mul_pow2. Qed.
Lemma shl16 x : Z.shiftl x 16 = x * 65536.
Proof. by rewrite Z.shiftl_mul_pow2. Qed.
Lemma shl24 x : Z.shiftl x 24 = x * 16777216.
Proof. by rewrite Z.shiftl_mul_pow2. Qed.

Definition le_word (m : list Z) (i : nat) : Z :=
  k8 m i + k8 m (i + 1) * 256 + k8 m (i + 2) * 65536 + k8 m (i + 3) * 16777216.

(** The four ways the code assembles words, in one form. *)
Lemma k32_word m i : k32 m i = le_word m (4 * i).
Proof. unfold k32, le_word. by rewrite shl8, shl16, shl24. Qed.

Lemma k16_word m i : k16 m i = k8 m (2 * i) + k8 m (2 * i + 1) * 256.
Proof. unfold k16. by rewrite shl8. Qed.

Lemma bytes4_word m i x : bytes4 m i x = u32 (x + le_word m i).
Proof.
  unfold bytes4, le_word. rewrite shl8, shl16, shl24, !add_add. unfold add. f_equal. lia.
Qed.

Lemma w16_word m i x : add x (w16 m i) = u32 (x + le_word m (2 * i)).
Proof.
  unfold add, w16. rewrite add_r, Z.add_assoc, add_r, shl16, !k16_word.
  replace (2 * (i + 1))%nat with (2 * i + 2)%nat by lia.
  replace (2 * i + 2 + 1)%nat with (2 * i + 3)%nat by lia.
  unfold le_word. f_equal. lia.
Qed.

(** The masks keep one, two or three of the bytes of a word. *)
Lemma word_mask m i : bytes m ->
  Z.land (le_word m i) 255 = k8 m i /\
  Z.land (le_word m i) 65535 = k8 m i + k8 m (i + 1) * 256 /\
  Z.land (le_word m i) 16777215 = k8 m i + k8 m (i + 1) * 256 + k8 m (i + 2) * 65536.
Proof.
  intros Hm. pose proof (k8_range m i Hm). pose proof (k8_range m (i + 1) Hm).
  pose proof (k8_range m (i + 2) Hm). pose proof (k8_range m (i + 3) Hm).
  change 255 with (Z.ones 8). change 65535 with (Z.ones 16). change 16777215 with (Z.ones 24).
  rewrite !Z.land_ones by lia. unfold le_word. split_and!.
  - symmetry. apply (Z.mod_unique_pos _ _ (k8 m (i + 1) + k8 m (i + 2) * 256 +
      k8 m (i + 3) * 65536)); lia.
  - symmetry. apply (Z.mod_unique_pos _ _ (k8 m (i + 2) + k8 m (i + 3) * 256)); lia.
  - symmetry. apply (Z.mod_unique_pos _ _ (k8 m (i + 3))); lia.
Qed.

Lemma block4_eq m s : block4 m s = block1 m s.
Proof.
  destruct s as [[a b] c]. unfold block4, block1. rewrite !bytes4_word.
  unfold add. by rewrite !k32_word.
Qed.

Lemma block2_eq m s : block2 m s = block1 m s.
Proof.
  destruct s as [[a b] c]. unfold block2, block1. by rewrite !bytes4_word, !w16_word.
Qed.

(** The remaining bytes.  All three switches add the same sums. *)
Definition word3 (s : abc) : Prop :=
  let '(a, b, c) := s in u32 a = a /\ u32 b = b /\ u32 c = c.

Definition low (m : list Z) (i n : nat) : Z :=
  match n with
  | 0%nat => 0
  | 1%nat => k8 m i
  | 2%nat => k8 m i + k8 m (i + 1) * 256
  | 3%nat => k8 m i + k8 m (i + 1) * 256 + k8 m (i + 2) * 65536
  | _ => le_word m i
  end.

Definition tail_sum (m : list Z) (n : nat) (s : abc) : abc :=
  let '(a, b, c) := s in
  (add a (low m 0 n), add b (low m 4 (n - 4)), add c (low m 8 (n - 8))).

Lemma add_0 x : u32 x = x -> add x 0 = x.
Proof. unfold add. by rewrite Z.add_0_r. Qed.

Ltac tail_case :=
  cbn [tail_sum low Nat.sub];
  repeat rewrite add_0 by assumption; try reflexivity.

Lemma tail4_sum m n s : bytes m -> (n <= 12)%nat -> word3 s -> tail4 m n s = tail_sum m n s.
Proof.
  destruct s as [[a b] c]. intros Hm Hn (Ha&Hb&Hc).
  destruct (word_mask m 0 Hm) as (A1&A2&A3). destruct (word_mask m 4 Hm) as (B1&B2&B3).
  destruct (word_mask m 8 Hm) as (C1&C2&C3).
  unfold tail4. rewrite !k32_word. cbn [Nat.mul Nat.add].
  rewrite A1, A2, A3, B1, B2, B3, C1, C2, C3.
  do 12 (destruct n as [|n]; [tail_case|]). destruct n as [|n]; [tail_case|lia].
Qed.

Lemma tail2_sum m n s : bytes m -> (n <= 12)%nat -> word3 s -> tail2 m n s = tail_sum m n s.
Proof.
  destruct s as [[a b] c]. intros Hm Hn (Ha&Hb&Hc).
  unfold tail2. rewrite !w16_word, !k16_word, !shl16, !add_add. cbn [Nat.mul Nat.add].
  do 12 (destruct n as [|n]; [tail_case; unfold add, low, le_word; cbn [Nat.add];
    try (do 2 f_equal; f_equal; lia)|]).
  destruct n as [|n]; [tail_case|lia].
Qed.

Lemma tail1_sum m n s : (n <= 12)%nat -> word3 s -> tail1 m n s = tail_sum m n s.
Proof.
  destruct s as [[a b] c]. intros Hn (Ha&Hb&Hc).
  assert (forall m n, (n < 13)%nat -> case1 m n =
    fun s => let '(a, b, c) := s in
      let x := k8 m (n - 1) * nth ((n - 1) mod 4) [1; 256; 65536; 16777216] 0 in
      if (9 <=? n)%nat then (a, b, add c x)
      else if (5 <=? n)%nat then (a, add b x, c) else (add a x, b, c)) as Hcase.
  { intros m0 n0 _. unfold case1.
    pose proof (Nat.mod_upper_bound (n0 - 1) 4 ltac:(done)) as Hlt.
    destruct ((n0 - 1) mod 4)%nat as [|[|[|[|]]]]; try lia;
      cbn [nth]; rewrite Z.shiftl_mul_pow2 by lia; reflexivity. }
  do 12 (destruct n as [|n]; [cbn [tail1]; rewrite ?Hcase by lia;
    cbn [Nat.sub Nat.modulo Nat.divmod Nat.leb snd nth];
    rewrite ?add_add; tail_case; unfold add, low, le_word; cbn [Nat.add];
    repeat (f_equal; try lia)|]).
  destruct n as [|n]; [|lia].
  cbn [tail1]; rewrite ?Hcase by lia;
    cbn [Nat.sub Nat.modulo Nat.divmod Nat.leb snd nth];
    rewrite ?add_add; tail_case; unfold add, low, le_word; cbn [Nat.add];
    repeat (f_equal; try lia).
Qed.

(** Only the key matters, not what is behind it. *)
Lemma k8_key key beyond i : (i < length key)%nat -> k8 (key ++ beyond) i = k8 key i.
Proof. apply app_nth1. Qed.

Lemma tail1_key key beyond n s : (n <= length key)%nat ->
  tail1 (key ++ beyond) n s = tail1 key n s.
Proof.
  revert s. induction n as [|n IH]; intros s Hn; [done|]. simpl.
  rewrite IH by lia. f_equal. unfold case1. destruct s as [[a b] c].
  by rewrite k8_key by lia.
Qed.

Lemma block1_key key beyond s : (12 <= length key)%nat ->
  block1 (key ++ beyond) s = block1 key s.
Proof.
  destruct s as [[a b] c]. intros Hl. unfold block1. rewrite !bytes4_word.
  unfold le_word. by rewrite !k8_key by (simpl; lia).
Qed.

Lemma u32_idem x : u32 (u32 x) = u32 x.
Proof. apply Zmod_mod. Qed.

Lemma u32_bits x : 0 <= x < 4294967296 -> u32 x = x.
Proof. apply u32_small. Qed.

Lemma lxor_u32 x y : u32 x = x -> u32 y = y -> u32 (Z.lxor x y) = Z.lxor x y.
Proof.
  unfold u32. change 4294967296 with (2 ^ 32). rewrite <- !Z.land_ones by lia.
  intros <- <-. apply Z.bits_inj'. intros i Hi.
  rewrite !Z.land_spec, !Z.lxor_spec, !Z.land_spec.
  destruct (Z.testbit (Z.ones 32) i); by rewrite ?andb_true_r, ?andb_false_r.
Qed.

Lemma lor_u32 x y : u32 x = x -> u32 y = y -> u32 (Z.lor x y) = Z.lor x y.
Proof.
  unfold u32. change 4294967296 with (2 ^ 32). rewrite <- !Z.land_ones by lia.
  intros <- <-. apply Z.bits_inj'. intros i Hi.
  rewrite !Z.land_spec, !Z.lor_spec, !Z.land_spec.
  destruct (Z.testbit (Z.ones 32) i); by rewrite ?andb_true_r, ?andb_false_r.
Qed.

Lemma rot_u32 x k : u32 x = x -> 0 <= k <= 32 -> u32 (rot x k) = rot x k.
Proof.
  intros Hx Hk. unfold rot. apply lor_u32; [apply u32_idem|].
  pose proof (u32_range x). rewrite Hx in *. apply u32_small.
  rewrite Z.shiftr_div_pow2 by lia. split; [apply Z.div_pos; [lia|apply Z.pow_pos_nonneg; lia]|].
  apply Z.div_lt_upper_bound; [apply Z.pow_pos_nonneg; lia|].
  pose proof (Z.pow_pos_nonneg 2 (32 - k)). nia.
Qed.

Lemma mix_line_word x y z k : u32 z = z -> 0 <= k <= 32 ->
  u32 (fst (mix_line x y z k)) = fst (mix_line x y z k) /\
  u32 (snd (mix_line x y z k)) = snd (mix_line x y z k).
Proof.
  intros Hz Hk. unfold mix_line. simpl. split; [|apply u32_idem].
  apply lxor_u32; [apply u32_idem|by apply rot_u32].
Qed.

Ltac mix_step x y z k x' z' Hx' Hz' :=
  let H := fresh in
  assert (H := mix_line_word x y z k ltac:(assumption) ltac:(lia)); revert H;
  destruct (mix_line x y z k) as [x' z']; cbn [fst snd]; intros [Hx' Hz'].

Lemma mix_word3 s : word3 s -> word3 (mix s).
Proof.
  destruct s as [[a b] c]. intros (Ha&Hb&Hc). unfold mix.
  mix_step a b c 4 a1 c1 Ha1 Hc1. mix_step b c1 a1 6 b1 a2 Hb1 Ha2.
  mix_step c1 a2 b1 8 c2 b2 Hc2 Hb2. mix_step a2 b2 c2 16 a3 c3 Ha3 Hc3.
  mix_step b2 c3 a3 19 b3 a4 Hb3 Ha4. mix_step c3 a4 b3 4 c4 b4 Hc4 Hb4.
  unfold word3. by split_and!.
Qed.

Lemma block1_word3 m s : word3 (block1 m s).
Proof.
  destruct s as [[a b] c]. unfold block1. rewrite !bytes4_word. simpl.
  split_and!; apply u32_idem.
Qed.

(** Each alignment computes the bytewise function of the key. *)
Lemma lookup3_bytes block tail fuel : 
  (forall m s, block m s = block1 m s) ->
  (forall m n s, bytes m -> (n <= 12)%nat -> word3 s -> tail m n s = tail_sum m n s) ->
  forall key beyond s, bytes (key ++ beyond) -> word3 s ->
  lookup3 block tail fuel (key ++ beyond) (length key) s =
  lookup3 block1 tail1 fuel key (length key) s.
Proof.
  intros Hblock Htail. induction fuel as [|fuel IH]; intros key beyond s Hm Hs; [done|].
  simpl. destruct (Nat.ltb_spec 12 (length key)) as [Hlt|Hge].
  - rewrite Hblock, block1_key by lia. rewrite drop_app_le by lia.
    rewrite <- length_drop. apply IH; [|apply mix_word3, block1_word3].
    unfold bytes in *. rewrite Forall_app in Hm. destruct Hm as [Hk Hb].
    apply Forall_app. split; [by apply Forall_drop|done].
  - destruct (Nat.eqb_spec (length key) 0); [done|].
    rewrite Htail, <- tail1_sum by (done || lia). by rewrite tail1_key by lia.
Qed.

Lemma hashlittle_bytes addr key beyond init : bytes (key ++ beyond) ->
  hashlittle addr key beyond init =
  let i := u32 (u32 (3735928559 + u32 (Z.of_nat (length key))) + init) in
  lookup3 block1 tail1 (S (length key)) key (length key) (i, i, i).
Proof.
  intros Hm. unfold hashlittle. cbv zeta. set (i := u32 (_ + init)).
  assert (word3 (i, i, i)) as Hi by (unfold word3, i; by rewrite u32_idem).
  destruct (_ =? 0); [|destruct (_ =? 0)]; apply lookup3_bytes; try done.
  - intros; apply block4_eq.
  - apply tail4_sum.
  - intros; apply block2_eq.
  - apply tail2_sum.
  - intros m n s _ Hn Hs. by apply tail1_sum.
Qed.

Lemma foldl_joaat (f g : Z -> Z) key : Forall (fun b => f b = g b) key ->
  joaat f key = joaat g key.
Proof.
  intros H. unfold joaat. f_equal. generalize 0.
  induction H as [|b key Hb H IH]; intros h; simpl; [done|]. by rewrite Hb, IH.
Qed.

Lemma tolower_ascii b : 0 <= b < 128 -> tolower (s8 b) = tolower b /\ 0 <= tolower b < 128 /\
  tolower (tolower b) = tolower b.
Proof.
  intros Hb. assert (s8 b = b) as ->.
  { unfold s8. rewrite u8_small by lia. destruct (Z.ltb_spec b 128); lia. }
  split; [done|]. unfold tolower.
  destruct ((65 <=? b) && (b <=? 90)) eqn:E; [|rewrite E; split; [lia|done]].
  apply andb_true_iff in E as [?%Z.leb_le ?%Z.leb_le].
  assert ((65 <=? b + 32) && (b + 32 <=? 90) = false) as ->; [|split; [lia|done]].
  apply andb_false_iff. right. apply Z.leb_gt. lia.
Qed.

Lemma joaat_ci_lower key : Forall (fun b => 0 <= b < 128) key ->
  hash_joaat_ci key = hash_joaat (map tolower key).
Proof.
  intros Hk. unfold hash_joaat_ci, hash_joaat, joaat. rewrite foldl_fmap. f_equal. generalize 0.
  induction Hk as [|b k Hb Hk IH]; intros h; simpl; [done|]. rewrite IH. do 2 f_equal.
  destruct (tolower_ascii b Hb) as (->&?&_). rewrite u32_small; lia.
Qed.

Lemma map_lower_ascii key : Forall (fun b => 0 <= b < 128) key ->
  Forall (fun b => 0 <= b < 128) (map tolower key) /\
  map tolower (map tolower key) = map tolower key.
Proof.
  induction 1 as [|b k Hb Hk [IH1 IH2]]; simpl; [done|].
  destruct (tolower_ascii b Hb) as (_&?&E). split; [by constructor|]. by rewrite E, IH2.
Qed.

(** The optimised hash is one function of the bytes of the key: whether it is
    read by words, half words or bytes, according to its alignment, and whatever
    is in memory behind it (the word loads reach past the key, but the masks drop
    what they find there), the result is the same. *)
Theorem hash_fast_alignment_independent a1 a2 key beyond1 beyond2 :
  bytes (key ++ beyond1) -> bytes (key ++ beyond2) -> a1 <> 0 -> a2 <> 0 ->
  hash_fast (Some (mk_pl a1 key)) beyond1 = hash_fast (Some (mk_pl a2 key)) beyond2.
Proof.
  intros H1 H2 Ha1 Ha2. unfold hash_fast. simpl.
  destruct (Z.eqb_spec a1 0); [done|]. destruct (Z.eqb_spec a2 0); [done|].
  by rewrite !hashlittle_bytes by done.
Qed.

(** On ASCII keys the variants agree, so that an element hashed as a
    null-terminated string is found again by the pointer-length string, and the
    case-insensitive variants give one value to all spellings; on a key with a
    byte above 127 the string variants differ, because they add a [char]. *)
Theorem joaat_consistent key : Forall (fun b => 0 <= b < 128) key ->
  hash_joaat_str key = hash_joaat_pl (Some (mk_pl 1 key)) /\
  hash_joaat_str_ci key = hash_joaat_pl_ci (Some (mk_pl 1 key)) /\
  hash_joaat_ci key = hash_joaat (map tolower key) /\
  hash_joaat_ci (map tolower key) = hash_joaat_ci key /\
  hash_joaat_str [195; 169] <> hash_joaat_pl (Some (mk_pl 1 [195; 169])).
Proof.
  intros Hk.
  assert (forall b, 0 <= b < 128 -> s8 b = b) as Hs.
  { intros b Hb. unfold s8. rewrite u8_small by lia. destruct (Z.ltb_spec b 128); lia. }
  destruct (map_lower_ascii key Hk) as [Hl Hi].
  split_and!; [|done|by apply joaat_ci_lower| |by vm_compute].
  - apply foldl_joaat. eapply Forall_impl; [exact Hk|]. simpl. intros b Hb.
    rewrite Hs by done. apply u32_small. lia.
  - by rewrite !joaat_ci_lower, Hi by done.
Qed.

(** *** Witnesses *)

Definition ex_ops : list (hash_op (A := Z)) :=
  [OpAppend 7 100 1; OpAppend 39 200 2; OpAppend 7 300 3; OpUnlink 100].

Lemma hash_lookup_exact_witness : exists h,
  run_hash (mk_hash (replicate 32 []) 32) ex_ops = Some h /\
  hash_lookup h 7 (fun e => edata e =? 3) = Some (Some (mk_elem 300 3)).
Proof.
  pose proof (hash_lookup_exact 32 ex_ops 7 (fun e => edata e =? 3) ltac:(lia)) as H.
  destruct (hash_alloc 32 true) as [err h0] eqn:E. vm_compute in E.
  injection E as <- <-. destruct H as [_ H]. destruct (H eq_refl) as (h1&h'&E1&E2&H').
  injection E1 as <-. exists h'. split; [exact E2|]. rewrite H'; [done|].
  intros e He Hf. vm_compute in He. apply elem_of_cons in He as [->|He]; [done|].
  apply list_elem_of_singleton in He as ->. done.
Defined.

Lemma hash_fast_alignment_independent_witness :
  hash_fast (Some (mk_pl 4096 [97; 98; 99; 100; 101])) [1; 2; 3] =
  hash_fast (Some (mk_pl 4099 [97; 98; 99; 100; 101])) [].
Proof.
  apply (hash_fast_alignment_independent 4096 4099 [97; 98; 99; 100; 101] [1; 2; 3] []);
    [by repeat constructor|by repeat constructor|done|done].
Defined.

Lemma joaat_consistent_witness :
  hash_joaat_str [97; 98] = hash_joaat_pl (Some (mk_pl 1 [97; 98])).
Proof. apply (joaat_consistent [97; 98]). by repeat constructor. Defined.

End Hash.
