(* ===== verification/Dname.v ===== *)
(** * DNS domain names: src/libre/src/dns/dname.c

    Encoding with compression, through a hash table of the names already written,
    and decoding, which follows compression pointers.  A name is the list of its
    characters without the terminator.  The functions work on any [Buffer]; the
    null checks of the buffer are left out.  [None] is undefined behaviour: an
    access outside the buffer or outside the local array of 256 characters. *)
From S2P Require Import Prelude Mem Pl Mbuf Codec Hash.
Import Pl Codec Hash.

Module Dname.

Definition COMP_MASK : Z := 192.
Definition OFFSET_MASK : Z := 16383.
Definition COMP_LOOP : Z := 255.

Record dname := mk_dname { name : list Z; dpos : Z }.

(** [0 == str_casecmp(a, b)] for two strings that are not null. *)
Definition same_name (a b : list Z) : bool := bool_decide (map tolower a = map tolower b).

(** ** Encoding *)

Section Encode.
Context {B : Type} `{Buffer B}.

(** The address of the new table entry for a name at a position, or [None] when
    there is no memory for it. *)
Context (alloc : list Z -> Z -> option Z).

Definition dname_append (ht_dname : option (hash dname)) (nm : list Z) (pos : Z) :
    option (option (hash dname)) :=
  match ht_dname with
  | None => Some None
  | Some h =>
      if (OFFSET_MASK <? pos) || bool_decide (nm = []) then Some (Some h)
      else match alloc nm pos with
           | None => Some (Some h)
           | Some p =>
               h ← hash_append h (hash_joaat_str_ci nm) p (mk_dname nm pos); Some (Some h)
           end
  end.

Definition lookup_handler (nm : list Z) (e : elem dname) : bool := same_name (name (edata e)) nm.

Definition dname_lookup (ht_dname : option (hash dname)) (nm : list Z) : option (option dname) :=
  match ht_dname with
  | None => Some None
  | Some h =>
      match hash_lookup h (hash_joaat_str_ci nm) (lookup_handler nm) with
      | Some (Some e) => Some (Some (edata e))
      | Some None => Some None
      | None => None
      end
  end.

Definition dname_encode_pointer (b : B) (pos : Z) : option (Z * B) :=
  mbuf_write_u16 b (htons (u16 (Z.lor pos (Z.shiftl COMP_MASK 8)))).

(** What an encoder works on: the buffer and the table of names. *)
Record est := mk_est { mb : B; ht : option (hash dname) }.

Definition with_ht (h : option (hash dname)) (r : option (Z * B)) : option (Z * est) :=
  '(err, b) ← r; Some (err, mk_est b h).

(** The loop of [dns_dname_encode]; [nm] is what [name] points to and [pos] the place
    of the length of the current label. *)
Fixpoint encode_loop (s : est) (nm : list Z) (start pos : Z) (comp : bool) : option (Z * est) :=
  let lablen := u64 (mb_pos (mb s) - pos - 1) in
  match nm with
  | [] =>
      if lablen =? 0 then Some (0, s)
      else b ← mb_set_byte (mb s) pos (u8 lablen); with_ht (ht s) (mbuf_write_u8 b 0)
  | c :: nm' =>
      if c =? 46 then
        if lablen =? 0 then Some (EINVAL, s)
        else
          b ← mb_set_byte (mb s) pos (u8 lablen);
          dn ← dname_lookup (ht s) nm';
          match dn, comp with
          | Some d, true => with_ht (ht s) (dname_encode_pointer b (dpos d))
          | _, _ =>
              let pos := mb_pos b in
              h ← (match dn with
                   | None => dname_append (ht s) nm' (u64 (pos - start))
                   | Some _ => Some (ht s)
                   end);
              '(err, b) ← mbuf_write_u8 b 0;
              if err =? 0 then encode_loop (mk_est b h) nm' start pos comp
              else Some (err, mk_est b h)
          end
      else
        '(err, b) ← mbuf_write_u8 (mb s) c;
        if err =? 0 then encode_loop (mk_est b (ht s)) nm' start pos comp
        else Some (err, mk_est b (ht s))
  end.

Definition dns_dname_encode (s : est) (nm : option (list Z)) (start : Z) (comp : bool) :
    option (Z * est) :=
  match nm with
  | None => Some (EINVAL, s)
  | Some nm =>
      dn ← dname_lookup (ht s) nm;
      match dn, comp with
      | Some d, true => with_ht (ht s) (dname_encode_pointer (mb s) (dpos d))
      | _, _ =>
          let pos := mb_pos (mb s) in
          h ← (match dn with
               | None => dname_append (ht s) nm (u64 (pos - start))
               | Some _ => Some (ht s)
               end);
          '(err, b) ← mbuf_write_u8 (mb s) 0;
          if bool_decide (nm = [46]) then Some (err, mk_est b h)
          else if err =? 0 then encode_loop (mk_est b h) nm start pos comp
          else Some (err, mk_est b h)
      end
  end.

End Encode.
Arguments est : clear implicits.

(** ** Decoding *)

Section Decode.
Context {B : Type} `{Buffer B}.

(** [buf[i++] = c], where the array has 256 characters and [i] is the length of [l]. *)
Definition push (l : list Z) (c : Z) : option (list Z) :=
  if 256 <=? Z.of_nat (length l) then None else Some (l ++ [c]).

Fixpoint copy_label (len : nat) (b : B) (buf : list Z) : option (B * list Z) :=
  match len with
  | O => Some (b, buf)
  | S len =>
      c ← mb_byte b (mb_pos b);
      buf ← push buf c;
      copy_label len (mb_set_pos b (u64 (mb_pos b + 1))) buf
  end.

(** The loop of [dns_dname_decode]: [comp] is the flag with the saved [pos], [ok]
    whether the name can be allocated. *)
Fixpoint decode_loop (fuel : nat) (ok : bool) (b : B) (start loopc : Z) (comp : option Z)
    (buf : list Z) : option (Z * option (list Z) * B) :=
  match fuel with
  | O => None
  | S fuel =>
      if mb_end b <=? mb_pos b then Some (EINVAL, None, b)
      else
        len ← mb_byte b (mb_pos b);
        let b := mb_set_pos b (u64 (mb_pos b + 1)) in
        let i := Z.of_nat (length buf) in
        if len =? 0 then
          let b := match comp with Some pos => mb_set_pos b pos | None => b end in
          buf ← push buf 0;
          if ok then Some (0, Some (cstr (take (length buf - 1) buf)), b)
          else Some (ENOMEM, None, b)
        else if Z.land len COMP_MASK =? COMP_MASK then
          if COMP_LOOP <? loopc then Some (EINVAL, None, b)
          else
            let b := mb_set_pos b (u64 (mb_pos b - 1)) in
            '(v, b) ← mbuf_read_u16 b;
            let offset := Z.land (htons v) OFFSET_MASK in
            let comp := match comp with Some pos => Some pos | None => Some (mb_pos b) end in
            decode_loop fuel ok (mb_set_pos b (u64 (offset + start))) start (loopc + 1) comp buf
        else if mbuf_get_left b <? len then Some (EINVAL, None, b)
        else if u64 (256 - i - 2) <? len then Some (EINVAL, None, b)
        else
          buf ← (if 0 <? i then push buf 46 else Some buf);
          '(b, buf) ← copy_label (Z.to_nat len) b buf;
          decode_loop fuel ok b start loopc comp buf
  end.

(** At most 257 pointers are looked at, and between two of them the position grows. *)
Definition decode_fuel (b : B) : nat := (258 * (Z.to_nat (mb_end b) + 1))%nat.

Definition dns_dname_decode (ok : bool) (b : B) (start : Z) : option (Z * option (list Z) * B) :=
  decode_loop (decode_fuel b) ok b start 0 None [].

End Decode.

(** Three names of one message: the second ends in a pointer to the first; the third
    differs from the second only in case and is a pointer. *)
Definition ex_ht : option (hash dname) := snd (hash_alloc 8 true).
Definition ex_alloc (l : list Z) (pos : Z) : option Z := Some (4096 + pos).
Definition enc (s : est (Z * list Z)) (nm : list Z) : est (Z * list Z) :=
  default s (snd <$> dns_dname_encode (H := text_buffer) ex_alloc s (Some nm) 0 true).
Definition ex_msg : list Z := [2; 97; 98; 1; 99; 0; 1; 120; 192; 0; 192; 6].
Example ex_text : mb (enc (enc (enc (mk_est (0, []) ex_ht) [97; 98; 46; 99]) [120; 46; 65; 66; 46; 99])
  [88; 46; 97; 98; 46; 67]) = (12, ex_msg).
Proof. vm_compute. reflexivity. Qed.

(** ** What a message says at a position

    [walk t start p ls h q]: reading the names of text [t] from position [p] gives the
    labels [ls], following [h] pointers, up to position [q]. *)

Definition zero_at (t : list Z) (p : Z) : Prop := 0 <= p /\ t !! Z.to_nat p = Some 0.

Definition label_at (t : list Z) (p : Z) (l : list Z) : Prop :=
  0 <= p /\ t !! Z.to_nat p = Some (Z.of_nat (length l)) /\ 0 < Z.of_nat (length l) < 192 /\
  take (length l) (drop (Z.to_nat (p + 1)) t) = l.

(** A pointer of which only the first byte is there is read as zero and not passed. *)
Definition pointer_at (t : list Z) (start p p' e : Z) : Prop :=
  0 <= p /\ exists b0, t !! Z.to_nat p = Some b0 /\ 192 <= b0 /\
    match t !! Z.to_nat (p + 1) with
    | Some b1 => p' = (256 * b0 + b1) mod 16384 + start /\ e = p + 2
    | None => p' = start /\ e = p
    end.

Inductive walk (t : list Z) (start : Z) : Z -> list (list Z) -> Z -> Z -> Prop :=
| Walk_here p : walk t start p [] 0 p
| Walk_label p l ls h q : label_at t p l ->
    walk t start (p + 1 + Z.of_nat (length l)) ls h q -> walk t start p (l :: ls) h q
| Walk_pointer p p' e ls h q : pointer_at t start p p' e ->
    walk t start p' ls h q -> walk t start p ls (h + 1) q.

(** Where the name that starts at [p] ends in place. *)
Inductive ends (t : list Z) (start : Z) : Z -> Z -> Prop :=
| Ends_zero p : zero_at t p -> ends t start p (p + 1)
| Ends_label p l e : label_at t p l -> ends t start (p + 1 + Z.of_nat (length l)) e ->
    ends t start p e
| Ends_pointer p p' e : pointer_at t start p p' e -> ends t start p e.

Definition app_label (buf l : list Z) : list Z :=
  match buf with [] => l | _ => buf ++ 46 :: l end.
(** The name with labels [ls], after [buf]. *)
Definition join_from (buf : list Z) (ls : list (list Z)) : list Z := foldl app_label buf ls.
Definition join (ls : list (list Z)) : list Z := join_from [] ls.

Lemma app_label_length buf l : (0 < length l)%nat ->
  Z.of_nat (length (app_label buf l)) =
    if bool_decide (buf = []) then Z.of_nat (length l)
    else Z.of_nat (length buf) + 1 + Z.of_nat (length l).
Proof.
  intros _. destruct buf as [|c buf]; simpl; [done|]. rewrite length_app. simpl. lia.
Qed.

Lemma join_from_length t start p ls h q : walk t start p ls h q -> forall buf,
  (length buf <= length (join_from buf ls))%nat.
Proof.
  induction 1 as [p|p l ls h q Hl Hw IH|p p' e ls h q Hp Hw IH]; intros buf; try done.
  unfold join_from in *. simpl. etransitivity; [|apply IH].
  destruct buf; simpl; [lia|]. rewrite length_app. simpl. lia.
Qed.

Lemma walk_hops t start p ls h q : walk t start p ls h q -> 0 <= h.
Proof. induction 1; lia. Qed.

Lemma zero_not_label t p l : zero_at t p -> label_at t p l -> False.
Proof. intros [_ E1] (_&E2&?&_). simplify_eq. lia. Qed.
Lemma zero_not_pointer t start p p' e : zero_at t p -> pointer_at t start p p' e -> False.
Proof. intros [_ E1] (_&x&E2&?&_). simplify_eq. lia. Qed.
Lemma label_not_pointer t start p l p' e : label_at t p l -> pointer_at t start p p' e -> False.
Proof. intros (_&E1&?&_) (_&x&E2&?&_). simplify_eq. lia. Qed.

Lemma label_at_unique t p l l' : label_at t p l -> label_at t p l' -> l = l'.
Proof.
  intros (_&E&_&El) (_&E'&_&El'). rewrite E in E'. injection E' as Eq%Nat2Z.inj. congruence.
Qed.

Lemma pointer_at_unique t start p a b a' b' :
  pointer_at t start p a b -> pointer_at t start p a' b' -> a = a' /\ b = b'.
Proof.
  intros (_&x&E&_&H) (_&x'&E'&_&H'). simplify_eq.
  destruct (t !! Z.to_nat (p + 1)); destruct H, H'; by subst.
Qed.

(** ** Decoding finds what the message says *)

Section DecodeProofs.
Context {B : Type} `{BL : BufferLaws B}.

Lemma mask_ge len : 0 <= len < 256 -> (Z.land len COMP_MASK =? COMP_MASK) = (192 <=? len).
Proof.
  intros Hl. apply eqb_prop.
  revert len Hl. by apply (byte_cases (fun len => Bool.eqb (Z.land len 192 =? 192) (192 <=? len))).
Qed.

Lemma offset_mod v : 0 <= v -> Z.land v OFFSET_MASK = v mod 16384.
Proof. intros _. change OFFSET_MASK with (Z.ones 14). apply Z.land_ones. lia. Qed.

Lemma push_ok l c : Z.of_nat (length l) < 256 -> push l c = Some (l ++ [c]).
Proof. intros. unfold push. destruct (Z.leb_spec 256 (Z.of_nat (length l))); [lia|done]. Qed.

Lemma copy_label_ok len : forall (b : B) buf, mb_ok b ->
  mb_pos b + Z.of_nat len <= mb_end b -> Z.of_nat (length buf) + Z.of_nat len <= 256 ->
  copy_label len b buf = Some (mb_set_pos b (mb_pos b + Z.of_nat len),
    buf ++ take len (drop (Z.to_nat (mb_pos b)) (mb_text b))).
Proof.
  induction len as [|len IH]; intros b buf Hb He Hl; simpl.
  - by rewrite take_0, app_nil_r, Z.add_0_r, mb_pos_same.
  - pose proof (mb_bounds b Hb) as [Hp Hs]. pose proof (mb_length b Hb) as Ht.
    unfold Mem.SIZE_MAX in *.
    rewrite mb_byte_ok by (done || lia).
    destruct (lookup_lt_is_Some_2 (mb_text b) (Z.to_nat (mb_pos b))) as [c Hc]; [lia|].
    rewrite Hc. simpl. rewrite push_ok by lia. simpl.
    destruct (mb_pos_set b (u64 (mb_pos b + 1)) Hb) as (Hb'&Ht'&Hp'&He');
      [pose proof (u64_range (mb_pos b + 1)); lia|].
    assert (mb_pos (mb_set_pos b (u64 (mb_pos b + 1))) = mb_pos b + 1) as Hp1.
    { rewrite Hp'. apply u64_small. lia. }
    rewrite IH; [|done|lia|rewrite length_app; simpl; lia].
    rewrite mb_pos_set_set, Hp1, Ht'. do 2 f_equal; [f_equal; lia|].
    rewrite <- app_assoc. f_equal. simpl.
    replace (Z.to_nat (mb_pos b + 1)) with (S (Z.to_nat (mb_pos b))) by lia.
    by rewrite (drop_S _ _ _ Hc).
Qed.

(** Past the end of the array, the first character is already too much. *)
Lemma copy_label_over len (b : B) buf : (0 < len)%nat -> 256 <= Z.of_nat (length buf) ->
  copy_label len b buf = None.
Proof.
  intros Hl Hb. destruct len; [lia|]. simpl. destruct (mb_byte b (mb_pos b)); [|done].
  simpl. unfold push. destruct (Z.leb_spec 256 (Z.of_nat (length buf))); [done|lia].
Qed.

(** Reading the two bytes of a pointer. *)
Lemma read_pointer (b : B) p : mb_ok b -> bytes (mb_text b) -> 0 <= p < mb_end b ->
  exists b0, mb_text b !! Z.to_nat p = Some b0 /\ 0 <= b0 < 256 /\
  exists v, mbuf_read_u16 (mb_set_pos b p) = Some (v, mb_set_pos b
      (match mb_text b !! Z.to_nat (p + 1) with Some _ => p + 2 | None => p end)) /\
    Z.land (htons v) OFFSET_MASK =
      match mb_text b !! Z.to_nat (p + 1) with
      | Some b1 => (256 * b0 + b1) mod 16384 | None => 0 end.
Proof.
  intros Hb Hbytes Hp. pose proof (mb_bounds b Hb) as [_ Hs]. pose proof (mb_length b Hb) as Ht.
  destruct (mb_pos_set b p Hb) as (Hb'&Ht'&Hp'&He'); [lia|].
  destruct (lookup_lt_is_Some_2 (mb_text b) (Z.to_nat p)) as [b0 H0]; [lia|].
  exists b0. split; [done|]. pose proof (Forall_lookup_1 _ _ _ _ Hbytes H0) as Hb0. split; [exact Hb0|].
  unfold mbuf_read_u16, read_uint.
  destruct (decide (p + 1 < mb_end b)) as [Hlt|Hge].
  - destruct (lookup_lt_is_Some_2 (mb_text b) (Z.to_nat (p + 1))) as [b1 H1]; [lia|].
    pose proof (Forall_lookup_1 _ _ _ _ Hbytes H1) as Hb1. unfold is_byte in *.
    rewrite mb_read_ok by (done || (left; lia)). unfold mbuf_get_left. rewrite Hp', He', Ht'.
    destruct (Z.ltb_spec p (mb_end b)); [|lia].
    destruct (Z.ltb_spec (mb_end b - p) (Z.of_nat 2)); [lia|]. rewrite H1. simpl.
    eexists. split; [by rewrite mb_pos_set_set|].
    rewrite (drop_S _ _ _ H0). replace (S (Z.to_nat p)) with (Z.to_nat (p + 1)) by lia.
    rewrite (drop_S _ _ _ H1). simpl take. cbn [Z.eqb]. rewrite htons_pair by done.
    apply offset_mod. lia.
  - rewrite (lookup_ge_None_2 _ (Z.to_nat (p + 1))) by lia.
    rewrite mb_read_ok by (done || (left; lia)).
    unfold mbuf_get_left. rewrite Hp', He'.
    destruct (Z.ltb_spec p (mb_end b)); [|lia].
    destruct (Z.ltb_spec (mb_end b - p) (Z.of_nat 2)); [|lia]. simpl.
    eexists. split; [done|]. by vm_compute.
Qed.

(** What a run of the loop from position [p] may return: the name the message says
    there, an error if it says none, undefined if a label follows the 255th character. *)
Definition decoded (t : list Z) (start p h0 : Z) (buf : list Z) (comp : option Z) (b : B)
    (r : option (Z * option (list Z) * B)) : Prop :=
  match r with
  | Some (err, Some n, b') => err = 0 /\ exists ls h q e,
      walk t start p ls h q /\ zero_at t q /\ h0 + h <= 256 /\
      Z.of_nat (length (join_from buf ls)) <= 255 /\ n = cstr (join_from buf ls) /\
      ends t start p e /\ b' = mb_set_pos b (default e comp)
  | Some (err, None, b') => err = EINVAL /\ mb_ok b' /\ mb_text b' = t /\
      forall ls h q, walk t start p ls h q -> h0 + h <= 256 ->
        Z.of_nat (length (join_from buf ls)) <= 255 ->
        ~ zero_at t q /\
        (Z.of_nat (length (join_from buf ls)) = 255 -> forall l, ~ label_at t q l)
  | None => exists ls h q l, walk t start p ls h q /\ h0 + h <= 256 /\
      Z.of_nat (length (join_from buf ls)) = 255 /\ label_at t q l
  end.

Lemma decoded_label t start p h0 buf l comp b r : label_at t p l ->
  Z.of_nat (length (app_label buf l)) <= 255 ->
  decoded t start (p + 1 + Z.of_nat (length l)) h0 (app_label buf l) comp b r ->
  decoded t start p h0 buf comp b r.
Proof.
  intros Hl Hn. assert (0 < length l)%nat as Hpos by (destruct Hl as (_&_&?&_); lia).
  destruct r as [[[err [n|]] b']|]; simpl.
  - intros (->&ls&h&q&e&Hw&Hz&Hh&Hj&->&He&->). split; [done|].
    exists (l :: ls), h, q, e. split_and!; try done; [by eapply Walk_label|by eapply Ends_label].
  - intros (->&Hb&Ht&Hno). split_and!; try done. intros ls h q Hw Hh Hj.
    inversion Hw; subst; clear Hw.
    + split; [intros Hz; by eapply zero_not_label|]. intros Hfull. exfalso.
      rewrite app_label_length in Hn by done. simpl in Hfull.
      case_bool_decide; [subst; simpl in *; lia|lia].
    + assert (l0 = l) as -> by by eapply label_at_unique. by eapply Hno.
    + exfalso. by eapply label_not_pointer.
  - intros (ls&h&q&l'&Hw&Hh&Hj&Hl'). exists (l :: ls), h, q, l'.
    split_and!; try done. by eapply Walk_label.
Qed.

Lemma decoded_pointer t start p p' e h0 buf comp b r : pointer_at t start p p' e ->
  decoded t start p' (h0 + 1) buf (Some (default e comp)) b r ->
  decoded t start p h0 buf comp b r.
Proof.
  intros Hp. destruct r as [[[err [n|]] b']|]; simpl.
  - intros (->&ls&h&q&e'&Hw&Hz&Hh&Hj&->&He&->). split; [done|].
    exists ls, (h + 1), q, e. split_and!; try done; [by eapply Walk_pointer|lia|by eapply Ends_pointer].
  - intros (->&Hb&Ht&Hno). split_and!; try done. intros ls h q Hw Hh Hj.
    inversion Hw; subst; clear Hw.
    + split; [intros Hz; exact (zero_not_pointer _ _ _ _ _ Hz Hp)|].
      intros _ l Hl. exact (label_not_pointer _ _ _ _ _ _ Hl Hp).
    + exfalso. by eapply label_not_pointer.
    + match goal with H : pointer_at _ _ _ ?x _ |- _ =>
        destruct (pointer_at_unique _ _ _ _ _ _ _ H Hp) as [-> _] end.
      eapply Hno; [done|lia|done].
  - intros (ls&h&q&l'&Hw&Hh&Hj&Hl'). exists ls, (h + 1), q, l'.
    split_and!; try done; [by eapply Walk_pointer|lia].
Qed.

(** An error at once. *)
Lemma decoded_stuck t start p h0 buf comp (b b' : B) : mb_ok b' -> mb_text b' = t ->
  ~ zero_at t p ->
  (forall l, label_at t p l -> Z.of_nat (length buf) <= 254 /\
     255 < Z.of_nat (length (app_label buf l))) ->
  (forall p' e, pointer_at t start p p' e -> 256 <= h0) ->
  decoded t start p h0 buf comp b (Some (EINVAL, None, b')).
Proof.
  intros Hb Ht Hz Hl Hp. split_and!; try done. intros ls h q Hw Hh Hj.
  inversion Hw; subst; clear Hw.
  - split; [done|]. intros Hfull l H1. destruct (Hl l H1). simpl in Hfull. lia.
  - destruct (Hl l); [done|].
    match goal with H : walk _ _ _ ls0 _ _ |- _ => pose proof (join_from_length _ _ _ _ _ _ H (app_label buf l)) end.
    unfold join_from in *. simpl in Hj. lia.
  - match goal with H : pointer_at _ _ _ _ _ |- _ => apply Hp in H end.
    match goal with H : walk _ _ _ _ _ _ |- _ => apply walk_hops in H end. lia.
Qed.

Definition measure (b : B) (p h0 : Z) : Z :=
  (257 - h0) * (mb_end b + 1) + Z.max 0 (mb_end b - p).

Lemma label_at_intro (b : B) p len : mb_ok b -> 0 <= p -> 0 < len < 192 ->
  mb_text b !! Z.to_nat p = Some len -> p + 1 + len <= mb_end b ->
  let l := take (Z.to_nat len) (drop (Z.to_nat (p + 1)) (mb_text b)) in
  label_at (mb_text b) p l /\ Z.of_nat (length l) = len.
Proof.
  intros Hb Hp Hl Hc He l. pose proof (mb_length b Hb) as Ht.
  assert (Z.of_nat (length l) = len) as Hlen.
  { unfold l. rewrite length_take, length_drop. lia. }
  split; [|done]. unfold label_at. rewrite Hlen. split_and!; try lia; [done|].
  replace (length l) with (Z.to_nat len) by lia. done.
Qed.

Lemma label_at_inside (b : B) p l : mb_ok b -> label_at (mb_text b) p l ->
  p + 1 + Z.of_nat (length l) <= mb_end b.
Proof.
  intros Hb (Hp&_&Hl&Hs). pose proof (mb_length b Hb) as Ht.
  apply (f_equal length) in Hs. rewrite length_take, length_drop in Hs. lia.
Qed.

(** The step at a pointer and at a label, given the run after it. *)
Definition run_ok (fuel : nat) (b : B) (start : Z) : Prop := forall p h0 comp buf,
  0 <= p -> 0 <= h0 <= 256 -> Z.of_nat (length buf) <= 255 -> measure b p h0 < Z.of_nat fuel ->
  decoded (mb_text b) start p h0 buf comp b
    (decode_loop fuel true (mb_set_pos b p) start h0 comp buf).

Lemma decode_pointer_step fuel (b : B) start p h0 comp buf len : mb_ok b -> bytes (mb_text b) ->
  0 <= start -> start + 16384 <= Mem.SIZE_MAX -> 0 <= p < mb_end b -> 0 <= h0 <= 256 ->
  Z.of_nat (length buf) <= 255 -> measure b p h0 < Z.of_nat (S fuel) ->
  mb_text b !! Z.to_nat p = Some len -> 192 <= len -> run_ok fuel b start ->
  decoded (mb_text b) start p h0 buf comp b
    (if COMP_LOOP <? h0 then Some (EINVAL, None, mb_set_pos b (p + 1))
     else
       let b0 := mb_set_pos (mb_set_pos b (p + 1)) (u64 (mb_pos (mb_set_pos b (p + 1)) - 1)) in
       '(v, b1) ← mbuf_read_u16 b0;
       let offset := Z.land (htons v) OFFSET_MASK in
       let comp' := match comp with Some pos => Some pos | None => Some (mb_pos b1) end in
       decode_loop fuel true (mb_set_pos b1 (u64 (offset + start))) start (h0 + 1) comp' buf).
Proof.
  intros Hb Hbytes Hst Hmax Hp Hh Hbuf Hfuel Hc H192 IH.
  pose proof (mb_bounds b Hb) as [_ Hs]. pose proof (mb_length b Hb) as Hlen.
  destruct (mb_pos_set b (p + 1) Hb) as (Hb1&Ht1&Hp1&He1); [lia|].
  change COMP_LOOP with 255. destruct (Z.ltb_spec 255 h0).
  { apply decoded_stuck; try done.
    - intros [_ E]. rewrite Hc in E. simplify_eq. lia.
    - intros l (_&E&Hl&_). rewrite Hc in E. simplify_eq. lia.
    - intros. lia. }
  cbv zeta. rewrite Hp1, mb_pos_set_set.
  rewrite (u64_small (p + 1 - 1)) by (unfold Mem.SIZE_MAX in *; lia).
  replace (p + 1 - 1) with p by lia.
  destruct (read_pointer b p Hb Hbytes Hp) as (b0&Hb0&Hr0&v&Er&Ev).
  rewrite Hc in Hb0. injection Hb0 as <-. rewrite Er. cbn [mbind option_bind]. rewrite Ev.
  set (e := match mb_text b !! Z.to_nat (p + 1) with Some _ => p + 2 | None => p end).
  set (off := match mb_text b !! Z.to_nat (p + 1) with
              | Some b1 => (256 * len + b1) mod 16384 | None => 0 end).
  assert (0 <= off < 16384) as Hoff.
  { unfold off. destruct (mb_text b !! Z.to_nat (p + 1)); [by apply Z.mod_pos_bound|lia]. }
  rewrite mb_pos_set_set, u64_small by (unfold Mem.SIZE_MAX in *; lia).
  assert (0 <= e) as Hepos by (unfold e; destruct (mb_text b !! Z.to_nat (p + 1)); lia).
  destruct (mb_pos_set b e Hb Hepos) as (_&_&->&_).
  apply (decoded_pointer _ _ _ (off + start) e).
  - split; [lia|]. exists len. split; [done|]. split; [done|]. unfold off, e.
    by destruct (mb_text b !! Z.to_nat (p + 1)).
  - replace (match comp with Some pos => Some pos | None => Some e end)
      with (Some (default e comp)) by by destruct comp.
    apply IH; [lia|lia|done|]. unfold measure in *. nia.
Qed.

Lemma decode_label_step fuel (b : B) start p h0 comp buf len : mb_ok b -> bytes (mb_text b) ->
  0 <= start -> 0 <= p < mb_end b -> 0 <= h0 <= 256 ->
  Z.of_nat (length buf) <= 255 -> measure b p h0 < Z.of_nat (S fuel) ->
  mb_text b !! Z.to_nat p = Some len -> 0 < len < 192 -> run_ok fuel b start ->
  decoded (mb_text b) start p h0 buf comp b
    (if mbuf_get_left (mb_set_pos b (p + 1)) <? len
     then Some (EINVAL, None, mb_set_pos b (p + 1))
     else if u64 (256 - Z.of_nat (length buf) - 2) <? len
     then Some (EINVAL, None, mb_set_pos b (p + 1))
     else
       buf0 ← (if 0 <? Z.of_nat (length buf) then push buf 46 else Some buf);
       '(b0, buf1) ← copy_label (Z.to_nat len) (mb_set_pos b (p + 1)) buf0;
       decode_loop fuel true b0 start h0 comp buf1).
Proof.
  intros Hb Hbytes Hst Hp Hh Hbuf Hfuel Hc Hr IH.
  pose proof (mb_bounds b Hb) as [_ Hs]. pose proof (mb_length b Hb) as Hlen.
  destruct (mb_pos_set b (p + 1) Hb) as (Hb1&Ht1&Hp1&He1); [lia|].
  assert (~ zero_at (mb_text b) p) as Hnz by (intros [_ E]; rewrite Hc in E; simplify_eq; lia).
  assert (forall p' e, pointer_at (mb_text b) start p p' e -> 256 <= h0) as Hnp.
  { intros p' e (_&x&E&Hx&_). rewrite Hc in E. simplify_eq. lia. }
  assert (forall l, label_at (mb_text b) p l -> Z.of_nat (length l) = len) as Hll.
  { intros l (_&E&_). rewrite Hc in E. by injection E. }
  unfold mbuf_get_left. rewrite Hp1, He1.
  destruct (Z.ltb_spec (if p + 1 <? mb_end b then mb_end b - (p + 1) else 0) len) as [Hshort|Hleft].
  { apply decoded_stuck; try done. intros l Hl. exfalso.
    pose proof (label_at_inside b p l Hb Hl). pose proof (Hll l Hl).
    destruct (Z.ltb_spec (p + 1) (mb_end b)); lia. }
  assert (p + 1 + len <= mb_end b) as Hin by (destruct (Z.ltb_spec (p + 1) (mb_end b)); lia).
  destruct (label_at_intro b p len Hb ltac:(lia) Hr Hc Hin) as [Hl Hln]. clear Hleft.
  set (l := take (Z.to_nat len) (drop (Z.to_nat (p + 1)) (mb_text b))) in *.
  pose proof (app_label_length buf l ltac:(lia)) as Happ.
  assert (bool_decide (buf = []) = negb (0 <? Z.of_nat (length buf))) as Hemp.
  { destruct buf; simpl; [done|]. case_bool_decide; [done|].
    destruct (Z.ltb_spec 0 (Z.of_nat (S (length buf)))); [done|lia]. }
  rewrite Hemp in Happ.
  destruct (Z.ltb_spec 0 (Z.of_nat (length buf))) as [Hpos|Hzero]; cbn [negb] in Happ.
  - (* not the first label *)
    destruct (decide (Z.of_nat (length buf) = 255)) as [Hfull|Hnf].
    + rewrite Hfull. change (u64 (256 - 255 - 2)) with 18446744073709551615.
      destruct (Z.ltb_spec 18446744073709551615 len); [lia|].
      rewrite push_ok by lia. cbn [mbind option_bind].
      rewrite copy_label_over; [|lia|rewrite length_app; simpl; lia].
      exists [], 0, p, l. split_and!; try done; [constructor|lia].
    + rewrite u64_small by lia. destruct (Z.ltb_spec (256 - Z.of_nat (length buf) - 2) len).
      { apply decoded_stuck; try done. intros l' Hl'.
        assert (l' = l) as -> by by eapply label_at_unique. lia. }
      rewrite push_ok by lia. cbn [mbind option_bind].
      rewrite copy_label_ok; [|done|lia|rewrite length_app; simpl; lia].
      cbn [mbind option_bind]. rewrite Hp1, Ht1, mb_pos_set_set, Z2Nat.id by lia. fold l.
      apply (decoded_label _ _ _ _ _ l); [done|lia|].
      replace ((buf ++ [46]) ++ l) with (app_label buf l)
        by (destruct buf; [simpl in *; lia|]; simpl; by rewrite <- app_assoc).
      rewrite Hln. apply IH; [lia|done|lia|]. unfold measure in *. lia.
  - destruct buf as [|]; [|simpl in Hzero; lia]. simpl length in *. cbn [mbind option_bind].
    rewrite u64_small by lia. destruct (Z.ltb_spec (256 - Z.of_nat 0 - 2) len); [lia|].
    rewrite copy_label_ok; [|done|lia|simpl; lia].
    cbn [mbind option_bind]. rewrite Hp1, Ht1, mb_pos_set_set, Z2Nat.id by lia. fold l.
    apply (decoded_label _ _ _ _ _ l); [done|simpl; lia|].
    rewrite Hln. apply IH; [lia|done|simpl; lia|]. unfold measure in *. lia.
Qed.

Lemma decode_loop_ok fuel : forall (b : B) start p h0 comp buf, mb_ok b -> bytes (mb_text b) ->
  0 <= start -> start + 16384 <= Mem.SIZE_MAX -> 0 <= p -> 0 <= h0 <= 256 ->
  Z.of_nat (length buf) <= 255 -> measure b p h0 < Z.of_nat fuel ->
  decoded (mb_text b) start p h0 buf comp b
    (decode_loop fuel true (mb_set_pos b p) start h0 comp buf).
Proof.
  induction fuel as [|fuel IH]; intros b start p h0 comp buf Hb Hbytes Hst Hmax Hp Hh Hbuf Hfuel.
  { exfalso. unfold measure in Hfuel. pose proof (mb_bounds b Hb). nia. }
  pose proof (mb_bounds b Hb) as [_ Hs]. pose proof (mb_length b Hb) as Hlen.
  destruct (mb_pos_set b p Hb Hp) as (Hb'&Ht'&Hp'&He').
  cbn [decode_loop]. rewrite Hp', He'.
  destruct (Z.leb_spec (mb_end b) p) as [Hge|Hlt].
  { apply decoded_stuck; try done.
    - intros [_ E]. apply lookup_lt_Some in E. lia.
    - intros l (_&E&_). apply lookup_lt_Some in E. lia.
    - intros p' e (_&x&E&_). apply lookup_lt_Some in E. lia. }
  rewrite mb_byte_ok by (done || lia). rewrite Ht'.
  destruct (lookup_lt_is_Some_2 (mb_text b) (Z.to_nat p)) as [len Hc]; [lia|].
  rewrite Hc. cbn [mbind option_bind]. rewrite mb_pos_set_set.
  rewrite (u64_small (p + 1)) by (unfold Mem.SIZE_MAX in *; lia).
  pose proof (Forall_lookup_1 _ _ _ _ Hbytes Hc) as Hbyte. unfold is_byte in Hbyte. simpl in Hbyte.
  destruct (Z.eqb_spec len 0) as [->|Hnz].
  - rewrite push_ok by lia. cbn [mbind option_bind]. rewrite length_app. simpl length.
    replace (length buf + 1 - 1)%nat with (length buf) by lia. rewrite take_app_length.
    split; [done|]. exists [], 0, p, (p + 1). split_and!; try done; [constructor|lia|by constructor|].
    destruct comp; simpl; by rewrite ?mb_pos_set_set.
  - assert (run_ok fuel b start) as Hrun by (intros p' h' comp' buf' ? ? ? ?; by apply IH).
    rewrite mask_ge by done. destruct (Z.leb_spec 192 len) as [Hptr|Hlab].
    + apply (decode_pointer_step fuel b start p h0 comp buf len); done || lia.
    + apply (decode_label_step fuel b start p h0 comp buf len); done || lia.
Qed.

Lemma walk_from_zero t start q ls h q' : zero_at t q -> walk t start q ls h q' ->
  ls = [] /\ h = 0 /\ q' = q.
Proof.
  intros Hz Hw. inversion Hw; subst; [done|..].
  - exfalso. eauto using zero_not_label.
  - exfalso. eauto using zero_not_pointer.
Qed.

(** A walk that ends at a terminator goes through wherever the text leads. *)
Lemma walk_prefix t start p ls' h' q' : walk t start p ls' h' q' ->
  forall ls h q, walk t start p ls h q -> zero_at t q ->
  exists ls2 h2, ls = ls' ++ ls2 /\ h = h' + h2 /\ walk t start q' ls2 h2 q.
Proof.
  induction 1 as [p|p l ls' h' q' Hl Hw IH|p p' e ls' h' q' Hp Hw IH]; intros ls h q Hw' Hz.
  - by exists ls, h.
  - inversion Hw'; subst; clear Hw'.
    + exfalso. eauto using zero_not_label.
    + assert (l0 = l) as -> by by eapply label_at_unique.
      destruct (IH _ _ _ ltac:(eassumption) Hz) as (ls2&h2&->&->&?). by exists ls2, h2.
    + exfalso. eauto using label_not_pointer.
  - inversion Hw'; subst; clear Hw'.
    + exfalso. eauto using zero_not_pointer.
    + exfalso. eauto using label_not_pointer.
    + match goal with H : pointer_at _ _ _ ?x _ |- _ =>
        destruct (pointer_at_unique _ _ _ _ _ _ _ H Hp) as [-> _] end.
      destruct (IH _ _ _ ltac:(eassumption) Hz) as (ls2&h2&->&->&?).
      exists ls2, h2. split_and!; [done|lia|done].
Qed.

Lemma ends_unique t start p e e' : ends t start p e -> ends t start p e' -> e = e'.
Proof.
  intros H1. revert e'. induction H1 as [p Hz|p l e Hl He IH|p p' e Hp]; intros e' H2;
    inversion H2; subst; clear H2.
  - done.
  - exfalso. eauto using zero_not_label.
  - exfalso. eauto using zero_not_pointer.
  - exfalso. eauto using zero_not_label.
  - assert (l0 = l) as -> by by eapply label_at_unique. auto.
  - exfalso. eauto using label_not_pointer.
  - exfalso. eauto using zero_not_pointer.
  - exfalso. eauto using label_not_pointer.
  - by eapply pointer_at_unique.
Qed.

(** The text says a name at [p]: its labels and where it ends in place; and it has a
    label that begins past the 255th character of the name. *)
Definition says (t : list Z) (start p : Z) (ls : list (list Z)) (e : Z) : Prop :=
  exists h q, walk t start p ls h q /\ zero_at t q /\ h <= 256 /\
    Z.of_nat (length (join ls)) <= 255 /\ ends t start p e.
Definition overlong (t : list Z) (start p : Z) : Prop :=
  exists ls h q l, walk t start p ls h q /\ h <= 256 /\
    Z.of_nat (length (join ls)) = 255 /\ label_at t q l.

Lemma says_unique t start p ls e ls' e' : says t start p ls e -> says t start p ls' e' ->
  ls = ls' /\ e = e'.
Proof.
  intros (h&q&Hw&Hz&_&_&He) (h'&q'&Hw'&Hz'&_&_&He'). split; [|by eapply ends_unique].
  destruct (walk_prefix _ _ _ _ _ _ Hw' _ _ _ Hw Hz) as (ls2&h2&->&_&Hw2).
  destruct (walk_from_zero _ _ _ _ _ _ Hz' Hw2) as (->&_). by rewrite app_nil_r.
Qed.

Lemma says_not_overlong t start p ls e : says t start p ls e -> overlong t start p -> False.
Proof.
  intros (h&q&Hw&Hz&_&Hj&_) (ls'&h'&q'&l&Hw'&_&Hj'&Hl).
  destruct (walk_prefix _ _ _ _ _ _ Hw' _ _ _ Hw Hz) as (ls2&h2&->&_&Hw2).
  inversion Hw2; subst.
  - eauto using zero_not_label.
  - assert (l0 = l) as -> by by eapply label_at_unique.
    match goal with H : walk _ _ _ ls _ _ |- _ =>
      pose proof (join_from_length _ _ _ _ _ _ H (app_label (join ls') l)) as Hlen end.
    assert (0 < length l)%nat as Hpos by (destruct Hl as (_&_&?&_); lia).
    rewrite (Nat2Z.inj_le), app_label_length in Hlen by done.
    unfold join, join_from in *. rewrite foldl_app in Hj. simpl in Hj.
    case_bool_decide as E; [rewrite E in Hj'; simpl in Hj'; lia|lia].
  - exfalso. eauto using label_not_pointer.
Qed.

Lemma dns_dname_decode_ok (b : B) start : mb_ok b -> bytes (mb_text b) ->
  0 <= start -> start + 16384 <= Mem.SIZE_MAX ->
  decoded (mb_text b) start (mb_pos b) 0 [] None b (dns_dname_decode true b start).
Proof.
  intros Hb Hbytes Hst Hmax. pose proof (mb_bounds b Hb). unfold dns_dname_decode.
  rewrite <- (mb_pos_same b) at 5. apply decode_loop_ok; try done; try lia.
  unfold measure, decode_fuel. nia.
Qed.

Lemma dname_decode_says (b : B) start ls e : mb_ok b -> bytes (mb_text b) ->
  0 <= start -> start + 16384 <= Mem.SIZE_MAX -> says (mb_text b) start (mb_pos b) ls e ->
  dns_dname_decode true b start = Some (0, Some (cstr (join ls)), mb_set_pos b e).
Proof.
  intros Hb Hbytes Hst Hmax Hsay. pose proof (dns_dname_decode_ok b start Hb Hbytes Hst Hmax) as Hd.
  destruct (dns_dname_decode true b start) as [[[err [n|]] b']|]; simpl in Hd.
  - destruct Hd as (->&ls'&h&q&e'&Hw&Hz&Hh&Hj&->&He&->).
    assert (says (mb_text b) start (mb_pos b) ls' e') as Hs' by (exists h, q; by split_and!).
    by destruct (says_unique _ _ _ _ _ _ _ Hsay Hs') as [-> ->].
  - destruct Hd as (->&_&Ht&Hno). destruct Hsay as (h&q&Hw&Hz&Hh&Hj&_).
    by destruct (Hno ls h q Hw Hh Hj).
  - by destruct (says_not_overlong _ _ _ _ _ Hsay Hd).
Qed.

(** Decoding a name ends on every text, whatever pointers it has: it returns the
    name exactly when the text says one of at most 255 characters behind at most 256
    pointers, and leaves the position where the name ends in place; it is undefined,
    writing past the array of 256 characters on the stack, exactly when another label
    follows the 255th character; otherwise it is refused with [EINVAL]. *)
Theorem dname_decode_exact (b : B) start : mb_ok b -> bytes (mb_text b) ->
  0 <= start -> start + 16384 <= Mem.SIZE_MAX ->
  let r := dns_dname_decode true b start in
  (forall n b', r = Some (0, Some n, b') <->
     exists ls e, says (mb_text b) start (mb_pos b) ls e /\ n = cstr (join ls) /\
       b' = mb_set_pos b e) /\
  (r = None <-> overlong (mb_text b) start (mb_pos b)) /\
  (r <> None -> (forall n b', r <> Some (0, Some n, b')) ->
     exists b', r = Some (EINVAL, None, b') /\ mb_text b' = mb_text b).
Proof.
  intros Hb Hbytes Hst Hmax r. pose proof (dns_dname_decode_ok b start Hb Hbytes Hst Hmax) as Hd.
  assert (forall ls e, says (mb_text b) start (mb_pos b) ls e ->
    r = Some (0, Some (cstr (join ls)), mb_set_pos b e)) as Hsay by (intros; by apply dname_decode_says).
  fold r in Hd. split_and!.
  - intros n b'. split; [|intros (ls&e&Hs&->&->); by apply Hsay]. intros ->. simpl in Hd.
    destruct Hd as (_&ls&h&q&e&Hw&Hz&Hh&Hj&->&He&->). exists ls, e. split; [|done].
    exists h, q. by split_and!.
  - destruct r as [[[err [n|]] b']|]; simpl in Hd; (split; [done|]); [| |done].
    + destruct Hd as (->&ls&h&q&e&Hw&Hz&Hh&Hj&->&He&->). intros Ho.
      apply (says_not_overlong (mb_text b) start (mb_pos b) ls e) in Ho; [done|].
      exists h, q. by split_and!.
    + destruct Hd as (_&_&_&Hno). intros (ls&h&q&l&Hw&Hh&Hj&Hl).
      destruct (Hno ls h q Hw Hh) as [_ Hn]; [unfold join in Hj; lia|]. by destruct (Hn Hj l).
  - destruct r as [[[err [n|]] b']|]; simpl in Hd; [|by destruct Hd as (->&_&Ht&_); intros _ _; exists b'|done].
    destruct Hd as (->&_). intros _ Hno. by destruct (Hno n b').
Qed.

End DecodeProofs.

(** ** Names and their labels *)

Definition good_label (l : list Z) : Prop :=
  0 < Z.of_nat (length l) < 192 /\ Forall (fun c => is_byte c /\ c <> 46 /\ c <> 0) l.

(** What follows the first label of a name, and the name, with or without a final dot. *)
Definition rest (ls : list (list Z)) (dot : bool) : list Z :=
  concat (map (cons 46) ls) ++ (if dot then [46] else []).
Definition name_of (ls : list (list Z)) (dot : bool) : list Z :=
  match ls with [] => if dot then [46] else [] | l :: ls => l ++ rest ls dot end.

Definition same_label (a b : list Z) : Prop := map tolower a = map tolower b.

#[export] Instance same_label_equiv : Equivalence same_label.
Proof.
  split; unfold same_label; [intros a; done|intros a b E; by symmetry|].
  intros a b c E1 E2. congruence.
Qed.

Lemma same_name_spec a b : same_name a b = true <-> same_label a b.
Proof. unfold same_name. by rewrite bool_decide_eq_true. Qed.

Lemma tolower_keeps c k : is_byte c -> (k = 46 \/ k = 0) -> (tolower c = k <-> c = k).
Proof.
  intros Hc Hk. unfold tolower. destruct (Z.leb_spec 65 c), (Z.leb_spec c 90); simpl; lia.
Qed.

Lemma same_label_length a b : same_label a b -> length a = length b.
Proof. intros E. apply (f_equal length) in E. by rewrite !length_map in E. Qed.

Lemma tolower_forall (P : Z -> Prop) a b : (forall c d, is_byte c -> is_byte d ->
    tolower c = tolower d -> P c -> P d) -> bytes b ->
  same_label a b -> Forall (fun c => is_byte c /\ P c) a -> Forall (fun c => is_byte c /\ P c) b.
Proof.
  intros HP Hb Hs Ha. revert b Hb Hs. induction Ha as [|c a [Hc Hpc] Ha IH]; intros [|d b] Hb Hs;
    try done. inversion Hb; subst. injection Hs as E Hs. constructor; [|by apply IH].
  split; [done|]. by apply (HP c d).
Qed.

Lemma good_label_same a b : bytes b -> same_label a b -> good_label a -> good_label b.
Proof.
  intros Hb Hs [Hl Ha]. split; [by rewrite <- (same_label_length a b Hs)|].
  revert Hb Hs Ha. apply (tolower_forall (fun c => c <> 46 /\ c <> 0)).
  intros c d Hc Hd E [H1 H2]. split; intros ->; [apply H1|apply H2].
  - apply (tolower_keeps c 46); [done|by left|]. rewrite E. by vm_compute.
  - apply (tolower_keeps c 0); [done|by right|]. rewrite E. by vm_compute.
Qed.

Lemma join_from_app buf ls : buf <> [] -> join_from buf ls = buf ++ concat (map (cons 46) ls).
Proof.
  revert buf. induction ls as [|l ls IH]; intros buf Hb; [by rewrite app_nil_r|].
  unfold join_from in *. simpl. rewrite IH.
  - destruct buf; [done|]. simpl. by rewrite <- app_assoc.
  - destruct buf; [done|]. simpl. by destruct buf.
Qed.

Lemma join_name ls : Forall good_label ls -> name_of ls false = join ls.
Proof.
  intros Hg. destruct Hg as [|l ls [Hl _] Hg]; [done|]. unfold join, join_from. simpl.
  rewrite join_from_app by (intros ->; simpl in Hl; lia). unfold rest. by rewrite app_nil_r.
Qed.

Lemma join_length ls : Forall good_label ls -> (length ls <= length (join ls))%nat.
Proof.
  intros Hg. rewrite <- join_name by done. destruct Hg as [|l ls [Hl _] Hg]; [done|].
  simpl. unfold rest. rewrite app_nil_r, length_app.
  assert (length ls <= length (concat (map (cons 46%Z) ls)))%nat; [|lia].
  clear. induction ls; simpl; [done|]. rewrite length_app. lia.
Qed.

Lemma join_same ls ls' : Forall2 same_label ls ls' -> same_label (join ls) (join ls').
Proof.
  intros H. unfold join, join_from. assert (same_label [] []) as Hb by done. revert Hb.
  generalize (@nil Z) at 1 3. generalize (@nil Z).
  induction H as [|l l' ls ls' Hl H IH]; intros b' b Hb; simpl; [done|]. apply IH.
  unfold same_label in *. destruct b, b'; simpl in *; try done.
  rewrite !map_app. simpl. injection Hb as -> ->. by rewrite Hl.
Qed.

(** Two texts that continue with a dot or not at all are cut at the same place. *)
Lemma cut_at_dot a b x y : Forall (fun c => c <> 46) a -> Forall (fun c => c <> 46) b ->
  (x = [] \/ exists x', x = 46 :: x') -> (y = [] \/ exists y', y = 46 :: y') ->
  a ++ x = b ++ y -> a = b /\ x = y.
Proof.
  intros Ha. revert b. induction Ha as [|c a Hc Ha IH]; intros b Hb Hx Hy E; simpl in *.
  - destruct Hb as [|d b Hd Hb]; [done|]. destruct Hx as [->|[x' ->]]; [done|].
    injection E as <- _. done.
  - destruct Hb as [|d b Hd Hb].
    + destruct Hy as [->|[y' ->]]; [done|]. injection E as -> _. done.
    + injection E as -> E. destruct (IH b Hb Hx Hy E) as [-> ->]. done.
Qed.

Lemma rest_head ls dot : rest ls dot = [] \/ exists x, rest ls dot = 46 :: x.
Proof.
  destruct ls; simpl; [destruct dot; [right; by eexists|by left]|right].
  unfold rest. simpl. by eexists.
Qed.

Lemma rest_cons l ls dot : rest (l :: ls) dot = 46 :: l ++ rest ls dot.
Proof. unfold rest. simpl. by rewrite <- app_assoc. Qed.

Lemma low_no_dot l : good_label l -> Forall (fun c => c <> 46) (map tolower l).
Proof.
  intros [_ Hl]. apply Forall_map. eapply Forall_impl; [exact Hl|]. simpl.
  intros c (Hc&H1&_) E. apply H1. by apply (tolower_keeps c 46); [|left|].
Qed.

Lemma low_rest_head ls dot : map tolower (rest ls dot) = [] \/
  exists x, map tolower (rest ls dot) = 46 :: x.
Proof. destruct (rest_head ls dot) as [->|[x ->]]; [by left|right; by eexists]. Qed.

Lemma name_same_inv l ls dot l' ls' dot' : good_label l -> good_label l' ->
  same_label (l ++ rest ls dot) (l' ++ rest ls' dot') ->
  same_label l l' /\ same_label (rest ls dot) (rest ls' dot').
Proof.
  unfold same_label. intros Hl Hl' E. rewrite !map_app in E.
  apply cut_at_dot in E; auto using low_no_dot, low_rest_head.
Qed.

Lemma rest_same_inv ls dot ls' dot' : Forall good_label ls -> Forall good_label ls' ->
  same_label (rest ls dot) (rest ls' dot') -> Forall2 same_label ls ls'.
Proof.
  intros Hg. revert ls'. induction Hg as [|l ls Hl Hg IH]; intros ls' Hg' E.
  - destruct Hg' as [|l' ls' [Hl' _] Hg']; [done|]. exfalso.
    apply same_label_length in E. rewrite rest_cons in E. unfold rest in E. simpl in E.
    rewrite length_app in E. destruct dot; simpl in E; lia.
  - destruct Hg' as [|l' ls' Hl' Hg'].
    + exfalso. destruct Hl as [Hl _].
      apply same_label_length in E. rewrite rest_cons in E. unfold rest in E. simpl in E.
      rewrite length_app in E. destruct dot'; simpl in E; lia.
    + rewrite !rest_cons in E. unfold same_label in E. simpl in E. injection E as E.
      apply name_same_inv in E as [E1 E2]; [|done..]. constructor; [done|by apply IH].
Qed.

Lemma root_not_label (dot : bool) l x : good_label l ->
  same_label (if dot then [46] else []) (l ++ x) -> False.
Proof.
  intros [Hl Hf] E. destruct l as [|c l]; [simpl in Hl; lia|]. apply Forall_cons_1 in Hf as [(Hc&Hd&_) _].
  unfold same_label in E. destruct dot; simpl in E; [|done]. injection E as E _.
  apply Hd. apply (tolower_keeps c 46); [done|by left|]. rewrite <- E. by vm_compute.
Qed.

(** The labels of a name are determined by it, up to the case of letters. *)
Lemma name_of_same_inv ls dot ls' dot' : Forall good_label ls -> Forall good_label ls' ->
  same_label (name_of ls dot) (name_of ls' dot') -> Forall2 same_label ls ls'.
Proof.
  intros Hg Hg' E. destruct Hg as [|l ls Hl Hg], Hg' as [|l' ls' Hl' Hg']; simpl in E.
  - done.
  - by apply root_not_label in E.
  - symmetry in E. by apply root_not_label in E.
  - apply name_same_inv in E as [E1 E2]; [|done..]. constructor; [done|].
    by eapply rest_same_inv.
Qed.

(** ** The table of names *)

Definition entry_key (e : Z * elem dname) : Prop :=
  fst e = hash_joaat_str_ci (name (edata (snd e))) /\ bytes (name (edata (snd e))).

Definition tbl_ok (ht : option (hash dname)) (es : list (Z * elem dname)) : Prop :=
  match ht with
  | None => es = []
  | Some h => table_ok h es /\ Forall entry_key es
  end.

(** The names in the table, oldest first. *)
Definition entries (es : list (Z * elem dname)) : list dname := map (fun e => edata (snd e)) es.

Lemma tolower_char a b : is_byte a -> is_byte b -> tolower a = tolower b ->
  u32 (tolower (s8 a)) = u32 (tolower (s8 b)).
Proof.
  intros Ha Hb E. destruct (Z.lt_ge_cases a 128) as [La|La], (Z.lt_ge_cases b 128) as [Lb|Lb].
  - destruct (tolower_ascii a) as (->&_); [unfold is_byte in *; lia|].
    destruct (tolower_ascii b) as (->&_); [unfold is_byte in *; lia|]. by rewrite E.
  - exfalso. unfold is_byte, tolower in *.
    destruct (Z.leb_spec 65 a), (Z.leb_spec a 90), (Z.leb_spec 65 b), (Z.leb_spec b 90); simpl in E; lia.
  - exfalso. unfold is_byte, tolower in *.
    destruct (Z.leb_spec 65 a), (Z.leb_spec a 90), (Z.leb_spec 65 b), (Z.leb_spec b 90); simpl in E; lia.
  - assert (a = b) as ->; [|done]. unfold is_byte, tolower in *.
    destruct (Z.leb_spec 65 a), (Z.leb_spec a 90), (Z.leb_spec 65 b), (Z.leb_spec b 90); simpl in E; lia.
Qed.

Lemma same_hash a b : bytes a -> bytes b -> same_label a b ->
  hash_joaat_str_ci a = hash_joaat_str_ci b.
Proof.
  intros Ha Hb Hs. unfold hash_joaat_str_ci, joaat. f_equal. generalize 0.
  revert b Hb Hs. induction Ha as [|c a Hc Ha IH]; intros b Hb Hs h.
  - by destruct b.
  - destruct Hb as [|d b Hd Hb]; [done|]. injection Hs as E Hs. simpl.
    rewrite (tolower_char c d) by done. by apply IH.
Qed.

Lemma find_map {A C} (f : C -> bool) (g : A -> C) (l : list A) :
  List.find f (map g l) = g <$> List.find (fun x => f (g x)) l.
Proof. induction l as [|x l IH]; simpl; [done|]. by destruct (f (g x)). Qed.

Lemma find_edata (f : dname -> bool) (es : list (Z * elem dname)) :
  match List.find (fun e => f (edata e)) (snd <$> es) with
  | Some e => Some (Some (edata e)) | None => Some None end = Some (List.find f (entries es)).
Proof.
  unfold entries. induction es as [|[k e] es IH]; [done|]. simpl.
  destruct (f (edata e)); [done|]. exact IH.
Qed.

Lemma dname_lookup_ok ht es nm : tbl_ok ht es -> bytes nm ->
  dname_lookup ht nm = Some (List.find (fun d => same_name (name d) nm) (entries es)).
Proof.
  destruct ht as [h|]; simpl; [|by intros ->]. intros [Hh Hk] Hb.
  rewrite (hash_lookup_ok h es); [|done|].
  - apply (find_edata (fun d => same_name (name d) nm)).
  - intros e He Hs%same_name_spec. rewrite Forall_forall in Hk.
    destruct (Hk e He) as [-> Hn]. by apply same_hash.
Qed.

Lemma dname_append_ok alloc ht es nm pos : tbl_ok ht es -> bytes nm ->
  exists ht' es', dname_append alloc ht nm pos = Some ht' /\ tbl_ok ht' es' /\
    (es' = es \/ entries es' = entries es ++ [mk_dname nm pos] /\ pos <= OFFSET_MASK /\ nm <> []).
Proof.
  destruct ht as [h|]; simpl; [|intros ->; exists None, []; simpl; auto]. intros [Hh Hk] Hb.
  destruct (Z.ltb_spec OFFSET_MASK pos); simpl; [exists (Some h), es; simpl; auto|].
  case_bool_decide; [exists (Some h), es; simpl; auto|].
  destruct (alloc nm pos) as [p|]; [|exists (Some h), es; simpl; auto].
  destruct (hash_append_ok h es (hash_joaat_str_ci nm) p (mk_dname nm pos) Hh) as (h'&->&_&Hh').
  simpl. exists (Some h'), (es ++ [(hash_joaat_str_ci nm, mk_elem p (mk_dname nm pos))]).
  split; [done|]. split.
  - split; [done|]. apply Forall_app. split; [done|]. constructor; [by split|constructor].
  - right. unfold entries. rewrite map_app. split; [done|]. split; [lia|done].
Qed.

(** ** What an encoded name says, whatever follows it

    [hole] is a set of positions whose bytes are still to be changed: the place of a
    length that is filled in later.  What is firm does not depend on them. *)

Definition no_hole (i : Z) : Prop := False.

Section Firm.
Context (hole : Z -> Prop).

Definition like (t t' : list Z) : Prop := length t' = length t /\
  forall i : nat, ~ hole (Z.of_nat i) -> t' !! i = t !! i.
Definition clear_of (p n : Z) : Prop := forall i, p <= i < p + n -> ~ hole i.
Definition hole_below (n : Z) : Prop := forall i, hole i -> i < n.

Definition firm (t : list Z) (start p : Z) (ls : list (list Z)) (h q : Z) : Prop :=
  forall t' x, like t t' -> walk (t' ++ x) start p ls h q /\ zero_at (t' ++ x) q.
Definition firm_end (t : list Z) (start p e : Z) : Prop :=
  forall t' x, like t t' -> ends (t' ++ x) start p e.

Lemma like_app t y t'' : like (t ++ y) t'' ->
  exists t' y', t'' = t' ++ y' /\ like t t' /\ length y' = length y.
Proof.
  intros [Hl Hi]. rewrite length_app in Hl. exists (take (length t) t''), (drop (length t) t'').
  split; [by rewrite take_drop|]. split; [|rewrite length_drop; lia].
  split; [rewrite length_take; lia|]. intros i Hh. specialize (Hi i Hh).
  destruct (decide (i < length t)%nat).
  - by rewrite lookup_take_lt, Hi, lookup_app_l by done.
  - rewrite lookup_take_ge by lia. symmetry. apply lookup_ge_None_2. lia.
Qed.

Lemma lookup_more (t x : list Z) (i : nat) (c : Z) : t !! i = Some c -> (t ++ x) !! i = Some c.
Proof. intros E. rewrite lookup_app_l; [done|]. by eapply lookup_lt_Some. Qed.

Lemma firm_more t x start p ls h q : firm t start p ls h q -> firm (t ++ x) start p ls h q.
Proof.
  intros Hf t'' y (t'&x'&->&Hl&_)%like_app. rewrite <- app_assoc. by apply Hf.
Qed.

Lemma zero_like t t' x p : like t t' -> ~ hole p -> zero_at t p -> zero_at (t' ++ x) p.
Proof.
  intros [_ Hl] Hh [Hp E]. split; [done|]. apply lookup_more. rewrite Hl; [done|]. by rewrite Z2Nat.id.
Qed.

Lemma label_more t x p l : label_at t p l -> label_at (t ++ x) p l.
Proof.
  intros (Hp&E&Hl&Ht). split_and!; try lia; [by apply lookup_more|].
  rewrite skipn_app, take_app_le; [done|].
  apply (f_equal length) in Ht. rewrite length_take in Ht. lia.
Qed.

Lemma label_like t t' x p l : like t t' -> clear_of p (1 + Z.of_nat (length l)) ->
  label_at t p l -> label_at (t' ++ x) p l.
Proof.
  intros [_ Hi] Hc (Hp&E&Hl&Ht). apply label_more. split_and!; try lia.
  - rewrite Hi; [done|]. apply Hc. lia.
  - rewrite <- Ht at 2. apply list_eq. intros i.
    destruct (decide (i < length l)%nat).
    + rewrite !lookup_take_lt, !lookup_drop by done. apply Hi, Hc. lia.
    + by rewrite !lookup_take_ge by lia.
Qed.

Lemma pointer_more t t' x start p b0 b1 : like t t' -> clear_of p 2 -> 0 <= p -> 192 <= b0 ->
  t !! Z.to_nat p = Some b0 -> t !! Z.to_nat (p + 1) = Some b1 ->
  pointer_at (t' ++ x) start p ((256 * b0 + b1) mod 16384 + start) (p + 2).
Proof.
  intros [_ Hi] Hc Hp Hb H0 H1. split; [done|]. exists b0.
  rewrite <- (Hi (Z.to_nat p)) in H0 by (apply Hc; lia).
  rewrite <- (Hi (Z.to_nat (p + 1))) in H1 by (apply Hc; lia).
  rewrite (lookup_more t' x _ _ H0), (lookup_more t' x _ _ H1). done.
Qed.

Lemma below_clear p n : hole_below p -> clear_of p n.
Proof. intros Hb i Hi Hh%Hb. lia. Qed.

Lemma below_more p p' : p <= p' -> hole_below p -> hole_below p'.
Proof. intros Hp Hb i Hh%Hb. lia. Qed.

Lemma firm_zero t start p : zero_at t p -> ~ hole p ->
  firm t start p [] 0 p /\ firm_end t start p (p + 1).
Proof.
  intros Hz Hh. split; intros t' x Hl; [split; [constructor|]|constructor]; by eapply zero_like.
Qed.

Lemma firm_label t start p l ls h q : label_at t p l -> clear_of p (1 + Z.of_nat (length l)) ->
  firm t start (p + 1 + Z.of_nat (length l)) ls h q -> firm t start p (l :: ls) h q.
Proof.
  intros Hl Hc Hf t' x Ht. destruct (Hf t' x Ht). split; [|done].
  eapply Walk_label; [by eapply label_like|done].
Qed.

Lemma firm_end_label t start p l e : label_at t p l -> clear_of p (1 + Z.of_nat (length l)) ->
  firm_end t start (p + 1 + Z.of_nat (length l)) e -> firm_end t start p e.
Proof.
  intros Hl Hc Hf t' x Ht. eapply Ends_label; [by eapply label_like|by apply Hf].
Qed.

(** The pointer the encoder writes for the position [d]. *)
Definition pointer_bytes (d : Z) : list Z := be_bytes 2 (u16 (Z.lor d (Z.shiftl COMP_MASK 8))).

Lemma pointer_bytes_eq d : 0 <= d <= OFFSET_MASK -> pointer_bytes d = [192 + d / 256; d mod 256].
Proof.
  intros Hd. unfold OFFSET_MASK in Hd. unfold pointer_bytes.
  assert (Z.lor d (Z.shiftl COMP_MASK 8) = d + 192 * 256) as ->.
  { change (Z.shiftl COMP_MASK 8) with (Z.shiftl 3 14). rewrite lor_high; [done..|]. change (2 ^ 14) with 16384. lia. }
  rewrite u16_small by lia. unfold be_bytes. simpl. unfold u8.
  rewrite Z.div_add, Z_mod_plus_full by lia.
  rewrite (Z.mod_small (d / 256 + 192)); [by rewrite Z.add_comm|].
  split; [apply Z.add_nonneg_nonneg; [apply Z.div_pos|]; lia|].
  assert (d / 256 < 64) by (apply Z.div_lt_upper_bound; lia). lia.
Qed.

Lemma firm_pointer t start p d ls h q : 0 <= p -> clear_of p 2 -> 0 <= d <= OFFSET_MASK ->
  take 2 (drop (Z.to_nat p) t) = pointer_bytes d ->
  firm t start (d + start) ls h q ->
  firm t start p ls (h + 1) q /\ firm_end t start p (p + 2).
Proof.
  intros Hp Hc Hd Hb Hf. rewrite pointer_bytes_eq in Hb by done. unfold OFFSET_MASK in Hd.
  destruct (drop (Z.to_nat p) t) as [|b0 [|b1 r]] eqn:E; simpl in Hb; [done|done|].
  injection Hb as -> ->.
  assert (t !! Z.to_nat p = Some (192 + d / 256)) as H0.
  { rewrite <- (Nat.add_0_r (Z.to_nat p)), <- lookup_drop, E. done. }
  assert (t !! Z.to_nat (p + 1) = Some (d mod 256)) as H1.
  { replace (Z.to_nat (p + 1)) with (Z.to_nat p + 1)%nat by lia. by rewrite <- lookup_drop, E. }
  assert (forall t' x, like t t' -> pointer_at (t' ++ x) start p (d + start) (p + 2)) as Hpt.
  { intros t' x Hl. pose proof (Z.div_mod d 256). pose proof (Z.div_pos d 256).
    replace (d + start) with ((256 * (192 + d / 256) + d mod 256) mod 16384 + start).
    - apply (pointer_more t); [done|done|done|lia|done|done].
    - f_equal. replace (256 * (192 + d / 256) + d mod 256) with (d + 3 * 16384) by lia.
      rewrite Z_mod_plus_full. by apply Z.mod_small; lia. }
  split; intros t' x Hl.
  - destruct (Hf t' x Hl). split; [|done]. eapply Walk_pointer; [by apply Hpt|done].
  - eapply Ends_pointer. by apply Hpt.
Qed.

End Firm.

(** ** Encoding writes what the name says *)

Section EncodeProofs.
Context {B : Type} `{BL : BufferLaws B} (alloc : list Z -> Z -> option Z) (hole : Z -> Prop).

(** An entry of the table: from its position the text says its name, up to case. *)
Definition valid (t : list Z) (start : Z) (d : dname) : Prop :=
  name d <> [] /\ 0 <= dpos d <= OFFSET_MASK /\
  exists ls dot ls' h q, Forall good_label ls /\ name d = name_of ls dot /\
    Forall2 same_label ls ls' /\ Forall good_label ls' /\
    firm hole t start (dpos d + start) ls' h q /\ h <= Z.of_nat (length ls).

Lemma valid_more t x start d : valid t start d -> valid (t ++ x) start d.
Proof.
  intros (Hn&Hp&ls&dot&ls'&h&q&?&?&?&?&Hf&?). split; [done|]. split; [done|].
  exists ls, dot, ls', h, q. split_and!; try done. by apply firm_more.
Qed.

(** The length of labels with their length bytes. *)
Definition wire (ls : list (list Z)) : nat := list_sum (map (fun l => S (length l)) ls).

(** What was written for the labels [ls] after the text [t]. *)
Definition wrote (t w : list Z) (start : Z) (ls : list (list Z)) (hmax : Z) (exact : Prop) : Prop :=
  bytes w /\ (length w <= wire ls + 2)%nat /\
  exists ls' h q, Forall2 same_label ls ls' /\ Forall good_label ls' /\
    firm hole (t ++ w) start (Z.of_nat (length t)) ls' h q /\ h <= hmax /\
    firm_end hole (t ++ w) start (Z.of_nat (length t)) (Z.of_nat (length (t ++ w))) /\
    (exact -> ls' = ls).

Lemma good_bytes l : good_label l -> bytes l.
Proof. intros [_ Hl]. eapply Forall_impl; [exact Hl|]. by intros c []. Qed.

Lemma label_written t l x : good_label l ->
  label_at (t ++ Z.of_nat (length l) :: l ++ x) (Z.of_nat (length t)) l.
Proof.
  intros [Hl _]. split_and!; try lia.
  - by rewrite Nat2Z.id, lookup_app_r, Nat.sub_diag by lia.
  - replace (Z.to_nat (Z.of_nat (length t) + 1)) with (length t + 1)%nat by lia.
    rewrite drop_app_add. simpl. by rewrite drop_0, take_app_length.
Qed.

(** A label in front of something written. *)
Lemma wrote_label t w start l ls hmax exact : good_label l -> hole_below hole (Z.of_nat (length t)) ->
  wrote (t ++ Z.of_nat (length l) :: l) w start ls hmax exact ->
  wrote t (Z.of_nat (length l) :: l ++ w) start (l :: ls) hmax exact.
Proof.
  intros Hl Hb (Hw&Hlw&ls'&h&q&Hs&Hg&Hf&Hh&He&Hx).
  pose proof (label_written t l w Hl) as Hlab.
  replace ((t ++ Z.of_nat (length l) :: l) ++ w) with (t ++ Z.of_nat (length l) :: l ++ w) in *
    by by rewrite <- app_assoc.
  replace (Z.of_nat (length (t ++ Z.of_nat (length l) :: l)))
    with (Z.of_nat (length t) + 1 + Z.of_nat (length l)) in *
    by (rewrite length_app; simpl; lia).
  split; [|split].
  - constructor; [destruct Hl; unfold is_byte; lia|]. apply Forall_app. split; [by apply good_bytes|done].
  - unfold wire in *. simpl. rewrite length_app. lia.
  - exists (l :: ls'), h, q. split_and!; try done.
    + by constructor.
    + by constructor.
    + apply firm_label; [done|by apply below_clear|done].
    + eapply firm_end_label; [done|by apply below_clear|done].
    + intros Hex. by rewrite Hx.
Qed.

Lemma wrote_root t start hmax exact : 0 <= hmax -> hole_below hole (Z.of_nat (length t)) ->
  wrote t [0] start [] hmax exact.
Proof.
  intros Hh Hb. assert (zero_at (t ++ [0]) (Z.of_nat (length t))) as Hz.
  { split; [lia|]. by rewrite Nat2Z.id, lookup_app_r, Nat.sub_diag by lia. }
  destruct (firm_zero hole (t ++ [0]) start _ Hz) as [Hf He]; [by intros ?%Hb; lia|].
  split; [by constructor|]. split; [simpl; lia|].
  exists [], 0, (Z.of_nat (length t)). split_and!; try done.
  replace (Z.of_nat (length (t ++ [0]))) with (Z.of_nat (length t) + 1); [done|].
  rewrite length_app. simpl. lia.
Qed.

(** A pointer to an entry of the table that matches. *)
Lemma wrote_pointer t start d ls dot hmax exact : hole_below hole (Z.of_nat (length t)) -> valid t start d -> Forall good_label ls ->
  same_label (name d) (name_of ls dot) -> Z.of_nat (length ls) + 1 <= hmax -> ~ exact ->
  wrote t (pointer_bytes (dpos d)) start ls hmax exact.
Proof.
  intros Hb (Hn&Hp&ls0&dot0&ls'&h&q&Hg0&En&Hs&Hg'&Hf&Hh) Hg Hsame Hmax Hex.
  rewrite En in Hsame. apply name_of_same_inv in Hsame; [|done..].
  pose proof (Forall2_length _ _ _ Hsame) as Hlen.
  destruct (firm_pointer hole (t ++ pointer_bytes (dpos d)) start (Z.of_nat (length t)) (dpos d) ls' h q)
    as [Hf' He]; [lia|by apply below_clear|done| |by apply firm_more|].
  { rewrite Nat2Z.id, drop_app_length. apply take_ge. unfold pointer_bytes. by rewrite be_bytes_length. }
  split; [apply be_bytes_range|].
  split; [unfold pointer_bytes; rewrite be_bytes_length; lia|].
  exists ls', (h + 1), q. split_and!; try done; try lia.
  - transitivity ls0; [|done]. by symmetry.
  - replace (Z.of_nat (length (t ++ pointer_bytes (dpos d)))) with (Z.of_nat (length t) + 2); [done|].
    rewrite length_app. unfold pointer_bytes. rewrite be_bytes_length. lia.
Qed.

(** *** The loop *)

Definition plain_char (c : Z) : Prop := is_byte c /\ c <> 46 /\ c <> 0.

(** The characters of a label are copied. *)
Lemma encode_chars l : forall (s : est B) t w nm start comp, Forall plain_char l ->
  at_end (mb s) (t ++ 0 :: w) ->
  Z.of_nat (length t) + 1 + Z.of_nat (length w) + Z.of_nat (length l) <= Mem.SIZE_MAX ->
  exists s', mb_ok (mb s') /\ ht s' = ht s /\
    ((at_end (mb s') (t ++ 0 :: w ++ l) /\
      encode_loop alloc s (l ++ nm) start (Z.of_nat (length t)) comp =
      encode_loop alloc s' nm start (Z.of_nat (length t)) comp) \/
     (encode_loop alloc s (l ++ nm) start (Z.of_nat (length t)) comp = Some (ENOMEM, s') /\
      writes_fail (B := B))).
Proof.
  induction l as [|c l IH]; intros s t w nm start comp Hl Hs Hmax.
  - exists s. split; [apply Hs|]. split; [done|]. left. by rewrite app_nil_r.
  - inversion Hl as [|c' l' [Hc [Hd _]] Hl']; subst. simpl length in Hmax.
    cbn [encode_loop app]. destruct (Z.eqb_spec c 46); [done|].
    destruct (write_u8_end (mb s) _ c Hs Hc) as (err&b&->&Hb&Hcase);
      [rewrite length_app; simpl; lia|]. cbn [mbind option_bind].
    destruct Hcase as [(->&Hb')|(->&Hf)]; cbn [Z.eqb].
    + destruct (IH (mk_est b (ht s)) t (w ++ [c]) nm start comp Hl') as (s'&Hs'&Eh&Hcase).
      * simpl. by rewrite <- app_assoc in Hb'.
      * rewrite length_app. simpl. lia.
      * exists s'. rewrite <- app_assoc in Hcase. done.
    + exists (mk_est b (ht s)). split; [done|]. split; [done|]. by right.
Qed.

(** The length of a label is filled in. *)
Lemma close_label (b : B) t l : at_end b (t ++ 0 :: l) -> good_label l ->
  let lablen := u64 (mb_pos b - Z.of_nat (length t) - 1) in
  (lablen =? 0) = false /\
  exists b', mb_set_byte b (Z.of_nat (length t)) (u8 lablen) = Some b' /\
    at_end b' (t ++ Z.of_nat (length l) :: l).
Proof.
  intros (Hb&Ht&Hp) [Hl _]. pose proof (mb_length b Hb) as Hlen. rewrite Ht in Hlen.
  rewrite length_app in *. simpl length in *.
  assert (u64 (mb_pos b - Z.of_nat (length t) - 1) = Z.of_nat (length l)) as ->.
  { rewrite Hp, u64_small; lia. }
  split; [destruct (Z.eqb_spec (Z.of_nat (length l)) 0); [lia|done]|].
  rewrite u8_small by lia.
  destruct (mb_set_byte_ok b (Z.of_nat (length t)) (Z.of_nat (length l)) Hb)
    as (b'&E&Hb'&Ht'&Hp'); [lia|].
  exists b'. split; [done|]. split_and!; [done| |].
  - rewrite Ht', Ht, Nat2Z.id. by rewrite insert_app_r_alt, Nat.sub_diag by lia.
  - rewrite Hp', Hp, length_app. simpl. lia.
Qed.

(** What the encoder may return for the labels [ls] after the text [t]: [old] are the
    entries of the table that are valid before, [pend] those of the name being written. *)
Definition encoded (t : list Z) (start : Z) (ls : list (list Z)) (hmax : Z) (exact : Prop)
    (old pend : list dname) (r : option (Z * est B)) : Prop :=
  exists err s', r = Some (err, s') /\ mb_ok (mb s') /\
    ((err = ENOMEM /\ writes_fail (B := B)) \/
     (err = 0 /\ exists w es' new, at_end (mb s') (t ++ w) /\ tbl_ok (ht s') es' /\
        entries es' = old ++ pend ++ new /\ Forall (valid (t ++ w) start) new /\
        wrote t w start ls hmax exact)).

(** After the last label, with or without a final dot. *)
Lemma encode_end (s : est B) t l dot es old pend start comp hmax exact : good_label l ->
  hole_below hole (Z.of_nat (length t)) ->
  at_end (mb s) (t ++ 0 :: l) -> tbl_ok (ht s) es -> entries es = old ++ pend ->
  Forall (fun d => name d <> []) (old ++ pend) ->
  Z.of_nat (length t) + Z.of_nat (length l) + 3 <= Mem.SIZE_MAX -> 0 <= hmax ->
  encoded t start [l] hmax exact old pend
    (encode_loop alloc s (rest [] dot) start (Z.of_nat (length t)) comp).
Proof.
  intros Hl Hhb Hs Hes He Hne Hmax Hhm. destruct (close_label (mb s) t l Hs Hl) as (Ez&b&Eb&Hb).
  assert (forall (s' : est B), at_end (mb s') (t ++ Z.of_nat (length l) :: l ++ [0]) ->
    tbl_ok (ht s') es -> encoded t start [l] hmax exact old pend (Some (0, s'))) as Hdone.
  { intros s' Hs' Hes'. exists 0, s'. split; [done|]. split; [apply Hs'|]. right. split; [done|].
    exists (Z.of_nat (length l) :: l ++ [0]), es, []. split_and!; try done.
    - by rewrite app_nil_r.
    - apply wrote_label; [done|done|]. apply wrote_root; [done|].
      eapply below_more; [|done]. rewrite length_app. lia. }
  assert (forall (s' : est B), mb_ok (mb s') -> writes_fail (B := B) ->
    encoded t start [l] hmax exact old pend (Some (ENOMEM, s'))) as Hfail.
  { intros s' Hs' Hf. exists ENOMEM, s'. split; [done|]. split; [done|]. by left. }
  destruct (write_u8_end b _ 0 Hb) as (err&b'&Ew&Hb'&Hcase);
    [done|rewrite length_app; simpl; lia|].
  replace ((t ++ Z.of_nat (length l) :: l) ++ [0]) with (t ++ Z.of_nat (length l) :: l ++ [0])
    in Hcase by by rewrite <- app_assoc.
  destruct dot; cbn [rest map concat app encode_loop]; rewrite Ez, Eb; cbn [mbind option_bind].
  - change (46 =? 46) with true. cbv iota.
    rewrite (dname_lookup_ok _ es) by (done || constructor). rewrite He.
    assert (List.find (fun d => same_name (name d) []) (old ++ pend) = None) as ->.
    { clear - Hne. induction Hne as [|d ds Hd _ IH]; [done|]. simpl.
      destruct (same_name (name d) []) eqn:E; [|done].
      apply same_name_spec, same_label_length in E. by destruct (name d). }
    cbn [mbind option_bind].
    destruct (dname_append_ok alloc (ht s) es [] (u64 (mb_pos b - start)) Hes)
      as (ht'&es'&->&Hes'&Hor); [constructor|]. cbn [mbind option_bind].
    rewrite Ew. cbn [mbind option_bind].
    destruct Hcase as [(->&Hb2)|(->&Hf)]; cbn [Z.eqb].
    + cbn [encode_loop mb]. destruct Hb as (_&_&Hpb), Hb2 as (Hb2&Ht2&Hp2).
      rewrite Hpb, Hp2, !length_app. simpl length.
      rewrite !length_app. simpl length. rewrite u64_small by lia.
      destruct (Z.eqb_spec (Z.of_nat (length t + S (length l + 1)) -
        Z.of_nat (length t + S (length l)) - 1) 0); [|lia].
      apply Hdone; [done|]. destruct Hor as [->|(_&_&?)]; done.
    + by apply Hfail.
  - rewrite Ew. unfold with_ht. cbn [mbind option_bind].
    destruct Hcase as [(->&Hb2)|(->&Hf)]; [by apply Hdone|by apply Hfail].
Qed.

Lemma wrote_weaken t w start ls h1 h2 exact : h1 <= h2 ->
  wrote t w start ls h1 exact -> wrote t w start ls h2 exact.
Proof.
  intros Hh (Hw&Hlw&ls'&h&q&?&?&?&?&?&?). split; [done|]. split; [done|]. exists ls', h, q. split_and!; try done. lia.
Qed.

(** A label in front of what the rest of the loop does; [extra] is the entry made for
    the rest of the name. *)
Lemma encoded_label t start l ls h1 h2 exact old pend extra r : good_label l ->
  hole_below hole (Z.of_nat (length t)) -> h1 <= h2 ->
  (forall w, wrote (t ++ Z.of_nat (length l) :: l) w start ls h1 exact ->
     Forall (valid ((t ++ Z.of_nat (length l) :: l) ++ w) start) extra) ->
  encoded (t ++ Z.of_nat (length l) :: l) start ls h1 exact old (pend ++ extra) r ->
  encoded t start (l :: ls) h2 exact old pend r.
Proof.
  intros Hl Hb Hh Hx (err&s'&->&Hs'&Hcase). exists err, s'. split; [done|]. split; [done|].
  destruct Hcase as [?|(->&w&es'&new&Hend&Hes'&He&Hnew&Hw)]; [by left|right].
  split; [done|]. exists (Z.of_nat (length l) :: l ++ w), es', (extra ++ new).
  replace (t ++ Z.of_nat (length l) :: l ++ w) with ((t ++ Z.of_nat (length l) :: l) ++ w)
    by by rewrite <- app_assoc.
  split_and!; try done.
  - rewrite He. by rewrite <- !app_assoc.
  - apply Forall_app. auto.
  - apply wrote_label; [done|done|]. by eapply wrote_weaken.
Qed.

(** The entry for a name is valid once the name is written. *)
Lemma entry_valid t w start ls dot exact pos : Forall good_label ls -> name_of ls dot <> [] ->
  0 <= pos <= OFFSET_MASK -> pos + start = Z.of_nat (length t) ->
  wrote t w start ls (Z.of_nat (length ls)) exact ->
  valid (t ++ w) start (mk_dname (name_of ls dot) pos).
Proof.
  intros Hg Hn Hp Hpos (_&_&ls'&h&q&Hs&Hg'&Hf&Hh&_). split; [done|]. split; [done|].
  exists ls, dot, ls', h, q. simpl. rewrite Hpos. by split_and!.
Qed.

(** A name that is found was there before the longer ones being written. *)
Lemma find_old nm old pend d : (forall d, d ∈ pend -> (length nm < length (name d))%nat) ->
  List.find (fun d => same_name (name d) nm) (old ++ pend) = Some d ->
  d ∈ old /\ same_label (name d) nm.
Proof.
  intros Hp [Hin Hs]%find_some. apply list_elem_of_In in Hin. apply same_name_spec in Hs.
  split; [|done]. apply elem_of_app in Hin as [?|Hin]; [done|].
  apply Hp in Hin. apply same_label_length in Hs. lia.
Qed.

Lemma name_length_rest l ls dot : good_label l ->
  (length (rest ls dot) < length (l ++ rest ls dot))%nat.
Proof. intros [Hl _]. rewrite length_app. lia. Qed.

Lemma name_bytes ls dot : Forall good_label ls -> bytes (name_of ls dot).
Proof.
  intros Hg. assert (bytes (rest ls dot)) as Hr.
  { clear -Hg. unfold rest. apply Forall_app. split; [|destruct dot; by repeat constructor].
    induction Hg as [|l ls Hl Hg IH]; [constructor|]. simpl. constructor; [done|].
    apply Forall_app. split; [by apply good_bytes|done]. }
  destruct Hg as [|l ls Hl Hg]; [by destruct dot; repeat constructor|].
  simpl. apply Forall_app. split; [by apply good_bytes|].
  rewrite rest_cons in Hr. by apply Forall_cons_1 in Hr as [_ [_ ?]%Forall_app].
Qed.

(** The characters of the first label, whatever follows. *)
Lemma encode_label_chars (s : est B) t l nm start comp ls hmax exact old pend : good_label l ->
  at_end (mb s) (t ++ [0]) -> Z.of_nat (length t) + 1 + Z.of_nat (length l) <= Mem.SIZE_MAX ->
  (forall s1, at_end (mb s1) (t ++ 0 :: l) -> ht s1 = ht s ->
     encoded t start ls hmax exact old pend
       (encode_loop alloc s1 nm start (Z.of_nat (length t)) comp)) ->
  encoded t start ls hmax exact old pend
    (encode_loop alloc s (l ++ nm) start (Z.of_nat (length t)) comp).
Proof.
  intros [_ Hl] Hs Hmax Hnext.
  destruct (encode_chars l s t [] nm start comp Hl Hs)
    as (s1&Hs1&Eh&[[Hend ->]|[-> Hf]]); [simpl; lia|by apply Hnext|].
  exists ENOMEM, s1. split; [done|]. split; [done|]. by left.
Qed.

(** A match in the table: a pointer to it. *)
Lemma encode_found (b : B) h t es start d ls dot hmax exact old pend : at_end b t ->
  hole_below hole (Z.of_nat (length t)) ->
  tbl_ok h es -> entries es = old ++ pend -> valid t start d -> Forall good_label ls ->
  same_label (name d) (name_of ls dot) -> Z.of_nat (length ls) + 1 <= hmax -> ~ exact ->
  Z.of_nat (length t) + 2 <= Mem.SIZE_MAX ->
  encoded t start ls hmax exact old pend (with_ht h (dname_encode_pointer b (dpos d))).
Proof.
  intros Hb Hhb Hes He Hv Hg Hs Hh Hx Hmax.
  destruct (write_u16_end b t (u16 (Z.lor (dpos d) (Z.shiftl COMP_MASK 8))) Hb Hmax)
    as (err&b'&Ew&Hb'&Hcase).
  unfold dname_encode_pointer. rewrite Ew. cbn [with_ht mbind option_bind].
  eexists _, _. split; [done|]. split; [done|].
  destruct Hcase as [(->&Hb2)|(->&Hf)]; [right|by left]. split; [done|].
  exists (pointer_bytes (dpos d)), es, []. split_and!; try done.
  - by rewrite app_nil_r.
  - by apply (wrote_pointer _ _ _ _ dot).
Qed.

(** No match: the table may have got the entry [extra] for the rest, and the rest is
    written as [Hrest] says. *)
Lemma encode_unfound (b : B) h t l es start nm ls comp exact old pend extra : at_end b t ->
  tbl_ok h es -> entries es = old ++ pend ++ extra ->
  Z.of_nat (length t) + 1 <= Mem.SIZE_MAX ->
  good_label l ->
  (forall w, wrote t w start ls (Z.of_nat (length ls)) exact -> Forall (valid (t ++ w) start) extra) ->
  (forall s : est B, at_end (mb s) (t ++ [0]) -> ht s = h ->
     encoded t start ls (Z.of_nat (length ls)) exact old (pend ++ extra)
       (encode_loop alloc s nm start (Z.of_nat (length t)) comp)) ->
  forall t0, t = t0 ++ Z.of_nat (length l) :: l -> hole_below hole (Z.of_nat (length t0)) ->
  encoded t0 start (l :: ls) (Z.of_nat (length (l :: ls))) exact old pend
    ('(err, b0) ← mbuf_write_u8 b 0;
     if err =? 0 then encode_loop alloc (mk_est b0 h) nm start (mb_pos b) comp
     else Some (err, mk_est b0 h)).
Proof.
  intros Hb Hes He Hmax Hl Hv Hrest t0 -> Hhb.
  destruct (write_u8_end b _ 0 Hb) as (err&b'&->&Hb'&Hcase); [done|done|].
  cbn [mbind option_bind]. destruct Hcase as [(->&Hb2)|(->&Hf)]; cbn [Z.eqb].
  - destruct Hb as (_&_&->).
    apply (encoded_label _ _ _ _ (Z.of_nat (length ls)) _ _ _ _ extra); [done|done|simpl; lia|done|].
    by apply (Hrest (mk_est b' h)).
  - exists ENOMEM, (mk_est b' h). split; [done|]. split; [done|]. by left.
Qed.

Lemma encode_labels ls : forall l dot (s : est B) t es old pend start comp,
  Forall good_label (l :: ls) -> hole_below hole (Z.of_nat (length t)) -> at_end (mb s) (t ++ [0]) ->
  tbl_ok (ht s) es -> entries es = old ++ pend -> Forall (valid t start) old ->
  (forall d, d ∈ pend -> (length (l ++ rest ls dot) <= length (name d))%nat) ->
  0 <= start <= Z.of_nat (length t) ->
  Z.of_nat (length t) + Z.of_nat (length (l ++ rest ls dot)) + 3 <= Mem.SIZE_MAX ->
  encoded t start (l :: ls) (Z.of_nat (length (l :: ls))) (comp = false \/ old = []) old pend
    (encode_loop alloc s (l ++ rest ls dot) start (Z.of_nat (length t)) comp).
Proof.
  induction ls as [|m ls IH]; intros l dot s t es old pend start comp Hg Hhb Hs Hes He Hold Hpend Hst Hmax;
    apply Forall_cons_1 in Hg as [Hl Hg]; rewrite length_app in Hmax;
    (apply encode_label_chars; [done|done|lia|]); intros s1 Hend Eh; rewrite <- Eh in Hes.
  - apply (encode_end s1 t l dot es); try done; try lia.
    rewrite Forall_forall. intros d Hd E. apply elem_of_app in Hd as [Hd|Hd].
    + rewrite Forall_forall in Hold. destruct (Hold d Hd). done.
    + apply Hpend in Hd. rewrite E, length_app in Hd. destruct Hl. simpl in Hd. lia.
  - destruct (close_label (mb s1) t l Hend Hl) as (Ez&b&Eb&Hb).
    rewrite rest_cons in *. set (nm := m ++ rest ls dot) in *. simpl length in Hmax.
    assert (bytes nm) as Hbn by (apply (name_bytes (m :: ls) dot Hg)).
    cbn [encode_loop]. rewrite Ez, Eb. change (46 =? 46) with true. cbv iota.
    cbn [mbind option_bind]. rewrite (dname_lookup_ok _ es) by done. cbn [mbind option_bind].
    rewrite He. set (t1 := t ++ Z.of_nat (length l) :: l) in *.
    assert (Z.of_nat (length t1) = Z.of_nat (length t) + 1 + Z.of_nat (length l)) as Ht1
      by (unfold t1; rewrite length_app; simpl; lia).
    assert (hole_below hole (Z.of_nat (length t1))) as Hhb1 by (eapply below_more; [|done]; lia).
    assert (forall d, d ∈ pend -> (length nm < length (name d))%nat) as Hlong.
    { intros d Hd. apply Hpend in Hd. rewrite length_app in Hd. simpl in Hd. lia. }
    assert (Forall (valid t1 start) old) as Hold1.
    { eapply Forall_impl; [exact Hold|]. intros d. apply valid_more. }
    assert (forall h extra es', tbl_ok h es' -> entries es' = old ++ pend ++ extra ->
      (forall d, d ∈ extra -> (length nm <= length (name d))%nat) ->
      (forall w, wrote t1 w start (m :: ls) (Z.of_nat (length (m :: ls))) (comp = false \/ old = []) ->
        Forall (valid (t1 ++ w) start) extra) ->
      encoded t start (l :: m :: ls) (Z.of_nat (length (l :: m :: ls))) (comp = false \/ old = [])
        old pend
        ('(err, b0) ← mbuf_write_u8 b 0;
         if err =? 0 then encode_loop alloc (mk_est b0 h) nm start (mb_pos b) comp
         else Some (err, mk_est b0 h))) as Hgo.
    { intros h extra es' Hh He' Hp' Hv.
      apply (encode_unfound b h t1 l es' start nm (m :: ls) comp _ old pend extra); try done;
        [lia|]. intros s2 Hs2 <-.
      apply (IH m dot s2 t1 es'); try done; [|lia|fold nm; lia].
      intros d [Hd|Hd]%elem_of_app; [|by apply Hp']. apply Hlong in Hd. fold nm. lia. }
    destruct (List.find _ (old ++ pend)) as [d|] eqn:Ef.
    + destruct comp.
      * destruct (find_old nm old pend d Hlong Ef) as [Hd Hsame].
        rewrite Forall_forall in Hold1.
        apply (encoded_label _ _ _ _ (Z.of_nat (length (l :: m :: ls))) _ _ _ _ []);
          [done|done|lia|by constructor|]. rewrite app_nil_r.
        apply (encode_found _ _ _ es _ _ _ dot); auto; [simpl; lia| |fold t1; lia].
        intros [?| ->]; [done|]. by apply not_elem_of_nil in Hd.
      * apply (Hgo (ht s1) [] es); try done; [by rewrite app_nil_r|].
        intros d' Hd'. by apply not_elem_of_nil in Hd'.
    + destruct (dname_append_ok alloc (ht s1) es nm (u64 (mb_pos b - start)) Hes Hbn)
        as (h&es'&->&Hes'&Hor). cbn [mbind option_bind].
      destruct Hor as [->|(He'&Hpos&Hne)].
      * apply (Hgo h [] es); try done; [by rewrite app_nil_r|].
        intros d' Hd'. by apply not_elem_of_nil in Hd'.
      * apply (Hgo h [mk_dname nm (u64 (mb_pos b - start))] es'); try done.
        -- rewrite He', He. by rewrite <- app_assoc.
        -- intros d' Hd'. apply list_elem_of_singleton in Hd' as ->. done.
        -- intros w Hw. apply Forall_singleton.
           destruct Hb as (_&_&Hpb). rewrite Hpb in *.
           rewrite u64_small in * by (unfold Mem.SIZE_MAX in *; lia).
           apply (entry_valid t1 w start (m :: ls) dot (comp = false \/ old = []) (Z.of_nat (length t1) - start) Hg Hne);
             [lia|lia|exact Hw].
Qed.

(** The whole name: the table entries of [es] are valid before and after. *)
Lemma dname_encode_ok (s : est B) t es start comp ls dot : Forall good_label ls ->
  hole_below hole (Z.of_nat (length t)) ->
  at_end (mb s) t -> tbl_ok (ht s) es -> Forall (valid t start) (entries es) ->
  0 <= start <= Z.of_nat (length t) ->
  Z.of_nat (length t) + Z.of_nat (length (name_of ls dot)) + 3 <= Mem.SIZE_MAX ->
  encoded t start ls (Z.of_nat (length ls) + 1) (comp = false \/ entries es = []) (entries es) []
    (dns_dname_encode alloc s (Some (name_of ls dot)) start comp).
Proof.
  intros Hg Hhb Hs Hes Hv Hst Hmax. cbn [dns_dname_encode].
  set (nm := name_of ls dot) in *.
  assert (bytes nm) as Hbn by by apply name_bytes.
  rewrite (dname_lookup_ok _ es) by done. cbn [mbind option_bind].
  assert (forall h extra es', tbl_ok h es' -> entries es' = entries es ++ extra ->
    (extra = [] \/ exists pos, extra = [mk_dname nm pos] /\ nm <> [] /\ 0 <= pos <= OFFSET_MASK /\
       pos + start = Z.of_nat (length t)) ->
    encoded t start ls (Z.of_nat (length ls) + 1) (comp = false \/ entries es = []) (entries es) []
      ('(err, b) ← mbuf_write_u8 (mb s) 0;
       if bool_decide (nm = [46]) then Some (err, mk_est b h)
       else if err =? 0 then encode_loop alloc (mk_est b h) nm start (mb_pos (mb s)) comp
       else Some (err, mk_est b h))) as Hgo.
  { intros h extra es' Hh He' Hextra.
    destruct (write_u8_end (mb s) t 0 Hs) as (err&b&->&Hb&Hcase); [done|lia|].
    cbn [mbind option_bind].
    destruct Hcase as [(->&Hb2)|(->&Hf)]; cbn [Z.eqb];
      [|case_bool_decide; (eexists _, _; split; [done|]; split; [done|]; by left)].
    assert (forall w exact, wrote t w start ls (Z.of_nat (length ls)) exact ->
      Forall (valid (t ++ w) start) extra) as Hev.
    { intros w exact Hw. destruct Hextra as [->|(pos&->&Hn&Hp&Hpos)]; [constructor|].
      apply Forall_singleton. by apply (entry_valid _ _ _ ls dot exact). }
    destruct Hs as (_&_&Hpos). rewrite Hpos. destruct Hg as [|l ls Hl Hg].
    - assert (forall s' : est B, mb s' = b -> ht s' = h ->
        encoded t start [] 1 (comp = false \/ entries es = []) (entries es) [] (Some (0, s'))) as Hdone.
      { intros s' E1 E2. eexists _, _. split; [done|]. rewrite E1, E2. split; [done|]. right.
        split; [done|]. exists [0], es', extra. split_and!; try done; [|by apply wrote_root].
        eapply Hev. by apply (wrote_root t start 0 False). }
      simpl in nm. destruct dot; subst nm; [by apply Hdone|].
      rewrite bool_decide_eq_false_2 by done. cbn [encode_loop mb].
      destruct Hb2 as (_&_&Hp2). rewrite Hp2, length_app. simpl length.
      rewrite u64_small by lia.
      destruct (Z.eqb_spec (Z.of_nat (length t + 1) - Z.of_nat (length t) - 1) 0); [|lia].
      by apply Hdone.
    - rewrite bool_decide_eq_false_2.
      2:{ intros E. apply (root_not_label true l (rest ls dot) Hl). unfold nm in E. simpl in E.
          by rewrite E. }
      destruct (encode_labels ls l dot (mk_est b h) t es' (entries es) extra start comp)
        as (err&s'&E&Hs'&Hcase); try done; [by constructor| |].
      { intros d Hd. destruct Hextra as [->|(pos&->&_)]; [by apply not_elem_of_nil in Hd|].
        by apply list_elem_of_singleton in Hd as ->. }
      exists err, s'. split; [exact E|]. split; [done|].
      destruct Hcase as [?|(->&w&es2&new&Hend&Hes2&He2&Hnew&Hw)]; [by left|right]. split; [done|].
      exists w, es2, (extra ++ new). split_and!; try done.
      + apply Forall_app. split; [|done]. by eapply Hev.
      + eapply wrote_weaken; [|done]. lia. }
  destruct (List.find _ (entries es)) as [d|] eqn:Ef.
  - pose proof Ef as [Hd Hsame%same_name_spec]%find_some. apply list_elem_of_In in Hd.
    destruct comp.
    + rewrite Forall_forall in Hv.
      apply (encode_found _ _ _ es _ _ _ dot); auto; [by rewrite app_nil_r|lia| |lia].
      intros [?|E]; [done|]. rewrite E in Hd. by apply not_elem_of_nil in Hd.
    + apply (Hgo (ht s) [] es); [done|by rewrite app_nil_r|by left].
  - destruct (dname_append_ok alloc (ht s) es nm (u64 (mb_pos (mb s) - start)) Hes Hbn)
      as (h&es'&->&Hes'&Hor). cbn [mbind option_bind].
    destruct Hor as [->|(He'&Hpos&Hne)]; [apply (Hgo h [] es); [done|by rewrite app_nil_r|by left]|].
    apply (Hgo h _ es' Hes' He'). right. destruct Hs as (_&_&Hps). rewrite Hps in *.
    rewrite u64_small in * by (unfold Mem.SIZE_MAX in *; lia).
    eexists. split; [done|]. split; [done|]. lia.
Qed.

(** What was written is decoded. *)
Lemma wrote_decodes t w start ls hmax exact : wrote t w start ls hmax exact ->
  hmax <= 256 -> Z.of_nat (length (join ls)) <= 255 ->
  0 <= start -> start + 16384 <= Mem.SIZE_MAX ->
  exists n, same_label n (join ls) /\ (exact -> n = join ls) /\
    forall (b : B) tw x, like hole (t ++ w) tw -> mb_ok b -> mb_text b = tw ++ x ->
      bytes (mb_text b) -> mb_pos b = Z.of_nat (length t) ->
      dns_dname_decode true b start = Some (0, Some n, mb_set_pos b (Z.of_nat (length (t ++ w)))).
Proof.
  intros (_&_&ls'&h&q&Hs&Hg'&Hf&Hh&He&Hx) Hmax Hj Hst Hst2.
  pose proof (join_same _ _ Hs) as Hjs.
  assert (cstr (join ls') = join ls') as Hc.
  { apply cstr_no_nul. rewrite <- join_name by done. clear -Hg'.
    assert (Forall (fun c => c <> 0) (rest ls' false)) as Hr.
    { unfold rest. rewrite app_nil_r. induction Hg' as [|l ls Hl Hg IH]; [constructor|].
      simpl. constructor; [done|]. apply Forall_app. split; [|done].
      destruct Hl as [_ Hl]. eapply Forall_impl; [exact Hl|]. by intros c (_&_&?). }
    destruct Hg' as [|l ls Hl Hg]; [constructor|]. rewrite rest_cons in Hr.
    by apply Forall_cons_1 in Hr as [_ ?]. }
  exists (cstr (join ls')). split; [rewrite Hc; by symmetry|].
  split; [intros Hex; by rewrite Hc, Hx|]. intros b tw x Hlike Hb Ht Hbytes Hp.
  destruct (Hf tw x Hlike) as [Hw Hz]. apply dname_decode_says; try done.
  exists h, q. rewrite Ht, Hp. split_and!; [exact Hw|exact Hz|lia| |by apply He].
  by rewrite <- (same_label_length _ _ Hjs).
Qed.

End EncodeProofs.

Section Roundtrip.
Context {B : Type} `{BL : BufferLaws B} (alloc : list Z -> Z -> option Z).

Lemma like_refl hole t : like hole t t.
Proof. by split. Qed.

(** C35: encoding a well-formed name appends bytes from which decoding gives the name
    back, up to the case of letters (exactly, when compression is off or the table is
    empty), whatever follows in the message; the table stays a table of names that
    the message says.  It fails only when memory runs out. *)
Theorem dname_roundtrip (s : est B) t es start comp ls dot : Forall good_label ls ->
  Z.of_nat (length (join ls)) <= 255 ->
  at_end (mb s) t -> bytes t -> tbl_ok (ht s) es -> Forall (valid no_hole t start) (entries es) ->
  0 <= start <= Z.of_nat (length t) -> start + 16384 <= Mem.SIZE_MAX ->
  Z.of_nat (length t) + Z.of_nat (length (name_of ls dot)) + 3 <= Mem.SIZE_MAX ->
  exists err s', dns_dname_encode alloc s (Some (name_of ls dot)) start comp = Some (err, s') /\
    ((err = ENOMEM /\ writes_fail (B := B)) \/
     (err = 0 /\ exists w es', at_end (mb s') (t ++ w) /\ bytes w /\
        tbl_ok (ht s') es' /\ Forall (valid no_hole (t ++ w) start) (entries es') /\
        forall (b : B) x, mb_ok b -> mb_text b = (t ++ w) ++ x -> bytes x ->
          mb_pos b = Z.of_nat (length t) ->
          exists n, dns_dname_decode true b start =
              Some (0, Some n, mb_set_pos b (Z.of_nat (length (t ++ w)))) /\
            same_label n (join ls) /\
            (comp = false \/ entries es = [] -> n = join ls))).
Proof.
  intros Hg Hj Hs Hbt Hes Hv Hst Hst2 Hmax.
  destruct (dname_encode_ok alloc no_hole s t es start comp ls dot Hg ltac:(by intros i) Hs Hes Hv Hst Hmax)
    as (err&s'&E&Hs'&Hcase).
  exists err, s'. split; [done|].
  destruct Hcase as [?|(->&w&es'&new&Hend&Hes'&He&Hnew&Hw)]; [by left|right]. split; [done|].
  exists w, es'. split_and!; [done|by destruct Hw|done| |].
  - rewrite He. apply Forall_app. split; [|done].
    eapply Forall_impl; [exact Hv|]. intros d. apply valid_more.
  - pose proof (join_length ls Hg).
    destruct (wrote_decodes no_hole t w start ls _ _ Hw) as (n&Hn&Hx&Hd); [lia|done|lia|done|].
    intros b x Hb Ht Hbx Hp. exists n. split; [|done]. apply (Hd b (t ++ w) x); try done.
    rewrite Ht. apply Forall_app. split; [|done]. apply Forall_app. split; [done|by destruct Hw].
Qed.

End Roundtrip.

(** *** Witnesses *)

#[local] Existing Instances text_buffer text_laws.

(** The third name of [ex_msg], behind two pointers. *)
Lemma dname_decode_exact_witness :
  exists ls e, says ex_msg 0 10 ls e /\ cstr (join ls) = [120; 46; 97; 98; 46; 99] /\ e = 12.
Proof.
  destruct (dname_decode_exact (10, ex_msg) 0) as [H _];
    [by vm_compute|by apply bytes_check|done|done|].
  destruct (H [120; 46; 97; 98; 46; 99] (12, ex_msg)) as [H1 _].
  destruct H1 as (ls&e&Hs&Hn&Hb); [by vm_compute|].
  exists ls, e. split; [exact Hs|]. split; [by symmetry|]. by injection Hb.
Defined.

(** A name of 255 characters with another label behind it: the array overflows. *)
Definition ex_long : list Z :=
  concat (replicate 4 (63 :: replicate 63 97)) ++ [1; 98; 0].
Example stack_overflow : dns_dname_decode true (0, ex_long) 0 = None.
Proof. vm_compute. reflexivity. Qed.

Lemma labels_check (ls : list (list Z)) :
  forallb (fun l => (0 <? Z.of_nat (length l)) && (Z.of_nat (length l) <? 192) &&
    forallb (fun c => (0 <? c) && (c <? 256) && negb (c =? 46)) l) ls = true ->
  Forall good_label ls.
Proof.
  rewrite forallb_forall. intros H. apply Forall_forall. intros l Hl%list_elem_of_In%H.
  apply andb_true_iff in Hl as [Hlen Hl]. split; [lia|]. rewrite forallb_forall in Hl.
  apply Forall_forall. intros c Hc%list_elem_of_In%Hl. unfold is_byte. lia.
Qed.

Lemma ex_ab_good : Forall good_label [[97; 98]; [99]].
Proof. by apply labels_check. Qed.

Lemma ex_ht_ok : tbl_ok ex_ht [].
Proof.
  destruct (hash_alloc_ok (A := dname) 8 ltac:(lia) 0 ex_ht eq_refl) as [_ H].
  destruct (H eq_refl) as (h&E&Hh&_). unfold ex_ht in *. rewrite E. by split.
Qed.

Definition ex_s0 : est (Z * list Z) := mk_est (3, [1; 2; 3]) ex_ht.
Definition ex_w : list Z := [2; 97; 98; 1; 99; 0].

Lemma dname_roundtrip_witness : exists n b',
  dns_dname_decode true (3, ([1; 2; 3] ++ ex_w) ++ [7]) 0 = Some (0, Some n, b') /\
  n = [97; 98; 46; 99].
Proof.
  destruct (dname_roundtrip ex_alloc ex_s0 [1; 2; 3] [] 0 true [[97; 98]; [99]] false)
    as (err&s'&E&Hcase);
    [exact ex_ab_good|by vm_compute|by vm_compute|by apply bytes_check|exact ex_ht_ok|constructor
    |by vm_compute|by vm_compute|by vm_compute|].
  assert (option_map (fun r => (fst r, snd (mb (snd r)))) (Some (err, s')) = Some (0, [1; 2; 3] ++ ex_w))
    as E2 by (rewrite <- E; vm_compute; reflexivity).
  injection E2 as -> Et. clear E.
  destruct Hcase as [[E _]|[_ (w&es'&(_&Ht&_)&_&_&_&Hd)]]; [discriminate E|].
  cbn [mb_text text_buffer] in Ht. rewrite Et in Ht. injection Ht as Ht. subst w.
  destruct (Hd (3, ([1; 2; 3] ++ ex_w) ++ [7]) [7]) as (n&En&_&Hn);
    [by vm_compute|reflexivity|by apply bytes_check|reflexivity|].
  exists n. eexists. split; [exact En|]. apply Hn. right. reflexivity.
Defined.

End Dname.
