(* ===== verification/DnsHdr.v ===== *)
(** * DNS headers and strings: src/libre/src/dns/hdr.c and cstr.c

    Encoded into any [Buffer] and decoded from it.  A string is an [option]: [None] is
    a null pointer.  The null checks of the other arguments are left out. *)
From S2P Require Import Prelude Mem Pl Mbuf Codec Wire.
Import Pl Codec Wire.

Module DnsHdr.

(** ** Header *)

Section Header.
Context {B : Type} `{Buffer B}.

Record dnshdr := mk_dnshdr { id : Z; qr : bool; opcode : Z; aa : bool; tc : bool; rd : bool;
  ra : bool; z : Z; rcode : Z; nq : Z; nans : Z; nauth : Z; nadd : Z }.

Definition DNS_HEADER_SIZE : Z := 12.
Definition QUERY_RESPONSE : Z := 15.
Definition OPCODE : Z := 11.
Definition AUTH_ANSWER : Z := 10.
Definition TRUNCATED : Z := 9.
Definition RECURSION_DESIRED : Z := 8.
Definition RECURSION_AVAILABLE : Z := 7.
Definition ZERO : Z := 4.

(** [flags |= v << sh] on a [uint16_t]. *)
Definition or_flag (flags v sh : Z) : Z := u16 (Z.lor flags (Z.shiftl v sh)).

Definition hdr_flags (h : dnshdr) : Z :=
  let f := or_flag 0 (Z.b2z (qr h)) QUERY_RESPONSE in
  let f := or_flag f (opcode h) OPCODE in
  let f := or_flag f (Z.b2z (aa h)) AUTH_ANSWER in
  let f := or_flag f (Z.b2z (tc h)) TRUNCATED in
  let f := or_flag f (Z.b2z (rd h)) RECURSION_DESIRED in
  let f := or_flag f (Z.b2z (ra h)) RECURSION_AVAILABLE in
  let f := or_flag f (z h) ZERO in
  or_flag f (rcode h) 0.

Definition dns_hdr_encode (hdr : dnshdr) : B -> option (Z * B) :=
  write_n16 (id hdr) ;| write_n16 (hdr_flags hdr) ;| write_n16 (nq hdr) ;|
  write_n16 (nans hdr) ;| write_n16 (nauth hdr) ;| write_n16 (nadd hdr).

Definition flag_at (flags sh : Z) : bool := negb (Z.land 1 (Z.shiftr flags sh) =? 0).

Definition dns_hdr_decode : Dec B dnshdr :=
  need DNS_HEADER_SIZE EINVAL (
    i ⇐ get_u16;
    flags ⇐ get_u16;
    q ⇐ get_u16; an ⇐ get_u16; au ⇐ get_u16; ad ⇐ get_u16;
    ret (mk_dnshdr i (flag_at flags QUERY_RESPONSE) (Z.land 15 (Z.shiftr flags OPCODE))
      (flag_at flags AUTH_ANSWER) (flag_at flags TRUNCATED) (flag_at flags RECURSION_DESIRED)
      (flag_at flags RECURSION_AVAILABLE) (Z.land 7 (Z.shiftr flags ZERO))
      (Z.land 15 (Z.shiftr flags 0)) q an au ad)).

(** ** Character strings *)

Definition dns_cstr_encode (str : option (list Z)) (b : B) : option (Z * B) :=
  match str with
  | None => Some (EINVAL, b)
  | Some str =>
      let len := u8 (Z.of_nat (length str)) in
      ((fun b => mbuf_write_u8 b len) ;| (fun b => mbuf_write_mem b (take (Z.to_nat len) str))) b
  end.

(** [ok]: whether the string can be allocated, by the position it is read from. *)
Definition dns_cstr_decode (ok : Z -> bool) : Dec B (option (list Z)) :=
  need 1 EINVAL (len ⇐ get_u8; need len EBADMSG (fun b =>
    '(err, str, b) ← mbuf_strdup (ok (mb_pos b)) b len;
    Some (if err =? 0 then inr str else inl err, b))).

End Header.

(** ** Header and strings *)

Definition word16 (v : Z) : Prop := 0 <= v < 65536.
Definition word32 (v : Z) : Prop := 0 <= v < 4294967296.

Definition hdr_ok (h : dnshdr) : Prop :=
  word16 (id h) /\ 0 <= opcode h < 16 /\ 0 <= z h < 8 /\ 0 <= rcode h < 16 /\
  word16 (nq h) /\ word16 (nans h) /\ word16 (nauth h) /\ word16 (nadd h).

(** The flags of a header, taken apart, for all 65536 combinations. *)
Definition flags_back (q : bool) (o : Z) (a t d r : bool) (zz rc : Z) : bool :=
  let f := hdr_flags (mk_dnshdr 0 q o a t d r zz rc 0 0 0 0) in
  (0 <=? f) && (f <? 65536) &&
  Bool.eqb (flag_at f QUERY_RESPONSE) q && (Z.land 15 (Z.shiftr f OPCODE) =? o) &&
  Bool.eqb (flag_at f AUTH_ANSWER) a && Bool.eqb (flag_at f TRUNCATED) t &&
  Bool.eqb (flag_at f RECURSION_DESIRED) d && Bool.eqb (flag_at f RECURSION_AVAILABLE) r &&
  (Z.land 7 (Z.shiftr f ZERO) =? zz) && (Z.land 15 (Z.shiftr f 0) =? rc).

Lemma flags_back_all :
  forallb (fun q => forallb (fun o => forallb (fun a => forallb (fun t => forallb (fun d =>
  forallb (fun r => forallb (fun zz => forallb (fun rc => flags_back q o a t d r zz rc)
    (seqZ 0 16)) (seqZ 0 8)) [true; false]) [true; false]) [true; false]) [true; false])
    (seqZ 0 16)) [true; false] = true.
Proof. vm_compute. reflexivity. Qed.

Lemma flags_back_ok q o a t d r zz rc : 0 <= o < 16 -> 0 <= zz < 8 -> 0 <= rc < 16 ->
  flags_back q o a t d r zz rc = true.
Proof.
  intros Ho Hz Hr.
  assert (forall n k, 0 <= k < n -> List.In k (seqZ 0 n)) as HZ
    by (intros n k Hk; apply list_elem_of_In, elem_of_seqZ; lia).
  assert (forall b : bool, List.In b [true; false]) as HB by (intros []; simpl; auto).
  pose proof flags_back_all as E.
  rewrite forallb_forall in E. specialize (E q (HB q)). cbv beta in E.
  rewrite forallb_forall in E. specialize (E o (HZ _ _ Ho)). cbv beta in E.
  rewrite forallb_forall in E. specialize (E a (HB a)). cbv beta in E.
  rewrite forallb_forall in E. specialize (E t (HB t)). cbv beta in E.
  rewrite forallb_forall in E. specialize (E d (HB d)). cbv beta in E.
  rewrite forallb_forall in E. specialize (E r (HB r)). cbv beta in E.
  rewrite forallb_forall in E. specialize (E zz (HZ _ _ Hz)). cbv beta in E.
  rewrite forallb_forall in E. by specialize (E rc (HZ _ _ Hr)).
Qed.

Section HeaderProofs.
Context {B : Type} `{BL : BufferLaws B}.

Definition hdr_bytes (h : dnshdr) : list Z :=
  be_bytes 2 (id h) ++ be_bytes 2 (hdr_flags h) ++ be_bytes 2 (nq h) ++
  be_bytes 2 (nans h) ++ be_bytes 2 (nauth h) ++ be_bytes 2 (nadd h).

Lemma hdr_reads pre post h : hdr_ok h -> reads (B := B) pre (hdr_bytes h) post dns_hdr_decode h.
Proof.
  intros (Hi&Ho&Hz&Hr&Hq&Hn&Hau&Had).
  pose proof (flags_back_ok (qr h) (opcode h) (aa h) (tc h) (rd h) (ra h) (z h) (rcode h) Ho Hz Hr) as Hf.
  unfold flags_back in Hf. change (hdr_flags _) with (hdr_flags h) in Hf.
  rewrite !andb_true_iff, !eqb_true_iff, !Z.eqb_eq, Z.leb_le, Z.ltb_lt in Hf.
  destruct Hf as (((((((((Hf0&Hf1)&E1)&E2)&E3)&E4)&E5)&E6)&E7)&E8).
  unfold dns_hdr_decode, hdr_bytes. apply reads_need.
  { rewrite !length_app, !be_bytes_length. unfold DNS_HEADER_SIZE. lia. }
  do 5 (eapply reads_bind; [apply reads_u16; first [done | by split]|]).
  eapply reads_map; [by apply reads_u16|]. rewrite E1, E2, E3, E4, E5, E6, E7, E8. by destruct h.
Qed.

Lemma hdr_emits h : emits (B := B) (hdr_bytes h) (dns_hdr_encode h).
Proof. unfold hdr_bytes, dns_hdr_encode. repeat apply emits_also; auto with wire. Qed.

Definition good_string (str : list Z) : Prop :=
  Z.of_nat (length str) <= 255 /\ bytes str /\ Forall (fun c => c <> 0) str.

Definition cstr_bytes (str : list Z) : list Z := Z.of_nat (length str) :: str.

Lemma cstr_emits str : good_string str ->
  emits (B := B) (cstr_bytes str) (dns_cstr_encode (Some str)).
Proof.
  intros (Hl&_&_). unfold dns_cstr_encode. rewrite u8_small by lia. rewrite Nat2Z.id, take_ge by lia.
  change (cstr_bytes str) with ([Z.of_nat (length str)] ++ str).
  apply emits_also; [apply emits_u8; unfold is_byte; lia|by apply emits_mem].
Qed.

Lemma cstr_reads pre post str ok : good_string str -> (forall p, ok p = true) ->
  reads (B := B) pre (cstr_bytes str) post (dns_cstr_decode ok) (Some str).
Proof.
  intros (Hl&Hb&Hn) Hok. unfold dns_cstr_decode.
  change (cstr_bytes str) with ([Z.of_nat (length str)] ++ str).
  apply reads_need; [rewrite !length_app; simpl; lia|].
  eapply reads_bind; [apply reads_u8; lia|]. apply reads_need; [rewrite length_app; lia|].
  intros b x Hok' _ Ht Hp. unfold mbuf_strdup. rewrite Hok.
  rewrite (read_block b _ str (post ++ x) Hok' Ht Hp). cbn [mbind option_bind Z.eqb].
  by rewrite cstr_no_nul.
Qed.

(** A header whose fields fit survives the buffer: it is written as twelve bytes
    and read back from them, whatever follows - or memory runs out, and the encoder
    does not return 0. *)
Theorem dns_hdr_roundtrip h (b : B) t : hdr_ok h -> at_end b t -> Z.of_nat (length t) + 12 <= Mem.SIZE_MAX -> bytes t ->
  failed (B := B) (dns_hdr_encode h b) \/
  exists b', dns_hdr_encode h b = Some (0, b') /\ mb_pos b' = Z.of_nat (length t) + 12 /\
    forall (c : B) x, mb_ok c -> mb_text c = mb_text b' ++ x -> bytes x ->
      mb_pos c = Z.of_nat (length t) ->
      dns_hdr_decode c = Some (inr h, mb_set_pos c (Z.of_nat (length t) + 12)).
Proof.
  intros Hh Hb Hmax Hbt.
  assert (Z.of_nat (length (hdr_bytes h)) = 12) as Hlen
    by (unfold hdr_bytes; rewrite !length_app, !be_bytes_length; lia).
  destruct (hdr_emits h b t Hb) as [(b'&E&_&Ht&Hp)|]; [lia| |by left].
  right. exists b'. split; [done|]. rewrite Hp, length_app. split; [lia|].
  intros c x Hc Hct Hx Hcp. rewrite Ht in Hct.
  pose proof (hdr_reads t [] h Hh c x Hc) as Hr.
  replace (Z.of_nat (length t) + 12) with (Z.of_nat (length (t ++ hdr_bytes h)))
    by (rewrite length_app; lia).
  apply Hr; [|by rewrite Hct, <- app_assoc|done].
  rewrite Hct. apply Forall_app. split; [|done]. apply Forall_app. split; [done|].
  unfold hdr_bytes. repeat (apply Forall_app; split; [apply be_bytes_range|]). apply be_bytes_range.
Qed.

End HeaderProofs.

(** *** Witness: a reply with two answers behind three bytes *)

#[local] Existing Instances text_buffer text_laws.

Definition ex_hdr : dnshdr := mk_dnshdr 4660 true 2 false true true false 5 9 1 2 0 3.
Definition ex_hdr_bytes : list Z := [18; 52; 147; 89; 0; 1; 0; 2; 0; 0; 0; 3].
Example ex_hdr_encode : dns_hdr_encode ex_hdr (3, [7; 7; 7]) = Some (0, (15, [7; 7; 7] ++ ex_hdr_bytes)).
Proof. vm_compute. reflexivity. Qed.

Lemma dns_hdr_roundtrip_witness :
  dns_hdr_decode (3, ([7; 7; 7] ++ ex_hdr_bytes) ++ [9]) =
    Some (inr ex_hdr, (15, ([7; 7; 7] ++ ex_hdr_bytes) ++ [9])).
Proof.
  destruct (dns_hdr_roundtrip ex_hdr (3, [7; 7; 7]) [7; 7; 7]) as [[Hf _]|(b'&E&_&Hd)];
    [by vm_compute|by vm_compute|by vm_compute|by apply bytes_check|by apply text_never_fails in Hf|].
  rewrite ex_hdr_encode in E. injection E as <-.
  apply (Hd (3, ([7; 7; 7] ++ ex_hdr_bytes) ++ [9]) [9]);
    [by vm_compute|reflexivity|by apply bytes_check|reflexivity].
Defined.

End DnsHdr.
