(* ===== verification/Rtp.v ===== *)
(** * RTP headers: src/libre/src/rtp/rtp.c

    Encoding and decoding of the header, and the packets of a session, on any buffer.
    Sockets, the RTCP session and the null checks of the arguments are left out. *)
From S2P Require Import Prelude Mem Pl Mbuf Codec Wire.
Import Pl Codec Wire.

Module Rtp.

Definition RTP_VERSION : Z := 2.
Definition RTP_HEADER_SIZE : Z := 12.

Record rtp_header := mk_rtp { ver : Z; pad : bool; ext : bool; cc : Z; m : bool; pt : Z; seq : Z; ts : Z; ssrc : Z;
  csrc : list Z; xtype : Z; xlen : Z }.

(** The session, as far as it numbers packets. *)
Record rtp_sock := mk_sock { enc_seq : Z; enc_ssrc : Z }.

Section Rtp.
Context {B : Type} `{Buffer B}.

(** The first two bytes, in a [uint8_t buf[2]]. *)
Definition byte0 (h : rtp_header) : Z :=
  let b := u8 (Z.shiftl (Z.land (ver h) 2) 6) in
  let b := u8 (Z.lor b (Z.shiftl (Z.b2z (pad h)) 5)) in
  let b := u8 (Z.lor b (Z.shiftl (Z.b2z (ext h)) 4)) in
  u8 (Z.lor b (Z.land (cc h) 15)).
Definition byte1 (h : rtp_header) : Z :=
  let b := u8 (Z.shiftl (Z.b2z (m h)) 7) in
  u8 (Z.lor b (Z.land (pt h) 127)).

(** The array has 16 elements; reading a seventeenth is undefined. *)
Fixpoint csrc_encode (n : nat) (l : list Z) (b : B) : option (Z * B) :=
  match n with
  | O => Some (0, b)
  | S n => match l with [] => None | c :: l => (write_n32 c ;| csrc_encode n l) b end
  end.

Definition rtp_hdr_encode (hdr : rtp_header) : B -> option (Z * B) :=
  (fun b => mbuf_write_mem b [byte0 hdr; byte1 hdr]) ;| write_n16 (seq hdr) ;| write_n32 (ts hdr) ;|
  write_n32 (ssrc hdr) ;| csrc_encode (Z.to_nat (cc hdr)) (csrc hdr).

Fixpoint csrc_decode (n : nat) : Dec B (list Z) :=
  match n with
  | O => ret []
  | S n => c ⇐ get_u32; l ⇐ csrc_decode n; ret (c :: l)
  end.

Definition skip (n : Z) : Dec B unit := fun b => Some (inr tt, mb_set_pos b (mb_pos b + n)).

(** [hdr0] is the header before; after an error it is not used. *)
Definition rtp_hdr_decode (hdr0 : rtp_header) : Dec B rtp_header :=
  need RTP_HEADER_SIZE EBADMSG (
    buf ⇐ get_mem 2;
    let b0 := nth 0 buf 0 in let b1 := nth 1 buf 0 in
    let n := Z.land b0 15 in
    let x := negb (Z.land (Z.shiftr b0 4) 1 =? 0) in
    s ⇐ get_u16; t ⇐ get_u32; src ⇐ get_u32;
    need (n * 4) EBADMSG (
      l ⇐ csrc_decode (Z.to_nat n);
      let h xt xl := mk_rtp (Z.land (Z.shiftr b0 6) 3) (negb (Z.land (Z.shiftr b0 5) 1 =? 0)) x n
        (negb (Z.land (Z.shiftr b1 7) 1 =? 0)) (Z.land b1 127) s t src (l ++ drop (length l) (csrc hdr0)) xt xl in
      if x then
        need 4 EBADMSG (
          ty ⇐ get_u16; len ⇐ get_u16;
          need (len * 4) EBADMSG (u ⇐ skip (len * 4); ret (h ty len)))
      else ret (h (xtype hdr0) (xlen hdr0)))).

(** ** The packets of a session *)

Definition rtp_encode (rs : rtp_sock) (marker : bool) (ptype t : Z) (b : B) : option (Z * rtp_sock * B) :=
  if negb (Z.land ptype (Z.lnot 127) =? 0) then Some (EINVAL, rs, b)
  else
    '(err, b) ← rtp_hdr_encode (mk_rtp RTP_VERSION false false 0 marker ptype (enc_seq rs) t (enc_ssrc rs) [] 0 0) b;
    Some (err, mk_sock (u16 (enc_seq rs + 1)) (enc_ssrc rs), b).

Definition zero_header : rtp_header := mk_rtp 0 false false 0 false 0 0 0 0 (replicate 16 0) 0 0.

Definition rtp_decode : Dec B rtp_header :=
  h ⇐ rtp_hdr_decode zero_header;
  if negb (RTP_VERSION =? ver h) then fail EBADMSG else ret h.

(** [sent] is what the socket returned; the packet that was given to it. *)
Definition rtp_send (rs : rtp_sock) (marker : bool) (ptype t : Z) (sent : Z) (b : B) :
    option (Z * rtp_sock * B * option B) :=
  if mb_pos b <? RTP_HEADER_SIZE then Some (EBADMSG, rs, b, None)
  else
    let b := mb_set_pos b (mb_pos b - RTP_HEADER_SIZE) in
    let pos := mb_pos b in
    '(err, rs, b) ← rtp_encode rs marker ptype t b;
    if negb (err =? 0) then Some (err, rs, b, None)
    else let b := mb_set_pos b pos in Some (sent, rs, b, Some b).

(** With RTCP on the same port, whether a packet is one of RTCP. *)
Definition is_rtcp (b : B) : option bool :=
  c ← mb_byte b (mb_pos b + 1);
  let p := Z.land c 127 in Some ((64 <=? p) && (p <=? 95)).

End Rtp.

(** ** Writing fields anywhere in a buffer *)

Section Places.
Context {B : Type} `{BL : BufferLaws B}.

(** [w] is written over what is at the position, unless memory runs out. *)
Definition places (w : list Z) (mm : B -> option (Z * B)) : Prop :=
  forall b, mb_ok b -> mb_pos b <= mb_end b -> mb_pos b + Z.of_nat (length w) <= Mem.SIZE_MAX ->
    exists err b', mm b = Some (err, b') /\ mb_ok b' /\ mb_pos b' <= mb_end b' /\
      mb_pos b' <= mb_pos b + Z.of_nat (length w) /\ mb_pos b <= mb_pos b' /\
      (err = 0 -> mb_pos b' = mb_pos b + Z.of_nat (length w) /\ mb_text b' = Mbuf.overwrite (mb_pos b) w (mb_text b)).

Lemma overwrite_twice p w1 w2 t : 0 <= p <= Z.of_nat (length t) ->
  Mbuf.overwrite (p + Z.of_nat (length w1)) w2 (Mbuf.overwrite p w1 t) = Mbuf.overwrite p (w1 ++ w2) t.
Proof.
  intros Hp. unfold Mbuf.overwrite. rewrite length_app.
  replace (Z.to_nat (p + Z.of_nat (length w1))) with (Z.to_nat p + length w1)%nat by lia.
  assert (length (take (Z.to_nat p) t) = Z.to_nat p) as Hl by (rewrite length_take; lia).
  set (x := take (Z.to_nat p) t) in *. set (n := Z.to_nat p) in *.
  assert (take (n + length w1) (x ++ w1 ++ drop (n + length w1) t) = x ++ w1) as ->.
  { rewrite app_assoc. apply take_app_length'. rewrite length_app. lia. }
  replace (drop (n + length w1 + length w2) (x ++ w1 ++ drop (n + length w1) t)) with (drop (n + (length w1 + length w2)) t).
  { by rewrite <- !app_assoc. }
  rewrite app_assoc, drop_app_ge by (rewrite length_app; lia). rewrite length_app, Hl, drop_drop. f_equal. lia.
Qed.

Lemma places_write w : places w (fun b => mbuf_write_mem b w).
Proof.
  intros b Hb Hp Hl. pose proof (mb_length b Hb) as Hlen. pose proof (mb_bounds b Hb) as Hbd.
  destruct (mb_write_ok b w Hb Hp Hl) as (err&b'&E&Hb'&Hcase). exists err, b'. split; [done|].
  pose proof (mb_length b' Hb') as Hlen'. split; [done|].
  destruct Hcase as [(->&Hp'&Ht')|(->&Hp'&Ht')]; rewrite Ht' in Hlen'.
  - rewrite Hp'. split_and!; try lia; [|done]. rewrite <- Hlen'. unfold Mbuf.overwrite. rewrite !length_app, length_take, length_drop. lia.
  - rewrite Hp'. split_and!; try lia. done.
Qed.

Lemma places_n16 v : places (be_bytes 2 v) (write_n16 v).
Proof. unfold write_n16, mbuf_write_u16. rewrite bytes_htons. apply places_write. Qed.
Lemma places_n32 v : places (be_bytes 4 v) (write_n32 v).
Proof. unfold write_n32, mbuf_write_u32. rewrite bytes_htonl. apply places_write. Qed.
Lemma places_nil : places [] (fun b => Some (0, b)).
Proof.
  intros b Hb Hp Hl. exists 0, b. split_and!; try done; try (simpl; lia). intros _. split; [simpl; lia|].
  unfold Mbuf.overwrite. simpl. by rewrite Nat.add_0_r, take_drop.
Qed.

Lemma places_also w1 w2 m1 m2 : places w1 m1 -> places w2 m2 -> places (w1 ++ w2) (m1 ;| m2).
Proof.
  intros H1 H2 b Hb Hp Hl. rewrite length_app in Hl. pose proof (mb_bounds b Hb) as Hbd.
  destruct (H1 b Hb Hp) as (e1&b1&E1&Hb1&Hp1&Hle1&Hge1&Ht1); [lia|].
  destruct (H2 b1 Hb1 Hp1) as (e2&b2&E2&Hb2&Hp2&Hle2&Hge2&Ht2); [lia|].
  unfold also. rewrite E1. cbn [mbind option_bind]. rewrite E2. cbn [mbind option_bind].
  exists (Z.lor e1 e2), b2. rewrite length_app. split_and!; try done; try lia.
  intros [-> ->]%Z.lor_eq_0_iff. destruct (Ht1 eq_refl) as [Q1 T1], (Ht2 eq_refl) as [Q2 T2].
  rewrite T2, Q2, T1, Q1. pose proof (mb_length b Hb). split; [lia|]. apply overwrite_twice. lia.
Qed.

(** ** The bits of the first two bytes *)

Definition bits_back (p e mk : bool) (n t : Z) : bool :=
  let h := mk_rtp RTP_VERSION p e n mk t 0 0 0 [] 0 0 in
  let b0 := byte0 h in let b1 := byte1 h in
  (0 <=? b0) && (b0 <? 256) && (0 <=? b1) && (b1 <? 256) && (Z.land b0 15 =? n) &&
  Bool.eqb (negb (Z.land (Z.shiftr b0 4) 1 =? 0)) e && (Z.land (Z.shiftr b0 6) 3 =? RTP_VERSION) &&
  Bool.eqb (negb (Z.land (Z.shiftr b0 5) 1 =? 0)) p && Bool.eqb (negb (Z.land (Z.shiftr b1 7) 1 =? 0)) mk &&
  (Z.land b1 127 =? t).

Lemma bits_back_all : forallb (fun p => forallb (fun e => forallb (fun mk => forallb (fun n => forallb (fun t =>
  bits_back p e mk n t) (seqZ 0 128)) (seqZ 0 16)) [true; false]) [true; false]) [true; false] = true.
Proof. vm_compute. reflexivity. Qed.

Lemma bits_back_ok p e mk n t : 0 <= n < 16 -> 0 <= t < 128 -> bits_back p e mk n t = true.
Proof.
  intros Hn Ht. pose proof bits_back_all as E.
  assert (forall n k, 0 <= k < n -> List.In k (seqZ 0 n)) as HZ by (intros; apply list_elem_of_In, elem_of_seqZ; lia).
  assert (forall b : bool, List.In b [true; false]) as HB by (intros []; simpl; auto).
  rewrite forallb_forall in E. specialize (E p (HB p)). cbv beta in E.
  rewrite forallb_forall in E. specialize (E e (HB e)). cbv beta in E.
  rewrite forallb_forall in E. specialize (E mk (HB mk)). cbv beta in E.
  rewrite forallb_forall in E. specialize (E n (HZ _ _ Hn)). cbv beta in E.
  rewrite forallb_forall in E. by apply (E t (HZ _ _ Ht)).
Qed.

(** A header as it is written, and as it is read into a struct of zeros. *)
Definition hdr_bytes (h : rtp_header) : list Z :=
  [byte0 h; byte1 h] ++ be_bytes 2 (seq h) ++ be_bytes 4 (ts h) ++ be_bytes 4 (ssrc h) ++ concat (map (be_bytes 4) (csrc h)).
Definition ext_bytes (ty : Z) (words : list Z) : list Z :=
  be_bytes 2 ty ++ be_bytes 2 (Z.of_nat (length words) / 4) ++ words.

Record rtp_ok (h : rtp_header) : Prop := {
  ok_ver : ver h = RTP_VERSION; ok_cc : cc h = Z.of_nat (length (csrc h)) /\ cc h < 16; ok_pt : 0 <= pt h < 128;
  ok_seq : 0 <= seq h < 65536; ok_ts : 0 <= ts h < 4294967296; ok_ssrc : 0 <= ssrc h < 4294967296;
  ok_csrc : Forall (fun c => 0 <= c < 4294967296) (csrc h) }.

Lemma byte0_eq h : byte0 h = byte0 (mk_rtp (ver h) (pad h) (ext h) (cc h) (m h) (pt h) 0 0 0 [] 0 0).
Proof. done. Qed.
Lemma byte1_eq h : byte1 h = byte1 (mk_rtp (ver h) (pad h) (ext h) (cc h) (m h) (pt h) 0 0 0 [] 0 0).
Proof. done. Qed.

Lemma csrc_places l : places (concat (map (be_bytes 4) l)) (csrc_encode (length l) l).
Proof.
  induction l as [|c l IH]; [apply places_nil|]. cbn [map concat length csrc_encode].
  apply places_also; [apply places_n32|apply IH].
Qed.

Lemma hdr_places h : cc h = Z.of_nat (length (csrc h)) -> places (hdr_bytes h) (rtp_hdr_encode h).
Proof.
  intros Hcc. unfold hdr_bytes, rtp_hdr_encode. rewrite Hcc, Nat2Z.id.
  repeat apply places_also; auto using places_write, places_n16, places_n32, csrc_places.
Qed.

Lemma csrc_reads pre post l : Forall (fun c => 0 <= c < 4294967296) l ->
  reads pre (concat (map (be_bytes 4) l)) post (csrc_decode (B := B) (length l)) l.
Proof.
  intros Hl. revert pre. induction Hl as [|c l Hc Hl IH]; intros pre; [apply reads_ret|]. cbn [map concat length csrc_decode].
  eapply reads_bind; [by apply reads_u32|]. eapply reads_map; [apply IH|done].
Qed.

Lemma hdr_bytes_range h : bytes (hdr_bytes h).
Proof.
  unfold hdr_bytes. cbn [app]. constructor; [apply u8_range|]. constructor; [apply u8_range|].
  do 3 (apply Forall_app; split; [apply be_bytes_range|]). apply Forall_concat, Forall_fmap, Forall_true. intros v. apply be_bytes_range.
Qed.

Lemma csrc_length l : Z.of_nat (length (concat (map (be_bytes 4) l))) = Z.of_nat (length l) * 4.
Proof. induction l as [|c l IH]; [done|]. cbn [map concat length]. rewrite length_app, be_bytes_length. lia. Qed.

Lemma skip_reads pre w post : reads pre w post (skip (B := B) (Z.of_nat (length w))) tt.
Proof.
  intros b x Hb _ _ Hp. unfold skip. do 3 f_equal. rewrite length_app. lia.
Qed.

(** The extension is skipped, its type and length are kept. *)
Definition read_as (h h0 : rtp_header) (x : option (Z * list Z)) : rtp_header :=
  mk_rtp (ver h) (pad h) (ext h) (cc h) (m h) (pt h) (seq h) (ts h) (ssrc h) (csrc h ++ drop (length (csrc h)) (csrc h0))
    (match x with Some (ty, _) => ty | None => xtype h0 end)
    (match x with Some (_, l) => Z.of_nat (length l) / 4 | None => xlen h0 end).

Definition ext_ok (h : rtp_header) (x : option (Z * list Z)) : Prop :=
  match x with
  | Some (ty, l) => ext h = true /\ 0 <= ty < 65536 /\ Z.of_nat (length l) mod 4 = 0 /\ Z.of_nat (length l) < 262144
  | None => ext h = false
  end.
Definition ext_text (x : option (Z * list Z)) : list Z := match x with Some (ty, l) => ext_bytes ty l | None => [] end.

Lemma rtp_hdr_reads pre post h h0 x : rtp_ok h -> ext_ok h x ->
  reads pre (hdr_bytes h ++ ext_text x) post (rtp_hdr_decode (B := B) h0) (read_as h h0 x).
Proof.
  intros [Hv [Hcc Hcc'] Hpt Hs Ht Hss Hcs] Hx.
  pose proof (bits_back_ok (pad h) (ext h) (m h) (cc h) (pt h) ltac:(lia) Hpt) as Hb. unfold bits_back in Hb. cbv zeta in Hb.
  rewrite <- Hv, <- (byte0_eq h), <- (byte1_eq h) in Hb. rewrite !andb_true_iff, !eqb_true_iff, !Z.eqb_eq in Hb.
  destruct Hb as (((((((((_&_)&_)&_)&Ecc)&Eext)&Ever)&Epad)&Em)&Ept). rewrite Hv in Ever.
  unfold rtp_hdr_decode, hdr_bytes. rewrite <- !app_assoc. apply reads_need.
  { rewrite !length_app, !be_bytes_length. cbn [length]. unfold RTP_HEADER_SIZE. lia. }
  eapply reads_bind; [apply (reads_mem pre [byte0 h; byte1 h])|]. cbn [nth]. rewrite Ecc, Eext, Epad, Em, Ever, Ept.
  do 3 (eapply reads_bind; [auto with wire|]). apply reads_need.
  { rewrite !length_app. pose proof (csrc_length (csrc h)). lia. }
  rewrite Hcc, Nat2Z.id. eapply reads_bind; [by apply csrc_reads|]. rewrite <- Hcc.
  unfold read_as. destruct x as [[ty l]|]; cbn [ext_ok ext_text] in *.
  - destruct Hx as (Hext&Hty&Hmod&Hl). rewrite Hext. unfold ext_bytes.
    pose proof (Z.div_mod (Z.of_nat (length l)) 4 ltac:(lia)) as Hdiv.
    apply reads_need; [rewrite !length_app, !be_bytes_length; lia|]. eapply reads_bind; [auto with wire|].
    eapply reads_bind; [apply reads_u16; lia|]. apply reads_need; [rewrite length_app; lia|].
    replace (Z.of_nat (length l) / 4 * 4) with (Z.of_nat (length l)) by lia.
    eapply reads_map; [apply skip_reads|]. by rewrite Hv.
  - rewrite Hx, Hv. apply reads_ret.
Qed.

Lemma csrc_within n : within (csrc_decode (B := B) n).
Proof. induction n as [|n IH]; cbn [csrc_decode]; auto with wire. Qed.

Lemma hdr_decode_within h0 : within (rtp_hdr_decode (B := B) h0).
Proof.
  unfold rtp_hdr_decode. apply within_need, within_bind; [by apply within_mem|]. intros buf. cbv zeta.
  do 3 (apply within_bind; [auto with wire|intros ?]). apply within_need, within_bind; [apply csrc_within|]. intros l.
  destruct (negb _); [|apply within_ret]. apply within_need, within_bind; [auto with wire|]. intros ty.
  apply within_bind_u16. intros n Hn b Hb Hp. apply within_need_at; [done|done|]. intros Hle.
  apply within_bind_at; [done| |intros; apply within_ret; destruct (mb_pos_set b p Hb) as (?&_&?&?); pose proof (mb_bounds b Hb); lia || done].
  exists (inr tt), (mb_pos b + n * 4). split; [done|lia].
Qed.

(** A header of a session. *)
Definition sent_header (rs : rtp_sock) (marker : bool) (ptype t : Z) : rtp_header :=
  mk_rtp RTP_VERSION false false 0 marker ptype (enc_seq rs) t (enc_ssrc rs) (replicate 16 0) 0 0.

Lemma land_payload ptype : 0 <= ptype < 128 -> Z.land ptype (Z.lnot 127) = 0.
Proof.
  intros Hp. apply Z.bits_inj'. intros n Hn. rewrite Z.land_spec, Z.lnot_spec, Z.bits_0 by done.
  destruct (Z.lt_ge_cases n 7).
  - change 127 with (Z.ones 7). rewrite Z.ones_spec_low by lia. apply andb_false_r.
  - rewrite (Z.bits_above_log2 ptype n); [done|lia|]. destruct (Z.eq_dec ptype 0) as [->|]; [simpl; lia|].
    apply Z.log2_lt_pow2; [lia|]. apply (Z.lt_le_trans _ (2 ^ 7)); [lia|]. apply Z.pow_le_mono_r; lia.
Qed.

(** Sending a payload that leaves room for the header in front of it takes the next
    sequence number of the session, and unless memory runs out gives the socket a packet
    that starts where the room does and ends with the untouched payload; decoding that
    packet gives the version, the marker, the payload type, the time stamp and the source
    that were sent, and the position of the payload. *)
Theorem rtp_packet rs marker ptype t sent (b : B) : mb_ok b -> bytes (mb_text b) -> RTP_HEADER_SIZE <= mb_pos b <= mb_end b ->
  0 <= ptype < 128 -> 0 <= t < 4294967296 -> 0 <= enc_seq rs < 65536 -> 0 <= enc_ssrc rs < 4294967296 ->
  exists err b' pkt, rtp_send rs marker ptype t sent b =
      Some (err, mk_sock ((enc_seq rs + 1) mod 65536) (enc_ssrc rs), b', pkt) /\
    ((pkt = None /\ err <> 0) \/
     (pkt = Some b' /\ err = sent /\ mb_pos b' = mb_pos b - RTP_HEADER_SIZE /\
      length (mb_text b') = length (mb_text b) /\
      take (Z.to_nat (mb_pos b')) (mb_text b') = take (Z.to_nat (mb_pos b')) (mb_text b) /\
      drop (Z.to_nat (mb_pos b)) (mb_text b') = drop (Z.to_nat (mb_pos b)) (mb_text b) /\
      rtp_decode b' = Some (inr (sent_header rs marker ptype t), mb_set_pos b' (mb_pos b)))).
Proof.
  unfold RTP_HEADER_SIZE. intros Hb Hby Hp Hpt Ht Hs Hss. unfold rtp_send, rtp_encode, RTP_HEADER_SIZE.
  destruct (Z.ltb_spec (mb_pos b) 12); [lia|]. rewrite land_payload by done. cbn [Z.eqb negb].
  set (h := mk_rtp RTP_VERSION false false 0 marker ptype (enc_seq rs) t (enc_ssrc rs) [] 0 0).
  pose proof (mb_bounds b Hb) as Hbd. pose proof (mb_length b Hb) as Hlen.
  destruct (mb_pos_set b (mb_pos b - 12) Hb) as (Hb0&Ht0&Hp0&He0); [lia|]. set (b0 := mb_set_pos b (mb_pos b - 12)) in *.
  assert (Z.of_nat (length (hdr_bytes h)) = 12) as Hhl by (unfold hdr_bytes; rewrite !length_app, !be_bytes_length; simpl; lia).
  destruct (hdr_places h eq_refl b0 Hb0) as (err&b1&->&Hb1&Hp1&_&_&Hok); [lia|lia|]. cbn [mbind option_bind].
  destruct (Z.eqb_spec err 0) as [->|He]; cbn [negb].
  2: { exists err, b1, None. split; [done|]. by left. }
  destruct (Hok eq_refl) as [Q1 T1]. rewrite Hp0, Ht0 in *.
  destruct (mb_pos_set b1 (mb_pos b - 12) Hb1) as (Hb2&Ht2&Hp2&He2); [lia|].
  set (b2 := mb_set_pos b1 (mb_pos b - 12)) in *. exists sent, b2, (Some b2). split; [done|]. right.
  rewrite Hp2, Ht2, T1. set (n := Z.to_nat (mb_pos b - 12)).
  assert (Z.to_nat (mb_pos b) = n + length (hdr_bytes h))%nat as Hn by lia.
  assert (length (take n (mb_text b)) = n) as Hl1 by (rewrite length_take; lia).
  assert (Mbuf.overwrite (mb_pos b - 12) (hdr_bytes h) (mb_text b) =
    take n (mb_text b) ++ hdr_bytes h ++ drop (Z.to_nat (mb_pos b)) (mb_text b)) as Eo by (unfold Mbuf.overwrite; by rewrite Hn).
  rewrite Eo. split_and!; try done.
  - rewrite !length_app, Hl1, length_drop. lia.
  - by rewrite take_app_length'.
  - by rewrite app_assoc, drop_app_length' by (rewrite length_app; lia).
  - unfold rtp_decode. assert (rtp_ok h) as Hh by (constructor; cbn; try done; lia).
    pose proof (rtp_hdr_reads (take n (mb_text b)) [] h zero_header None Hh eq_refl b2
      (drop (Z.to_nat (mb_pos b)) (mb_text b)) Hb2) as Hr. cbn [ext_text] in Hr. rewrite app_nil_r in Hr.
    unfold bind. rewrite Hr; cbn [mbind option_bind].
    + rewrite length_app, Hl1, <- Hn, Z2Nat.id by lia. reflexivity.
    + rewrite Ht2, T1, Eo. apply Forall_app; split; [|apply Forall_app; split].
      * by apply Forall_take.
      * apply hdr_bytes_range.
      * by apply Forall_drop.
    + by rewrite Ht2, T1, Eo.
    + rewrite Hp2, Hl1. lia.
Qed.

(** C40: decoding reads and moves inside the packet only, whatever it holds - also when the
    header announces contributing sources or an extension that are not there - and refuses
    what is shorter than a header, without moving. *)
Theorem rtp_decode_bounds (b : B) : mb_ok b -> mb_pos b <= mb_end b ->
  exists r p, rtp_decode b = Some (r, mb_set_pos b p) /\ mb_pos b <= p <= mb_end b /\
    (mb_end b - mb_pos b < RTP_HEADER_SIZE -> r = inl EBADMSG /\ p = mb_pos b).
Proof.
  intros Hb Hp. assert (within (rtp_decode (B := B))) as Hw.
  { unfold rtp_decode. apply within_bind; [apply hdr_decode_within|]. intros h. destruct (negb _); [apply within_fail|apply within_ret]. }
  destruct (Hw b Hb Hp) as (r&p&E&Hpp). destruct (Z.lt_ge_cases (mb_end b - mb_pos b) RTP_HEADER_SIZE) as [Hlt|].
  - exists (inl EBADMSG), (mb_pos b). split; [|split; [lia|done]]. rewrite mb_pos_same.
    unfold rtp_decode, rtp_hdr_decode, bind, need, mbuf_get_left.
    destruct (Z.ltb_spec (if mb_pos b <? mb_end b then mb_end b - mb_pos b else 0) RTP_HEADER_SIZE) as [|Hge]; [done|].
    exfalso. destruct (mb_pos b <? mb_end b); unfold RTP_HEADER_SIZE in *; lia.
  - exists r, p. split; [done|]. split; [done|]. lia.
Qed.

End Places.

(** ** Concrete packets *)

#[local] Existing Instances text_buffer text_laws.

Definition exp_sock : rtp_sock := mk_sock 65535 305419896.
(** Twelve bytes of room and a payload. *)
Definition exp_buf : Z * list Z := (12, replicate 12 0 ++ [1; 2; 3]).
Definition exp_sent : list Z := [128; 136; 255; 255; 0; 0; 0; 160; 18; 52; 86; 120; 1; 2; 3].
Example exp_send : rtp_send exp_sock true 8 160 0 exp_buf = Some (0, mk_sock 0 305419896, (0, exp_sent), Some (0, exp_sent)).
Proof. vm_compute. reflexivity. Qed.

Lemma rtp_packet_witness : rtp_decode (0, exp_sent) = Some (inr (sent_header exp_sock true 8 160), (12, exp_sent)).
Proof.
  destruct (rtp_packet exp_sock true 8 160 0 exp_buf) as (err&b'&pkt&E&Hc);
    [by vm_compute|by apply bytes_check|by vm_compute|done|done|done|done|].
  rewrite exp_send in E. injection E as <- <- <-. destruct Hc as [[Hc _]|(_&_&_&_&_&_&Hd)]; [discriminate Hc|exact Hd].
Defined.

Lemma rtp_decode_bounds_witness : exists r p, rtp_decode (3, exp_sent) = Some (r, (p, exp_sent)) /\ 3 <= p <= 15.
Proof.
  destruct (rtp_decode_bounds (3, exp_sent)) as (r&p&E&Hp&_); [by vm_compute|by vm_compute|]. exists r, p. split; [exact E|exact Hp].
Defined.

(** The encoder keeps the high bit of the version only: a header of version 1 goes out as 0. *)
Example version_lost : byte0 (mk_rtp 1 false false 0 false 0 0 0 0 [] 0 0) = 0.
Proof. reflexivity. Qed.

End Rtp.
