(* ===== verification/Jbuf.v ===== *)
(** * The jitter buffer: src/libre/src/jbuf/jbuf.c

    Frames are numbered by the order of their allocation; the two intrusive lists are lists
    of frames, since a frame is on one of them at a time.  References taken and released on
    packets are kept in a log.  The debug output and the null checks of the arguments are
    left out; the statistics are compiled in. *)
From stdpp Require Import base list sorting gmap.
From S2P Require Import Prelude Rtp.
Import Rtp.

Module Jbuf.

(** ** Data *)

Record frame := mk_frame { f_id : Z; f_hdr : rtp_header; f_mem : Z }.

Record jstat := mk_jstat { n_put : Z; n_get : Z; n_oos : Z; n_dups : Z; n_late : Z; n_lost : Z; n_overflow : Z;
  n_underflow : Z; n_flush : Z }.

Inductive ref_event := MemRef (p : Z) | MemDeref (p : Z).

Record jbuf := mk_jbuf { pooll : list frame; framel : list frame; n : Z; jmin : Z; jmax : Z; seq_put : Z; running : bool;
  seq_get : Z; stat : jstat; log : list ref_event }.

Definition zero_stat : jstat := mk_jstat 0 0 0 0 0 0 0 0 0.

(** Frames are allocated zeroed. *)
Definition new_frame (i : Z) : frame := mk_frame i zero_header 0.

Definition set_pooll (jb : jbuf) x := mk_jbuf x (framel jb) (n jb) (jmin jb) (jmax jb) (seq_put jb) (running jb) (seq_get jb) (stat jb) (log jb).
Definition set_framel (jb : jbuf) x := mk_jbuf (pooll jb) x (n jb) (jmin jb) (jmax jb) (seq_put jb) (running jb) (seq_get jb) (stat jb) (log jb).
Definition set_n (jb : jbuf) x := mk_jbuf (pooll jb) (framel jb) x (jmin jb) (jmax jb) (seq_put jb) (running jb) (seq_get jb) (stat jb) (log jb).
Definition set_running (jb : jbuf) x := mk_jbuf (pooll jb) (framel jb) (n jb) (jmin jb) (jmax jb) (seq_put jb) x (seq_get jb) (stat jb) (log jb).
Definition set_seq_put (jb : jbuf) x := mk_jbuf (pooll jb) (framel jb) (n jb) (jmin jb) (jmax jb) x (running jb) (seq_get jb) (stat jb) (log jb).
Definition set_seq_get (jb : jbuf) x := mk_jbuf (pooll jb) (framel jb) (n jb) (jmin jb) (jmax jb) (seq_put jb) (running jb) x (stat jb) (log jb).
Definition set_stat (jb : jbuf) x := mk_jbuf (pooll jb) (framel jb) (n jb) (jmin jb) (jmax jb) (seq_put jb) (running jb) (seq_get jb) x (log jb).

(** ++(jb->stat.var) *)
Definition inc_put (s : jstat) := mk_jstat (u32 (n_put s + 1)) (n_get s) (n_oos s) (n_dups s) (n_late s) (n_lost s) (n_overflow s) (n_underflow s) (n_flush s).
Definition inc_get (s : jstat) := mk_jstat (n_put s) (u32 (n_get s + 1)) (n_oos s) (n_dups s) (n_late s) (n_lost s) (n_overflow s) (n_underflow s) (n_flush s).
Definition inc_oos (s : jstat) := mk_jstat (n_put s) (n_get s) (u32 (n_oos s + 1)) (n_dups s) (n_late s) (n_lost s) (n_overflow s) (n_underflow s) (n_flush s).
Definition inc_dups (s : jstat) := mk_jstat (n_put s) (n_get s) (n_oos s) (u32 (n_dups s + 1)) (n_late s) (n_lost s) (n_overflow s) (n_underflow s) (n_flush s).
Definition inc_late (s : jstat) := mk_jstat (n_put s) (n_get s) (n_oos s) (n_dups s) (u32 (n_late s + 1)) (n_lost s) (n_overflow s) (n_underflow s) (n_flush s).
Definition inc_lost (s : jstat) := mk_jstat (n_put s) (n_get s) (n_oos s) (n_dups s) (n_late s) (u32 (n_lost s + 1)) (n_overflow s) (n_underflow s) (n_flush s).
Definition inc_overflow (s : jstat) := mk_jstat (n_put s) (n_get s) (n_oos s) (n_dups s) (n_late s) (n_lost s) (u32 (n_overflow s + 1)) (n_underflow s) (n_flush s).
Definition inc_underflow (s : jstat) := mk_jstat (n_put s) (n_get s) (n_oos s) (n_dups s) (n_late s) (n_lost s) (n_overflow s) (u32 (n_underflow s + 1)) (n_flush s).
Definition inc_flush (s : jstat) := mk_jstat (n_put s) (n_get s) (n_oos s) (n_dups s) (n_late s) (n_lost s) (n_overflow s) (n_underflow s) (u32 (n_flush s + 1)).
Definition count (f : jstat -> jstat) (jb : jbuf) : jbuf := set_stat jb (f (stat jb)).

(** mem_ref and mem_deref do nothing to NULL. *)
Definition add_log (jb : jbuf) (e : ref_event) : jbuf := mk_jbuf (pooll jb) (framel jb) (n jb) (jmin jb) (jmax jb) (seq_put jb)
  (running jb) (seq_get jb) (stat jb) (log jb ++ [e]).
Definition take_ref (p : Z) (jb : jbuf) : jbuf := if p =? 0 then jb else add_log jb (MemRef p).
Definition drop_ref (p : Z) (jb : jbuf) : jbuf := if p =? 0 then jb else add_log jb (MemDeref p).

(** ** Sequence numbers *)

Definition s16 (z : Z) : Z := let r := u16 z in if r <? 32768 then r else r - 65536.
(** Is x less than y?  The arguments are converted to 16 bits. *)
Definition seq_less (x y : Z) : bool := s16 (u16 x - u16 y) <? 0.

(** ** Frames *)

Definition fseq (f : frame) : Z := Rtp.seq (f_hdr f).

(** A frame of the pool, or the oldest one of the buffer; NULL is dereferenced when the
    buffer has no frames at all. *)
Definition frame_alloc (jb : jbuf) : option (frame * jbuf) :=
  match pooll jb with
  | f :: rest => Some (f, set_n (set_pooll jb rest) (u32 (n jb + 1)))
  | [] =>
      match framel jb with
      | [] => None
      | f0 :: rest =>
          let jb := drop_ref (f_mem f0) (count inc_overflow jb) in
          Some (mk_frame (f_id f0) (f_hdr f0) 0, set_framel jb rest)
      end
  end.

(** list_unlink from the buffer, by the identity of the frame. *)
Definition unlink (f : frame) (l : list frame) : list frame := filter (fun g => f_id g <> f_id f) l.

Definition frame_deref (jb : jbuf) (f : frame) : jbuf :=
  let jb := drop_ref (f_mem f) jb in
  let f := mk_frame (f_id f) (f_hdr f) 0 in
  let jb := set_framel jb (unlink f (framel jb)) in
  let jb := set_pooll jb (pooll jb ++ [f]) in
  set_n jb (u32 (n jb - 1)).

(** ** Allocation *)

(** The loop over the frames; the environment says which allocations succeed. *)
Fixpoint alloc_frames (k : nat) (i : Z) (allocs : list bool) (pool : list frame) : option (list frame) :=
  match k with
  | O => Some pool
  | S k =>
      match allocs with
      | false :: _ => None
      | _ => alloc_frames k (i + 1) (tail allocs) (pool ++ [new_frame i])
      end
  end.

Definition ENOSYS : Z := 38.

Definition jbuf_alloc (min max : Z) (allocs : list bool) : Z * option jbuf :=
  if max <? min then (EINVAL, None) else
  if negb (seq_less 10 20) || seq_less 20 10 || negb (seq_less 65535 0) then (ENOSYS, None) else
  match allocs with
  | false :: _ => (ENOMEM, None)
  | _ =>
      match alloc_frames (Z.to_nat max) 0 (tail allocs) [] with
      | None => (ENOMEM, None)
      | Some pool => (0, Some (mk_jbuf pool [] 0 min max 0 false 0 zero_stat []))
      end
  end.

(** ** Operations *)

Inductive spot := After (l r : list frame) | Duplicate (l r : list frame) | Head.

(** The walk from the tail towards the head: [rl] is what is left of it, backwards, and
    [r] what was passed. *)
Fixpoint find_place (seq : Z) (rl r : list frame) : spot :=
  match rl with
  | [] => Head
  | le :: rl' =>
      if seq_less (fseq le) seq then After (rev rl) r
      else if seq =? fseq le then Duplicate (rev rl) r
      else find_place seq rl' (le :: r)
  end.

(** The end of jbuf_put: the packet goes into the frame that was linked between l and r. *)
Definition put_out (jb : jbuf) (l : list frame) (f : frame) (r : list frame) (hdr : rtp_header) (mem : Z) : jbuf :=
  let jb := set_seq_put (set_running jb true) (Rtp.seq hdr) in
  take_ref mem (set_framel jb (l ++ mk_frame (f_id f) hdr mem :: r)).

Definition EALREADY : Z := 114.

Definition jbuf_put (jb : jbuf) (hdr : rtp_header) (mem : Z) : option (Z * jbuf) :=
  let seq := Rtp.seq hdr in
  let jb := count inc_put jb in
  if running jb && seq_less (seq + n jb) (seq_put jb) then Some (ETIMEDOUT, count inc_late jb) else
  '(f, jb) ← frame_alloc jb;
  let l := framel jb in
  match last l with
  | None => Some (0, put_out jb l f [] hdr mem)
  | Some tl =>
      if seq_less (fseq tl) seq then Some (0, put_out jb l f [] hdr mem) else
      match find_place seq (rev l) [] with
      | After l r => Some (0, put_out (count inc_oos jb) l f r hdr mem)
      | Head => Some (0, put_out (count inc_oos jb) [] f l hdr mem)
      | Duplicate l r => Some (EALREADY, frame_deref (set_framel (count inc_dups jb) (l ++ f :: r)) f)
      end
  end.

Definition jbuf_get (jb : jbuf) : Z * option (rtp_header * Z) * jbuf :=
  let jb := count inc_get jb in
  match framel jb with
  | f :: _ =>
      if n jb <=? jmin jb then (ENOENT, None, count inc_underflow jb) else
      let jb := if seq_get jb =? 0 then jb else
        let seq_diff := s16 (fseq f - seq_get jb) in
        if seq_less (fseq f) (seq_get jb) then jb else if 1 <? seq_diff then count inc_lost jb else jb in
      let jb := set_seq_get jb (fseq f) in
      let jb := take_ref (f_mem f) jb in
      (0, Some (f_hdr f, f_mem f), frame_deref jb f)
  | [] => (ENOENT, None, count inc_underflow jb)
  end.

(** The loop runs once for each frame of the buffer. *)
Fixpoint flush_frames (fuel : nat) (jb : jbuf) : jbuf :=
  match fuel with
  | O => jb
  | S fuel => match framel jb with [] => jb | f :: _ => flush_frames fuel (frame_deref jb f) end
  end.

Definition jbuf_flush (jb : jbuf) : jbuf :=
  let jb := flush_frames (length (framel jb)) jb in
  count inc_flush (set_running (set_n jb 0) false).

Definition jbuf_destructor (jb : jbuf) : jbuf := set_pooll (jbuf_flush jb) [].

Definition jbuf_stats (jb : jbuf) : jstat := stat jb.


(** ** Runs *)

Inductive op := Put (hdr : rtp_header) (mem : Z) | Get | Flush.
Inductive result := RPut (err : Z) | RGet (err : Z) (pkt : option (rtp_header * Z)) | RFlush.

Definition step (o : op) (jb : jbuf) : option (result * jbuf) :=
  match o with
  | Put hdr mem => '(e, jb) ← jbuf_put jb hdr mem; Some (RPut e, jb)
  | Get => let '(e, pkt, jb) := jbuf_get jb in Some (RGet e pkt, jb)
  | Flush => Some (RFlush, jbuf_flush jb)
  end.

Fixpoint run (ops : list op) (jb : jbuf) : option (list result * jbuf) :=
  match ops with
  | [] => Some ([], jb)
  | o :: ops => '(r, jb) ← step o jb; '(rs, jb) ← run ops jb; Some (r :: rs, jb)
  end.

(** ** Neighbours of a list *)

Fixpoint linked {A} (R : A -> A -> Prop) (l : list A) : Prop :=
  match l with
  | [] => True
  | a :: l => match l with [] => True | b :: _ => R a b end /\ linked R l
  end.

Lemma linked_app {A} (R : A -> A -> Prop) l1 l2 :
  linked R (l1 ++ l2) <-> linked R l1 /\ linked R l2 /\ (forall a b, last l1 = Some a -> head l2 = Some b -> R a b).
Proof.
  induction l1 as [|a l1 IH]; [simpl; split; [intros; split_and!; done|intros (_&Hl&_); done]|].
  destruct l1 as [|b l1].
  - simpl. destruct l2 as [|c l2]; simpl; [naive_solver|]. split.
    + intros [Ha Hl]. split_and!; [done..|apply Hl|apply Hl|]. intros x y [= <-] [= <-]. done.
    + intros (_&Hl&Ha). split; [by apply Ha|done].
  - change ((a :: b :: l1) ++ l2) with (a :: (b :: l1) ++ l2). cbn [linked] in *. simpl app in *.
    rewrite last_cons_cons. rewrite IH. naive_solver.
Qed.

(** ** Sequence numbers *)

Lemma s16_range z : -32768 <= s16 z < 32768.
Proof. unfold s16, u16. pose proof (Z.mod_pos_bound z 65536 ltac:(lia)). destruct (Z.ltb_spec (z mod 65536) 32768); lia. Qed.

Lemma s16_mod z : (s16 z - z) mod 65536 = 0.
Proof.
  unfold s16, u16. rewrite (Z.mod_eq z 65536) by lia. destruct (Z.ltb_spec (z - 65536 * (z / 65536)) 32768).
  - replace (z - 65536 * (z / 65536) - z) with (- (z / 65536) * 65536) by lia. apply Z.mod_mul. lia.
  - replace (z - 65536 * (z / 65536) - 65536 - z) with ((- (z / 65536) - 1) * 65536) by lia. apply Z.mod_mul. lia.
Qed.

Lemma s16_unique z r : -32768 <= r < 32768 -> (r - z) mod 65536 = 0 -> s16 z = r.
Proof.
  intros Hr Hm. pose proof (s16_range z). pose proof (s16_mod z) as Hz.
  apply Z.mod_divide in Hm as [k Hk], Hz as [k' Hk']; lia.
Qed.

(** Between numbers less than half the circle apart, the comparison is that of the
    unwrapped numbers. *)
Lemma seq_less_near x y : -32768 <= x - y < 32768 -> seq_less x y = (x <? y).
Proof.
  intros Hd. unfold seq_less. rewrite (s16_unique _ (x - y)); [|lia|].
  - destruct (Z.ltb_spec (x - y) 0), (Z.ltb_spec x y); lia.
  - unfold u16. rewrite (Z.mod_eq x), (Z.mod_eq y) by lia. rewrite <- (Z.mod_0_l 65536) by lia.
    replace (x - y - (x - 65536 * (x / 65536) - (y - 65536 * (y / 65536)))) with (0 + (x / 65536 - y / 65536) * 65536) by lia.
    apply Z.mod_add. lia.
Qed.

Lemma seq_less_flip x y : seq_less x y = false -> u16 x <> u16 y -> seq_less y x = true.
Proof.
  unfold seq_less. intros Hl Hne. pose proof (u16_range x). pose proof (u16_range y).
  assert (s16 (u16 x - u16 y) = u16 x - u16 y \/ s16 (u16 x - u16 y) = u16 x - u16 y - 65536 \/ s16 (u16 x - u16 y) = u16 x - u16 y + 65536) as Hc.
  { pose proof (s16_mod (u16 x - u16 y)) as Hm. pose proof (s16_range (u16 x - u16 y)). apply Z.mod_divide in Hm as [k Hk]; lia. }
  pose proof (s16_range (u16 x - u16 y)). apply Z.ltb_lt. apply Z.ltb_ge in Hl.
  rewrite (s16_unique (u16 y - u16 x) (- s16 (u16 x - u16 y))); [lia|lia|].
  destruct Hc as [->|[->| ->]].
  - replace (- (u16 x - u16 y) - (u16 y - u16 x)) with 0 by lia. done.
  - replace (- (u16 x - u16 y - 65536) - (u16 y - u16 x)) with 65536 by lia. done.
  - replace (- (u16 x - u16 y + 65536) - (u16 y - u16 x)) with (-65536) by lia. done.
Qed.

Lemma seq_less_u16 x y : seq_less (u16 x) y = seq_less x y /\ seq_less x (u16 y) = seq_less x y.
Proof. unfold seq_less. assert (forall z, u16 (u16 z) = u16 z) as E by (intros; apply Z.mod_mod; lia). by rewrite !E. Qed.

(** ** The invariant *)

Definition ids (l : list frame) : list Z := map f_id l.
Definition held (jb : jbuf) : list Z := map f_mem (framel jb).
Definition before (f g : frame) : Prop := seq_less (fseq f) (fseq g) = true.
Definition seq_ok (f : frame) : Prop := 0 <= fseq f < 65536.

(** What holds whether or not a frame is in hand ([k] frames are). *)
Record shape (jb : jbuf) (k : Z) (hand : list Z) : Prop := {
  co_n : n jb = Z.of_nat (length (framel jb)) + k;
  co_max : n jb + Z.of_nat (length (pooll jb)) = jmax jb;
  co_range : 0 <= jmin jb <= jmax jb /\ jmax jb < 4294967296;
  co_ids : NoDup (hand ++ ids (framel jb ++ pooll jb));
  co_pool : Forall (fun f => f_mem f = 0) (pooll jb) }.

(** Every frame of the buffer is before the next one. *)
Definition ordered (l : list frame) : Prop := linked before l /\ Forall seq_ok l.

(** A buffer between two operations. *)
Record jbuf_ok (jb : jbuf) : Prop := {
  ok_shape : shape jb 0 [];
  ok_order : ordered (framel jb);
  ok_run : framel jb <> [] -> running jb = true }.

(** References: those taken less those released. *)
Definition occ (p : Z) (l : list Z) : Z := Z.of_nat (count_occ Z.eq_dec l p).
Definition delta (p : Z) (e : ref_event) : Z :=
  match e with MemRef q => if q =? p then 1 else 0 | MemDeref q => if q =? p then -1 else 0 end.
Definition refs (p : Z) (l : list ref_event) : Z := foldr (fun e a => delta p e + a) 0 l.
(** Every reference is held by a frame or was handed out. *)
Definition balanced (jb : jbuf) (handed : list Z) : Prop :=
  forall p, p <> 0 -> refs p (log jb) = occ p (held jb) + occ p handed.

Lemma jb_occ_app p l1 l2 : occ p (l1 ++ l2) = occ p l1 + occ p l2.
Proof. unfold occ. rewrite count_occ_app. lia. Qed.
Lemma occ_cons p q l : occ p (q :: l) = (if q =? p then 1 else 0) + occ p l.
Proof. unfold occ. cbn [count_occ]. destruct (Z.eq_dec q p), (Z.eqb_spec q p); lia. Qed.
Lemma refs_app p l1 l2 : refs p (l1 ++ l2) = refs p l1 + refs p l2.
Proof. unfold refs. induction l1 as [|e l1 IH]; cbn [foldr app]; lia. Qed.
Lemma refs_take p q jb : p <> 0 -> refs p (log (take_ref q jb)) = refs p (log jb) + (if q =? p then 1 else 0).
Proof.
  intros Hp. unfold take_ref. destruct (Z.eqb_spec q 0) as [->|].
  - destruct (Z.eqb_spec 0 p); lia.
  - cbn [log add_log]. rewrite refs_app. cbn [refs foldr delta]. lia.
Qed.
Lemma refs_drop p q jb : p <> 0 -> refs p (log (drop_ref q jb)) = refs p (log jb) - (if q =? p then 1 else 0).
Proof.
  intros Hp. unfold drop_ref. destruct (Z.eqb_spec q 0) as [->|].
  - destruct (Z.eqb_spec 0 p); lia.
  - cbn [log add_log]. rewrite refs_app. cbn [refs foldr delta]. destruct (Z.eqb_spec q p); lia.
Qed.

(** Nothing but the log changes with the references. *)
Lemma take_ref_same q jb : set_framel (take_ref q jb) [] = take_ref q (set_framel jb []) /\
  framel (take_ref q jb) = framel jb /\ pooll (take_ref q jb) = pooll jb /\ n (take_ref q jb) = n jb /\
  jmin (take_ref q jb) = jmin jb /\ jmax (take_ref q jb) = jmax jb /\ running (take_ref q jb) = running jb /\
  seq_put (take_ref q jb) = seq_put jb.
Proof. unfold take_ref. by destruct (q =? 0). Qed.
Lemma drop_ref_same q jb : framel (drop_ref q jb) = framel jb /\ pooll (drop_ref q jb) = pooll jb /\ n (drop_ref q jb) = n jb /\
  jmin (drop_ref q jb) = jmin jb /\ jmax (drop_ref q jb) = jmax jb /\ running (drop_ref q jb) = running jb /\
  seq_put (drop_ref q jb) = seq_put jb.
Proof. unfold drop_ref. by destruct (q =? 0). Qed.

(** ** Taking a frame back *)

Lemma unlink_middle l f r : NoDup (ids (l ++ f :: r)) -> forall h m, unlink (mk_frame (f_id f) h m) (l ++ f :: r) = l ++ r.
Proof.
  unfold ids, unlink. rewrite map_app. cbn [map f_id]. intros Hnd h m.
  apply NoDup_app in Hnd as (_&Hd&Hr). apply NoDup_cons in Hr as [Hr _].
  rewrite filter_app, filter_cons_False by (cbn; naive_solver). rewrite !filter_all; [done|..].
  - intros x Hx E. apply Hr. rewrite <- E. by apply list_elem_of_fmap_2.
  - intros x Hx E. apply (Hd (f_id x)); [by apply list_elem_of_fmap_2|]. rewrite E. by left.
Qed.

Lemma frame_deref_eq jb l f r : framel jb = l ++ f :: r -> NoDup (ids (framel jb)) -> 
  let jb' := frame_deref jb f in
  framel jb' = l ++ r /\ pooll jb' = pooll jb ++ [mk_frame (f_id f) (f_hdr f) 0] /\ n jb' = u32 (n jb - 1) /\
  jmin jb' = jmin jb /\ jmax jb' = jmax jb /\ running jb' = running jb /\ seq_put jb' = seq_put jb /\
  log jb' = log (drop_ref (f_mem f) jb).
Proof.
  intros El Hnd. unfold frame_deref. cbv zeta. destruct (drop_ref_same (f_mem f) jb) as (E1&E2&E3&E4&E5&E6&E7).
  cbn [framel pooll n jmin jmax running seq_put log set_n set_pooll set_framel].
  rewrite E1, E2, E3, E4, E5, E6, E7, El, unlink_middle by by rewrite <- El. done.
Qed.

Lemma ordered_tail f l : ordered (f :: l) -> ordered l.
Proof. intros [[_ Hl] Hs]. split; [done|]. by apply Forall_cons in Hs as [_ Hs]. Qed.

(** Releasing a frame gives up the reference it holds. *)
Lemma frame_deref_ok jb l f r hs : shape jb 0 [] -> framel jb = l ++ f :: r -> balanced jb hs ->
  let jb' := frame_deref jb f in
  shape jb' 0 [] /\ balanced jb' hs /\ framel jb' = l ++ r /\
  jmin jb' = jmin jb /\ jmax jb' = jmax jb /\ running jb' = running jb /\ seq_put jb' = seq_put jb.
Proof.
  intros [Hn Hm Hr Hi Hp] El Hb jb'. cbn [app] in Hi.
  assert (NoDup (ids (framel jb))) as Hnd by (unfold ids in *; rewrite map_app in Hi; apply NoDup_app in Hi; tauto).
  destruct (frame_deref_eq jb l f r El Hnd) as (E1&E2&E3&E4&E5&E6&E7&E8). fold jb' in E1, E2, E3, E4, E5, E6, E7, E8.
  rewrite El in *. split_and!; try done.
  - constructor; rewrite ?E1, ?E2, ?E3, ?E4, ?E5; rewrite !length_app in *; cbn [length app] in *.
    + rewrite u32_small by lia. lia.
    + rewrite u32_small by lia. lia.
    + done.
    + eapply (NoDup_Permutation_proper (A := Z)); [|exact Hi]. unfold ids. rewrite !map_app. cbn [map f_id].
      rewrite <- !app_assoc. cbn [app]. apply Permutation_app_head. rewrite app_assoc.
      symmetry. apply Permutation_cons_append.
    + apply Forall_app. split; [done|]. by constructor.
  - intros p Hp0. specialize (Hb p Hp0). unfold held in *. rewrite E1, E8, refs_drop by done. rewrite El in Hb.
    rewrite map_app, jb_occ_app in *. cbn [map] in Hb. rewrite occ_cons in Hb. lia.
Qed.

(** ** Putting *)

(** The frames that stay when one is needed. *)
Definition room (jb : jbuf) : list frame := match pooll jb with [] => tail (framel jb) | _ => framel jb end.

Lemma frame_alloc_ok jb hs : shape jb 0 [] -> 1 <= jmax jb -> balanced jb hs ->
  exists f jb', frame_alloc jb = Some (f, jb') /\ f_mem f = 0 /\ shape jb' 1 [f_id f] /\ framel jb' = room jb /\
    balanced jb' hs /\ jmin jb' = jmin jb /\ jmax jb' = jmax jb /\ running jb' = running jb /\ seq_put jb' = seq_put jb.
Proof.
  intros [Hn Hm Hr Hi Hp] H1 Hb. unfold frame_alloc, room. destruct (pooll jb) as [|f rest] eqn:Ep.
  - destruct (framel jb) as [|f0 rest] eqn:Ef; [simpl in *; lia|]. cbn [tail].
    destruct (drop_ref_same (f_mem f0) (count inc_overflow jb)) as (E1&E2&E3&E4&E5&E6&E7).
    eexists _, _. split; [done|]. split_and!; try done; cbn [framel set_framel pooll n jmin jmax running seq_put].
    + constructor; cbn [framel set_framel pooll n jmin jmax f_id]; rewrite ?E2, ?E3, ?E4, ?E5;
        cbn [count set_stat pooll n jmin jmax]; rewrite ?Ep in *; try done; cbn [length] in *; lia.
    + intros p Hp0. specialize (Hb p Hp0). unfold held in *. cbn [log framel set_framel]. rewrite Ef in Hb.
      change (log (drop_ref (f_mem f0) (count inc_overflow jb))) with (log (drop_ref (f_mem f0) (count inc_overflow jb))).
      rewrite refs_drop by done. cbn [map] in Hb. rewrite occ_cons in Hb. cbn [log count set_stat]. lia.
  - apply Forall_cons in Hp as [Hf Hp]. eexists f, _. split; [done|].
    split_and!; try done; cbn [framel set_framel set_n set_pooll pooll n jmin jmax running seq_put].
    constructor; cbn [framel set_framel set_n set_pooll pooll n jmin jmax]; try done; cbn [length] in *.
    + rewrite u32_small by lia. lia.
    + rewrite u32_small by lia. lia.
    + eapply (NoDup_Permutation_proper (A := Z)); [|exact Hi]. unfold ids. rewrite !map_app. cbn [map app].
      apply Permutation_middle.
Qed.

(** What the walk passes: the frames that come after the sequence number. *)
Definition passed (seq : Z) (l : list frame) : Prop :=
  Forall (fun f => seq_less (fseq f) seq = false /\ fseq f <> seq) l.

Lemma find_place_ok seq l : forall r, passed seq r ->
  match find_place seq (rev l) r with
  | After l1 r1 => l ++ r = l1 ++ r1 /\ passed seq r1 /\ exists g, last l1 = Some g /\ seq_less (fseq g) seq = true
  | Duplicate l1 r1 => l ++ r = l1 ++ r1 /\ exists g, last l1 = Some g /\ fseq g = seq
  | Head => passed seq (l ++ r)
  end.
Proof.
  induction l as [|g l IH] using rev_ind; intros r Hr; [done|]. rewrite rev_app_distr. cbn [rev app find_place].
  destruct (seq_less (fseq g) seq) eqn:El.
  { cbn [rev]. rewrite rev_involutive. split_and!; [done..|]. exists g. by rewrite last_snoc. }
  destruct (Z.eqb_spec seq (fseq g)) as [->|].
  { cbn [rev]. rewrite rev_involutive. split; [done|]. exists g. by rewrite last_snoc. }
  specialize (IH (g :: r)). rewrite <- app_assoc. apply IH. constructor; [split; congruence|done].
Qed.

(** The place found keeps the order. *)
Lemma ordered_insert l r f : ordered (l ++ r) -> seq_ok f ->
  match last l with Some g => seq_less (fseq g) (fseq f) = true | None => True end -> passed (fseq f) r -> ordered (l ++ f :: r).
Proof.
  intros [Hl Hs] Hf Hg Hp. apply linked_app in Hl as (Hl&Hr&_). apply Forall_app in Hs as [Hs1 Hs2]. split.
  - apply linked_app. split_and!; [done| |].
    + cbn [linked]. split; [|done]. destruct r as [|h r]; [done|]. apply Forall_cons in Hp as [[Hp1 Hp2] _].
      apply Forall_cons in Hs2 as [Hs2 _]. unfold seq_ok in *. apply seq_less_flip; [done|].
      rewrite !u16_small by lia. congruence.
    + intros a b Ea [= <-]. by rewrite Ea in Hg.
  - apply Forall_app. split; [done|]. by constructor.
Qed.

Lemma put_out_ok jb l f r hdr mem hs : shape jb 1 [f_id f] -> framel jb = l ++ r -> balanced jb hs ->
  let jb' := put_out jb l f r hdr mem in
  shape jb' 0 [] /\ balanced jb' hs /\ framel jb' = l ++ mk_frame (f_id f) hdr mem :: r /\
  jmin jb' = jmin jb /\ jmax jb' = jmax jb /\ running jb' = true /\ seq_put jb' = Rtp.seq hdr.
Proof.
  intros [Hn Hm Hr Hi Hp] El Hb. unfold put_out. cbv zeta.
  set (jb1 := set_framel _ _). destruct (take_ref_same mem jb1) as (_&E1&E2&E3&E4&E5&E6&E7).
  unfold jb1 in E1, E2, E3, E4, E5, E6, E7. cbn in E1, E2, E3, E4, E5, E6, E7.
  fold jb1 in E1, E2, E3, E4, E5, E6, E7. split_and!; try done.
  - constructor; rewrite ?E1, ?E2, ?E3, ?E4, ?E5; try done.
    + rewrite El in Hn. rewrite !length_app in *. cbn [length]. lia.
    + cbn [app]. rewrite El in Hi. eapply (NoDup_Permutation_proper (A := Z)); [|exact Hi]. unfold ids. rewrite !map_app. cbn [map f_id app].
      rewrite <- !app_assoc. cbn [app]. symmetry. apply Permutation_middle.
  - intros p Hp0. specialize (Hb p Hp0). unfold held in *. rewrite E1, refs_take by done. rewrite El in Hb.
    cbn [log jb1 set_framel set_seq_put set_running]. rewrite !map_app, !jb_occ_app in *. cbn [map f_mem]. rewrite occ_cons. lia.
Qed.

Lemma shape_count g jb k hand : shape (count g jb) k hand <-> shape jb k hand.
Proof. split; intros []; constructor; done. Qed.

(** What putting a packet does. *)
Inductive put_case (jb : jbuf) (hdr : rtp_header) (mem e : Z) (jb' : jbuf) : Prop :=
| PutLate : e = ETIMEDOUT -> running jb && seq_less (Rtp.seq hdr + n jb) (seq_put jb) = true ->
    framel jb' = framel jb -> running jb' = running jb -> seq_put jb' = seq_put jb -> put_case jb hdr mem e jb'
| PutDup g : e = EALREADY -> running jb && seq_less (Rtp.seq hdr + n jb) (seq_put jb) = false ->
    framel jb' = room jb -> g ∈ room jb -> fseq g = Rtp.seq hdr -> running jb' = running jb -> seq_put jb' = seq_put jb ->
    put_case jb hdr mem e jb'
| PutIn i l r : e = 0 -> running jb && seq_less (Rtp.seq hdr + n jb) (seq_put jb) = false ->
    room jb = l ++ r -> framel jb' = l ++ mk_frame i hdr mem :: r ->
    match last l with Some g => seq_less (fseq g) (Rtp.seq hdr) = true | None => True end -> passed (Rtp.seq hdr) r ->
    running jb' = true -> seq_put jb' = Rtp.seq hdr -> put_case jb hdr mem e jb'.

Definition hdr_ok (hdr : rtp_header) : Prop := 0 <= Rtp.seq hdr < 65536.

Lemma room_ordered jb : ordered (framel jb) -> ordered (room jb).
Proof. unfold room. destruct (pooll jb), (framel jb); try done. apply ordered_tail. Qed.

Lemma jb_put_ok jb hdr mem hs : jbuf_ok jb -> 1 <= jmax jb -> hdr_ok hdr -> balanced jb hs ->
  exists e jb', jbuf_put jb hdr mem = Some (e, jb') /\ jbuf_ok jb' /\ balanced jb' hs /\
    jmin jb' = jmin jb /\ jmax jb' = jmax jb /\ put_case jb hdr mem e jb'.
Proof.
  intros [Hs Ho Hrun] H1 Hh Hb. unfold jbuf_put. cbv zeta.
  change (running (count inc_put jb)) with (running jb). change (n (count inc_put jb)) with (n jb).
  change (seq_put (count inc_put jb)) with (seq_put jb).
  destruct (running jb && seq_less (Rtp.seq hdr + n jb) (seq_put jb)) eqn:Elate.
  { eexists _, _. split; [done|]. split; [|split; [exact Hb|split_and!; try done; by apply PutLate]].
    constructor; [by apply shape_count, shape_count|done|done]. }
  destruct (frame_alloc_ok (count inc_put jb) hs) as (f&jb1&->&Hf0&Hs1&El&Hb1&E1&E2&E3&E4); [by apply shape_count|done|done|].
  cbn [mbind option_bind]. change (room (count inc_put jb)) with (room jb) in El.
  assert (ordered (framel jb1)) as Ho1 by (rewrite El; by apply room_ordered).
  assert (forall jb2 l r, shape jb2 1 [f_id f] -> framel jb2 = l ++ r -> framel jb2 = framel jb1 -> balanced jb2 hs ->
    jmin jb2 = jmin jb1 -> jmax jb2 = jmax jb1 ->
    match last l with Some g => seq_less (fseq g) (Rtp.seq hdr) = true | None => True end -> passed (Rtp.seq hdr) r ->
    exists e jb', Some (0, put_out jb2 l f r hdr mem) = Some (e, jb') /\ jbuf_ok jb' /\ balanced jb' hs /\
      jmin jb' = jmin jb /\ jmax jb' = jmax jb /\ put_case jb hdr mem e jb') as Hin.
  { intros jb2 l r Hs2 E2l E21 Hb2 Em1 Em2 Hg Hp.
    destruct (put_out_ok jb2 l f r hdr mem hs Hs2 E2l Hb2) as (Hs3&Hb3&E5&E6&E7&E8&E9).
    eexists _, _. split; [done|]. split; [|split; [done|]]; [constructor; [done| |by intros _]|].
    - rewrite E5. apply (ordered_insert l r (mk_frame (f_id f) hdr mem)); [by rewrite <- E2l, E21|exact Hh|exact Hg|exact Hp].
    - split_and!; [by rewrite E6, Em1, E1|by rewrite E7, Em2, E2|]. eapply PutIn; try done. by rewrite <- El, <- E21. }
  destruct (last (framel jb1)) as [tl|] eqn:Etl.
  2: { apply last_None in Etl. apply (Hin jb1); rewrite ?app_nil_r; try done; [by rewrite Etl|by constructor]. }
  destruct (seq_less (fseq tl) (Rtp.seq hdr)) eqn:Et.
  { apply (Hin jb1); rewrite ?app_nil_r; try done; [by rewrite Etl|by constructor]. }
  pose proof (find_place_ok (Rtp.seq hdr) (framel jb1) [] (Forall_nil_2 _)) as Hfp. rewrite app_nil_r in Hfp.
  destruct (find_place (Rtp.seq hdr) (rev (framel jb1)) []) as [l r|l r|].
  - destruct Hfp as (E&Hp&g&Eg&Hg). apply (Hin (count inc_oos jb1)); try done; [by apply shape_count|by rewrite Eg].
  - destruct Hfp as (E&g&Eg&Hg). set (jb2 := set_framel (count inc_dups jb1) (l ++ f :: r)).
    destruct (frame_deref_ok jb2 l f r hs) as (Hs3&Hb3&E5&E6&E7&E8&E9); [|done| |].
    + destruct Hs1 as [Hn Hm Hr Hi Hp]. constructor; try done; cbn [jb2 framel set_framel count set_stat n pooll jmin jmax] in *.
      * rewrite E in Hn. rewrite !length_app in *. cbn [length]. lia.
      * cbn [app] in *. rewrite E in Hi. eapply (NoDup_Permutation_proper (A := Z)); [|exact Hi]. unfold ids.
        rewrite !map_app. cbn [map app]. rewrite <- !app_assoc. cbn [app]. symmetry. apply Permutation_middle.
    + intros p Hp. specialize (Hb1 p Hp). unfold held in *. cbn [jb2 framel set_framel log count set_stat] in *.
      rewrite E in Hb1. rewrite !map_app, !jb_occ_app in *. cbn [map]. rewrite occ_cons, Hf0. destruct (Z.eqb_spec 0 p); lia.
    + eexists _, _. split; [done|]. split; [constructor; [done| |]|split; [done|]].
      * by rewrite E5, <- E.
      * rewrite E8. cbn [jb2 running set_framel count set_stat]. rewrite E3. intros _. apply Hrun. intros E0.
        rewrite El in E. unfold room in E. cbn in E. destruct (pooll jb); rewrite E0 in E; cbn in E;
        destruct l; try done.
      * split_and!; [by rewrite E6|by rewrite E7|]. eapply (PutDup _ _ _ _ _ g); try done.
        -- by rewrite E5, <- E, El.
        -- rewrite <- El, E. apply elem_of_app. left. by apply last_Some_elem_of.
        -- by rewrite E8.
        -- by rewrite E9.
  - apply (Hin (count inc_oos jb1) [] (framel jb1)); try done. by apply shape_count.
Qed.

(** ** Getting and flushing *)

Lemma get_ok jb hs : jbuf_ok jb -> balanced jb hs ->
  let '(e, pkt, jb') := jbuf_get jb in
  jbuf_ok jb' /\ jmin jb' = jmin jb /\ jmax jb' = jmax jb /\ running jb' = running jb /\ seq_put jb' = seq_put jb /\
  match framel jb with
  | f :: rest =>
      if n jb <=? jmin jb then e = ENOENT /\ pkt = None /\ framel jb' = framel jb /\ balanced jb' hs
      else e = 0 /\ pkt = Some (f_hdr f, f_mem f) /\ framel jb' = rest /\ balanced jb' (f_mem f :: hs)
  | [] => e = ENOENT /\ pkt = None /\ framel jb' = [] /\ balanced jb' hs
  end.
Proof.
  intros [Hs Ho Hrun] Hb. unfold jbuf_get. cbv zeta. change (framel (count inc_get jb)) with (framel jb).
  change (n (count inc_get jb)) with (n jb). change (jmin (count inc_get jb)) with (jmin jb).
  assert (jbuf_ok (count inc_underflow (count inc_get jb))) as Hu by (constructor; [by apply shape_count, shape_count|done|done]).
  destruct (framel jb) as [|f rest] eqn:El; [by split_and!|].
  destruct (n jb <=? jmin jb); [by split_and!|].
  set (jb1 := if seq_get (count inc_get jb) =? 0 then _ else _).
  assert (exists g, jb1 = count g jb) as (g&->).
  { subst jb1. destruct (_ =? 0); [by eexists|]. destruct (seq_less _ _); [by eexists|].
    destruct (1 <? _); [|by eexists]. by exists (fun s => inc_lost (inc_get s)). }
  set (jb2 := take_ref (f_mem f) (set_seq_get (count g jb) (fseq f))).
  destruct (take_ref_same (f_mem f) (set_seq_get (count g jb) (fseq f))) as (_&E1&E2&E3&E4&E5&E6&E7). fold jb2 in E1, E2, E3, E4, E5, E6, E7.
  destruct (frame_deref_ok jb2 [] f rest (f_mem f :: hs)) as (Hs3&Hb3&D1&D2&D3&D4&D5).
  - destruct Hs. by constructor; rewrite ?E1, ?E2, ?E3, ?E4, ?E5.
  - by rewrite E1.
  - intros p Hp. specialize (Hb p Hp). unfold held in *. rewrite E1. unfold jb2. rewrite refs_take by done.
    cbn [log set_seq_get count set_stat framel]. rewrite Hb, occ_cons. lia.
  - rewrite D2, D3, D4, D5, E4, E5, E6, E7. split; [|by split_and!]. constructor; [done| |].
    + rewrite D1. by eapply ordered_tail.
    + intros _. rewrite D4, E6. cbn. by apply Hrun.
Qed.

Lemma flush_frames_ok fuel : forall jb hs, (length (framel jb) <= fuel)%nat -> shape jb 0 [] -> balanced jb hs ->
  let jb' := flush_frames fuel jb in
  shape jb' 0 [] /\ balanced jb' hs /\ framel jb' = [] /\ jmin jb' = jmin jb /\ jmax jb' = jmax jb.
Proof.
  induction fuel as [|fuel IH]; intros jb hs Hf Hs Hb; cbn [flush_frames].
  { destruct (framel jb) eqn:E; [done|simpl in Hf; lia]. }
  destruct (framel jb) as [|f rest] eqn:E; [done|].
  destruct (frame_deref_ok jb [] f rest hs Hs E Hb) as (Hs1&Hb1&E1&E2&E3&_).
  destruct (IH (frame_deref jb f) hs) as (?&?&?&E4&E5); [rewrite E1; simpl in *; lia|done|done|].
  cbv zeta. rewrite E4, E5. done.
Qed.

Lemma flush_ok jb hs : jbuf_ok jb -> balanced jb hs ->
  let jb' := jbuf_flush jb in
  jbuf_ok jb' /\ balanced jb' hs /\ framel jb' = [] /\ running jb' = false /\ jmin jb' = jmin jb /\ jmax jb' = jmax jb.
Proof.
  intros [Hs _ _] Hb. unfold jbuf_flush. cbv zeta.
  destruct (flush_frames_ok (length (framel jb)) jb hs (le_n _) Hs Hb) as (Hs1&Hb1&E1&E2&E3).
  set (jb1 := flush_frames _ _) in *. split_and!; try done. constructor.
  - destruct Hs1 as [Hn Hm Hr Hi Hp]. rewrite E1 in *. cbn [length] in Hn.
    constructor; cbn [count set_stat set_running set_n framel pooll n jmin jmax]; rewrite ?E1; try done. simpl length. lia.
  - change (ordered (framel jb1)). rewrite E1. split; [done|constructor].
  - change (framel jb1 <> [] -> false = true). by rewrite E1.
Qed.

(** ** Allocation *)

Lemma alloc_frames_ok k : forall i allocs pool pool', alloc_frames k i allocs pool = Some pool' ->
  pool' = pool ++ map new_frame (seqZ i (Z.of_nat k)).
Proof.
  induction k as [|k IH]; intros i allocs pool pool' E; cbn [alloc_frames] in E.
  - injection E as <-. by rewrite app_nil_r.
  - assert (alloc_frames k (i + 1) (tail allocs) (pool ++ [new_frame i]) = Some pool') as E' by (destruct allocs as [|[] ?]; done).
    rewrite (IH _ _ _ _ E'), <- app_assoc. f_equal. rewrite (seqZ_cons i) by lia. cbn [map app]. do 3 f_equal; lia.
Qed.

Lemma jb_alloc_ok min max allocs e jb : 0 <= min -> max < 4294967296 -> jbuf_alloc min max allocs = (e, Some jb) ->
  e = 0 /\ jbuf_ok jb /\ balanced jb [] /\ framel jb = [] /\ running jb = false /\ jmin jb = min /\ jmax jb = max.
Proof.
  intros H0 H1. unfold jbuf_alloc. destruct (Z.ltb_spec max min); [done|]. destruct (_ || _); [done|].
  intros E. assert (match alloc_frames (Z.to_nat max) 0 (tail allocs) [] with
    | None => (ENOMEM, None) | Some pool => (0, Some (mk_jbuf pool [] 0 min max 0 false 0 zero_stat [])) end = (e, Some jb)) as E'
    by (destruct allocs as [|[] ?]; done).
  destruct (alloc_frames _ _ _ _) as [pool|] eqn:Ep; [|done]. injection E' as <- <-.
  apply alloc_frames_ok in Ep. cbn [app] in Ep. rewrite Z2Nat.id in Ep by lia.
  split_and!; try done. constructor; [|split; [done|constructor]|done]. constructor; cbn [n framel pooll jmin jmax app]; try done.
  - subst pool. rewrite length_map, length_seqZ. lia.
  - subst pool. unfold ids. rewrite map_map. cbn [f_id new_frame]. rewrite map_id. apply NoDup_seqZ.
  - subst pool. apply Forall_forall. intros f Hf. apply list_elem_of_In, in_map_iff in Hf as (i&<-&_). done.
Qed.

(** ** Safety of all runs *)

Definition op_ok (o : op) : Prop := match o with Put hdr _ => hdr_ok hdr | _ => True end.
(** The references that a caller got with its packets. *)
Definition handed (rs : list result) : list Z :=
  omap (fun r => match r with RGet _ (Some (_, mem)) => Some mem | _ => None end) rs.

Lemma run_ok ops : forall jb hs, Forall op_ok ops -> jbuf_ok jb -> 1 <= jmax jb -> balanced jb hs ->
  exists rs jb', run ops jb = Some (rs, jb') /\ jbuf_ok jb' /\ jmin jb' = jmin jb /\ jmax jb' = jmax jb /\
    balanced jb' (handed rs ++ hs).
Proof.
  induction ops as [|o ops IH]; intros jb hs Ho Hj H1 Hb; [by exists [], jb|]. apply Forall_cons in Ho as [Ho Hos].
  assert (exists r jb1 h, step o jb = Some (r, jb1) /\ jbuf_ok jb1 /\ jmin jb1 = jmin jb /\ jmax jb1 = jmax jb /\
    balanced jb1 (h ++ hs) /\ handed [r] = h) as (r&jb1&h&E&Hj1&E1&E2&Hb1&Eh).
  { destruct o as [hdr mem| |]; cbn [step].
    - destruct (jb_put_ok jb hdr mem hs Hj H1 Ho Hb) as (e&jb1&->&?&?&?&?&_). by exists (RPut e), jb1, [].
    - pose proof (get_ok jb hs Hj Hb) as Hg. destruct (jbuf_get jb) as [[e pkt] jb1]. destruct Hg as (?&?&?&_&_&Hg).
      destruct (framel jb) as [|f rest]; [destruct Hg as (->&->&_&?); by exists (RGet ENOENT None), jb1, []|].
      destruct (n jb <=? jmin jb); destruct Hg as (->&->&_&?).
      + by exists (RGet ENOENT None), jb1, [].
      + by exists (RGet 0 (Some (f_hdr f, f_mem f))), jb1, [f_mem f].
    - destruct (flush_ok jb hs Hj Hb) as (?&?&_&_&?&?). by exists RFlush, (jbuf_flush jb), []. }
  destruct (IH jb1 (h ++ hs)) as (rs&jb'&E'&Hj'&E1'&E2'&Hb'); [done|done|lia|done|].
  exists (r :: rs), jb'. cbn [run]. rewrite E. cbn [mbind option_bind]. rewrite E'. cbn [mbind option_bind].
  split_and!; [done..|lia|lia|]. intros p Hp. rewrite (Hb' p Hp), <- Eh. change (handed (r :: rs)) with (omap (fun r => match r with RGet _ (Some (_, mem)) => Some mem | _ => None end) ([r] ++ rs)).
  rewrite omap_app. fold (handed [r]). fold (handed rs). rewrite !jb_occ_app. lia.
Qed.

(** C37: from allocation on, whatever packets are put, got and flushed, and in whatever
    order: the buffer works without touching memory it has not; its count is that of its
    frames, which with those of the pool are always the [max] frames that were allocated,
    each on one list once; every frame's sequence number is before the next one's; and the
    references that were taken on a packet and not released are those of the frames that
    hold it and of the caller that got it. *)
Theorem jbuf_safe min max allocs jb ops : 0 <= min -> 1 <= max < 4294967296 -> jbuf_alloc min max allocs = (0, Some jb) ->
  Forall op_ok ops ->
  exists rs jb', run ops jb = Some (rs, jb') /\
    n jb' = Z.of_nat (length (framel jb')) /\ n jb' + Z.of_nat (length (pooll jb')) = max /\
    NoDup (ids (framel jb' ++ pooll jb')) /\ linked before (framel jb') /\
    (forall p, p <> 0 -> refs p (log jb') = occ p (held jb') + occ p (handed rs)).
Proof.
  intros H0 H1 Ea Ho. destruct (jb_alloc_ok min max allocs 0 jb H0 ltac:(lia) Ea) as (_&Hj&Hb&_&_&E1&E2).
  destruct (run_ok ops jb [] Ho Hj ltac:(lia) Hb) as (rs&jb'&E&[Hs [Hl _] _]&E1'&E2'&Hb').
  exists rs, jb'. rewrite app_nil_r in Hb'. destruct Hs as [Hn Hm _ Hi _]. cbn [app] in Hi. split_and!; try done; [lia|].
  by rewrite Hm, E2', E2.
Qed.

(** ** Specification

    Packets are known by their index in the stream, of which the sequence number is the low
    16 bits; the buffer is a finite map of indices. *)

Definition packet : Type := rtp_header * Z.
Record spec := mk_spec { buf : gmap Z packet; lastput : option Z }.

Definition least (m : gmap Z packet) : option Z :=
  foldr (fun k o => match o with None => Some k | Some j => Some (k `min` j) end) None (map_to_list m).*1.
Definition size_of (m : gmap Z packet) : Z := Z.of_nat (size m).

Inductive iop := IPut (i : Z) (hdr : rtp_header) (mem : Z) | IGet | IFlush.
Definition erase (o : iop) : op := match o with IPut _ hdr mem => Put hdr mem | IGet => Get | IFlush => Flush end.

Definition too_late (i : Z) (s : spec) : bool :=
  match lastput s with Some j => i + size_of (buf s) <? j | None => false end.
Definition make_room (max : Z) (m : gmap Z packet) : gmap Z packet :=
  if size_of m =? max then match least m with Some k => delete k m | None => m end else m.

Definition spec_step (min max : Z) (o : iop) (s : spec) : result * spec :=
  match o with
  | IPut i hdr mem =>
      if too_late i s then (RPut ETIMEDOUT, s) else
      let m := make_room max (buf s) in
      match m !! i with
      | Some _ => (RPut EALREADY, mk_spec m (lastput s))
      | None => (RPut 0, mk_spec (<[i := (hdr, mem)]> m) (Some i))
      end
  | IGet =>
      match least (buf s) with
      | Some k => if min <? size_of (buf s) then (RGet 0 (buf s !! k), mk_spec (delete k (buf s)) (lastput s))
                  else (RGet ENOENT None, s)
      | None => (RGet ENOENT None, s)
      end
  | IFlush => (RFlush, mk_spec ∅ None)
  end.

Fixpoint spec_run (min max : Z) (ops : list iop) (s : spec) : list result * spec :=
  match ops with
  | [] => ([], s)
  | o :: ops => let '(r, s) := spec_step min max o s in let '(rs, s) := spec_run min max ops s in (r :: rs, s)
  end.

(** A packet comes with the sequence number of its index, and less than half the circle
    away from those in the buffer and from the last one put. *)
Definition near (o : iop) (s : spec) : bool :=
  match o with
  | IPut i hdr _ =>
      (Rtp.seq hdr =? u16 i) &&
      forallb (fun j => (Z.abs (i - j) <? 32768)) (map_to_list (buf s)).*1 &&
      match lastput s with
      | Some j => (-32768 <=? i + size_of (buf s) - j) && (i + size_of (buf s) - j <? 32768)
      | None => true
      end
  | _ => true
  end.

Fixpoint near_run (min max : Z) (ops : list iop) (s : spec) : bool :=
  match ops with
  | [] => true
  | o :: ops => near o s && near_run min max ops (spec_step min max o s).2
  end.

(** ** Refinement *)

Definition pay (f : frame) : packet := (f_hdr f, f_mem f).
Definition indexed (k : Z * packet) : Prop := Rtp.seq (k.2).1 = u16 k.1.
Definition increasing (l : list Z) : Prop := StronglySorted Z.lt l.

(** The indices of the frames, one by one. *)
Record reads_as (K : list (Z * packet)) (jb : jbuf) (s : spec) : Prop := {
  ra_pay : K.*2 = map pay (framel jb);
  ra_inc : increasing K.*1;
  ra_seq : Forall indexed K;
  ra_near : forall i j, i ∈ K.*1 -> j ∈ K.*1 -> Z.abs (i - j) < 32768;
  ra_buf : buf s = list_to_map K;
  ra_last : match lastput s with Some j => running jb = true /\ seq_put jb = u16 j | None => running jb = false /\ K = [] end }.

Lemma increasing_nodup l : increasing l -> NoDup l.
Proof.
  induction 1 as [|k l _ IH Hk]; constructor; [|done]. intros Hin. rewrite Forall_forall in Hk. specialize (Hk k Hin). lia.
Qed.

Lemma increasing_app l1 l2 : increasing (l1 ++ l2) <->
  increasing l1 /\ increasing l2 /\ (forall i j, i ∈ l1 -> j ∈ l2 -> i < j).
Proof.
  unfold increasing. induction l1 as [|k l1 IH]; cbn [app].
  - split; [intros; split_and!; [constructor|done|]|tauto]. intros i j Hi. by apply elem_of_nil in Hi.
  - split.
    + intros Hs. apply StronglySorted_inv in Hs as [Hs Hk]. apply IH in Hs as (H1&H2&H3). apply Forall_app in Hk as [Hk1 Hk2].
      split_and!; [by constructor|done|]. intros i j [->|Hi]%elem_of_cons Hj; [|by apply H3].
      rewrite Forall_forall in Hk2. by apply Hk2.
    + intros (H1&H2&H3). apply StronglySorted_inv in H1 as [H1 Hk]. constructor.
      * apply IH. split_and!; [done..|]. intros i j Hi Hj. apply H3; [by right|done].
      * apply Forall_app. split; [done|]. apply Forall_forall. intros j Hj. apply H3; [by left|done].
Qed.

Lemma least_max m : match least m with
  | Some k => is_Some (m !! k) /\ forall j, is_Some (m !! j) -> k <= j
  | None => m = ∅
  end.
Proof.
  unfold least. assert (forall l, match foldr (fun k o => match o with None => Some k | Some j => Some (k `min` j) end) None l with
    | Some k => k ∈ l /\ forall j, j ∈ l -> k <= j | None => l = [] end) as Hl.
  { induction l as [|x l IH]; [done|]. cbn [foldr]. destruct (foldr _ _ l) as [k|].
    - destruct IH as [Hk Hm]. split.
      + destruct (Z.min_spec x k) as [[_ ->]|[_ ->]]; [by left|by right].
      + intros j [->|Hj]%elem_of_cons; [lia|]. specialize (Hm j Hj). lia.
    - subst l. split; [by left|]. intros j Hj. apply list_elem_of_singleton in Hj. lia. }
  specialize (Hl (map_to_list m).*1). destruct (foldr _ _ _) as [k|].
  - assert (forall j, j ∈ (map_to_list m).*1 <-> is_Some (m !! j)) as Hd.
    { intros j. split.
      - intros ([j' p]&->&Hin)%list_elem_of_fmap. apply elem_of_map_to_list in Hin. by exists p.
      - intros [p Hp]. apply list_elem_of_fmap. exists (j, p). split; [done|]. by apply elem_of_map_to_list. }
    destruct Hl as [Hk Hm]. split; [by apply Hd|]. intros j Hj. by apply Hm, Hd.
  - apply fmap_nil_inv in Hl. by apply map_to_list_empty_iff.
Qed.

Lemma list_to_map_is_Some (K : list (Z * packet)) j : is_Some ((list_to_map K : gmap Z packet) !! j) <-> j ∈ K.*1.
Proof.
  split; intros Hj.
  - destruct (decide (j ∈ K.*1)) as [|Hn]; [done|]. apply not_elem_of_list_to_map_1 in Hn. rewrite Hn in Hj. by destruct Hj.
  - destruct ((list_to_map K : gmap Z packet) !! j) eqn:E; [by eexists|]. by apply not_elem_of_list_to_map_2 in E.
Qed.

Lemma least_list (K : list (Z * packet)) : increasing K.*1 -> least (list_to_map K) = head K.*1.
Proof.
  intros Hs. pose proof (least_max (list_to_map K)) as Hl. destruct K as [|[k p] K].
  - destruct (least _) as [k|]; [|done]. destruct Hl as [Hl _]. apply list_to_map_is_Some in Hl. by apply elem_of_nil in Hl.
  - cbn [fmap list_fmap head fst] in *. apply StronglySorted_inv in Hs as [_ Hk]. destruct (least _) as [k'|].
    + destruct Hl as [Hk' Hm]. f_equal. apply list_to_map_is_Some in Hk'. cbn in Hk'.
      assert (k' <= k) by (apply Hm, list_to_map_is_Some; by left). apply elem_of_cons in Hk' as [->|Hk']; [done|].
      rewrite Forall_forall in Hk. specialize (Hk k' Hk'). lia.
    + exfalso. assert ((list_to_map ((k, p) :: K) : gmap Z packet) !! k = Some p) as E by (cbn; by rewrite lookup_insert_eq).
      by rewrite Hl, lookup_empty in E.
Qed.

Lemma size_list (K : list (Z * packet)) : increasing K.*1 -> size_of (list_to_map K) = Z.of_nat (length K).
Proof. intros Hs. unfold size_of. by rewrite map_size_list_to_map by by apply increasing_nodup. Qed.

Lemma least_empty : least ∅ = None.
Proof. done. Qed.

Lemma u16_near i j : Z.abs (i - j) < 32768 -> u16 i = u16 j -> i = j.
Proof.
  intros Hd. unfold u16. rewrite (Z.mod_eq i), (Z.mod_eq j) by lia. lia.
Qed.

Lemma seq_less_index x y i j : x = u16 i -> y = u16 j -> -32768 <= i - j < 32768 -> seq_less x y = (i <? j).
Proof.
  intros -> -> Hd. rewrite <- (seq_less_near i j Hd). destruct (seq_less_u16 i (u16 j)) as [-> _]. by destruct (seq_less_u16 i j).
Qed.

(** The frames of a part of the buffer. *)
Lemma pay_app (K : list (Z * packet)) l r : K.*2 = map pay (l ++ r) ->
  exists Kl Kr, K = Kl ++ Kr /\ Kl.*2 = map pay l /\ Kr.*2 = map pay r.
Proof.
  rewrite map_app. intros E. revert K E.
  induction l as [|f l IH]; intros K E; [by exists [], K|]. destruct K as [|k K]; [done|]. injection E as Ek E.
  destruct (IH K) as (Kl&Kr&->&E1&E2); [done|]. exists (k :: Kl), Kr. split_and!; [done| |done]. cbn. by rewrite E1, Ek.
Qed.

Lemma pay_length (K : list (Z * packet)) l : K.*2 = map pay l -> length K = length l.
Proof. intros E. by rewrite <- (length_fmap snd K), E, length_map. Qed.

(** A frame and its index. *)
Lemma pay_at (K : list (Z * packet)) l g : K.*2 = map pay l -> Forall indexed K -> g ∈ l ->
  exists j, j ∈ K.*1 /\ fseq g = u16 j.
Proof.
  revert l. induction K as [|k K IH]; intros [|f l] E Hs Hg; try done; [by apply elem_of_nil in Hg|].
  injection E as Ek E. apply Forall_cons in Hs as [Hk Hs]. apply elem_of_cons in Hg as [->|Hg].
  - exists k.1. split; [by left|]. red in Hk. rewrite <- Hk, Ek. done.
  - destruct (IH l E Hs Hg) as (j&Hj&Ej). exists j. split; [by right|done].
Qed.

Lemma pay_passed (K : list (Z * packet)) l i : K.*2 = map pay l -> Forall indexed K ->
  (forall j, j ∈ K.*1 -> Z.abs (i - j) < 32768) -> passed (u16 i) l -> forall j, j ∈ K.*1 -> i < j.
Proof.
  revert l. induction K as [|k K IH]; intros [|f l] E Hs Hn Hp j Hj; try done; [by apply elem_of_nil in Hj|].
  injection E as Ek E. apply Forall_cons in Hs as [Hk Hs], Hp as [[Hp1 Hp2] Hp].
  apply elem_of_cons in Hj as [->|Hj].
  - assert (fseq f = u16 k.1) as Ef by (red in Hk; rewrite <- Hk, Ek; done). specialize (Hn k.1 ltac:(by left)).
    destruct (Z.eq_dec i k.1) as [->|]; [done|].
    rewrite (seq_less_index _ _ k.1 i Ef eq_refl) in Hp1 by lia. apply Z.ltb_ge in Hp1. lia.
  - apply (IH l E Hs); [|done|done]. intros j' Hj'. apply Hn. by right.
Qed.

(** ** Making room *)

Definition roomK (max : Z) (K : list (Z * packet)) : list (Z * packet) := if Z.of_nat (length K) =? max then tail K else K.

Lemma make_room_list max (K : list (Z * packet)) : increasing K.*1 ->
  make_room max (list_to_map K) = list_to_map (roomK max K) /\ increasing (roomK max K).*1 /\ (forall j, j ∈ (roomK max K).*1 -> j ∈ K.*1) /\
  (forall P : Z * packet -> Prop, Forall P K -> Forall P (roomK max K)).
Proof.
  intros Hs. unfold make_room, roomK. rewrite size_list by done. destruct (_ =? max); [|done]. rewrite least_list by done.
  destruct K as [|[k p] K]; [done|]. cbn [fmap list_fmap head fst tail] in *. pose proof (increasing_nodup _ Hs) as Hnd.
  apply StronglySorted_inv in Hs as [Hs _]. apply NoDup_cons in Hnd as [Hk _]. split_and!; [|done|by right|].
  - cbn. rewrite delete_insert_id; [done|]. by apply not_elem_of_list_to_map_1.
  - intros P HP. by apply Forall_cons in HP as [_ HP].
Qed.

Lemma room_pay jb K : jbuf_ok jb -> 1 <= jmax jb -> K.*2 = map pay (framel jb) -> (roomK (jmax jb) K).*2 = map pay (room jb).
Proof.
  intros [[Hn Hm _ _ _] _ _] H1 E. pose proof (pay_length _ _ E) as Hl. unfold roomK, room.
  destruct (pooll jb) as [|f pool]; cbn [length] in Hm.
  - destruct (Z.eqb_spec (Z.of_nat (length K)) (jmax jb)); [|lia]. destruct K, (framel jb); try done. by injection E.
  - destruct (Z.eqb_spec (Z.of_nat (length K)) (jmax jb)); [lia|done].
Qed.

Lemma pay_last (K : list (Z * packet)) l i : K.*2 = map pay l -> Forall indexed K -> increasing K.*1 ->
  (forall j, j ∈ K.*1 -> Z.abs (i - j) < 32768) ->
  match last l with Some g => seq_less (fseq g) (u16 i) = true | None => True end -> forall j, j ∈ K.*1 -> j < i.
Proof.
  intros E Hs Hinc Hn Hg j Hj. destruct l as [|g l _] using rev_ind.
  { apply pay_length in E. destruct K; [by apply elem_of_nil in Hj|done]. }
  rewrite last_snoc in Hg. destruct (pay_app K l [g] E) as (Kl&Kr&->&El&Er).
  destruct Kr as [|k [|]]; try done. injection Er as Ek. apply Forall_app in Hs as [_ Hk]. apply Forall_cons in Hk as [Hk _].
  rewrite fmap_app in Hinc. apply increasing_app in Hinc as (_&_&Hlt). cbn [fmap list_fmap] in Hlt.
  assert (k.1 < i) as Hki.
  { specialize (Hn k.1). rewrite fmap_app in Hn. specialize (Hn ltac:(apply elem_of_app; right; by left)).
    rewrite (seq_less_index _ _ k.1 i) in Hg; [by apply Z.ltb_lt| |done|lia]. red in Hk. rewrite <- Hk, Ek. done. }
  rewrite fmap_app in Hj. apply elem_of_app in Hj as [Hj|Hj].
  - specialize (Hlt j k.1 Hj ltac:(by left)). lia.
  - cbn in Hj. apply list_elem_of_singleton in Hj. lia.
Qed.

Lemma near_abs i hdr mem s : near (IPut i hdr mem) s = true ->
  Rtp.seq hdr = u16 i /\ (forall j, is_Some (buf s !! j) -> Z.abs (i - j) < 32768) /\
  (forall j, lastput s = Some j -> -32768 <= i + size_of (buf s) - j < 32768).
Proof.
  cbn [near]. rewrite !andb_true_iff, Z.eqb_eq. intros ((E&Ha)&Hl). split_and!; [done| |].
  - intros j [p Hj]. rewrite forallb_forall in Ha. apply Z.ltb_lt, Ha, list_elem_of_In, list_elem_of_fmap. exists (j, p).
    split; [done|]. by apply elem_of_map_to_list.
  - intros j Ej. rewrite Ej, andb_true_iff in Hl. lia.
Qed.

Lemma late_refines K jb s i hdr mem : reads_as K jb s -> jbuf_ok jb -> near (IPut i hdr mem) s = true ->
  running jb && seq_less (Rtp.seq hdr + n jb) (seq_put jb) = too_late i s.
Proof.
  intros [Hp Hi _ _ Hb Hl] [[Hn _ _ _ _] _ _] (E&_&Hj)%near_abs. unfold too_late.
  destruct (lastput s) as [j|]; [|by destruct Hl as [-> _]]. destruct Hl as [-> ->]. cbn [andb].
  specialize (Hj j eq_refl). rewrite Hb, size_list, (pay_length _ _ Hp) in * by done. rewrite E.
  replace (n jb) with (Z.of_nat (length (framel jb))) by lia. set (k := Z.of_nat _) in *.
  destruct (seq_less_u16 (u16 i + k) (u16 j)) as [<- _]. apply seq_less_index; [|done|done].
  unfold u16. by rewrite Z.add_mod_idemp_l.
Qed.

Lemma reads_as_empty jb : framel jb = [] -> running jb = false -> reads_as [] jb (mk_spec ∅ None).
Proof.
  intros Ef Er. constructor; [by rewrite Ef|change (increasing []); constructor|constructor| |done|done].
  intros i j Hi. by apply elem_of_nil in Hi.
Qed.

(** Puts, step by step. *)
Lemma sim_put K jb s hs i hdr mem : reads_as K jb s -> jbuf_ok jb -> 1 <= jmax jb -> balanced jb hs ->
  near (IPut i hdr mem) s = true ->
  exists e jb' K', jbuf_put jb hdr mem = Some (e, jb') /\ jbuf_ok jb' /\ balanced jb' hs /\ jmin jb' = jmin jb /\ jmax jb' = jmax jb /\
    (spec_step (jmin jb) (jmax jb) (IPut i hdr mem) s).1 = RPut e /\
    reads_as K' jb' (spec_step (jmin jb) (jmax jb) (IPut i hdr mem) s).2.
Proof.
  intros HR Hj H1 Hb Hn. pose proof (near_abs _ _ _ _ Hn) as (E&Ha&_).
  destruct (jb_put_ok jb hdr mem hs Hj H1) as (e&jb'&Ep&Hj'&Hb'&E1&E2&Hc); [|done|].
  { red. rewrite E. apply u16_range. }
  pose proof (late_refines K jb s i hdr mem HR Hj Hn) as Elate. destruct HR as [Hp Hi Hs Hnear Hbuf Hl].
  rewrite Hbuf in Ha. setoid_rewrite list_to_map_is_Some in Ha.
  exists e, jb'. cbn [spec_step]. rewrite <- Elate, Hbuf. destruct (make_room_list (jmax jb) K Hi) as (Em&Hi'&Hsub&Hall).
  pose proof (room_pay jb K Hj H1 Hp) as Hp'. set (KR := roomK (jmax jb) K) in *. rewrite Em.
  assert (forall x y, x ∈ KR.*1 -> y ∈ KR.*1 -> Z.abs (x - y) < 32768) as Hnear' by (intros x y ??; apply Hnear; by apply Hsub).
  specialize (Hall indexed Hs). destruct Hc as [He Hla Hf Hr Hq|g He Hla Hf Hg Eg Hr Hq|x l r He Hla Hlr Hf Hg Hps Hr Hq].
  - exists K. subst e. rewrite Hla. split_and!; try done. constructor; try done; [by rewrite Hf|]. by rewrite Hr, Hq.
  - exists KR. subst e. rewrite Hla. destruct (pay_at KR (room jb) g Hp' Hall Hg) as (j&Hj0&Ej).
    assert (i = j) as -> by (apply u16_near; [by apply Ha, Hsub|congruence]).
    assert (is_Some ((list_to_map KR : gmap Z packet) !! j)) as [p ->] by by apply list_to_map_is_Some.
    split_and!; try done. constructor; cbn [snd buf lastput]; try done; [by rewrite Hf|].
    rewrite Hr, Hq. destruct (lastput s); [done|]. destruct Hl as [? ->]. split; [done|]. unfold KR, roomK. by destruct (_ =? _).
  - subst e. rewrite Hla. rewrite Hlr in Hp'. rewrite E in Hg, Hps. destruct (pay_app KR l r Hp') as (Kl&Kr&EK&El&Er).
    rewrite EK in *. apply Forall_app in Hall as [Hal Har]. rewrite !fmap_app in *. apply increasing_app in Hi' as (Hil&Hir&Hilr).
    assert (forall j, j ∈ Kl.*1 -> j < i) as Hli by (apply (pay_last Kl l i); try done; intros j Hjl; apply Ha, Hsub, elem_of_app; by left).
    assert (forall j, j ∈ Kr.*1 -> i < j) as Hri by (apply (pay_passed Kr r i); try done; intros j Hjr; apply Ha, Hsub, elem_of_app; by right).
    assert (i ∉ (Kl ++ Kr).*1) as Hnew.
    { rewrite fmap_app. intros [Hx|Hx]%elem_of_app; [specialize (Hli i Hx)|specialize (Hri i Hx)]; lia. }
    pose proof (not_elem_of_list_to_map_1 (M := gmap Z) (Kl ++ Kr) i Hnew) as ->. exists (Kl ++ (i, (hdr, mem)) :: Kr).
    split_and!; try done.
    assert (increasing (Kl.*1 ++ i :: Kr.*1)) as Hinc.
    { apply increasing_app. split_and!; [done| |].
      - constructor; [done|]. apply Forall_forall. auto.
      - intros a b Ha1 [->|Hb1]%elem_of_cons; [by apply Hli|by apply Hilr]. }
    constructor; cbn [snd buf lastput].
    + by rewrite fmap_app, fmap_cons, Hf, map_app, El, Er.
    + by rewrite fmap_app.
    + apply Forall_app. split; [done|]. by constructor.
    + assert (forall x, x ∈ (Kl ++ (i, (hdr, mem)) :: Kr).*1 -> x = i \/ x ∈ Kl.*1 ++ Kr.*1) as Hin.
      { intros z Hz. rewrite fmap_app in Hz. cbn [fmap list_fmap fst] in Hz. rewrite elem_of_app, elem_of_cons in Hz.
        rewrite elem_of_app. tauto. }
      intros a b [->|Ha1]%Hin [->|Hb1]%Hin; [lia|by apply Ha, Hsub| |by apply Hnear'].
      specialize (Ha a (Hsub a Ha1)). lia.
    + change (<[i:=(hdr, mem)]> (list_to_map (Kl ++ Kr) : gmap Z packet)) with (list_to_map ((i, (hdr, mem)) :: Kl ++ Kr) : gmap Z packet).
      apply list_to_map_proper; [|apply Permutation_middle]. cbn [fmap list_fmap fst]. constructor; [done|].
      rewrite fmap_app. apply increasing_nodup, increasing_app. done.
    + by rewrite Hr, Hq, E.
Qed.

Lemma sim_get K jb s hs : reads_as K jb s -> jbuf_ok jb -> balanced jb hs ->
  let '(e, pkt, jb') := jbuf_get jb in
  exists K' hs', jbuf_ok jb' /\ balanced jb' hs' /\ jmin jb' = jmin jb /\ jmax jb' = jmax jb /\
    (spec_step (jmin jb) (jmax jb) IGet s).1 = RGet e pkt /\ reads_as K' jb' (spec_step (jmin jb) (jmax jb) IGet s).2.
Proof.
  intros [Hp Hi Hs Hnear Hbuf Hl] Hj Hb. pose proof (get_ok jb hs Hj Hb) as Hg. destruct (jbuf_get jb) as [[e pkt] jb'].
  destruct Hg as (Hj'&E1&E2&E3&E4&Hg). cbn [spec_step]. rewrite Hbuf, least_list, size_list, (pay_length _ _ Hp) by done.
  pose proof (co_n _ _ _ (ok_shape _ Hj)) as Hn.
  destruct (framel jb) as [|f rest].
  - destruct K as [|k K]; [|done]. destruct Hg as (->&->&Ef&Hb'). exists [], hs. split_and!; try done.
    constructor; cbn [snd]; try done; [by rewrite Ef|]. by rewrite E3, E4.
  - destruct K as [|[k p] K]; [done|]. cbn [fmap list_fmap head fst]. injection Hp as -> Hp.
    replace (n jb) with (Z.of_nat (length (f :: rest))) in Hg by lia.
    destruct (Z.leb_spec (Z.of_nat (length (f :: rest))) (jmin jb)).
    + destruct Hg as (->&->&Ef&Hb'). exists ((k, pay f) :: K), hs. rewrite (proj2 (Z.ltb_ge _ _)) by done. split_and!; try done.
      constructor; cbn [snd]; try done; [rewrite Ef; cbn [map]; rewrite <- Hp; done|]. by rewrite E3, E4.
    + destruct Hg as (->&->&Ef&Hb'). exists K, (f_mem f :: hs). rewrite (proj2 (Z.ltb_lt _ _)) by done.
      apply Forall_cons in Hs as [_ Hs]. pose proof (increasing_nodup _ Hi) as Hnd. apply NoDup_cons in Hnd as [Hk _].
      apply StronglySorted_inv in Hi as [Hi _]. cbn [list_to_map]. split_and!; try done.
      * cbn [fst foldr]. do 2 f_equal. apply lookup_insert_eq.
      * constructor; cbn [snd buf lastput]; try done.
        -- by rewrite Ef.
        -- intros a c Ha Hc. apply Hnear; by right.
        -- change (list_to_map ((k, pay f) :: K) : gmap Z packet) with (<[k := pay f]> (list_to_map K : gmap Z packet)).
           rewrite delete_insert_id; [done|]. by apply not_elem_of_list_to_map_1.
        -- rewrite E3, E4. destruct (lastput s); [done|]. by destruct Hl.
Qed.

Lemma sim_run ops : forall K jb s hs, reads_as K jb s -> jbuf_ok jb -> 1 <= jmax jb -> balanced jb hs ->
  near_run (jmin jb) (jmax jb) ops s = true ->
  exists jb' K', run (map erase ops) jb = Some ((spec_run (jmin jb) (jmax jb) ops s).1, jb') /\
    reads_as K' jb' (spec_run (jmin jb) (jmax jb) ops s).2.
Proof.
  induction ops as [|o ops IH]; intros K jb s hs HR Hj H1 Hb Hn; [by exists jb, K|].
  cbn [near_run] in Hn. apply andb_true_iff in Hn as [Ho Hn].
  assert (exists r jb1 K1 hs1, step (erase o) jb = Some (r, jb1) /\ jbuf_ok jb1 /\ balanced jb1 hs1 /\ jmin jb1 = jmin jb /\
    jmax jb1 = jmax jb /\ (spec_step (jmin jb) (jmax jb) o s).1 = r /\ reads_as K1 jb1 (spec_step (jmin jb) (jmax jb) o s).2)
    as (r&jb1&K1&hs1&E&Hj1&Hb1&E1&E2&Er&HR1).
  { destruct o as [i hdr mem| |]; cbn [erase step].
    - destruct (sim_put K jb s hs i hdr mem HR Hj H1 Hb Ho) as (e&jb1&K1&->&?&?&?&?&?&?). by exists (RPut e), jb1, K1, hs.
    - pose proof (sim_get K jb s hs HR Hj Hb) as Hg. destruct (jbuf_get jb) as [[e pkt] jb1].
      destruct Hg as (K1&hs1&?&?&?&?&?&?). by exists (RGet e pkt), jb1, K1, hs1.
    - destruct (flush_ok jb hs Hj Hb) as (?&?&Ef&Er&?&?). exists RFlush, (jbuf_flush jb), [], hs. split_and!; try done.
      by apply reads_as_empty. }
  cbn [map run spec_run]. rewrite E. cbn [mbind option_bind].
  destruct (spec_step (jmin jb) (jmax jb) o s) as [r0 s1]. cbn [fst snd] in *. subst r0.
  rewrite <- E1, <- E2 in Hn |- *. destruct (IH K1 jb1 s1 hs1 HR1 Hj1 ltac:(lia) Hb1 Hn) as (jb'&K'&E'&HR').
  exists jb', K'. rewrite E'. cbn [mbind option_bind]. by destruct (spec_run _ _ ops s1).
Qed.

(** C38: as long as every packet's index is less than half the circle of sequence numbers
    away from the indices in the buffer, the buffer answers every put, get and flush as the
    finite map of indices does: a packet too far behind the last one is refused, a full
    buffer loses its least index, an index that is there is refused, and the packet got is
    the one of the least index, however often the 16-bit numbers wrapped. *)
Theorem jbuf_refines min max allocs jb ops : 0 <= min -> 1 <= max < 4294967296 -> jbuf_alloc min max allocs = (0, Some jb) ->
  near_run min max ops (mk_spec ∅ None) = true ->
  exists jb' K, run (map erase ops) jb = Some ((spec_run min max ops (mk_spec ∅ None)).1, jb') /\
    map pay (framel jb') = K.*2 /\ increasing K.*1 /\
    buf (spec_run min max ops (mk_spec ∅ None)).2 = list_to_map K.
Proof.
  intros H0 H1 Ea Hn. destruct (jb_alloc_ok min max allocs 0 jb H0 ltac:(lia) Ea) as (_&Hj&Hb&Ef&Er&E1&E2). rewrite <- E1, <- E2 in Hn |- *.
  pose proof (reads_as_empty jb Ef Er) as HR.
  destruct (sim_run ops [] jb (mk_spec ∅ None) [] HR Hj ltac:(lia) Hb Hn) as (jb'&K&E&[? ? _ _ ? _]). by exists jb', K.
Qed.

(** ** Concrete runs *)

Definition exj_hdr (i : Z) : rtp_header := mk_rtp 2 false false 0 false 0 (u16 i) 0 0 [] 0 0.
Definition exj_put (i : Z) : iop := IPut i (exj_hdr i) (i + 1).
(** Across the wrap of the numbers, out of order, with a duplicate and an overflow. *)
Definition exj_ops : list iop :=
  [exj_put 65534; exj_put 65537; exj_put 65535; exj_put 65535; exj_put 65538; IGet; exj_put 65600; exj_put 65000; IGet; IFlush; IGet].
Definition exj_jb : jbuf := mk_jbuf (map new_frame [0; 1; 2]) [] 0 1 3 0 false 0 zero_stat [].

Example exj_alloc : jbuf_alloc 1 3 [] = (0, Some exj_jb).
Proof. reflexivity. Qed.
Example exj_codes : map (fun r => match r with RPut e => (e, 0) | RGet e (Some (_, p)) => (e, p) | RGet e None => (e, -1) | RFlush => (0, -2) end)
    (spec_run 1 3 exj_ops (mk_spec ∅ None)).1 =
  [(0, 0); (0, 0); (0, 0); (EALREADY, 0); (0, 0); (0, 65536); (0, 0); (ETIMEDOUT, 0); (0, 65538); (0, -2); (ENOENT, -1)].
Proof. vm_compute. reflexivity. Qed.

Lemma jbuf_safe_witness : exists rs jb', run (map erase exj_ops) exj_jb = Some (rs, jb') /\ n jb' + Z.of_nat (length (pooll jb')) = 3.
Proof.
  destruct (jbuf_safe 1 3 [] exj_jb (map erase exj_ops)) as (rs&jb'&E&_&Hp&_); [lia|lia|exact exj_alloc| |by exists rs, jb'].
  repeat constructor; cbn; try discriminate.
Defined.

Lemma jbuf_refines_witness : exists jb', run (map erase exj_ops) exj_jb = Some ((spec_run 1 3 exj_ops (mk_spec ∅ None)).1, jb').
Proof.
  destruct (jbuf_refines 1 3 [] exj_jb exj_ops) as (jb'&K&E&_); [lia|lia|exact exj_alloc|by vm_compute|by exists jb'].
Defined.

(** A buffer of no frames is allocated, and the first packet put dereferences NULL. *)
Example no_frames : exists jb, jbuf_alloc 0 0 [] = (0, Some jb) /\ jbuf_put jb (exj_hdr 1) 1 = None.
Proof. eexists. split; reflexivity. Qed.

(** A packet that comes twice to a full buffer is refused the second time, and the oldest
    packet is lost although no room was needed. *)
Example duplicate_evicts : (spec_run 0 2 [exj_put 1; exj_put 2; exj_put 2; IGet] (mk_spec ∅ None)).1 =
  [RPut 0; RPut 0; RPut EALREADY; RGet 0 (Some (exj_hdr 2, 3))].
Proof. vm_compute. reflexivity. Qed.

(** A packet that was played is played again when it comes again while later ones wait. *)
Example played_again : (spec_run 0 4 [exj_put 5; exj_put 6; exj_put 7; IGet; IGet; exj_put 6; IGet] (mk_spec ∅ None)).1 =
  [RPut 0; RPut 0; RPut 0; RGet 0 (Some (exj_hdr 5, 6)); RGet 0 (Some (exj_hdr 6, 7)); RPut 0; RGet 0 (Some (exj_hdr 6, 7))].
Proof. vm_compute. reflexivity. Qed.

End Jbuf.
