(* ===== verification/Replay.v ===== *)
(** * Replay protection of secure RTP: src/libre/src/srtp/replay.c, srtp/misc.c (index)

    Indices and the bitmap are 64-bit integers.  The null checks of the arguments are left
    out. *)
From stdpp Require Import base list.
From S2P Require Import Prelude.

Module Replay.

Definition SRTP_WINDOW_SIZE : Z := 64.

Record replay := mk_replay { bitmap : Z; lix : Z }.

Definition srtp_replay_init : replay := mk_replay 0 0.

Definition srtp_replay_check (r : replay) (ix : Z) : bool * replay :=
  if lix r <? ix then
    let diff := u64 (ix - lix r) in
    let b := if diff <? SRTP_WINDOW_SIZE then Z.lor (u64 (Z.shiftl (bitmap r) diff)) 1 else 1 in
    (true, mk_replay b ix)
  else
    let diff := u64 (lix r - ix) in
    if SRTP_WINDOW_SIZE <=? diff then (false, r)
    else if negb (Z.land (bitmap r) (u64 (Z.shiftl 1 diff)) =? 0) then (false, r)
    else (true, mk_replay (Z.lor (bitmap r) (u64 (Z.shiftl 1 diff))) (lix r)).

(** The index of a packet from the roll-over counter and the highest sequence number.  The
    multiplication is one of ints: past their range the result is undefined. *)
Definition srtp_get_index (roc s_l seq : Z) : option Z :=
  let v := if s_l <? 32768 then (if 32768 <? seq - s_l then s32 (u32 (roc - 1)) else s32 roc)
           else (if seq <? s_l - 32768 then s32 (u32 (roc + 1)) else s32 roc) in
  let p := v * 65536 in
  if (p <? -2147483648) || (2147483647 <? p) || (2147483647 <? seq + p) then None else Some (u64 (seq + p)).

(** ** Reference: the set of the indices that were accepted *)

Definition highest (seen : list Z) : Z := foldr Z.max 0 seen.

Definition permitted (seen : list Z) (ix : Z) : bool :=
  (highest seen <? ix + SRTP_WINDOW_SIZE) && negb (existsb (Z.eqb ix) seen).

Fixpoint reference (ixs seen : list Z) : list bool :=
  match ixs with
  | [] => []
  | ix :: ixs => let ok := permitted seen ix in ok :: reference ixs (if ok then ix :: seen else seen)
  end.

Fixpoint check_all (ixs : list Z) (r : replay) : list bool :=
  match ixs with
  | [] => []
  | ix :: ixs => let '(ok, r) := srtp_replay_check r ix in ok :: check_all ixs r
  end.

(** ** The bitmap is the window on the set *)

Record window (r : replay) (seen : list Z) : Prop := {
  w_lix : lix r = highest seen;
  w_bits : forall d, 0 <= d < 64 -> Z.testbit (bitmap r) d = existsb (Z.eqb (lix r - d)) seen;
  w_range : 0 <= bitmap r < 18446744073709551616 /\ lix r < 18446744073709551616 }.

Lemma highest_max seen x : In x seen -> x <= highest seen.
Proof. induction seen as [|y seen IH]; [done|]. cbn [highest foldr]. fold (highest seen). intros [->|Hx]; [|specialize (IH Hx)]; lia. Qed.

Lemma highest_nonneg seen : 0 <= highest seen.
Proof. induction seen as [|y seen IH]; cbn [highest foldr]; [lia|]. fold (highest seen). lia. Qed.

Lemma existsb_above seen x : highest seen < x -> existsb (Z.eqb x) seen = false.
Proof.
  intros Hx. destruct (existsb _ _) eqn:E; [|done]. apply existsb_exists in E as (y&Hy&->%Z.eqb_eq). apply highest_max in Hy. lia.
Qed.

Lemma u64_testbit z d : 0 <= d < 64 -> Z.testbit (u64 z) d = Z.testbit z d.
Proof. intros Hd. unfold u64. change 18446744073709551616 with (2 ^ 64). apply Z.mod_pow2_bits_low. lia. Qed.

Lemma u64_bit d : 0 <= d < 64 -> u64 (Z.shiftl 1 d) = 2 ^ d.
Proof.
  intros Hd. rewrite Z.shiftl_1_l, u64_small; [done|]. split; [apply Z.pow_nonneg; lia|].
  change 18446744073709551616 with (2 ^ 64). apply Z.pow_lt_mono_r; lia.
Qed.

Lemma lor_u64 a b : 0 <= a < 18446744073709551616 -> 0 <= b < 18446744073709551616 -> 0 <= Z.lor a b < 18446744073709551616.
Proof.
  intros [Ha1 Ha2] [Hb1 Hb2]. change 18446744073709551616 with (2 ^ 64) in *. split; [by apply Z.lor_nonneg|].
  destruct (Z.eq_dec (Z.lor a b) 0) as [->|]; [done|]. pose proof (proj2 (Z.lor_nonneg a b) (conj Ha1 Hb1)).
  apply Z.log2_lt_pow2; [lia|]. rewrite Z.log2_lor by done. apply Z.max_lub_lt.
  - destruct (Z.eq_dec a 0) as [->|]; [done|]. apply Z.log2_lt_pow2; lia.
  - destruct (Z.eq_dec b 0) as [->|]; [done|]. apply Z.log2_lt_pow2; lia.
Qed.

Lemma land_bit_zero a d : 0 <= d -> (Z.land a (2 ^ d) =? 0) = negb (Z.testbit a d).
Proof.
  intros Hd. destruct (Z.testbit a d) eqn:E; cbn [negb].
  - apply Z.eqb_neq. intros H0. assert (Z.testbit (Z.land a (2 ^ d)) d = true) as Ht by (rewrite Z.land_spec, E, Z.pow2_bits_true by done; done).
    by rewrite H0, Z.bits_0 in Ht.
  - apply Z.eqb_eq, Z.bits_inj'. intros n Hn. rewrite Z.land_spec, Z.bits_0, (Z.pow2_bits_eqb d n Hd).
    destruct (Z.eqb_spec d n) as [->|]; [by rewrite E|apply andb_false_r].
Qed.

Lemma window_empty : window srtp_replay_init [].
Proof. constructor; [done| |cbn; lia]. intros d _. apply Z.bits_0. Qed.

Lemma check_window r seen ix : window r seen -> 0 <= ix < 18446744073709551616 ->
  (srtp_replay_check r ix).1 = permitted seen ix /\
  window (srtp_replay_check r ix).2 (if permitted seen ix then ix :: seen else seen).
Proof.
  intros [Hl Hb [Hr Hlr]] Hix. pose proof (highest_nonneg seen) as Hh0. unfold srtp_replay_check, permitted, SRTP_WINDOW_SIZE.
  destruct (Z.ltb_spec (lix r) ix) as [Hlt|Hge].
  - rewrite existsb_above by lia. rewrite (proj2 (Z.ltb_lt (highest seen) (ix + 64))) by lia. cbn [negb andb fst snd]. split; [done|].
    rewrite u64_small by lia. constructor; cbn [lix bitmap].
    + cbn [highest foldr]. fold (highest seen). lia.
    + intros d Hd. cbn [existsb]. destruct (Z.ltb_spec (ix - lix r) 64) as [Hw|Hw].
      * rewrite Z.lor_spec, u64_testbit, Z.shiftl_spec by lia. destruct (Z.eq_dec d 0) as [->|Hd0].
        { rewrite Z.sub_0_r, Z.eqb_refl. apply orb_true_r. }
        change 1 with (2 ^ 0) at 1. rewrite (Z.pow2_bits_false 0 d), orb_false_r by lia.
        rewrite (proj2 (Z.eqb_neq (ix - d) ix)) by lia. cbn [orb]. destruct (Z.lt_ge_cases d (ix - lix r)).
        -- rewrite Z.testbit_neg_r, existsb_above by lia. done.
        -- rewrite Hb by lia. f_equal. f_equal. lia.
      * destruct (Z.eq_dec d 0) as [->|Hd0]; [by rewrite Z.sub_0_r, Z.eqb_refl|].
        change 1 with (2 ^ 0) at 1. rewrite (Z.pow2_bits_false 0 d) by lia.
        rewrite (proj2 (Z.eqb_neq (ix - d) ix)) by lia. cbn [orb]. symmetry. apply existsb_above. lia.
    + split; [|lia]. destruct (_ <? 64); [|lia]. apply lor_u64; [apply u64_range|lia].
  - rewrite u64_small by lia. destruct (Z.leb_spec 64 (lix r - ix)) as [Ho|Hin].
    + rewrite (proj2 (Z.ltb_ge (highest seen) (ix + 64))) by lia. by split.
    + rewrite (proj2 (Z.ltb_lt (highest seen) (ix + 64))) by lia. cbn [andb]. rewrite u64_bit, land_bit_zero by lia.
      rewrite Hb by lia. replace (lix r - (lix r - ix)) with ix by lia. rewrite negb_involutive.
      destruct (existsb (Z.eqb ix) seen) eqn:Ee; cbn [negb fst snd]; split; try done.
      constructor; cbn [lix bitmap].
      * cbn [highest foldr]. fold (highest seen). lia.
      * intros d Hd. cbn [existsb]. rewrite Z.lor_spec, Z.pow2_bits_eqb, Hb by lia. rewrite orb_comm. f_equal.
        destruct (Z.eqb_spec (lix r - ix) d), (Z.eqb_spec (lix r - d) ix); lia || done.
      * split; [|lia]. apply lor_u64; [lia|]. split; [apply Z.pow_nonneg; lia|].
        change 18446744073709551616 with (2 ^ 64). apply Z.pow_lt_mono_r; lia.
Qed.

(** C39: of any sequence of packets, the window lets the same ones through as a filter that
    remembers every index it accepted: a packet is permitted when its index was not accepted
    before and is less than 64 behind the highest one that was. *)
Theorem replay_exact ixs : Forall (fun ix => 0 <= ix < 18446744073709551616) ixs ->
  check_all ixs srtp_replay_init = reference ixs [].
Proof.
  revert ixs. assert (forall ixs seen r, window r seen -> Forall (fun ix => 0 <= ix < 18446744073709551616) ixs ->
    check_all ixs r = reference ixs seen) as Hg; [|intros ixs; apply Hg, window_empty].
  induction ixs as [|ix ixs IH]; intros seen r Hw Hi; [done|].
  apply Forall_cons in Hi as [Hix Hi]. destruct (check_window r seen ix Hw Hix) as [E Hw']. cbn [check_all reference].
  destruct (srtp_replay_check r ix) as [ok r']. cbn [fst snd] in *. subst ok. f_equal. by apply IH.
Qed.

(** ** The index *)

(** The roll-over counter that brings the packet nearest to the highest one received. *)
Definition nearest (roc s_l seq v : Z) : Prop :=
  Z.abs (v * 65536 + seq - (roc * 65536 + s_l)) <= 32768.

(** While the counter leaves room for a 32-bit product, the index is the one whose low
    bits are the sequence number and that is at most half the circle away from the highest
    index received; only on a tie is there another. *)
Theorem srtp_index_nearest roc s_l seq : 1 <= roc < 32767 -> 0 <= s_l < 65536 -> 0 <= seq < 65536 ->
  exists v, srtp_get_index roc s_l seq = Some (v * 65536 + seq) /\ nearest roc s_l seq v /\
    (forall v', nearest roc s_l seq v' -> v' = v \/ Z.abs (v' * 65536 + seq - (roc * 65536 + s_l)) = 32768).
Proof.
  intros Hr Hs Hq. unfold srtp_get_index, nearest.
  set (v := if s_l <? 32768 then if 32768 <? seq - s_l then roc - 1 else roc else if seq <? s_l - 32768 then roc + 1 else roc).
  assert ((if s_l <? 32768 then (if 32768 <? seq - s_l then s32 (u32 (roc - 1)) else s32 roc)
           else (if seq <? s_l - 32768 then s32 (u32 (roc + 1)) else s32 roc)) = v) as ->.
  { unfold v. rewrite (u32_small (roc - 1)), (u32_small (roc + 1)), !s32_small by lia. done. }
  assert (0 <= v <= 32767 /\ Z.abs (v * 65536 + seq - (roc * 65536 + s_l)) <= 32768) as [Hv Hn].
  { unfold v. zcase; lia. }
  exists v. rewrite (proj2 (Z.ltb_ge _ _)) by lia. rewrite (proj2 (Z.ltb_ge _ _)) by lia. rewrite (proj2 (Z.ltb_ge _ _)) by lia.
  cbn [orb]. rewrite u64_small by lia. split; [f_equal; lia|]. split; [done|]. intros v' Hn'.
  destruct (Z.eq_dec v v') as [->|]; [by left|right]. lia.
Qed.

(** ** Concrete packets *)

Lemma replay_exact_witness : check_all [5; 3; 5; 70; 6; 7; 200; 137; 136] srtp_replay_init = [true; true; false; true; false; true; true; true; false].
Proof. rewrite replay_exact by by repeat constructor. reflexivity. Defined.

Lemma srtp_index_nearest_witness : exists v, srtp_get_index 3 65000 12 = Some (v * 65536 + 12) /\ nearest 3 65000 12 v.
Proof. destruct (srtp_index_nearest 3 65000 12) as (v&E&Hn&_); [done..|]. by exists v. Defined.

(** The counter has 32 bits but the product of half its values is undefined. *)
Example index_overflows : srtp_get_index 32768 0 0 = None.
Proof. reflexivity. Qed.

End Replay.
