(* ===== verification/RtpSource.v ===== *)
(** * Statistics of a source of RTP packets: src/libre/src/rtp/source.c

    The sequence numbers that arrive, the packets lost and the interarrival jitter.  The
    conversions between int and uint32_t wrap around; an overflow of an int is undefined.
    The fields of the source that these functions do not touch are left out. *)
From stdpp Require Import base list.
From S2P Require Import Prelude.

Module RtpSource.

Definition RTP_SEQ_MOD : Z := 65536.

Record rtp_source := mk_source { max_seq : Z; cycles : Z; base_seq : Z; bad_seq : Z; probation : Z; received : Z;
  expected_prior : Z; received_prior : Z; transit : Z; jitter : Z }.

Definition source_init_seq (s : rtp_source) (seq : Z) : rtp_source :=
  mk_source seq 0 seq (RTP_SEQ_MOD + 1) (probation s) 0 0 0 (transit s) (jitter s).

Definition set_max_seq (s : rtp_source) x := mk_source x (cycles s) (base_seq s) (bad_seq s) (probation s) (received s)
  (expected_prior s) (received_prior s) (transit s) (jitter s).
Definition set_cycles (s : rtp_source) x := mk_source (max_seq s) x (base_seq s) (bad_seq s) (probation s) (received s)
  (expected_prior s) (received_prior s) (transit s) (jitter s).
Definition set_bad_seq (s : rtp_source) x := mk_source (max_seq s) (cycles s) (base_seq s) x (probation s) (received s)
  (expected_prior s) (received_prior s) (transit s) (jitter s).
Definition set_probation (s : rtp_source) x := mk_source (max_seq s) (cycles s) (base_seq s) (bad_seq s) x (received s)
  (expected_prior s) (received_prior s) (transit s) (jitter s).
Definition inc_received (s : rtp_source) := mk_source (max_seq s) (cycles s) (base_seq s) (bad_seq s) (probation s)
  (u32 (received s + 1)) (expected_prior s) (received_prior s) (transit s) (jitter s).
Definition set_priors (s : rtp_source) e r := mk_source (max_seq s) (cycles s) (base_seq s) (bad_seq s) (probation s)
  (received s) e r (transit s) (jitter s).
Definition set_jitter (s : rtp_source) t j := mk_source (max_seq s) (cycles s) (base_seq s) (bad_seq s) (probation s)
  (received s) (expected_prior s) (received_prior s) t j.

Definition MAX_DROPOUT : Z := 3000.
Definition MAX_MISORDER : Z := 100.
Definition MIN_SEQUENTIAL : Z := 2.

(** The comparison with max_seq + 1 is one of ints: 65535 is never followed. *)
Definition source_update_seq (s : rtp_source) (seq : Z) : Z * rtp_source :=
  let udelta := u16 (seq - max_seq s) in
  if negb (probation s =? 0) then
    if seq =? max_seq s + 1 then
      let s := set_max_seq (set_probation s (u32 (probation s - 1))) seq in
      if probation s =? 0 then (1, inc_received (source_init_seq s seq)) else (0, s)
    else (0, set_max_seq (set_probation s (MIN_SEQUENTIAL - 1)) seq)
  else if udelta <? MAX_DROPOUT then
    let s := if seq <? max_seq s then set_cycles s (u32 (cycles s + RTP_SEQ_MOD)) else s in
    (1, inc_received (set_max_seq s seq))
  else if udelta <=? RTP_SEQ_MOD - MAX_MISORDER then
    if seq =? bad_seq s then (1, inc_received (source_init_seq s seq))
    else (0, set_bad_seq s (Z.land (seq + 1) (RTP_SEQ_MOD - 1)))
  else (1, inc_received s).

Definition fits_int (z : Z) : bool := (-2147483648 <=? z) && (z <=? 2147483647).

Definition source_calc_jitter (s : rtp_source) (rtp_ts arrival : Z) : option rtp_source :=
  let tr := s32 (u32 (arrival - rtp_ts)) in
  let d := tr - transit s in
  if negb (fits_int d) then None else
  if transit s =? 0 then Some (set_jitter s tr (jitter s)) else
  let d := if d <? 0 then - d else d in
  if negb (fits_int d) then None else
  Some (set_jitter s tr (u32 (jitter s + (u32 d - Z.shiftr (u32 (jitter s + 8)) 4)))).

Definition expected (s : rtp_source) : Z :=
  let extended_max := s32 (u32 (cycles s + max_seq s)) in
  s32 (u32 (extended_max - base_seq s + 1)).

Definition source_calc_lost (s : rtp_source) : Z :=
  let lost := s32 (u32 (expected s - received s)) in
  if 8388607 <? lost then 8388607 else if lost <? -8388607 then -8388607 else lost.

(** The shift and the difference of ints are undefined when they overflow. *)
Definition source_calc_fraction_lost (s : rtp_source) : option (Z * rtp_source) :=
  let expected := expected s in
  let expected_interval := s32 (u32 (expected - expected_prior s)) in
  let received_interval := s32 (u32 (received s - received_prior s)) in
  let s := set_priors s (u32 expected) (received s) in
  let lost_interval := expected_interval - received_interval in
  if negb (fits_int lost_interval) then None else
  if (expected_interval =? 0) || (lost_interval <=? 0) then Some (0, s) else
  if negb (fits_int (lost_interval * 256)) then None else
  Some (u8 (Z.quot (lost_interval * 256) expected_interval), s).

Fixpoint updates (seqs : list Z) (s : rtp_source) : rtp_source :=
  match seqs with [] => s | seq :: seqs => updates seqs (source_update_seq s seq).2 end.

(** ** Streams

    A packet has an index, of which its sequence number is the low 16 bits. *)

(** The highest index after a packet, when it is not too far from it. *)
Definition tolerated (top i : Z) : Prop := top - MAX_MISORDER < i < top + MAX_DROPOUT.
Fixpoint stream (top : Z) (l : list Z) : Prop :=
  match l with [] => True | i :: l => tolerated top i /\ stream (Z.max top i) l end.
Definition top_of (top : Z) (l : list Z) : Z := fold_left Z.max l top.

(** What the source knows of a stream that began at index [base]. *)
Record tracks (s : rtp_source) (base top count : Z) : Prop := {
  tr_prob : probation s = 0;
  tr_max : max_seq s = u16 top;
  tr_base : base_seq s = u16 base;
  tr_ext : u32 (cycles s + max_seq s) = u32 (u16 base + (top - base));
  tr_received : received s = u32 count }.

Lemma u16_split z : u16 z = z - 65536 * (z / 65536).
Proof. unfold u16. rewrite Z.mod_eq; lia. Qed.

Lemma u32_plus a b : u32 (u32 a + b) = u32 (a + b).
Proof. unfold u32. by rewrite Z.add_mod_idemp_l. Qed.

Lemma update_tracks s base top count i : tracks s base top count -> tolerated top i ->
  (source_update_seq s (u16 i)).1 = 1 /\ tracks (source_update_seq s (u16 i)).2 base (Z.max top i) (count + 1) /\
  expected_prior (source_update_seq s (u16 i)).2 = expected_prior s /\ received_prior (source_update_seq s (u16 i)).2 = received_prior s.
Proof.
  intros [Hp Hm Hb He Hr] [Hlo Hhi]. unfold MAX_MISORDER, MAX_DROPOUT in *. unfold source_update_seq, MAX_DROPOUT, MAX_MISORDER, RTP_SEQ_MOD.
  rewrite Hp, Hm. cbn [Z.eqb negb].
  assert (u16 (u16 i - u16 top) = u16 (i - top)) as -> by (unfold u16; by rewrite <- Zminus_mod).
  assert (forall s', received s' = received s -> u32 (received s' + 1) = u32 (count + 1)) as Hrc
    by (intros s' ->; rewrite Hr; apply u32_plus).
  destruct (Z.lt_ge_cases i top) as [Hlt|Hge].
  - rewrite (Z.max_l top i) by lia.
    assert (u16 (i - top) = i - top + 65536) as -> by (rewrite u16_split; replace ((i - top) / 65536) with (-1) by (apply Z.div_unique with (i - top + 65536); lia); lia).
    rewrite (proj2 (Z.ltb_ge _ _)) by lia. rewrite (proj2 (Z.leb_gt _ _)) by lia. split; [done|]. split; [|done]. constructor; try done. by apply Hrc.
  - rewrite (Z.max_r top i) by lia. rewrite (u16_small (i - top)), (proj2 (Z.ltb_lt _ _)) by lia. split; [done|].
    pose proof (u16_split i) as Ei. pose proof (u16_split top) as Et. pose proof (u16_range i). pose proof (u16_range top).
    rewrite Hm in He. destruct (Z.ltb_spec (u16 i) (u16 top)); (split; [|done]; constructor; cbn [snd probation max_seq base_seq received cycles inc_received set_max_seq set_cycles]; [done|done|done| |by apply (Hrc s)]).
    + replace (u16 base + (i - base)) with (u16 base + (top - base) + (i - top)) by lia.
      rewrite <- (u32_plus (u16 base + (top - base)) (i - top)), <- He, !u32_plus.
      replace (cycles s + 65536 + u16 i) with (cycles s + u16 top + (i - top)); [done|]. lia.
    + replace (u16 base + (i - base)) with (u16 base + (top - base) + (i - top)) by lia.
      rewrite <- (u32_plus (u16 base + (top - base)) (i - top)), <- He, u32_plus. f_equal. lia.
Qed.

Lemma updates_track l : forall s base top count, tracks s base top count -> stream top l ->
  tracks (updates (map u16 l) s) base (top_of top l) (count + Z.of_nat (length l)) /\
  expected_prior (updates (map u16 l) s) = expected_prior s /\ received_prior (updates (map u16 l) s) = received_prior s.
Proof.
  induction l as [|i l IH]; intros s base top count Ht Hs; cbn [map updates].
  - by rewrite Z.add_0_r.
  - destruct Hs as [Hi Hs]. destruct (update_tracks s base top count i Ht Hi) as (_&Ht'&<-&<-).
    replace (count + Z.of_nat (length (i :: l))) with (count + 1 + Z.of_nat (length l)) by (cbn [length]; lia).
    by apply IH.
Qed.

Lemma top_ge l : forall top, top <= top_of top l.
Proof. unfold top_of. induction l as [|i l IH]; intros top; cbn [fold_left]; [lia|]. specialize (IH (Z.max top i)). lia. Qed.

(** Packets expected, as long as an int can count them. *)
Lemma expected_tracks s base top count : tracks s base top count -> 0 <= top - base < 2147483647 ->
  expected s = top - base + 1.
Proof.
  intros [_ _ Hb He _] Hr. unfold expected. rewrite He, Hb.
  assert (forall z, u32 (s32 (u32 z) - u16 base + 1) = u32 (z - u16 base + 1)) as ->.
  { intros z. unfold s32, u32. rewrite Z.mod_mod by lia. destruct (_ <? _).
    - rewrite <- (Zplus_mod_idemp_l (z mod _ - u16 base)), Zminus_mod_idemp_l, Zplus_mod_idemp_l. done.
    - replace (z mod 4294967296 - 4294967296 - u16 base + 1) with (z mod 4294967296 - u16 base + 1 + (-1) * 4294967296) by lia.
      rewrite Z.mod_add by lia. rewrite <- (Zplus_mod_idemp_l (z mod _ - u16 base)), Zminus_mod_idemp_l, Zplus_mod_idemp_l. done. }
  rewrite u32_small by lia. rewrite s32_small; lia.
Qed.

(** A source that has just been found valid, by the packet of index [base]. *)
Definition valid_source (s : rtp_source) (base : Z) : rtp_source := inc_received (source_init_seq (set_probation s 0) (u16 base)).

Lemma valid_tracks s base : tracks (valid_source s base) base base 1.
Proof. constructor; try done. cbn [valid_source cycles max_seq source_init_seq inc_received]. f_equal. lia. Qed.

Definition clamp24 (z : Z) : Z := Z.max (-8388607) (Z.min 8388607 z).

(** Over a stream whose packets come at most 99 behind and less than 3000 ahead of the
    highest one, reordered, repeated and lost as they may be and however often the sequence
    numbers wrap, the packets reported lost are those between the first index and the
    highest less those that came, clamped to 24 bits. *)
Theorem source_lost_exact s base l : stream base l -> top_of base l - base < 2147483647 ->
  Z.of_nat (length l) < 2147483647 ->
  source_calc_lost (updates (map u16 l) (valid_source s base)) =
    clamp24 ((top_of base l - base + 1) - (1 + Z.of_nat (length l))).
Proof.
  intros Hs Htop Hlen. pose proof (updates_track l _ base base 1 (valid_tracks s base) Hs) as [Ht _].
  pose proof (top_ge l base) as Hge. set (s' := updates _ _) in *. unfold source_calc_lost.
  rewrite (expected_tracks s' base _ _ Ht) by lia. rewrite (tr_received _ _ _ _ Ht). rewrite (u32_small (1 + _)) by lia.
  set (d := top_of base l - base + 1 - (1 + Z.of_nat (length l))).
  assert (s32 (u32 d) = d) as ->.
  { unfold s32. assert (u32 (u32 d) = u32 d) as -> by (unfold u32; by rewrite Z.mod_mod). change (s32 d = d). apply s32_small. lia. }
  unfold clamp24. zcase.
Qed.

(** ** The fraction lost between two reports *)

Lemma stream_app l1 l2 : forall top, stream top (l1 ++ l2) <-> stream top l1 /\ stream (top_of top l1) l2.
Proof. induction l1 as [|i l1 IH]; intros top; cbn [app stream]; [cbn; tauto|]. rewrite IH. unfold top_of. cbn [fold_left]. tauto. Qed.

Lemma top_app l1 l2 top : top_of top (l1 ++ l2) = top_of (top_of top l1) l2.
Proof. unfold top_of. by rewrite fold_left_app. Qed.

(** The highest index moves with a packet only. *)
Lemma top_moves l top : top < top_of top l -> 0 < Z.of_nat (length l).
Proof. destruct l; cbn; lia. Qed.

(** What a report leaves behind. *)
Lemma fraction_prior s f s1 : source_calc_fraction_lost s = Some (f, s1) ->
  s1 = set_priors s (u32 (expected s)) (received s) /\ expected_prior s1 = u32 (expected s) /\ received_prior s1 = received s.
Proof.
  unfold source_calc_fraction_lost. cbv zeta. destruct (negb _); [done|]. destruct (_ || _); [by intros [= <- <-]|].
  destruct (negb _); [done|]. by intros [= <- <-].
Qed.

(** The shares of 256 lost of the packets expected since the last report. *)
Definition fraction (expected received : Z) : Z :=
  if expected <=? received then 0 else 256 * (expected - received) / expected.

(** Between two reports of a stream, the fraction is that of the packets missing among
    those between the highest index then and now, in units of 1/256: it is never more than
    255, since no packet is expected that another did not announce; and nothing that it
    computes overflows for up to 2^23 packets. *)
Theorem source_fraction_exact s base l1 l2 s1 e1 : stream base (l1 ++ l2) -> Z.of_nat (length (l1 ++ l2)) < 8388608 ->
  top_of base (l1 ++ l2) - base < 8388608 ->
  source_calc_fraction_lost (updates (map u16 l1) (valid_source s base)) = Some (e1, s1) ->
  exists f s2, source_calc_fraction_lost (updates (map u16 l2) s1) = Some (f, s2) /\
    f = fraction (top_of base (l1 ++ l2) - top_of base l1) (Z.of_nat (length l2)) /\ 0 <= f < 256.
Proof.
  intros Hs Hlen Htop E1. apply stream_app in Hs as [Hs1 Hs2]. rewrite top_app in *. rewrite length_app in Hlen.
  pose proof (updates_track l1 _ base base 1 (valid_tracks s base) Hs1) as [Ht1 _].
  pose proof (top_ge l1 base) as Hg1. pose proof (top_ge l2 (top_of base l1)) as Hg2. pose proof (top_moves l2 (top_of base l1)) as Hmv.
  set (t1 := top_of base l1) in *. set (t2 := top_of t1 l2) in *. set (sa := updates (map u16 l1) _) in *.
  destruct (fraction_prior sa e1 s1 E1) as (Es1&Ep&Er). rewrite (expected_tracks sa base _ _ Ht1) in Ep by lia.
  rewrite (tr_received _ _ _ _ Ht1) in Er. rewrite u32_small in Ep, Er by lia.
  assert (tracks s1 base t1 (1 + Z.of_nat (length l1))) as Ht1' by (rewrite Es1; destruct Ht1; by constructor).
  pose proof (updates_track l2 _ base t1 _ Ht1' Hs2) as (Ht2&Ep2&Er2). fold t2 in Ht2. set (sb := updates (map u16 l2) s1) in *.
  unfold source_calc_fraction_lost. rewrite (expected_tracks sb base _ _ Ht2), Ep2, Er2, Ep, Er, (tr_received _ _ _ _ Ht2) by lia.
  cbv zeta. rewrite (u32_small (1 + Z.of_nat (length l1) + Z.of_nat (length l2))) by lia.
  assert (forall z, -8388608 < z < 8388608 -> s32 (u32 z) = z) as Hsm.
  { intros z Hz. unfold s32. assert (u32 (u32 z) = u32 z) as -> by (unfold u32; by rewrite Z.mod_mod). change (s32 z = z). apply s32_small. lia. }
  rewrite !Hsm by lia. unfold fraction.
  replace (t2 - base + 1 - (t1 - base + 1)) with (t2 - t1) by lia.
  replace (1 + Z.of_nat (length l1) + Z.of_nat (length l2) - (1 + Z.of_nat (length l1))) with (Z.of_nat (length l2)) by lia.
  set (ei := t2 - t1) in *. set (ri := Z.of_nat (length l2)) in *.
  assert (fits_int (ei - ri) = true) as -> by (unfold fits_int; apply andb_true_iff; split; apply Z.leb_le; lia). cbn [negb].
  destruct (Z.leb_spec ei ri) as [Hle|Hgt].
  - rewrite (proj2 (Z.leb_le (ei - ri) 0)), orb_true_r by lia. eexists 0, _. split; [done|]. split; [done|lia].
  - rewrite (proj2 (Z.eqb_neq ei 0)), (proj2 (Z.leb_gt (ei - ri) 0)) by lia. cbn [orb].
    assert (fits_int ((ei - ri) * 256) = true) as -> by (unfold fits_int; apply andb_true_iff; split; apply Z.leb_le; lia). cbn [negb].
    assert (0 < ri) as Hri by (destruct (Z.eq_dec ei 0); [lia|apply Hmv; lia]).
    assert (0 <= 256 * (ei - ri) / ei < 256) as Hf.
    { split; [apply Z.div_pos; lia|]. apply Z.div_lt_upper_bound; nia. }
    rewrite Z.quot_div_nonneg, (Z.mul_comm (ei - ri)) by lia. rewrite u8_small by done. by eexists _, _.
Qed.

(** ** Jitter *)

Fixpoint jitters (l : list (Z * Z)) (s : rtp_source) : option rtp_source :=
  match l with [] => Some s | (ts, arrival) :: l => s ← source_calc_jitter s ts arrival; jitters l s end.

Fixpoint close_transits (D : Z) (l : list (Z * Z)) : Prop :=
  match l with
  | [] => True
  | (ts, arrival) :: l =>
      match l with
      | (ts', arrival') :: _ => Z.abs (s32 (u32 (arrival' - ts')) - s32 (u32 (arrival - ts))) <= D
      | [] => True
      end /\ close_transits D l
  end.

(** While the transit times of successive packets differ by at most [D] units, the
    jitter is computed without overflow and never is more than 16 * D + 7. *)
Theorem source_jitter_bounded D l : forall s, 0 <= D < 134217728 -> 0 <= jitter s <= 16 * D + 7 ->
  Forall (fun '(ts, arrival) => Z.abs (s32 (u32 (arrival - ts))) <= 1073741823) l -> Z.abs (transit s) <= 1073741823 ->
  (transit s <> 0 -> match l with (ts, arrival) :: _ => Z.abs (s32 (u32 (arrival - ts)) - transit s) <= D | [] => True end) ->
  close_transits D l -> exists s', jitters l s = Some s' /\ 0 <= jitter s' <= 16 * D + 7.
Proof.
  induction l as [|[ts arrival] l IH]; intros s HD Hj Ht Hts Hd Hc; [by exists s|]. apply Forall_cons in Ht as [Ht Hts'].
  destruct Hc as [Hc1 Hc2]. cbn [jitters]. unfold source_calc_jitter. set (tr := s32 (u32 (arrival - ts))) in *.
  assert (fits_int (tr - transit s) = true) as -> by (unfold fits_int; apply andb_true_iff; split; apply Z.leb_le; lia). cbn [negb].
  destruct (Z.eqb_spec (transit s) 0) as [H0|H0]; [by apply IH|]. specialize (Hd H0).
  set (d := if tr - transit s <? 0 then _ else _). assert (0 <= d <= D) as Hd' by (unfold d; zcase).
  assert (fits_int d = true) as -> by (unfold fits_int; apply andb_true_iff; split; apply Z.leb_le; lia). cbn [negb mbind option_bind].
  apply IH; try done. cbn [jitter set_jitter]. rewrite (u32_small d), (u32_small (jitter s + 8)) by lia.
  rewrite Z.shiftr_div_pow2 by lia. change (2 ^ 4) with 16.
  pose proof (Z.div_mod (jitter s + 8) 16 ltac:(lia)). pose proof (Z.mod_pos_bound (jitter s + 8) 16 ltac:(lia)).
  rewrite u32_small; lia.
Qed.
(** ** Concrete streams *)

Definition exs_new : rtp_source := mk_source 0 0 0 0 0 0 0 0 0 0.
(** Across the wrap, with one packet lost, two swapped and one repeated. *)
Definition exs_l1 : list Z := [65535; 65537; 65536; 65536].
Definition exs_l2 : list Z := [65540; 65541].

Lemma source_lost_exact_witness : source_calc_lost (updates (map u16 (exs_l1 ++ exs_l2)) (valid_source exs_new 65534)) = 1.
Proof.
  rewrite source_lost_exact; [reflexivity| |vm_compute; reflexivity|vm_compute; reflexivity].
  cbn. unfold tolerated, MAX_MISORDER, MAX_DROPOUT. lia.
Defined.

Definition exs_s1 : rtp_source := Eval vm_compute in (set_priors (updates (map u16 exs_l1) (valid_source exs_new 65534)) 4 5).
Lemma exs_report : source_calc_fraction_lost (updates (map u16 exs_l1) (valid_source exs_new 65534)) = Some (0, exs_s1).
Proof. vm_compute. reflexivity. Qed.

Lemma source_fraction_exact_witness : exists f s2, source_calc_fraction_lost (updates (map u16 exs_l2) exs_s1) = Some (f, s2) /\ f = 128.
Proof.
  destruct (source_fraction_exact exs_new 65534 exs_l1 exs_l2 exs_s1 0) as (f&s2&E&Ef&_); try (vm_compute; reflexivity).
  - cbn. unfold tolerated, MAX_MISORDER, MAX_DROPOUT. lia.
  - exists f, s2. split; [exact E|]. rewrite Ef. reflexivity.
Defined.

Lemma source_jitter_bounded_witness : exists s', jitters [(1000, 5000); (1160, 5200); (1320, 5310)] exs_new = Some s' /\ 0 <= jitter s' <= 16 * 100 + 7.
Proof.
  apply (source_jitter_bounded 100); [lia|cbn; lia| |cbn; lia| |].
  - repeat constructor; vm_compute; discriminate.
  - intros Hne. by destruct Hne.
  - cbn [close_transits]. repeat split; vm_compute; discriminate.
Defined.

(** On probation the number after 65535 is not taken for its successor, and a source that
    starts at the wrap stays on probation for a packet more. *)
Example probation_at_the_wrap : let s := mk_source 65535 0 65535 65537 1 0 0 0 0 0 in
  source_update_seq s 0 = (0, mk_source 0 0 65535 65537 1 0 0 0 0 0) /\
  (source_update_seq (set_max_seq s 7) 8).1 = 1.
Proof. split; reflexivity. Qed.

End RtpSource.
