(* ===== verification/DnsRr.v ===== *)
(** * DNS resource records: src/libre/src/dns/rr.c

    Encoding with compression and a length that is filled in afterwards, decoding and
    comparison.  A string is an [option]: [None] is a null pointer.  The null checks
    of the other arguments and the printer are left out.  The encoder writes all fields
    whatever came of the ones before, so its result is 0 or a write ran out of memory. *)
From S2P Require Import Prelude Mem Pl Mbuf Codec Wire Hash Dname DnsHdr.
Import Pl Codec Wire Hash Dname DnsHdr.

Module DnsRr.

(** ** Resource records *)

Definition DNS_TYPE_A : Z := 1.
Definition DNS_TYPE_NS : Z := 2.
Definition DNS_TYPE_CNAME : Z := 5.
Definition DNS_TYPE_SOA : Z := 6.
Definition DNS_TYPE_PTR : Z := 12.
Definition DNS_TYPE_MX : Z := 15.
Definition DNS_TYPE_AAAA : Z := 28.
Definition DNS_TYPE_SRV : Z := 33.
Definition DNS_TYPE_NAPTR : Z := 35.

Abbreviation str := (option (list Z)).

(** The member [type] and the union [rdata] it selects from; [Other] is a record of
    another type, whose data is not kept. *)
Inductive rdata :=
| A (addr : Z)
| NS (nsdname : str)
| CNAME (cname : str)
| SOA (mname rname : str) (serial refresh retry expire ttlmin : Z)
| PTR (ptrdname : str)
| MX (pref : Z) (exchange : str)
| AAAA (addr : list Z)
| SRV (pri weight port : Z) (target : str)
| NAPTR (order pref : Z) (flags services regexp replace : str)
| Other (type : Z).

Record dnsrr := mk_dnsrr { rr_name : str; dnsclass : Z; ttl : Z; rdlen : Z; rr_data : rdata }.

Definition type_of (d : rdata) : Z :=
  match d with
  | A _ => DNS_TYPE_A | NS _ => DNS_TYPE_NS | CNAME _ => DNS_TYPE_CNAME
  | SOA _ _ _ _ _ _ _ => DNS_TYPE_SOA | PTR _ => DNS_TYPE_PTR | MX _ _ => DNS_TYPE_MX
  | AAAA _ => DNS_TYPE_AAAA | SRV _ _ _ _ => DNS_TYPE_SRV
  | NAPTR _ _ _ _ _ _ => DNS_TYPE_NAPTR | Other t => t
  end.
Definition type (rr : dnsrr) : Z := type_of (rr_data rr).

Section Records.
Context {B : Type} `{Buffer B} (alloc : list Z -> Z -> option Z).

(** A write that leaves the table of names alone. *)
Definition put (w : B -> option (Z * B)) (s : est B) : option (Z * est B) :=
  with_ht (ht s) (w (mb s)).
Definition put_name (nm : str) (start : Z) (comp : bool) (s : est B) : option (Z * est B) :=
  dns_dname_encode alloc s nm start comp.

(** The [switch] of [dns_rr_encode]. *)
Definition encode_rdata (d : rdata) (start : Z) : est B -> option (Z * est B) :=
  match d with
  | A addr => put (write_n32 addr)
  | NS n | CNAME n | PTR n => put_name n start true
  | SOA m r serial refresh retry expire ttlmin =>
      put_name m start true ;| put_name r start true ;|
      put (write_n32 serial) ;| put (write_n32 refresh) ;| put (write_n32 retry) ;|
      put (write_n32 expire) ;| put (write_n32 ttlmin)
  | MX pref x => put (write_n16 pref) ;| put_name x start true
  | AAAA addr => put (fun b => mbuf_write_mem b addr)
  | SRV pri weight port t =>
      put (write_n16 pri) ;| put (write_n16 weight) ;| put (write_n16 port) ;|
      put_name t start false
  | NAPTR order pref f sv re rp =>
      put (write_n16 order) ;| put (write_n16 pref) ;| put (dns_cstr_encode f) ;|
      put (dns_cstr_encode sv) ;| put (dns_cstr_encode re) ;| put_name rp start false
  | Other _ => fun s => Some (EINVAL, s)
  end.

(** The length of the data is written over the one in front of it. *)
Definition fill_rdlen (start_rdata : Z) (s : est B) : option (Z * est B) :=
  let len := u16 (mb_pos (mb s) - start_rdata) in
  '(err, b) ← mbuf_write_u16 (mb_set_pos (mb s) (u64 (start_rdata - 2))) (htons len);
  Some (err, mk_est (mb_set_pos b (u64 (mb_pos b + len))) (ht s)).

Definition dns_rr_encode (rr : dnsrr) (ttl_offs start : Z) (s : est B) : option (Z * est B) :=
  let t := u32 (if ttl_offs <? ttl rr then ttl rr - ttl_offs else 0) in
  '(e1, s) ← (put_name (rr_name rr) start true ;| put (write_n16 (type rr)) ;|
              put (write_n16 (dnsclass rr)) ;| put (write_n32 t) ;|
              put (write_n16 (rdlen rr))) s;
  let start_rdata := mb_pos (mb s) in
  '(e2, s) ← encode_rdata (rr_data rr) start s;
  let err := match rr_data rr with Other _ => EINVAL | _ => Z.lor e1 e2 end in
  '(e3, s) ← fill_rdlen start_rdata s;
  Some (Z.lor err e3, s).

(** [ok]: whether a string read from a position can be allocated. *)
Context (ok : Z -> bool).

Definition get_name (start : Z) : Dec B str := fun b =>
  '(err, n, b) ← dns_dname_decode (ok (mb_pos b)) b start;
  Some (if err =? 0 then inr n else inl err, b).

(** The [switch] of [dns_rr_decode]. *)
Definition decode_rdata (ty rdlen start : Z) : Dec B rdata :=
  if ty =? DNS_TYPE_A then
    if negb (rdlen =? 4) then fail EINVAL else a ⇐ get_u32; ret (A a)
  else if ty =? DNS_TYPE_NS then n ⇐ get_name start; ret (NS n)
  else if ty =? DNS_TYPE_CNAME then n ⇐ get_name start; ret (CNAME n)
  else if ty =? DNS_TYPE_SOA then
    m ⇐ get_name start; r ⇐ get_name start;
    need 20 EINVAL (
      a ⇐ get_u32; b ⇐ get_u32; c ⇐ get_u32; d ⇐ get_u32; e ⇐ get_u32;
      ret (SOA m r a b c d e))
  else if ty =? DNS_TYPE_PTR then n ⇐ get_name start; ret (PTR n)
  else if ty =? DNS_TYPE_MX then
    need 2 EINVAL (p ⇐ get_u16; n ⇐ get_name start; ret (MX p n))
  else if ty =? DNS_TYPE_AAAA then
    if negb (rdlen =? 16) then fail EINVAL else a ⇐ get_mem 16; ret (AAAA a)
  else if ty =? DNS_TYPE_SRV then
    need 6 EINVAL (p ⇐ get_u16; w ⇐ get_u16; q ⇐ get_u16; n ⇐ get_name start;
      ret (SRV p w q n))
  else if ty =? DNS_TYPE_NAPTR then
    need 4 EINVAL (o ⇐ get_u16; p ⇐ get_u16;
      f ⇐ dns_cstr_decode ok; sv ⇐ dns_cstr_decode ok; re ⇐ dns_cstr_decode ok;
      n ⇐ get_name start; ret (NAPTR o p f sv re n))
  else fun b => Some (inr (Other ty), mb_set_pos b (u64 (mb_pos b + rdlen))).

(** [rr_ok]: whether the record itself can be allocated. *)
Definition dns_rr_decode (rr_ok : bool) (start : Z) : Dec B dnsrr :=
  if negb rr_ok then fail ENOMEM
  else
    n ⇐ get_name start;
    need 10 EINVAL (
      ty ⇐ get_u16; cl ⇐ get_u16; tt ⇐ get_u32; len ⇐ get_u16;
      need len EINVAL (d ⇐ decode_rdata ty len start; ret (mk_dnsrr n cl tt len d))).

End Records.

(** ** Comparing records *)

(** [0 == str_casecmp(a, b)], null pointers included. *)
Definition str_same (a b : str) : bool :=
  match a, b with
  | None, None => true
  | Some a, Some b => same_name a b
  | _, _ => false
  end.

Definition rdata_cmp (a b : rdata) : bool :=
  match a, b with
  | A x, A y => x =? y
  | NS x, NS y | CNAME x, CNAME y | PTR x, PTR y => str_same x y
  | SOA m r a1 a2 a3 a4 a5, SOA m' r' b1 b2 b3 b4 b5 =>
      str_same m m' && str_same r r' && (a1 =? b1) && (a2 =? b2) && (a3 =? b3) &&
      (a4 =? b4) && (a5 =? b5)
  | MX p x, MX p' x' => (p =? p') && str_same x x'
  | AAAA x, AAAA y => bool_decide (x = y)
  | SRV p w q t, SRV p' w' q' t' => (p =? p') && (w =? w') && (q =? q') && str_same t t'
  | NAPTR o p f sv re rp, NAPTR o' p' f' sv' re' rp' =>
      (o =? o') && (p =? p') && str_same f f' && str_same sv sv' && str_same re re' &&
      str_same rp rp'
  | _, _ => false
  end.

(** [same]: whether the two pointers are equal. *)
Definition dns_rr_cmp (same : bool) (rr1 rr2 : dnsrr) (rdata : bool) : bool :=
  if same then true
  else if negb (type rr1 =? type rr2) then false
  else if negb (dnsclass rr1 =? dnsclass rr2) then false
  else if negb (str_same (rr_name rr1) (rr_name rr2)) then false
  else if negb rdata then true
  else rdata_cmp (rr_data rr1) (rr_data rr2).

(** A mail exchanger, and what becomes of it. *)
Definition ex_rr : dnsrr :=
  mk_dnsrr (Some [97; 46; 98]) 1 3700 77 (MX 10 (Some [109; 46; 97; 46; 66])).
Definition ex_msg : list Z :=
  [1; 97; 1; 98; 0; 0; 15; 0; 1; 0; 0; 14; 16; 0; 6; 0; 10; 1; 109; 192; 0].
Example ex_encode :
  match dns_rr_encode (H := text_buffer) ex_alloc ex_rr 100 0 (mk_est (0, []) ex_ht) with
  | Some (err, s) => Some (err, mb s) | None => None end = Some (0, (21, ex_msg)).
Proof. vm_compute. reflexivity. Qed.
Example ex_decode : dns_rr_decode (H := text_buffer) (fun _ => true) true 0 (0, ex_msg) =
  Some (inr (mk_dnsrr (Some [97; 46; 98]) 1 3600 6 (MX 10 (Some [109; 46; 97; 46; 98]))), (21, ex_msg)).
Proof. vm_compute. reflexivity. Qed.

(** ** Resource records *)

(** A name that can be encoded, and what a decoder makes of it. *)
Definition good_name (n : str) : Prop := exists ls dot, Forall good_label ls /\
  Z.of_nat (length (join ls)) <= 255 /\ n = Some (name_of ls dot).
Definition name_back (n n' : str) : Prop := exists ls dot m, Forall good_label ls /\
  n = Some (name_of ls dot) /\ n' = Some m /\ same_label m (join ls).

Definition good_str (n : str) : Prop := exists l, good_string l /\ n = Some l.

Definition data_ok (d : rdata) : Prop :=
  match d with
  | A a => word32 a
  | NS n | CNAME n | PTR n => good_name n
  | SOA m r a b c d e =>
      good_name m /\ good_name r /\ word32 a /\ word32 b /\ word32 c /\ word32 d /\ word32 e
  | MX p n => word16 p /\ good_name n
  | AAAA a => length a = 16%nat /\ bytes a
  | SRV p w q n => word16 p /\ word16 w /\ word16 q /\ good_name n
  | NAPTR o p f sv re n => word16 o /\ word16 p /\ good_str f /\ good_str sv /\ good_str re /\ good_name n
  | Other _ => False
  end.

Definition data_back (d d' : rdata) : Prop :=
  match d, d' with
  | NS n, NS n' | CNAME n, CNAME n' | PTR n, PTR n' => name_back n n'
  | SOA m r a b c d e, SOA m' r' a' b' c' d' e' =>
      name_back m m' /\ name_back r r' /\ a' = a /\ b' = b /\ c' = c /\ d' = d /\ e' = e
  | MX p n, MX p' n' => p' = p /\ name_back n n'
  | SRV p w q n, SRV p' w' q' n' => p' = p /\ w' = w /\ q' = q /\ name_back n n'
  | NAPTR o p f sv re n, NAPTR o' p' f' sv' re' n' =>
      o' = o /\ p' = p /\ f' = f /\ sv' = sv /\ re' = re /\ name_back n n'
  | A _, _ | AAAA _, _ => d' = d
  | _, _ => False
  end.

Section RecordProofs.
Context {B : Type} `{BL : BufferLaws B} (alloc : list Z -> Z -> option Z).
Context (ok : Z -> bool) (ok_true : forall p, ok p = true).
Context (start : Z) (start_nonneg : 0 <= start) (start_max : start + 16384 <= Mem.SIZE_MAX).

(** The state of an encoder behind the text [t]. *)
Definition good (hole : Z -> Prop) (s : est B) (t : list Z) : Prop :=
  exists es, at_end (mb s) t /\ tbl_ok (ht s) es /\ Forall (valid hole t start) (entries es).

(** A step appends at most [K] bytes [w], of which [Q] holds, or memory runs out. *)
Definition writes (hole : Z -> Prop) (K : Z) (m : est B -> option (Z * est B))
    (Q : list Z -> list Z -> Prop) : Prop :=
  forall s t, good hole s t -> start <= Z.of_nat (length t) ->
    hole_below hole (Z.of_nat (length t)) -> Z.of_nat (length t) + K <= Mem.SIZE_MAX ->
    (exists s' w, m s = Some (0, s') /\ good hole s' (t ++ w) /\
       Z.of_nat (length w) <= K /\ bytes w /\ Q t w) \/
    failed (B := B) (m s).

(** [w] after [t] is decoded to a value in [P], whatever is in the hole. *)
Definition codec {A} (hole : Z -> Prop) (t w : list Z) (d : Dec B A) (P : A -> Prop) : Prop :=
  forall t' post, like hole t t' -> exists a, P a /\ reads t' w post d a.

Lemma writes_weaken hole K K' m Q Q' : K <= K' -> (forall t w, Q t w -> Q' t w) ->
  writes hole K m Q -> writes hole K' m Q'.
Proof.
  intros HK HQ Hm s t Hg Hs Hb Hmax. destruct (Hm s t Hg Hs Hb) as [(s'&w&?&?&?&?&?)|?]; [lia| |by right].
  left. exists s', w. split_and!; auto. lia.
Qed.

Lemma writes_also hole K1 K2 m1 m2 Q1 Q2 : writes hole K1 m1 Q1 -> writes hole K2 m2 Q2 -> 0 <= K2 ->
  writes hole (K1 + K2) (m1 ;| m2)
    (fun t w => exists w1 w2, w = w1 ++ w2 /\ Q1 t w1 /\ Q2 (t ++ w1) w2).
Proof.
  intros H1 H2 HK s t Hg Hs Hb Hmax.
  destruct (H1 s t Hg Hs Hb) as [(s1&w1&E1&Hg1&Hl1&Hb1&HQ1)|Hf]; [lia| |right; by apply also_fails].
  destruct (H2 s1 _ Hg1) as [(s2&w2&E2&Hg2&Hl2&Hb2&HQ2)|Hf].
  - rewrite length_app. lia.
  - eapply below_more; [|done]. rewrite length_app. lia.
  - rewrite length_app. lia.
  - left. exists s2, (w1 ++ w2). unfold also. rewrite E1. cbn [mbind option_bind]. rewrite E2.
    rewrite app_assoc. split_and!; try done.
    + rewrite length_app. lia.
    + by apply Forall_app.
    + by exists w1, w2.
  - right. by eapply also_then_fails.
Qed.

Lemma writes_put hole w m : emits w m -> bytes w ->
  writes hole (Z.of_nat (length w)) (put m) (fun _ w' => w' = w).
Proof.
  intros He Hw s t (es&Hs&Hes&Hv) _ _ Hmax. unfold put.
  destruct (He (mb s) t Hs Hmax) as [(b'&E&Hb')|[Hf Hn]]; cycle 1.
  { right. split; [done|]. intros s'. destruct (m (mb s)) as [[e b']|]; [|done].
    cbn [with_ht mbind option_bind]. intros [= -> _]. by apply (Hn b'). }
  left. rewrite E. cbn [with_ht mbind option_bind].
  exists (mk_est b' (ht s)), w. split_and!; try done. exists es. split_and!; try done.
  eapply Forall_impl; [exact Hv|]. intros d. apply valid_more.
Qed.

Lemma writes_n16 hole v : writes hole 2 (put (write_n16 v)) (fun _ w => w = be_bytes 2 v).
Proof.
  eapply writes_weaken; [| |apply writes_put; [by apply emits_n16|apply be_bytes_range]]; [|done].
  by rewrite be_bytes_length.
Qed.

Lemma writes_n32 hole v : writes hole 4 (put (write_n32 v)) (fun _ w => w = be_bytes 4 v).
Proof.
  eapply writes_weaken; [| |apply writes_put; [by apply emits_n32|apply be_bytes_range]]; [|done].
  by rewrite be_bytes_length.
Qed.

Lemma writes_cstr hole n : good_str n ->
  writes hole 256 (put (dns_cstr_encode n)) (fun _ w => exists l, n = Some l /\ w = cstr_bytes l).
Proof.
  intros (l&Hl&->). eapply writes_weaken; [| |apply writes_put; [by apply cstr_emits|]].
  - destruct Hl. simpl. lia.
  - intros t w ->. by exists l.
  - destruct Hl as (?&?&_). constructor; [unfold is_byte; lia|done].
Qed.

Lemma wire_length ls : Forall good_label ls -> (wire ls <= length (join ls) + 1)%nat.
Proof.
  intros Hg. rewrite <- join_name by done. destruct Hg as [|l ls _ Hg]; [unfold wire; simpl; lia|].
  simpl. unfold wire, rest. simpl. rewrite app_nil_r, length_app.
  assert (list_sum (map (fun l => S (length l)) ls) = length (concat (map (cons 46%Z) ls))) as ->; [|lia].
  clear. induction ls; simpl; [done|]. rewrite length_app. simpl. lia.
Qed.

Lemma name_length ls dot : Forall good_label ls ->
  (length (name_of ls dot) <= length (join ls) + 1)%nat.
Proof.
  intros Hg. rewrite <- join_name by done. destruct Hg as [|l ls _ Hg]; [destruct dot; simpl; lia|].
  simpl. unfold rest. rewrite !length_app. destruct dot; simpl; lia.
Qed.

Lemma like_same hole t t' w : like hole t t' -> like hole (t ++ w) (t' ++ w).
Proof.
  intros [Hl Hi]. split; [rewrite !length_app; lia|]. intros i Hh.
  destruct (decide (i < length t)%nat).
  - rewrite !lookup_app_l by lia. by apply Hi.
  - rewrite !lookup_app_r by lia. by rewrite Hl.
Qed.

Lemma writes_name hole n comp : good_name n ->
  writes hole 260 (put_name alloc n start comp)
    (fun t w => codec hole t w (get_name ok start) (name_back n)).
Proof.
  intros (ls&dot&Hg&Hj&->) s t (es&Hs&Hes&Hv) Hst Hbelow Hmax.
  pose proof (name_length ls dot Hg) as Hnl.
  destruct (dname_encode_ok alloc hole s t es start comp ls dot Hg Hbelow Hs Hes Hv)
    as (err&s'&E&_&[[-> ?]|(->&w&es'&new&Hend&Hes'&He&Hnew&Hw)]); [lia|lia| |].
  { right. split; [done|]. intros s2. unfold put_name. by rewrite E. }
  left. exists s', w. split; [exact E|]. pose proof Hw as (Hbw&Hlw&_). pose proof (wire_length ls Hg).
  split_and!; try done; [|lia|].
  - exists es'. split_and!; try done. rewrite He. apply Forall_app. split; [|done].
    eapply Forall_impl; [exact Hv|]. intros d. apply valid_more.
  - intros t' post Hl. pose proof (join_length ls Hg).
    destruct (wrote_decodes hole t w start ls _ _ Hw) as (m&Hm&_&Hd); [lia|done|done|done|].
    exists (Some m). split; [by exists ls, dot, m|].
    intros b x Hb Hbytes Ht Hp. destruct Hl as [Hlen Hi].
    unfold get_name. rewrite ok_true. rewrite (Hd b (t' ++ w) (post ++ x)); try done.
    + cbn [mbind option_bind Z.eqb]. by rewrite !length_app, Hlen.
    + by apply like_same.
    + by rewrite <- app_assoc.
    + by rewrite Hp, Hlen.
Qed.

Lemma codec_field {A} hole t w (d : Dec B A) a : (forall pre post, reads pre w post d a) ->
  codec hole t w d (eq a).
Proof. intros Hr t' post _. by exists a. Qed.

Lemma codec_bind {A C} hole t w1 w2 (d : Dec B A) (f : A -> Dec B C) P1 P :
  codec hole t w1 d P1 -> (forall a, P1 a -> codec hole (t ++ w1) w2 (f a) P) ->
  codec hole t (w1 ++ w2) (bind d f) P.
Proof.
  intros H1 H2 t' post Hl. destruct (H1 t' (w2 ++ post) Hl) as (a&Ha&Hr).
  destruct (H2 a Ha (t' ++ w1) post) as (c&Hc&Hr2); [by apply like_same|].
  exists c. split; [done|]. by eapply reads_bind.
Qed.

Lemma codec_map {A C} hole t w (d : Dec B A) (g : A -> C) (P1 : A -> Prop) (P : C -> Prop) :
  codec hole t w d P1 -> (forall a, P1 a -> P (g a)) -> codec hole t w (bind d (fun a => ret (g a))) P.
Proof.
  intros H1 HP t' post Hl. destruct (H1 t' post Hl) as (a&Ha&Hr). exists (g a).
  split; [by apply HP|]. by eapply reads_map.
Qed.

Lemma codec_need {A} hole t w n e (d : Dec B A) P : n <= Z.of_nat (length w) ->
  codec hole t w d P -> codec hole t w (need n e d) P.
Proof.
  intros Hn Hd t' post Hl. destruct (Hd t' post Hl) as (a&Ha&Hr). exists a. split; [done|].
  apply reads_need; [rewrite length_app; lia|done].
Qed.

Lemma codec_u16 hole t v : word16 v -> codec hole t (be_bytes 2 v) get_u16 (eq v).
Proof. intros Hv. apply codec_field. intros. by apply reads_u16. Qed.
Lemma codec_u32 hole t v : word32 v -> codec hole t (be_bytes 4 v) get_u32 (eq v).
Proof. intros Hv. apply codec_field. intros. by apply reads_u32. Qed.
Lemma codec_cstr hole t l : good_str (Some l) ->
  codec hole t (cstr_bytes l) (dns_cstr_decode ok) (eq (Some l)).
Proof.
  intros (l'&Hl&[= ->]). apply codec_field. intros. by apply cstr_reads.
Qed.

(** The data is decoded by the type and the length that are written in front of it. *)
Definition data_codec (hole : Z -> Prop) (d : rdata) (t w : list Z) : Prop :=
  codec hole t w (decode_rdata ok (type_of d) (Z.of_nat (length w)) start) (data_back d).

Ltac pieces := repeat match goal with
  | H : exists w1 w2, _ /\ _ /\ _ |- _ => destruct H as (?&?&->&?&?)
  | H : exists l, _ = Some l /\ _ |- _ => destruct H as (?&?&->)
  | H : _ = be_bytes _ _ |- _ => subst
  end.

Ltac steps := repeat lazymatch goal with
  | |- codec _ _ _ (need _ _ _) _ =>
      apply codec_need; [rewrite ?length_app, ?be_bytes_length; simpl; lia|]
  | |- codec _ _ _ (bind _ (fun x => ret _)) _ => eapply codec_map
  | |- codec _ _ _ (bind _ _) _ =>
      eapply codec_bind; [first [eassumption | by apply codec_u16 | by apply codec_u32 | by apply codec_cstr]|intros ? ?]
  end.

Ltac select_type := unfold data_codec, decode_rdata;
  cbn [type_of Z.eqb Pos.eqb DNS_TYPE_A DNS_TYPE_NS DNS_TYPE_CNAME DNS_TYPE_SOA DNS_TYPE_PTR
       DNS_TYPE_MX DNS_TYPE_AAAA DNS_TYPE_SRV DNS_TYPE_NAPTR].

Ltac fields := lazymatch goal with
  | |- writes _ _ (_ ;| _) _ => eapply writes_also; [fields|fields|lia]
  | |- _ => solve [apply writes_n16 | apply writes_n32 | by apply writes_cstr | by apply writes_name]
  end.

Lemma encode_rdata_ok hole d : data_ok d ->
  writes hole 1100 (encode_rdata alloc d start) (data_codec hole d).
Proof.
  destruct d as [a|n|n|m r a b c d e|n|p n|a|p w q n|o p f sv re n|ty]; simpl; intros Hd; destruct_and?.
  - eapply writes_weaken; [| |apply writes_n32]; [lia|]. intros t w ->. select_type.
    rewrite be_bytes_length. cbn. eapply codec_map; [by apply codec_u32|]. by intros ? <-.
  - eapply writes_weaken; [| |by apply writes_name]; [lia|]. intros t w Hw. select_type.
    eapply codec_map; [exact Hw|auto].
  - eapply writes_weaken; [| |by apply writes_name]; [lia|]. intros t w Hw. select_type.
    eapply codec_map; [exact Hw|auto].
  - eapply writes_weaken; [| |fields]; [lia|]. intros t w' Hw. cbv beta in Hw. pieces. select_type.
    steps; [by apply codec_u32|]. intros; subst. by split_and!.
  - eapply writes_weaken; [| |by apply writes_name]; [lia|]. intros t w Hw. select_type.
    eapply codec_map; [exact Hw|auto].
  - eapply writes_weaken; [| |fields]; [lia|]. intros t w Hw. cbv beta in Hw. pieces. select_type.
    steps; [eassumption|]. intros; subst. by split_and!.
  - eapply writes_weaken; [| |apply writes_put; [by apply emits_mem|done]]; [lia|]. intros t w ->.
    select_type. match goal with E : length a = 16%nat |- _ => rewrite E; rename E into Ea end. cbn.
    eapply codec_map; [apply codec_field|by intros ? <-].
    intros pre post. pose proof (reads_mem pre a post) as Hr. by rewrite Ea in Hr.
  - eapply writes_weaken; [| |fields]; [lia|]. intros t w' Hw. cbv beta in Hw. pieces. select_type.
    steps; [eassumption|]. intros; subst. by split_and!.
  - eapply writes_weaken; [| |fields]; [lia|]. intros t w Hw. cbv beta in Hw. pieces. select_type.
    steps; [eassumption|]. intros; subst. by split_and!.
  - done.
Qed.

(** *** The length, written twice *)

(** The place of the length in front of the data, in a text that goes on with it. *)
Definition rdlen_hole (n : Z) (i : Z) : Prop := n <= i < n + 2.

Lemma valid_open t y d : valid no_hole t start d ->
  valid (rdlen_hole (Z.of_nat (length t))) (t ++ y) start d.
Proof.
  intros (Hn&Hp&ls&dot&ls'&h&q&?&?&?&?&Hf&?). split; [done|]. split; [done|].
  exists ls, dot, ls', h, q. split_and!; try done.
  intros t'' x (t'&y'&->&Hl&_)%like_app. rewrite <- app_assoc. apply Hf.
  destruct Hl as [Hlen Hi]. split; [done|]. intros i _.
  destruct (decide (i < length t)%nat).
  - apply Hi. unfold rdlen_hole. lia.
  - rewrite !lookup_ge_None_2 by lia. done.
Qed.

Lemma valid_close hole t t2 d : valid hole t start d -> like hole t t2 -> valid no_hole t2 start d.
Proof.
  intros (Hn&Hp&ls&dot&ls'&h&q&?&?&?&?&Hf&?) [Hl2 Hi2]. split; [done|]. split; [done|].
  exists ls, dot, ls', h, q. split_and!; try done. intros t' x [Hl Hi]. apply Hf.
  split; [lia|]. intros i Hh. rewrite Hi by (by intros []). by apply Hi2.
Qed.

Lemma like_hole t r r' w : length r = 2%nat -> length r' = 2%nat ->
  like (rdlen_hole (Z.of_nat (length t))) (t ++ r ++ w) (t ++ r' ++ w).
Proof.
  intros Hr Hr'. split; [rewrite !length_app; lia|]. intros i Hh. unfold rdlen_hole in Hh.
  destruct (decide (i < length t)%nat); [by rewrite !lookup_app_l|].
  assert (length t + 2 <= i)%nat by lia.
  rewrite !(lookup_app_r t), !lookup_app_r by lia. by rewrite Hr, Hr'.
Qed.

Lemma fill_rdlen_ok (s : est B) t r w : at_end (mb s) (t ++ r ++ w) -> length r = 2%nat ->
  Z.of_nat (length w) < 65536 -> Z.of_nat (length (t ++ r ++ w)) <= Mem.SIZE_MAX ->
  (exists s', fill_rdlen (Z.of_nat (length t) + 2) s = Some (0, s') /\ ht s' = ht s /\
     at_end (mb s') (t ++ be_bytes 2 (Z.of_nat (length w)) ++ w)) \/
  failed (B := B) (fill_rdlen (Z.of_nat (length t) + 2) s).
Proof.
  intros (Hb&Ht&Hp) Hr Hw Hmax. unfold fill_rdlen. rewrite Hp. rewrite !length_app, Hr in *.
  unfold Mem.SIZE_MAX in Hmax.
  replace (Z.of_nat (length t + (2 + length w)) - (Z.of_nat (length t) + 2))
    with (Z.of_nat (length w)) by lia.
  rewrite u16_small by lia. replace (Z.of_nat (length t) + 2 - 2) with (Z.of_nat (length t)) by lia.
  rewrite (u64_small (Z.of_nat (length t))) by lia.
  destruct (mb_pos_set (mb s) (Z.of_nat (length t)) Hb) as (Hb1&Ht1&Hp1&He1); [lia|].
  pose proof (mb_length _ Hb) as Hlen. rewrite Ht, !length_app, Hr in Hlen.
  unfold mbuf_write_u16. rewrite bytes_htons.
  destruct (mb_write_ok (mb_set_pos (mb s) (Z.of_nat (length t))) (be_bytes 2 (Z.of_nat (length w))) Hb1)
    as (err&b'&Ew&Hb'&[(->&Hp'&Ht')|(->&_)]); cycle 3.
  - right. rewrite Ew. split; [by eexists _, _, _|]. by intros s'.
  - rewrite Hp1, He1. lia.
  - rewrite Hp1, be_bytes_length. unfold Mem.SIZE_MAX. lia.
  - left. rewrite Ew. cbn [mbind option_bind]. rewrite Hp', Hp1, be_bytes_length, u64_small by lia.
    eexists. split; [done|]. split; [done|]. cbn [mb].
    destruct (mb_pos_set b' (Z.of_nat (length t) + Z.of_nat 2 + Z.of_nat (length w)) Hb')
      as (Hb2&Ht2&Hp2&_); [lia|].
    split_and!; [done| |rewrite Hp2, !length_app, be_bytes_length; lia].
    rewrite Ht2, Ht', Ht1, Ht, Hp1. unfold Mbuf.overwrite.
    rewrite Nat2Z.id, take_app_length, be_bytes_length. do 2 f_equal.
    rewrite drop_app_add', drop_app_ge, Hr, Nat.sub_diag by lia. done.
Qed.

Lemma also_assoc4 {S} (m1 m2 m3 m4 m5 : S -> option (Z * S)) s :
  ((m1 ;| m2 ;| m3 ;| m4) ;| m5) s = (m1 ;| m2 ;| m3 ;| m4 ;| m5) s.
Proof.
  unfold also. destruct (m1 s) as [[e1 s1]|]; [|done]. cbn [mbind option_bind].
  destruct (m2 s1) as [[e2 s2]|]; [|done]. cbn [mbind option_bind].
  destruct (m3 s2) as [[e3 s3]|]; [|done]. cbn [mbind option_bind].
  destruct (m4 s3) as [[e4 s4]|]; [|done]. cbn [mbind option_bind].
  destruct (m5 s4) as [[e5 s5]|]; [|done]. cbn [mbind option_bind]. by rewrite !Z.lor_assoc.
Qed.

(** *** Records *)

Definition rr_ok (rr : dnsrr) : Prop :=
  good_name (rr_name rr) /\ word16 (dnsclass rr) /\ data_ok (rr_data rr).

(** What comes back: the name up to case, the time to live as it was sent and the
    length that was filled in. *)
Definition rr_back (rr : dnsrr) (ttl_offs len : Z) (rr' : dnsrr) : Prop :=
  name_back (rr_name rr) (rr_name rr') /\ dnsclass rr' = dnsclass rr /\
  ttl rr' = u32 (if ttl_offs <? ttl rr then ttl rr - ttl_offs else 0) /\
  rdlen rr' = len /\ data_back (rr_data rr) (rr_data rr').

Lemma type_word d : data_ok d -> word16 (type_of d).
Proof. by destruct d. Qed.

(** The fields in front of the data. *)
Lemma encode_head rr tt (s : est B) t : good_name (rr_name rr) ->
  good no_hole s t -> start <= Z.of_nat (length t) -> Z.of_nat (length t) + 270 <= Mem.SIZE_MAX ->
  let fields := put_name alloc (rr_name rr) start true ;| put (write_n16 (type rr)) ;|
    put (write_n16 (dnsclass rr)) ;| put (write_n32 tt) ;| put (write_n16 (rdlen rr)) in
  (exists s' wn, let head := wn ++ be_bytes 2 (type rr) ++ be_bytes 2 (dnsclass rr) ++ be_bytes 4 tt in
    fields s = Some (0, s') /\
    at_end (mb s') (t ++ head ++ be_bytes 2 (rdlen rr)) /\
    good (rdlen_hole (Z.of_nat (length (t ++ head)))) s' ((t ++ head) ++ be_bytes 2 (rdlen rr)) /\
    bytes head /\ Z.of_nat (length head) <= 268 /\
    codec no_hole t wn (get_name ok start) (name_back (rr_name rr))) \/
  failed (B := B) (fields s).
Proof.
  intros Hn Hg Hst Hmax head5. unfold head5. rewrite <- also_assoc4.
  assert (writes no_hole 268 (put_name alloc (rr_name rr) start true ;| put (write_n16 (type rr)) ;|
    put (write_n16 (dnsclass rr)) ;| put (write_n32 tt)) (fun t w => exists wn,
      w = wn ++ be_bytes 2 (type rr) ++ be_bytes 2 (dnsclass rr) ++ be_bytes 4 tt /\
      codec no_hole t wn (get_name ok start) (name_back (rr_name rr)))) as Hw.
  { eapply writes_weaken; [| |fields]; [lia|]. intros t' w' Hw. cbv beta in Hw. pieces.
    eexists. by split. }
  destruct (Hw s t Hg Hst) as [(s1&w&E1&Hg1&Hl1&Hb1&wn&->&Hc)|Hf]; [by intros i|lia| |right; by apply also_fails].
  destruct Hg1 as (es&Hend&Hes&Hv).
  destruct (emits_n16 (rdlen rr) (mb s1) _ Hend) as [(b'&E2&Hb')|[Hf Hno]].
  { rewrite be_bytes_length, length_app. lia. }
  2: { right. eapply also_then_fails; [exact E1|]. split; [done|]. intros s2. unfold put, with_ht.
       destruct (write_n16 (rdlen rr) (mb s1)) as [[e b']|]; [|done]. intros [= -> _]. by apply (Hno b'). }
  left. exists (mk_est b' (ht s1)), wn. cbv zeta. split_and!; try done.
  - unfold also at 1. rewrite E1. cbn [mbind option_bind]. unfold put. by rewrite E2.
  - by rewrite app_assoc.
  - exists es. split; [done|]. split; [done|].
    eapply Forall_impl; [exact Hv|]. intros d. by apply valid_open.
Qed.

(** Reading it back, from the pieces. *)
Lemma record_reads rr t wn wd tt : word16 (dnsclass rr) -> data_ok (rr_data rr) -> word32 tt ->
  let head := wn ++ be_bytes 2 (type rr) ++ be_bytes 2 (dnsclass rr) ++ be_bytes 4 tt in
  let len := Z.of_nat (length wd) in
  len < 65536 ->
  codec no_hole t wn (get_name ok start) (name_back (rr_name rr)) ->
  data_codec (rdlen_hole (Z.of_nat (length (t ++ head)))) (rr_data rr)
    ((t ++ head) ++ be_bytes 2 (rdlen rr)) wd ->
  exists rr', name_back (rr_name rr) (rr_name rr') /\ dnsclass rr' = dnsclass rr /\
    ttl rr' = tt /\ rdlen rr' = len /\ data_back (rr_data rr) (rr_data rr') /\
    reads t (head ++ be_bytes 2 len ++ wd) [] (dns_rr_decode ok true start) rr'.
Proof.
  intros Hc Hd Htt head len Hl Hcn Hcd.
  destruct (Hcn t ((be_bytes 2 (type rr) ++ be_bytes 2 (dnsclass rr) ++ be_bytes 4 tt ++
    be_bytes 2 len ++ wd) ++ [])) as (n'&Hn&Hrn); [done|].
  destruct (Hcd ((t ++ head) ++ be_bytes 2 len) []) as (d'&Hd'&Hrd).
  { pose proof (like_hole (t ++ head) (be_bytes 2 (rdlen rr)) (be_bytes 2 len) []) as H1.
    rewrite !app_nil_r in H1. apply H1; apply be_bytes_length. }
  exists (mk_dnsrr n' (dnsclass rr) tt len d'). split_and!; try done.
  unfold dns_rr_decode, head. cbn [negb]. rewrite <- !app_assoc.
  eapply reads_bind; [exact Hrn|].
  apply reads_need; [rewrite !length_app, !be_bytes_length; lia|].
  eapply reads_bind; [by apply reads_u16, type_word|].
  eapply reads_bind; [by apply reads_u16|].
  eapply reads_bind; [by apply reads_u32|].
  eapply reads_bind; [by apply reads_u16; lia|].
  apply reads_need; [rewrite app_nil_r; lia|].
  eapply reads_map; [|done]. unfold head in Hrd. rewrite <- !app_assoc in *. exact Hrd.
Qed.

(** The encoder returns 0 only when each of its three parts does. *)
Lemma rr_encode_zero rr ttl_offs (s s' : est B) : data_ok (rr_data rr) ->
  dns_rr_encode alloc rr ttl_offs start s = Some (0, s') ->
  exists s1 s2, (put_name alloc (rr_name rr) start true ;| put (write_n16 (type rr)) ;|
      put (write_n16 (dnsclass rr)) ;|
      put (write_n32 (u32 (if ttl_offs <? ttl rr then ttl rr - ttl_offs else 0))) ;|
      put (write_n16 (rdlen rr))) s = Some (0, s1) /\
    encode_rdata alloc (rr_data rr) start s1 = Some (0, s2) /\
    fill_rdlen (mb_pos (mb s1)) s2 = Some (0, s').
Proof.
  intros Hd. unfold dns_rr_encode.
  destruct ((_ ;| _) s) as [[e1 s1]|]; [|done]. cbn [mbind option_bind].
  destruct (encode_rdata alloc (rr_data rr) start s1) as [[e2 s2]|] eqn:E2; [|done]. cbn [mbind option_bind].
  destruct (fill_rdlen _ s2) as [[e3 s3]|] eqn:E3; [|done]. cbn [mbind option_bind].
  assert (match rr_data rr with Other _ => EINVAL | _ => Z.lor e1 e2 end = Z.lor e1 e2) as ->
    by by destruct (rr_data rr).
  intros [= [[-> ->]%Z.lor_eq_0_iff ->]%Z.lor_eq_0_iff ->]. by exists s1, s2.
Qed.

(** C36: a well-formed record of each of the nine types that the encoder knows survives
    the buffer, whatever its memory is: when the encoder returns 0, it has appended bytes
    from which the decoder gives the record back, with names up to the case of letters,
    the time to live less the offset and the length of the data filled in, and the names
    of the table are still names the message says.  It returns 0 unless memory runs out
    in one of its writes; then it does not. *)
Theorem dns_rr_roundtrip rr ttl_offs (s : est B) t : rr_ok rr -> bytes t ->
  good no_hole s t -> start <= Z.of_nat (length t) -> Z.of_nat (length t) + 1400 <= Mem.SIZE_MAX ->
  (exists s' w rr' len, dns_rr_encode alloc rr ttl_offs start s = Some (0, s') /\
     good no_hole s' (t ++ w) /\ bytes w /\ rr_back rr ttl_offs len rr' /\
     forall (b : B) x, mb_ok b -> mb_text b = (t ++ w) ++ x -> bytes x ->
       mb_pos b = Z.of_nat (length t) ->
       dns_rr_decode ok true start b = Some (inr rr', mb_set_pos b (Z.of_nat (length (t ++ w))))) \/
  (writes_fail (B := B) /\ forall s', dns_rr_encode alloc rr ttl_offs start s <> Some (0, s')).
Proof.
  intros (Hn&Hc&Hd) Hbt Hg Hst Hmax.
  set (tt := u32 (if ttl_offs <? ttl rr then ttl rr - ttl_offs else 0)).
  pose proof (u32_range (if ttl_offs <? ttl rr then ttl rr - ttl_offs else 0)) as Htt. fold tt in Htt.
  destruct (encode_head rr tt s t Hn Hg Hst) as [(s1&wn&E1&Hend1&Hg1&Hbh&Hlh&Hcn)|[Hf Hno]]; [lia| |].
  2: { right. split; [done|]. intros s' (s1&s2&E1&_)%rr_encode_zero; [|done]. by apply (Hno s1). }
  set (head := wn ++ _) in *. destruct Hend1 as (_&Ht1&Hp1).
  destruct (encode_rdata_ok (rdlen_hole (Z.of_nat (length (t ++ head)))) (rr_data rr) Hd s1 _ Hg1)
    as [(s2&wd&E2&(es&Hend2&Hes2&Hv2)&Hld&Hbd&Hcd)|[Hf Hno]].
  { rewrite !length_app. lia. }
  { intros i Hi. unfold rdlen_hole in Hi. rewrite (length_app _ (be_bytes _ _)), be_bytes_length. lia. }
  { rewrite !length_app, be_bytes_length. lia. }
  2: { right. split; [done|]. intros s' (s1'&s2&E1'&E2&_)%rr_encode_zero; [|done].
       unfold tt in E1. rewrite E1 in E1'. injection E1' as <-. by apply (Hno s2). }
  assert (mb_pos (mb s1) = Z.of_nat (length (t ++ head)) + 2) as Hp2
    by (rewrite Hp1, !length_app, be_bytes_length; lia).
  destruct (fill_rdlen_ok s2 (t ++ head) (be_bytes 2 (rdlen rr)) wd) as [(s3&E3&Eh3&Hend3)|[Hf Hno]].
  { by rewrite app_assoc. }
  { apply be_bytes_length. }
  { lia. }
  { rewrite !length_app, be_bytes_length. lia. }
  2: { right. split; [done|]. intros s' (s1'&s2'&E1'&E2'&E3)%rr_encode_zero; [|done].
       unfold tt in E1. rewrite E1 in E1'. injection E1' as <-. rewrite E2 in E2'. injection E2' as <-.
       rewrite Hp2 in E3. by apply (Hno s'). }
  left. unfold dns_rr_encode. fold tt. rewrite E1. cbn [mbind option_bind]. rewrite Hp2, E2.
  cbn [mbind option_bind].
  rewrite E3. cbn [mbind option_bind].
  set (len := Z.of_nat (length wd)) in *. set (w := head ++ be_bytes 2 len ++ wd).
  assert ((t ++ head) ++ be_bytes 2 len ++ wd = t ++ w) as Ew by (unfold w; by rewrite <- !app_assoc).
  rewrite Ew in Hend3.
  destruct (record_reads rr t wn wd tt Hc Hd Htt) as (rr'&Hb1&Hb2&Hb3&Hb4&Hb5&Hreads); try done; [lia|].
  assert (bytes w) as Hbw.
  { unfold w. apply Forall_app. split; [done|]. apply Forall_app. split; [apply be_bytes_range|done]. }
  exists s3, w, rr', len. split_and!; try done.
  - do 2 f_equal. by destruct (rr_data rr).
  - exists es. rewrite Eh3. split; [done|]. split; [done|].
    eapply Forall_impl; [exact Hv2|]. intros d Hv. eapply valid_close; [exact Hv|].
    rewrite <- Ew, <- app_assoc. by apply like_hole; rewrite be_bytes_length.
  - intros b x Hb Htb Hx Hp. apply (Hreads b x Hb); [|by rewrite Htb, <- app_assoc|done].
    rewrite Htb. apply Forall_app. split; [by apply Forall_app|done].
Qed.

End RecordProofs.

(** ** The comparison of records *)

#[local] Instance str_same_equiv : Equivalence (fun a b => str_same a b = true).
Proof.
  split.
  - intros [a|]; [by apply same_name_spec|done].
  - intros [a|] [b|]; try done. simpl. rewrite !same_name_spec. by symmetry.
  - intros [a|] [b|] [c|]; try done. simpl. rewrite !same_name_spec. by transitivity b.
Qed.

Definition known (d : rdata) : Prop := match d with Other _ => False | _ => True end.

Lemma str_same_refl a : str_same a a = true.
Proof. apply (reflexivity (R := fun a b => str_same a b = true)). Qed.
Lemma str_same_sym a b : str_same a b = true -> str_same b a = true.
Proof. apply (symmetry (R := fun a b => str_same a b = true)). Qed.
Lemma str_same_trans a b c : str_same a b = true -> str_same b c = true -> str_same a c = true.
Proof. apply (transitivity (R := fun a b => str_same a b = true)). Qed.

Ltac compare := rewrite ?andb_true_iff, ?Z.eqb_eq, ?bool_decide_eq_true in *; destruct_and?; subst;
  split_and?; eauto using str_same_refl, str_same_sym, str_same_trans.

Lemma rdata_cmp_refl d : known d -> rdata_cmp d d = true.
Proof. destruct d; simpl; intros; try done; compare. Qed.
Lemma rdata_cmp_sym a b : rdata_cmp a b = true -> rdata_cmp b a = true.
Proof. destruct a, b; simpl; intros; try done; compare. Qed.
Lemma rdata_cmp_trans a b c : rdata_cmp a b = true -> rdata_cmp b c = true -> rdata_cmp a c = true.
Proof. destruct a, b; try done; destruct c; simpl; intros; try done; compare. Qed.

Lemma dns_rr_cmp_spec a b f : dns_rr_cmp false a b f = true <->
  type a = type b /\ dnsclass a = dnsclass b /\ str_same (rr_name a) (rr_name b) = true /\
  (f = true -> rdata_cmp (rr_data a) (rr_data b) = true).
Proof.
  unfold dns_rr_cmp.
  destruct (Z.eqb_spec (type a) (type b)), (Z.eqb_spec (dnsclass a) (dnsclass b)),
    (str_same (rr_name a) (rr_name b)), f; simpl;
    (split; [intros E; try discriminate E; by split_and!|intros (?&?&?&Hf); auto; congruence]).
Qed.

(** Comparing two records is an equivalence, with and without the data, except that a
    record of a type the library does not know is not equal to its own copy. *)
Theorem dns_rr_cmp_equivalence a b c f :
  (dns_rr_cmp false a a f = true <-> f = false \/ known (rr_data a)) /\
  (dns_rr_cmp false a b f = true -> dns_rr_cmp false b a f = true) /\
  (dns_rr_cmp false a b f = true -> dns_rr_cmp false b c f = true -> dns_rr_cmp false a c f = true).
Proof.
  rewrite !dns_rr_cmp_spec. split_and!.
  - split.
    + intros (_&_&_&Hf). destruct f; [right|by left]. specialize (Hf eq_refl).
      by destruct (rr_data a).
    + intros Hk. split_and!; [done..|apply str_same_refl|]. intros ->.
      apply rdata_cmp_refl. by destruct Hk.
  - intros (->&->&?&?). split_and!; auto using str_same_sym, rdata_cmp_sym.
  - intros (->&->&?&?) (->&->&?&?). split_and!; eauto using str_same_trans, rdata_cmp_trans.
Qed.

(** *** Witness: the mail exchanger *)

#[local] Existing Instances text_buffer text_laws.

Lemma ex_rr_ok : rr_ok ex_rr.
Proof.
  split_and!; simpl.
  - exists [[97]; [98]], false. split; [by apply labels_check|]. by vm_compute.
  - by vm_compute.
  - split; [by vm_compute|]. exists [[109]; [97]; [66]], false.
    split; [by apply labels_check|]. by vm_compute.
Qed.

(** *** The same in a buffer of the heap, of 512 bytes, that cannot grow *)

Definition no_growth (w : Mbuf.heap) (b : Mbuf.mbuf) (n : Z) : option Z := None.
Definition heap_buffer : Buffer (Mbuf.heap * Mbuf.mbuf) := mbuf_buffer no_growth [].

Lemma heap_laws : BufferLaws (H := heap_buffer) (Mbuf.heap * Mbuf.mbuf).
Proof.
  apply (mbuf_laws no_growth []). intros w b n _ _ _. unfold Mbuf.grow_ok. by destruct (_ =? 0).
Qed.

Definition ex_heap : Mbuf.heap * Mbuf.mbuf :=
  match Mbuf.mbuf_alloc Mem.mem_init true 512 (Some 4096) (replicate 512 0) with
  | Some (w, Some b) => (w, b) | _ => (Mem.mem_init, Mbuf.mk_mbuf 0 0 0 0) end.
Definition ex_sent : option (Z * est (Mbuf.heap * Mbuf.mbuf)) :=
  dns_rr_encode (H := heap_buffer) ex_alloc ex_rr 100 0 (mk_est ex_heap ex_ht).

(** Without any memory, at the start of a buffer, the length is written two bytes in
    front of it. *)
Example no_memory :
  dns_rr_encode (H := heap_buffer) ex_alloc ex_rr 100 0
    (mk_est (Mem.mem_init, Mbuf.mk_mbuf 0 0 0 0) ex_ht) = None.
Proof. vm_compute. reflexivity. Qed.

Lemma ex_heap_buf_ok : Mbuf.buf_ok (fst ex_heap) (snd ex_heap).
Proof.
  destruct (Mbuf.mbuf_resize_ok Mem.mem_init (Mbuf.mk_mbuf 0 0 0 0) 512 (Some 4096) (replicate 512 0))
    as (err&w'&b'&E&Hcase).
  - split; try done. apply Mem.mem_init_ok.
  - done.
  - intros q [= <-]. by vm_compute.
  - destruct Hcase as [(->&->&_)|(->&Hb&_)]; [vm_compute in E; discriminate E|].
    assert (ex_heap = (w', b')) as ->; [|exact Hb].
    unfold ex_heap, Mbuf.mbuf_alloc. change (512 =? 0) with false. cbn match. by rewrite E.
Qed.

Lemma dns_rr_roundtrip_witness :
  (exists rr', dns_rr_decode (fun _ => true) true 0 (0, ex_msg) = Some (inr rr', (21, ex_msg)) /\
     ttl rr' = 3600) /\
  (exists s' rr' b', ex_sent = Some (0, s') /\
     dns_rr_decode (H := heap_buffer) (fun _ => true) true 0 (@mb_set_pos _ heap_buffer (mb s') 0) =
       Some (inr rr', b') /\ ttl rr' = 3600).
Proof.
  split.
  - destruct (dns_rr_roundtrip ex_alloc (fun _ => true) (fun _ => eq_refl) 0
      ltac:(lia) ltac:(by vm_compute) ex_rr 100 (mk_est (0, []) ex_ht) [])
      as [(s'&w&rr'&len&E&(es&(_&Ht&_)&_)&_&(_&_&Httl&_)&Hd)|[Hf _]];
      [exact ex_rr_ok|constructor| |done|by vm_compute| |by apply text_never_fails in Hf].
    { exists []. split; [by vm_compute|]. split; [exact ex_ht_ok|constructor]. }
    assert (option_map (fun r => (fst r, mb (snd r))) (Some (0, s')) = Some (0, (21, ex_msg)))
      as E2 by (rewrite <- E; vm_compute; reflexivity).
    injection E2 as Eb. clear E. simpl in Ht. rewrite Eb in Ht. simpl in Ht. subst w.
    exists rr'. split; [|exact Httl].
    apply (Hd (0, ex_msg) []); [by vm_compute|reflexivity|constructor|reflexivity].
  - destruct (dns_rr_roundtrip (BL := heap_laws) ex_alloc (fun _ => true) (fun _ => eq_refl) 0
      ltac:(lia) ltac:(by vm_compute) ex_rr 100 (mk_est ex_heap ex_ht) [])
      as [(s'&w&rr'&len&E&(es&(Hok&Ht&_)&_)&_&(_&_&Httl&_)&Hd)|[_ Hf]];
      [exact ex_rr_ok|constructor| |done|by vm_compute| |].
    { exists []. split; [|split; [exact ex_ht_ok|constructor]].
      split; [split; [done|exact ex_heap_buf_ok]|]. by vm_compute. }
    + destruct (@mb_pos_set _ heap_buffer heap_laws (mb s') 0 Hok ltac:(done)) as (Hb&Hbt&Hbp&_).
      exists s', rr'. eexists. split; [exact E|]. split; [|exact Httl].
      apply (Hd _ []); [exact Hb|by rewrite Hbt, Ht, app_nil_r|constructor|exact Hbp].
    + exfalso. destruct ex_sent as [[e s']|] eqn:E.
      * assert (option_map fst ex_sent = Some 0) as E0 by by vm_compute.
        rewrite E in E0. injection E0 as ->. by apply (Hf s').
      * assert (option_map fst ex_sent = Some 0) as E0 by by vm_compute. by rewrite E in E0.
Defined.

End DnsRr.
