(* ===== verification/RrList.v ===== *)
(** * Lists of DNS records: src/libre/src/dns/rrlist.c

    Sorting for a type of record, on the lists of [LinkedList], and the search that
    follows CNAME records.  The records are at addresses, which the list holds. *)
From S2P Require Import Prelude LinkedList Mem Pl Mbuf Codec Wire Hash Dname DnsHdr DnsRr.
Import Pl Dname DnsHdr DnsRr.

Module RrList.

Definition CNAME_RECURSE_MAX : Z := 16.
Definition DNS_QTYPE_ANY : Z := 255.
Definition DNS_QCLASS_ANY : Z := 255.

(** ** Sorting *)

Definition std_sort_handler (ty : Z) (rr1 rr2 : dnsrr) : bool :=
  if negb (ty =? type rr1) then negb (ty =? type rr2)
  else if negb (ty =? type rr2) then true
  else match rr_data rr1, rr_data rr2 with
  | MX p1 _, MX p2 _ => p1 <=? p2
  | SRV pri1 w1 _ _, SRV pri2 w2 _ _ =>
      if pri1 =? pri2 then
        if negb (w1 =? 0) then negb (w2 =? 0) else true
      else pri1 <? pri2
  | NAPTR o1 p1 _ _ _ _, NAPTR o2 p2 _ _ _ _ =>
      if o1 =? o2 then p1 <=? p2 else o1 <? o2
  | _, _ => true
  end.

(** The handler is called with the list elements; the data of one is the address of
    its record, [rrs] what is at an address. *)
Definition sort_le (rrs : Z -> dnsrr) (ty : Z) (le1 le2 : Z * Z) : bool :=
  std_sort_handler ty (rrs (snd le1)) (rrs (snd le2)).

Definition dns_rrlist_sort (fuel : nat) (rrs : Z -> dnsrr) (h : LinkedList.heap) (L ty : Z) :
    option LinkedList.heap := LinkedList.list_sort fuel h L (sort_le rrs ty).

(** The list as it is after sorting. *)
Definition rrlist_sort (ty : Z) (rrl : list (Z * dnsrr)) : list (Z * dnsrr) :=
  LinkedList.bubble_sort (fun x y => std_sort_handler ty (snd x) (snd y)) (S (length rrl * length rrl)) rrl.

(** ** Searching *)

Section Apply.
(** [rrl] is the list, in order; the handler may change a state [W] of its own. *)
Context {W : Type} (rrl : list (Z * dnsrr)) (type1 type2 cls : Z) (recurse : bool).
Context (rrlh : option (Z -> dnsrr -> W -> bool * W)).

Definition filtered (nm : str) (rr : dnsrr) : bool :=
  (match nm with Some _ => negb (str_same nm (rr_name rr)) | None => false end) ||
  (negb (type1 =? DNS_QTYPE_ANY) && negb (type2 =? DNS_QTYPE_ANY) &&
   negb (type rr =? type1) && negb (type rr =? type2) &&
   (negb (type rr =? DNS_TYPE_CNAME) || negb recurse)) ||
  (negb (cls =? DNS_QCLASS_ANY) && negb (dnsclass rr =? cls)).

Definition follows (rr : dnsrr) : bool :=
  recurse && negb (DNS_QTYPE_ANY =? type1) && negb (DNS_QTYPE_ANY =? type2) &&
  negb (DNS_TYPE_CNAME =? type1) && negb (DNS_TYPE_CNAME =? type2) &&
  (DNS_TYPE_CNAME =? type rr).

Definition cname_of (d : rdata) : str := match d with CNAME n => n | _ => None end.

(** The loop, given the recursive call; [depth] is incremented at every alias. *)
Fixpoint apply_loop (rec : str -> Z -> W -> option (option Z * W)) (le : list (Z * dnsrr))
    (nm : str) (depth : Z) (w : W) : option (option Z * W) :=
  match le with
  | [] => Some (None, w)
  | (p, rr) :: le =>
      if filtered nm rr then apply_loop rec le nm depth w
      else
        let '(stop, w) := match rrlh with None => (true, w) | Some f => f p rr w end in
        if stop then Some (Some p, w)
        else if follows rr then
          let depth := u32 (depth + 1) in
          '(r, w) ← rec (cname_of (rr_data rr)) depth w;
          match r with
          | Some q => Some (Some q, w)
          | None => apply_loop rec le nm depth w
          end
        else apply_loop rec le nm depth w
  end.

Fixpoint rrlist_apply (fuel : nat) (nm : str) (depth : Z) (w : W) : option (option Z * W) :=
  match fuel with
  | O => None
  | S fuel =>
      if CNAME_RECURSE_MAX <? depth then Some (None, w)
      else apply_loop (rrlist_apply fuel) rrl nm depth w
  end.

(** Every call is one deeper: 18 are enough. *)
Definition apply_fuel : nat := 18.

End Apply.

Definition dns_rrlist_apply {W} rrl nm ty cls recurse rrlh (w : W) :=
  rrlist_apply rrl ty ty cls recurse rrlh apply_fuel nm 0 w.
Definition dns_rrlist_apply2 {W} rrl nm ty1 ty2 cls recurse rrlh (w : W) :=
  rrlist_apply rrl ty1 ty2 cls recurse rrlh apply_fuel nm 0 w.

Definition find_handler (ty : Z) (p : Z) (rr : dnsrr) (w : unit) : bool * unit := (type rr =? ty, w).
Definition dns_rrlist_find rrl nm ty cls recurse :=
  rrlist_apply rrl ty ty cls recurse (Some (find_handler ty)) apply_fuel nm 0 tt.

(** ** The order *)

(** Where a record belongs: records of the type first, by preference (MX), by priority
    and then those of weight zero (SRV), by order and preference (NAPTR). *)
Definition sort_key (ty : Z) (rr : dnsrr) : Z * Z * Z :=
  if negb (type rr =? ty) then (1, 0, 0)
  else match rr_data rr with
  | MX p _ => (0, p, 0)
  | SRV pri w _ _ => (0, pri, if w =? 0 then 0 else 1)
  | NAPTR o p _ _ _ _ => (0, o, p)
  | _ => (0, 0, 0)
  end.

Definition key_le (a b : Z * Z * Z) : Prop :=
  let '(a1, a2, a3) := a in let '(b1, b2, b3) := b in
  a1 < b1 \/ (a1 = b1 /\ (a2 < b2 \/ (a2 = b2 /\ a3 <= b3))).

(** A record of unknown data has none of the types that are sorted. *)
Definition typed (rr : dnsrr) : Prop := match rr_data rr with
  | Other t => t <> DNS_TYPE_MX /\ t <> DNS_TYPE_SRV /\ t <> DNS_TYPE_NAPTR | _ => True end.

Lemma std_sort_handler_key ty a b : typed a -> typed b ->
  std_sort_handler ty a b = true <-> key_le (sort_key ty a) (sort_key ty b).
Proof.
  unfold std_sort_handler, sort_key, key_le, typed.
  destruct a as [? ? ? ? [] ], b as [? ? ? ? [] ]; cbn [type type_of rr_data] in *; intros Ha Hb;
    repeat match goal with |- context [?x =? ?y] => destruct (Z.eqb_spec x y) end;
    subst; simpl; try done; try (split; [lia|done]); try lia.
Qed.
Lemma key_le_total x y : key_le x y \/ key_le y x.
Proof. destruct x as [[]], y as [[]]. unfold key_le. lia. Qed.
Lemma key_le_trans x y z : key_le x y -> key_le y z -> key_le x z.
Proof. destruct x as [[]], y as [[]], z as [[]]. unfold key_le. lia. Qed.

(** Sorting a list of records: [dns_rrlist_sort] ends on every list and leaves the
    heap well-formed, the list holding the same elements in the order of [sort_key]:
    the records of the type first, by preference (MX), by priority and weight zero
    first (SRV), by order and preference (NAPTR). *)
Theorem dns_rrlist_sort_order rrs h ls L xs ty fuel :
  LinkedList.heap_ok h ls -> ls !! L = Some xs -> (forall p, typed (rrs p)) ->
  (length xs * length xs < fuel)%nat ->
  exists h' ys, dns_rrlist_sort fuel rrs h L ty = Some h' /\
    LinkedList.heap_ok h' (<[L := ys]> ls) /\ ys ≡ₚ xs /\
    StronglySorted key_le (map (fun le => sort_key ty (rrs (snd le))) ys).
Proof.
  intros Hh HL Ht Hf.
  assert (forall x y, sort_le rrs ty x y = true <->
    key_le (sort_key ty (rrs (snd x))) (sort_key ty (rrs (snd y)))) as Hk.
  { intros x y. by apply std_sort_handler_key. }
  destruct (LinkedList.list_sort_ok (sort_le rrs ty) h ls L xs fuel Hh HL) as (h'&ys&E&Hh'&Hp&Hs&_&_);
    [| |done|].
  - intros x y Hxy. rewrite Hk. destruct (key_le_total (sort_key ty (rrs (snd y))) (sort_key ty (rrs (snd x))));
      [done|]. apply Hk in H. congruence.
  - intros x y z. rewrite !Hk. apply key_le_trans.
  - exists h', ys. split_and!; try done. clear -Hs Hk. induction Hs as [|x ys _ IH Hx]; simpl; constructor.
    + done.
    + apply Forall_map. eapply Forall_impl; [exact Hx|]. intros y. apply Hk.
Qed.

(** [rrlist_sort] is what [dns_rrlist_sort] does to a list of the heap. *)
Lemma dns_rrlist_sort_list rrs h ls L xs ty fuel :
  LinkedList.heap_ok h ls -> ls !! L = Some xs -> (forall p, typed (rrs p)) ->
  (length xs * length xs < fuel)%nat ->
  exists h' ys, dns_rrlist_sort fuel rrs h L ty = Some h' /\ LinkedList.heap_ok h' (<[L := ys]> ls) /\
    map (fun le => (snd le, rrs (snd le))) ys = rrlist_sort ty (map (fun le => (snd le, rrs (snd le))) xs).
Proof.
  intros Hh HL Ht Hf.
  assert (forall x y, sort_le rrs ty x y = true <->
    key_le (sort_key ty (rrs (snd x))) (sort_key ty (rrs (snd y)))) as Hk.
  { intros x y. by apply std_sort_handler_key. }
  destruct (LinkedList.list_sort_ok (sort_le rrs ty) h ls L xs fuel Hh HL) as (h'&ys&E&Hh'&_&_&_&Hy);
    [| |done|].
  - intros x y Hxy. rewrite Hk. destruct (key_le_total (sort_key ty (rrs (snd y))) (sort_key ty (rrs (snd x))));
      [done|]. apply Hk in H. congruence.
  - intros x y z. rewrite !Hk. apply key_le_trans.
  - exists h', ys. split_and!; [done|done|]. unfold rrlist_sort. rewrite length_map, Hy.
    symmetry. by apply LinkedList.bubble_sort_map.
Qed.

Lemma rrlist_sort_ok ty l : Forall (fun x => typed (snd x)) l ->
  rrlist_sort ty l ≡ₚ l /\ StronglySorted key_le (map (fun x => sort_key ty (snd x)) (rrlist_sort ty l)).
Proof.
  intros Ht. unfold rrlist_sort. set (sh := fun _ _ => _).
  destruct (LinkedList.bubble_sort_ok sh (S (length l * length l))) with (l := l) as [Hp Hs].
  - intros [? a] [? b]. unfold sh, std_sort_handler. cbn [snd].
    destruct a as [? ? ? ? [] ], b as [? ? ? ? [] ]; cbn [type type_of rr_data];
      repeat match goal with |- context [?x =? ?y] => destruct (Z.eqb_spec x y) end; subst; simpl; try done; lia.
  - pose proof (LinkedList.inversions_bound sh l). lia.
  - split; [done|]. apply Sorted_StronglySorted; [intros ???; apply key_le_trans|].
    assert (Forall (fun x => typed (snd x)) (LinkedList.bubble_sort sh (S (length l * length l)) l)) as Ht' by by rewrite Hp.
    clear Hp. induction Hs as [|x ys _ IH Hx]; simpl; [constructor|]. apply Forall_cons in Ht' as [Hxt Ht'].
    constructor; [by apply IH|]. destruct Hx as [|y ys Hxy]; simpl; constructor. apply Forall_cons in Ht' as [? _]. by apply std_sort_handler_key.
Qed.

(** ** The search *)

Section ApplyProofs.
Context {W : Type} (rrl : list (Z * dnsrr)) (type1 type2 cls : Z) (recurse : bool).
Context (rrlh : option (Z -> dnsrr -> W -> bool * W)).

Lemma apply_loop_total rec le : forall nm depth w,
  (forall nm d w, depth < d <= depth + Z.of_nat (length le) -> is_Some (rec nm d w)) ->
  0 <= depth -> depth + Z.of_nat (length le) < 2 ^ 32 ->
  is_Some (apply_loop type1 type2 cls recurse rrlh rec le nm depth w).
Proof.
  induction le as [|[p rr] le IH]; intros nm depth w Hr H0 Hd; cbn [apply_loop]; [by eexists|].
  cbn [length] in *.
  assert (forall w d, depth <= d <= depth + 1 ->
    is_Some (apply_loop type1 type2 cls recurse rrlh rec le nm d w)) as Hk.
  { intros w' d ?. apply IH; [|lia|lia]. intros nm' d' w'' ?. apply Hr. lia. }
  case_match; [apply Hk; lia|]. destruct (match rrlh with None => _ | Some _ => _ end) as [[] w']; [by eexists|].
  case_match; [|apply Hk; lia].
  assert (u32 (depth + 1) = depth + 1) as -> by (unfold u32; rewrite Z.mod_small; lia).
  destruct (Hr (cname_of (rr_data rr)) (depth + 1) w') as [[[q|] w''] ->]; [lia|by eexists|].
  apply Hk. lia.
Qed.

Lemma rrlist_apply_total fuel : Z.of_nat (length rrl) < 2 ^ 31 -> forall nm depth w, 0 <= depth ->
  (1 <= fuel)%nat -> 18 - depth <= Z.of_nat fuel ->
  is_Some (rrlist_apply rrl type1 type2 cls recurse rrlh fuel nm depth w).
Proof.
  intros Hl. induction fuel as [|fuel IH]; intros nm depth w H0 H1 Hf; [lia|].
  cbn [rrlist_apply]. unfold CNAME_RECURSE_MAX. destruct (Z.ltb_spec 16 depth); [by eexists|].
  apply apply_loop_total; [|lia|lia]. intros nm' d w' ?. apply IH; lia.
Qed.

(** What a search keeps of the handler's state, and what it stops at. *)
Lemma apply_loop_inv (P : W -> Prop) f rec le : rrlh = Some f ->
  (forall nm p rr w, (p, rr) ∈ rrl -> filtered type1 type2 cls recurse nm rr = false -> P w -> P (snd (f p rr w))) ->
  (forall x, x ∈ le -> x ∈ rrl) ->
  let stops (r : option Z) w' := match r with
    | Some p => exists nm rr w, (p, rr) ∈ rrl /\ filtered type1 type2 cls recurse nm rr = false /\ P w /\ f p rr w = (true, w')
    | None => True end in
  (forall nm d w r w', P w -> rec nm d w = Some (r, w') -> P w' /\ stops r w') ->
  forall nm depth w r w', P w -> apply_loop type1 type2 cls recurse rrlh rec le nm depth w = Some (r, w') -> P w' /\ stops r w'.
Proof.
  intros -> Hf Hin stops Hrec. induction le as [|[p rr] le IH]; intros nm depth w r w' Hw; cbn [apply_loop].
  { intros [= <- <-]. by split. }
  assert (forall x, x ∈ le -> x ∈ rrl) as Hin' by (intros x Hx; apply Hin; by right).
  destruct (filtered type1 type2 cls recurse nm rr) eqn:Ef; [by apply (IH Hin')|].
  assert ((p, rr) ∈ rrl) as Hp by (apply Hin; left).
  pose proof (Hf nm p rr w Hp Ef Hw) as Hw1.
  destruct (f p rr w) as [[] w1] eqn:E; cbn [snd] in *.
  - intros [= <- <-]. split; [done|]. exists nm, rr, w. by split_and!.
  - destruct (follows type1 type2 recurse rr); [|by apply (IH Hin')].
    destruct (rec _ _ w1) as [[[q|] w2]|] eqn:E1; cbn [mbind option_bind]; [| |done];
      destruct (Hrec _ _ _ _ _ Hw1 E1) as [Hw2 Hs].
    + intros [= <- <-]. by split.
    + by apply (IH Hin').
Qed.

Lemma rrlist_apply_inv (P : W -> Prop) f : rrlh = Some f ->
  (forall nm p rr w, (p, rr) ∈ rrl -> filtered type1 type2 cls recurse nm rr = false -> P w -> P (snd (f p rr w))) ->
  forall fuel nm depth w r w', P w ->
  rrlist_apply rrl type1 type2 cls recurse rrlh fuel nm depth w = Some (r, w') -> P w' /\
  match r with
  | Some p => exists nm rr w, (p, rr) ∈ rrl /\ filtered type1 type2 cls recurse nm rr = false /\ P w /\ f p rr w = (true, w')
  | None => True end.
Proof.
  intros Hh Hf. induction fuel as [|fuel IH]; intros nm depth w r w' Hw; [done|]. cbn [rrlist_apply].
  destruct (CNAME_RECURSE_MAX <? depth); [intros [= <- <-]; by split|].
  by apply (apply_loop_inv P f _ rrl Hh Hf).
Qed.

(** The searches are total, and keep what the handler keeps. *)
Lemma dns_apply_ok (P : W -> Prop) f nm w : rrlh = Some f -> Z.of_nat (length rrl) < 2 ^ 31 ->
  (forall nm p rr w, (p, rr) ∈ rrl -> filtered type1 type2 cls recurse nm rr = false -> P w -> P (snd (f p rr w))) ->
  P w -> exists r w', rrlist_apply rrl type1 type2 cls recurse rrlh apply_fuel nm 0 w = Some (r, w') /\ P w' /\
  match r with
  | Some p => exists nm rr w, (p, rr) ∈ rrl /\ filtered type1 type2 cls recurse nm rr = false /\ P w /\ f p rr w = (true, w')
  | None => True end.
Proof.
  intros Hh Hl Hf Hw.
  destruct (rrlist_apply_total apply_fuel Hl nm 0 w) as [[r w'] E]; [lia|unfold apply_fuel; lia|unfold apply_fuel; lia|].
  exists r, w'. split; [done|]. by apply (rrlist_apply_inv P f Hh Hf) in E.
Qed.

End ApplyProofs.

(** ** What [dns_rrlist_find] finds *)

Section Find.
Context (rrl : list (Z * dnsrr)) (ty cls : Z) (recurse : bool).

Definition owned (nm : str) (rr : dnsrr) : Prop :=
  match nm with Some _ => str_same nm (rr_name rr) = true | None => True end.
Definition in_class (rr : dnsrr) : Prop := cls = DNS_QCLASS_ANY \/ dnsclass rr = cls.

(** An alias of a name, and the names that a number of aliases lead to. *)
Definition alias (nm : str) (rr : dnsrr) : Prop :=
  type rr = DNS_TYPE_CNAME /\ owned nm rr /\ in_class rr.
Inductive chain : nat -> str -> str -> Prop :=
| chain_here nm : chain 0 nm nm
| chain_alias k nm p rr nm' : (p, rr) ∈ rrl -> alias nm rr ->
    chain k (cname_of (rr_data rr)) nm' -> chain (S k) nm nm'.

(** The aliases that are followed: none for a query of aliases or of any type. *)
Definition hops : nat :=
  if recurse && negb (ty =? DNS_QTYPE_ANY) && negb (ty =? DNS_TYPE_CNAME) then 16 else 0.

(** A record that answers the query for a name, at most [n] aliases away. *)
Definition answer (n : nat) (nm : str) (rr : dnsrr) : Prop := type rr = ty /\ in_class rr /\
  exists k nm', (k <= n)%nat /\ chain k nm nm' /\ owned nm' rr.

(** No name has a second alias. *)
Definition one_alias : Prop := forall nm l1 x l2, rrl = l1 ++ x :: l2 -> alias nm (snd x) ->
  Forall (fun y => ~ alias nm (snd y)) l1.

Let filt := filtered ty ty cls recurse.
Let fol := follows ty ty recurse.

Lemma filtered_false nm rr : filt nm rr = false <->
  owned nm rr /\ in_class rr /\
  (ty = DNS_QTYPE_ANY \/ type rr = ty \/ (type rr = DNS_TYPE_CNAME /\ recurse = true)).
Proof.
  unfold filt, filtered, owned, in_class. rewrite !orb_false_iff, !andb_false_iff, !orb_false_iff, !negb_false_iff, !Z.eqb_eq.
  destruct nm; rewrite ?negb_false_iff; tauto.
Qed.

Lemma follows_true rr : fol rr = true <-> hops = 16%nat /\ type rr = DNS_TYPE_CNAME.
Proof.
  unfold fol, follows, hops.
  rewrite (Z.eqb_sym ty DNS_QTYPE_ANY), (Z.eqb_sym ty DNS_TYPE_CNAME), (Z.eqb_sym _ (type rr)).
  destruct recurse, (DNS_QTYPE_ANY =? ty), (DNS_TYPE_CNAME =? ty); simpl; rewrite ?Z.eqb_eq;
    split; try done; by intros [].
Qed.

Let go := rrlist_apply rrl ty ty cls recurse (Some (find_handler ty)).
Let loop rec := apply_loop ty ty cls recurse (Some (find_handler ty)) rec.

Lemma answer_more n n' nm rr : (n <= n')%nat -> answer n nm rr -> answer n' nm rr.
Proof. intros H (?&?&k&nm'&?&?). split_and!; try done. exists k, nm'. split; [lia|done]. Qed.

Definition found (depth : Z) (nm : str) (p : Z) : Prop :=
  exists rr, (p, rr) ∈ rrl /\ answer (hops - Z.to_nat depth) nm rr.

Lemma loop_sound rec p (le : list (Z * dnsrr)) : (forall x, x ∈ le -> x ∈ rrl) -> forall nm depth,
  (forall nm d, depth < d -> rec nm d tt = Some (Some p, tt) -> d <= 16 /\ found d nm p) ->
  0 <= depth -> depth + Z.of_nat (length le) < 2 ^ 32 ->
  loop rec le nm depth tt = Some (Some p, tt) -> found depth nm p.
Proof.
  intros Hin. induction le as [|[q rr] le IH]; intros nm depth Hr H0 Hd; [done|]. unfold loop in *.
  cbn [apply_loop length find_handler] in *.
  assert (forall d, depth <= d <= depth + 1 -> apply_loop ty ty cls recurse (Some (find_handler ty))
    rec le nm d tt = Some (Some p, tt) -> found depth nm p) as Hk.
  { intros d ? E. destruct (IH (fun x Hx => Hin x (list_elem_of_further x _ _ Hx)) nm d) as (r&?&Ha); [|lia|lia|done|].
    - intros nm' d' ?. apply Hr. lia.
    - exists r. split; [done|]. eapply answer_more; [|exact Ha]. lia. }
  fold (filt nm rr) (fol rr). destruct (filt nm rr) eqn:Ef; [apply Hk; lia|].
  apply filtered_false in Ef as (Ho&Hc&_).
  destruct (Z.eqb_spec (type rr) ty) as [Et|_].
  - intros [= <-]. exists rr. split; [apply Hin; left|]. split_and!; [done|done|].
    exists 0%nat, nm. split_and!; [lia|constructor|done].
  - destruct (fol rr) eqn:Efo; [|apply Hk; lia]. apply follows_true in Efo as [Hh Et].
    assert (u32 (depth + 1) = depth + 1) as -> by (unfold u32; rewrite Z.mod_small; lia).
    destruct (rec _ (depth + 1) tt) as [[[q'|] []]|] eqn:E; cbn [mbind option_bind]; [|apply Hk; lia|done].
    intros [= ->]. destruct (Hr _ (depth + 1) ltac:(lia) E) as (Hd'&r&?&?&?&k&nm'&Hkn&?&?).
    exists r. split; [done|]. split_and!; [done|done|]. exists (S k), nm'. split_and!; [lia| |done].
    apply (chain_alias k nm q rr); [apply Hin; left|by split_and!|done].
Qed.

Lemma go_sound p fuel : Z.of_nat (length rrl) < 2 ^ 31 -> forall nm depth, 0 <= depth ->
  go fuel nm depth tt = Some (Some p, tt) -> depth <= 16 /\ found depth nm p.
Proof.
  intros Hl. induction fuel as [|fuel IH]; intros nm depth H0; [done|]. unfold go in *.
  cbn [rrlist_apply]. unfold CNAME_RECURSE_MAX. destruct (Z.ltb_spec 16 depth); [done|].
  intros E. split; [lia|]. apply loop_sound in E; [done|done| |lia|lia].
  intros nm' d ?. apply IH. lia.
Qed.

(** An answer in the list is found, or another. *)
Lemma loop_complete0 rec (le : list (Z * dnsrr)) rr p nm : (p, rr) ∈ le -> type rr = ty -> in_class rr ->
  owned nm rr -> forall depth,
  (forall nm d, depth < d -> is_Some (rec nm d tt)) -> 0 <= depth -> depth + Z.of_nat (length le) < 2 ^ 32 ->
  exists q, loop rec le nm depth tt = Some (Some q, tt).
Proof.
  intros Hin Ht Hc Ho. induction le as [|[q r] le IH]; intros depth Hr H0 Hd; [by apply elem_of_nil in Hin|].
  unfold loop in *. cbn [apply_loop length find_handler] in *. fold (filt nm r) (fol r).
  apply elem_of_cons in Hin as [[= <- <-]|Hin].
  - assert (filt nm rr = false) as -> by (apply filtered_false; auto 10).
    rewrite (proj2 (Z.eqb_eq _ _) Ht). by eexists.
  - assert (forall d, depth <= d <= depth + 1 -> exists q, apply_loop ty ty cls recurse (Some (find_handler ty))
      rec le nm d tt = Some (Some q, tt)) as Hk.
    { intros d ?. apply IH; [done| |lia|lia]. intros nm' d' ?. apply Hr. lia. }
    destruct (filt nm r); [apply Hk; lia|]. destruct (type r =? ty); [by eexists|].
    destruct (fol r); [|apply Hk; lia].
    assert (u32 (depth + 1) = depth + 1) as -> by (unfold u32; rewrite Z.mod_small; lia).
    destruct (Hr (cname_of (rr_data r)) (depth + 1)) as [[[q'|] []] ->]; [lia|by eexists|].
    apply Hk. lia.
Qed.

(** An alias is followed with the depth the search began with: no other comes first. *)
Lemma loop_complete1 rec (l1 l2 : list (Z * dnsrr)) rr p nm depth : hops = 16%nat -> alias nm rr ->
  Forall (fun y => ~ alias nm (snd y)) l1 -> 0 <= depth < 2 ^ 31 ->
  (exists q, rec (cname_of (rr_data rr)) (depth + 1) tt = Some (Some q, tt)) ->
  exists q, loop rec (l1 ++ (p, rr) :: l2) nm depth tt = Some (Some q, tt).
Proof.
  intros Hh Ha Hl1 Hd [q Hq]. pose proof Ha as (Ht&Ho&Hc).
  assert (recurse = true /\ ty <> DNS_TYPE_CNAME) as [Hrec Hty].
  { revert Hh. unfold hops. destruct recurse; [|done]. destruct (Z.eqb_spec ty DNS_TYPE_CNAME); [|done].
    destruct (ty =? DNS_QTYPE_ANY); done. }
  unfold loop. induction l1 as [|[p' r'] l1 IH]; cbn [app apply_loop find_handler].
  - fold (filt nm rr) (fol rr). assert (filt nm rr = false) as -> by (apply filtered_false; auto 10).
    destruct (Z.eqb_spec (type rr) ty); [congruence|].
    assert (fol rr = true) as -> by by apply follows_true.
    assert (u32 (depth + 1) = depth + 1) as -> by (unfold u32; rewrite Z.mod_small; lia).
    rewrite Hq. by eexists.
  - apply Forall_cons in Hl1 as [Hn Hl1]. cbn [snd] in Hn. fold (filt nm r') (fol r').
    destruct (filt nm r') eqn:Ef; [by apply IH|]. destruct (type r' =? ty); [by eexists|].
    destruct (fol r') eqn:Efo; [|by apply IH]. destruct Hn.
    apply filtered_false in Ef as (?&?&_). apply follows_true in Efo as [_ ?]. by split_and!.
Qed.

Lemma go_complete n : Z.of_nat (length rrl) < 2 ^ 31 -> one_alias -> forall k nm nm' rr p depth fuel,
  chain k nm nm' -> (p, rr) ∈ rrl -> type rr = ty -> in_class rr -> owned nm' rr ->
  n = k -> 0 <= depth <= 16 -> (k + Z.to_nat depth <= hops)%nat \/ k = 0%nat -> 18 - depth <= Z.of_nat fuel ->
  exists q, go fuel nm depth tt = Some (Some q, tt).
Proof.
  intros Hl H1. induction n as [|n IH]; intros k nm nm' rr p depth fuel Hch Hin Ht Hc Ho <- Hd Hk Hf;
    (destruct fuel as [|fuel]; [lia|]); unfold go; cbn [rrlist_apply]; unfold CNAME_RECURSE_MAX;
    (destruct (Z.ltb_spec 16 depth); [lia|]).
  - inversion Hch; subst. apply (loop_complete0 _ rrl rr p); try done; [|lia|lia].
    intros nm d ?. apply rrlist_apply_total; lia.
  - inversion Hch as [|? ? pa ra ? Hina Ha Hch']; subst. destruct Hk as [Hk|]; [|done].
    assert (hops = 16%nat) as Hh by (revert Hk; unfold hops; case_match; lia).
    apply list_elem_of_split in Hina as (l1&l2&E). rewrite E.
    apply loop_complete1; [done|done|by apply (H1 nm l1 (pa, ra) l2)|lia|]. rewrite <- E.
    apply (IH n _ nm' rr p); try done; lia.
Qed.

(** [dns_rrlist_find] always returns, whatever loops the aliases of the list form,
    and what it returns is exact: a record of the type and class asked for, owned by
    the name or by one that at most sixteen aliases lead to (none when [recurse] is
    false or the query is for aliases or any type); and if no name has two aliases it
    returns NULL only when the list has no such record. *)
Theorem dns_rrlist_find_exact nm : Z.of_nat (length rrl) < 2 ^ 31 ->
  exists r, dns_rrlist_find rrl nm ty cls recurse = Some (r, tt) /\
    (forall p, r = Some p -> exists rr, (p, rr) ∈ rrl /\ answer hops nm rr) /\
    (one_alias -> r = None -> forall p rr, (p, rr) ∈ rrl -> ~ answer hops nm rr).
Proof.
  intros Hl. unfold dns_rrlist_find.
  destruct (rrlist_apply_total rrl ty ty cls recurse (Some (find_handler ty)) apply_fuel Hl nm 0 tt)
    as [[r []] E]; [lia|unfold apply_fuel; lia|done|].
  exists r. split; [exact E|]. split.
  - intros p ->. destruct (go_sound p apply_fuel Hl nm 0 ltac:(lia) E) as (_&rr&?&Ha).
    exists rr. split; [done|]. eapply answer_more; [|exact Ha]. lia.
  - intros H1 -> p rr Hin (Ht&Hc&k&nm'&Hk&Hch&Ho).
    destruct (go_complete k Hl H1 k nm nm' rr p 0 apply_fuel) as [q Eq]; try done; try lia.
    unfold go in Eq. congruence.
Qed.

End Find.

(** *** Witnesses: an alias, and a loop *)

Definition ex_list : list (Z * dnsrr) :=
  [(100, mk_dnsrr (Some [97]) 1 0 0 (CNAME (Some [66])));
   (101, mk_dnsrr (Some [98]) 1 0 0 (A 7));
   (102, mk_dnsrr (Some [99]) 1 0 0 (CNAME (Some [67])))].

Lemma dns_rrlist_find_exact_witness :
  (exists rr, (101, rr) ∈ ex_list /\ answer ex_list DNS_TYPE_A 1 (hops DNS_TYPE_A true) (Some [65]) rr) /\
  dns_rrlist_find ex_list (Some [99]) DNS_TYPE_A 1 true = Some (None, tt).
Proof.
  destruct (dns_rrlist_find_exact ex_list DNS_TYPE_A 1 true (Some [65])) as (r&E&H&_); [simpl; lia|].
  split; [|by vm_compute]. apply H.
  assert (dns_rrlist_find ex_list (Some [65]) DNS_TYPE_A 1 true = Some (Some 101, tt)) as E' by by vm_compute.
  congruence.
Defined.

Definition ex_rrs (p : Z) : dnsrr := mk_dnsrr None 1 0 0
  (if p =? 30 then MX 20 None else if p =? 20 then MX 10 None else A 0).

Lemma dns_rrlist_sort_order_witness : exists h' ys,
  dns_rrlist_sort 10 ex_rrs LinkedList.ex_h 10 DNS_TYPE_MX = Some h' /\
  LinkedList.heap_ok h' (<[10 := ys]> LinkedList.ex_ls) /\
  StronglySorted key_le (map (fun le => sort_key DNS_TYPE_MX (ex_rrs (snd le))) ys).
Proof.
  destruct (dns_rrlist_sort_order ex_rrs LinkedList.ex_h LinkedList.ex_ls 10
    [(1, 30); (2, 20); (3, 20)] DNS_TYPE_MX 10%nat LinkedList.ex_heap_ok) as (h'&ys&?&?&_&?).
  - by vm_compute.
  - intros p. unfold ex_rrs, typed. cbn [rr_data]. by repeat case_match.
  - simpl. lia.
  - by exists h', ys.
Defined.

End RrList.
