(* ===== verification/Regex.v ===== *)
(** * The expressions of the parsers: src/libre/src/fmt/regex.c

    [re_regex] interprets an expression while it matches: literals up to case, and
    character classes with a quantifier, each of which takes as much text as it can and
    is stored through the next argument.  The arguments are a list that says which of
    them are not null; the result has what was stored through each of them, which an
    attempt that failed does not take back.  [None] is undefined behaviour: an access
    outside the array of ranges, or an argument that is not there.  The meaning of an
    expression is a relation on texts, to which the search is compared. *)
From S2P Require Import Prelude Pl.
Import Pl.

Module Regex.

(** ** The interpreter *)

Record chr := mk_chr { cmin : Z; cmax : Z }.

Definition chrv_size : nat := 64.

Definition in_chr (c : Z) (e : chr) : bool := (cmin e <=? c) && (c <=? cmax e).

Definition expr_match (chrv : list chr) (n : nat) (c : Z) (neg : bool) : bool :=
  let hit := existsb (in_chr c) (take n chrv) in
  if neg then negb hit else hit.

(** The store to [chrv[n]]; [chrv] is the initialised part of the array. *)
Definition put_chr (chrv : list chr) (n : nat) (range : bool) (c : Z) : option (list chr) :=
  if (n <? chrv_size)%nat then
    match chrv !! n with
    | Some e => Some (<[n := mk_chr (if range then cmin e else c) c]> chrv)
    | None => if range then None else Some (chrv ++ [mk_chr c c])
    end
  else None.

(** The loop of a class: how many characters it takes. *)
Fixpoint class_loop (cls : Z -> bool) (qesc : bool) (nmax : Z) (t : list Z) (nm : Z) (quote esc : bool) : Z :=
  match t with
  | [] => nm
  | c :: t =>
      if nm <? nmax then
        if qesc && esc then class_loop cls qesc nmax t (nm + 1) quote false
        else if qesc && (c =? 92) then class_loop cls qesc nmax t (nm + 1) quote true
        else if qesc && (c =? 34) then class_loop cls qesc nmax t (nm + 1) (negb quote) esc
        else if qesc && quote then class_loop cls qesc nmax t (nm + 1) quote esc
        else if negb (cls c) then nm
        else class_loop cls qesc nmax t (nm + 1) quote esc
      else nm
  end.

Definition UINT32_MAX : Z := 4294967295.

(** [nmin] and [nmax] *)
Definition quantifier (e : Z) : option (Z * Z) :=
  if e =? 42 then Some (0, UINT32_MAX)
  else if e =? 43 then Some (1, UINT32_MAX)
  else if (49 <=? e) && (e <=? 57) then Some (e - 48, e - 48)
  else None.

Definition strip_quotes (qesc : bool) (lpl : pl) (nm : Z) : pl * Z :=
  if qesc && (1 <? pl_l lpl) && bool_decide (head (pl_s lpl) = Some 34) &&
     bool_decide (last (pl_s lpl) = Some 34)
  then (mk_pl (pl_p lpl + 1) (take (length (pl_s lpl) - 2) (drop 1 (pl_s lpl))), nm - 2)
  else (lpl, nm).

(** The variables of an attempt: those that follow the expression, and the place in the
    text, the number of arguments used and what was stored. *)
Record ctl := mk_ctl { eesc : bool; fm : bool; range : bool; ec : bool; neg : bool;
  qesc : bool; n : nat; chrv : list chr }.
Record place := mk_place { p : Z; t : list Z; argi : nat; outs : list (option pl) }.

(** [goto again], or the end of the loop: the value of [fm], and whether [*ep] is set. *)
Inductive outcome := Again | Stop (fm more : bool).

Definition set_eesc (k : ctl) (b : bool) : ctl :=
  mk_ctl b (fm k) (range k) (ec k) (neg k) (qesc k) (n k) (chrv k).
Definition set_flags (k : ctl) (rg c ng q : bool) (m : nat) : ctl :=
  mk_ctl (eesc k) (fm k) rg c ng q m (chrv k).
Definition open_class (k : ctl) : ctl := mk_ctl (eesc k) true false false false false 0 (chrv k).
Definition close_class (k : ctl) : ctl :=
  mk_ctl false false (range k) (ec k) (neg k) (qesc k) (n k) (chrv k).

(** A character of a class; also whether the array is full. *)
Definition class_char (k : ctl) (e : Z) : option (bool * ctl) :=
  v ← put_chr (chrv k) (n k) (range k) (tolower e);
  Some ((chrv_size <? S (n k))%nat, mk_ctl false (fm k) false (ec k) (neg k) (qesc k) (S (n k)) v).

(** The [switch] inside a class; [None] is a character of the class. *)
Definition class_switch (k : ctl) (e : Z) : option ctl :=
  if e =? 93 then Some (set_flags k (range k) true (neg k) (qesc k) (n k))
  else if e =? 126 then
    match n k with O => Some (set_flags k (range k) (ec k) true true O) | S _ => None end
  else if e =? 94 then
    match n k with O => Some (set_flags k (range k) (ec k) true (qesc k) O) | S _ => None end
  else if e =? 45 then
    match n k with
    | S m => if range k then None else Some (set_flags k true (ec k) (neg k) (qesc k) m)
    | O => None
    end
  else None.

Section Expr.
Context (args : list bool).

(** The end of a class: what it takes of the text, and the argument that gets it. *)
Definition class_end (cls : Z -> bool) (qesc : bool) (nmin nmax : Z) (arg : bool) (s : place) :
    option place :=
  let k := class_loop cls qesc nmax (t s) 0 false false in
  let '(lpl, nm) := strip_quotes qesc (mk_pl (p s) (take (Z.to_nat k) (t s))) k in
  if (nm <? nmin) || (nmax <? nm) then None
  else Some (mk_place (p s + k) (drop (Z.to_nat k) (t s)) (S (argi s))
               (if arg then <[argi s := Some lpl]> (outs s) else outs s)).

Fixpoint re_loop (ep : list Z) (k : ctl) (s : place) : option (outcome * list (option pl)) :=
  match ep with
  | [] => Some (Stop (fm k) false, outs s)
  | e :: ep =>
      if (e =? 92) && negb (eesc k) then re_loop ep (set_eesc k true) s
      else if negb (fm k) then
        if (e =? 91) && negb (eesc k) then re_loop ep (open_class k) s
        else match t s with
        | [] => Some (Stop false true, outs s)
        | c :: r =>
            if negb (tolower e =? tolower c) then Some (Again, outs s)
            else re_loop ep (set_eesc k false) (mk_place (p s + 1) r (argi s) (outs s))
        end
      else if ec k then
        arg ← args !! argi s;
        match quantifier e with
        | None => Some (Stop true true, outs s)
        | Some (nmin, nmax) =>
            match class_end (fun c => expr_match (chrv k) (n k) (tolower c) (neg k)) (qesc k) nmin nmax arg s with
            | None => Some (Again, outs s)
            | Some s => re_loop ep (close_class k) s
            end
        end
      else
        match (if eesc k then None else class_switch k e) with
        | Some k => re_loop ep k s
        | None =>
            '(full, k) ← class_char k e;
            if full : bool then Some (Stop true true, outs s) else re_loop ep k s
        end
  end.

(** The attempts, at every position.  What is left in the array from the one before is
    not read. *)
Definition ctl0 : ctl := mk_ctl false false false false false false 0 [].

Fixpoint again (expr : list Z) (ptr : Z) (text : list Z) (os : list (option pl)) :
    option (Z * list (option pl)) :=
  match text with
  | [] => Some (match expr with [] => 0 | _ => ENOENT end, os)
  | c :: rest =>
      '(r, os) ← re_loop expr ctl0 (mk_place ptr text 0 os);
      match r with
      | Again => again expr (ptr + 1) rest os
      | Stop fm more => Some (if fm then EINVAL else if more then ENOENT else 0, os)
      end
  end.

End Expr.

Definition re_regex (x : pl) (expr : list Z) (args : list bool) : option (Z * list (option pl)) :=
  if pl_p x =? 0 then Some (EINVAL, map (fun _ => None) args)
  else again args expr (pl_p x) (pl_s x) (map (fun _ => None) args).

(** ** What an expression means

    The items of an expression, and the texts they match: a class takes the longest run
    it can, and there is no second choice. *)

Inductive item := Lit (c : Z) | Cls (cs : list chr) (ng q : bool) (nmin nmax : Z).

Fixpoint compile (ep : list Z) (k : ctl) : option (list item) :=
  match ep with
  | [] => if fm k then None else Some []
  | e :: ep =>
      if (e =? 92) && negb (eesc k) then compile ep (set_eesc k true)
      else if negb (fm k) then
        if (e =? 91) && negb (eesc k) then compile ep (open_class k)
        else its ← compile ep (set_eesc k false); Some (Lit e :: its)
      else if ec k then
        '(nmin, nmax) ← quantifier e;
        its ← compile ep (close_class k);
        Some (Cls (take (n k) (chrv k)) (neg k) (qesc k) nmin nmax :: its)
      else
        match (if eesc k then None else class_switch k e) with
        | Some k => compile ep k
        | None => '(full, k) ← class_char k e; if full : bool then None else compile ep k
        end
  end.

Definition items (expr : list Z) : option (list item) := compile expr ctl0.

Definition in_class (cs : list chr) (ng : bool) (c : Z) : bool :=
  let hit := existsb (in_chr (tolower c)) cs in if ng then negb hit else hit.

(** A word a class can take: quoted strings and escaped characters are taken whole by a
    class that starts with a tilde. *)
Fixpoint takes (cls : Z -> bool) (q quote esc : bool) (w : list Z) : bool :=
  match w with
  | [] => true
  | c :: w =>
      if q && esc then takes cls q quote false w
      else if q && (c =? 92) then takes cls q quote true w
      else if q && (c =? 34) then takes cls q (negb quote) esc w
      else if q && quote then takes cls q quote esc w
      else cls c && takes cls q quote esc w
  end.

Definition longest (cls : Z -> bool) (q : bool) (nmax : Z) (w r : list Z) : Prop :=
  takes cls q false false w = true /\ Z.of_nat (length w) <= nmax /\
  (Z.of_nat (length w) = nmax \/
   match r with [] => True | c :: _ => takes cls q false false (w ++ [c]) = false end).

Inductive matches : list item -> Z -> list Z -> list pl -> Prop :=
| m_end p t : matches [] p t []
| m_lit c x its p t caps : tolower c = tolower x -> matches its (p + 1) t caps ->
    matches (Lit c :: its) p (x :: t) caps
| m_cls cs ng q nmin nmax its p w r lpl nm caps :
    longest (in_class cs ng) q nmax w r ->
    strip_quotes q (mk_pl p w) (Z.of_nat (length w)) = (lpl, nm) -> nmin <= nm <= nmax ->
    matches its (p + Z.of_nat (length w)) r caps ->
    matches (Cls cs ng q nmin nmax :: its) p (w ++ r) (lpl :: caps).

(** The text ends where a character is expected: the search is given up. *)
Inductive exhausts : list item -> Z -> list Z -> Prop :=
| x_lit_end c its p : exhausts (Lit c :: its) p []
| x_lit c x its p t : tolower c = tolower x -> exhausts its (p + 1) t ->
    exhausts (Lit c :: its) p (x :: t)
| x_cls cs ng q nmin nmax its p w r lpl nm :
    longest (in_class cs ng) q nmax w r ->
    strip_quotes q (mk_pl p w) (Z.of_nat (length w)) = (lpl, nm) -> nmin <= nm <= nmax ->
    exhausts its (p + Z.of_nat (length w)) r ->
    exhausts (Cls cs ng q nmin nmax :: its) p (w ++ r).

Fixpoint classes (its : list item) : nat :=
  match its with [] => O | Lit _ :: its => classes its | Cls _ _ _ _ _ :: its => S (classes its) end.

(** What is stored for the captures. *)
Definition stored (args : list bool) (caps : list pl) : list (option pl) :=
  zip_with (fun (a : bool) c => if a then Some c else None) args caps ++
  map (fun _ => None) (drop (length caps) args).

(** ** Classes *)

Section Class.
Context (cls : Z -> bool) (q : bool) (nmax : Z).

Lemma takes_prefix w r qt es : takes cls q qt es (w ++ r) = true -> takes cls q qt es w = true.
Proof.
  revert qt es. induction w as [|c w IH]; intros qt es; [done|]. cbn [app takes].
  repeat case_match; auto. rewrite !andb_true_iff. intros []. eauto.
Qed.

Lemma class_loop_takes t : forall nm qt es, nm <= nmax -> exists w r, t = w ++ r /\
  class_loop cls q nmax t nm qt es = nm + Z.of_nat (length w) /\ takes cls q qt es w = true /\
  nm + Z.of_nat (length w) <= nmax /\
  (nm + Z.of_nat (length w) = nmax \/
   match r with [] => True | c :: _ => takes cls q qt es (w ++ [c]) = false end).
Proof.
  induction t as [|c t IH]; intros nm qt es Hn; cbn [class_loop].
  { exists [], []. simpl. split_and!; try done; auto; lia. }
  destruct (Z.ltb_spec nm nmax) as [Hlt|Hge].
  2: { exists [], (c :: t). simpl. split_and!; try done; lia. }
  assert (forall qt' es', (forall w, takes cls q qt es (c :: w) = takes cls q qt' es' w) ->
    exists w r, c :: t = w ++ r /\
    class_loop cls q nmax t (nm + 1) qt' es' = nm + Z.of_nat (length w) /\ takes cls q qt es w = true /\
    nm + Z.of_nat (length w) <= nmax /\
    (nm + Z.of_nat (length w) = nmax \/
     match r with [] => True | c :: _ => takes cls q qt es (w ++ [c]) = false end)) as Hgo.
  { intros qt' es' Ht. destruct (IH (nm + 1) qt' es') as (w&r&->&->&Hw&Hm&Hr); [lia|].
    exists (c :: w), r. cbn [app length]. rewrite Ht. split_and!; [done|lia|done|lia|].
    destruct Hr as [?|Hr]; [left; lia|right]. destruct r; [done|]. by rewrite Ht. }
  destruct (q && es) eqn:E1; [apply Hgo; intros w; cbn [takes]; by rewrite E1|].
  destruct (q && (c =? 92)) eqn:E2; [apply Hgo; intros w; cbn [takes]; by rewrite E1, E2|].
  destruct (q && (c =? 34)) eqn:E3; [apply Hgo; intros w; cbn [takes]; by rewrite E1, E2, E3|].
  destruct (q && qt) eqn:E4; [apply Hgo; intros w; cbn [takes]; by rewrite E1, E2, E3, E4|].
  destruct (cls c) eqn:E5; cbn [negb].
  - apply Hgo. intros w. cbn [takes]. by rewrite E1, E2, E3, E4, E5.
  - exists [], (c :: t). cbn [app length takes]. rewrite E1, E2, E3, E4, E5. split_and!; [done|lia|done|lia|by right].
Qed.

Lemma longest_unique w r w' r' : w ++ r = w' ++ r' -> longest cls q nmax w r ->
  longest cls q nmax w' r' -> w = w' /\ r = r'.
Proof.
  assert (forall w r w' r', (length w < length w')%nat -> w ++ r = w' ++ r' ->
    longest cls q nmax w r -> longest cls q nmax w' r' -> False) as Hlt.
  { clear w r w' r'. intros w r w' r' Hl E (_&_&[Hw|Hw]) (Hw'&?&_); [lia|].
    assert (exists c w2, w' = (w ++ [c]) ++ w2 /\ head r = Some c) as (c&w2&->&Hr).
    { exists (nth (length w) w' 0), (drop (S (length w)) w').
      assert (w = take (length w) w') as Ew.
      { rewrite <- (take_app_le w' r' (length w)), <- E, take_app_length by lia. done. }
      destruct (lookup_lt_is_Some_2 w' (length w) Hl) as [c Hc].
      rewrite (nth_lookup_Some _ _ _ _ Hc). split.
      - rewrite <- app_assoc. simpl. rewrite Ew at 1. by rewrite take_drop_middle.
      - assert ((w ++ r) !! length w = Some c) as Hr by (rewrite E; by apply lookup_app_l_Some).
        rewrite lookup_app_r, Nat.sub_diag in Hr by lia. by destruct r; simplify_eq/=. }
    destruct r as [|d r]; [done|]. injection Hr as ->. apply takes_prefix in Hw'. congruence. }
  intros E Hw Hw'. destruct (lt_eq_lt_dec (length w) (length w')) as [[H|H]|H].
  - exfalso. by eapply Hlt.
  - by apply app_inj_1.
  - exfalso. by eapply Hlt.
Qed.

Lemma class_loop_longest t : 0 <= nmax -> exists w r, t = w ++ r /\ longest cls q nmax w r /\
  class_loop cls q nmax t 0 false false = Z.of_nat (length w).
Proof.
  intros Hn. destruct (class_loop_takes t 0 false false Hn) as (w&r&->&->&?&?&?).
  exists w, r. split_and!; [done| |lia]. split_and!; [done|lia|]. by rewrite Z.add_0_l in *.
Qed.

Lemma class_loop_word w r : longest cls q nmax w r ->
  class_loop cls q nmax (w ++ r) 0 false false = Z.of_nat (length w).
Proof.
  intros Hw. destruct (class_loop_longest (w ++ r)) as (w'&r'&E&Hw'&->); [destruct Hw; lia|].
  by destruct (longest_unique _ _ _ _ E Hw Hw') as [-> ->].
Qed.

End Class.

(** ** The interpreter follows the items *)

Section Run.
Context (args : list bool).

Fixpoint run (its : list item) (s : place) : outcome * list (option pl) :=
  match its with
  | [] => (Stop false false, outs s)
  | Lit e :: its =>
      match t s with
      | [] => (Stop false true, outs s)
      | c :: r =>
          if tolower e =? tolower c then run its (mk_place (p s + 1) r (argi s) (outs s))
          else (Again, outs s)
      end
  | Cls cs ng q nmin nmax :: its =>
      match class_end (in_class cs ng) q nmin nmax (default false (args !! argi s)) s with
      | None => (Again, outs s)
      | Some s => run its s
      end
  end.

Lemma class_end_argi cls q nmin nmax arg s s' : class_end cls q nmin nmax arg s = Some s' ->
  argi s' = S (argi s).
Proof. unfold class_end. destruct (strip_quotes _ _ _). case_match; [done|]. by intros [= <-]. Qed.

Lemma re_loop_run ep : forall k s its, compile ep k = Some its -> (argi s + classes its <= length args)%nat ->
  re_loop args ep k s = Some (run its s).
Proof.
  induction ep as [|e ep IH]; intros k s its; cbn [compile re_loop].
  { destruct (fm k); [done|]. by intros [= <-]. }
  destruct ((e =? 92) && negb (eesc k)); [apply IH|].
  destruct (negb (fm k)).
  - destruct ((e =? 91) && negb (eesc k)); [apply IH|].
    destruct (compile ep (set_eesc k false)) as [its'|] eqn:E; [|done]. intros [= <-] Hn. cbn [run classes] in *.
    destruct (t s) as [|c r]; [done|]. destruct (tolower e =? tolower c); [|done]. by apply IH.
  - destruct (ec k).
    + destruct (quantifier e) as [[nmin nmax]|]; [|done]. cbn [mbind option_bind].
      destruct (compile ep (close_class k)) as [its'|] eqn:E; [|done]. intros [= <-] Hn. cbn [run classes] in *.
      destruct (lookup_lt_is_Some_2 args (argi s)) as [a Ha]; [lia|]. rewrite Ha. cbn [mbind option_bind from_option id].
      change (fun c => expr_match (chrv k) (n k) (tolower c) (neg k)) with (in_class (take (n k) (chrv k)) (neg k)).
      destruct (class_end _ _ _ _ _ _) as [s'|] eqn:Es; [|done]. apply IH; [done|].
      rewrite (class_end_argi _ _ _ _ _ _ _ Es). lia.
    + destruct (if eesc k then None else class_switch k e) as [k'|]; [apply IH|].
      destruct (class_char k e) as [[[] k']|]; [done| |done]. apply IH.
Qed.

(** The captures, from an argument on. *)
Fixpoint store (i : nat) (caps : list pl) (os : list (option pl)) : list (option pl) :=
  match caps with
  | [] => os
  | c :: caps => store (S i) caps (if default false (args !! i) then <[i := Some c]> os else os)
  end.

Definition ranged (it : item) : Prop :=
  match it with Cls _ _ _ _ nmax => 0 <= nmax | Lit _ => True end.

Lemma class_end_word cls q nmin nmax arg s w r lpl nm : t s = w ++ r -> longest cls q nmax w r ->
  strip_quotes q (mk_pl (p s) w) (Z.of_nat (length w)) = (lpl, nm) ->
  class_end cls q nmin nmax arg s =
    if (nm <? nmin) || (nmax <? nm) then None
    else Some (mk_place (p s + Z.of_nat (length w)) r (S (argi s))
                 (if arg then <[argi s := Some lpl]> (outs s) else outs s)).
Proof.
  intros Ht Hw Hs. unfold class_end. rewrite Ht, class_loop_word by done.
  by rewrite Nat2Z.id, take_app_length, drop_app_length, Hs.
Qed.

Lemma matches_run its p t caps : matches its p t caps -> forall i os,
  run its (mk_place p t i os) = (Stop false false, store i caps os).
Proof.
  induction 1 as [|c x its p t caps Hc Hm IH|cs ng q nmin nmax its p w r lpl nm caps Hw Hs Hn Hm IH];
    intros i os; cbn [run].
  - done.
  - cbn [Regex.t Regex.p Regex.argi Regex.outs]. rewrite Hc, Z.eqb_refl. apply IH.
  - rewrite (class_end_word _ _ _ _ _ _ w r lpl nm) by done. cbn [Regex.p Regex.argi Regex.outs].
    assert ((nm <? nmin) || (nmax <? nm) = false) as -> by lia. rewrite IH. done.
Qed.

Lemma exhausts_run its p t : exhausts its p t -> forall i os,
  exists os', run its (mk_place p t i os) = (Stop false true, os').
Proof.
  induction 1 as [|c x its p t Hc Hm IH|cs ng q nmin nmax its p w r lpl nm Hw Hs Hn Hm IH];
    intros i os; cbn [run].
  - by eexists.
  - cbn [Regex.t Regex.p Regex.argi Regex.outs]. rewrite Hc, Z.eqb_refl. apply IH.
  - rewrite (class_end_word _ _ _ _ _ _ w r lpl nm) by done. cbn [Regex.p Regex.argi Regex.outs].
    assert ((nm <? nmin) || (nmax <? nm) = false) as -> by lia. apply IH.
Qed.

Lemma run_sound its : Forall ranged its -> forall s,
  match run its s with
  | (Stop false false, os) => exists caps, matches its (p s) (t s) caps
  | (Stop false true, _) => exhausts its (p s) (t s)
  | (Stop true _, _) => False
  | (Again, _) => True
  end.
Proof.
  induction its as [|it its IH]; intros Hr s; cbn [run]; [eexists; constructor|].
  apply Forall_cons in Hr as [Hit Hr]. destruct it as [e|cs ng q nmin nmax].
  - destruct s as [p t i os]. cbn [Regex.t Regex.p Regex.argi Regex.outs].
    destruct t as [|c r]; [constructor|]. destruct (Z.eqb_spec (tolower e) (tolower c)) as [Ec|]; [|done].
    specialize (IH Hr (mk_place (p + 1) r i os)). destruct (run its _) as [[|[] []] os']; try done.
    + by constructor.
    + destruct IH as [caps IH]. exists caps. by constructor.
  - destruct (class_loop_longest (in_class cs ng) q nmax (t s) Hit) as (w&r&Ht&Hw&_).
    destruct (strip_quotes q (mk_pl (p s) w) (Z.of_nat (length w))) as [lpl nm] eqn:Hs.
    rewrite (class_end_word _ _ _ _ _ _ w r lpl nm) by done. rewrite Ht.
    destruct ((nm <? nmin) || (nmax <? nm)) eqn:En; [done|].
    assert (nmin <= nm <= nmax) as Hn by lia. clear En.
    specialize (IH Hr (mk_place (p s + Z.of_nat (length w)) r (S (argi s))
      (if default false (args !! argi s) then <[argi s := Some lpl]> (outs s) else outs s))).
    cbn [Regex.t Regex.p] in IH. destruct (run its _) as [[|[] []] os']; try done.
    + by econstructor.
    + destruct IH as [caps IH]. exists (lpl :: caps). by econstructor.
Qed.

(** Every attempt is one of the three. *)
Lemma run_cases its s : Forall ranged its ->
  match run its s with
  | (Stop false false, os) => exists caps, matches its (p s) (t s) caps /\ os = store (argi s) caps (outs s)
  | (Stop false true, _) => exhausts its (p s) (t s)
  | (Stop true _, _) => False
  | (Again, _) => (forall caps, ~ matches its (p s) (t s) caps) /\ ~ exhausts its (p s) (t s)
  end.
Proof.
  intros Hr. pose proof (run_sound its Hr s) as Hs. destruct s as [p t i os]. cbn [Regex.t Regex.p] in *.
  destruct (run its _) as [[|[] []] os'] eqn:E; cbn [Regex.argi Regex.outs]; try done.
  - split.
    + intros caps Hm. rewrite (matches_run _ _ _ _ Hm) in E. done.
    + intros Hm. destruct (exhausts_run _ _ _ Hm i os) as [? E']. congruence.
  - destruct Hs as [caps Hm]. exists caps. split; [done|]. rewrite (matches_run _ _ _ _ Hm) in E. congruence.
Qed.

(** What a search has stored: nothing through null pointers and unused arguments. *)
Definition clean (m : nat) (os : list (option pl)) : Prop := length os = length args /\
  forall i, (i < length args)%nat -> (m <= i)%nat \/ args !! i = Some false -> os !! i = Some None.

Lemma run_clean its m : forall s, (argi s + classes its <= m)%nat -> (m <= length args)%nat ->
  clean m (outs s) -> clean m (snd (run its s)).
Proof.
  induction its as [|[e|cs ng q nmin nmax] its IH]; intros s Hm Hl Hc; cbn [run classes] in *.
  - done.
  - destruct (t s) as [|c r]; [exact Hc|]. destruct (_ =? _); [|exact Hc]. by apply IH.
  - unfold class_end. destruct (strip_quotes _ _ _) as [lpl nm]. destruct (_ || _); [exact Hc|].
    apply IH; [cbn [argi]; lia|done|]. cbn [outs].
    destruct (args !! argi s) as [[]|] eqn:Ea; cbn [from_option id]; [|exact Hc..].
    destruct Hc as [Hlen Hc]. split; [by rewrite length_insert|]. intros i Hi Hn.
    rewrite list_lookup_insert_ne; [by apply Hc|]. intros E. subst i. destruct Hn; [lia|]. congruence.
Qed.

Lemma store_length i caps os : length (store i caps os) = length os.
Proof.
  revert i os. induction caps as [|c caps IH]; intros i os; [done|]. cbn [store]. rewrite IH.
  case_match; [by rewrite length_insert|done].
Qed.

Lemma store_lookup caps : forall i os j, length os = length args -> (i + length caps <= length args)%nat ->
  store i caps os !! j =
    if decide (i <= j < i + length caps /\ args !! j = Some true)%nat then Some (caps !! (j - i)%nat)
    else os !! j.
Proof.
  induction caps as [|c caps IH]; intros i os j Hl Hi; cbn [store length] in *.
  { case_decide; [lia|done]. }
  rewrite IH; [|case_match; [by rewrite length_insert|done]|lia].
  destruct (decide (S i <= j < S i + length caps /\ args !! j = Some true)%nat) as [[? ?]|Hn].
  - rewrite decide_True by (split; [lia|done]). f_equal.
    by replace (j - i)%nat with (S (j - S i)) by lia.
  - destruct (decide (j = i)) as [->|Hne].
    + destruct (args !! i) as [[]|] eqn:Ea; cbn [from_option id].
      * rewrite decide_True by (split; [lia|done]). rewrite Nat.sub_diag. cbn.
        by rewrite list_lookup_insert_eq by lia.
      * rewrite decide_False; [done|]. by intros [].
      * rewrite decide_False; [done|]. by intros [].
    + rewrite (decide_False (P := (i <= j < i + _ /\ _)%nat)); [|intros []; apply Hn; split; [lia|done]].
      case_match; [|done]. by rewrite list_lookup_insert_ne.
Qed.

Lemma store_stored caps os : (length caps <= length args)%nat -> clean (length caps) os ->
  store 0 caps os = stored args caps.
Proof.
  intros Hl [Hlen Hc]. apply list_eq. intros j. rewrite store_lookup by (done || lia).
  unfold stored. destruct (decide (j < length caps)%nat) as [Hj|Hj].
  - destruct (lookup_lt_is_Some_2 args j) as [a Ha]; [lia|].
    destruct (lookup_lt_is_Some_2 caps j) as [c Hcap]; [done|].
    rewrite lookup_app_l by (rewrite length_zip_with; lia).
    rewrite lookup_zip_with, Ha, Hcap, Nat.sub_0_r, Hcap. cbn. destruct a.
    + by rewrite decide_True by (split; [lia|done]).
    + rewrite decide_False by (by intros []). rewrite Hc; [done|lia|by right].
  - rewrite decide_False by (intros []; lia).
    rewrite lookup_app_r by (rewrite length_zip_with; lia).
    rewrite length_zip_with, Nat.min_r by lia. rewrite list_lookup_fmap, lookup_drop.
    replace (length caps + (j - length caps))%nat with j by lia.
    destruct (decide (j < length args)%nat).
    + destruct (lookup_lt_is_Some_2 args j) as [a ->]; [done|]. rewrite Hc; [done|done|left; lia].
    + rewrite (lookup_ge_None_2 args) by lia. apply lookup_ge_None_2. lia.
Qed.

End Run.

Lemma compile_ranged ep : forall k its, compile ep k = Some its -> Forall ranged its.
Proof.
  induction ep as [|e ep IH]; intros k its; cbn [compile].
  { case_match; [done|]. intros [= <-]. constructor. }
  destruct ((e =? 92) && negb (eesc k)); [apply IH|]. destruct (negb (fm k)).
  - destruct ((e =? 91) && negb (eesc k)); [apply IH|].
    destruct (compile ep _) eqn:E; [|done]. intros [= <-]. constructor; [done|]. by eapply IH.
  - destruct (ec k).
    + destruct (quantifier e) as [[nmin nmax]|] eqn:Eq; [|done]. cbn [mbind option_bind].
      destruct (compile ep _) eqn:E; [|done]. intros [= <-]. constructor; [|by eapply IH].
      cbn [ranged]. unfold quantifier, UINT32_MAX in Eq. repeat case_match; simplify_eq; lia.
    + destruct (if eesc k then None else class_switch k e); [apply IH|].
      destruct (class_char k e) as [[[] ?]|]; [done|apply IH|done].
Qed.

Lemma matches_classes its p t caps : matches its p t caps -> length caps = classes its.
Proof. induction 1; simpl; congruence. Qed.

(** ** Searching

    The first place that matches, unless the text ends in an attempt before it. *)

Inductive search (its : list item) : Z -> list Z -> option (list pl) -> Prop :=
| s_empty p : search its p [] None
| s_found p c t caps : matches its p (c :: t) caps -> search its p (c :: t) (Some caps)
| s_given_up p c t : exhausts its p (c :: t) -> search its p (c :: t) None
| s_next p c t r : (forall caps, ~ matches its p (c :: t) caps) -> ~ exhausts its p (c :: t) ->
    search its (p + 1) t r -> search its p (c :: t) r.

Definition reports (args : list bool) (r : option (list pl)) (res : option (Z * list (option pl))) : Prop :=
  match r with
  | Some caps => res = Some (0, stored args caps)
  | None => exists os, res = Some (ENOENT, os) /\ length os = length args
  end.

Section Search.
Context (args : list bool) (expr : list Z) (its : list item).
Context (Hits : items expr = Some its) (Hexpr : expr <> []) (Hargs : (classes its <= length args)%nat).

Lemma search_total t : forall p, exists r, search its p t r.
Proof.
  pose proof (compile_ranged _ _ _ Hits) as Hr.
  induction t as [|c t IH]; intros p; [eexists; constructor|].
  pose proof (run_cases args its (mk_place p (c :: t) 0 []) Hr) as H. cbn [Regex.p Regex.t] in H.
  destruct (run args its _) as [[|[] []] os]; try done.
  - destruct (IH (p + 1)) as [r Hs]. exists r. by apply s_next; [apply H|apply H|].
  - eexists. by apply s_given_up.
  - destruct H as (caps&H&_). eexists. by apply s_found.
Qed.

Lemma again_search text r p : search its p text r -> forall os, clean args (classes its) os ->
  reports args r (again args expr p text os).
Proof.
  induction 1 as [p|p c t caps Hm|p c t Hx|p c t r Hn Hx Hs IH]; intros os Hc; cbn [again].
  - exists os. destruct Hc. by destruct expr.
  - rewrite (re_loop_run args expr ctl0 _ its) by done.
    rewrite (matches_run args _ _ _ _ Hm). cbn [mbind option_bind reports].
    pose proof (matches_classes _ _ _ _ Hm) as Hl. rewrite store_stored; [done|lia|by rewrite Hl].
  - rewrite (re_loop_run args expr ctl0 _ its) by done.
    pose proof (run_clean args its (classes its) (mk_place p (c :: t) 0 os)) as Hcl.
    destruct (exhausts_run args _ _ _ Hx 0 os) as [os' E]. rewrite E in *. cbn [mbind option_bind reports].
    exists os'. split; [done|]. by apply Hcl.
  - rewrite (re_loop_run args expr ctl0 _ its) by done.
    pose proof (run_clean args its (classes its) (mk_place p (c :: t) 0 os)) as Hcl.
    pose proof (run_cases args its (mk_place p (c :: t) 0 os) (compile_ranged _ _ _ Hits)) as H.
    cbn [Regex.p Regex.t] in H. destruct (run args its _) as [[|[] []] os']; try done.
    + cbn [mbind option_bind]. apply IH. by apply Hcl.
    + by destruct H as (caps&?%Hn&_).
Qed.

Lemma clean_none m : clean args m (map (fun _ => None) args).
Proof.
  split; [by rewrite length_map|]. intros i Hi _.
  rewrite list_lookup_fmap. by destruct (lookup_lt_is_Some_2 args i Hi) as [a ->].
Qed.

Lemma re_regex_search x r : pl_p x <> 0 -> search its (pl_p x) (pl_s x) r ->
  reports args r (re_regex x expr args).
Proof.
  intros Hp Hs. unfold re_regex. destruct (Z.eqb_spec (pl_p x) 0); [done|].
  apply (again_search _ _ _ Hs), clean_none.
Qed.

(** The use of the decoders: a text that matches from its first character. *)
Lemma re_regex_here x caps : pl_p x <> 0 -> pl_s x <> [] -> matches its (pl_p x) (pl_s x) caps ->
  re_regex x expr args = Some (0, stored args caps).
Proof.
  intros Hp Ht Hm. apply (re_regex_search x (Some caps) Hp).
  destruct (pl_s x); [done|]. by apply s_found.
Qed.

(** Or one that does not match anywhere. *)
Lemma re_regex_nowhere x : pl_p x <> 0 ->
  (forall i caps, ~ matches its (pl_p x + Z.of_nat i) (drop i (pl_s x)) caps) ->
  exists os, re_regex x expr args = Some (ENOENT, os) /\ length os = length args.
Proof.
  intros Hp Hn. destruct (search_total (pl_s x) (pl_p x)) as [[caps|] Hs].
  - exfalso. revert Hn Hs. generalize (pl_p x) (pl_s x). clear x Hp. intros p t Hn Hs.
    remember (Some caps) as r eqn:Er. revert caps Er Hn.
    induction Hs as [p|p c t caps' Hm|p c t Hx|p c t r _ _ Hs IH]; intros caps Er Hn; try done.
    + apply (Hn O caps'). simpl. by rewrite Z.add_0_r.
    + eapply (IH caps Er). intros i caps2 Hm. apply (Hn (S i) caps2). simpl.
      by replace (p + Z.of_nat (S i)) with (p + 1 + Z.of_nat i) by lia.
  - apply (re_regex_search x None Hp Hs).
Qed.

End Search.

(** ** Evaluating an attempt

    The decoders are verified by evaluating the items of their expressions on texts that
    are put together from words. *)

Inductive verdict := Hit (caps : list pl) | Miss | End_of_text.

Definition capture (c : pl) (v : verdict) : verdict :=
  match v with Hit caps => Hit (c :: caps) | _ => v end.

Fixpoint eval (its : list item) (p : Z) (t : list Z) : verdict :=
  match its with
  | [] => Hit []
  | Lit e :: its =>
      match t with
      | [] => End_of_text
      | c :: r => if tolower e =? tolower c then eval its (p + 1) r else Miss
      end
  | Cls cs ng q nmin nmax :: its =>
      let k := Z.to_nat (class_loop (in_class cs ng) q nmax t 0 false false) in
      let '(lpl, nm) := strip_quotes q (mk_pl p (take k t)) (Z.of_nat k) in
      if (nm <? nmin) || (nmax <? nm) then Miss
      else capture lpl (eval its (p + Z.of_nat k) (drop k t))
  end.

Lemma eval_word cs ng q nmin nmax its p w r lpl nm : longest (in_class cs ng) q nmax w r ->
  strip_quotes q (mk_pl p w) (Z.of_nat (length w)) = (lpl, nm) ->
  eval (Cls cs ng q nmin nmax :: its) p (w ++ r) =
    if (nm <? nmin) || (nmax <? nm) then Miss else capture lpl (eval its (p + Z.of_nat (length w)) r).
Proof.
  intros Hw Hs. cbn [eval]. by rewrite class_loop_word, Nat2Z.id, take_app_length, drop_app_length, Hs.
Qed.

Lemma eval_lit e its p c r : tolower e = tolower c -> eval (Lit e :: its) p (c :: r) = eval its (p + 1) r.
Proof. intros E. cbn [eval]. by rewrite E, Z.eqb_refl. Qed.

Lemma eval_matches its p t caps : matches its p t caps -> eval its p t = Hit caps.
Proof.
  induction 1 as [|c x its p t caps Hc Hm IH|cs ng q nmin nmax its p w r lpl nm caps Hw Hs Hn Hm IH].
  - done.
  - cbn [eval]. by rewrite Hc, Z.eqb_refl.
  - rewrite (eval_word _ _ _ _ _ _ _ _ _ lpl nm), IH by done.
    by assert ((nm <? nmin) || (nmax <? nm) = false) as -> by lia.
Qed.

Lemma eval_exhausts its p t : exhausts its p t -> eval its p t = End_of_text.
Proof.
  induction 1 as [|c x its p t Hc Hm IH|cs ng q nmin nmax its p w r lpl nm Hw Hs Hn Hm IH].
  - done.
  - cbn [eval]. by rewrite Hc, Z.eqb_refl.
  - rewrite (eval_word _ _ _ _ _ _ _ _ _ lpl nm), IH by done.
    by assert ((nm <? nmin) || (nmax <? nm) = false) as -> by lia.
Qed.

Lemma eval_sound its : Forall ranged its -> forall p t,
  match eval its p t with Hit caps => matches its p t caps | End_of_text => exhausts its p t | Miss => True end.
Proof.
  induction its as [|it its IH]; intros Hr p t; [constructor|].
  apply Forall_cons in Hr as [Hit Hr]. destruct it as [e|cs ng q nmin nmax].
  - cbn [eval]. destruct t as [|c r]; [constructor|].
    destruct (Z.eqb_spec (tolower e) (tolower c)) as [Ec|]; [|done].
    specialize (IH Hr (p + 1) r). destruct (eval its _ _); [by constructor|done|by constructor].
  - destruct (class_loop_longest (in_class cs ng) q nmax t Hit) as (w&r&->&Hw&_).
    destruct (strip_quotes q (mk_pl p w) (Z.of_nat (length w))) as [lpl nm] eqn:Hs.
    rewrite (eval_word _ _ _ _ _ _ _ w r lpl nm) by done.
    destruct ((nm <? nmin) || (nmax <? nm)) eqn:En; [done|]. assert (nmin <= nm <= nmax) as Hn by lia.
    specialize (IH Hr (p + Z.of_nat (length w)) r). destruct (eval its _ _); [by econstructor|done|by econstructor].
Qed.

(** A class without quotes takes a word that all its characters match, and stops before
    a character that does not. *)
Definition stops (cs : list chr) (ng : bool) (r : list Z) : Prop :=
  match r with [] => True | c :: _ => in_class cs ng c = false end.

Lemma takes_plain cls w : takes cls false false false w = forallb cls w.
Proof. induction w as [|c w IH]; [done|]. cbn [takes forallb andb]. by rewrite IH. Qed.

Lemma longest_plain cs ng nmax w r : forallb (in_class cs ng) w = true -> stops cs ng r ->
  Z.of_nat (length w) <= nmax -> longest (in_class cs ng) false nmax w r.
Proof.
  intros Hw Hr Hn. split_and!; [by rewrite takes_plain|done|right].
  destruct r as [|c r]; [done|]. rewrite takes_plain, forallb_app. simpl in *. by rewrite Hr, andb_comm.
Qed.

Lemma eval_plain cs ng nmin nmax its p w r : forallb (in_class cs ng) w = true -> stops cs ng r ->
  nmin <= Z.of_nat (length w) <= nmax ->
  eval (Cls cs ng false nmin nmax :: its) p (w ++ r) =
    capture (mk_pl p w) (eval its (p + Z.of_nat (length w)) r).
Proof.
  intros Hw Hr Hn. rewrite (eval_word _ _ _ _ _ _ _ _ _ (mk_pl p w) (Z.of_nat (length w))).
  - by assert ((Z.of_nat (length w) <? nmin) || (nmax <? Z.of_nat (length w)) = false) as -> by lia.
  - apply longest_plain; [done|done|lia].
  - done.
Qed.

(** A class that has taken all it can. *)
Lemma eval_full cs ng nmin nmax its p w r : forallb (in_class cs ng) w = true ->
  nmin <= Z.of_nat (length w) -> Z.of_nat (length w) = nmax ->
  eval (Cls cs ng false nmin nmax :: its) p (w ++ r) =
    capture (mk_pl p w) (eval its (p + Z.of_nat (length w)) r).
Proof.
  intros Hw Hn Hm. rewrite (eval_word _ _ _ _ _ _ _ _ _ (mk_pl p w) (Z.of_nat (length w))).
  - by assert ((Z.of_nat (length w) <? nmin) || (nmax <? Z.of_nat (length w)) = false) as -> by lia.
  - split_and!; [by rewrite takes_plain|lia|by left].
  - done.
Qed.

Lemma eval_all cs ng nmin nmax its p w : forallb (in_class cs ng) w = true -> nmin <= Z.of_nat (length w) <= nmax ->
  eval (Cls cs ng false nmin nmax :: its) p w = capture (mk_pl p w) (eval its (p + Z.of_nat (length w)) []).
Proof.
  intros Hw Hn. pose proof (eval_plain cs ng nmin nmax its p w [] Hw I Hn) as E. by rewrite app_nil_r in E.
Qed.

(** So does a class with quotes, on a word without quotes and escapes. *)
Definition unquoted (w : list Z) : bool := forallb (fun c => negb (c =? 34) && negb (c =? 92)) w.

Lemma takes_unquoted cls w : unquoted w = true -> takes cls true false false w = forallb cls w.
Proof.
  induction w as [|c w IH]; [done|]. cbn [unquoted forallb takes andb].
  rewrite !andb_true_iff, !negb_true_iff. intros [[-> ->] Hw]. by rewrite IH.
Qed.

Lemma strip_unquoted w p : unquoted w = true -> strip_quotes true (mk_pl p w) (Z.of_nat (length w)) =
  (mk_pl p w, Z.of_nat (length w)).
Proof.
  intros Hw. unfold strip_quotes. rewrite (bool_decide_false (head _ = _)).
  - by rewrite andb_false_r.
  - destruct w as [|c w]; [done|]. cbn [unquoted forallb] in Hw. simpl. intros [= ->]. done.
Qed.

Lemma eval_quotable cs ng nmin nmax its p w r : forallb (in_class cs ng) w = true -> stops cs ng r ->
  unquoted w = true -> (match r with c :: _ => c <> 34 /\ c <> 92 | [] => True end) ->
  nmin <= Z.of_nat (length w) <= nmax ->
  eval (Cls cs ng true nmin nmax :: its) p (w ++ r) =
    capture (mk_pl p w) (eval its (p + Z.of_nat (length w)) r).
Proof.
  intros Hw Hr Hu Hru Hn. rewrite (eval_word _ _ _ _ _ _ _ _ _ (mk_pl p w) (Z.of_nat (length w))).
  - by assert ((Z.of_nat (length w) <? nmin) || (nmax <? Z.of_nat (length w)) = false) as -> by lia.
  - split_and!; [by rewrite takes_unquoted|lia|right]. destruct r as [|c r]; [done|].
    rewrite takes_unquoted, forallb_app.
    + simpl in *. by rewrite Hr, andb_comm.
    + unfold unquoted in *. rewrite forallb_app, Hu. cbn [forallb andb]. destruct Hru.
      destruct (Z.eqb_spec c 34); [done|]. by destruct (Z.eqb_spec c 92).
  - by apply strip_unquoted.
Qed.

Lemma eval_none cs ng nmin nmax its p r : stops cs ng r -> nmin <= 0 <= nmax ->
  eval (Cls cs ng false nmin nmax :: its) p r = capture (mk_pl p []) (eval its p r).
Proof.
  intros Hr Hn. pose proof (eval_plain cs ng nmin nmax its p [] r eq_refl Hr Hn) as E.
  simpl app in E. by rewrite E, Z.add_0_r.
Qed.

Lemma eval_lits its v w : map tolower v = map tolower w -> forall p r,
  eval (map Lit w ++ its) p (v ++ r) = eval its (p + Z.of_nat (length v)) r.
Proof.
  revert w. induction v as [|c v IH]; intros [|d w] E p r; try done; cbn [map app eval length].
  - by rewrite Z.add_0_r.
  - injection E as Ec Ew. rewrite Ec, Z.eqb_refl, (IH w Ew). f_equal. lia.
Qed.

Lemma classes_lits w its : classes (map Lit w ++ its) = classes its.
Proof. by induction w. Qed.

(** Characters that are no syntax stand for themselves. *)
Lemma compile_name w k r its : eesc k = false -> fm k = false ->
  forallb (fun c => negb (c =? 91) && negb (c =? 92)) w = true -> compile r k = Some its ->
  compile (w ++ r) k = Some (map Lit w ++ its).
Proof.
  intros Hk Hf Hw Hr. assert (set_eesc k false = k) as Ek by (destruct k; simpl in *; by rewrite Hk).
  induction w as [|c w IH]; [done|]. cbn [forallb] in Hw. apply andb_true_iff in Hw as [Hc Hw].
  cbn [app compile map]. rewrite Hk, Hf, Ek, (IH Hw).
  destruct (Z.eqb_spec c 92); [simpl in Hc; subst; done|]. destruct (Z.eqb_spec c 91); [subst; done|]. done.
Qed.

(** The place of the match in the search. *)
Lemma search_skip its w : forall p t r, search its (p + Z.of_nat (length w)) t r ->
  (forall i, (i < length w)%nat -> eval its (p + Z.of_nat i) (drop i w ++ t) = Miss) ->
  search its p (w ++ t) r.
Proof.
  induction w as [|c w IH]; intros p t r Hs Hm; [by rewrite Z.add_0_r in Hs|].
  pose proof (Hm O ltac:(simpl; lia)) as H0. rewrite Z.add_0_r in H0. cbn [drop app] in H0 |- *.
  apply s_next.
  - intros caps Hc%eval_matches. congruence.
  - intros Hc%eval_exhausts. congruence.
  - apply IH.
    + cbn [length] in Hs. by replace (p + 1 + Z.of_nat (length w)) with (p + Z.of_nat (S (length w))) by lia.
    + intros i Hi. replace (p + 1 + Z.of_nat i) with (p + Z.of_nat (S i)) by lia. apply (Hm (S i)). simpl. lia.
Qed.

Lemma re_regex_eval args expr its x caps : items expr = Some its -> expr <> [] ->
  (classes its <= length args)%nat -> pl_p x <> 0 -> pl_s x <> [] ->
  eval its (pl_p x) (pl_s x) = Hit caps -> re_regex x expr args = Some (0, stored args caps).
Proof.
  intros Hi He Ha Hp Ht E. apply (re_regex_here args expr its Hi He Ha); [done|done|].
  pose proof (eval_sound its (compile_ranged _ _ _ Hi) (pl_p x) (pl_s x)) as Hs. by rewrite E in Hs.
Qed.

(** What is known of any call: a match at some place, or nothing. *)
Lemma re_regex_inv args expr its x : items expr = Some its -> expr <> [] ->
  (classes its <= length args)%nat -> pl_p x <> 0 ->
  (exists i caps, (i < length (pl_s x))%nat /\ matches its (pl_p x + Z.of_nat i) (drop i (pl_s x)) caps /\
     re_regex x expr args = Some (0, stored args caps)) \/
  (exists os, re_regex x expr args = Some (ENOENT, os)).
Proof.
  intros Hi He Ha Hp.
  destruct (search_total args expr its Hi (pl_s x) (pl_p x)) as [r Hs].
  pose proof (re_regex_search args expr its Hi He Ha x r Hp Hs) as Hre. destruct r as [caps|].
  - left. assert (exists i, (i < length (pl_s x))%nat /\ matches its (pl_p x + Z.of_nat i) (drop i (pl_s x)) caps) as (i&Hl&Hm).
    { clear Hre. remember (Some caps) as r eqn:Er. revert Hs Er. generalize (pl_p x) (pl_s x). clear.
      induction 1 as [|p c t caps' Hm| |p c t r _ _ Hs IH]; intros Er; try done.
      - exists O. rewrite Z.add_0_r. injection Er as ->. split; [simpl; lia|done].
      - destruct (IH Er) as (i&Hl&Hm). exists (S i). split; [simpl; lia|].
        by replace (p + Z.of_nat (S i)) with (p + 1 + Z.of_nat i) by lia. }
    exists i, caps. by split_and!.
  - right. destruct Hre as (os&E&_). by exists os.
Qed.

(** Classes of single characters that are no letters. *)
Definition single (c : Z) : chr := mk_chr c c.
Definition letter (c : Z) : bool := ((65 <=? c) && (c <=? 90)) || ((97 <=? c) && (c <=? 122)).

Lemma in_class_singles cs ng b : forallb (fun c => negb (letter c)) cs = true ->
  in_class (map single cs) ng b = xorb ng (existsb (Z.eqb b) cs).
Proof.
  intros Hcs. unfold in_class.
  assert (existsb (in_chr (tolower b)) (map single cs) = existsb (Z.eqb b) cs) as ->; [|by destruct ng, (existsb _ _)].
  induction cs as [|c cs IH]; [done|]. cbn [forallb map existsb] in *. apply andb_true_iff in Hcs as [Hc Hcs].
  rewrite (IH Hcs). f_equal. unfold letter in Hc. unfold in_chr, single, tolower. cbn [cmin cmax]. case_match; lia.
Qed.

(** A word none of whose characters is in a list. *)
Definition free (cs w : list Z) : bool := forallb (fun c => negb (existsb (Z.eqb c) cs)) w.

Lemma free_class cs w : forallb (fun c => negb (letter c)) cs = true -> free cs w = true ->
  forallb (in_class (map single cs) true) w = true.
Proof.
  intros Hcs. unfold free. rewrite !forallb_forall. intros H c Hc. rewrite in_class_singles by done.
  apply H in Hc. by destruct (existsb _ _).
Qed.

(** A class without quotes captures what it takes. *)
Lemma matches_class its cs ng nmin nmax p t caps : matches (Cls cs ng false nmin nmax :: its) p t caps ->
  exists w r caps', t = w ++ r /\ caps = mk_pl p w :: caps' /\ nmin <= Z.of_nat (length w) <= nmax /\
    forallb (in_class cs ng) w = true /\ matches its (p + Z.of_nat (length w)) r caps'.
Proof.
  inversion 1 as [| |cs' ng' q nmin' nmax' its' p' w r lpl nm caps' Hw Hs Hn Hm]; subst.
  injection Hs as <- <-. exists w, r, caps'. split_and!; try done; try lia.
  destruct Hw as [Hw _]. by rewrite takes_plain in Hw.
Qed.
Lemma matches_lit its e p t caps : matches (Lit e :: its) p t caps ->
  exists c r, t = c :: r /\ tolower e = tolower c /\ matches its (p + 1) r caps.
Proof. inversion 1; subst. by do 2 eexists. Qed.

(** A text without the character of some literal does not match. *)
Lemma matches_literal its p t caps c : matches its p t caps -> Lit c ∈ its ->
  exists x, x ∈ t /\ tolower x = tolower c.
Proof.
  induction 1 as [|d x its p t caps Hc Hm IH|cs ng q nmin nmax its p w r lpl nm caps Hw Hs Hn Hm IH];
    rewrite ?elem_of_cons; intros H.
  - by apply elem_of_nil in H.
  - destruct H as [[= ->]|H]; [exists x; by split; [left|]|].
    destruct (IH H) as (y&?&?). exists y. by split; [right|].
  - destruct H as [?|H]; [done|]. destruct (IH H) as (y&?&?). exists y. split; [|done].
    apply elem_of_app. by right.
Qed.

Lemma re_regex_absent args expr its x c : items expr = Some its -> expr <> [] ->
  (classes its <= length args)%nat -> pl_p x <> 0 -> Lit c ∈ its ->
  (forall y, y ∈ pl_s x -> tolower y <> tolower c) ->
  exists os, re_regex x expr args = Some (ENOENT, os) /\ length os = length args.
Proof.
  intros Hi He Ha Hp Hc Hn. apply (re_regex_nowhere args expr its Hi He Ha x Hp).
  intros i caps Hm. destruct (matches_literal _ _ _ _ _ Hm Hc) as (y&Hy&Ey).
  apply (Hn y); [|done]. rewrite <- (take_drop i (pl_s x)). apply elem_of_app. by right.
Qed.

(** *** The first match

    Places of the text, counted from its start. *)

Definition match_at (its : list item) (p : Z) (t : list Z) (i : nat) (caps : list pl) : Prop :=
  (i < length t)%nat /\ matches its (p + Z.of_nat i) (drop i t) caps.

Definition first_match (its : list item) (p : Z) (t : list Z) (i : nat) (caps : list pl) : Prop :=
  match_at its p t i caps /\ forall j caps', (j < i)%nat -> ~ match_at its p t j caps'.

(** The text ends in the middle of the expression that starts here, at a literal. *)
Definition cut_at (its : list item) (p : Z) (t : list Z) (j : nat) : Prop :=
  (j < length t)%nat /\ exhausts its (p + Z.of_nat j) (drop j t).

Lemma match_at_S its p c t i caps : match_at its p (c :: t) (S i) caps <-> match_at its (p + 1) t i caps.
Proof.
  unfold match_at. cbn [length drop]. replace (p + Z.of_nat (S i)) with (p + 1 + Z.of_nat i) by lia.
  split; intros [? ?]; (split; [lia|done]).
Qed.

Lemma cut_at_S its p c t i : cut_at its p (c :: t) (S i) <-> cut_at its (p + 1) t i.
Proof.
  unfold cut_at. cbn [length drop]. replace (p + Z.of_nat (S i)) with (p + 1 + Z.of_nat i) by lia.
  split; intros [? ?]; (split; [lia|done]).
Qed.

Lemma match_at_0 its p c t caps : match_at its p (c :: t) 0 caps <-> matches its p (c :: t) caps.
Proof. unfold match_at. rewrite Z.add_0_r. simpl. split; [by intros []|split; [lia|done]]. Qed.

Lemma cut_at_0 its p c t : cut_at its p (c :: t) 0 <-> exhausts its p (c :: t).
Proof. unfold cut_at. rewrite Z.add_0_r. simpl. split; [by intros []|split; [lia|done]]. Qed.

Lemma matches_exhausts its p t caps : matches its p t caps -> ~ exhausts its p t.
Proof. intros Hm Hx. apply eval_matches in Hm. apply eval_exhausts in Hx. congruence. Qed.

Lemma first_search its t : forall p i caps, first_match its p t i caps ->
  (forall j, (j < i)%nat -> ~ cut_at its p t j) -> search its p t (Some caps).
Proof.
  induction t as [|c t IH]; intros p i caps [Hm Hf] Hc; [destruct Hm as [Hm _]; simpl in Hm; lia|].
  destruct i as [|i]; [by apply s_found, match_at_0|]. apply s_next.
  - intros caps' H. apply (Hf O caps'); [lia|by apply match_at_0].
  - intros H. apply (Hc O); [lia|by apply cut_at_0].
  - apply (IH (p + 1) i).
    + split; [by apply match_at_S in Hm|]. intros j caps' Hj H. apply (Hf (S j) caps'); [lia|by apply match_at_S].
    + intros j Hj H. apply (Hc (S j)); [lia|by apply cut_at_S].
Qed.

Lemma search_first its p t r : search its p t r ->
  match r with
  | Some caps => exists i, first_match its p t i caps /\ forall j, (j < i)%nat -> ~ cut_at its p t j
  | None => forall i caps, first_match its p t i caps -> exists j, (j < i)%nat /\ cut_at its p t j
  end.
Proof.
  induction 1 as [p|p c t caps Hm|p c t Hx|p c t r Hn Hx Hs IH].
  - intros i caps [[Hi _] _]. simpl in Hi. lia.
  - exists O. split; [|intros; lia]. split; [by apply match_at_0|intros; lia].
  - intros i caps [Hm _]. exists O. split; [|by apply cut_at_0].
    destruct i; [|lia]. apply match_at_0 in Hm. by apply matches_exhausts in Hm.
  - destruct r as [caps|].
    + destruct IH as (i&[Hm Hf]&Hc). exists (S i). split; [split; [by apply match_at_S|]|].
      * intros [|j] caps' Hj H; [by apply match_at_0, Hn in H|]. apply match_at_S in H. by apply (Hf j caps'); [lia|].
      * intros [|j] Hj H; [by apply cut_at_0, Hx in H|]. apply cut_at_S in H. by apply (Hc j); [lia|].
    + intros [|i] caps [Hm Hf]; [by apply match_at_0, Hn in Hm|]. apply match_at_S in Hm.
      destruct (IH i caps) as (j&Hj&Hc); [|exists (S j); split; [lia|by apply cut_at_S]].
      split; [done|]. intros j caps' Hj H. apply (Hf (S j) caps'); [lia|by apply match_at_S].
Qed.

Lemma exhausts_literal its p t : exhausts its p t -> exists c, Lit c ∈ its.
Proof.
  induction 1 as [c its p|c x its p t _ _ [d Hd]|cs ng q nmin nmax its p w r lpl nm _ _ _ _ [d Hd]].
  - exists c. by left.
  - exists d. by right.
  - exists d. by right.
Qed.

(** C32: [re_regex] implements its expressions.  For every well-formed expression (of
    which [items] gives the meaning: a class takes the longest run it can, without a
    second choice) and every text it is defined.  It finds the first place of the text
    that matches, and stores exactly the captures of that match through the arguments
    that are not null - unless the text ends at a literal of the expression in an attempt
    before that place: then it gives the search up, and returns [ENOENT] as it does when
    nothing matches, although a later place does ([given_up]).  An expression of classes
    alone is never given up. *)
Theorem re_regex_exact x expr args its : items expr = Some its -> expr <> [] ->
  (classes its <= length args)%nat -> pl_p x <> 0 ->
  let first := first_match its (pl_p x) (pl_s x) in
  let cut := cut_at its (pl_p x) (pl_s x) in
  (forall i caps, first i caps -> (forall j, (j < i)%nat -> ~ cut j) ->
     re_regex x expr args = Some (0, stored args caps)) /\
  ((forall i caps, first i caps -> exists j, (j < i)%nat /\ cut j) ->
     exists os, re_regex x expr args = Some (ENOENT, os) /\ length os = length args) /\
  ((exists i caps, first i caps /\ forall j, (j < i)%nat -> ~ cut j) \/
   (forall i caps, first i caps -> exists j, (j < i)%nat /\ cut j)) /\
  ((forall c, ~ Lit c ∈ its) -> forall j, ~ cut j).
Proof.
  intros Hits He Ha Hp first cut. split_and!.
  - intros i caps Hf Hc. apply (re_regex_search args expr its Hits He Ha x (Some caps) Hp).
    by apply (first_search _ _ _ i).
  - intros Hn. destruct (search_total args expr its Hits (pl_s x) (pl_p x)) as [r Hs].
    pose proof (re_regex_search args expr its Hits He Ha x r Hp Hs) as Hr. apply search_first in Hs.
    destruct r as [caps|]; [|exact Hr]. destruct Hs as (i&Hf&Hc).
    destruct (Hn i caps Hf) as (j&Hj&Hcut). by destruct (Hc j Hj).
  - destruct (search_total args expr its Hits (pl_s x) (pl_p x)) as [r Hs]. apply search_first in Hs.
    destruct r as [caps|]; [|by right]. destruct Hs as (i&?&?). left. by exists i, caps.
  - intros Hl j [_ Hx]. by apply exhausts_literal in Hx as [c ?%Hl].
Qed.

(** Giving up at the end of the text misses a match that starts later: the text
    [a, quote, a, b], of which the end matches. *)
Example given_up :
  let text := [97; 34; 97; 98] in
  re_regex (mk_pl 100 text) (c_str "a[~b]*b") [false] = Some (ENOENT, [None]) /\
  re_regex (mk_pl 102 (drop 2 text)) (c_str "a[~b]*b") [false] = Some (0, [None]).
Proof. vm_compute. done. Qed.

(** A class of 65 characters is written past the array of 64. *)
Example class_overflow :
  re_regex (mk_pl 100 [120]) (c_str "[" ++ replicate 65 120 ++ c_str "]+") [false] = None.
Proof. vm_compute. done. Qed.

Definition number : list item := [Cls [mk_chr 48 57] false false 1 UINT32_MAX].
Definition quoted : list item := [Lit 97; Cls [mk_chr 98 98] true true 0 UINT32_MAX; Lit 98].

Lemma re_regex_exact_witness :
  re_regex (mk_pl 100 (c_str "x 42")) (c_str "[0-9]+") [true] =
    Some (0, [Some (mk_pl 102 (c_str "42"))]) /\
  (exists caps, match_at quoted 100 [97; 34; 97; 98] 2 caps) /\
  (exists os, re_regex (mk_pl 100 [97; 34; 97; 98]) (c_str "a[~b]*b") [false] = Some (ENOENT, os) /\
     length os = 1%nat).
Proof.
  split_and!.
  - destruct (re_regex_exact (mk_pl 100 (c_str "x 42")) (c_str "[0-9]+") [true] number) as (H&_&_&Hc);
      [reflexivity|discriminate|simpl; lia|discriminate|].
    apply (H 2%nat [mk_pl 102 (c_str "42")]).
    + split; [split; [simpl; lia|]|].
      * exact (eval_sound number ltac:(by repeat constructor) 102 (c_str "42")).
      * intros [|[|j]] caps Hj [_ Hm%eval_matches]; [discriminate Hm|discriminate Hm|lia].
    + intros j _. apply Hc. intros c Hx. by apply list_elem_of_singleton in Hx.
  - exists [mk_pl 103 []]. split; [simpl; lia|].
    exact (eval_sound quoted ltac:(by repeat constructor) 102 [97; 98]).
  - destruct (re_regex_exact (mk_pl 100 [97; 34; 97; 98]) (c_str "a[~b]*b") [false] quoted) as (_&H&_);
      [reflexivity|discriminate|simpl; lia|discriminate|].
    apply H. intros i caps [[_ Hm] _]. exists O.
    assert (exhausts quoted 100 [97; 34; 97; 98]) as Hx
      by exact (eval_sound quoted ltac:(by repeat constructor) 100 [97; 34; 97; 98]).
    split; [|split; [simpl; lia|exact Hx]]. destruct i; [|lia]. by apply matches_exhausts in Hm.
Defined.

End Regex.
