(* ===== verification/Param.v ===== *)
(** * Parameters and content types: src/libre/src/msg/param.c, msg/ctype.c and fmt/prm.c

    The parameters of a header field are found with expressions that are printed into a
    buffer of 128 characters; what does not fit is left out.  [None] is undefined
    behaviour: an argument that the expression is too short to set is read.  The null
    checks of the arguments are left out. *)
From S2P Require Import Prelude Pl Uric Regex.
Import Pl Regex.

Module Param.

(** [re_hprintf] of the pieces of a format; the first that does not fit ends it. *)
Fixpoint print_all (b : Uric.buffer) (pieces : list (list Z)) : Z * Uric.buffer :=
  match pieces with
  | [] => (0, b)
  | [] :: pieces => print_all b pieces
  | piece :: pieces =>
      let '(err, b) := Uric.print_handler b piece in
      if negb (err =? 0) then (err, b) else print_all b pieces
  end.
Definition re_snprintf (size : Z) (pieces : list (list Z)) : list Z :=
  Uric.out (snd (print_all (Uric.mk_buffer [] (size - 1)) pieces)).

(** What was stored through an argument. *)
Definition arg (os : list (option pl)) (i : nat) : option pl := mjoin (os !! i).

(** ** src/libre/src/msg/param.c *)

(** Reads an argument back from what a match stored. *)
Ltac get_args := repeat match goal with
  | |- context [arg (stored ?a ?c) ?i] =>
      let v := eval hnf in (arg (stored a c) i) in change (arg (stored a c) i) with v
  end.

(** The results are the error code and the value of [*val] afterwards. *)
Definition msg_param_exists (x : pl) (name : list Z) (val : pl) : option (Z * pl) :=
  let xpr := re_snprintf 128 [c_str ";[ \t\r\n]*"; name; c_str "[ \t\r\n;=]*"] in
  '(err, os) ← re_regex x xpr [true; true];
  if negb (err =? 0) then Some (ENOENT, val)
  else
    v1 ← arg os 0; v2 ← arg os 1;
    if (pl_l v2 =? 0) && (pl_p v2 <? pl_p x + pl_l x) then Some (ENOENT, val)
    else
      let p := pl_p v1 - 1 in
      Some (0, mk_pl p (take (Z.to_nat (pl_p v2 - p)) (drop (Z.to_nat (p - pl_p x)) (pl_s x)))).

Definition msg_param_decode (x : pl) (name : list Z) (val : pl) : option (Z * pl) :=
  let expr := re_snprintf 128 [c_str ";[ \t\r\n]*"; name; c_str "[ \t\r\n]*=[ \t\r\n]*[~ \t\r\n;]+"] in
  '(err, os) ← re_regex x expr [false; false; false; true];
  if negb (err =? 0) then Some (ENOENT, val) else v ← arg os 3; Some (0, v).

(** ** src/libre/src/fmt/prm.c *)

Definition fmt_param_exists (x : pl) (pname : list Z) : option bool :=
  let expr := re_snprintf 128 [c_str "[;]*[ \t\r\n]*"; pname; c_str "[ \t\r\n;=]*"] in
  '(err, os) ← re_regex x expr [true; false; true];
  if negb (err =? 0) then Some false
  else
    semi ← arg os 0; eop ← arg os 2;
    if (pl_l eop =? 0) && (pl_p eop <? pl_p x + pl_l x) then Some false
    else Some ((0 <? pl_l semi) || (pl_p x =? pl_p semi)).

(** [val] may be null; it is set as far as the expression was matched. *)
Definition fmt_param_get (x : pl) (pname : list Z) (val : option pl) : option (bool * option pl) :=
  let expr := re_snprintf 128 [c_str "[;]*[ \t\r\n]*"; pname; c_str "[ \t\r\n]*=[ \t\r\n]*[~ \t\r\n;]+"] in
  '(err, os) ← re_regex x expr [true; false; false; false; match val with Some _ => true | None => false end];
  let val := match arg os 4 with Some v => Some v | None => val end in
  if negb (err =? 0) then Some (false, val)
  else semi ← arg os 0; Some ((0 <? pl_l semi) || (pl_p x =? pl_p semi), val).

(** [pl_advance], by no more than the length. *)
Definition pl_advance (x : pl) (n : Z) : option pl :=
  if (0 <=? n) && (n <=? pl_l x) then Some (mk_pl (pl_p x + n) (drop (Z.to_nat n) (pl_s x))) else None.

Section Apply.
Context {W : Type} (ph : pl -> pl -> W -> W).

Fixpoint apply_loop (fuel : nat) (prmv : pl) (w : W) : option W :=
  match fuel with
  | O => None
  | S fuel =>
      '(err, os) ← re_regex prmv (c_str "[ \t\r\n]*[~;]+[;]*") [false; true; true];
      if negb (err =? 0) then Some w
      else
        prm ← arg os 1; semi ← arg os 2;
        prmv ← pl_advance prmv (pl_p semi + pl_l semi - pl_p prmv);
        '(err, os) ← re_regex prm (c_str "[^ \t\r\n=]+[ \t\r\n]*[=]*[ \t\r\n]*[~ \t\r\n]*")
                       [true; false; false; false; true];
        if negb (err =? 0) then Some w
        else name ← arg os 0; val ← arg os 4; apply_loop fuel prmv (ph name val w)
  end.

(** Every turn takes a character or more. *)
Definition fmt_param_apply (x : pl) (w : W) : option W := apply_loop (S (length (pl_s x))) x w.
End Apply.

(** ** src/libre/src/msg/ctype.c *)

Record msg_ctype := mk_msg_ctype { type : pl; subtype : pl; params : pl }.

(** A member that the expression did not get to keeps its value. *)
Definition keep (os : list (option pl)) (i : nat) (old : pl) : pl := default old (arg os i).

Definition msg_ctype_decode (ctype : msg_ctype) (x : pl) : option (Z * msg_ctype) :=
  '(err, os) ← re_regex x
    (c_str "[ \t\r\n]*[^ \t\r\n;/]+[ \t\r\n]*/[ \t\r\n]*[^ \t\r\n;]+[^]*")
    [true; true; false; false; true; true];
  let c := mk_msg_ctype (keep os 1 (type ctype)) (keep os 4 (subtype ctype)) (keep os 5 (params ctype)) in
  if negb (err =? 0) then Some (EBADMSG, c)
  else ws ← arg os 0; if negb (pl_p ws =? pl_p x) then Some (EBADMSG, c) else Some (0, c).

(** The strings are constants at addresses of their own. *)
Definition msg_ctype_cmp (ctype : msg_ctype) (ty sub : pl) : bool :=
  if negb (pl_strcasecmp (Some (type ctype)) (Some ty) =? 0) then false
  else if negb (pl_strcasecmp (Some (subtype ctype)) (Some sub) =? 0) then false
  else true.

(** Any call is defined, and a match has stored what it should. *)
Lemma re_regex_defined x expr args its : items expr = Some its -> expr <> [] -> (classes its <= length args)%nat ->
  exists err os, re_regex x expr args = Some (err, os) /\
    (err = 0 -> forall i, (i < classes its)%nat -> args !! i = Some true -> is_Some (arg os i)).
Proof.
  intros Hi He Ha. destruct (decide (pl_p x = 0)) as [E|Hp].
  - unfold re_regex. rewrite E. cbn. by do 2 eexists.
  - destruct (re_regex_inv args expr its x Hi He Ha Hp) as [(i&caps&_&Hm&->)|(os&->)]; [|by do 2 eexists].
    do 2 eexists. split; [done|]. intros _ j Hj Hargs. apply matches_classes in Hm as Hl.
    destruct (lookup_lt_is_Some_2 caps j) as [c Hc]; [lia|]. unfold arg, stored.
    rewrite lookup_app_l by (rewrite length_zip_with; apply lookup_lt_Some in Hargs, Hc; lia).
    rewrite lookup_zip_with, Hargs, Hc. by eexists.
Qed.

(** ** Parameters as a list *)

Definition ws (c : Z) : bool := existsb (Z.eqb c) [32; 9; 13; 10].
(** The characters of a value, and of a name. *)
Definition valc (c : Z) : bool :=
  (0 <=? c) && (c <? 256) && negb (ws c) && negb (existsb (Z.eqb c) [59; 34; 92]).
Definition tok (c : Z) : bool := valc c && negb (existsb (Z.eqb c) [61; 91]).

Record param := mk_param { ws1 : list Z; name : list Z; ws2 : list Z;
  value : option (list Z * list Z * list Z) }.

Definition text_of (q : param) : list Z :=
  59 :: ws1 q ++ name q ++ ws2 q ++
  match value q with Some (a, v, b) => 61 :: a ++ v ++ b | None => [] end.

Definition param_ok (q : param) : Prop :=
  forallb ws (ws1 q) = true /\ name q <> [] /\ forallb tok (name q) = true /\ forallb ws (ws2 q) = true /\
  match value q with
  | Some (a, v, b) => forallb ws a = true /\ v <> [] /\ forallb valc v = true /\ forallb ws b = true
  | None => True
  end.

(** The value of the first parameter of the name that has one, with its address. *)
Fixpoint find_param (nm : list Z) (ps : list param) (p : Z) : option pl :=
  match ps with
  | [] => None
  | q :: ps =>
      let next := find_param nm ps (p + Z.of_nat (length (text_of q))) in
      match value q with
      | Some (a, v, _) =>
          if bool_decide (map tolower (name q) = map tolower nm)
          then Some (mk_pl (p + Z.of_nat (length (59 :: ws1 q ++ name q ++ ws2 q ++ 61 :: a))) v)
          else next
      | None => next
      end
  end.

Definition ws_cs : list chr := [mk_chr 32 32; mk_chr 9 9; mk_chr 13 13; mk_chr 10 10].
Definition val_cs : list chr := ws_cs ++ [mk_chr 59 59].

Lemma ws_class c : ws c = true -> in_class ws_cs false c = true.
Proof. unfold ws. cbn. intros H. assert (c = 32 \/ c = 9 \/ c = 13 \/ c = 10) as Hc by lia. by destruct_or! Hc; subst. Qed.

Lemma valc_class c : valc c = true -> in_class ws_cs false c = false /\ in_class val_cs true c = true /\
  (c =? 34) = false /\ (c =? 92) = false /\ (c =? 59) = false.
Proof.
  intros H. assert (0 <= c < 256) as Hc by (unfold valc in H; lia). revert H.
  pose proof (byte_cases (fun c => implb (valc c) (negb (in_class ws_cs false c) && in_class val_cs true c &&
    negb (c =? 34) && negb (c =? 92) && negb (c =? 59))) ltac:(vm_compute; reflexivity) c Hc) as E.
  cbn beta in E. intros H. rewrite H in E. cbn [implb] in E. rewrite !andb_true_iff, !negb_true_iff in E. tauto.
Qed.

Lemma tok_valc c : tok c = true -> valc c = true /\ (tolower c =? 61) = false /\
  (tolower c =? 59) = false /\ negb (c =? 91) && negb (c =? 92) = true /\ in_class ws_cs false (tolower c) = false.
Proof.
  intros H. assert (0 <= c < 256) as Hc by (unfold tok, valc in H; lia). revert H.
  pose proof (byte_cases (fun c => implb (tok c) (valc c && negb (tolower c =? 61) && negb (tolower c =? 59) &&
    (negb (c =? 91) && negb (c =? 92)) && negb (in_class ws_cs false (tolower c)))) ltac:(vm_compute; reflexivity) c Hc) as E.
  cbn beta in E. intros H. rewrite H in E. cbn [implb] in E. rewrite !andb_true_iff, !negb_true_iff in E.
  rewrite andb_true_iff, !negb_true_iff. tauto.
Qed.

Lemma forallb_impl {A} (P Q : A -> bool) l : (forall x, P x = true -> Q x = true) ->
  forallb P l = true -> forallb Q l = true.
Proof. rewrite !forallb_forall. auto. Qed.

Lemma ws_word w : forallb ws w = true -> forallb (in_class ws_cs false) w = true.
Proof. apply forallb_impl, ws_class. Qed.

(** Where a run of white space ends. *)
Definition no_ws (r : list Z) : Prop := match r with c :: _ => in_class ws_cs false c = false | [] => True end.

Lemma eval_ws its p w r : forallb ws w = true -> no_ws r -> Z.of_nat (length w) <= UINT32_MAX ->
  eval (Cls ws_cs false false 0 UINT32_MAX :: its) p (w ++ r) =
    capture (mk_pl p w) (eval its (p + Z.of_nat (length w)) r).
Proof. intros Hw Hr Hl. apply eval_plain; [by apply ws_word|by destruct r|lia]. Qed.

(** Another name: the literals fail in it, or at the end of the text. *)
Lemma other_name its nm : (forall p c r, tok c = true -> eval its p (c :: r) = Miss) ->
  forallb tok nm = true -> forall n p r, forallb tok n = true -> map tolower n <> map tolower nm ->
  match r with c :: _ => tok c = false /\ forall d, tok d = true -> tolower d <> tolower c | [] => True end ->
  eval (map Lit nm ++ its) p (n ++ r) = Miss \/ (eval (map Lit nm ++ its) p (n ++ r) = End_of_text /\ r = []).
Proof.
  intros Hits Hnm. induction nm as [|d nm IH]; intros n p r Hn Hne Hr.
  - destruct n as [|c n]; [done|]. left. apply Hits. simpl in Hn. by apply andb_true_iff in Hn as [? _].
  - cbn [forallb] in Hnm. apply andb_true_iff in Hnm as [Hd Hnm]. cbn [map app eval].
    destruct n as [|c n].
    + cbn [app]. destruct r as [|e r]; [by right|]. destruct Hr as [_ Hr].
      destruct (Z.eqb_spec (tolower d) (tolower e)); [by destruct (Hr d Hd)|by left].
    + cbn [forallb] in Hn. apply andb_true_iff in Hn as [Hc Hn]. cbn [app].
      destruct (Z.eqb_spec (tolower d) (tolower c)) as [E|E]; [|by left].
      apply IH; [done|done| |done]. intros E'. apply Hne. cbn [map]. by rewrite E, E'.
Qed.

(** ** [msg_param_decode] *)

Definition decode_items (nm : list Z) : list item :=
  Lit 59 :: Cls ws_cs false false 0 UINT32_MAX :: map Lit nm ++
  [Cls ws_cs false false 0 UINT32_MAX; Lit 61; Cls ws_cs false false 0 UINT32_MAX;
   Cls val_cs true true 1 UINT32_MAX].

Lemma print_all_fits l : forall o s, Z.of_nat (length (concat l)) <= s ->
  print_all (Uric.mk_buffer o s) l = (0, Uric.mk_buffer (o ++ concat l) (s - Z.of_nat (length (concat l)))).
Proof.
  induction l as [|x l IH]; intros o s Hs; cbn [print_all concat] in *.
  - by rewrite app_nil_r, Z.sub_0_r.
  - destruct x as [|y x]; [by apply IH|]. rewrite length_app in Hs. unfold Uric.print_handler.
    cbn [Uric.space Uric.out]. destruct (Z.ltb_spec s (Z.of_nat (length (y :: x)))); [lia|]. cbn [negb Z.eqb].
    rewrite IH by lia. rewrite <- app_assoc, length_app. do 2 f_equal. lia.
Qed.

Lemma re_snprintf_fits size l : Z.of_nat (length (concat l)) < size -> re_snprintf size l = concat l.
Proof. intros Hl. unfold re_snprintf. by rewrite print_all_fits by lia. Qed.

Lemma tok_name nm : forallb tok nm = true -> forallb (fun c => negb (c =? 91) && negb (c =? 92)) nm = true.
Proof. apply forallb_impl. intros c Hc. by apply tok_valc in Hc as (_&_&_&?&_). Qed.

(** The state of the compiler behind the first class. *)
Definition after_ws : ctl := mk_ctl false false false true false false 4 ws_cs.

Lemma compile_semi r : compile (c_str ";[ \t\r\n]*" ++ r) ctl0 =
  (its ← compile r after_ws; Some (Lit 59 :: Cls ws_cs false false 0 UINT32_MAX :: its)).
Proof. vm_compute. by destruct (_ r _). Qed.

Lemma decode_compiles nm : forallb tok nm = true ->
  items (c_str ";[ \t\r\n]*" ++ nm ++ c_str "[ \t\r\n]*=[ \t\r\n]*[~ \t\r\n;]+") = Some (decode_items nm).
Proof.
  intros Hn. unfold items. rewrite compile_semi.
  erewrite compile_name; [reflexivity|done|done|by apply tok_name|].
  vm_compute. reflexivity.
Qed.

(** The text behind a parameter: the next one, or the end. *)
Definition semi_or_end (r : list Z) : Prop := match r with c :: _ => c = 59 | [] => True end.

Lemma no_ws_tok c r : tok c = true -> no_ws (c :: r).
Proof. intros (Hc&_)%tok_valc. by apply valc_class in Hc as (?&_). Qed.

Lemma no_ws_semi r : semi_or_end r -> no_ws r.
Proof. destruct r; [done|]. by intros ->. Qed.

Lemma tok_other c d : tok d = true -> c = 59 \/ c = 61 \/ ws c = true -> tolower d <> tolower c.
Proof.
  intros (_&H61&H59&_&Hw)%tok_valc [->|[->|Hc]].
  - by apply Z.eqb_neq.
  - by apply Z.eqb_neq.
  - intros E. assert (tolower c = c) as Ec.
    { unfold ws in Hc. cbn in Hc. assert (c = 32 \/ c = 9 \/ c = 13 \/ c = 10) as H by lia. by destruct_or! H; subst. }
    rewrite E, Ec, ws_class in Hw; done.
Qed.

(** What follows the name of a parameter is no part of a name. *)
Lemma after_name q r : param_ok q -> semi_or_end r ->
  match ws2 q ++ (match value q with Some (a, v, b) => 61 :: a ++ v ++ b | None => [] end) ++ r with
  | c :: _ => tok c = false /\ forall d, tok d = true -> tolower d <> tolower c
  | [] => True
  end.
Proof.
  intros (_&_&_&H2&_) Hr.
  assert (forall c, c = 59 \/ c = 61 \/ ws c = true ->
    tok c = false /\ forall d, tok d = true -> tolower d <> tolower c) as Hc.
  { intros c Hc. split; [|intros d Hd; by apply tok_other].
    destruct (tok c) eqn:E; [|done]. by destruct (tok_other c c E Hc). }
  destruct (ws2 q) as [|c w]; cbn [app].
  - destruct (value q) as [[[a v] b]|]; cbn [app].
    + apply Hc. auto.
    + destruct r; [done|]. apply Hc. by left.
  - cbn [forallb] in H2. apply andb_true_iff in H2 as [H2 _]. apply Hc. auto.
Qed.

Definition fits (r : list Z) : Prop := Z.of_nat (length r) <= UINT32_MAX.

Lemma eval_rest p c r : tok c = true ->
  eval [Cls ws_cs false false 0 UINT32_MAX; Lit 61; Cls ws_cs false false 0 UINT32_MAX;
        Cls val_cs true true 1 UINT32_MAX] p (c :: r) = Miss.
Proof.
  intros Hc. rewrite eval_none; [|by apply (no_ws_tok c r)|done]. cbn [eval].
  apply tok_valc in Hc as (_&H61&_). change (tolower 61) with 61. by rewrite Z.eqb_sym, H61.
Qed.

(** An attempt at a parameter. *)
Lemma eval_param nm q p r : forallb tok nm = true -> param_ok q -> semi_or_end r -> fits (text_of q ++ r) ->
  match find_param nm [q] p with
  | Some v => exists a b c, eval (decode_items nm) p (text_of q ++ r) = Hit [a; b; c; v]
  | None => eval (decode_items nm) p (text_of q ++ r) = Miss \/
            (eval (decode_items nm) p (text_of q ++ r) = End_of_text /\ r = [])
  end.
Proof.
  intros Hnm Hq Hr Hfit. pose proof (after_name q r Hq Hr) as Haft.
  pose proof Hq as (H1&Hne&Hn&H2&Hv). unfold fits, text_of, find_param in *. unfold decode_items.
  destruct (name q) as [|c n] eqn:En; [done|]. rewrite <- En in *.
  assert (tok c = true) as Hc by (rewrite En in Hn; by apply andb_true_iff in Hn as [? _]).
  cbn [app length] in Hfit |- *. rewrite !length_app in Hfit.
  assert (forall K, eval (Lit 59 :: Cls ws_cs false false 0 UINT32_MAX :: K) p
    (59 :: ((ws1 q ++ name q ++ ws2 q ++ match value q with Some (a, v, b) => 61 :: a ++ v ++ b | None => [] end) ++ r)) =
    capture (mk_pl (p + 1) (ws1 q)) (eval K (p + 1 + Z.of_nat (length (ws1 q)))
      (name q ++ ws2 q ++ (match value q with Some (a, v, b) => 61 :: a ++ v ++ b | None => [] end) ++ r))) as E1.
  { intros K. rewrite eval_lit by done. rewrite <- !app_assoc.
    apply eval_ws; [done| |lia]. rewrite En. by apply no_ws_tok. }
  rewrite E1. clear E1.
  assert (map tolower (name q) <> map tolower nm ->
    eval (map Lit nm ++ [Cls ws_cs false false 0 UINT32_MAX; Lit 61; Cls ws_cs false false 0 UINT32_MAX;
      Cls val_cs true true 1 UINT32_MAX]) (p + 1 + Z.of_nat (length (ws1 q)))
      (name q ++ ws2 q ++ (match value q with Some (a, v, b) => 61 :: a ++ v ++ b | None => [] end) ++ r) = Miss \/
    (eval (map Lit nm ++ [Cls ws_cs false false 0 UINT32_MAX; Lit 61; Cls ws_cs false false 0 UINT32_MAX;
      Cls val_cs true true 1 UINT32_MAX]) (p + 1 + Z.of_nat (length (ws1 q)))
      (name q ++ ws2 q ++ (match value q with Some (a, v, b) => 61 :: a ++ v ++ b | None => [] end) ++ r) = End_of_text /\
     ws2 q ++ (match value q with Some (a, v, b) => 61 :: a ++ v ++ b | None => [] end) ++ r = [])) as Hother.
  { intros Hne'. apply other_name; try done. apply eval_rest. }
  destruct (value q) as [[[a v] b]|] eqn:Ev.
  - destruct Hv as (Ha&Hvne&Hv&Hb). case_bool_decide as Hname.
    + rewrite eval_lits by done. cbn [app]. rewrite eval_ws; [|done|done|lia].
      rewrite eval_lit, <- !app_assoc by done. cbn [length] in Hfit. rewrite !length_app in Hfit.
      rewrite eval_ws; [|done| |lia].
      2: { destruct v as [|d v]; [done|]. cbn [forallb] in Hv. apply andb_true_iff in Hv as [Hd _].
           by apply valc_class in Hd as (?&_). }
      assert (b ++ r = [] \/ exists d s, b ++ r = d :: s /\ (ws d = true \/ d = 59)) as Hbr.
      { destruct b as [|d b]; cbn [app].
        - destruct r as [|d r]; [by left|]. right. exists d, r. split; [done|by right].
        - right. do 2 eexists. split; [done|]. left. cbn [forallb] in Hb. by apply andb_true_iff in Hb as [? _]. }
      rewrite eval_quotable.
      * cbn [eval capture length]. rewrite !length_app. cbn [length]. do 3 eexists. do 4 f_equal. f_equal. f_equal. lia.
      * eapply forallb_impl; [|exact Hv]. intros d Hd. by apply valc_class in Hd as (_&?&_).
      * destruct Hbr as [->|(d&s&->&[Hd| ->])]; [done| |done]. unfold stops.
        apply ws_class in Hd. revert Hd. unfold in_class, val_cs. rewrite existsb_app. by intros ->.
      * unfold unquoted. eapply forallb_impl; [|exact Hv]. intros d Hd.
        apply valc_class in Hd as (_&_&->&->&_). done.
      * destruct Hbr as [->|(d&s&->&[Hd| ->])]; [done| |done].
        split; intros ->; done.
      * destruct v; [done|]. simpl length in *. lia.
    + destruct (Hother Hname) as [->|[-> H0]]; [by left|]. by destruct (ws2 q).
  - destruct (decide (map tolower (name q) = map tolower nm)) as [Hname|Hname].
    + rewrite eval_lits by done. cbn [app]. cbn [length] in Hfit. rewrite eval_ws; [|done|by apply no_ws_semi|lia].
      cbn [eval]. destruct r as [|d r]; [by right|]. cbn [semi_or_end] in Hr. subst d. by left.
    + destruct (Hother Hname) as [->|[-> H0]]; [by left|]. right. split; [done|].
      by apply app_eq_nil in H0 as [_ ?].
Qed.

Definition texts (ps : list param) : list Z := concat (map text_of ps).

Lemma find_param_cons nm q ps p : find_param nm (q :: ps) p =
  match find_param nm [q] p with
  | Some v => Some v | None => find_param nm ps (p + Z.of_nat (length (text_of q))) end.
Proof. cbn [find_param]. destruct (value q) as [[[a v] b]|]; [|done]. by case_bool_decide. Qed.

Lemma decode_items_ranged nm : forallb tok nm = true -> Forall ranged (decode_items nm).
Proof. intros Hn. eapply compile_ranged, decode_compiles, Hn. Qed.

Lemma not_semi nm p c r : c <> 59 -> eval (decode_items nm) p (c :: r) = Miss.
Proof.
  intros Hc. unfold decode_items. cbn [eval].
  destruct (Z.eqb_spec (tolower 59) (tolower c)) as [E|]; [|done]. exfalso. apply Hc.
  revert E. unfold tolower. case_match; case_match; lia.
Qed.

Lemma text_of_semi q : param_ok q -> exists w, text_of q = 59 :: w /\ Forall (fun c => c <> 59) w.
Proof.
  intros (H1&_&Hn&H2&Hv). unfold text_of. eexists. split; [done|].
  assert (forall w, forallb ws w = true -> Forall (fun c => c <> 59) w) as Hws.
  { intros w Hw. apply Forall_forall. intros c Hc%list_elem_of_In. rewrite forallb_forall in Hw.
    by apply Hw in Hc as Hc'; intros ->. }
  assert (forall w, forallb valc w = true -> Forall (fun c => c <> 59) w) as Hval.
  { intros w Hw. apply Forall_forall. intros c Hc%list_elem_of_In. rewrite forallb_forall in Hw.
    by apply Hw in Hc as Hc'; intros ->. }
  rewrite !Forall_app. split_and!; [by apply Hws| |by apply Hws|].
  - apply Hval. eapply forallb_impl; [|exact Hn]. intros c Hc. by apply tok_valc in Hc as [? _].
  - destruct (value q) as [[[a v] b]|]; [|constructor]. destruct Hv as (Ha&_&Hv&Hb).
    constructor; [done|]. rewrite !Forall_app. auto.
Qed.

Lemma texts_semi ps : Forall param_ok ps -> semi_or_end (texts ps).
Proof.
  destruct 1 as [|q ps Hq _]; [done|]. destruct (text_of_semi q Hq) as (w&E&_).
  change (texts (q :: ps)) with (text_of q ++ texts ps). by rewrite E.
Qed.

Lemma search_params nm ps : forallb tok nm = true -> Forall param_ok ps -> forall p, fits (texts ps) ->
  exists r, search (decode_items nm) p (texts ps) r /\
    match find_param nm ps p with Some v => exists a b c, r = Some [a; b; c; v] | None => r = None end.
Proof.
  intros Hnm Hps. induction Hps as [|q ps Hq Hps IH]; intros p Hf.
  { exists None. split; [constructor|done]. }
  rewrite find_param_cons. change (texts (q :: ps)) with (text_of q ++ texts ps) in *.
  pose proof (eval_param nm q p (texts ps) Hnm Hq (texts_semi ps Hps) Hf) as He.
  pose proof (eval_sound (decode_items nm) (decode_items_ranged nm Hnm) p (text_of q ++ texts ps)) as Hs.
  destruct (text_of_semi q Hq) as (w&Ew&Hw).
  destruct (find_param nm [q] p) as [v|].
  - destruct He as (a&b&c&He). rewrite He in Hs. eexists. split; [|by do 3 eexists].
    rewrite Ew in *. by apply s_found.
  - destruct He as [He|[He Hnil]]; rewrite He in Hs.
    + destruct (IH (p + Z.of_nat (length (text_of q)))) as (r&Hr&Hv).
      { unfold fits in *. rewrite length_app in Hf. lia. }
      exists r. split; [|done]. apply search_skip; [done|]. intros i Hi.
      destruct i as [|i]; [by rewrite Z.add_0_r|]. rewrite Ew in *. cbn [drop length] in *.
      destruct (drop i w) as [|c w'] eqn:Ed.
      { apply (f_equal length) in Ed. rewrite length_drop in Ed. simpl in Ed. lia. }
      apply not_semi. rewrite Forall_forall in Hw. apply Hw. rewrite <- (take_drop i w), Ed.
      apply elem_of_app. right. left.
    + exists None. split; [rewrite Ew in *; by apply s_given_up|].
      destruct Hps as [|q' ps Hq' _]; [done|]. destruct (text_of_semi q' Hq') as (w'&Ew'&_).
      change (texts (q' :: ps)) with (text_of q' ++ texts ps) in Hnil. by rewrite Ew' in Hnil.
Qed.

Lemma msg_param_decode_texts x nm ps val : pl_p x <> 0 -> pl_s x = texts ps -> Forall param_ok ps ->
  pl_l x <= UINT32_MAX -> nm <> [] -> forallb tok nm = true -> (length nm <= 95)%nat ->
  msg_param_decode x nm val =
    Some (match find_param nm ps (pl_p x) with Some v => (0, v) | None => (ENOENT, val) end).
Proof.
  intros Hp Ht Hps Hl Hne Hnm Hlen. unfold msg_param_decode.
  rewrite re_snprintf_fits; cbn [concat]; rewrite ?app_nil_r; [|rewrite !length_app; change (length (c_str ";[ \t\r\n]*")) with 8%nat;
    change (length (c_str "[ \t\r\n]*=[ \t\r\n]*[~ \t\r\n;]+")) with 24%nat; lia].
  destruct (search_params nm ps Hnm Hps (pl_p x)) as (r&Hr&Hv).
  { unfold fits. rewrite <- Ht. exact Hl. }
  rewrite <- Ht in Hr.
  pose proof (re_regex_search [false; false; false; true] _ _ (decode_compiles nm Hnm) ltac:(done)) as Hre.
  specialize (Hre ltac:(unfold decode_items; cbn [classes]; rewrite classes_lits; simpl; lia) x r Hp Hr).
  destruct (find_param nm ps (pl_p x)) as [v|].
  - destruct Hv as (a&b&c&->). cbn [reports] in Hre. by rewrite Hre.
  - subst r. destruct Hre as (os&->&_). done.
Qed.

(** On the parameters of a header field, however they are spaced, [msg_param_decode]
    returns the value of the first parameter with that name, up to case, that has a
    value, and [ENOENT] with the result untouched when there is none; a parameter whose
    name only starts like it, or one without a value, does not stop the search. *)
Theorem msg_param_decode_exact x nm ps val : pl_p x <> 0 -> pl_s x = texts ps -> Forall param_ok ps ->
  pl_l x <= UINT32_MAX -> nm <> [] -> forallb tok nm = true -> (length nm <= 95)%nat ->
  msg_param_decode x nm val =
    Some (match find_param nm ps (pl_p x) with Some v => (0, v) | None => (ENOENT, val) end).
Proof. apply msg_param_decode_texts. Qed.

(** Parameters inside a quoted string are found too, and [msg_param_exists] stops at a
    parameter whose name only starts like the one it looks for. *)
Example quoted_semicolon :
  msg_param_decode (mk_pl 100 (c_str ";x=" ++ [34] ++ c_str "a;tag=1" ++ [34])) (c_str "tag") pl_null =
    Some (0, mk_pl 110 [49; 34]).
Proof. vm_compute. reflexivity. Qed.
Example prefix_hides :
  msg_param_exists (mk_pl 100 (c_str ";lrx;lr")) (c_str "lr") pl_null = Some (ENOENT, pl_null) /\
  msg_param_exists (mk_pl 104 (c_str ";lr")) (c_str "lr") pl_null = Some (0, mk_pl 104 (c_str ";lr")).
Proof. vm_compute. done. Qed.

Definition ex_params : list param :=
  [mk_param [] (c_str "tagx") [] (Some ([], c_str "1", [])); mk_param [] (c_str "lr") [] None;
   mk_param [32] (c_str "Tag") [32] (Some ([32], c_str "a=b", [32]))].

Lemma msg_param_decode_exact_witness :
  msg_param_decode (mk_pl 100 (c_str ";tagx=1;lr; Tag = a=b ")) (c_str "tag") pl_null =
    Some (0, mk_pl 118 (c_str "a=b")).
Proof.
  rewrite (msg_param_decode_exact (mk_pl 100 (c_str ";tagx=1;lr; Tag = a=b ")) (c_str "tag") ex_params pl_null).
  - reflexivity.
  - done.
  - reflexivity.
  - by repeat constructor.
  - discriminate.
  - done.
  - reflexivity.
  - apply Nat.leb_le. reflexivity.
Defined.

End Param.
