(* ===== verification/Sa.v ===== *)
(** * Socket addresses: src/libre/src/sa/sa.c

    The system's [inet_pton] is a parameter.  In the union of the two address types the
    family and the port have one place and the addresses have places of their own; the
    port and the addresses are kept as the bytes in memory.  The null checks of the
    addresses are left out. *)
From S2P Require Import Prelude Pl Mbuf Codec.
Import Pl Codec.

Module Sa.

Definition AF_UNSPEC : Z := 0.
Definition AF_INET : Z := 2.
Definition AF_INET6 : Z := 10.
Definition EAFNOSUPPORT : Z := 97.

Record sa := mk_sa { family : Z; port : list Z; in_addr : list Z; in6_addr : list Z; sa_len : Z }.

Definition zeros (k : nat) : list Z := replicate k 0.

Definition sa_init (af : Z) : sa := mk_sa (u16 af) (zeros 2) (zeros 4) (zeros 16) 28.

Definition set_family (s : sa) (f : Z) : sa := mk_sa f (port s) (in_addr s) (in6_addr s) (sa_len s).
Definition set_in_addr (s : sa) (a : list Z) : sa := mk_sa (family s) (port s) a (in6_addr s) (sa_len s).
Definition set_in6_addr (s : sa) (a : list Z) : sa := mk_sa (family s) (port s) (in_addr s) a (sa_len s).
(** The port [p] in network order, and the size of the structure. *)
Definition set_port (s : sa) (p : Z) : sa := mk_sa (family s) (be_bytes 2 p) (in_addr s) (in6_addr s) (sa_len s).
Definition set_len (s : sa) (l : Z) : sa := mk_sa (family s) (port s) (in_addr s) (in6_addr s) l.

(** [IN6_IS_ADDR_V4MAPPED] *)
Definition v4mapped (a : list Z) : bool := bool_decide (take 12 a = zeros 10 ++ [255; 255]).

Section Pton.
(** [inet_pton] for the two families: the bytes of the address, if the text is one. *)
Context (inet_pton : Z -> list Z -> option (list Z)).

(** src/libre/src/sa/pton.c *)
Definition net_inet_pton (addr : list Z) (s : sa) : Z * sa :=
  match inet_pton AF_INET addr with
  | Some a => (0, set_family (set_in_addr s a) AF_INET)
  | None =>
      match inet_pton AF_INET6 addr with
      | Some a =>
          let s := set_in6_addr s a in
          if v4mapped a then (0, set_in_addr (set_family s AF_INET) (drop 12 a))
          else (0, set_family s AF_INET6)
      | None => (EINVAL, s)
      end
  end.

Definition sa_set_str (s : sa) (addr : list Z) (p : Z) : Z * sa :=
  let '(err, s) := net_inet_pton addr s in
  if negb (err =? 0) then (err, s)
  else if family s =? AF_INET then (0, set_len (set_port s p) 16)
  else if family s =? AF_INET6 then (0, set_len (set_port s p) 28)
  else (EAFNOSUPPORT, s).

(** [buf]: what is in the local buffer of 64 characters before the copy. *)
Definition sa_set (s : sa) (addr : pl) (p : Z) (buf : list Z) : Z * sa :=
  match snd (pl_strcpy (Some addr) (Some buf) 64) with
  | Some b => sa_set_str s (cstr b) p
  | None => (EINVAL, s)
  end.

Definition sa_decode (s : sa) (str : pl) (buf : list Z) : Z * sa :=
  let p := pl_p str in
  let len := pl_l str in
  let go addr c :=
    if len <? u64 (c - p + 2) then (EINVAL, s)
    else if negb (bool_decide (pl_s str !! Z.to_nat (c - p) = Some 58)) then (EINVAL, s)
    else
      let c := c + 1 in
      sa_set s addr (u16 (pl_u32 (Some (mk_pl c (drop (Z.to_nat (c - p)) (pl_s str)))))) buf in
  if (p =? 0) || (len =? 0) then (EINVAL, s)
  else
    let close := pl_strchr (Some str) 93 in
    if bool_decide (head (pl_s str) = Some 91) && negb (close =? 0) then
      go (mk_pl (p + 1) (take (Z.to_nat (close - p - 1)) (drop 1 (pl_s str)))) (close + 1)
    else
      let colon := pl_strchr (Some str) 58 in
      if negb (colon =? 0) then go (mk_pl p (take (Z.to_nat (colon - p)) (pl_s str))) colon
      else (EINVAL, s).

End Pton.

Definition sa_set_in (s : sa) (addr p : Z) : sa :=
  set_len (set_port (set_in_addr (set_family s AF_INET) (be_bytes 4 addr)) p) 16.
Definition sa_set_in6 (s : sa) (addr : list Z) (p : Z) : sa :=
  set_len (set_port (set_in6_addr (set_family s AF_INET6) addr) p) 28.

Definition sa_set_port (s : sa) (p : Z) : sa :=
  if family s =? AF_INET then set_port s p
  else if family s =? AF_INET6 then set_port s p
  else s.

Definition sa_af (s : sa) : Z := family s.
(** A 16 or 32-bit integer in network order. *)
Definition be_value (l : list Z) : Z := Mbuf.le_value (rev l).
Definition sa_in (s : sa) : Z := be_value (in_addr s).
Definition sa_in6 (s : sa) : list Z := in6_addr s.

Definition sa_port (s : sa) : Z :=
  if family s =? AF_INET then be_value (port s)
  else if family s =? AF_INET6 then be_value (port s)
  else 0.

Definition SA_ADDR : Z := 1.
Definition SA_PORT : Z := 2.
Definition SA_ALL : Z := Z.lor SA_ADDR SA_PORT.
Definition has (flag f : Z) : bool := negb (Z.land flag f =? 0).

Definition sa_isset (s : sa) (flag : Z) : bool :=
  if family s =? AF_INET then
    if has flag SA_ADDR && bool_decide (in_addr s = zeros 4) then false
    else negb (has flag SA_PORT && bool_decide (port s = zeros 2))
  else if family s =? AF_INET6 then
    if has flag SA_ADDR && bool_decide (in6_addr s = zeros 16) then false
    else negb (has flag SA_PORT && bool_decide (port s = zeros 2))
  else false.

(** The 32-bit words of an address, as the machine reads them. *)
Definition word (i : nat) (l : list Z) : Z := Mbuf.le_value (take 4 (drop (4 * i) l)).

Definition sa_hash (s : sa) (flag : Z) : Z :=
  if family s =? AF_INET then
    let v := if has flag SA_ADDR then be_value (in_addr s) else 0 in
    if has flag SA_PORT then u32 (v + be_value (port s)) else v
  else if family s =? AF_INET6 then
    let a := in6_addr s in
    let v := if has flag SA_ADDR
             then Z.lxor (Z.lxor (Z.lxor (word 0 a) (word 1 a)) (word 2 a)) (word 3 a) else 0 in
    if has flag SA_PORT then u32 (v + be_value (port s)) else v
  else 0.

(** [same]: whether the two pointers are equal. *)
Definition sa_cmp (same : bool) (l r : sa) (flag : Z) : bool :=
  if same then true
  else if negb (family l =? family r) then false
  else if family l =? AF_INET then
    if has flag SA_ADDR && negb (bool_decide (in_addr l = in_addr r)) then false
    else negb (has flag SA_PORT && negb (bool_decide (port l = port r)))
  else if family l =? AF_INET6 then
    if has flag SA_ADDR && negb (bool_decide (in6_addr l = in6_addr r)) then false
    else negb (has flag SA_PORT && negb (bool_decide (port l = port r)))
  else false.

(** The masks are applied to the address in network order. *)
Definition sa_is_linklocal (s : sa) : bool :=
  if sa_af s =? AF_INET then Z.land (be_value (in_addr s)) 4294901760 =? 2851995648
  else if sa_af s =? AF_INET6 then
    match in6_addr s with a :: b :: _ => (a =? 254) && (Z.land b 192 =? 128) | _ => false end
  else false.
Definition sa_is_loopback (s : sa) : bool :=
  if sa_af s =? AF_INET then be_value (in_addr s) =? 2130706433
  else if sa_af s =? AF_INET6 then bool_decide (in6_addr s = zeros 15 ++ [1])
  else false.
Definition sa_is_any (s : sa) : bool :=
  if sa_af s =? AF_INET then be_value (in_addr s) =? 0
  else if sa_af s =? AF_INET6 then bool_decide (in6_addr s = zeros 16)
  else false.

(** ** Comparing and hashing *)

Definition sa_ok (s : sa) : Prop :=
  length (port s) = 2%nat /\ bytes (port s) /\ length (in_addr s) = 4%nat /\ bytes (in_addr s) /\
  length (in6_addr s) = 16%nat /\ bytes (in6_addr s).

(** The address of the family in use. *)
Definition addr_of (s : sa) : list Z := if family s =? AF_INET then in_addr s else in6_addr s.
Definition supported (s : sa) : Prop := family s = AF_INET \/ family s = AF_INET6.

Lemma be_value_inj a b : bytes a -> bytes b -> length a = length b -> be_value a = be_value b -> a = b.
Proof.
  intros Ha Hb Hl E. unfold be_value in E.
  apply (f_equal (Mbuf.le_bytes (length a))) in E.
  rewrite <- (length_rev a) in E at 1. rewrite le_bytes_value in E by by apply Forall_rev.
  rewrite Hl, <- (length_rev b), le_bytes_value in E by by apply Forall_rev.
  by apply rev_inj.
Qed.

Lemma both_equal (a c : bool) (P Q : Prop) `{!Decision P, !Decision Q} :
  (if a && negb (bool_decide P) then false else negb (c && negb (bool_decide Q))) = true <->
  (a = true -> P) /\ (c = true -> Q).
Proof. destruct a, c; cbn [andb]; repeat case_bool_decide; cbn [negb]; intuition done. Qed.

Lemma sa_cmp_spec l r flag : sa_cmp false l r flag = true <->
  family l = family r /\ supported l /\
  (has flag SA_ADDR = true -> addr_of l = addr_of r) /\ (has flag SA_PORT = true -> port l = port r).
Proof.
  unfold sa_cmp, supported, addr_of.
  destruct (Z.eqb_spec (family l) (family r)) as [Ef|]; [|by split; [|intros []]].
  cbn [negb]. rewrite <- Ef. destruct (Z.eqb_spec (family l) AF_INET) as [Ei|Ei].
  - rewrite both_equal. tauto.
  - destruct (Z.eqb_spec (family l) AF_INET6) as [E6|E6].
    + rewrite both_equal. tauto.
    + split; [done|]. by intros (_&[?|?]&_).
Qed.

(** Comparing two addresses is comparing their family, and their address and port
    as the flags ask for; it is an equivalence on addresses of a supported family, the
    port of two equal addresses is the same number, and equal addresses have equal hash
    values under the same flags. *)
Theorem sa_cmp_equivalence l r m flag : sa_ok l -> sa_ok r -> sa_ok m ->
  (supported l -> sa_cmp false l l flag = true) /\
  (sa_cmp false l r flag = sa_cmp false r l flag) /\
  (sa_cmp false l r flag = true -> sa_cmp false r m flag = true -> sa_cmp false l m flag = true) /\
  (sa_cmp false l r SA_ALL = true <->
     family l = family r /\ supported l /\ addr_of l = addr_of r /\ sa_port l = sa_port r) /\
  (sa_cmp false l r flag = true -> sa_hash l flag = sa_hash r flag).
Proof.
  intros Hl Hr Hm. split_and!.
  - intros Hs. by apply sa_cmp_spec.
  - apply eq_true_iff_eq. rewrite !sa_cmp_spec. unfold supported. intuition congruence.
  - rewrite !sa_cmp_spec. unfold supported. intuition congruence.
  - rewrite sa_cmp_spec. unfold sa_port, supported.
    destruct Hl as (?&?&_), Hr as (?&?&_). split.
    + intros (Ef&Hs&Ha&Hp). rewrite <- Ef, (Hp eq_refl). auto.
    + intros (Ef&Hs&Ha&Hp). split_and!; auto. intros _. rewrite <- Ef in Hp.
      apply be_value_inj; try done; [congruence|]. destruct Hs as [E|E]; by rewrite E in Hp.
  - intros (Ef&Hs&Ha&Hp)%sa_cmp_spec. unfold sa_hash, addr_of in *. rewrite <- Ef in *.
    destruct (Z.eqb_spec (family l) AF_INET); [|destruct (Z.eqb_spec (family l) AF_INET6)]; [| |done];
      (destruct (has flag SA_ADDR); [rewrite Ha by done|]);
      (destruct (has flag SA_PORT); [rewrite Hp by done|]); done.
Qed.

(** ** Parsing *)

Lemma strchr_none l p c : ~ In c l -> bytes l -> is_byte c -> 0 < p -> strchr_from l p c = 0.
Proof.
  intros Hn Hb Hc. revert p. induction Hb as [|x l Hx Hb IH]; intros p Hp; simpl; [done|].
  destruct (Z.eqb_spec (s8 x) (s8 c)) as [E|]; [|apply IH; [simpl in Hn; tauto|lia]].
  destruct Hn. left. revert E. unfold s8. rewrite !u8_small by done. unfold is_byte in *. repeat case_match; lia.
Qed.

Lemma strchr_first l r p c : ~ In c l -> bytes l -> is_byte c -> 0 < p ->
  strchr_from (l ++ c :: r) p c = p + Z.of_nat (length l).
Proof.
  intros Hn Hb Hc. revert p. induction Hb as [|x l Hx Hb IH]; intros p Hp; simpl.
  - rewrite Z.eqb_refl. lia.
  - destruct (Z.eqb_spec (s8 x) (s8 c)) as [E|]; [|rewrite IH; [lia|simpl in Hn; tauto|lia]].
    destruct Hn. left. revert E. unfold s8. rewrite !u8_small by done. unfold is_byte in *. repeat case_match; lia.
Qed.

Lemma cstr_copied l r : no_nul l -> cstr (l ++ 0 :: r) = l.
Proof.
  induction 1 as [|c l Hc Hl IH]; [done|]. simpl. destruct (Z.eqb_spec c 0); [done|]. by rewrite IH.
Qed.

Section Decode.
Context (inet_pton : Z -> list Z -> option (list Z)).

Lemma sa_set_text s p h q buf : p <> 0 -> no_nul h -> (length h < 64)%nat ->
  sa_set inet_pton s (mk_pl p h) q buf = sa_set_str inet_pton s h q.
Proof.
  intros Hp Hn Hl. unfold sa_set, pl_strcpy. cbn [pl_p pl_l pl_s].
  destruct (Z.eqb_spec p 0); [done|]. cbn [orb snd Z.eqb]. unfold pl_l. cbn [pl_s].
  rewrite Z.min_l, Nat2Z.id, firstn_all by lia. simpl app. by rewrite cstr_copied.
Qed.

Lemma sa_port_set s q : supported s -> sa_port (set_port s q) = q mod 65536.
Proof.
  intros Hs. assert (be_value (be_bytes 2 q) = q mod 65536) as E.
  { unfold be_value, be_bytes. rewrite rev_involutive. apply Mbuf.le_value_bytes. }
  unfold sa_port. cbn [family set_port port]. rewrite E. by destruct Hs as [->| ->].
Qed.

(** An address and port are parsed from exactly the two forms, [addr:port] with an
    address without colons and [[addr]:port]: the address goes to [inet_pton] as it is
    and the port is the number modulo 2^16, so that 65536 is read as port 0. *)
Theorem sa_decode_exact s buf p (br : bool) h ds v :
  let text := if br then 91 :: h ++ 93 :: 58 :: ds else h ++ 58 :: ds in
  0 < p -> p + Z.of_nat (length text) < 2 ^ 64 -> bytes text -> no_nul h -> (length h < 64)%nat ->
  (if br then ~ In 93 h else ~ In 58 h /\ head text <> Some 91) ->
  ds <> [] -> value dec_digit 10 ds = Some v ->
  sa_decode inet_pton s (mk_pl p text) buf = sa_set_str inet_pton s h (v mod 65536) /\
  (forall a, inet_pton AF_INET h = Some a -> exists s',
     sa_decode inet_pton s (mk_pl p text) buf = (0, s') /\ sa_af s' = AF_INET /\ in_addr s' = a /\
     sa_port s' = v mod 65536).
Proof.
  intros text Hp Hmax Hb Hn Hl Hbr Hds Hv.
  assert (sa_decode inet_pton s (mk_pl p text) buf = sa_set_str inet_pton s h (v mod 65536)) as E.
  { assert (forall c, c <> 0 -> u16 (pl_u32 (Some (mk_pl c ds))) = v mod 65536) as Hport.
    { intros c Hc. unfold pl_u32. rewrite (pl_num_value dec_digit 4294967296 10) by done. cbn [pl_s].
      rewrite Hv. unfold u16. apply Z.mod_mod_divide. by exists 65536. }
    assert (0 < length ds)%nat as Hd by (destruct ds; [done|simpl; lia]).
    unfold sa_decode. cbn [pl_p pl_s]. unfold pl_l, pl_strchr. cbn [pl_s pl_p].
    assert (0 < length text)%nat as Ht by
      (unfold text; destruct br; [simpl; lia|rewrite length_app; simpl; lia]).
    assert ((p =? 0) || (Z.of_nat (length text) =? 0) = false) as -> by lia. clear Ht.
    destruct br.
    - unfold text at 1. cbn [head]. rewrite bool_decide_true by done. cbn [andb].
      assert (strchr_from text p 93 = p + Z.of_nat (S (length h))) as ->.
      { unfold text. rewrite app_comm_cons. rewrite strchr_first; [simpl; lia| | |done|done].
        - simpl. intros [?|?]; done.
        - unfold text in Hb. rewrite app_comm_cons in Hb. by apply Forall_app in Hb as [? _]. }
      destruct (Z.eqb_spec (p + Z.of_nat (S (length h))) 0); [lia|]. cbn [negb].
      unfold text in Hmax |- *. cbn [length] in *. rewrite !length_app in *. cbn [length] in *.
      rewrite u64_small by lia. destruct (Z.ltb_spec (Z.of_nat (S (length h + S (S (length ds)))))
        (p + Z.of_nat (S (length h)) + 1 - p + 2)); [lia|].
      replace (Z.to_nat (p + Z.of_nat (S (length h)) + 1 - p)) with (length (91%Z :: h) + 1)%nat by (simpl; lia).
      replace (Z.to_nat (p + Z.of_nat (S (length h)) + 1 + 1 - p)) with (length (91%Z :: h) + 2)%nat by (simpl; lia).
      replace (Z.to_nat (p + Z.of_nat (S (length h)) - p - 1)) with (length h) by lia.
      cbn [drop]. rewrite drop_0, take_app_length, app_comm_cons.
      rewrite lookup_app_r by lia. replace (length (91%Z :: h) + 1 - length (91%Z :: h))%nat with 1%nat by lia.
      rewrite bool_decide_true by done. cbn [negb].
      rewrite drop_app_add. cbn [drop]. rewrite drop_0, Hport by lia. by apply sa_set_text; [lia|..].
    - destruct Hbr as [H58 H91]. rewrite bool_decide_false by done. cbn [andb].
      assert (strchr_from text p 58 = p + Z.of_nat (length h)) as ->.
      { unfold text. rewrite strchr_first; [done|done| |done|done]. by apply Forall_app in Hb as [? _]. }
      destruct (Z.eqb_spec (p + Z.of_nat (length h)) 0); [lia|]. cbn [negb].
      unfold text in Hmax |- *. rewrite length_app in *. cbn [length] in *.
      rewrite u64_small by lia. destruct (Z.ltb_spec (Z.of_nat (length h + S (length ds)))
        (p + Z.of_nat (length h) - p + 2)); [lia|].
      replace (Z.to_nat (p + Z.of_nat (length h) - p)) with (length h) by lia.
      replace (Z.to_nat (p + Z.of_nat (length h) + 1 - p)) with (length h + 1)%nat by lia.
      rewrite lookup_app_r, Nat.sub_diag by lia.
      rewrite bool_decide_true by done. cbn [negb].
      rewrite drop_app_add, take_app_length. cbn [drop]. rewrite drop_0, Hport by lia. by apply sa_set_text; [lia|..]. }
  split; [exact E|]. intros a Ha. rewrite E. unfold sa_set_str, net_inet_pton. rewrite Ha. cbn.
  eexists. split_and!; [done|done|done|]. change (be_value (be_bytes 2 (v mod 65536)) = v mod 65536).
  unfold be_value, be_bytes. rewrite rev_involutive, Mbuf.le_value_bytes. by apply Z.mod_mod.
Qed.

End Decode.

(** *** Witnesses: 1.2.3.4:5060 *)

Definition ex_pton (af : Z) (l : list Z) : option (list Z) :=
  if (af =? AF_INET) && bool_decide (l = c_str "1.2.3.4") then Some [1; 2; 3; 4] else None.

Lemma sa_decode_exact_witness : exists s',
  sa_decode ex_pton (sa_init AF_UNSPEC) (mk_pl 100 (c_str "1.2.3.4:5060")) (zeros 64) = (0, s') /\
  in_addr s' = [1; 2; 3; 4] /\ sa_port s' = 5060.
Proof.
  destruct (sa_decode_exact ex_pton (sa_init AF_UNSPEC) (zeros 64) 100 false (c_str "1.2.3.4") (c_str "5060") 5060)
    as [_ H].
  - done.
  - done.
  - apply bytes_check. reflexivity.
  - by repeat constructor.
  - apply Nat.ltb_lt. reflexivity.
  - split; [|done]. simpl. intros H. by destruct_or? H.
  - done.
  - reflexivity.
  - destruct (H [1; 2; 3; 4] eq_refl) as (s'&E&_&?&Hp). by exists s'.
Defined.

Definition ex_sa (p : Z) : sa := sa_set_in (sa_init AF_INET) 16909060 p.

Lemma sa_cmp_equivalence_witness :
  sa_hash (ex_sa 5060) SA_ADDR = sa_hash (ex_sa 5061) SA_ADDR /\
  sa_cmp false (ex_sa 5060) (ex_sa 5061) SA_ALL = false.
Proof.
  assert (forall p, sa_ok (ex_sa p)) as Hok.
  { intros p. split_and!; try done; try apply be_bytes_range; apply bytes_check; reflexivity. }
  destruct (sa_cmp_equivalence (ex_sa 5060) (ex_sa 5061) (ex_sa 5060) SA_ADDR) as (_&_&_&_&H); [apply Hok..|].
  split; [by apply H|reflexivity].
Defined.

End Sa.
