(* ===== verification/Print.v ===== *)
(** * Formatted printing: src/libre/src/fmt/print.c

    The interpreter of formats over an abstract print handler, and the handlers that
    print to a bounded buffer, to a buffer that grows and to a text.  A client proves what
    it prints against the interface [Sink] of a handler.  The system's printer of network
    addresses and its error texts are parameters; the conversion of a double and printing
    to files are not modelled.  [None] is undefined behaviour: an argument of another type
    than its conversion. *)
From S2P Require Import Prelude Pl Uric Sa.
Import Pl.

Module Print.

Abbreviation local_itoa := Uric.local_itoa.

(** A variable argument; [H] names the print handlers that "%H" may call.  Strings end at
    their terminator, an integer is the value that was passed. *)
Inductive arg (H : Type) : Type :=
| AInt (z : Z)
| AStr (s : option (list Z))
| ABuf (s : option (list Z))
| APl (p : option pl)
| ASa (a : option Sa.sa)
| APtr (p : Z)
| APrint (h : option H)
| AFmt (x : option (list Z * list (arg H))).
Arguments AInt {H}. Arguments AStr {H}. Arguments ABuf {H}. Arguments APl {H}.
Arguments ASa {H}. Arguments APtr {H}. Arguments APrint {H}. Arguments AFmt {H}.

Definition LENMOD_NONE : Z := 0.
Definition LENMOD_SIZE : Z := 42.

(** The variables of a conversion. *)
Record conv := mk_conv { pch : Z; plr : bool; pad : Z; lenmod : Z }.
Definition conv0 : conv := mk_conv 32 false 0 LENMOD_NONE.

(** What is fetched for "%d" and for "%u". *)
Definition signed (k : conv) (z : Z) : Z := if lenmod k =? LENMOD_NONE then s32 z else s64 z.
Definition unsigned (k : conv) (z : Z) : Z := if lenmod k =? LENMOD_NONE then u32 z else u64 z.

(** The flags and modifiers. *)
Definition modifier (k : conv) (c : Z) : option conv :=
  if c =? 45 then Some (mk_conv (pch k) true (pad k) (lenmod k))
  else if c =? 46 then Some (mk_conv (pch k) (plr k) 0 (lenmod k))
  else if c =? 108 then Some (mk_conv (pch k) (plr k) (pad k) (u32 (lenmod k + 1)))
  else if c =? 122 then Some (mk_conv (pch k) (plr k) (pad k) LENMOD_SIZE)
  else if (48 <=? c) && (c <=? 57) then
    Some (if (pad k =? 0) && (c =? 48) then mk_conv 48 (plr k) (pad k) (lenmod k)
          else mk_conv (pch k) (plr k) (u64 (u64 (pad k * 10) + (c - 48))) (lenmod k))
  else None.

Definition num_pch (k : conv) : Z := if plr k then 32 else pch k.

Section Print.
Context (inet_ntop : Z -> list Z -> list Z) (strerror : Z -> list Z).
Context {S H : Type} (vph : S -> list Z -> option (Z * S)) (run : H -> S -> option (Z * S)).

(** [err |= vph(p, ...)] *)
Definition put (err : Z) (s : S) (p : list Z) : option (Z * S) :=
  '(e, s) ← vph s p; Some (Z.lor err e, s).

Fixpoint fill (n : nat) (c err : Z) (s : S) : option (Z * S) :=
  match n with
  | O => Some (err, s)
  | Datatypes.S n => '(err, s) ← put err s [c]; fill n c err s
  end.

(** An empty prefix is a null one. *)
Definition write_padded (p : list Z) (pad pch : Z) (plr : bool) (prfx : list Z) (s : S) : option (Z * S) :=
  let sz := Z.of_nat (length p) in
  let pad := pad - Z.min pad (Z.of_nat (length prfx)) in
  let has := match prfx with [] => false | _ => true end in
  '(err, s) ← (if has && (pch =? 48) then put 0 s prfx else Some (0, s));
  '(err, s) ← (if plr then Some (err, s) else fill (Z.to_nat (pad - sz)) pch err s);
  '(err, s) ← (if has && negb (pch =? 48) then put err s prfx else Some (err, s));
  '(err, s) ← (match p with [] => Some (err, s) | _ => put err s p end);
  if plr then fill (Z.to_nat (pad - sz)) pch err s else Some (err, s).

Definition hex_bytes (uc : bool) (l : list Z) (err : Z) (s : S) : option (Z * S) :=
  foldl (fun r x => '(err, s) ← r;
           '(e, s) ← write_padded (local_itoa x 16 uc) 2 48 false [] s; Some (Z.lor err e, s))
        (Some (err, s)) l.

(** "%w" *)
Definition write_hex (k : conv) (uc : bool) (l : list Z) (s : S) : option (Z * S) :=
  let n := Z.to_nat (pad k - Z.of_nat (length l) * 2) in
  let c := num_pch k in
  '(err, s) ← (if plr k then Some (0, s) else fill n c 0 s);
  '(err, s) ← hex_bytes uc l err s;
  if plr k then fill n c err s else Some (err, s).

Definition sa_ntop (a : Sa.sa) : option (list Z) :=
  if Sa.family a =? Sa.AF_INET then Some (inet_ntop Sa.AF_INET (Sa.in_addr a))
  else if Sa.family a =? Sa.AF_INET6 then Some (inet_ntop Sa.AF_INET6 (Sa.in6_addr a))
  else None.

(** "%J" *)
Definition write_sa (k : conv) (a : Sa.sa) (s : S) : option (Z * S) :=
  match sa_ntop a with
  | None => write_padded [63] (pad k) 32 (plr k) [] s
  | Some t =>
      let v6 := Sa.sa_af a =? Sa.AF_INET6 in
      '(err, s) ← (if v6 then put 0 s [91] else Some (0, s));
      '(e, s) ← write_padded t (pad k) 32 (plr k) [] s;
      let err := Z.lor err e in
      '(err, s) ← (if v6 then put err s [93] else Some (err, s));
      '(err, s) ← put err s [58];
      '(e, s) ← write_padded (local_itoa (Sa.sa_port a) 10 false) (pad k) (num_pch k) (plr k) [] s;
      Some (Z.lor err e, s)
  end.

Section Convert.
(** [re_vhprintf] for "%v". *)
Context (nested : list Z -> list (arg H) -> S -> option (Z * S)).

Definition text (k : conv) (t : list Z) (s : S) : option (Z * S) :=
  write_padded t (pad k) 32 (plr k) [] s.

(** The conversion [c]: its error, the arguments that are left and the state. *)
Definition convert (k : conv) (c : Z) (args : list (arg H)) (s : S) : option (Z * list (arg H) * S) :=
  let ret (args : list (arg H)) (r : option (Z * S)) := '(err, s) ← r; Some (err, args, s) in
  let ch (c' : ascii) := c =? code c' in
  if ch "%"%char then ret args (vph s [37])
  else if ch "d"%char || ch "i"%char then
    match args with
    | AInt z :: args =>
        let sn := signed k z in
        if sn =? -9223372036854775808 then None
        else ret args (write_padded (local_itoa (Z.abs sn) 10 false) (pad k) (num_pch k) (plr k)
                         (if sn <? 0 then [45] else []) s)
    | _ => None
    end
  else if ch "u"%char || ch "x"%char || ch "X"%char then
    match args with
    | AInt z :: args =>
        ret args (write_padded (local_itoa (unsigned k z) (if ch "u"%char then 10 else 16) (ch "X"%char))
                    (pad k) (num_pch k) (plr k) [] s)
    | _ => None
    end
  else if ch "c"%char then match args with AInt z :: args => ret args (text k [u8 z] s) | _ => None end
  else if ch "b"%char then match args with ABuf t :: args => ret args (text k (default [] t) s) | _ => None end
  else if ch "s"%char then match args with AStr t :: args => ret args (text k (default [] t) s) | _ => None end
  else if ch "r"%char then
    match args with
    | APl x :: args => ret args (text k (match x with Some x => if pl_p x =? 0 then [] else pl_s x | None => [] end) s)
    | _ => None
    end
  else if ch "m"%char then match args with AInt z :: args => ret args (text k (strerror z) s) | _ => None end
  else if ch "p"%char then
    match args with
    | APtr p :: args =>
        ret args (if p =? 0 then text k (c_str "(nil)") s
                  else write_padded (local_itoa p 16 false) (pad k) (num_pch k) (plr k) (c_str "0x") s)
    | _ => None
    end
  else if ch "w"%char || ch "W"%char then
    match args with ABuf l :: args => ret args (write_hex k (ch "W"%char) (default [] l) s) | _ => None end
  else if ch "j"%char then
    match args with
    | ASa None :: args => Some (0, args, s)
    | ASa (Some a) :: args => ret args (text k (default [63] (sa_ntop a)) s)
    | _ => None
    end
  else if ch "J"%char then
    match args with
    | ASa None :: args => Some (0, args, s)
    | ASa (Some a) :: args => ret args (write_sa k a s)
    | _ => None
    end
  else if ch "H"%char then
    match args with
    | APrint None :: args => Some (0, args, s)
    | APrint (Some h) :: args => ret args (run h s)
    | _ => None
    end
  else if ch "v"%char then
    match args with
    | AFmt None :: args => Some (0, args, s)
    | AFmt (Some (fmt, apl)) :: args => ret args (nested fmt apl s)
    | _ => None
    end
  else if ch "f"%char || ch "F"%char then None
  else ret args (vph s [63]).

(** The loop; [lit] is the text since the last conversion. *)
Fixpoint loop (fmt : list Z) (fm : option conv) (lit : list Z) (args : list (arg H)) (s : S) : option (Z * S) :=
  match fmt with
  | [] => match fm, lit with None, _ :: _ => vph s lit | _, _ => Some (0, s) end
  | c :: fmt =>
      match fm with
      | None =>
          if c =? 37 then
            '(err, s) ← (match lit with [] => Some (0, s) | _ => vph s lit end);
            if negb (err =? 0) then Some (err, s) else loop fmt (Some conv0) [] args s
          else loop fmt None (lit ++ [c]) args s
      | Some k =>
          match modifier k c with
          | Some k => loop fmt (Some k) [] args s
          | None =>
              '(err, args, s) ← convert k c args s;
              if negb (err =? 0) then Some (err, s) else loop fmt None [] args s
          end
      end
  end.

End Convert.

(** [depth]: how deep formats are nested. *)
Fixpoint re_vhprintf (depth : nat) (fmt : list Z) (args : list (arg H)) (s : S) : option (Z * S) :=
  match depth with
  | O => None
  | Datatypes.S depth => loop (re_vhprintf depth) fmt None [] args s
  end.

End Print.

(** ** What a format prints

    A format is parsed to texts and conversions first; what each prints is put together. *)
Inductive dir := Text (t : list Z) | Conv (k : conv) (c : Z).

Definition literal (lit : list Z) : list dir := match lit with [] => [] | _ => [Text lit] end.

Fixpoint parse (fmt : list Z) (fm : option conv) (lit : list Z) : list dir :=
  match fmt with
  | [] => match fm with None => literal lit | Some _ => [] end
  | c :: fmt =>
      match fm with
      | None => if c =? 37 then literal lit ++ parse fmt (Some conv0) [] else parse fmt None (lit ++ [c])
      | Some k => match modifier k c with Some k => parse fmt (Some k) [] | None => Conv k c :: parse fmt None [] end
      end
  end.

Definition padded_text (p : list Z) (pad pch : Z) (plr : bool) (prfx : list Z) : list Z :=
  let pad := pad - Z.min pad (Z.of_nat (length prfx)) in
  let fill := replicate (Z.to_nat (pad - Z.of_nat (length p))) pch in
  (if pch =? 48 then prfx else []) ++ (if plr then [] else fill) ++ (if pch =? 48 then [] else prfx) ++
  p ++ (if plr then fill else []).

Definition plain_text (k : conv) (t : list Z) : list Z := padded_text t (pad k) 32 (plr k) [].

Section Render.
Context (inet_ntop : Z -> list Z -> list Z) (strerror : Z -> list Z).
Context {H : Type} (htext : H -> option (list Z)).

Definition hex_text (k : conv) (uc : bool) (l : list Z) : list Z :=
  let fill := replicate (Z.to_nat (pad k - Z.of_nat (length l) * 2)) (num_pch k) in
  (if plr k then [] else fill) ++ (l ≫= fun x => padded_text (local_itoa x 16 uc) 2 48 false []) ++
  (if plr k then fill else []).

Definition sa_text (k : conv) (a : Sa.sa) : list Z :=
  match sa_ntop inet_ntop a with
  | None => plain_text k [63]
  | Some t =>
      let v6 := Sa.sa_af a =? Sa.AF_INET6 in
      (if v6 then [91] else []) ++ plain_text k t ++ (if v6 then [93] else []) ++ [58] ++
      padded_text (local_itoa (Sa.sa_port a) 10 false) (pad k) (num_pch k) (plr k) []
  end.

Definition pl_text (x : option pl) : list Z :=
  match x with Some x => if pl_p x =? 0 then [] else pl_s x | None => [] end.

(** The text of the conversion [c], by the argument it takes. *)
Definition conv_text (nested : list Z -> list (arg H) -> option (list Z)) (k : conv) (c : Z) (a : arg H) :
    option (list Z) :=
  let ch (c' : ascii) := c =? code c' in
  let num (base : Z) (uc : bool) (z : Z) (neg : bool) :=
    Some (padded_text (local_itoa z base uc) (pad k) (num_pch k) (plr k) (if neg then [45] else [])) in
  if ch "d"%char || ch "i"%char then
    match a with
    | AInt z => let sn := signed k z in if sn =? -9223372036854775808 then None else num 10 false (Z.abs sn) (sn <? 0)
    | _ => None
    end
  else if ch "u"%char then match a with AInt z => num 10 false (unsigned k z) false | _ => None end
  else if ch "x"%char then match a with AInt z => num 16 false (unsigned k z) false | _ => None end
  else if ch "X"%char then match a with AInt z => num 16 true (unsigned k z) false | _ => None end
  else if ch "c"%char then match a with AInt z => Some (plain_text k [u8 z]) | _ => None end
  else if ch "b"%char then match a with ABuf t => Some (plain_text k (default [] t)) | _ => None end
  else if ch "s"%char then match a with AStr t => Some (plain_text k (default [] t)) | _ => None end
  else if ch "r"%char then match a with APl x => Some (plain_text k (pl_text x)) | _ => None end
  else if ch "m"%char then match a with AInt z => Some (plain_text k (strerror z)) | _ => None end
  else if ch "p"%char then
    match a with
    | APtr p => Some (if p =? 0 then plain_text k (c_str "(nil)")
                      else padded_text (local_itoa p 16 false) (pad k) (num_pch k) (plr k) (c_str "0x"))
    | _ => None
    end
  else if ch "w"%char then match a with ABuf l => Some (hex_text k false (default [] l)) | _ => None end
  else if ch "W"%char then match a with ABuf l => Some (hex_text k true (default [] l)) | _ => None end
  else if ch "j"%char then
    match a with
    | ASa None => Some []
    | ASa (Some x) => Some (plain_text k (default [63] (sa_ntop inet_ntop x)))
    | _ => None
    end
  else if ch "J"%char then
    match a with ASa None => Some [] | ASa (Some x) => Some (sa_text k x) | _ => None end
  else if ch "H"%char then match a with APrint None => Some [] | APrint (Some h) => htext h | _ => None end
  else if ch "v"%char then
    match a with AFmt None => Some [] | AFmt (Some (fmt, apl)) => nested fmt apl | _ => None end
  else None.

(** The conversions that take no argument: "%%", and every unknown one. *)
Definition no_arg (c : Z) : option (list Z) :=
  if c =? 37 then Some [37]
  else if existsb (Z.eqb c) (c_str "diuxXcbsrmpwWjJHvfF") then None else Some [63].

Fixpoint render (nested : list Z -> list (arg H) -> option (list Z)) (ds : list dir) (args : list (arg H)) :
    option (list Z) :=
  match ds with
  | [] => Some []
  | Text t :: ds => u ← render nested ds args; Some (t ++ u)
  | Conv k c :: ds =>
      match no_arg c with
      | Some t => u ← render nested ds args; Some (t ++ u)
      | None =>
          match args with
          | a :: args => t ← conv_text nested k c a; u ← render nested ds args; Some (t ++ u)
          | [] => None
          end
      end
  end.

Fixpoint format_text (depth : nat) (fmt : list Z) (args : list (arg H)) : option (list Z) :=
  match depth with
  | O => None
  | S depth => render (format_text depth) (parse fmt None []) args
  end.

End Render.

(** ** Print handlers

    The interface of a print handler: [adds s t s'] when the state [s'] is [s] with the
    text [t], [fits] when there is room for it, [partial s n s'] when [s'] has at most [n]
    characters more, as after an error; [holds s n] when a text that is [n] characters
    longer is within the address space. *)
Definition len (t : list Z) : Z := Z.of_nat (length t).

Class Sink {S : Type} (vph : S -> list Z -> option (Z * S)) := {
  wf : S -> Prop;
  adds : S -> list Z -> S -> Prop;
  fits : S -> list Z -> Prop;
  partial : S -> Z -> S -> Prop;
  holds : S -> Z -> Prop;
  adds_nil s : adds s [] s;
  adds_app s t s1 u s2 : adds s t s1 -> adds s1 u s2 -> adds s (t ++ u) s2;
  adds_partial s t s' : adds s t s' -> partial s (len t) s';
  partial_app s n s1 m s2 : partial s n s1 -> partial s1 m s2 -> partial s (n + m) s2;
  partial_le s n m s' : partial s n s' -> n <= m -> partial s m s';
  fits_app s t u : fits s (t ++ u) -> fits s t /\ forall s', adds s t s' -> fits s' u;
  holds_app s n m : wf s -> 0 <= n -> 0 <= m -> holds s (n + m) -> holds s n /\ forall s', partial s n s' -> holds s' m;
  vph_adds t s : wf s -> holds s (len t) -> exists e s', vph s t = Some (e, s') /\ wf s' /\
    (if e =? 0 then adds s t s' else partial s (len t) s') /\ (fits s t -> e = 0) }.

Section Prints.
Context {S : Type} {vph : S -> list Z -> option (Z * S)} `{Sink S vph}.

(** [f] prints the text [t], or reports an error, never when there is room. *)
Definition prints (f : S -> option (Z * S)) (t : list Z) : Prop :=
  forall s, wf s -> holds s (len t) -> exists e s', f s = Some (e, s') /\ wf s' /\
    (if e =? 0 then adds s t s' else partial s (len t) s') /\ (fits s t -> e = 0).

(** It goes on after an error, which is reported at the end. *)
Definition carry (f : S -> option (Z * S)) (err : Z) (s : S) : option (Z * S) :=
  '(e, s) ← f s; Some (Z.lor err e, s).

Lemma prints_ext f g t : (forall s, f s = g s) -> prints f t -> prints g t.
Proof. intros Hf Hp s Hs. rewrite <- Hf. by apply Hp. Qed.

Lemma prints_vph t : prints (fun s => vph s t) t.
Proof. intros s Hs. by apply vph_adds. Qed.

Lemma prints_nothing : prints (fun s => Some (0, s)) [].
Proof. intros s Hs _. exists 0, s. split_and!; try done. apply adds_nil. Qed.

Lemma len_app t u : len (t ++ u) = len t + len u.
Proof. unfold len. rewrite length_app. lia. Qed.

Lemma len_holds s t u : wf s -> holds s (len (t ++ u)) -> holds s (len t) /\ forall s', partial s (len t) s' -> holds s' (len u).
Proof. intros Hs. rewrite len_app. apply holds_app; [done|unfold len; lia..]. Qed.

(** What was printed so far. *)
Lemma printed_partial (e : Z) s t s1 : (if e =? 0 then adds s t s1 else partial s (len t) s1) -> partial s (len t) s1.
Proof. destruct (e =? 0); [apply adds_partial|done]. Qed.

(** Both parts run, whatever the first returns. *)
Lemma prints_carry f g t u : prints f t -> prints g u ->
  prints (fun s => '(err, s) ← f s; carry g err s) (t ++ u).
Proof.
  intros Hf Hg s Hs [Ht Hu]%len_holds; [|done]. destruct (Hf s Hs Ht) as (e&s1&->&Hs1&He&Hfit).
  pose proof (printed_partial _ _ _ _ He) as Hp.
  destruct (Hg s1 Hs1 (Hu _ Hp)) as (e2&s2&E2&Hs2&He2&Hfit2). unfold carry. simpl. rewrite E2. simpl.
  exists (Z.lor e e2), s2. split; [done|]. split; [done|]. split.
  - destruct (Z.eqb_spec (Z.lor e e2) 0) as [E|E].
    + apply Z.lor_eq_0_iff in E as [-> ->]. simpl in *. by eapply adds_app.
    + rewrite len_app. eapply partial_app; [done|]. by eapply printed_partial.
  - intros [Hf1 Hf2]%fits_app. apply Hfit in Hf1 as ->. simpl in He. by rewrite (Hfit2 (Hf2 _ He)).
Qed.

(** The second part runs only without an error of the first. *)
Lemma prints_then f g t u : prints f t -> prints g u ->
  prints (fun s => '(err, s) ← f s; if negb (err =? 0) then Some (err, s) else g s) (t ++ u).
Proof.
  intros Hf Hg s Hs [Ht Hu]%len_holds; [|done]. destruct (Hf s Hs Ht) as (e&s1&->&Hs1&He&Hfit). simpl.
  pose proof (printed_partial _ _ _ _ He) as Hp.
  destruct (Z.eqb_spec e 0) as [->|Hne]; simpl.
  - destruct (Hg s1 Hs1 (Hu _ Hp)) as (e2&s2&E2&Hs2&He2&Hfit2). exists e2, s2. split; [done|]. split; [done|]. split.
    + destruct (Z.eqb_spec e2 0); [by eapply adds_app|]. rewrite len_app. by eapply partial_app.
    + intros [Hf1 Hf2]%fits_app. by apply Hfit2, Hf2.
  - exists e, s1. destruct (Z.eqb_spec e 0); [done|]. split_and!; try done.
    + eapply partial_le; [done|]. rewrite len_app. unfold len. lia.
    + intros [Hf1 _]%fits_app. by apply Hfit.
Qed.

(** Three and more parts, as the code nests them. *)
Lemma prints_bind f g t u (k : Z -> S -> option (Z * S)) : (forall err s, k err s = carry g err s) ->
  prints f t -> prints g u -> prints (fun s => '(err, s) ← f s; k err s) (t ++ u).
Proof.
  intros Hk Hf Hg. eapply prints_ext; [|by apply prints_carry]. intros s. simpl.
  by destruct (f s) as [[err s']|]; simpl; rewrite ?Hk.
Qed.

Lemma carry_some err (s : S) : carry (fun s => Some (0, s)) err s = Some (err, s).
Proof. unfold carry. simpl. by rewrite Z.lor_0_r. Qed.

Lemma carry_carry f g a s : carry (fun s => '(err, s) ← f s; carry g err s) a s =
  '(err, s) ← carry f a s; carry g err s.
Proof.
  unfold carry. destruct (f s) as [[e s1]|]; [|done]. simpl. destruct (g s1) as [[e2 s2]|]; [|done]. simpl.
  by rewrite Z.lor_assoc.
Qed.

Lemma put_carry err s p : put vph err s p = carry (fun s => vph s p) err s.
Proof. done. Qed.

Lemma fill_carry n c err s : fill vph n c err s = carry (fill vph n c 0) err s.
Proof.
  revert err s. induction n as [|n IH]; intros err s; [symmetry; apply carry_some|]. simpl.
  unfold put at 1. unfold carry at 1. unfold put. destruct (vph s [c]) as [[e s1]|]; [|done]. simpl.
  rewrite (IH (Z.lor err e)), (IH e). unfold carry. destruct (fill vph n c 0 s1) as [[e2 s2]|]; [|done]. simpl.
  by rewrite Z.lor_assoc.
Qed.

Lemma prints_fill n c : prints (fill vph n c 0) (replicate n c).
Proof.
  induction n as [|n IH]; [apply prints_nothing|]. simpl. change (c :: replicate n c) with ([c] ++ replicate n c).
  eapply (prints_bind (fun s => put vph 0 s [c])); [intros; apply fill_carry| |done].
  eapply prints_ext; [|apply (prints_vph [c])]. intros s. unfold put. by destruct (vph s [c]) as [[e s']|].
Qed.

(** Parts that a flag leaves out. *)
Lemma prints_if (b : bool) f t : prints f t ->
  prints (fun s => if b then f s else Some (0, s)) (if b then t else []).
Proof. destruct b; [done|]. intros _. apply prints_nothing. Qed.

Lemma if_carry (b : bool) f (k : Z -> S -> option (Z * S)) err s : (forall err s, k err s = carry f err s) ->
  (if b then k err s else Some (err, s)) = carry (fun s => if b then f s else Some (0, s)) err s.
Proof. intros Hk. destruct b; [by rewrite Hk|by rewrite carry_some]. Qed.

Lemma if_carry' (b : bool) f (k : Z -> S -> option (Z * S)) err s : (forall err s, k err s = carry f err s) ->
  (if b then Some (err, s) else k err s) = carry (fun s => if negb b then f s else Some (0, s)) err s.
Proof. intros Hk. destruct b; [by rewrite carry_some|by rewrite Hk]. Qed.

Lemma prints_put t : prints (fun s => put vph 0 s t) t.
Proof. eapply prints_ext; [|apply (prints_vph t)]. intros s. unfold put. by destruct (vph s t) as [[e s']|]. Qed.

(** The empty text is not printed. *)
Definition vph' (t : list Z) (s : S) : option (Z * S) := match t with [] => Some (0, s) | _ => vph s t end.
Lemma prints_vph' t : prints (vph' t) t.
Proof. destruct t; [apply prints_nothing|apply prints_vph]. Qed.
Lemma put_vph' err s t : (match t with [] => Some (err, s) | _ => put vph err s t end) = carry (vph' t) err s.
Proof. destruct t; [symmetry; apply carry_some|done]. Qed.

Lemma prints_write_padded p pad pch plr prfx :
  prints (write_padded vph p pad pch plr prfx) (padded_text p pad pch plr prfx).
Proof.
  unfold padded_text. set (pd := pad - _). set (n := Z.to_nat (pd - Z.of_nat (length p))).
  set (f1 := fun s => if pch =? 48 then vph' prfx s else Some (0, s)).
  set (f2 := fun s : S => if negb plr then fill vph n pch 0 s else Some (0, s)).
  set (f3 := fun s => if negb (pch =? 48) then vph' prfx s else Some (0, s)).
  set (f5 := fun s : S => if plr then fill vph n pch 0 s else Some (0, s)).
  assert (prints (fun s => '(err, s) ← ('(err, s) ← ('(err, s) ← ('(err, s) ← f1 s; carry f2 err s);
            carry f3 err s); carry (vph' p) err s); carry f5 err s)
    (((((if pch =? 48 then prfx else []) ++ (if negb plr then replicate n pch else [])) ++
       (if negb (pch =? 48) then prfx else [])) ++ p) ++ (if plr then replicate n pch else []))) as Hp.
  { repeat apply prints_carry; try apply prints_if; try apply prints_vph'; apply prints_fill. }
  rewrite <- !app_assoc in Hp.
  assert ((if negb plr then replicate n pch else []) = (if plr then [] else replicate n pch)) as E1 by by destruct plr.
  assert ((if negb (pch =? 48) then prfx else []) = (if pch =? 48 then [] else prfx)) as E2 by by destruct (pch =? 48).
  rewrite E1, E2 in Hp. eapply prints_ext; [|exact Hp]. intros s. unfold write_padded. fold pd. fold n.
  assert ((if (match prfx with [] => false | _ => true end) && (pch =? 48) then put vph 0 s prfx else Some (0, s)) = f1 s)
    as ->.
  { unfold f1, vph', put. destruct prfx, (pch =? 48); try done. simpl. by destruct (vph s _) as [[e s']|]. }
  destruct (f1 s) as [[e1 s1]|]; [|done]. simpl.
  rewrite (if_carry' plr (fill vph n pch 0)) by (intros; apply fill_carry). fold f2.
  change (carry (fun s => if negb plr then fill vph n pch 0 s else Some (0, s)) e1 s1) with (carry f2 e1 s1).
  destruct (carry f2 e1 s1) as [[e2 s2]|]; [|done]. simpl.
  assert ((if (match prfx with [] => false | _ => true end) && negb (pch =? 48) then put vph e2 s2 prfx else Some (e2, s2)) =
    carry f3 e2 s2) as ->.
  { unfold f3, carry, vph', put. destruct prfx, (pch =? 48); simpl; by rewrite ?Z.lor_0_r. }
  destruct (carry f3 e2 s2) as [[e3 s3]|]; [|done]. simpl. rewrite put_vph'.
  destruct (carry (vph' p) e3 s3) as [[e4 s4]|]; [|done]. simpl.
  by rewrite (if_carry plr (fill vph n pch 0)) by (intros; apply fill_carry).
Qed.

Lemma hex_bytes_none uc l : foldl (fun r x => '(err, s) ← r;
    '(e, s) ← write_padded vph (local_itoa x 16 uc) 2 48 false [] s; Some (Z.lor err e, s)) None l = None.
Proof. by induction l. Qed.

Lemma hex_bytes_carry uc l err s : hex_bytes vph uc l err s = carry (hex_bytes vph uc l 0) err s.
Proof.
  unfold hex_bytes. revert err s. induction l as [|x l IH]; intros err s; [symmetry; apply carry_some|].
  simpl. unfold carry at 1. simpl.
  destruct (write_padded vph _ 2 48 false [] s) as [[e s1]|]; simpl; [|by rewrite !hex_bytes_none].
  rewrite (IH (Z.lor err e)), (IH e). unfold carry.
  destruct (foldl _ (Some (0, s1)) l) as [[e2 s2]|]; [|done]. simpl. by rewrite Z.lor_assoc.
Qed.

Lemma prints_hex_bytes uc l :
  prints (hex_bytes vph uc l 0) (l ≫= fun x => padded_text (local_itoa x 16 uc) 2 48 false []).
Proof.
  induction l as [|x l IH]; [apply prints_nothing|]. rewrite bind_cons.
  eapply prints_ext; [|apply prints_carry; [apply (prints_write_padded (local_itoa x 16 uc) 2 48 false [])|exact IH]].
  intros s. unfold hex_bytes at 2. simpl.
  destruct (write_padded vph _ 2 48 false [] s) as [[e s1]|]; simpl; [|by rewrite hex_bytes_none].
  symmetry. apply (hex_bytes_carry uc l e s1).
Qed.

Lemma prints_write_hex k uc l : prints (write_hex vph k uc l) (hex_text k uc l).
Proof.
  unfold hex_text. set (n := Z.to_nat _).
  eapply prints_ext; [|apply prints_carry; [|apply prints_carry;
    [apply (prints_hex_bytes uc l)|apply (prints_if (plr k)), (prints_fill n (num_pch k))]]].
  2: { instantiate (1 := fun s => if plr k then Some (0, s) else fill vph n (num_pch k) 0 s).
       destruct (plr k); [apply prints_nothing|apply prints_fill]. }
  intros s. unfold write_hex. fold n.
  destruct (if plr k then Some (0, s) else fill vph n (num_pch k) 0 s) as [[e s1]|]; [|done]. simpl.
  rewrite carry_carry, <- hex_bytes_carry. destruct (hex_bytes vph uc l e s1) as [[e2 s2]|]; [|done]. simpl.
  by rewrite (if_carry (plr k) (fill vph n (num_pch k) 0)) by (intros; apply fill_carry).
Qed.

Lemma prints_write_sa inet_ntop k a : prints (write_sa inet_ntop vph k a) (sa_text inet_ntop k a).
Proof.
  unfold write_sa, sa_text. destruct (sa_ntop inet_ntop a) as [t|]; [|apply prints_write_padded].
  set (v6 := Sa.sa_af a =? Sa.AF_INET6). set (w2 := write_padded vph (local_itoa _ 10 false) _ _ _ _).
  set (w1 := write_padded vph t _ _ _ _).
  eapply prints_ext; [|apply prints_carry; [apply (prints_if v6), (prints_put [91])|apply prints_carry;
    [apply (prints_write_padded t (pad k) 32 (plr k) [])|apply prints_carry;
      [apply (prints_if v6), (prints_vph [93])|apply prints_carry;
        [apply (prints_vph [58])|apply (prints_write_padded (local_itoa (Sa.sa_port a) 10 false) (pad k) (num_pch k) (plr k) [])]]]]].
  intros s. cbv beta. fold w1 w2. destruct (if v6 then put vph 0 s [91] else Some (0, s)) as [[e0 s0]|]; [|done]. simpl.
  rewrite carry_carry. change (carry w1 e0 s0) with ('(e, s) ← w1 s0; Some (Z.lor e0 e, s)). destruct (w1 s0) as [[e1 s1]|]; [|done]. simpl.
  rewrite carry_carry, (if_carry v6 (fun s => vph s [93]) (fun err s => put vph err s [93])) by done.
  destruct (carry (fun s => if v6 then vph s [93] else Some (0, s)) (Z.lor e0 e1) s1) as [[e2 s2]|]; [|done]. simpl.
  rewrite carry_carry, put_carry. by destruct (carry (fun s => vph s [58]) e2 s2) as [[e3 s3]|].
Qed.

(** ** The interpreter prints what the format says *)
Section Format.
Context (inet_ntop : Z -> list Z -> list Z) (strerror : Z -> list Z).
Context {H0 : Type} (run : H0 -> S -> option (Z * S)) (htext : H0 -> option (list Z)).
Hypothesis handlers_print : forall h t, htext h = Some t -> prints (run h) t.

(** A conversion, when the nested formats print what they should. *)
Section Nested.
Context (nested : list Z -> list (arg H0) -> S -> option (Z * S)).
Context (nested_text : list Z -> list (arg H0) -> option (list Z)).
Hypothesis nested_prints : forall fmt args t, nested_text fmt args = Some t -> prints (nested fmt args) t.

Abbreviation conv_of := (convert inet_ntop strerror vph run nested).

Definition returns (args : list (arg H0)) (f : S -> option (Z * S)) (s : S) : option (Z * list (arg H0) * S) :=
  '(err, s) ← f s; Some (err, args, s).

Lemma convert_no_arg k c args t : no_arg c = Some t ->
  exists f, prints f t /\ forall s, conv_of k c args s = returns args f s.
Proof.
  unfold no_arg. destruct (Z.eqb_spec c 37) as [->|].
  { intros [= <-]. exists (fun s => vph s [37]). split; [apply prints_vph|done]. }
  destruct (existsb _ _) eqn:E; [done|]. intros [= <-]. exists (fun s => vph s [63]).
  split; [apply prints_vph|]. intros s. unfold convert.
  assert (forall c', In c' (37 :: c_str "diuxXcbsrmpwWjJHvfF") -> (c =? c') = false) as Hne.
  { intros c' Hc'. apply Z.eqb_neq. intros ->. destruct Hc' as [?|Hc']; [done|].
    assert (existsb (Z.eqb c') (c_str "diuxXcbsrmpwWjJHvfF") = true); [|congruence].
    apply existsb_exists. exists c'. split; [done|]. apply Z.eqb_refl. }
  rewrite !Hne by (vm_compute; tauto). done.
Qed.

Lemma prints_text k t : prints (text vph k t) (plain_text k t).
Proof. apply prints_write_padded. Qed.

Ltac printing :=
  first [by apply handlers_print|by apply nested_prints|apply prints_write_padded
        |apply prints_write_hex|apply prints_write_sa].

Lemma convert_arg k c a args t : no_arg c = None -> conv_text inet_ntop strerror htext nested_text k c a = Some t ->
  exists f, prints f t /\ forall s, conv_of k c (a :: args) s = returns args f s.
Proof.
  intros Hna. assert ((c =? code "%"%char) = false) as Hp.
  { apply Z.eqb_neq. intros ->. by vm_compute in Hna. }
  unfold conv_text, convert. rewrite Hp. cbv zeta. clear Hna Hp.
  repeat match goal with |- context [c =? code ?x] => destruct (Z.eqb_spec c (code x)); cbn [orb] end;
    try match goal with H1 : c = code ?x, H2 : c = code ?y |- _ => exfalso; rewrite H1 in H2; discriminate H2 end;
    destruct a; try discriminate;
    repeat match goal with |- context [match ?x with Some _ => _ | None => _ end] => is_var x; destruct x end;
    try match goal with
    | |- context [signed k ?z =? ?m] => destruct (signed k z =? m)
    | |- context [if ?p =? 0 then _ else _] => is_var p; destruct (p =? 0)
    | x : list Z * list (arg H0) |- _ => destruct x
    end.
  all: intros Ht; simplify_eq/=.
  all: first [eexists; split; [|reflexivity]; printing | eexists (fun s => Some (0, s)); split; [apply prints_nothing|reflexivity]].
Qed.

Abbreviation rendered := (render inet_ntop strerror htext nested_text).

Lemma render_literal lit ds args t : rendered (literal lit ++ ds) args = Some t ->
  exists u, rendered ds args = Some u /\ t = lit ++ u.
Proof.
  destruct lit as [|c lit]; simpl; [intros; by exists t|].
  destruct (rendered ds args) as [u|]; [|done]. intros [= <-]. by exists u.
Qed.

(** What follows a conversion. *)
Lemma prints_converted (conv : S -> option (Z * list (arg H0) * S)) f args (rest : list (arg H0) -> S -> option (Z * S)) t u :
  (forall s, conv s = returns args f s) -> prints f t -> prints (rest args) u ->
  prints (fun s => '(err, args, s) ← conv s; if negb (err =? 0) then Some (err, s) else rest args s) (t ++ u).
Proof.
  intros Hc Hf Hr. eapply prints_ext; [|by apply prints_then]. intros s. cbv beta. rewrite Hc. unfold returns.
  by destruct (f s) as [[e s1]|].
Qed.

Lemma prints_loop fmt : forall fm lit args t,
  rendered (parse fmt fm lit) args = Some t ->
  prints (loop inet_ntop strerror vph run nested fmt fm lit args) t.
Proof.
  induction fmt as [|c fmt IH]; intros fm lit args t.
  - destruct fm as [k|]; simpl.
    + intros [= <-]. apply prints_nothing.
    + destruct lit as [|x lit]; simpl; intros [= <-]; [apply prints_nothing|]. rewrite app_nil_r. apply prints_vph.
  - destruct fm as [k|]; cbn [parse loop].
    + destruct (modifier k c) as [k'|]; [by apply IH|]. cbn [render].
      destruct (no_arg c) as [t0|] eqn:Ena.
      * destruct (rendered (parse fmt None []) args) as [u|] eqn:Eu; [|done]. intros [= <-].
        destruct (convert_no_arg k c args t0 Ena) as (f&Hf&Hc).
        apply (prints_converted (convert inet_ntop strerror vph run nested k c args) f args); [done|done|by apply IH].
      * destruct args as [|a args]; [done|].
        destruct (conv_text _ _ _ _ k c a) as [t0|] eqn:Et; [|done]. simpl.
        destruct (rendered (parse fmt None []) args) as [u|] eqn:Eu; [|done]. intros [= <-].
        destruct (convert_arg k c a args t0 Ena Et) as (f&Hf&Hc).
        apply (prints_converted (convert inet_ntop strerror vph run nested k c (a :: args)) f args); [done|done|by apply IH].
    + destruct (c =? 37); [|by apply IH]. intros (u&Hu&->)%render_literal.
      apply (prints_then (vph' lit)); [apply prints_vph'|by apply IH].
Qed.

End Nested.

Lemma prints_format depth : forall fmt args t,
  format_text inet_ntop strerror htext depth fmt args = Some t ->
  prints (re_vhprintf inet_ntop strerror vph run depth fmt args) t.
Proof.
  induction depth as [|depth IH]; [done|]. intros fmt args t Ht. simpl in *.
  by apply (prints_loop _ (format_text inet_ntop strerror htext depth)).
Qed.

End Format.

End Prints.

(** ** The texts of concrete formats *)
Section Texts.
Context (inet_ntop : Z -> list Z -> list Z) (strerror : Z -> list Z) {H : Type} (htext : H -> option (list Z)).
Context (nested : list Z -> list (arg H) -> option (list Z)).
Abbreviation rendering := (render inet_ntop strerror htext nested).

Lemma plain_text_conv0 t : plain_text conv0 t = t.
Proof.
  unfold plain_text, padded_text. cbn [pad conv0 plr length Z.of_nat]. replace (Z.to_nat _) with 0%nat by lia.
  simpl. by rewrite app_nil_r.
Qed.

Lemma render_nil : rendering [] [] = Some [].
Proof. done. Qed.

Lemma render_text t ds args : rendering (Text t :: ds) args = (u ← rendering ds args; Some (t ++ u)).
Proof. done. Qed.

Lemma render_s x ds args :
  rendering (Conv conv0 115 :: ds) (AStr x :: args) = (u ← rendering ds args; Some (default [] x ++ u)).
Proof. rewrite <- (plain_text_conv0 (default [] x)). done. Qed.

Lemma render_r x ds args :
  rendering (Conv conv0 114 :: ds) (APl x :: args) = (u ← rendering ds args; Some (pl_text x ++ u)).
Proof. rewrite <- (plain_text_conv0 (pl_text x)). done. Qed.

Lemma render_b x ds args :
  rendering (Conv conv0 98 :: ds) (ABuf x :: args) = (u ← rendering ds args; Some (default [] x ++ u)).
Proof. rewrite <- (plain_text_conv0 (default [] x)). done. Qed.

Lemma render_u z ds args :
  rendering (Conv conv0 117 :: ds) (AInt z :: args) = (u ← rendering ds args; Some (local_itoa (u32 z) 10 false ++ u)).
Proof. rewrite <- (plain_text_conv0 (local_itoa (u32 z) 10 false)). done. Qed.

(** "%016llx": the number in 16 hexadecimal digits. *)
Definition x64_text (v : Z) : list Z := padded_text (local_itoa (u64 v) 16 false) 16 48 false [].

Lemma render_x64 v ds args :
  rendering (Conv (mk_conv 48 false 16 2) 120 :: ds) (AInt v :: args) = (u ← rendering ds args; Some (x64_text v ++ u)).
Proof. done. Qed.

Lemma render_J a ds args :
  rendering (Conv conv0 74 :: ds) (ASa (Some a) :: args) = (u ← rendering ds args; Some (sa_text inet_ntop conv0 a ++ u)).
Proof. done. Qed.

Lemma render_H h t ds args : htext h = Some t ->
  rendering (Conv conv0 72 :: ds) (APrint (Some h) :: args) = (u ← rendering ds args; Some (t ++ u)).
Proof.
  intros E. change (rendering (Conv conv0 72 :: ds) (APrint (Some h) :: args)) with
    (t ← htext h; u ← rendering ds args; Some (t ++ u)). by rewrite E.
Qed.

End Texts.

Lemma itoa_digits base a n : 2 <= base <= 16 -> a = 97 \/ a = 65 -> 0 <= n ->
  forall fuel, Forall (fun c => 48 <= c <= 122) (Uric.itoa_loop fuel n base a).
Proof.
  intros Hb Ha Hn fuel. revert n Hn. induction fuel as [|fuel IH]; intros n Hn; [constructor|]. simpl.
  pose proof (Z.mod_pos_bound n base ltac:(lia)). pose proof (Z.mod_eq n base ltac:(lia)) as E.
  replace (n - n / base * base) with (n mod base) by lia.
  constructor; [destruct (Z.ltb_spec (n mod base) 10); lia|].
  destruct (n / base =? 0); [constructor|]. apply IH. apply Z.div_pos; lia.
Qed.

Lemma itoa_length base a k : 2 <= base -> forall n, 0 <= n < base ^ Z.of_nat k -> (0 < k)%nat ->
  forall fuel, (length (Uric.itoa_loop fuel n base a) <= k)%nat.
Proof.
  intros Hb. induction k as [|k IH]; intros n Hn Hk fuel; [lia|]. destruct fuel as [|fuel]; simpl; [lia|].
  destruct (Z.eqb_spec (n / base) 0) as [E|E]; simpl; [lia|].
  assert (0 < k)%nat.
  { destruct k; [|lia]. exfalso. apply E. apply Z.div_small. change (Z.of_nat 1) with 1 in Hn. rewrite Z.pow_1_r in Hn. lia. }
  assert (length (Uric.itoa_loop fuel (n / base) base a) <= k)%nat; [|lia].
  apply IH; [|done]. split; [apply Z.div_pos; lia|]. apply Z.div_lt_upper_bound; [lia|].
  rewrite Nat2Z.inj_succ, Z.pow_succ_r in Hn by lia. lia.
Qed.

(** It has no NUL, so that it is its own C string, and fits a buffer of 17. *)
Lemma x64_text_ok v : Forall (fun c => c <> 0) (x64_text v) /\ len (x64_text v) = 16.
Proof.
  unfold x64_text, padded_text, len. change (48 =? 48) with true. cbn [app]. pose proof (u64_range v) as Hv.
  set (d := Uric.local_itoa (u64 v) 16 false). assert (length d <= 16)%nat.
  { unfold d, Uric.local_itoa. rewrite length_rev. apply itoa_length; [lia|lia|lia]. }
  assert (Forall (fun c => c <> 0) d) as Hd.
  { unfold d, Uric.local_itoa. apply Forall_rev. eapply Forall_impl; [apply itoa_digits; [lia|by left|lia]|]. simpl. lia. }
  change (16 - Z.min 16 (Z.of_nat (length (@nil Z)))) with 16. split.
  - rewrite app_nil_r. apply Forall_app. split; [|done]. by apply Forall_replicate.
  - rewrite app_nil_r, length_app, length_replicate. lia.
Qed.

End Print.

(** Evaluates a concrete format with arguments that are variables. *)
Ltac eval_format :=
  cbn [Print.format_text];
  match goal with
  | |- context [Print.parse ?f None []] => let p := eval vm_compute in (Print.parse f None []) in change (Print.parse f None []) with p
  end;
  repeat match goal with |- context [Print.mk_conv 32 false 0 0] => change (Print.mk_conv 32 false 0 0) with Print.conv0 end;
  repeat first [rewrite Print.render_text|rewrite Print.render_s|rewrite Print.render_r|rewrite Print.render_b|rewrite Print.render_u|rewrite Print.render_x64|rewrite Print.render_J];
  rewrite ?Print.render_nil; cbn [mbind option_bind]; rewrite <- ?app_assoc; try reflexivity.
