(* ===== verification/Printers.v ===== *)
(** * Print handlers: src/libre/src/fmt/print.c and src/libre/src/mbuf/mbuf.c

    Printing to a buffer of a given size, to a buffer that grows and to a memory buffer:
    each handler is a [Print.Sink], so what the interpreter of formats is proved to print
    is what the buffer holds. *)
From S2P Require Import Prelude Mem Pl Uric Codec Sa Print.
Import Print.

Module Printers.

(** ** A buffer that grows

    [allocs] is the largest block the allocator gives, at each of its calls; [dout] is the
    text before the pointer [p]. *)
Record dyn := mk_dyn { dout : list Z; dl : Z; dsize : Z; allocs : nat -> Z; calls : nat }.

Definition print_handler_dyn (d : dyn) (p : list Z) : option (Z * dyn) :=
  let size := len p in
  let copy (d : dyn) :=
    if dl d <? size then None
    else Some (0, mk_dyn (dout d ++ p) (dl d - size) (dsize d) (allocs d) (calls d)) in
  if u64 (dl d - 1) <? size then
    let new_size := Z.max (u64 (dsize d + size)) (u64 (dsize d * 2)) in
    let d := mk_dyn (dout d) (dl d) (dsize d) (allocs d) (S (calls d)) in
    if allocs d (Nat.pred (calls d)) <? new_size then Some (ENOMEM, d)
    else copy (mk_dyn (dout d) (u64 (dl d + (new_size - dsize d))) new_size (allocs d) (calls d))
  else copy d.

Record dyn_wf (d : dyn) : Prop := {
  dyn_room : 1 <= dl d;
  dyn_size : dsize d = len (dout d) + dl d;
  dyn_least : dsize d <= 16 + 2 * len (dout d) }.

Definition dyn_adds (d : dyn) (t : list Z) (d' : dyn) : Prop :=
  dout d' = dout d ++ t /\ allocs d' = allocs d.

Lemma dyn_handler_ok d t : dyn_wf d -> len (dout d) + len t <= 2^61 ->
  exists e d', print_handler_dyn d t = Some (e, d') /\ dyn_wf d' /\
    (if e =? 0 then dyn_adds d t d' else dout d' = dout d /\ allocs d' = allocs d) /\
    ((forall k, 16 + 2 * (len (dout d) + len t) <= allocs d k) -> e = 0).
Proof.
  intros [Hl Hs Hm] Ht. assert (0 <= len t /\ 0 <= len (dout d)) as [Ht0 Hd0] by (unfold len; lia).
  unfold print_handler_dyn. rewrite !u64_small by lia.
  destruct (Z.ltb_spec (dl d - 1) (len t)) as [Hgrow|Hfit]; cbn [allocs calls dout dl dsize Nat.pred].
  - destruct (Z.ltb_spec (allocs d (calls d)) (Z.max (dsize d + len t) (dsize d * 2))) as [Hno|Hyes].
    + eexists _, _. split; [done|]. split; [by split|]. split; [done|]. intros Hall.
      specialize (Hall (calls d)). lia.
    + rewrite u64_small by lia.
      destruct (Z.ltb_spec (dl d + (Z.max (dsize d + len t) (dsize d * 2) - dsize d)) (len t)); [lia|].
      eexists _, _. split; [done|]. split; [split; simpl; rewrite ?len_app; lia|]. split; [|done]. done.
  - destruct (Z.ltb_spec (dl d) (len t)); [lia|]. eexists _, _. split; [done|].
    split; [split; simpl; rewrite ?len_app; lia|]. done.
Qed.

#[export] Instance dyn_sink : Sink print_handler_dyn.
Proof.
  refine {| wf := dyn_wf; adds := dyn_adds;
    fits d t := forall k, 16 + 2 * (len (dout d) + len t) <= allocs d k;
    partial d n d' := len (dout d') <= len (dout d) + n /\ allocs d' = allocs d;
    holds d n := len (dout d) + n <= 2^61 |}.
  - intros d. split; [by rewrite app_nil_r|done].
  - intros d t d1 u d2 [H1 H1'] [H2 H2']. split; [by rewrite H2, H1, app_assoc|congruence].
  - intros d t d' [-> ->]. rewrite len_app. split; [lia|done].
  - intros d n d1 m d2 [] []. split; [lia|congruence].
  - intros d n m d' [] ?. split; [lia|done].
  - intros d t u Hk. split.
    + intros k. specialize (Hk k). rewrite len_app in Hk. assert (0 <= len u) by (unfold len; lia). lia.
    + intros d' [-> ->] k. specialize (Hk k). rewrite len_app in *. lia.
  - intros d n m _ Hn Hm Hh. split; [lia|]. intros d' []. lia.
  - intros t d Hd Hh. destruct (dyn_handler_ok d t Hd Hh) as (e&d'&E&Hd'&He&Hfit).
    exists e, d'. split; [done|]. split; [done|]. split; [|done].
    destruct (e =? 0); [done|]. destruct He as [-> ->]. split; [unfold len; lia|done].
Defined.

(** ** A buffer of a given size *)
Definition print_handler (b : Uric.buffer) (p : list Z) : option (Z * Uric.buffer) := Some (Uric.print_handler b p).

Definition buffer_adds (b : Uric.buffer) (t : list Z) (b' : Uric.buffer) : Prop :=
  b' = Uric.mk_buffer (Uric.out b ++ t) (Uric.space b - len t).

#[export] Instance buffer_sink : Sink print_handler.
Proof.
  refine {| wf b := 0 <= Uric.space b; adds := buffer_adds; fits b t := len t <= Uric.space b;
    partial b n b' := len (Uric.out b') + Uric.space b' = len (Uric.out b) + Uric.space b /\
                      len (Uric.out b') <= len (Uric.out b) + n;
    holds _ _ := True |}; unfold buffer_adds.
  - intros []. simpl. rewrite app_nil_r. unfold len. simpl. f_equal. lia.
  - intros b t b1 u b2 -> ->. simpl. rewrite <- app_assoc, len_app. f_equal. lia.
  - intros b t b' ->. simpl. rewrite len_app. split; lia.
  - intros b n b1 m b2. lia.
  - intros b n m b'. lia.
  - intros b t u. rewrite len_app. assert (0 <= len u) by (unfold len; lia).
    intros Hf. split; [lia|]. intros b' ->. simpl. lia.
  - done.
  - intros t [o n] Hb _. simpl in *. unfold print_handler.
    destruct (Z.le_gt_cases (len t) n) as [Hle|Hgt].
    + rewrite Uric.print_fits by done. eexists _, _. split; [done|]. simpl. unfold len in *. split; [lia|done].
    + rewrite Uric.print_full by done. eexists _, _. split; [done|]. simpl. unfold len in *. split; [done|]. split; lia.
Defined.

(** ** A memory buffer *)
Section MbufSink.
Context {B : Type} `{BL : Codec.BufferLaws B}.

Definition vprintf_handler (b : B) (p : list Z) : option (Z * B) := Codec.mbuf_write_mem b p.

Definition mbuf_adds (b : B) (t : list Z) (b' : B) : Prop :=
  forall u, Codec.at_end b u -> Codec.at_end b' (u ++ t).

Lemma at_end_inj (b : B) t u : Codec.at_end b t -> Codec.at_end b u -> t = u.
Proof. by intros (_&<-&_) (_&<-&_). Qed.

#[export] Instance mbuf_sink : Sink vprintf_handler.
Proof.
  refine {| wf b := exists u, Codec.at_end b u; adds := mbuf_adds;
    fits _ _ := ~ Codec.writes_fail (B := B);
    partial b n b' := forall u, Codec.at_end b u -> exists v, Codec.at_end b' (u ++ v) /\ len v <= n;
    holds b n := forall u, Codec.at_end b u -> len u + n <= Mem.SIZE_MAX |}; unfold mbuf_adds.
  - intros b u. by rewrite app_nil_r.
  - intros b t b1 u b2 H1 H2 x Hx. rewrite app_assoc. by apply H2, H1.
  - intros b t b' Ht u Hu. exists t. split; [by apply Ht|done].
  - intros b n b1 m b2 H1 H2 u Hu. destruct (H1 u Hu) as (v&Hv&?). destruct (H2 _ Hv) as (x&Hx&?).
    exists (v ++ x). split; [by rewrite app_assoc|]. rewrite len_app. lia.
  - intros b n m b' H1 Hle u Hu. destruct (H1 u Hu) as (v&Hv&?). exists v. split; [done|lia].
  - done.
  - intros b n m [u Hu] Hn Hm Hh. specialize (Hh u Hu). split.
    + intros u' Hu'. rewrite (at_end_inj b u' u) by done. lia.
    + intros b' Hp u' Hu'. destruct (Hp u Hu) as (v&Hv&?). rewrite (at_end_inj b' u' (u ++ v)) by done.
      rewrite len_app. lia.
  - intros t b [u Hu] Hh. specialize (Hh u Hu). pose proof Hu as (Hb&Ht&Hpos).
    pose proof (Codec.mb_length b Hb) as Hlen. rewrite Ht in Hlen. unfold len in *.
    destruct (Codec.mb_write_ok b t Hb) as (err&b'&E&Hb'&[(->&Hp'&Ht')|(->&Hp'&Ht')]); [lia|lia| |];
      eexists _, _; (split; [done|]).
    + assert (Codec.at_end b' (u ++ t)) as Hend.
      { split_and!; [done|by rewrite Ht', Hpos, Ht, Codec.overwrite_end|]. rewrite Hp', Hpos, length_app. lia. }
      split; [by eexists|]. split; [|done]. intros x Hx. by rewrite (at_end_inj b x u).
    + assert (Codec.at_end b' u) as Hend by (split_and!; [done|by rewrite Ht'|by rewrite Hp']).
      split; [by eexists|]. split.
      * intros x Hx. exists []. rewrite app_nil_r, (at_end_inj b x u) by done. split; [done|simpl; lia].
      * intros Hnf. destruct Hnf. by exists b, b', t.
Defined.

End MbufSink.
(** ** Printing to them *)
Section Functions.
Context (inet_ntop : Z -> list Z -> list Z) (strerror : Z -> list Z) {H : Type}.
Context (run_buffer : H -> Uric.buffer -> option (Z * Uric.buffer)) (run_dyn : H -> dyn -> option (Z * dyn)).
Context (depth : nat).

(** The number of characters, or -1, and what is at [str]. *)
Definition re_vsnprintf (str size : Z) (fmt : list Z) (ap : list (arg H)) : option (Z * option (list Z)) :=
  if (str =? 0) || (size =? 0) then Some (-1, None)
  else
    '(err, b) ← re_vhprintf inet_ntop strerror print_handler run_buffer depth fmt ap (Uric.mk_buffer [] (size - 1));
    let n := size - Uric.space b - 1 in
    Some (if negb (err =? 0) then -1 else s32 n, Some (take (Z.to_nat n) (Uric.out b) ++ [0])).

(** The error, and what [*strp] is set to. *)
Definition re_vsdprintf (strp : bool) (mem : nat -> Z) (fmt : list Z) (ap : list (arg H)) :
    option (Z * option (list Z)) :=
  if negb strp then Some (EINVAL, None)
  else if mem O <? 16 then Some (ENOMEM, None)
  else
    '(err, d) ← re_vhprintf inet_ntop strerror print_handler_dyn run_dyn depth fmt ap (mk_dyn [] 16 16 mem 1);
    if negb (err =? 0) then Some (err, None)
    else if dl d =? 0 then None else Some (0, Some (dout d ++ [0])).

Context (htext : H -> option (list Z)).
Hypothesis buffer_handlers : forall h t, htext h = Some t -> prints (vph := print_handler) (run_buffer h) t.
Hypothesis dyn_handlers : forall h t, htext h = Some t -> prints (vph := print_handler_dyn) (run_dyn h) t.

Abbreviation text_of := (format_text inet_ntop strerror htext depth).

Lemma re_vsnprintf_ok str size fmt ap t : str <> 0 -> 0 < size <= 2^31 -> text_of fmt ap = Some t ->
  if len t <? size then re_vsnprintf str size fmt ap = Some (len t, Some (t ++ [0]))
  else exists w, re_vsnprintf str size fmt ap = Some (-1, Some (w ++ [0])) /\ len w < size.
Proof.
  intros Hstr Hsize Ht. unfold re_vsnprintf.
  destruct (Z.eqb_spec str 0), (Z.eqb_spec size 0); try lia. cbn [orb].
  destruct (prints_format inet_ntop strerror run_buffer htext buffer_handlers depth fmt ap t Ht
    (Uric.mk_buffer [] (size - 1))) as (e&[o n']&->&Hn&He&Hfit); [simpl; lia|done|]. simpl in *.
  destruct (Z.ltb_spec (len t) size) as [Hlt|Hge].
  - rewrite Hfit in * by lia. injection He as -> ->. simpl.
    rewrite s32_small, firstn_all2 by (unfold len in *; lia). do 2 f_equal. lia.
  - destruct (Z.eqb_spec e 0) as [->|Hne]; simpl in He.
    + injection He as -> ->. lia.
    + destruct He as [He _]. exists o. simpl. change (len []) with 0 in He.
      rewrite firstn_all2 by (unfold len in *; lia). split; [done|lia].
Qed.

Lemma re_vsdprintf_ok mem fmt ap t : len t <= 2^61 -> text_of fmt ap = Some t ->
  exists err r, re_vsdprintf true mem fmt ap = Some (err, r) /\
    r = (if err =? 0 then Some (t ++ [0]) else None) /\
    ((forall k, 16 + 2 * len t <= mem k) -> err = 0).
Proof.
  intros Hlen Ht. unfold re_vsdprintf. cbn [negb].
  destruct (Z.ltb_spec (mem O) 16) as [Hlow|Hhigh].
  { eexists _, _. split; [done|]. split; [done|]. intros Hall. specialize (Hall O). unfold len in *. lia. }
  destruct (prints_format inet_ntop strerror run_dyn htext dyn_handlers depth fmt ap t Ht
    (mk_dyn [] 16 16 mem 1)) as (e&d&->&Hd&He&Hfit); [by split|simpl; change (len []) with 0; lia|].
  simpl in Hfit, Hd. change (len []) with 0 in Hfit. simpl. destruct (Z.eqb_spec e 0) as [->|Hne]; cbn [negb].
  - destruct He as [He _]. simpl in He. destruct Hd as [Hroom _ _].
    destruct (Z.eqb_spec (dl d) 0); [lia|]. exists 0, (Some (t ++ [0])). by rewrite He.
  - exists e, None. split; [done|]. by destruct (Z.eqb_spec e 0).
Qed.

End Functions.

Section Mbuf.
Context {B : Type} `{BL : Codec.BufferLaws B}.
Context (inet_ntop : Z -> list Z -> list Z) (strerror : Z -> list Z) {H0 : Type} (run : H0 -> B -> option (Z * B)).
Context (depth : nat) (htext : H0 -> option (list Z)).
Hypothesis handlers : forall h t, htext h = Some t -> prints (vph := vprintf_handler) (run h) t.

Definition mbuf_vprintf (mb : B) (fmt : list Z) (ap : list (arg H0)) : option (Z * B) :=
  re_vhprintf inet_ntop strerror vprintf_handler run depth fmt ap mb.

Lemma mbuf_vprintf_ok (mb : B) u fmt ap t : Codec.at_end mb u -> len u + len t <= Mem.SIZE_MAX ->
  format_text inet_ntop strerror htext depth fmt ap = Some t ->
  exists err mb' v, mbuf_vprintf mb fmt ap = Some (err, mb') /\ Codec.at_end mb' (u ++ v) /\
    (if err =? 0 then v = t else len v <= len t) /\ (~ Codec.writes_fail (B := B) -> err = 0).
Proof.
  intros Hu Hlen Ht. destruct (prints_format inet_ntop strerror run htext handlers depth fmt ap t Ht mb)
    as (e&mb'&E&Hmb'&He&Hfit); [by exists u|intros x Hx; by rewrite (at_end_inj mb x u)|].
  destruct (Z.eqb_spec e 0) as [->|Hne].
  - exists 0, mb', t. split_and!; try done. by apply He.
  - destruct (He u Hu) as (v&Hv&?). exists e, mb', v. destruct (Z.eqb_spec e 0); [done|]. by split_and!.
Qed.
End Mbuf.

(** The escapes of [Uric] are the format "%%%02X". *)
Lemma print_escape_format b n : 0 <= n < 2^32 ->
  re_vhprintf (fun _ _ => []) (fun _ => []) print_handler (fun (_ : Empty_set) _ => None) 1 (c_str "%%%02X") [AInt n] b =
  Some (Uric.print_escape b n).
Proof.
  intros Hn. unfold Uric.print_escape. change (c_str "%%%02X") with [37; 37; 37; 48; 50; 88].
  cbn -[Uric.print_handler Uric.local_itoa write_padded u32 Uric.write_padded].
  change (u64 (u64 (0 * 10) + (50 - 48))) with 2. unfold convert.
  cbn -[Uric.print_handler write_padded Uric.local_itoa Uric.write_padded u32]. unfold print_handler at 1.
  destruct (Uric.print_handler b [37]) as [e b1]. simpl. destruct (Z.eqb_spec e 0) as [->|]; simpl; [|done].
  rewrite u32_small by lia. unfold write_padded, Uric.write_padded. simpl.
  assert (forall k err b, fill print_handler k 48 err b = Some (Uric.pad_loop k 48 err b)) as Hfill.
  { intros k. induction k as [|k IH]; intros err b0; [done|]. simpl. unfold put, print_handler. simpl.
    destruct (Uric.print_handler b0 [48]) as [e0 b2]. simpl. by rewrite IH. }
  assert (forall z, 2 - Z.min 2 0 - z = 2 - z) as -> by lia. rewrite Hfill. simpl.
  destruct (Uric.pad_loop _ 48 0 b1) as [e2 b2]. simpl.
  destruct (Uric.local_itoa n 16 true) as [|d l]; simpl; [by destruct (Z.eqb_spec e2 0) as [->|]|].
  unfold put, print_handler. simpl. destruct (Uric.print_handler b2 (d :: l)) as [e3 b3]. simpl.
  by destruct (Z.eqb_spec (Z.lor e2 e3) 0) as [->|].
Qed.

(** ** Properties *)

(** C33: the format says what is printed, whatever it is printed to.  When the conversions
    of a format have arguments of their types and the print handlers it calls print their
    texts, [re_vsnprintf] puts the whole text and its terminator at [str] and returns its
    length if it is smaller than the size, and otherwise returns -1 and leaves a terminated
    text within the size; [re_vsdprintf] gives the text in a block of its own or an error,
    and no error when memory does not run out; [mbuf_vprintf] appends the text to the
    buffer, or no more than its length when it reports an error.  No byte is written
    outside the buffers. *)
Theorem printf_exact {H B : Type} `{BL : Codec.BufferLaws B} inet_ntop strerror (htext : H -> option (list Z))
    run_buffer run_dyn run_mbuf depth fmt ap t str size mem (mb : B) u :
  (forall h x, htext h = Some x -> prints (vph := print_handler) (run_buffer h) x /\
     prints (vph := print_handler_dyn) (run_dyn h) x /\ prints (vph := vprintf_handler) (run_mbuf h) x) ->
  format_text inet_ntop strerror htext depth fmt ap = Some t ->
  str <> 0 -> 0 < size <= 2^31 -> len t <= 2^61 -> Codec.at_end mb u -> len u + len t <= Mem.SIZE_MAX ->
  (if len t <? size
   then re_vsnprintf inet_ntop strerror run_buffer depth str size fmt ap = Some (len t, Some (t ++ [0]))
   else exists w, re_vsnprintf inet_ntop strerror run_buffer depth str size fmt ap = Some (-1, Some (w ++ [0])) /\
          len w < size) /\
  (exists err r, re_vsdprintf inet_ntop strerror run_dyn depth true mem fmt ap = Some (err, r) /\
     r = (if err =? 0 then Some (t ++ [0]) else None) /\
     ((forall k, 16 + 2 * len t <= mem k) -> err = 0)) /\
  (exists err mb' v, mbuf_vprintf inet_ntop strerror run_mbuf depth mb fmt ap = Some (err, mb') /\
     Codec.at_end mb' (u ++ v) /\ (if err =? 0 then v = t else len v <= len t) /\
     (~ Codec.writes_fail (B := B) -> err = 0)).
Proof.
  intros Hh Ht Hstr Hsize Hlen Hu Hmax. split_and!.
  - apply (re_vsnprintf_ok inet_ntop strerror run_buffer depth htext); try done. intros h x Hx. by apply Hh.
  - apply (re_vsdprintf_ok inet_ntop strerror run_dyn depth htext); try done. intros h x Hx. by apply Hh.
  - apply (mbuf_vprintf_ok inet_ntop strerror run_mbuf depth htext); try done. intros h x Hx. by apply Hh.
Qed.

(** ** Concrete inputs *)
Abbreviation ex_text fmt ap := (format_text (fun _ _ => c_str "192.0.2.1") (fun _ => c_str "Bad file descriptor")
  (fun _ : Empty_set => None) 2 fmt ap).

Example print_numbers : ex_text (c_str "%d|%5u|%-5u|%05d|%x|%04X|%5c|%zu|%u") (map AInt [-7; 42; 42; -42; 255; 171; 65; 2^40; 2^40 + 1]) =
  Some (c_str "-7|   42|42   |-0042|ff|00AB|    A|1099511627776|1").
Proof. vm_compute. reflexivity. Qed.

Example print_texts : ex_text (c_str "%s %5s|%-5b|%r|%w|%p|%p|100%%|%k|%J|%j|%m|%v")
  [AStr (Some (c_str "abc")); AStr None; ABuf (Some (c_str "ab")); APl (Some (Pl.mk_pl 1 (c_str "xyz"))); ABuf (Some [1; 171]);
   APtr 4096; APtr 0; ASa (Some (Sa.sa_init Sa.AF_INET)); ASa None; AInt 9; AFmt (Some (c_str "<%s>", [AStr (Some (c_str "in"))]))] =
  Some (c_str "abc      |ab   |xyz|01ab|0x1000|(nil)|100%|?|192.0.2.1:0||Bad file descriptor|<in>").
Proof. vm_compute. reflexivity. Qed.

#[local] Existing Instances Codec.text_buffer Codec.text_laws.

Definition ex_fmt : list Z := c_str "SIP/2.0 %u %s".
Definition ex_args : list (arg Empty_set) := [AInt 200; AStr (Some (c_str "OK"))].
Abbreviation ex_none := (fun (_ : Empty_set) _ => None).

Lemma printf_exact_witness :
  (exists w, re_vsnprintf (fun _ _ => []) (fun _ => []) ex_none 1 4096 8 ex_fmt ex_args = Some (-1, Some (w ++ [0])) /\ len w < 8) /\
  (exists err r, re_vsdprintf (fun _ _ => []) (fun _ => []) ex_none 1 true (fun _ => 64) ex_fmt ex_args = Some (err, r) /\
     r = (if err =? 0 then Some (c_str "SIP/2.0 200 OK" ++ [0]) else None) /\
     ((forall k : nat, 16 + 2 * 14 <= (fun _ => 64) k) -> err = 0)) /\
  (exists err mb' v, mbuf_vprintf (fun _ _ => []) (fun _ => []) ex_none 1 (1, [9]) ex_fmt ex_args = Some (err, mb') /\
     Codec.at_end mb' ([9] ++ v) /\ (if err =? 0 then v = c_str "SIP/2.0 200 OK" else len v <= 14) /\
     (~ Codec.writes_fail (B := Z * list Z) -> err = 0)).
Proof.
  apply (printf_exact (fun _ _ => []) (fun _ => []) (fun _ : Empty_set => None) ex_none ex_none ex_none 1 ex_fmt ex_args
    (c_str "SIP/2.0 200 OK") 4096 8 (fun _ => 64) (1, [9]) [9]).
  - intros [].
  - vm_compute. reflexivity.
  - discriminate.
  - lia.
  - vm_compute. discriminate.
  - split_and!; [split; [discriminate|vm_compute; discriminate]|reflexivity|reflexivity].
  - vm_compute. discriminate.
Defined.

End Printers.
