(* ===== verification/Uri.v ===== *)
(** * URIs: src/libre/src/uri/uri.c and ucmp.c

    Decoding, encoding, the parameters and headers, and comparing.  The address family of
    the host is cached through the parser of addresses of [Sa].  [None] is undefined
    behaviour.  The null checks of the arguments are left out. *)
From S2P Require Import Prelude Pl Uric Regex Param Sa.
Import Pl Regex Param.

Module Uri.

Record uri := mk_uri { scheme : pl; user : pl; password : pl; host : pl; af : Z; port : Z;
  params : pl; headers : pl }.
Definition uri0 : uri := mk_uri pl_null pl_null pl_null pl_null 0 0 pl_null pl_null.

Definition isset (x : pl) : bool := pl_isset (Some x).

(** ** Encoding *)

Definition print_port (b : Uric.buffer) (p : Z) : Z * Uric.buffer :=
  print_all b [c_str ":"; Uric.local_itoa p 10 false].

Definition print_user (b : Uric.buffer) (u : uri) : Z * Uric.buffer :=
  if isset (user u) then
    let '(err, b) := print_all b [pl_s (user u)] in
    let '(e, b) := if isset (password u) then print_all b [c_str ":"; pl_s (password u)] else (0, b) in
    let err := Z.lor err e in
    let '(e, b) := Uric.print_handler b (c_str "@") in
    (Z.lor err e, b)
  else (0, b).

Definition print_host (b : Uric.buffer) (u : uri) : Z * Uric.buffer :=
  if af u =? Sa.AF_INET6 then print_all b [c_str "["; pl_s (host u); c_str "]"]
  else print_all b [pl_s (host u)].

(** On the buffer of [re_snprintf]. *)
Definition uri_encode (b : Uric.buffer) (u : uri) : Z * Uric.buffer :=
  if negb (isset (scheme u)) || negb (isset (host u)) then (EINVAL, b)
  else
    let '(err, b) := print_all b [pl_s (scheme u); c_str ":"] in
    if negb (err =? 0) then (err, b)
    else
      let '(err, b) := print_user b u in
      if negb (err =? 0) then (err, b)
      else
        let '(err, b) := print_host b u in
        if negb (err =? 0) then (err, b)
        else
          let '(err, b) := if negb (port u =? 0) then print_port b (port u) else (0, b) in
          let '(e, b) := print_all b [pl_s (params u); pl_s (headers u)] in
          (Z.lor err e, b).

(** ** Decoding *)

(** The error, and the values of [*host] and [*port] afterwards. *)
Definition decode_hostport (hostport host port : pl) : option (Z * pl * pl) :=
  '(err, os) ← re_regex hostport (c_str "\\[[0-9a-f:]+\\][:]*[0-9]*") [true; false; true];
  let host := keep os 0 host in let port := keep os 2 port in
  if err =? 0 then Some (0, host, port)
  else
    '(err, os) ← re_regex hostport (c_str "[^:]+[:]*[0-9]*") [true; false; true];
    Some (err, keep os 0 host, keep os 2 port).

Section Decode.
Context (inet_pton : Z -> list Z -> option (list Z)).

(** The label [out]; the local address and buffer have no contents yet. *)
Definition decode_out (u : uri) (prt : pl) : uri :=
  let '(err, addr) := Sa.sa_set inet_pton (Sa.sa_init Sa.AF_UNSPEC) (host u) 0 (Sa.zeros 64) in
  mk_uri (scheme u) (user u) (password u) (host u)
    (if err =? 0 then Sa.sa_af addr else Sa.AF_UNSPEC)
    (if isset prt then u16 (pl_u32 (Some prt)) else port u) (params u) (headers u).

Definition uri_decode (x : pl) : option (Z * uri) :=
  '(err, os) ← re_regex x (c_str "[^:]+:[^@:]*[:]*[^@]*@[^;? ]+[^?]*[^]*")
                 [true; true; false; true; true; true; true];
  let u := mk_uri (keep os 0 pl_null) (keep os 1 pl_null) (keep os 3 pl_null) pl_null 0 0
                  (keep os 5 pl_null) (keep os 6 pl_null) in
  '(err, u, prt) ←
    (if err =? 0 then
       hostport ← arg os 4;
       '(err, h, prt) ← decode_hostport hostport (host u) pl_null;
       Some (err, mk_uri (scheme u) (user u) (password u) h 0 0 (params u) (headers u), prt)
     else Some (err, u, pl_null));
  if err =? 0 then Some (0, decode_out u prt)
  else
    '(err, os) ← re_regex x (c_str "[^:]+:[^;? ]+[^?]*[^]*") [true; true; true; true];
    let u := mk_uri (keep os 0 pl_null) pl_null pl_null pl_null 0 0 (keep os 2 pl_null) (keep os 3 pl_null) in
    if negb (err =? 0) then Some (err, u)
    else
      hostport ← arg os 1;
      '(err, h, prt) ← decode_hostport hostport (host u) prt;
      let u := mk_uri (scheme u) pl_null pl_null h 0 0 (params u) (headers u) in
      if err =? 0 then Some (0, decode_out u prt) else Some (err, u).

End Decode.

(** ** Parameters and headers *)

(** The name is part of the expression. *)
Definition uri_param_get (x pname pvalue : pl) : option (Z * pl) :=
  let expr := re_snprintf 128 [c_str ";"; pl_s pname; c_str "[=]*[^;]*"] in
  '(err, os) ← re_regex x expr [false; true];
  Some (err, keep os 1 pvalue).

Definition uri_header_get (x hname hvalue : pl) : option (Z * pl) :=
  let expr := re_snprintf 128 [c_str "[?&]1"; pl_s hname; c_str "=[^&]+"] in
  '(err, os) ← re_regex x expr [false; true];
  Some (err, keep os 1 hvalue).

Section Apply.
Context {W : Type} (ah : pl -> pl -> W -> option (Z * W)).

Fixpoint params_loop (fuel : nat) (plr : pl) (w : W) (err : Z) : option (Z * W) :=
  if pl_l plr =? 0 then Some (err, w)
  else match fuel with
  | O => None
  | S fuel =>
      '(err, os) ← re_regex plr (c_str ";[^;=]+[=]*[^;]*") [true; true; true];
      if negb (err =? 0) then Some (err, w)
      else
        pname ← arg os 0; eq ← arg os 1; pvalue ← arg os 2;
        plr ← pl_advance plr (1 + pl_l pname + pl_l eq + pl_l pvalue);
        '(err, w) ← ah pname pvalue w;
        if negb (err =? 0) then Some (err, w) else params_loop fuel plr w err
  end.

Fixpoint headers_loop (fuel : nat) (plr : pl) (w : W) (err : Z) : option (Z * W) :=
  if pl_l plr =? 0 then Some (err, w)
  else match fuel with
  | O => None
  | S fuel =>
      '(err, os) ← re_regex plr (c_str "[?&]1[^=]+=[^&]+") [true; true; true];
      if negb (err =? 0) then Some (err, w)
      else
        sep ← arg os 0; hname ← arg os 1; hvalue ← arg os 2;
        plr ← pl_advance plr (pl_l sep + pl_l hname + 1 + pl_l hvalue);
        '(err, w) ← ah hname hvalue w;
        if negb (err =? 0) then Some (err, w) else headers_loop fuel plr w err
  end.

(** Every turn takes a character or more. *)
Definition uri_params_apply (x : pl) (w : W) : option (Z * W) := params_loop (length (pl_s x)) x w 0.
Definition uri_headers_apply (x : pl) (w : W) : option (Z * W) := headers_loop (length (pl_s x)) x w 0.

End Apply.

(** ** Comparing *)

(** The names of the parameters that must be in both, at addresses of their own. *)
Definition both_params : list (list Z) :=
  [c_str "user"; c_str "ttl"; c_str "method"; c_str "maddr"; c_str "transport"].

Definition param_handler (other_params pname pvalue : pl) (w : unit) : option (Z * unit) :=
  let both := existsb (fun s => pl_strcmp (Some pname) (Some (mk_pl 1 s)) =? 0) both_params in
  '(err, other) ← uri_param_get other_params pname pl_null;
  Some (if negb (err =? 0) then (if both then ENOENT else 0)
        else pl_casecmp (Some pvalue) (Some other), w).

Definition header_handler (other_headers hname hvalue : pl) (w : unit) : option (Z * unit) :=
  '(err, other) ← uri_header_get other_headers hname pl_null;
  Some (if negb (err =? 0) then err else pl_casecmp (Some hvalue) (Some other), w).

(** [c1 && c2] where the conditions may be undefined. *)
Definition andalso (c1 : option bool) (c2 : option bool) : option bool :=
  b ← c1; if b : bool then c2 else Some false.

Definition succeeds (r : option (Z * unit)) : option bool := '(err, _) ← r; Some (err =? 0).

(** [same]: whether the two pointers are equal. *)
Definition uri_cmp (same : bool) (l r : uri) : option bool :=
  if same then Some true
  else if negb (pl_casecmp (Some (scheme l)) (Some (scheme r)) =? 0) then Some false
  else if negb (pl_cmp (Some (user l)) (Some (user r)) =? 0) then Some false
  else if negb (pl_cmp (Some (password l)) (Some (password r)) =? 0) then Some false
  else if negb (pl_casecmp (Some (host l)) (Some (host r)) =? 0) then Some false
  else if negb (af l =? af r) then Some false
  else if negb (port l =? port r) then Some false
  else
    andalso (succeeds (uri_params_apply (param_handler (params r)) (params l) tt))
    (andalso (succeeds (uri_params_apply (param_handler (params l)) (params r) tt))
    (andalso (succeeds (uri_headers_apply (header_handler (headers r)) (headers l) tt))
             (succeeds (uri_headers_apply (header_handler (headers l)) (headers r) tt)))).

(** ** The loops end *)

Section Loops.
Context {W : Type} (ah : pl -> pl -> W -> option (Z * W)).
Context (ah_total : forall n v w, is_Some (ah n v w)).

Definition params_items : list item :=
  [Lit 59; Cls [mk_chr 59 59; mk_chr 61 61] true false 1 UINT32_MAX; Cls [mk_chr 61 61] false false 0 UINT32_MAX;
   Cls [mk_chr 59 59] true false 0 UINT32_MAX].
Definition headers_items : list item :=
  [Cls [mk_chr 63 63; mk_chr 38 38] false false 1 1; Cls [mk_chr 61 61] true false 1 UINT32_MAX; Lit 61;
   Cls [mk_chr 38 38] true false 1 UINT32_MAX].

Lemma advance_some x n : 0 <= n <= pl_l x -> pl_advance x n = Some (mk_pl (pl_p x + n) (drop (Z.to_nat n) (pl_s x))).
Proof. intros Hn. unfold pl_advance. by assert ((0 <=? n) && (n <=? pl_l x) = true) as -> by lia. Qed.

Lemma params_loop_total fuel : forall plr w err, 0 < pl_p plr -> (length (pl_s plr) <= fuel)%nat ->
  is_Some (params_loop ah fuel plr w err).
Proof.
  induction fuel as [|fuel IH]; intros plr w err Hp Hf; cbn [params_loop]; unfold pl_l at 1;
    (destruct (Z.eqb_spec (Z.of_nat (length (pl_s plr))) 0); [by eexists|]); [lia|].
  destruct (re_regex_inv [true; true; true] (c_str ";[^;=]+[=]*[^;]*") params_items plr)
    as [(i&caps&Hi&Hm&->)|[os ->]]; [reflexivity|done|done|lia| |by eexists].
  apply matches_lit in Hm as (c&r&Er&_&Hm).
  apply matches_class in Hm as (n&r1&c1&->&->&Hn&_&Hm). apply matches_class in Hm as (e&r2&c2&->&->&He&_&Hm).
  apply matches_class in Hm as (v&r3&c3&->&->&Hv&_&Hm).
  apply (f_equal length) in Er. rewrite length_drop in Er. cbn [length] in Er. rewrite !length_app in Er.
  inversion Hm; subst. cbn [mbind option_bind negb Z.eqb]. get_args. cbn [mbind option_bind].
  unfold pl_l. cbn [pl_s]. rewrite advance_some by (unfold pl_l; lia). cbn [mbind option_bind].
  match goal with |- context [ah ?x ?y w] => destruct (ah_total x y w) as [[err' w'] ->] end.
  cbn [mbind option_bind]. destruct (negb (err' =? 0)); [by eexists|].
  apply IH; cbn [pl_p pl_s]; [lia|]. rewrite length_drop. lia.
Qed.

Lemma headers_loop_total fuel : forall plr w err, 0 < pl_p plr -> (length (pl_s plr) <= fuel)%nat ->
  is_Some (headers_loop ah fuel plr w err).
Proof.
  induction fuel as [|fuel IH]; intros plr w err Hp Hf; cbn [headers_loop]; unfold pl_l at 1;
    (destruct (Z.eqb_spec (Z.of_nat (length (pl_s plr))) 0); [by eexists|]); [lia|].
  destruct (re_regex_inv [true; true; true] (c_str "[?&]1[^=]+=[^&]+") headers_items plr)
    as [(i&caps&Hi&Hm&->)|[os ->]]; [reflexivity|done|done|lia| |by eexists].
  apply matches_class in Hm as (s&r0&c0&Er&->&Hs&_&Hm). apply matches_class in Hm as (n&r1&c1&->&->&Hn&_&Hm).
  apply matches_lit in Hm as (c&r2&->&_&Hm). apply matches_class in Hm as (v&r3&c3&->&->&Hv&_&Hm).
  apply (f_equal length) in Er. rewrite length_drop in Er. repeat (rewrite ?length_app in Er; cbn [length] in Er).
  inversion Hm; subst. cbn [mbind option_bind negb Z.eqb]. get_args. cbn [mbind option_bind].
  unfold pl_l. cbn [pl_s]. rewrite advance_some by (unfold pl_l; lia). cbn [mbind option_bind].
  match goal with |- context [ah ?x ?y w] => destruct (ah_total x y w) as [[err' w'] ->] end.
  cbn [mbind option_bind]. destruct (negb (err' =? 0)); [by eexists|].
  apply IH; cbn [pl_p pl_s]; [lia|]. rewrite length_drop. lia.
Qed.

(** Going through the parameters or the headers ends, and stays inside the text, whatever
    the text is. *)
Theorem uri_apply_total x w : 0 < pl_p x ->
  is_Some (uri_params_apply ah x w) /\ is_Some (uri_headers_apply ah x w).
Proof. intros Hp. split; [by apply params_loop_total|by apply headers_loop_total]. Qed.

End Loops.

(** ** Comparing *)

Lemma strncasecmp_sym a : forall b, strncasecmp_eq a b = strncasecmp_eq b a.
Proof.
  induction a as [|x a IH]; intros [|y b]; try done. simpl. rewrite (Z.eqb_sym (tolower y)), (IH b).
  destruct (Z.eqb_spec (tolower x) (tolower y)) as [E|]; [|done]. f_equal.
  unfold tolower in E. repeat case_match; lia.
Qed.

Lemma pl_cmp_by_sym eq a b : (forall x y, eq x y = eq y x) ->
  pl_cmp_by eq (Some a) (Some b) = pl_cmp_by eq (Some b) (Some a).
Proof.
  intros He. unfold pl_cmp_by. rewrite (Z.eqb_sym (pl_l b)), (Z.eqb_sym (pl_p b)), (He (pl_s b)).
  destruct (Z.eqb_spec (pl_l a) (pl_l b)) as [->|]; done.
Qed.

Lemma pl_cmp_sym a b : pl_cmp (Some a) (Some b) = pl_cmp (Some b) (Some a).
Proof. apply pl_cmp_by_sym. intros x y. unfold memcmp_eq. apply bool_decide_ext. done. Qed.
Lemma pl_casecmp_sym a b : pl_casecmp (Some a) (Some b) = pl_casecmp (Some b) (Some a).
Proof. apply pl_cmp_by_sym. intros x y. apply strncasecmp_sym. Qed.

Lemma andalso_sym a b c d x y : andalso a (andalso b (andalso c d)) = Some x ->
  andalso b (andalso a (andalso d c)) = Some y -> x = y.
Proof. destruct a as [[]|], b as [[]|], c as [[]|], d as [[]|]; simpl; congruence. Qed.

(** Comparing two URIs does not depend on their order, whenever both comparisons are
    defined; and URIs that compare equal have the same user and password, the same
    address family and port, and the same scheme and host up to case. *)
Theorem uri_cmp_symmetric l r b b' :
  Forall (fun f => coherent (f l) (f r) /\ no_nul (pl_s (f l))) [scheme; user; password; host] ->
  uri_cmp false l r = Some b -> uri_cmp false r l = Some b' ->
  b = b' /\
  (b = true -> pl_s (user l) = pl_s (user r) /\ pl_s (password l) = pl_s (password r) /\
     af l = af r /\ port l = port r /\
     map tolower (pl_s (scheme l)) = map tolower (pl_s (scheme r)) /\
     map tolower (pl_s (host l)) = map tolower (pl_s (host r))).
Proof.
  rewrite !Forall_cons. intros ([Cs Ns]&[Cu Nu]&[Cp Np]&[Ch Nh]&_). unfold uri_cmp.
  rewrite (pl_casecmp_sym (scheme r)), (pl_cmp_sym (user r)), (pl_cmp_sym (password r)), (pl_casecmp_sym (host r)).
  rewrite (Z.eqb_sym (af r)), (Z.eqb_sym (port r)).
  destruct (Z.eqb_spec (pl_casecmp (Some (scheme l)) (Some (scheme r))) 0) as [Es|]; [|by intros [= <-] [= <-]].
  destruct (Z.eqb_spec (pl_cmp (Some (user l)) (Some (user r))) 0) as [Eu|]; [|by intros [= <-] [= <-]].
  destruct (Z.eqb_spec (pl_cmp (Some (password l)) (Some (password r))) 0) as [Ep|]; [|by intros [= <-] [= <-]].
  destruct (Z.eqb_spec (pl_casecmp (Some (host l)) (Some (host r))) 0) as [Eh|]; [|by intros [= <-] [= <-]].
  destruct (Z.eqb_spec (af l) (af r)) as [Ea|]; [|by intros [= <-] [= <-]].
  destruct (Z.eqb_spec (port l) (port r)) as [Eq|]; [|by intros [= <-] [= <-]]. cbn [negb].
  intros H1 H2. split; [by eapply andalso_sym|]. intros _.
  destruct (pl_cmp_texts (scheme l) (scheme r) Cs Ns) as [_ Hs], (pl_cmp_texts (user l) (user r) Cu Nu) as [Hu _],
    (pl_cmp_texts (password l) (password r) Cp Np) as [Hp _], (pl_cmp_texts (host l) (host r) Ch Nh) as [_ Hh].
  split_and!; try done; [by apply Hu|by apply Hp|by apply Hs|by apply Hh].
Qed.

Definition ex_uri (p : Z) (s : string) : uri :=
  match uri_decode Sa.ex_pton (mk_pl p (c_str s)) with Some (_, u) => u | None => uri0 end.

Lemma uri_cmp_symmetric_witness :
  uri_cmp false (ex_uri 1000 "sip:bob@1.2.3.4;a") (ex_uri 2000 "SIP:bob@1.2.3.4;b") = Some true /\
  uri_cmp false (ex_uri 1000 "sip:bob@1.2.3.4;a") (ex_uri 2000 "SIP:bob@1.2.3.4;b") =
  uri_cmp false (ex_uri 2000 "SIP:bob@1.2.3.4;b") (ex_uri 1000 "sip:bob@1.2.3.4;a").
Proof.
  assert (uri_cmp false (ex_uri 1000 "sip:bob@1.2.3.4;a") (ex_uri 2000 "SIP:bob@1.2.3.4;b") = Some true) as E1
    by (vm_compute; reflexivity).
  assert (uri_cmp false (ex_uri 2000 "SIP:bob@1.2.3.4;b") (ex_uri 1000 "sip:bob@1.2.3.4;a") = Some true) as E2
    by (vm_compute; reflexivity).
  destruct (uri_cmp_symmetric (ex_uri 1000 "sip:bob@1.2.3.4;a") (ex_uri 2000 "SIP:bob@1.2.3.4;b") true true) as [H _].
  - repeat apply Forall_cons_2; [..|apply Forall_nil_2];
      (split; [intros E; vm_compute in E; discriminate E|apply no_nul_check; vm_compute; reflexivity]).
  - exact E1.
  - exact E2.
  - split; [exact E1|]. by rewrite E1, E2.
Defined.

(** A parameter is also found under a name that only starts like it, so a URI need not
    equal a copy of itself. *)
Example uri_cmp_not_reflexive :
  uri_cmp false (ex_uri 1000 "sip:h;lrx=1;lr=2") (ex_uri 2000 "sip:h;lrx=1;lr=2") = Some false.
Proof. vm_compute. reflexivity. Qed.

(** The name of a parameter is used as an expression: with classes in it the comparison
    stores through arguments that are not there. *)
Example uri_cmp_injection :
  uri_cmp false (ex_uri 1000 "sip:h;[a]*[b]*=1") (ex_uri 2000 "sip:h;ab=1") = None.
Proof. vm_compute. reflexivity. Qed.

(** ** Encoding and decoding *)

(** The digits of a number denote it. *)
Lemma itoa_value fuel : forall n, 0 <= n < 10 ^ Z.of_nat fuel ->
  Pl.value dec_digit 10 (rev (Uric.itoa_loop fuel n 10 97)) = Some n /\
  forallb (fun c => (48 <=? c) && (c <=? 57)) (rev (Uric.itoa_loop fuel n 10 97)) = true.
Proof.
  induction fuel as [|fuel IH]; intros n Hn; [change (10 ^ Z.of_nat 0) with 1 in Hn; by assert (n = 0) as -> by lia|].
  cbn [Uric.itoa_loop rev].
  assert (n = 10 * (n / 10) + n mod 10) as En by (by apply Z.div_mod).
  assert (0 <= n mod 10 < 10) as Hd by (by apply Z.mod_pos_bound).
  replace (n - n / 10 * 10) with (n mod 10) by lia.
  destruct (Z.ltb_spec (n mod 10) 10); [|lia].
  assert (dec_digit (48 + n mod 10) = Some (n mod 10)) as Hdig.
  { assert (n mod 10 = 0 \/ n mod 10 = 1 \/ n mod 10 = 2 \/ n mod 10 = 3 \/ n mod 10 = 4 \/ n mod 10 = 5 \/
      n mod 10 = 6 \/ n mod 10 = 7 \/ n mod 10 = 8 \/ n mod 10 = 9) as Hc by lia.
    by destruct_or! Hc; rewrite Hc. }
  unfold Pl.value. rewrite value_from_app, Hdig, forallb_app. cbn [forallb].
  assert ((48 <=? 48 + n mod 10) && (48 + n mod 10 <=? 57) = true) as -> by lia.
  destruct (Z.eqb_spec (n / 10) 0) as [E|E].
  - cbn. rewrite E in En. split; [f_equal; lia|done].
  - rewrite Nat2Z.inj_succ, Z.pow_succ_r in Hn by lia.
    destruct (IH (n / 10)) as [Hv ->]; [split; [apply Z.div_pos; lia|apply Z.div_lt_upper_bound; lia]|].
    unfold Pl.value in Hv. rewrite Hv. cbn. split; [f_equal; lia|done].
Qed.

Definition port_digits (n : Z) : list Z := Uric.local_itoa n 10 false.

Lemma port_digits_ok n : 0 <= n < 65536 -> Pl.value dec_digit 10 (port_digits n) = Some n /\
  forallb (fun c => (48 <=? c) && (c <=? 57)) (port_digits n) = true /\ port_digits n <> [].
Proof.
  intros Hn. destruct (itoa_value 64 n) as [Hv Hd].
  { split; [lia|]. apply Z.lt_le_trans with 65536; [lia|]. by vm_compute. }
  unfold port_digits, Uric.local_itoa. split_and!; [exact Hv|exact Hd|]. cbn [Uric.itoa_loop rev].
  by intros [_ ?]%app_eq_nil.
Qed.

Lemma port_digits_length n : 0 <= n < 65536 -> (length (port_digits n) <= 64)%nat.
Proof.
  intros Hn. unfold port_digits, Uric.local_itoa. rewrite length_rev. clear Hn.
  generalize 64%nat as f. intros f. revert n. induction f as [|f IH]; intros n; cbn [Uric.itoa_loop length]; [lia|].
  case_match; simpl; [lia|]. specialize (IH (n / 10)). lia.
Qed.

(** The pieces of the text. *)
Definition host_text (u : uri) : list Z :=
  if af u =? Sa.AF_INET6 then 91 :: pl_s (host u) ++ [93] else pl_s (host u).
Definition port_text (u : uri) : list Z := if port u =? 0 then [] else 58 :: port_digits (port u).
Definition user_text (u : uri) : list Z :=
  match pl_s (user u) with
  | [] => []
  | _ => pl_s (user u) ++ (match pl_s (password u) with [] => [] | _ => 58 :: pl_s (password u) end) ++ [64]
  end.
Definition uri_text (u : uri) : list Z :=
  pl_s (scheme u) ++ 58 :: user_text u ++ (host_text u ++ port_text u) ++ pl_s (params u) ++ pl_s (headers u).

Definition hexc (c : Z) : bool :=
  ((48 <=? c) && (c <=? 57)) || ((97 <=? c) && (c <=? 102)) || ((65 <=? c) && (c <=? 70)) || (c =? 58).

(** The family of a host, as the decoder caches it. *)
Definition host_af (inet_pton : Z -> list Z -> option (list Z)) (h : list Z) : Z :=
  let '(err, addr) := Sa.sa_set_str inet_pton (Sa.sa_init Sa.AF_UNSPEC) h 0 in
  if err =? 0 then Sa.sa_af addr else Sa.AF_UNSPEC.

Definition starts_free (cs w : list Z) : Prop := match w with c :: _ => ~ In c cs | [] => True end.
Definition starts_in (cs w : list Z) : Prop := match w with c :: _ => In c cs | [] => True end.

(** A URI that can be written: no part has a character that would end it. *)
Record uri_ok (inet_pton : Z -> list Z -> option (list Z)) (u : uri) : Prop := {
  ok_set : Forall (fun f => pl_p (f u) <> 0) [scheme; user; password; host];
  ok_scheme : pl_s (scheme u) <> [] /\ free [58; 64] (pl_s (scheme u)) = true;
  ok_user : free [58; 64] (pl_s (user u)) = true;
  ok_password : free [64] (pl_s (password u)) = true /\ starts_free [58] (pl_s (password u)) /\
    (pl_s (user u) = [] -> pl_s (password u) = []);
  ok_host : pl_s (host u) <> [] /\ no_nul (pl_s (host u)) /\ (length (pl_s (host u)) < 64)%nat /\
    (if af u =? Sa.AF_INET6 then forallb hexc (pl_s (host u)) = true
     else free [58; 59; 63; 32; 91; 64] (pl_s (host u)) = true);
  ok_af : af u = host_af inet_pton (pl_s (host u));
  ok_port : 0 <= port u < 65536;
  ok_params : free [63; 64] (pl_s (params u)) = true /\ starts_in [59] (pl_s (params u));
  ok_headers : free [64] (pl_s (headers u)) = true /\ starts_in [63] (pl_s (headers u)) }.

(** The fields have the same texts, wherever they are. *)
Definition same_uri (u v : uri) : Prop :=
  pl_s (scheme u) = pl_s (scheme v) /\ pl_s (user u) = pl_s (user v) /\
  pl_s (password u) = pl_s (password v) /\ pl_s (host u) = pl_s (host v) /\ af u = af v /\ port u = port v /\
  pl_s (params u) = pl_s (params v) /\ pl_s (headers u) = pl_s (headers v).

Lemma isset_text x : pl_p x <> 0 -> isset x = match pl_s x with [] => false | _ => true end.
Proof.
  intros Hp. unfold isset, pl_isset, pl_l. destruct (Z.eqb_spec (pl_p x) 0); [done|].
  destruct (pl_s x); [done|]. cbn [length negb andb]. by destruct (Z.eqb_spec (Z.of_nat (S (length l))) 0); [lia|].
Qed.

Lemma print_all_text l t b o s : concat l = t -> b = Uric.mk_buffer o s -> Z.of_nat (length t) <= s ->
  print_all b l = (0, Uric.mk_buffer (o ++ t) (s - Z.of_nat (length t))).
Proof. intros <- ->. apply print_all_fits. Qed.

Lemma print_user_text inet_pton u o s : uri_ok inet_pton u -> Z.of_nat (length (user_text u)) <= s ->
  print_user (Uric.mk_buffer o s) u =
    (0, Uric.mk_buffer (o ++ user_text u) (s - Z.of_nat (length (user_text u)))).
Proof.
  intros H Hs. pose proof (ok_set _ _ H) as Hset. rewrite !Forall_cons in Hset. destruct Hset as (_&Pu&Pp&_).
  unfold print_user, user_text in *. rewrite !isset_text by done.
  destruct (pl_s (user u)) as [|c w] eqn:Eu; [by rewrite app_nil_r, Z.sub_0_r|]. rewrite <- Eu in *. clear Eu.
  rewrite !length_app in Hs. cbn [length] in Hs.
  rewrite (print_all_text _ (pl_s (user u)) _ o s) by (done || lia || by cbn [concat]; rewrite app_nil_r).
  destruct (pl_s (password u)) as [|d pw] eqn:Ep; [|rewrite <- Ep in *; clear Ep].
  - cbn [length] in Hs. unfold Uric.print_handler. cbn [Uric.space Uric.out].
    change (Z.of_nat (length (c_str "@"))) with 1. destruct (Z.ltb_spec (s - Z.of_nat (length (pl_s (user u)))) 1); [lia|].
    cbn [Z.lor app]. rewrite <- app_assoc, length_app. change (c_str "@") with [64]. cbn [length]. do 2 f_equal. lia.
  - cbn [length] in Hs.
    rewrite (print_all_text _ (58 :: pl_s (password u)) _ (o ++ pl_s (user u)) (s - Z.of_nat (length (pl_s (user u)))));
      [|by cbn [concat]; rewrite app_nil_r|done|cbn [length]; lia].
    unfold Uric.print_handler. cbn [Uric.space Uric.out length].
    change (Z.of_nat (length (c_str "@"))) with 1. change (c_str "@") with [64].
    match goal with |- context [Z.ltb ?x 1] => destruct (Z.ltb_spec x 1); [lia|] end.
    cbn [Z.lor]. rewrite <- !app_assoc. repeat (rewrite ?length_app; cbn [length app]). do 2 f_equal. lia.
Qed.

Lemma print_host_text u o s : Z.of_nat (length (host_text u)) <= s ->
  print_host (Uric.mk_buffer o s) u =
    (0, Uric.mk_buffer (o ++ host_text u) (s - Z.of_nat (length (host_text u)))).
Proof.
  intros Hs. unfold print_host, host_text in *. destruct (af u =? Sa.AF_INET6); apply print_all_text; try done;
    cbn [concat]; by rewrite app_nil_r.
Qed.

Lemma print_port_text u o s : Z.of_nat (length (port_text u)) <= s ->
  (if negb (port u =? 0) then print_port (Uric.mk_buffer o s) (port u) else (0, Uric.mk_buffer o s)) =
    (0, Uric.mk_buffer (o ++ port_text u) (s - Z.of_nat (length (port_text u)))).
Proof.
  intros Hs. unfold print_port, port_text in *. destruct (port u =? 0); cbn [negb].
  - by rewrite app_nil_r, Z.sub_0_r.
  - apply print_all_text; [|done|done]. cbn [concat]. by rewrite app_nil_r.
Qed.

Lemma encode_text inet_pton u o s : uri_ok inet_pton u -> Z.of_nat (length (uri_text u)) <= s ->
  uri_encode (Uric.mk_buffer o s) u =
    (0, Uric.mk_buffer (o ++ uri_text u) (s - Z.of_nat (length (uri_text u)))).
Proof.
  intros H Hs. pose proof (ok_set _ _ H) as Hset. rewrite !Forall_cons in Hset. destruct Hset as (Ps&_&_&Ph&_).
  destruct (ok_scheme _ _ H) as [Hsch _], (ok_host _ _ H) as (Hhost&_).
  unfold uri_encode. rewrite !isset_text by done.
  destruct (pl_s (scheme u)) as [|c0 sch] eqn:Esch; [done|]. destruct (pl_s (host u)) as [|h0 hst] eqn:Ehst; [done|].
  rewrite <- Esch. cbn [negb orb]. unfold uri_text in *. rewrite Esch in *. rewrite <- Esch in *. clear Esch Ehst.
  repeat (rewrite ?length_app in Hs; cbn [length] in Hs).
  rewrite (print_all_text _ (pl_s (scheme u) ++ [58]) _ o s);
    [|by cbn [concat]; rewrite app_nil_r|done|rewrite length_app; cbn [length]; lia]. cbn [negb Z.eqb].
  rewrite length_app. cbn [length].
  rewrite (print_user_text inet_pton) by (done || lia). cbn [negb Z.eqb].
  rewrite print_host_text by lia. cbn [negb Z.eqb]. rewrite print_port_text by lia.
  erewrite (print_all_text _ (pl_s (params u) ++ pl_s (headers u)));
    [|by cbn [concat]; rewrite app_nil_r|reflexivity|rewrite length_app; lia].
  cbn [Z.lor]. rewrite <- !app_assoc. cbn [app].
  repeat (rewrite ?length_app; cbn [length]). do 2 f_equal. lia.
Qed.

(** *** The expressions *)

Definition port_items : list item :=
  [Cls [single 58] false false 0 UINT32_MAX; Cls [mk_chr 48 57] false false 0 UINT32_MAX].
Definition hex_cs : list chr := [mk_chr 48 57; mk_chr 97 102; single 58].
Definition ipv6_items : list item := Lit 91 :: Cls hex_cs false false 1 UINT32_MAX :: Lit 93 :: port_items.
Definition host_items : list item := Cls [single 58] true false 1 UINT32_MAX :: port_items.
Definition tail_items : list item :=
  [Cls (map single [59; 63; 32]) true false 1 UINT32_MAX; Cls [single 63] true false 0 UINT32_MAX;
   Cls [] true false 0 UINT32_MAX].
Definition user_items : list item :=
  Cls [single 58] true false 1 UINT32_MAX :: Lit 58 :: Cls (map single [64; 58]) true false 0 UINT32_MAX ::
  Cls [single 58] false false 0 UINT32_MAX :: Cls [single 64] true false 0 UINT32_MAX :: Lit 64 :: tail_items.
Definition plain_items : list item := Cls [single 58] true false 1 UINT32_MAX :: Lit 58 :: tail_items.

Lemma digits_class w : forallb (fun c => (48 <=? c) && (c <=? 57)) w = true ->
  forallb (in_class [mk_chr 48 57] false) w = true.
Proof.
  apply forallb_impl. intros c Hc. unfold in_class, in_chr, tolower. cbn [existsb cmin cmax].
  destruct ((65 <=? c) && (c <=? 90)) eqn:E; lia.
Qed.

Lemma hex_class c : hexc c = true -> in_class hex_cs false c = true.
Proof.
  unfold hexc, in_class, in_chr, tolower, hex_cs, single. cbn [existsb cmin cmax]. intros H.
  destruct ((65 <=? c) && (c <=? 90)) eqn:E; lia.
Qed.

(** The digits of the port, or nothing. *)
Definition port_value (u : uri) : list Z := if port u =? 0 then [] else port_digits (port u).

Lemma eval_port u p : 0 <= port u < 65536 ->
  exists c q, eval port_items p (port_text u) = Hit [c; mk_pl q (port_value u)] /\ (p <= q).
Proof.
  intros Hu. unfold port_text, port_value, port_items.
  destruct (port_digits_ok (port u) Hu) as (_&Hd&Hne). pose proof (port_digits_length (port u) Hu) as Hl.
  destruct (port u =? 0).
  - rewrite eval_none, eval_none by done. do 2 eexists. split; [done|lia].
  - change (58 :: port_digits (port u)) with ([58] ++ port_digits (port u)).
    rewrite eval_plain; [|done| |done].
    + rewrite eval_all; [|by apply digits_class|unfold UINT32_MAX; lia].
      do 2 eexists. split; [done|]. simpl. lia.
    + destruct (port_digits (port u)) as [|d ds]; [done|]. cbn [forallb] in Hd. apply andb_true_iff in Hd as [Hd _].
      unfold stops. rewrite (in_class_singles [58]) by done. cbn. lia.
Qed.

Lemma port_text_stops u cs : 0 <= port u < 65536 -> forallb (fun c => negb (letter c)) cs = true -> In 58 cs ->
  stops (map single cs) true (port_text u).
Proof.
  intros Hu Hcs Hin. unfold port_text. destruct (port u =? 0); [done|]. unfold stops.
  rewrite in_class_singles by done. assert (existsb (Z.eqb 58) cs = true) as ->; [|done].
  apply existsb_exists. exists 58. split; [done|apply Z.eqb_refl].
Qed.

Lemma port_text_chars u : 0 <= port u < 65536 -> forallb (fun c => (48 <=? c) && (c <=? 58)) (port_text u) = true.
Proof.
  intros Hu. unfold port_text. destruct (port u =? 0); [done|]. cbn [forallb andb Z.leb].
  destruct (port_digits_ok (port u) Hu) as (_&Hd&_). eapply forallb_impl; [|exact Hd]. intros c Hc. cbn beta in *. lia.
Qed.

Lemma free_lookup cs w c : free cs w = true -> c ∈ w -> ~ In c cs.
Proof.
  unfold free. rewrite forallb_forall. intros H Hc%list_elem_of_In Hin. apply H in Hc.
  rewrite negb_true_iff in Hc. assert (existsb (Z.eqb c) cs = true); [|congruence].
  apply existsb_exists. exists c. split; [done|apply Z.eqb_refl].
Qed.

Lemma tolower_fix y c : letter c = false -> tolower y = tolower c -> y = c.
Proof. unfold letter, tolower. intros Hc. repeat case_match; lia. Qed.

(** *** The host and port *)

Lemma hostport_decodes inet_pton u a h0 p0 : uri_ok inet_pton u -> 0 < a ->
  exists q r, decode_hostport (mk_pl a (host_text u ++ port_text u)) h0 p0 =
    Some (0, mk_pl q (pl_s (host u)), mk_pl r (port_value u)) /\ 0 < q /\ 0 < r.
Proof.
  intros H Ha. destruct (ok_host _ _ H) as (Hne&_&Hlen&Hc). pose proof (ok_port _ _ H) as Hp.
  unfold decode_hostport, host_text. destruct (af u =? Sa.AF_INET6).
  - set (b := a + 1 + Z.of_nat (length (pl_s (host u)))).
    destruct (eval_port u (b + 1) Hp) as (c&q&Ep&Hq).
    rewrite (re_regex_eval [true; false; true] (c_str "\\[[0-9a-f:]+\\][:]*[0-9]*") ipv6_items _
      [mk_pl (a + 1) (pl_s (host u)); c; mk_pl q (port_value u)]); [|reflexivity|done|done|simpl; lia|done|].
    2: { cbn [pl_p pl_s]. rewrite <- app_comm_cons, <- app_assoc. unfold ipv6_items. rewrite eval_lit by done.
         rewrite eval_plain; [|eapply forallb_impl; [apply hex_class|done]|done|].
         - cbn [app]. rewrite eval_lit by done. fold b. rewrite Ep. cbn [capture]. reflexivity.
         - unfold UINT32_MAX. destruct (pl_s (host u)); [done|]. cbn [length] in *. lia. }
    cbn [mbind option_bind]. exists (a + 1), q. split; [reflexivity|]. unfold b in *. lia.
  - destruct (re_regex_absent [true; false; true] (c_str "\\[[0-9a-f:]+\\][:]*[0-9]*") ipv6_items
      (mk_pl a (pl_s (host u) ++ port_text u)) 91) as (os&->&_); [reflexivity|done|done|simpl; lia|left| |].
    { cbn [pl_s]. intros y Hy E%tolower_fix; [|done]. subst y. apply elem_of_app in Hy as [Hy|Hy].
      - apply (free_lookup _ _ _ Hc Hy). simpl. auto 10.
      - pose proof (port_text_chars u Hp) as Hpt. rewrite forallb_forall in Hpt.
        apply list_elem_of_In, Hpt in Hy. done. }
    cbn [mbind option_bind]. change (ENOENT =? 0) with false. cbn match.
    destruct (eval_port u (a + Z.of_nat (length (pl_s (host u)))) Hp) as (c&q&Ep&Hq).
    rewrite (re_regex_eval [true; false; true] (c_str "[^:]+[:]*[0-9]*") host_items _
      [mk_pl a (pl_s (host u)); c; mk_pl q (port_value u)]); [|reflexivity|done|done|simpl; lia| |].
    + cbn [mbind option_bind]. exists a, q. split; [reflexivity|]. lia.
    + cbn [pl_s]. by destruct (pl_s (host u)).
    + cbn [pl_p pl_s]. unfold host_items. rewrite eval_plain; [by rewrite Ep| | |].
      * apply (free_class [58]); [done|]. unfold free in *. eapply forallb_impl; [|exact Hc]. intros d Hd. simpl in *. lia.
      * by apply (port_text_stops u [58]); [|done|left].
      * unfold UINT32_MAX. destruct (pl_s (host u)); [done|]. cbn [length] in *. lia.
Qed.

(** *** The whole *)

Definition hp_text (u : uri) : list Z := host_text u ++ port_text u.

Lemma hp_free inet_pton u : uri_ok inet_pton u -> free [59; 63; 32; 64] (hp_text u) = true /\ hp_text u <> [].
Proof.
  intros H. destruct (ok_host _ _ H) as (Hne&_&_&Hc). pose proof (port_text_chars u (ok_port _ _ H)) as Hp.
  unfold hp_text, host_text, free in *. rewrite forallb_app. split.
  - apply andb_true_iff. split.
    + destruct (af u =? Sa.AF_INET6).
      * cbn [forallb]. rewrite forallb_app. apply andb_true_iff. split; [done|]. apply andb_true_iff. split; [|done].
        eapply forallb_impl; [|exact Hc]. intros c. unfold hexc. cbn [existsb]. lia.
      * eapply forallb_impl; [|exact Hc]. intros c. cbn [existsb]. lia.
    + eapply forallb_impl; [|exact Hp]. intros c. cbn [existsb]. lia.
  - destruct (af u =? Sa.AF_INET6); [done|]. by destruct (pl_s (host u)).
Qed.

Lemma free_some cs cs' w : free cs w = true -> (forall c, In c cs' -> In c cs) -> free cs' w = true.
Proof.
  intros H Hi. unfold free in *. eapply forallb_impl; [|exact H]. intros c. cbn beta.
  rewrite !negb_true_iff, <- !not_true_iff_false, !existsb_exists. intros Hn (d&Hd&E). apply Hn. eauto.
Qed.

Lemma stops_in cs w r : forallb (fun c => negb (letter c)) cs = true ->
  match w ++ r with c :: _ => In c cs | [] => True end -> stops (map single cs) true (w ++ r).
Proof.
  intros Hcs. unfold stops. destruct (w ++ r) as [|c t]; [done|]. intros Hc. rewrite in_class_singles by done.
  assert (existsb (Z.eqb c) cs = true) as ->; [|done]. apply existsb_exists. exists c. split; [done|apply Z.eqb_refl].
Qed.

Lemma eval_tail inet_pton u p : uri_ok inet_pton u -> fits (uri_text u) ->
  exists q r, eval tail_items p (hp_text u ++ pl_s (params u) ++ pl_s (headers u)) =
    Hit [mk_pl p (hp_text u); mk_pl q (pl_s (params u)); mk_pl r (pl_s (headers u))].
Proof.
  intros H Hf. destruct (hp_free _ _ H) as [Hhp Hne], (ok_params _ _ H) as [Hpa Hps], (ok_headers _ _ H) as [_ Hhs].
  unfold fits, uri_text in Hf. fold (hp_text u) in Hf. repeat (rewrite ?length_app in Hf; cbn [length] in Hf).
  unfold tail_items. rewrite eval_plain.
  - rewrite eval_plain.
    + rewrite eval_all; [do 2 eexists; reflexivity| |lia]. apply forallb_forall. by intros c _.
    + by apply (free_class [63]); [|eapply free_some; [exact Hpa|simpl; tauto]].
    + rewrite <- (app_nil_l (pl_s (headers u))). apply (stops_in [63] [] (pl_s (headers u))); [done|].
      unfold starts_in in Hhs. exact Hhs.
    + lia.
  - apply free_class; [done|]. eapply free_some; [exact Hhp|]. simpl. tauto.
  - apply (stops_in [59; 63; 32]); [done|]. unfold starts_in in *.
    destruct (pl_s (params u)) as [|c w]; cbn [app].
    + destruct (pl_s (headers u)); [done|]. simpl in *. tauto.
    + simpl in *. tauto.
  - destruct (hp_text u); [done|]. cbn [length] in *. lia.
Qed.

Lemma port_number u r : 0 <= port u < 65536 -> r <> 0 ->
  u16 (pl_u32 (Some (mk_pl r (port_digits (port u))))) = port u.
Proof.
  intros Hp Hr. destruct (port_digits_ok (port u) Hp) as (Hv&_&_).
  unfold pl_u32. rewrite (pl_num_value dec_digit 4294967296 10) by done. cbn [pl_s]. rewrite Hv.
  rewrite Z.mod_small by lia. apply u16_small. lia.
Qed.

Lemma decode_out_same inet_pton u v q r : uri_ok inet_pton u -> q <> 0 -> r <> 0 ->
  pl_s (scheme v) = pl_s (scheme u) -> pl_s (user v) = pl_s (user u) -> pl_s (password v) = pl_s (password u) ->
  host v = mk_pl q (pl_s (host u)) -> port v = 0 -> pl_s (params v) = pl_s (params u) ->
  pl_s (headers v) = pl_s (headers u) ->
  same_uri u (decode_out inet_pton v (mk_pl r (port_value u))).
Proof.
  intros H Hq Hr E1 E2 E3 E4 E5 E6 E7. destruct (ok_host _ _ H) as (_&Hnul&Hlen&_).
  unfold decode_out. rewrite E4, Sa.sa_set_text by done. pose proof (ok_af _ _ H) as Haf. unfold host_af in Haf.
  destruct (Sa.sa_set_str _ _ _ _) as [err addr]. unfold same_uri.
  cbn [scheme user password host af port params headers pl_s]. split_and!; try done.
  rewrite isset_text by done. cbn [pl_s]. unfold port_value. pose proof (ok_port _ _ H) as Hp.
  destruct (Z.eqb_spec (port u) 0) as [E|E]; [congruence|].
  destruct (port_digits_ok (port u) Hp) as (_&_&Hne). pose proof (port_number u r Hp Hr) as Ep.
  destruct (port_digits (port u)); [done|]. by rewrite Ep.
Qed.

Lemma decode_plain inet_pton u a : uri_ok inet_pton u -> fits (uri_text u) -> 0 < a -> pl_s (user u) = [] ->
  exists v, uri_decode inet_pton (mk_pl a (uri_text u)) = Some (0, v) /\ same_uri u v.
Proof.
  intros H Hf Ha Eu. destruct (hp_free _ _ H) as [Hhp Hne], (ok_params _ _ H) as [Hpa _], (ok_headers _ _ H) as [Hhe _],
    (ok_scheme _ _ H) as [Hsne Hs]. pose proof (ok_port _ _ H) as Hport.
  assert (uri_text u = pl_s (scheme u) ++ 58 :: hp_text u ++ pl_s (params u) ++ pl_s (headers u)) as Et.
  { unfold uri_text, user_text. by rewrite Eu. }
  unfold uri_decode.
  destruct (re_regex_absent [true; true; false; true; true; true; true]
    (c_str "[^:]+:[^@:]*[:]*[^@]*@[^;? ]+[^?]*[^]*") user_items (mk_pl a (uri_text u)) 64) as (os&->&_);
    [reflexivity|done|simpl; lia|simpl; lia|unfold user_items; rewrite !elem_of_cons; auto 10| |].
  { cbn [pl_s]. intros y Hy E%tolower_fix; [|done]. subst y. rewrite Et in Hy.
    rewrite elem_of_app, elem_of_cons, !elem_of_app in Hy. destruct Hy as [Hy|[?|[Hy|[Hy|Hy]]]]; [|done|..].
    - apply (free_lookup _ _ _ Hs Hy). simpl. auto.
    - apply (free_lookup _ _ _ Hhp Hy). simpl. auto 10.
    - apply (free_lookup _ _ _ Hpa Hy). simpl. auto.
    - apply (free_lookup _ _ _ Hhe Hy). simpl. auto. }
  cbn [mbind option_bind]. change (ENOENT =? 0) with false. cbn match. cbn [mbind option_bind].
  change (ENOENT =? 0) with false. cbn match.
  set (b := a + Z.of_nat (length (pl_s (scheme u))) + 1).
  destruct (eval_tail inet_pton u b H Hf) as (q&r&Etl).
  rewrite (re_regex_eval [true; true; true; true] (c_str "[^:]+:[^;? ]+[^?]*[^]*") plain_items _
    [mk_pl a (pl_s (scheme u)); mk_pl b (hp_text u); mk_pl q (pl_s (params u)); mk_pl r (pl_s (headers u))]);
    [|reflexivity|done|simpl; lia|simpl; lia| |].
  - cbn [mbind option_bind]. change (negb (0 =? 0)) with false. cbn match. get_args. cbn [mbind option_bind].
    destruct (hostport_decodes inet_pton u b pl_null pl_null H ltac:(unfold b; lia)) as (q1&r1&Eh&Hq1&Hr1).
    unfold hp_text. cbn [host]. rewrite Eh. cbn [mbind option_bind]. change (0 =? 0) with true. cbn match.
    eexists. split; [reflexivity|]. apply (decode_out_same inet_pton u _ q1 r1); try done; try lia.
    destruct (ok_password _ _ H) as (_&_&E). by rewrite E.
  - cbn [pl_s]. rewrite Et. by destruct (pl_s (scheme u)).
  - cbn [pl_p pl_s]. rewrite Et. unfold plain_items. unfold fits in Hf. rewrite Et, length_app in Hf. cbn [length] in Hf.
    rewrite eval_plain; [rewrite eval_lit by done; fold b; by rewrite Etl| |done|].
    + apply (free_class [58]); [done|]. eapply free_some; [exact Hs|]. simpl. tauto.
    + destruct (pl_s (scheme u)); [done|]. cbn [length] in *. lia.
Qed.

(** The part before the at sign. *)
Lemma eval_user inet_pton u a t caps : uri_ok inet_pton u -> pl_s (user u) <> [] -> fits (uri_text u) ->
  eval tail_items (a + Z.of_nat (length (pl_s (scheme u))) + 1 + Z.of_nat (length (user_text u))) t = Hit caps ->
  exists q r c, eval user_items a (pl_s (scheme u) ++ 58 :: user_text u ++ t) =
    Hit (mk_pl a (pl_s (scheme u)) :: mk_pl q (pl_s (user u)) :: c :: mk_pl r (pl_s (password u)) :: caps).
Proof.
  intros H Hu Hf Ht. destruct (ok_scheme _ _ H) as [Hsne Hs], (ok_password _ _ H) as (Hpw&Hps&_).
  pose proof (ok_user _ _ H) as Hus. unfold fits, uri_text, user_text in *. unfold user_items.
  repeat (rewrite ?length_app in Hf; cbn [length] in Hf).
  rewrite eval_plain; [rewrite eval_lit by done| |done|].
  2: { apply (free_class [58]); [done|]. eapply free_some; [exact Hs|]. simpl. tauto. }
  2: { destruct (pl_s (scheme u)); [done|]. cbn [length] in *. lia. }
  destruct (pl_s (user u)) as [|c0 us] eqn:Eu; [done|]. rewrite <- Eu in *. clear Eu Hu.
  repeat (rewrite ?length_app in Hf; cbn [length] in Hf). rewrite <- !app_assoc.
  rewrite eval_plain; [| |by destruct (pl_s (password u))|lia].
  2: { apply (free_class [64; 58]); [done|]. eapply free_some; [exact Hus|]. simpl. tauto. }
  destruct (pl_s (password u)) as [|d pw] eqn:Ep; [|rewrite <- Ep in *; clear Ep].
  - cbn [app]. rewrite eval_none, eval_none, eval_lit by done.
    erewrite (f_equal (fun p => eval tail_items p t)), Ht; [do 3 eexists; reflexivity|].
    rewrite !length_app. cbn [length]. lia.
  - cbn [length] in Hf. cbn [app]. change (58 :: pl_s (password u) ++ 64 :: t) with ([58] ++ pl_s (password u) ++ 64 :: t).
    rewrite eval_plain; [|done| |done].
    + rewrite eval_plain; [|by apply (free_class [64])|done|lia]. rewrite eval_lit by done.
      erewrite (f_equal (fun p => eval tail_items p t)), Ht; [do 3 eexists; reflexivity|].
      repeat (rewrite ?length_app; cbn [length]). lia.
    + unfold starts_free in Hps. destruct (pl_s (password u)) as [|e w]; [done|]. unfold stops. cbn [app].
      rewrite (in_class_singles [58]) by done. cbn. destruct (Z.eqb_spec e 58); [|done]. subst. simpl in Hps. tauto.
Qed.

Lemma decode_user inet_pton u a : uri_ok inet_pton u -> fits (uri_text u) -> 0 < a -> pl_s (user u) <> [] ->
  exists v, uri_decode inet_pton (mk_pl a (uri_text u)) = Some (0, v) /\ same_uri u v.
Proof.
  intros H Hf Ha Hu. destruct (ok_scheme _ _ H) as [Hsne _].
  set (b := a + Z.of_nat (length (pl_s (scheme u))) + 1 + Z.of_nat (length (user_text u))).
  destruct (eval_tail inet_pton u b H Hf) as (q&r&Etl).
  destruct (eval_user inet_pton u a _ _ H Hu Hf Etl) as (q0&r0&c&Eus).
  unfold uri_decode.
  match type of Eus with _ = Hit ?caps =>
    rewrite (re_regex_eval [true; true; false; true; true; true; true]
      (c_str "[^:]+:[^@:]*[:]*[^@]*@[^;? ]+[^?]*[^]*") user_items (mk_pl a (uri_text u)) caps);
      [|reflexivity|done|simpl; lia|simpl; lia| |exact Eus] end.
  2: { unfold uri_text. simpl. by destruct (pl_s (scheme u)). }
  cbn [mbind option_bind]. change (0 =? 0) with true. cbn match. get_args. cbn [mbind option_bind].
  destruct (hostport_decodes inet_pton u b pl_null pl_null H ltac:(unfold b; lia)) as (q1&r1&Eh&Hq1&Hr1).
  unfold hp_text. cbn [host]. rewrite Eh. cbn [mbind option_bind]. change (0 =? 0) with true. cbn match.
  eexists. split; [reflexivity|]. by apply (decode_out_same inet_pton u _ q1 r1); try done; try lia.
Qed.

Lemma decode_text inet_pton u a : uri_ok inet_pton u -> fits (uri_text u) -> 0 < a ->
  exists v, uri_decode inet_pton (mk_pl a (uri_text u)) = Some (0, v) /\ same_uri u v.
Proof.
  intros H Hf Ha. destruct (pl_s (user u)) as [|c w] eqn:E; [by apply decode_plain|].
  apply decode_user; try done. by rewrite E.
Qed.

(** C31: a URI written by [uri_encode] is read back by [uri_decode]: for every URI whose
    parts have no character that would end them, all eight fields come back, whatever
    the system's parser of addresses accepts. *)
Theorem uri_roundtrip inet_pton u s a : uri_ok inet_pton u -> fits (uri_text u) ->
  Z.of_nat (length (uri_text u)) <= s -> 0 < a ->
  exists b v, uri_encode (Uric.mk_buffer [] s) u = (0, b) /\
    uri_decode inet_pton (mk_pl a (Uric.out b)) = Some (0, v) /\ same_uri u v.
Proof.
  intros H Hf Hs Ha. destruct (decode_text inet_pton u a) as (v&Hv&Hsame); [done..|].
  exists (Uric.mk_buffer (uri_text u) (s - Z.of_nat (length (uri_text u)))), v.
  split_and!; [|exact Hv|done]. by rewrite (encode_text inet_pton).
Qed.

(** An address that maps an IPv4 one is printed without its brackets, and cannot be read
    again; one with dots is cut at the first colon. *)
Definition mapped_pton (af : Z) (l : list Z) : option (list Z) :=
  if (af =? Sa.AF_INET6) && bool_decide (l = c_str "::ffff:102:304")
  then Some (Sa.zeros 10 ++ [255; 255; 1; 2; 3; 4]) else None.
Example mapped_address :
  match uri_decode mapped_pton (mk_pl 100 (c_str "sip:[::ffff:102:304]")) with
  | Some (0, u) => Some (Uric.out (snd (uri_encode (Uric.mk_buffer [] 64) u))) | _ => None end =
    Some (c_str "sip:::ffff:102:304") /\
  match uri_decode mapped_pton (mk_pl 100 (c_str "sip:[::ffff:1.2.3.4]")) with
  | Some (0, u) => Some (pl_s (host u)) | _ => None end = Some (c_str "[").
Proof. vm_compute. done. Qed.

Definition ex_full : uri :=
  mk_uri (mk_pl 1 (c_str "sip")) (mk_pl 2 (c_str "bob")) (mk_pl 3 (c_str "pw")) (mk_pl 4 (c_str "1.2.3.4"))
    Sa.AF_INET 5060 (mk_pl 5 (c_str ";lr")) (mk_pl 6 (c_str "?a=b")).

Lemma ex_full_ok : uri_ok Sa.ex_pton ex_full.
Proof.
  split.
  - repeat (apply Forall_cons_2; [done|]). constructor.
  - done.
  - done.
  - split_and!; [done| |done]. simpl. by intros [].
  - split_and!; [done|apply no_nul_check; reflexivity|apply Nat.ltb_lt; reflexivity|done].
  - reflexivity.
  - done.
  - split; [done|]. by left.
  - split; [done|]. by left.
Qed.

Lemma uri_roundtrip_witness : exists b v, uri_encode (Uric.mk_buffer [] 100) ex_full = (0, b) /\
  Uric.out b = c_str "sip:bob:pw@1.2.3.4:5060;lr?a=b" /\
  uri_decode Sa.ex_pton (mk_pl 100 (Uric.out b)) = Some (0, v) /\ same_uri ex_full v.
Proof.
  destruct (uri_roundtrip Sa.ex_pton ex_full 100 100 ex_full_ok) as (b&v&E&Ev&Hs); [done..|].
  exists b, v. split_and!; [exact E| |exact Ev|exact Hs].
  assert (Uric.out (snd (uri_encode (Uric.mk_buffer [] 100) ex_full)) = c_str "sip:bob:pw@1.2.3.4:5060;lr?a=b") as Eo
    by (vm_compute; reflexivity).
  by rewrite E in Eo.
Defined.

(** ** The decoder is defined on every text *)
Lemma arg_stored args caps i v : args !! i = Some true -> caps !! i = Some v -> arg (stored args caps) i = Some v.
Proof.
  intros Ha Hc. unfold arg, stored.
  rewrite lookup_app_l by (rewrite length_zip_with; apply lookup_lt_Some in Ha, Hc; lia).
  by rewrite lookup_zip_with, Ha, Hc.
Qed.

(** Captures are not at the null pointer. *)
Lemma captures_at its p t caps : matches its p t caps -> 0 < p -> Forall (fun c => 0 < pl_p c) caps.
Proof.
  induction 1 as [p t|c x its p t caps _ _ IH|cs ng q nmin nmax its p w r lpl nm caps _ Hs _ _ IH]; intros Hp.
  - constructor.
  - apply IH. lia.
  - constructor; [|apply IH; lia]. unfold strip_quotes in Hs. repeat case_match; simplify_eq/=; lia.
Qed.

Lemma re_regex_total args expr its x : items expr = Some its -> expr <> [] -> (classes its <= length args)%nat -> 0 < pl_p x ->
  (exists os, re_regex x expr args = Some (0, os) /\
     forall i, (i < classes its)%nat -> args !! i = Some true -> exists v, arg os i = Some v /\ 0 < pl_p v) \/
  (exists os, re_regex x expr args = Some (ENOENT, os)).
Proof.
  intros Hi He Ha Hp. destruct (re_regex_inv args expr its x Hi He Ha) as [(k&caps&Hk&Hm&E)|]; [lia| |by right].
  left. exists (stored args caps). split; [done|]. intros i Hic Hia. pose proof (matches_classes _ _ _ _ Hm) as Hl.
  destruct (lookup_lt_is_Some_2 caps i) as [v Hv]; [lia|]. exists v. split; [by apply arg_stored|].
  pose proof (captures_at _ _ _ _ Hm ltac:(lia)) as Hc. rewrite Forall_lookup in Hc. by eapply Hc.
Qed.

Lemma decode_hostport_total hp h0 p0 : 0 < pl_p hp -> exists err h pr, decode_hostport hp h0 p0 = Some (err, h, pr).
Proof.
  intros Hp. unfold decode_hostport.
  destruct (re_regex_total [true; false; true] (c_str "\\[[0-9a-f:]+\\][:]*[0-9]*") ipv6_items hp)
    as [(os&->&_)|(os&->)]; [reflexivity|done|done|done| |]; cbn [mbind option_bind]; [by eexists _, _, _|].
  change (ENOENT =? 0) with false. cbv iota.
  destruct (re_regex_total [true; false; true] (c_str "[^:]+[:]*[0-9]*") host_items hp)
    as [(os'&->&_)|(os'&->)]; [reflexivity|done|done|done| |]; by eexists _, _, _.
Qed.

Lemma uri_decode_total inet_pton x : 0 < pl_p x -> is_Some (uri_decode inet_pton x).
Proof.
  intros Hp. unfold uri_decode.
  assert (forall prt, is_Some ('(err, os) ← re_regex x (c_str "[^:]+:[^;? ]+[^?]*[^]*") [true; true; true; true];
    let u := mk_uri (keep os 0 pl_null) pl_null pl_null pl_null 0 0 (keep os 2 pl_null) (keep os 3 pl_null) in
    if negb (err =? 0) then Some (err, u)
    else
      hostport ← arg os 1;
      '(err, h, prt) ← decode_hostport hostport (host u) prt;
      let u := mk_uri (scheme u) pl_null pl_null h 0 0 (params u) (headers u) in
      if err =? 0 then Some (0, decode_out inet_pton u prt) else Some (err, u))) as Hplain.
  { intros prt. destruct (re_regex_total [true; true; true; true] (c_str "[^:]+:[^;? ]+[^?]*[^]*") plain_items x)
      as [(os&->&Ho)|(os&->)]; [reflexivity|done|done|done| |]; cbn [mbind option_bind]; [|by eexists].
    change (negb (0 =? 0)) with false. cbv iota. destruct (Ho 1%nat) as (v&->&Hv); [simpl; lia|done|]. cbn [mbind option_bind].
    destruct (decode_hostport_total v pl_null prt Hv) as (err&h&pr&E). cbn [host]. rewrite E. cbn [mbind option_bind].
    destruct (err =? 0); by eexists. }
  destruct (re_regex_total [true; true; false; true; true; true; true] (c_str "[^:]+:[^@:]*[:]*[^@]*@[^;? ]+[^?]*[^]*") user_items x)
    as [(os&->&Ho)|(os&->)]; [reflexivity|done|done|done| |]; cbn [mbind option_bind].
  - change (0 =? 0) with true. cbv iota. destruct (Ho 4%nat) as (v&->&Hv); [simpl; lia|done|]. cbn [mbind option_bind host].
    destruct (decode_hostport_total v pl_null pl_null Hv) as (err&h&pr&->). cbn [mbind option_bind].
    destruct (err =? 0); [by eexists|apply (Hplain pr)].
  - change (ENOENT =? 0) with false. cbv iota. apply (Hplain pl_null).
Qed.

End Uri.
