(* ===== verification/SipHdr.v ===== *)
(** * SIP header fields: src/libre/src/sip/addr.c, via.c and cseq.c

    The decoders of addresses, Via and CSeq.  The system's parser of network addresses is
    a parameter.  A member that an expression did not get to keeps its value.  The null
    checks of the arguments are left out. *)
From S2P Require Import Prelude Pl Uric Regex Param Sa Uri.
Import Pl Regex Param Uri.

Module SipHdr.

(** ** Data *)

Record sip_addr := mk_sip_addr { dname : pl; auri : pl; addr_uri : uri; addr_params : pl }.
Record sip_taddr := mk_sip_taddr { taddr : sip_addr; tag : pl; taddr_val : pl }.
Record sip_cseq := mk_sip_cseq { cseq_met : pl; num : Z }.
Inductive sip_transp := TRANSP_UDP | TRANSP_TCP | TRANSP_TLS | TRANSP_NONE.
Record sip_via := mk_sip_via { sentby : pl; via_addr : Sa.sa; via_params : pl; branch : pl;
  via_val : pl; via_tp : sip_transp }.

Definition addr0 : sip_addr := mk_sip_addr pl_null pl_null uri0 pl_null.

(** ** src/libre/src/sip/cseq.c *)

Definition sip_cseq_decode (cseq : sip_cseq) (x : pl) : option (Z * sip_cseq) :=
  '(err, os) ← re_regex x (c_str "[0-9]+[ \t\r\n]+[^ \t\r\n]+") [true; false; true];
  let met := keep os 2 (cseq_met cseq) in
  if negb (err =? 0) then Some (err, mk_sip_cseq met (num cseq))
  else n ← arg os 0; Some (0, mk_sip_cseq met (pl_u32 (Some n))).

(** ** src/libre/src/sip/addr.c *)

Section Decode.
Context (inet_pton : Z -> list Z -> option (list Z)).

(** An empty part has a null pointer. *)
Definition or_null (x : pl) : pl := if pl_l x =? 0 then mk_pl 0 (pl_s x) else x.

Definition sip_addr_decode (x : pl) : option (Z * sip_addr) :=
  '(err, os) ← re_regex x (c_str "[~ \t\r\n<]*[ \t\r\n]*<[^>]+>[^]*") [true; false; true; true];
  r ← (if err =? 0 then
         Some (Some (mk_sip_addr (or_null (keep os 0 pl_null)) (keep os 2 pl_null) uri0
                       (or_null (keep os 3 pl_null))))
       else
         '(err, os) ← re_regex x (c_str "[^;]+[^]*") [true; true];
         Some (if negb (err =? 0) then None
               else Some (mk_sip_addr pl_null (keep os 0 pl_null) uri0 (keep os 1 pl_null))));
  match r with
  | None => Some (EBADMSG, addr0)
  | Some a =>
      '(err, u) ← uri_decode inet_pton (auri a);
      Some (err, if negb (err =? 0) then addr0 else mk_sip_addr (dname a) (auri a) u (addr_params a))
  end.

(** ** src/libre/src/sip/via.c *)

Definition decode_hostport (hostport host port : pl) : option (Z * pl * pl) :=
  '(err, os) ← re_regex hostport (c_str "\\[[0-9a-f:]+\\][:]*[0-9]*") [true; false; true];
  let host := keep os 0 host in let port := keep os 2 port in
  if err =? 0 then Some (0, host, port)
  else
    '(err, os) ← re_regex hostport (c_str "[^:]+[:]*[0-9]*") [true; false; true];
    Some (err, keep os 0 host, keep os 2 port).

(** A comparison with a constant, which is at an address of its own. *)
Definition is_text (x : pl) (s : list Z) : bool := pl_strcmp (Some x) (Some (mk_pl 1 s)) =? 0.

Definition transp_of (x : pl) : sip_transp :=
  if is_text x (c_str "TCP") then TRANSP_TCP
  else if is_text x (c_str "TLS") then TRANSP_TLS
  else if is_text x (c_str "UDP") then TRANSP_UDP
  else TRANSP_NONE.

Definition via_expr : list Z :=
  c_str "SIP[  \t\r\n]*/[ \t\r\n]*2.0[ \t\r\n]*/[ \t\r\n]*[A-Z]+[ \t\r\n]*[^; \t\r\n]+[ \t\r\n]*[^]*".

Definition sip_via_decode (via : sip_via) (x : pl) : option (Z * sip_via) :=
  '(err, os) ← re_regex x via_expr
    [false; false; false; false; true; false; true; false; true];
  let via := mk_sip_via (keep os 6 (sentby via)) (via_addr via) (keep os 8 (via_params via)) (branch via)
                        (via_val via) (via_tp via) in
  if negb (err =? 0) then Some (err, via)
  else
    transp ← arg os 4;
    let via := mk_sip_via (sentby via) (via_addr via) (via_params via) (branch via) (via_val via)
                          (transp_of transp) in
    '(err, host, port) ← decode_hostport (sentby via) pl_null pl_null;
    if negb (err =? 0) then Some (err, via)
    else
      let a := snd (Sa.sa_set inet_pton (Sa.sa_init Sa.AF_INET) host 0 (Sa.zeros 64)) in
      let a := if isset port then Sa.sa_set_port a (u16 (pl_u32 (Some port))) else a in
      '(err, br) ← msg_param_decode (via_params via) (c_str "branch") (branch via);
      Some (err, mk_sip_via (sentby via) a (via_params via) br x (via_tp via)).

End Decode.

(** ** CSeq *)

Lemma ws_stops r : no_ws r -> stops ws_cs false r.
Proof. by destruct r. Qed.

Lemma not_ws_class w : forallb (fun c => negb (ws c)) w = true -> forallb (in_class ws_cs true) w = true.
Proof.
  assert (ws_cs = map single [32; 9; 13; 10]) as -> by done. intros H. apply free_class; [done|].
  unfold free. eapply forallb_impl; [|exact H]. intros c. unfold ws. cbn [existsb]. lia.
Qed.

Lemma not_ws c r : ws c = false -> no_ws (c :: r).
Proof.
  intros Hc. unfold no_ws. assert (ws_cs = map single [32; 9; 13; 10]) as -> by done.
  rewrite in_class_singles by done. unfold ws in Hc. cbn [existsb xorb] in *. lia.
Qed.

Definition is_digit (c : Z) : bool := (48 <=? c) && (c <=? 57).
Definition cseq_items : list item :=
  [Cls [mk_chr 48 57] false false 1 UINT32_MAX; Cls ws_cs false false 1 UINT32_MAX; Cls ws_cs true false 1 UINT32_MAX].

(** A CSeq is a number, white space and a method: the number is read modulo 2^32 and
    the method is all that follows, up to more white space. *)
Theorem sip_cseq_decode_exact cseq a ds sp met r v : 0 < a -> fits (ds ++ sp ++ met ++ r) ->
  ds <> [] -> Pl.value dec_digit 10 ds = Some v -> forallb is_digit ds = true ->
  sp <> [] -> forallb ws sp = true -> met <> [] -> forallb (fun c => negb (ws c)) met = true ->
  match r with c :: _ => ws c = true | [] => True end ->
  exists c, sip_cseq_decode cseq (mk_pl a (ds ++ sp ++ met ++ r)) = Some (0, c) /\
    num c = u32 v /\ pl_s (cseq_met c) = met.
Proof.
  intros Ha Hf Hds Hv Hdig Hsp Hws Hmet Hnws Hr. unfold fits in Hf. rewrite !length_app in Hf.
  set (p2 := a + Z.of_nat (length ds)). set (p3 := p2 + Z.of_nat (length sp)).
  assert (forall l : list Z, l <> [] -> 1 <= Z.of_nat (length l)) as Hlen by (intros []; simpl; [done|lia]).
  apply Hlen in Hds as Hlds. apply Hlen in Hsp as Hlsp. apply Hlen in Hmet as Hlmet.
  unfold sip_cseq_decode.
  rewrite (re_regex_eval [true; false; true] (c_str "[0-9]+[ \t\r\n]+[^ \t\r\n]+") cseq_items _
    [mk_pl a ds; mk_pl p2 sp; mk_pl p3 met]); [|reflexivity|done|done|simpl; lia|by destruct ds|].
  - cbn [mbind option_bind]. change (negb (0 =? 0)) with false. cbn match. get_args. cbn [mbind option_bind].
    eexists. split; [reflexivity|]. cbn [num cseq_met]. split; [|done].
    unfold pl_u32. rewrite (pl_num_value dec_digit 4294967296 10); [|done|simpl; lia]. cbn [pl_s]. by rewrite Hv.
  - cbn [pl_p pl_s]. unfold cseq_items.
    rewrite eval_plain; [|by apply digits_class| |lia].
    + rewrite eval_plain; [|by apply ws_word| |lia].
      * rewrite eval_plain; [done|by apply not_ws_class| |lia].
        destruct r as [|c r]; [done|]. unfold stops. assert (ws_cs = map single [32; 9; 13; 10]) as -> by done.
        rewrite in_class_singles by done. unfold ws in Hr. cbn [existsb] in *. by rewrite Hr.
      * destruct met as [|c met]; [done|]. cbn [forallb] in Hnws. apply andb_true_iff in Hnws as [Hc _].
        apply (not_ws c (met ++ r)). by apply negb_true_iff.
    + destruct sp as [|c sp]; [done|]. cbn [forallb] in Hws. apply andb_true_iff in Hws as [Hc _].
      unfold stops. cbn [app]. unfold ws in Hc. cbn in Hc.
      assert (c = 32 \/ c = 9 \/ c = 13 \/ c = 10) as H by lia. by destruct_or! H; subst.
Qed.

(** ** Addresses *)

Definition name_cs : list chr := map single [32; 9; 13; 10; 60].
Definition addr_items : list item :=
  [Cls name_cs true true 0 UINT32_MAX; Cls ws_cs false false 0 UINT32_MAX; Lit 60;
   Cls [single 62] true false 1 UINT32_MAX; Lit 62; Cls [] true false 0 UINT32_MAX].
Definition bare_items : list item := [Cls [single 59] true false 1 UINT32_MAX; Cls [] true false 0 UINT32_MAX].

(** A display name: a quoted string, or one word. *)
Definition name_text (quoted : bool) (dn : list Z) : list Z := if quoted then 34 :: dn ++ [34] else dn.
Definition name_ok (quoted : bool) (dn : list Z) : bool :=
  if quoted then free [34; 92] dn else free [32; 9; 13; 10; 60; 34; 92] dn.

Lemma takes_quoted cls w r : free [34; 92] w = true ->
  takes cls true true false (w ++ 34 :: r) = takes cls true false false r.
Proof.
  induction w as [|c w IH]; [done|]. unfold free in *. cbn [forallb existsb app takes andb].
  rewrite !andb_true_iff, !orb_false_r, negb_true_iff, orb_false_iff. intros [[-> ->] Hw]. by apply IH.
Qed.

Lemma takes_open cls w : takes cls true false false (34 :: w) = takes cls true true false w.
Proof. done. Qed.

(** Behind the display name comes white space or the bracket. *)
Definition ends_name (r : list Z) : Prop := exists c t, r = c :: t /\ In c [32; 9; 13; 10; 60].

Lemma ends_name_class c : In c [32; 9; 13; 10; 60] -> in_class name_cs true c = false /\ c <> 34 /\ c <> 92.
Proof. simpl. intros H. by destruct_or? H; subst. Qed.

Lemma eval_name its p quoted dn r : name_ok quoted dn = true -> ends_name r ->
  Z.of_nat (length (name_text quoted dn)) <= UINT32_MAX ->
  exists q, eval (Cls name_cs true true 0 UINT32_MAX :: its) p (name_text quoted dn ++ r) =
    capture (mk_pl q dn) (eval its (p + Z.of_nat (length (name_text quoted dn))) r) /\ p <= q.
Proof.
  intros Hok (c&t&->&Hc) Hl. destruct (ends_name_class c Hc) as (Hcls&H34&H92).
  destruct quoted; cbn [name_text name_ok] in *.
  - exists (p + 1). split; [|lia]. rewrite (eval_word _ _ _ _ _ _ _ _ _ (mk_pl (p + 1) dn) (Z.of_nat (length dn))).
    + cbn [length] in *. rewrite length_app in *. cbn [length] in *.
      by assert ((Z.of_nat (length dn) <? 0) || (UINT32_MAX <? Z.of_nat (length dn)) = false) as -> by lia.
    + split_and!; [|done|right].
      * by rewrite takes_open, takes_quoted.
      * rewrite <- app_comm_cons, <- app_assoc, takes_open. cbn [app]. rewrite takes_quoted by done. cbn [takes andb].
        rewrite Hcls. by rewrite (proj2 (Z.eqb_neq c 34) H34), (proj2 (Z.eqb_neq c 92) H92).
    + unfold strip_quotes, pl_l. cbn [pl_s pl_p]. cbn [length head]. rewrite length_app. cbn [length].
      rewrite (bool_decide_true (Some 34 = Some 34)) by done.
      rewrite bool_decide_true by (rewrite app_comm_cons; apply last_snoc).
      destruct (Z.ltb_spec 1 (Z.of_nat (S (length dn + 1)))); [|lia]. cbn [andb]. f_equal; [|lia]. f_equal.
      cbn [drop]. rewrite drop_0. replace (S (length dn + 1) - 2)%nat with (length dn) by lia. apply take_app_length.
  - exists p. split; [|lia]. apply eval_quotable; [| |by unfold unquoted, free in *; eapply forallb_impl; [|exact Hok];
      intros d; cbn [existsb]; lia|done|lia].
    + apply free_class; [done|]. eapply free_some; [exact Hok|]. simpl. tauto.
    + done.
Qed.

Section Addr.
Context (inet_pton : Z -> list Z -> option (list Z)) (u : uri) (a : Z) (rest : list Z).
Context (H : uri_ok inet_pton u) (Ha : 0 < a) (Hfree : free [60; 62] (uri_text u) = true).

(** What is decoded. *)
Definition decodes_to (text dn : list Z) : Prop := exists d,
  sip_addr_decode inet_pton (mk_pl a text) = Some (0, d) /\ pl_s (dname d) = dn /\
  pl_s (auri d) = uri_text u /\ same_uri u (addr_uri d) /\ pl_s (addr_params d) = rest.

Lemma uri_text_set : uri_text u <> [].
Proof. destruct (ok_scheme _ _ H) as [? _]. unfold uri_text. by destruct (pl_s (scheme u)). Qed.

Lemma or_null_text w : pl_s (or_null w) = pl_s w.
Proof. unfold or_null. by case_match. Qed.

Lemma addr_bracketed quoted dn sp : name_ok quoted dn = true -> forallb ws sp = true ->
  let text := name_text quoted dn ++ sp ++ 60 :: uri_text u ++ 62 :: rest in fits text -> decodes_to text dn.
Proof.
  pose proof uri_text_set as Hne.
  intros Hok Hws text Hf. unfold text, fits, decodes_to in *.
  repeat (rewrite ?length_app in Hf; cbn [length] in Hf). unfold sip_addr_decode.
  set (b := a + Z.of_nat (length (name_text quoted dn)) + Z.of_nat (length sp) + 1).
  destruct (eval_name [Cls ws_cs false false 0 UINT32_MAX; Lit 60; Cls [single 62] true false 1 UINT32_MAX; Lit 62;
    Cls [] true false 0 UINT32_MAX] a quoted dn (sp ++ 60 :: uri_text u ++ 62 :: rest) Hok) as (q&E&Hq); [|lia|].
  { destruct sp as [|c sp]; cbn [app].
    - do 2 eexists. split; [done|]. simpl. auto 10.
    - do 2 eexists. split; [done|]. cbn [forallb] in Hws. apply andb_true_iff in Hws as [Hc _].
      unfold ws in Hc. cbn in Hc. simpl. lia. }
  rewrite eval_ws in E; [|done|done|lia]. rewrite eval_lit in E by done. fold b in E.
  rewrite eval_plain in E; [|by apply (free_class [62]); [|eapply free_some; [exact Hfree|simpl; tauto]]|done|].
  2: { destruct (uri_text u); [done|]. cbn [length] in *. lia. }
  rewrite eval_lit in E by done. rewrite eval_all in E; [|by apply forallb_forall|lia]. cbn [eval capture] in E.
  match type of E with _ = Hit ?caps =>
    rewrite (re_regex_eval [true; false; true; true] (c_str "[~ \t\r\n<]*[ \t\r\n]*<[^>]+>[^]*") addr_items _ caps);
      [|reflexivity|done|simpl; lia|simpl; lia| |exact E] end.
  2: { cbn [pl_s]. intros E0. apply (f_equal length) in E0. repeat (rewrite ?length_app in E0; cbn [length] in E0). lia. }
  cbn [mbind option_bind]. change (0 =? 0) with true. cbn match. unfold keep. get_args.
  cbn [mbind option_bind from_option id auri].
  destruct (decode_text inet_pton u b H) as (v&Ev&Hs); [unfold fits; lia|unfold b; lia|]. rewrite Ev.
  cbn [mbind option_bind]. change (negb (0 =? 0)) with false. cbn match.
  eexists. split; [reflexivity|]. cbn [dname auri addr_uri addr_params]. rewrite !or_null_text. by split_and!.
Qed.

Lemma addr_bare : free [59] (uri_text u) = true -> starts_in [59] rest -> free [60] rest = true ->
  fits (uri_text u ++ rest) -> decodes_to (uri_text u ++ rest) [].
Proof.
  pose proof uri_text_set as Hne.
  intros H59 Hst H60 Hf. unfold fits in Hf. unfold decodes_to. rewrite length_app in Hf. unfold sip_addr_decode.
  destruct (re_regex_absent [true; false; true; true] (c_str "[~ \t\r\n<]*[ \t\r\n]*<[^>]+>[^]*") addr_items
    (mk_pl a (uri_text u ++ rest)) 60) as (os&->&_); [reflexivity|done|simpl; lia|simpl; lia|unfold addr_items; rewrite !elem_of_cons; auto| |].
  { cbn [pl_s]. intros y Hy E%tolower_fix; [|done]. subst y. apply elem_of_app in Hy as [Hy|Hy].
    - apply (free_lookup _ _ _ Hfree Hy). simpl. auto.
    - apply (free_lookup _ _ _ H60 Hy). simpl. auto. }
  cbn [mbind option_bind]. change (ENOENT =? 0) with false. cbn match.
  rewrite (re_regex_eval [true; true] (c_str "[^;]+[^]*") bare_items _
    [mk_pl a (uri_text u); mk_pl (a + Z.of_nat (length (uri_text u))) rest]);
    [|reflexivity|done|simpl; lia|simpl; lia|by cbn [pl_s]; destruct (uri_text u)|].
  2: { cbn [pl_p pl_s]. unfold bare_items. rewrite eval_plain; [|by apply (free_class [59])| |].
       - rewrite eval_all; [done|by apply forallb_forall|lia].
       - rewrite <- (app_nil_l rest). apply (stops_in [59] [] rest); [done|exact Hst].
       - destruct (uri_text u); [done|]. cbn [length] in *. lia. }
  cbn [mbind option_bind]. change (negb (0 =? 0)) with false. cbn match. unfold keep. get_args.
  cbn [mbind option_bind from_option id auri].
  destruct (decode_text inet_pton u a H) as (v&Ev&Hs); [unfold fits; lia|done|]. rewrite Ev.
  cbn [mbind option_bind]. change (negb (0 =? 0)) with false. cbn match.
  eexists. split; [reflexivity|]. by split_and!.
Qed.

End Addr.

(** C29: the forms of an address that the decoder reads: a display name, which may be a
    quoted string whose quotes are removed, and a URI in brackets with the parameters
    behind them; or a bare URI without parameters of its own, after which they start at
    the first semicolon.  The URI is decoded into all of its parts. *)
Theorem sip_addr_decode_exact inet_pton u a rest : uri_ok inet_pton u -> 0 < a -> free [60; 62] (uri_text u) = true ->
  (forall quoted dn sp, name_ok quoted dn = true -> forallb ws sp = true ->
     let text := name_text quoted dn ++ sp ++ 60 :: uri_text u ++ 62 :: rest in fits text ->
     decodes_to inet_pton u a rest text dn) /\
  (free [59] (uri_text u) = true -> starts_in [59] rest -> free [60] rest = true -> fits (uri_text u ++ rest) ->
     decodes_to inet_pton u a rest (uri_text u ++ rest) []).
Proof. intros H Ha Hfree. split; [by apply addr_bracketed|by apply addr_bare]. Qed.

(** Of a display name of several words without quotes only the last word is kept. *)
Example unquoted_words :
  match sip_addr_decode Sa.ex_pton (mk_pl 100 (c_str "Bob Lee <sip:b@h>")) with
  | Some (0, d) => Some (pl_s (dname d)) | _ => None end = Some (c_str "Lee").
Proof. vm_compute. reflexivity. Qed.

(** ** Via *)

Definition via_items : list item :=
  let w := Cls ws_cs false false 0 UINT32_MAX in
  [Lit 83; Lit 73; Lit 80; Cls (single 32 :: ws_cs) false false 0 UINT32_MAX; Lit 47; w; Lit 50; Lit 46; Lit 48; w;
   Lit 47; w; Cls [mk_chr 97 122] false false 1 UINT32_MAX; w;
   Cls (map single [59; 32; 9; 13; 10]) true false 1 UINT32_MAX; w; Cls [] true false 0 UINT32_MAX].

Definition alpha (c : Z) : bool := ((65 <=? c) && (c <=? 90)) || ((97 <=? c) && (c <=? 122)).

Lemma alpha_class w : forallb alpha w = true -> forallb (in_class [mk_chr 97 122] false) w = true.
Proof.
  apply forallb_impl. intros c. unfold alpha, in_class, in_chr, tolower. cbn [existsb cmin cmax].
  destruct ((65 <=? c) && (c <=? 90)) eqn:E; lia.
Qed.

(** The texts of the fixed part. *)
Definition via_text (tp : list Z) (u : uri) (ps : list param) : list Z :=
  c_str "SIP/2.0/" ++ tp ++ 32 :: hp_text u ++ texts ps.

Lemma word_no_ws w r : w <> [] -> forallb (fun c => negb (ws c)) w = true -> no_ws (w ++ r).
Proof.
  destruct w as [|c w]; [done|]. cbn [forallb]. rewrite andb_true_iff, negb_true_iff. intros _ [Hc _].
  by apply (not_ws c (w ++ r)).
Qed.

Lemma eval_via inet_pton u tp ps a : uri_ok inet_pton u -> free [9; 13; 10] (hp_text u) = true ->
  tp <> [] -> forallb alpha tp = true -> Forall param_ok ps -> fits (via_text tp u ps) ->
  let q := a + 8 + Z.of_nat (length tp) + 1 in
  exists c1 c2 c3 c4 c5 c6, eval via_items a (via_text tp u ps) =
    Hit [c1; c2; c3; c4; mk_pl (a + 8) tp; c5; mk_pl q (hp_text u); c6;
         mk_pl (q + Z.of_nat (length (hp_text u))) (texts ps)].
Proof.
  intros H Hws Hne Htp Hps Hf q. destruct (hp_free _ _ H) as [Hhp Hhne]. unfold via_text, fits in *.
  repeat (rewrite ?length_app in Hf; cbn [length] in Hf). change (c_str "SIP/2.0/") with [83; 73; 80; 47; 50; 46; 48; 47].
  assert (forallb (fun c => negb (ws c)) (hp_text u) = true) as Hhw.
  { unfold free in *. rewrite forallb_forall in *. intros c Hc. specialize (Hhp c Hc). specialize (Hws c Hc).
    unfold ws. cbn [existsb] in *. lia. }
  assert (forallb (fun c => negb (ws c)) tp = true) as Htw.
  { eapply forallb_impl; [|exact Htp]. intros c. unfold alpha, ws. cbn [existsb]. lia. }
  assert (forall l : list Z, l <> [] -> 1 <= Z.of_nat (length l)) as Hlen by (intros []; simpl; [done|lia]).
  apply Hlen in Hne as Hlt. apply Hlen in Hhne as Hlh.
  unfold via_items. cbn [app]. rewrite !eval_lit by done. rewrite eval_none by done. rewrite eval_lit by done.
  rewrite eval_none by done. rewrite !eval_lit by done. rewrite eval_none by done. rewrite eval_lit by done.
  rewrite eval_none; [|by apply ws_stops, word_no_ws|done].
  rewrite eval_plain; [|by apply alpha_class|done|lia].
  change (32 :: hp_text u ++ texts ps) with ([32] ++ hp_text u ++ texts ps).
  rewrite eval_ws; [|done|by apply word_no_ws|done].
  rewrite eval_plain; [| | |lia].
  - rewrite eval_none; [|apply ws_stops, no_ws_semi, texts_semi; done|done].
    rewrite eval_all; [|by apply forallb_forall|lia]. cbn [eval capture length].
    assert (a + 1 + 1 + 1 + 1 + 1 + 1 + 1 + 1 = a + 8) as -> by lia. fold q. do 6 eexists. reflexivity.
  - apply free_class; [done|]. unfold free in *. rewrite forallb_forall in *. intros c Hc.
    specialize (Hhp c Hc). specialize (Hws c Hc). cbn [existsb] in *. lia.
  - pose proof (texts_semi ps Hps) as Hs. destruct (texts ps); [done|]. cbn [semi_or_end] in Hs. by subst.
Qed.

(** The address that a host names: the IPv4 or the IPv6 one that the system reads in
    it - one of the mapped IPv4 addresses as the IPv4 one - and for a domain name the
    IPv4 address 0.0.0.0, which counts as unset. *)
Definition host_address (inet_pton : Z -> list Z -> option (list Z)) (h : list Z) (s : Sa.sa) : Prop :=
  match inet_pton Sa.AF_INET h, inet_pton Sa.AF_INET6 h with
  | Some ad, _ => Sa.sa_af s = Sa.AF_INET /\ Sa.in_addr s = ad
  | None, Some ad => if Sa.v4mapped ad then Sa.sa_af s = Sa.AF_INET /\ Sa.in_addr s = drop 12 ad
                     else Sa.sa_af s = Sa.AF_INET6 /\ Sa.sa_in6 s = ad
  | None, None => Sa.sa_af s = Sa.AF_INET /\ Sa.in_addr s = Sa.zeros 4
  end.

(** Setting the port keeps the address. *)
Lemma host_address_port inet_pton h s q : Sa.supported s -> host_address inet_pton h s ->
  host_address inet_pton h (Sa.sa_set_port s q) /\ Sa.sa_port (Sa.sa_set_port s q) = q mod 65536.
Proof.
  intros Hs Ha. assert (Sa.sa_set_port s q = Sa.set_port s q) as ->.
  { unfold Sa.sa_set_port. by destruct Hs as [->| ->]. }
  split; [exact Ha|by apply Sa.sa_port_set].
Qed.

Lemma host_address_set inet_pton q h : 0 < q -> no_nul h -> (length h < 64)%nat ->
  let s := snd (Sa.sa_set inet_pton (Sa.sa_init Sa.AF_INET) (mk_pl q h) 0 (Sa.zeros 64)) in
  host_address inet_pton h s /\ Sa.supported s /\ Sa.sa_port s = 0.
Proof.
  intros Hq Hn Hl s. unfold s. rewrite Sa.sa_set_text by (done || lia).
  unfold Sa.sa_set_str, Sa.net_inet_pton, host_address, Sa.supported.
  destruct (inet_pton Sa.AF_INET h) as [ad|]; [split_and!; by try left|].
  destruct (inet_pton Sa.AF_INET6 h) as [ad|]; [|split_and!; by try left].
  destruct (Sa.v4mapped ad); split_and!; try done; [by left|by right].
Qed.

Lemma via_address inet_pton u r : uri_ok inet_pton u -> 0 < r -> forall q, 0 < q ->
  let a := snd (Sa.sa_set inet_pton (Sa.sa_init Sa.AF_INET) (mk_pl q (pl_s (host u))) 0 (Sa.zeros 64)) in
  let a := if isset (mk_pl r (port_value u)) then
             Sa.sa_set_port a (u16 (pl_u32 (Some (mk_pl r (port_value u))))) else a in
  host_address inet_pton (pl_s (host u)) a /\ Sa.sa_port a = port u.
Proof.
  intros H Hr q Hq a0. destruct (ok_host _ _ H) as (_&Hnul&Hlen&_). pose proof (ok_port _ _ H) as Hp.
  destruct (host_address_set inet_pton q _ Hq Hnul Hlen) as (Ha&Hs&H0). fold a0 in Ha, Hs, H0.
  unfold port_value. rewrite isset_text by (cbn [pl_p]; lia). destruct (Z.eqb_spec (port u) 0) as [->|Hne]; [done|].
  destruct (port_digits_ok (port u) Hp) as (_&_&Hd). cbn [pl_s].
  pose proof (port_number u r Hp ltac:(lia)) as En. destruct (port_digits (port u)) as [|d ds]; [done|]. rewrite En.
  destruct (host_address_port inet_pton _ _ (port u) Hs Ha) as [? Ep].
  split; [done|]. rewrite Ep. by apply Z.mod_small.
Qed.

(** C30: a Via of this version is decoded: its transport is the one named, exactly in upper
    case; the sent-by address is the IPv4 or IPv6 address that its host is, or the unset
    address when the host is a domain name, and in each case with the port that is named,
    0 without one; and the branch is the first parameter of that name, without which the
    field is refused. *)
Theorem sip_via_decode_exact inet_pton via u tp ps a : uri_ok inet_pton u -> free [9; 13; 10] (hp_text u) = true ->
  tp <> [] -> forallb alpha tp = true -> Forall param_ok ps -> fits (via_text tp u ps) -> 0 < a ->
  let q := a + 8 + Z.of_nat (length tp) + 1 in
  exists v, sip_via_decode inet_pton via (mk_pl a (via_text tp u ps)) =
    Some (match find_param (c_str "branch") ps (q + Z.of_nat (length (hp_text u))) with
          | Some _ => 0 | None => ENOENT end, v) /\
    sentby v = mk_pl q (hp_text u) /\ pl_s (via_params v) = texts ps /\
    via_tp v = (if bool_decide (tp = c_str "TCP") then TRANSP_TCP else if bool_decide (tp = c_str "TLS") then TRANSP_TLS
                else if bool_decide (tp = c_str "UDP") then TRANSP_UDP else TRANSP_NONE) /\
    (forall b, find_param (c_str "branch") ps (q + Z.of_nat (length (hp_text u))) = Some b -> branch v = b) /\
    host_address inet_pton (pl_s (host u)) (via_addr v) /\ Sa.sa_port (via_addr v) = port u.
Proof.
  intros H Hws Hne Htp Hps Hf Ha q.
  destruct (eval_via inet_pton u tp ps a H Hws Hne Htp Hps Hf) as (c1&c2&c3&c4&c5&c6&E).
  unfold sip_via_decode.
  match type of E with _ = Hit ?caps =>
    rewrite (re_regex_eval [false; false; false; false; true; false; true; false; true] via_expr via_items _ caps);
      [|vm_compute; reflexivity|discriminate|simpl; lia|simpl; lia|discriminate|exact E] end.
  cbn [mbind option_bind]. change (negb (0 =? 0)) with false. cbn match. unfold keep. get_args.
  cbn [mbind option_bind from_option id sentby via_params branch]. fold q.
  change decode_hostport with Uri.decode_hostport.
  destruct (hostport_decodes inet_pton u q pl_null pl_null H ltac:(unfold q; lia)) as (q1&r1&Eh&Hq1&Hr1).
  fold (hp_text u) in Eh. rewrite Eh. cbn [mbind option_bind]. change (negb (0 =? 0)) with false. cbn match.
  assert (fits (texts ps)) as Hft.
  { unfold fits, via_text in *. rewrite length_app, length_app in Hf. cbn [length] in Hf. rewrite length_app in Hf. lia. }
  rewrite (msg_param_decode_texts _ (c_str "branch") ps); [|cbn [pl_p]; unfold q; lia|done|done|exact Hft|done|done|
    apply Nat.leb_le; reflexivity].
  cbn [mbind option_bind pl_p].
  assert (forall k, is_text (mk_pl (a + 8) tp) k = bool_decide (tp = k)) as Htext.
  { intros k. unfold is_text. by rewrite pl_strcmp_text by (cbn [pl_p]; lia). }
  destruct (find_param (c_str "branch") ps (q + Z.of_nat (length (hp_text u)))) as [b|];
    cbn [mbind option_bind]; eexists; (split; [reflexivity|]); cbn [sentby via_params via_tp branch via_addr pl_s];
    (split; [done|]); (split; [done|]); (split; [unfold transp_of; by rewrite !Htext|]);
    (split; [by intros ? [= ->]|]); by apply (via_address inet_pton).
Qed.

Definition ex_via : sip_via := mk_sip_via pl_null (Sa.sa_init 0) pl_null pl_null pl_null TRANSP_NONE.
Definition ex_v6 : list Z := 32 :: 1 :: 13 :: 184 :: replicate 11 0 ++ [1].
Definition ex_pton (af : Z) (l : list Z) : option (list Z) :=
  if (af =? Sa.AF_INET) && bool_decide (l = c_str "1.2.3.4") then Some [1; 2; 3; 4]
  else if (af =? Sa.AF_INET6) && bool_decide (l = c_str "2001:db8::1") then Some ex_v6 else None.

Definition ex_sentby (af : Z) (h : list Z) : uri :=
  mk_uri (mk_pl 1 (c_str "sip")) (mk_pl 2 []) (mk_pl 3 []) (mk_pl 4 h) af 5062 pl_null pl_null.

Lemma ex_sentby_ok h : In h [c_str "1.2.3.4"; c_str "2001:db8::1"; c_str "pc.example.org"] ->
  uri_ok ex_pton (ex_sentby (host_af ex_pton h) h).
Proof.
  intros [<-|[<-|[<-|[]]]].
  all: split; try done; [by repeat (apply Forall_cons_2; [done|])|].
  all: split_and!; [done|apply no_nul_check; reflexivity|apply Nat.ltb_lt; reflexivity|done].
Qed.

Lemma sip_via_decode_exact_witness :
  (exists v, sip_via_decode ex_pton ex_via (mk_pl 100 (c_str "SIP/2.0/UDP 1.2.3.4:5062;branch=z9")) = Some (0, v) /\
     pl_s (branch v) = c_str "z9" /\ via_tp v = TRANSP_UDP /\
     Sa.in_addr (via_addr v) = [1; 2; 3; 4] /\ Sa.sa_port (via_addr v) = 5062) /\
  (exists v, sip_via_decode ex_pton ex_via (mk_pl 100 (c_str "SIP/2.0/TCP [2001:db8::1]:5062;branch=z9")) = Some (0, v) /\
     via_tp v = TRANSP_TCP /\ Sa.sa_af (via_addr v) = Sa.AF_INET6 /\ Sa.sa_in6 (via_addr v) = ex_v6 /\
     Sa.sa_port (via_addr v) = 5062) /\
  (exists v, sip_via_decode ex_pton ex_via (mk_pl 100 (c_str "SIP/2.0/TLS pc.example.org:5062;x;branch=z9")) = Some (0, v) /\
     via_tp v = TRANSP_TLS /\ Sa.in_addr (via_addr v) = [0; 0; 0; 0] /\ Sa.sa_port (via_addr v) = 5062).
Proof.
  pose (br := mk_param [] (c_str "branch") [] (Some ([], c_str "z9", []))).
  split_and!.
  - pose proof (ex_sentby_ok (c_str "1.2.3.4") ltac:(by left)) as Hu.
    destruct (sip_via_decode_exact ex_pton ex_via _ (c_str "UDP") [br] 100 Hu) as (v&E&_&_&Ht&Hb&Ha&Hp);
      [reflexivity|discriminate|reflexivity|by repeat constructor|done|done|].
    exists v. split; [exact E|]. rewrite (Hb _ eq_refl). split; [vm_compute; reflexivity|]. split; [exact Ht|]. split; [exact (proj2 Ha)|exact Hp].
  - pose proof (ex_sentby_ok (c_str "2001:db8::1") ltac:(by right; left)) as Hu.
    destruct (sip_via_decode_exact ex_pton ex_via _ (c_str "TCP") [br] 100 Hu) as (v&E&_&_&Ht&_&Ha&Hp);
      [reflexivity|discriminate|reflexivity|by repeat constructor|done|done|].
    exists v. split; [exact E|]. split; [exact Ht|]. split; [exact (proj1 Ha)|]. split; [exact (proj2 Ha)|exact Hp].
  - pose proof (ex_sentby_ok (c_str "pc.example.org") ltac:(by right; right; left)) as Hu.
    destruct (sip_via_decode_exact ex_pton ex_via _ (c_str "TLS") [mk_param [] (c_str "x") [] None; br] 100 Hu)
      as (v&E&_&_&Ht&_&Ha&Hp);
      [reflexivity|discriminate|reflexivity|by repeat constructor|done|done|].
    exists v. split; [exact E|]. split; [exact Ht|]. split; [exact (proj2 Ha)|exact Hp].
Defined.

Lemma sip_cseq_decode_exact_witness : exists c,
  sip_cseq_decode (mk_sip_cseq pl_null 0) (mk_pl 100 (c_str "42 INVITE")) = Some (0, c) /\ num c = 42.
Proof.
  destruct (sip_cseq_decode_exact (mk_sip_cseq pl_null 0) 100 (c_str "42") [32] (c_str "INVITE") [] 42)
    as (c&E&Hn&_);
    [reflexivity|by vm_compute|discriminate|reflexivity|reflexivity|discriminate|reflexivity|discriminate|reflexivity|done|].
  exists c. split; [exact E|exact Hn].
Defined.

Lemma sip_addr_decode_exact_witness : exists d,
  sip_addr_decode Sa.ex_pton (mk_pl 100 ([34] ++ c_str "Bob B" ++ [34] ++ c_str " <sip:bob:pw@1.2.3.4:5060;lr?a=b>;tag=x")) =
    Some (0, d) /\ pl_s (dname d) = c_str "Bob B" /\ same_uri ex_full (addr_uri d).
Proof.
  destruct (sip_addr_decode_exact Sa.ex_pton ex_full 100 (c_str ";tag=x") ex_full_ok) as [H _]; [done|reflexivity|].
  destruct (H true (c_str "Bob B") [32]) as (d&E&Hd&_&Hs&_); [reflexivity|reflexivity|done|].
  exists d. split_and!; [exact E|exact Hd|exact Hs].
Defined.

(** The decoder of addresses is defined on every text. *)
Lemma sip_addr_decode_total inet_pton x : 0 < pl_p x -> is_Some (sip_addr_decode inet_pton x).
Proof.
  intros Hp. unfold sip_addr_decode.
  destruct (re_regex_total [true; false; true; true] (c_str "[~ \t\r\n<]*[ \t\r\n]*<[^>]+>[^]*") addr_items x)
    as [(os&->&Ho)|(os&->)]; [reflexivity|done|done|done| |]; cbn [mbind option_bind].
  - change (0 =? 0) with true. cbv iota. cbn [mbind option_bind auri].
    destruct (Ho 2%nat) as (v&E&Hv); [simpl; lia|done|]. unfold keep. rewrite E. cbn [default from_option].
    destruct (uri_decode_total inet_pton v Hv) as [[err u] Eu]. cbn. rewrite Eu. by eexists.
  - change (ENOENT =? 0) with false. cbv iota.
    destruct (re_regex_total [true; true] (c_str "[^;]+[^]*") bare_items x)
      as [(os'&->&Ho)|(os'&->)]; [reflexivity|done|done|done| |]; cbn [mbind option_bind]; [|by eexists].
    change (negb (0 =? 0)) with false. cbv iota. cbn [mbind option_bind auri].
    destruct (Ho 0%nat) as (v&E&Hv); [simpl; lia|done|]. unfold keep. rewrite E. cbn [default from_option].
    destruct (uri_decode_total inet_pton v Hv) as [[err u] Eu]. cbn. rewrite Eu. by eexists.
Qed.

End SipHdr.
