(* ===== verification/SipId.v ===== *)
(** * Identifiers of SIP header fields: src/libre/src/sip/msg.c, include/re_sip.h

    A header field is known by the low twelve bits of a hash of its name, which the
    enumerators of [sip_hdrid] spell out, or by the letter of its compact form. *)
From S2P Require Import Prelude Pl Hash.
Import Pl.

Module SipId.

(** ** The identifiers of header fields *)

Definition SIP_HDR_ACCEPT : Z := 3186.
Definition SIP_HDR_ACCEPT_CONTACT : Z := 232.
Definition SIP_HDR_ACCEPT_ENCODING : Z := 708.
Definition SIP_HDR_ACCEPT_LANGUAGE : Z := 2867.
Definition SIP_HDR_ACCEPT_RESOURCE_PRIORITY : Z := 1848.
Definition SIP_HDR_ALERT_INFO : Z := 274.
Definition SIP_HDR_ALLOW : Z := 2429.
Definition SIP_HDR_ALLOW_EVENTS : Z := 66.
Definition SIP_HDR_ANSWER_MODE : Z := 2905.
Definition SIP_HDR_AUTHENTICATION_INFO : Z := 3144.
Definition SIP_HDR_AUTHORIZATION : Z := 2503.
Definition SIP_HDR_CALL_ID : Z := 3095.
Definition SIP_HDR_CALL_INFO : Z := 586.
Definition SIP_HDR_CONTACT : Z := 229.
Definition SIP_HDR_CONTENT_DISPOSITION : Z := 1425.
Definition SIP_HDR_CONTENT_ENCODING : Z := 580.
Definition SIP_HDR_CONTENT_LANGUAGE : Z := 3371.
Definition SIP_HDR_CONTENT_LENGTH : Z := 3861.
Definition SIP_HDR_CONTENT_TYPE : Z := 809.
Definition SIP_HDR_CSEQ : Z := 746.
Definition SIP_HDR_DATE : Z := 1027.
Definition SIP_HDR_ENCRYPTION : Z := 3125.
Definition SIP_HDR_ERROR_INFO : Z := 21.
Definition SIP_HDR_EVENT : Z := 3286.
Definition SIP_HDR_EXPIRES : Z := 1983.
Definition SIP_HDR_FLOW_TIMER : Z := 584.
Definition SIP_HDR_FROM : Z := 1963.
Definition SIP_HDR_HIDE : Z := 283.
Definition SIP_HDR_HISTORY_INFO : Z := 2582.
Definition SIP_HDR_IDENTITY : Z := 2362.
Definition SIP_HDR_IDENTITY_INFO : Z := 980.
Definition SIP_HDR_IN_REPLY_TO : Z := 1577.
Definition SIP_HDR_JOIN : Z := 3479.
Definition SIP_HDR_MAX_BREADTH : Z := 3701.
Definition SIP_HDR_MAX_FORWARDS : Z := 3549.
Definition SIP_HDR_MIME_VERSION : Z := 3659.
Definition SIP_HDR_MIN_EXPIRES : Z := 1121.
Definition SIP_HDR_MIN_SE : Z := 2847.
Definition SIP_HDR_ORGANIZATION : Z := 3247.
Definition SIP_HDR_P_ACCESS_NETWORK_INFO : Z := 1662.
Definition SIP_HDR_P_ANSWER_STATE : Z := 42.
Definition SIP_HDR_P_ASSERTED_IDENTITY : Z := 1233.
Definition SIP_HDR_P_ASSOCIATED_URI : Z := 900.
Definition SIP_HDR_P_CALLED_PARTY_ID : Z := 3347.
Definition SIP_HDR_P_CHARGING_FUNCTION_ADDRESSES : Z := 2171.
Definition SIP_HDR_P_CHARGING_VECTOR : Z := 25.
Definition SIP_HDR_P_DCS_TRACE_PARTY_ID : Z := 3027.
Definition SIP_HDR_P_DCS_OSPS : Z := 1788.
Definition SIP_HDR_P_DCS_BILLING_INFO : Z := 2017.
Definition SIP_HDR_P_DCS_LAES : Z := 693.
Definition SIP_HDR_P_DCS_REDIRECT : Z := 1872.
Definition SIP_HDR_P_EARLY_MEDIA : Z := 2622.
Definition SIP_HDR_P_MEDIA_AUTHORIZATION : Z := 1035.
Definition SIP_HDR_P_PREFERRED_IDENTITY : Z := 1263.
Definition SIP_HDR_P_PROFILE_KEY : Z := 1904.
Definition SIP_HDR_P_REFUSED_URI_LIST : Z := 1047.
Definition SIP_HDR_P_SERVED_USER : Z := 1588.
Definition SIP_HDR_P_USER_DATABASE : Z := 2827.
Definition SIP_HDR_P_VISITED_NETWORK_ID : Z := 3867.
Definition SIP_HDR_PATH : Z := 2741.
Definition SIP_HDR_PERMISSION_MISSING : Z := 1409.
Definition SIP_HDR_PRIORITY : Z := 3520.
Definition SIP_HDR_PRIV_ANSWER_MODE : Z := 2476.
Definition SIP_HDR_PRIVACY : Z := 3150.
Definition SIP_HDR_PROXY_AUTHENTICATE : Z := 116.
Definition SIP_HDR_PROXY_AUTHORIZATION : Z := 2363.
Definition SIP_HDR_PROXY_REQUIRE : Z := 3562.
Definition SIP_HDR_RACK : Z := 2523.
Definition SIP_HDR_REASON : Z := 3732.
Definition SIP_HDR_RECORD_ROUTE : Z := 278.
Definition SIP_HDR_REFER_SUB : Z := 2458.
Definition SIP_HDR_REFER_TO : Z := 1521.
Definition SIP_HDR_REFERRED_BY : Z := 3456.
Definition SIP_HDR_REJECT_CONTACT : Z := 285.
Definition SIP_HDR_REPLACES : Z := 2534.
Definition SIP_HDR_REPLY_TO : Z := 2404.
Definition SIP_HDR_REQUEST_DISPOSITION : Z := 3715.
Definition SIP_HDR_REQUIRE : Z := 3905.
Definition SIP_HDR_RESOURCE_PRIORITY : Z := 1643.
Definition SIP_HDR_RESPONSE_KEY : Z := 1548.
Definition SIP_HDR_RETRY_AFTER : Z := 409.
Definition SIP_HDR_ROUTE : Z := 661.
Definition SIP_HDR_RSEQ : Z := 445.
Definition SIP_HDR_SECURITY_CLIENT : Z := 1358.
Definition SIP_HDR_SECURITY_SERVER : Z := 811.
Definition SIP_HDR_SECURITY_VERIFY : Z := 519.
Definition SIP_HDR_SERVER : Z := 973.
Definition SIP_HDR_SERVICE_ROUTE : Z := 1655.
Definition SIP_HDR_SESSION_EXPIRES : Z := 1979.
Definition SIP_HDR_SIP_ETAG : Z := 1997.
Definition SIP_HDR_SIP_IF_MATCH : Z := 3056.
Definition SIP_HDR_SUBJECT : Z := 1043.
Definition SIP_HDR_SUBSCRIPTION_STATE : Z := 2884.
Definition SIP_HDR_SUPPORTED : Z := 119.
Definition SIP_HDR_TARGET_DIALOG : Z := 3450.
Definition SIP_HDR_TIMESTAMP : Z := 938.
Definition SIP_HDR_TO : Z := 1449.
Definition SIP_HDR_TRIGGER_CONSENT : Z := 3180.
Definition SIP_HDR_UNSUPPORTED : Z := 982.
Definition SIP_HDR_USER_AGENT : Z := 4064.
Definition SIP_HDR_VIA : Z := 3961.
Definition SIP_HDR_WARNING : Z := 2108.
Definition SIP_HDR_WWW_AUTHENTICATE : Z := 2763.
Definition SIP_HDR_NONE : Z := -1.

(** The names that the identifiers are meant for, as their enumerators spell them. *)
Definition sip_hdrid : list (string * Z) :=
  [("ACCEPT", SIP_HDR_ACCEPT); ("ACCEPT-CONTACT", SIP_HDR_ACCEPT_CONTACT);
   ("ACCEPT-ENCODING", SIP_HDR_ACCEPT_ENCODING); ("ACCEPT-LANGUAGE", SIP_HDR_ACCEPT_LANGUAGE);
   ("ACCEPT-RESOURCE-PRIORITY", SIP_HDR_ACCEPT_RESOURCE_PRIORITY);
   ("ALERT-INFO", SIP_HDR_ALERT_INFO); ("ALLOW", SIP_HDR_ALLOW);
   ("ALLOW-EVENTS", SIP_HDR_ALLOW_EVENTS); ("ANSWER-MODE", SIP_HDR_ANSWER_MODE);
   ("AUTHENTICATION-INFO", SIP_HDR_AUTHENTICATION_INFO); ("AUTHORIZATION", SIP_HDR_AUTHORIZATION);
   ("CALL-ID", SIP_HDR_CALL_ID); ("CALL-INFO", SIP_HDR_CALL_INFO); ("CONTACT", SIP_HDR_CONTACT);
   ("CONTENT-DISPOSITION", SIP_HDR_CONTENT_DISPOSITION);
   ("CONTENT-ENCODING", SIP_HDR_CONTENT_ENCODING); ("CONTENT-LANGUAGE", SIP_HDR_CONTENT_LANGUAGE);
   ("CONTENT-LENGTH", SIP_HDR_CONTENT_LENGTH); ("CONTENT-TYPE", SIP_HDR_CONTENT_TYPE);
   ("CSEQ", SIP_HDR_CSEQ); ("DATE", SIP_HDR_DATE); ("ENCRYPTION", SIP_HDR_ENCRYPTION);
   ("ERROR-INFO", SIP_HDR_ERROR_INFO); ("EVENT", SIP_HDR_EVENT); ("EXPIRES", SIP_HDR_EXPIRES);
   ("FLOW-TIMER", SIP_HDR_FLOW_TIMER); ("FROM", SIP_HDR_FROM); ("HIDE", SIP_HDR_HIDE);
   ("HISTORY-INFO", SIP_HDR_HISTORY_INFO); ("IDENTITY", SIP_HDR_IDENTITY);
   ("IDENTITY-INFO", SIP_HDR_IDENTITY_INFO); ("IN-REPLY-TO", SIP_HDR_IN_REPLY_TO);
   ("JOIN", SIP_HDR_JOIN); ("MAX-BREADTH", SIP_HDR_MAX_BREADTH);
   ("MAX-FORWARDS", SIP_HDR_MAX_FORWARDS); ("MIME-VERSION", SIP_HDR_MIME_VERSION);
   ("MIN-EXPIRES", SIP_HDR_MIN_EXPIRES); ("MIN-SE", SIP_HDR_MIN_SE);
   ("ORGANIZATION", SIP_HDR_ORGANIZATION);
   ("P-ACCESS-NETWORK-INFO", SIP_HDR_P_ACCESS_NETWORK_INFO);
   ("P-ANSWER-STATE", SIP_HDR_P_ANSWER_STATE);
   ("P-ASSERTED-IDENTITY", SIP_HDR_P_ASSERTED_IDENTITY);
   ("P-ASSOCIATED-URI", SIP_HDR_P_ASSOCIATED_URI);
   ("P-CALLED-PARTY-ID", SIP_HDR_P_CALLED_PARTY_ID);
   ("P-CHARGING-FUNCTION-ADDRESSES", SIP_HDR_P_CHARGING_FUNCTION_ADDRESSES);
   ("P-CHARGING-VECTOR", SIP_HDR_P_CHARGING_VECTOR);
   ("P-DCS-TRACE-PARTY-ID", SIP_HDR_P_DCS_TRACE_PARTY_ID); ("P-DCS-OSPS", SIP_HDR_P_DCS_OSPS);
   ("P-DCS-BILLING-INFO", SIP_HDR_P_DCS_BILLING_INFO); ("P-DCS-LAES", SIP_HDR_P_DCS_LAES);
   ("P-DCS-REDIRECT", SIP_HDR_P_DCS_REDIRECT); ("P-EARLY-MEDIA", SIP_HDR_P_EARLY_MEDIA);
   ("P-MEDIA-AUTHORIZATION", SIP_HDR_P_MEDIA_AUTHORIZATION);
   ("P-PREFERRED-IDENTITY", SIP_HDR_P_PREFERRED_IDENTITY);
   ("P-PROFILE-KEY", SIP_HDR_P_PROFILE_KEY); ("P-REFUSED-URI-LIST", SIP_HDR_P_REFUSED_URI_LIST);
   ("P-SERVED-USER", SIP_HDR_P_SERVED_USER); ("P-USER-DATABASE", SIP_HDR_P_USER_DATABASE);
   ("P-VISITED-NETWORK-ID", SIP_HDR_P_VISITED_NETWORK_ID); ("PATH", SIP_HDR_PATH);
   ("PERMISSION-MISSING", SIP_HDR_PERMISSION_MISSING); ("PRIORITY", SIP_HDR_PRIORITY);
   ("PRIV-ANSWER-MODE", SIP_HDR_PRIV_ANSWER_MODE); ("PRIVACY", SIP_HDR_PRIVACY);
   ("PROXY-AUTHENTICATE", SIP_HDR_PROXY_AUTHENTICATE);
   ("PROXY-AUTHORIZATION", SIP_HDR_PROXY_AUTHORIZATION); ("PROXY-REQUIRE", SIP_HDR_PROXY_REQUIRE);
   ("RACK", SIP_HDR_RACK); ("REASON", SIP_HDR_REASON); ("RECORD-ROUTE", SIP_HDR_RECORD_ROUTE);
   ("REFER-SUB", SIP_HDR_REFER_SUB); ("REFER-TO", SIP_HDR_REFER_TO);
   ("REFERRED-BY", SIP_HDR_REFERRED_BY); ("REJECT-CONTACT", SIP_HDR_REJECT_CONTACT);
   ("REPLACES", SIP_HDR_REPLACES); ("REPLY-TO", SIP_HDR_REPLY_TO);
   ("REQUEST-DISPOSITION", SIP_HDR_REQUEST_DISPOSITION); ("REQUIRE", SIP_HDR_REQUIRE);
   ("RESOURCE-PRIORITY", SIP_HDR_RESOURCE_PRIORITY); ("RESPONSE-KEY", SIP_HDR_RESPONSE_KEY);
   ("RETRY-AFTER", SIP_HDR_RETRY_AFTER); ("ROUTE", SIP_HDR_ROUTE); ("RSEQ", SIP_HDR_RSEQ);
   ("SECURITY-CLIENT", SIP_HDR_SECURITY_CLIENT); ("SECURITY-SERVER", SIP_HDR_SECURITY_SERVER);
   ("SECURITY-VERIFY", SIP_HDR_SECURITY_VERIFY); ("SERVER", SIP_HDR_SERVER);
   ("SERVICE-ROUTE", SIP_HDR_SERVICE_ROUTE); ("SESSION-EXPIRES", SIP_HDR_SESSION_EXPIRES);
   ("SIP-ETAG", SIP_HDR_SIP_ETAG); ("SIP-IF-MATCH", SIP_HDR_SIP_IF_MATCH);
   ("SUBJECT", SIP_HDR_SUBJECT); ("SUBSCRIPTION-STATE", SIP_HDR_SUBSCRIPTION_STATE);
   ("SUPPORTED", SIP_HDR_SUPPORTED); ("TARGET-DIALOG", SIP_HDR_TARGET_DIALOG);
   ("TIMESTAMP", SIP_HDR_TIMESTAMP); ("TO", SIP_HDR_TO);
   ("TRIGGER-CONSENT", SIP_HDR_TRIGGER_CONSENT); ("UNSUPPORTED", SIP_HDR_UNSUPPORTED);
   ("USER-AGENT", SIP_HDR_USER_AGENT); ("VIA", SIP_HDR_VIA); ("WARNING", SIP_HDR_WARNING);
   ("WWW-AUTHENTICATE", SIP_HDR_WWW_AUTHENTICATE)].

(** The names of one character. *)
Definition compact (c : Z) : Z :=
  let at_ s := c =? code s in
  if at_ "a"%char then SIP_HDR_ACCEPT_CONTACT
  else if at_ "b"%char then SIP_HDR_REFERRED_BY
  else if at_ "c"%char then SIP_HDR_CONTENT_TYPE
  else if at_ "d"%char then SIP_HDR_REQUEST_DISPOSITION
  else if at_ "e"%char then SIP_HDR_CONTENT_ENCODING
  else if at_ "f"%char then SIP_HDR_FROM
  else if at_ "i"%char then SIP_HDR_CALL_ID
  else if at_ "j"%char then SIP_HDR_REJECT_CONTACT
  else if at_ "k"%char then SIP_HDR_SUPPORTED
  else if at_ "l"%char then SIP_HDR_CONTENT_LENGTH
  else if at_ "m"%char then SIP_HDR_CONTACT
  else if at_ "n"%char then SIP_HDR_IDENTITY_INFO
  else if at_ "o"%char then SIP_HDR_EVENT
  else if at_ "r"%char then SIP_HDR_REFER_TO
  else if at_ "s"%char then SIP_HDR_SUBJECT
  else if at_ "t"%char then SIP_HDR_TO
  else if at_ "u"%char then SIP_HDR_ALLOW_EVENTS
  else if at_ "v"%char then SIP_HDR_VIA
  else if at_ "x"%char then SIP_HDR_SESSION_EXPIRES
  else if at_ "y"%char then SIP_HDR_IDENTITY
  else SIP_HDR_NONE.

Definition hdr_hash (name : pl) : Z :=
  match pl_s name with
  | [] => SIP_HDR_NONE
  | [c] => compact (tolower c)
  | c0 :: c1 :: _ =>
      if ((c0 =? code "x"%char) || (c0 =? code "X"%char)) && (c1 =? code "-"%char) then SIP_HDR_NONE
      else Z.land (Hash.hash_joaat_ci (pl_s name)) 4095
  end.

Definition comma_separated : list Z :=
  [SIP_HDR_ACCEPT; SIP_HDR_ACCEPT_CONTACT; SIP_HDR_ACCEPT_ENCODING; SIP_HDR_ACCEPT_LANGUAGE;
   SIP_HDR_ACCEPT_RESOURCE_PRIORITY; SIP_HDR_ALERT_INFO; SIP_HDR_ALLOW; SIP_HDR_ALLOW_EVENTS;
   SIP_HDR_AUTHENTICATION_INFO; SIP_HDR_CALL_INFO; SIP_HDR_CONTACT; SIP_HDR_CONTENT_ENCODING;
   SIP_HDR_CONTENT_LANGUAGE; SIP_HDR_ERROR_INFO; SIP_HDR_HISTORY_INFO; SIP_HDR_IN_REPLY_TO;
   SIP_HDR_P_ASSERTED_IDENTITY; SIP_HDR_P_ASSOCIATED_URI; SIP_HDR_P_EARLY_MEDIA;
   SIP_HDR_P_MEDIA_AUTHORIZATION; SIP_HDR_P_PREFERRED_IDENTITY; SIP_HDR_P_REFUSED_URI_LIST;
   SIP_HDR_P_VISITED_NETWORK_ID; SIP_HDR_PATH; SIP_HDR_PERMISSION_MISSING; SIP_HDR_PROXY_REQUIRE;
   SIP_HDR_REASON; SIP_HDR_RECORD_ROUTE; SIP_HDR_REJECT_CONTACT; SIP_HDR_REQUEST_DISPOSITION;
   SIP_HDR_REQUIRE; SIP_HDR_RESOURCE_PRIORITY; SIP_HDR_ROUTE; SIP_HDR_SECURITY_CLIENT;
   SIP_HDR_SECURITY_SERVER; SIP_HDR_SECURITY_VERIFY; SIP_HDR_SERVICE_ROUTE; SIP_HDR_SUPPORTED;
   SIP_HDR_TRIGGER_CONSENT; SIP_HDR_UNSUPPORTED; SIP_HDR_VIA; SIP_HDR_WARNING].
Definition hdr_comma_separated (id : Z) : bool := existsb (Z.eqb id) comma_separated.

(** ** The hash is perfect on these names *)

(** The compact forms and the names they stand for. *)
Definition compact_forms : list (string * string) :=
  [("a", "ACCEPT-CONTACT"); ("b", "REFERRED-BY"); ("c", "CONTENT-TYPE"); ("d", "REQUEST-DISPOSITION");
   ("e", "CONTENT-ENCODING"); ("f", "FROM"); ("i", "CALL-ID"); ("j", "REJECT-CONTACT"); ("k", "SUPPORTED");
   ("l", "CONTENT-LENGTH"); ("m", "CONTACT"); ("n", "IDENTITY-INFO"); ("o", "EVENT"); ("r", "REFER-TO");
   ("s", "SUBJECT"); ("t", "TO"); ("u", "ALLOW-EVENTS"); ("v", "VIA"); ("x", "SESSION-EXPIRES"); ("y", "IDENTITY")].

(** Equal up to the case of letters. *)
Definition same_case (v w : list Z) : Prop := map tolower v = map tolower w.

Lemma same_ascii c d : 0 <= d < 128 -> tolower c = tolower d -> u32 (tolower (s8 c)) = tolower d.
Proof.
  intros Hd E. assert (0 <= c < 128) as Hc.
  { unfold tolower in E. destruct ((65 <=? c) && (c <=? 90)) eqn:?, ((65 <=? d) && (d <=? 90)) eqn:?; lia. }
  assert (s8 c = c) as ->.
  { unfold s8, u8. rewrite Z.mod_small by lia. destruct (Z.ltb_spec c 128); lia. }
  rewrite E. apply u32_small. unfold tolower. case_match; lia.
Qed.

Lemma hash_same v w : Forall (fun c => 0 <= c < 128) w -> same_case v w ->
  Hash.hash_joaat_ci v = Hash.joaat tolower w.
Proof.
  unfold Hash.hash_joaat_ci, Hash.joaat, same_case. intros Hw E. f_equal. generalize 0. revert v E.
  induction Hw as [|d w Hd Hw IH]; intros [|c v] E h; try done. injection E as Ec E. simpl.
  rewrite (same_ascii c d) by done. by apply IH.
Qed.

(** A name as the table has it: no single letter, no extension, of ASCII characters. *)
Definition long_name (w : list Z) : bool :=
  match w with c0 :: c1 :: _ => negb ((tolower c0 =? 120) && (c1 =? 45)) | _ => false end &&
  forallb (fun c => (0 <=? c) && (c <? 128)) w.

Lemma hdr_hash_long p v w : long_name w = true -> same_case v w ->
  hdr_hash (mk_pl p v) = Z.land (Hash.joaat tolower w) 4095.
Proof.
  unfold long_name. intros [Hl Ha]%andb_true_iff E. unfold hdr_hash. cbn [pl_s].
  rewrite <- (hash_same v w); [|apply Forall_forall; intros c Hc%list_elem_of_In; rewrite forallb_forall in Ha;
    specialize (Ha c Hc); lia|done].
  destruct w as [|d0 [|d1 w]]; [done|done|]. destruct v as [|c0 [|c1 v]]; [done|done|].
  injection E as E0 E1 _. destruct (_ && (c1 =? _)) eqn:Ex; [|done]. exfalso.
  change (code "x"%char) with 120 in Ex. change (code "X"%char) with 88 in Ex. change (code "-"%char) with 45 in Ex.
  unfold tolower in *.
  destruct ((65 <=? c0) && (c0 <=? 90)) eqn:?, ((65 <=? d0) && (d0 <=? 90)) eqn:?,
    ((65 <=? c1) && (c1 <=? 90)) eqn:?, ((65 <=? d1) && (d1 <=? 90)) eqn:?; lia.
Qed.

Lemma ids_computed : forallb (fun '(s, id) => long_name (c_str s) && (Z.land (Hash.joaat tolower (c_str s)) 4095 =? id))
  sip_hdrid = true.
Proof. vm_compute. reflexivity. Qed.

(** Every identifier is the hash of the name it stands for, in whatever case it is
    written, no two names share one, all have twelve bits, and the letter of a compact
    form, in either case, has the identifier of its name. *)
Theorem hdr_ids_exact :
  (forall s id p w, (s, id) ∈ sip_hdrid -> same_case w (c_str s) -> hdr_hash (mk_pl p w) = id) /\
  NoDup (snd <$> sip_hdrid) /\ Forall (fun id => 0 <= id < 4096) (snd <$> sip_hdrid) /\
  (forall l s p q w v, (l, s) ∈ compact_forms -> same_case w (c_str l) -> same_case v (c_str s) ->
     hdr_hash (mk_pl p w) = hdr_hash (mk_pl q v)).
Proof.
  pose proof ids_computed as Hids. rewrite forallb_forall in Hids. split_and!.
  - intros s id p w Hin E. apply list_elem_of_In, Hids in Hin. rewrite andb_true_iff, Z.eqb_eq in Hin.
    rewrite (hdr_hash_long p w (c_str s)); tauto.
  - apply (bool_decide_unpack _). vm_compute. reflexivity.
  - apply (bool_decide_unpack _). vm_compute. reflexivity.
  - intros l s p q w v Hin El Es.
    assert (forallb (fun '(l, s) => match c_str l with
        [c] => (compact (tolower c) =? Z.land (Hash.joaat tolower (c_str s)) 4095) && long_name (c_str s)
      | _ => false end) compact_forms = true) as Hc by (vm_compute; reflexivity).
    rewrite forallb_forall in Hc. apply list_elem_of_In, Hc in Hin.
    destruct (c_str l) as [|c [|]]; [done| |done]. apply andb_true_iff in Hin as [Hin%Z.eqb_eq Hs].
    rewrite (hdr_hash_long q v (c_str s)) by done. rewrite <- Hin.
    destruct w as [|c' [|]]; [done| |done]. injection El as El. unfold hdr_hash. cbn [pl_s]. by rewrite El.
Qed.

(** It is not on other names: a field of the name Group is taken for To. *)
Example unknown_name : hdr_hash (mk_pl 1 (c_str "Group")) = SIP_HDR_TO.
Proof. vm_compute. reflexivity. Qed.

Lemma hdr_ids_exact_witness : hdr_hash (mk_pl 1 (c_str "call-ID")) = SIP_HDR_CALL_ID.
Proof.
  destruct hdr_ids_exact as [H _]. apply (H "CALL-ID" SIP_HDR_CALL_ID 1 (c_str "call-ID"));
    [|reflexivity].
  apply (bool_decide_unpack _). vm_compute. reflexivity.
Defined.

End SipId.
