(* ===== verification/SipMsg.v ===== *)
(** * SIP messages: src/libre/src/sip/msg.c

    The decoder of messages, which scans the start line and the header fields, splits
    those that are lists and decodes the common ones, and the functions that look header
    fields up.  The hash table of a message is that of [Hash].  The allocations are
    arguments: the [k]-th header field is at [news k], 0 if there is no memory.  [None] is
    undefined behaviour, and also a header field that would reach outside the message.
    The members that the transport sets, the destructors and the printer are left out. *)
From S2P Require Import Prelude Pl Hash Mbuf Regex Param Sa Uri SipHdr SipId.
Import Pl Regex Param Uri SipHdr SipId.

Module SipMsg.

(** ** Data *)

Record sip_hdr := mk_sip_hdr { name : pl; val : pl; id : Z }.

Record sip_msg := mk_sip_msg { ver : pl; met : pl; ruri : pl; uri : Uri.uri; scode : Z; reason : pl;
  hdrl : list sip_hdr; via : sip_via; to : sip_taddr; from : sip_taddr; cseq : sip_cseq; ctyp : msg_ctype;
  callid : pl; maxfwd : pl; expires : pl; clen : pl; hdrht : Hash.hash sip_hdr; mb : Z; tag : Z; req : bool }.

Definition HDR_HASH_SIZE : Z := 32.
Definition STARTLINE_MAX : Z := 8192.

(** Assignments to members. *)
Definition set_hdrl (m : sip_msg) (x : list sip_hdr) : sip_msg := mk_sip_msg
    (ver m) (met m) (ruri m) (uri m) (scode m) (reason m) x (via m) (to m) (from m) (cseq m) (ctyp m)
    (callid m) (maxfwd m) (expires m) (clen m) (hdrht m) (mb m) (tag m) (req m).
Definition set_hdrht (m : sip_msg) (x : Hash.hash sip_hdr) : sip_msg := mk_sip_msg
    (ver m) (met m) (ruri m) (uri m) (scode m) (reason m) (hdrl m) (via m) (to m) (from m) (cseq m)
    (ctyp m) (callid m) (maxfwd m) (expires m) (clen m) x (mb m) (tag m) (req m).
Definition set_via (m : sip_msg) (x : sip_via) : sip_msg := mk_sip_msg
    (ver m) (met m) (ruri m) (uri m) (scode m) (reason m) (hdrl m) x (to m) (from m) (cseq m) (ctyp m)
    (callid m) (maxfwd m) (expires m) (clen m) (hdrht m) (mb m) (tag m) (req m).
Definition set_to (m : sip_msg) (x : sip_taddr) : sip_msg := mk_sip_msg
    (ver m) (met m) (ruri m) (uri m) (scode m) (reason m) (hdrl m) (via m) x (from m) (cseq m) (ctyp m)
    (callid m) (maxfwd m) (expires m) (clen m) (hdrht m) (mb m) (tag m) (req m).
Definition set_from (m : sip_msg) (x : sip_taddr) : sip_msg := mk_sip_msg
    (ver m) (met m) (ruri m) (uri m) (scode m) (reason m) (hdrl m) (via m) (to m) x (cseq m) (ctyp m)
    (callid m) (maxfwd m) (expires m) (clen m) (hdrht m) (mb m) (tag m) (req m).
Definition set_cseq (m : sip_msg) (x : sip_cseq) : sip_msg := mk_sip_msg
    (ver m) (met m) (ruri m) (uri m) (scode m) (reason m) (hdrl m) (via m) (to m) (from m) x (ctyp m)
    (callid m) (maxfwd m) (expires m) (clen m) (hdrht m) (mb m) (tag m) (req m).
Definition set_ctyp (m : sip_msg) (x : msg_ctype) : sip_msg := mk_sip_msg
    (ver m) (met m) (ruri m) (uri m) (scode m) (reason m) (hdrl m) (via m) (to m) (from m) (cseq m) x
    (callid m) (maxfwd m) (expires m) (clen m) (hdrht m) (mb m) (tag m) (req m).
Definition set_callid (m : sip_msg) (x : pl) : sip_msg := mk_sip_msg
    (ver m) (met m) (ruri m) (uri m) (scode m) (reason m) (hdrl m) (via m) (to m) (from m) (cseq m)
    (ctyp m) x (maxfwd m) (expires m) (clen m) (hdrht m) (mb m) (tag m) (req m).
Definition set_maxfwd (m : sip_msg) (x : pl) : sip_msg := mk_sip_msg
    (ver m) (met m) (ruri m) (uri m) (scode m) (reason m) (hdrl m) (via m) (to m) (from m) (cseq m)
    (ctyp m) (callid m) x (expires m) (clen m) (hdrht m) (mb m) (tag m) (req m).
Definition set_expires (m : sip_msg) (x : pl) : sip_msg := mk_sip_msg
    (ver m) (met m) (ruri m) (uri m) (scode m) (reason m) (hdrl m) (via m) (to m) (from m) (cseq m)
    (ctyp m) (callid m) (maxfwd m) x (clen m) (hdrht m) (mb m) (tag m) (req m).
Definition set_clen (m : sip_msg) (x : pl) : sip_msg := mk_sip_msg
    (ver m) (met m) (ruri m) (uri m) (scode m) (reason m) (hdrl m) (via m) (to m) (from m) (cseq m)
    (ctyp m) (callid m) (maxfwd m) (expires m) x (hdrht m) (mb m) (tag m) (req m).

(** ** Adding a header field *)

Section Decode.
Context (inet_pton : Z -> list Z -> option (list Z)).

(** A To or From; the tag stays when the parameters have none. *)
Definition taddr_decode (t : sip_taddr) (v : pl) : option (Z * sip_taddr) :=
  '(err, a) ← sip_addr_decode inet_pton v;
  if negb (err =? 0) then Some (err, mk_sip_taddr a (SipHdr.tag t) (taddr_val t))
  else '(_, tg) ← msg_param_decode (addr_params a) (c_str "tag") (SipHdr.tag t); Some (0, mk_sip_taddr a tg v).

(** The second [switch] of [hdr_add]. *)
Definition parse_common (m : sip_msg) (h : sip_hdr) (atomic : bool) : option (Z * sip_msg) :=
  if id h =? SIP_HDR_VIA then
    if negb atomic || isset (sentby (via m)) then Some (0, m)
    else '(err, v) ← sip_via_decode inet_pton (via m) (val h); Some (err, set_via m v)
  else if id h =? SIP_HDR_TO then '(err, t) ← taddr_decode (to m) (val h); Some (err, set_to m t)
  else if id h =? SIP_HDR_FROM then '(err, t) ← taddr_decode (from m) (val h); Some (err, set_from m t)
  else if id h =? SIP_HDR_CALL_ID then Some (0, set_callid m (val h))
  else if id h =? SIP_HDR_CSEQ then '(err, c) ← sip_cseq_decode (cseq m) (val h); Some (err, set_cseq m c)
  else if id h =? SIP_HDR_MAX_FORWARDS then Some (0, set_maxfwd m (val h))
  else if id h =? SIP_HDR_CONTENT_TYPE then '(err, c) ← msg_ctype_decode (ctyp m) (val h); Some (err, set_ctyp m c)
  else if id h =? SIP_HDR_CONTENT_LENGTH then Some (0, set_clen m (val h))
  else if id h =? SIP_HDR_EXPIRES then Some (0, set_expires m (val h))
  else Some (0, m).

(** Which of the table and the list gets the field. *)
Definition tabled (h : sip_hdr) (atomic : bool) : bool := atomic.
Definition listed (h : sip_hdr) (atomic line : bool) : bool :=
  if (id h =? SIP_HDR_VIA) || (id h =? SIP_HDR_ROUTE) then atomic else line.

(** [a]: where the field is allocated. *)
Definition hdr_add (a : Z) (m : sip_msg) (nm : pl) (i : Z) (v : pl) (atomic line : bool) : option (Z * sip_msg) :=
  if a =? 0 then Some (ENOMEM, m)
  else
    let h := mk_sip_hdr nm v i in
    m ← (if tabled h atomic then ht ← Hash.hash_append (hdrht m) i a h; Some (set_hdrht m ht) else Some m);
    let m := if listed h atomic line then set_hdrl m (hdrl m ++ [h]) else m in
    parse_common m h atomic.

(** ** The scanner *)

Section Scan.
(** The message is [text] at [base]. *)
Context (news : nat -> Z) (base : Z) (text : list Z).

(** The [l] characters at [q]. *)
Definition slice (q l : Z) : option pl :=
  if (base <=? q) && (0 <=? l) && (q + l <=? base + Z.of_nat (length text))
  then Some (mk_pl q (take (Z.to_nat l) (drop (Z.to_nat (q - base)) text))) else None.

(** The local variables, with the number of fields allocated; the name is at [np]. *)
Record scan := mk_scan { msg : sip_msg; nalloc : nat; np : Z; nl : Z; hid : Z; v : Z; cv : Z;
  ws : Z; lf : Z; comsep : bool; quote : bool }.

Definition set_ws (s : scan) (w l : Z) : scan :=
  mk_scan (msg s) (nalloc s) (np s) (nl s) (hid s) (v s) (cv s) w l (comsep s) (quote s).
Definition set_name (s : scan) (p l i : Z) (c : bool) (w : Z) : scan :=
  mk_scan (msg s) (nalloc s) p l i (v s) (cv s) w (lf s) c (quote s).
Definition set_value (s : scan) (q c : Z) (qt : bool) (w : Z) : scan :=
  mk_scan (msg s) (nalloc s) (np s) (nl s) (hid s) q c w (lf s) (comsep s) qt.

(** The call of [hdr_add] for the value that starts at [q], if it has started. *)
Definition add (s : scan) (p q : Z) (atomic line : bool) : option (Z * scan) :=
  nm ← slice (np s) (nl s);
  v1 ← (if negb (q =? 0) then slice q (Z.max (p - q - ws s) 0) else slice p 0);
  '(err, m) ← hdr_add (news (nalloc s)) (msg s) nm (hid s) v1 atomic line;
  Some (err, mk_scan m (S (nalloc s)) (np s) (nl s) (hid s) (v s) (cv s) (ws s) (lf s) (comsep s) (quote s)).

(** Out of the loop with an error, the next character, or on with this one. *)
Inductive flow := Out (err : Z) (s : scan) | Next (s : scan) | On (s : scan).

(** A value has ended, before the character at [p]. *)
Definition value_end (p : Z) (s : scan) : option flow :=
  if nl s =? 0 then Some (Out EBADMSG s)
  else
    '(err, s) ← add s p (cv s) true ((cv s =? v s) && negb (lf s =? 0));
    if negb (err =? 0) then Some (Out err s)
    else if lf s =? 0 then Some (Next (set_value s (v s) 0 (quote s) (ws s)))
    else
      '(err, s) ← (if negb (cv s =? v s) then add s p (v s) false true else Some (0, s));
      if negb (err =? 0) then Some (Out err s)
      else if 1 <? lf s then Some (Out 0 s)
      else Some (On (mk_scan (msg s) (nalloc s) 0 (nl s) (hid s) 0 0 (ws s) 0 false (quote s))).

(** The rest of the default case: a character of a name or of a value. *)
Definition char (c p : Z) (s : scan) : flow :=
  let s := if np s =? 0 then set_name s p 0 (hid s) (comsep s) 0 else s in
  if nl s =? 0 then
    if negb (c =? code ":"%char) then Next (set_ws s 0 (lf s))
    else
      let l := Z.max (s32 (p - np s - ws s)) 0 in
      let s := set_name s (np s) l (hid s) (comsep s) (ws s) in
      if l =? 0 then Out EBADMSG s
      else
        let i := hdr_hash (mk_pl (np s) (take (Z.to_nat l) (drop (Z.to_nat (np s - base)) text))) in
        Next (set_name s (np s) l i (hdr_comma_separated i) (ws s))
  else
    let qt := if cv s =? 0 then false else quote s in
    let qt := if c =? 34 then negb qt else qt in
    Next (set_value s (if v s =? 0 then p else v s) (if cv s =? 0 then p else cv s) qt 0).

Definition default_case (c p : Z) (s : scan) : option flow :=
  f ← (if negb (lf s =? 0) || ((c =? code ","%char) && comsep s && negb (quote s)) then value_end p s
       else Some (On s));
  Some (match f with On s => char c p s | f => f end).

(** The loop; [t] is the text from [p] on.  Also what is left of it in the end.  At the
    end of the header the value that ends is the last thing. *)
Fixpoint scan_loop (t : list Z) (p : Z) (s : scan) : option (Z * scan * list Z) :=
  match t with
  | [] => Some (ENODATA, s, [])
  | c :: r =>
      if (c =? 32) || (c =? 9) then scan_loop r (p + 1) (set_ws s (u32 (ws s + 1)) 0)
      else if c =? 13 then scan_loop r (p + 1) (set_ws s (u32 (ws s + 1)) (lf s))
      else if (c =? 10) && (lf s =? 0) then scan_loop r (p + 1) (set_ws s (u32 (ws s + 1)) 1)
      else if c =? 10 then
        f ← value_end (p + 1) (set_ws s (u32 (ws s + 1)) (u32 (lf s + 1)));
        match f with Out err s => Some (err, s, r) | _ => None end
      else
        f ← default_case c p s;
        match f with
        | Out err s => Some (err, s, t)
        | Next s | On s => scan_loop r (p + 1) s
        end
  end.
End Scan.

(** ** The message *)

Definition via0 : sip_via := mk_sip_via pl_null (Sa.mk_sa 0 (Sa.zeros 2) (Sa.zeros 4) (Sa.zeros 16) 0) pl_null
  pl_null pl_null TRANSP_NONE.
Definition taddr0 : sip_taddr := mk_sip_taddr addr0 pl_null pl_null.

Definition start_line : list Z := c_str "[^ \t\r\n]+ [^ \t\r\n]+ [^\r\n]*[\r]*[\n]1".

(** The members that the start line sets, or an error. *)
Definition start_decode (m : sip_msg) (x y z : pl) : option (Z * sip_msg) :=
  if req m then
    let m := mk_sip_msg z x y (uri m) (scode m) (reason m) (hdrl m) (via m) (to m) (from m) (cseq m) (ctyp m)
               (callid m) (maxfwd m) (expires m) (clen m) (hdrht m) (mb m) (tag m) (req m) in
    '(err, u) ← uri_decode inet_pton y;
    let m := mk_sip_msg (ver m) (met m) (ruri m) u (scode m) (reason m) (hdrl m) (via m) (to m) (from m) (cseq m)
               (ctyp m) (callid m) (maxfwd m) (expires m) (clen m) (hdrht m) (mb m) (tag m) (req m) in
    Some (if negb (err =? 0) then EBADMSG else 0, m)
  else
    let m := mk_sip_msg x (met m) (ruri m) (uri m) (u16 (pl_u32 (Some y))) z (hdrl m) (via m) (to m) (from m)
               (cseq m) (ctyp m) (callid m) (maxfwd m) (expires m) (clen m) (hdrht m) (mb m) (tag m) (req m) in
    Some (if scode m =? 0 then EBADMSG else 0, m).

(** The message after [mem_zalloc] and the assignments of [tag], [mb] and [req]. *)
Definition new_msg (pb rand : Z) (ht : Hash.hash sip_hdr) (rq : bool) : sip_msg :=
  mk_sip_msg pl_null pl_null pl_null uri0 0 pl_null [] via0 taddr0 taddr0 (mk_sip_cseq pl_null 0)
    (mk_msg_ctype pl_null pl_null pl_null) pl_null pl_null pl_null pl_null ht pb rand rq.

(** [b] is the buffer at [pb], with [text] left in it.  [ok]: whether the message and its
    table can be allocated; [rand]: the random number.  The results are the error code,
    the message and the buffer. *)
Definition sip_msg_decode (pb : Z) (b : Mbuf.mbuf) (text : list Z) (ok1 ok2 : bool) (rand : Z) (news : nat -> Z) :
    option (Z * option sip_msg * Mbuf.mbuf) :=
  let p := if Mbuf.buf b =? 0 then 0 else Mbuf.buf b + Mbuf.pos b in
  let bad := if STARTLINE_MAX <? Z.of_nat (length text) then EBADMSG else ENODATA in
  '(err, os) ← re_regex (mk_pl p text) start_line [true; true; true; false; true];
  if negb (err =? 0) then Some (bad, None, b)
  else
    x ← arg os 0; y ← arg os 1; z ← arg os 2; e ← arg os 4;
    if negb (pl_p x =? p) then Some (bad, None, b)
    else if negb ok1 then Some (ENOMEM, None, b)
    else
      let '(err, ht) := Hash.hash_alloc HDR_HASH_SIZE ok2 in
      match ht with
      | None => Some (err, None, b)
      | Some ht =>
          let m := new_msg pb rand ht (pl_strcmp (Some z) (Some (mk_pl 1 (c_str "SIP/2.0"))) =? 0) in
          '(err, m) ← start_decode m x y z;
          if negb (err =? 0) then Some (err, None, b)
          else
            let q := pl_p e + pl_l e in
            '(err, s, r) ← scan_loop news p text (drop (Z.to_nat (q - p)) text) q
                             (mk_scan m 0 0 0 SIP_HDR_NONE 0 0 0 0 false false);
            if negb (err =? 0) then Some (err, None, b)
            else Some (0, Some (msg s), Mbuf.mk_mbuf (Mbuf.buf b) (Mbuf.size b)
                                          (Mbuf.end_ b - Z.of_nat (length r)) (Mbuf.end_ b))
      end.

End Decode.

(** ** Looking header fields up *)

Section Apply.
Context {W : Type}.

(** [h]: the handler, [None] for a null pointer. *)
Fixpoint apply_hdrs (sel : sip_hdr -> bool) (h : option (sip_hdr -> W -> bool * W)) (l : list sip_hdr) (w : W) :
    option sip_hdr * W :=
  match l with
  | [] => (None, w)
  | hdr :: l =>
      if negb (sel hdr) then apply_hdrs sel h l w
      else match h with
      | None => (Some hdr, w)
      | Some f => let '(b, w) := f hdr w in if b : bool then (Some hdr, w) else apply_hdrs sel h l w
      end
  end.

Definition bucket_of (m : sip_msg) (fwd : bool) (key : Z) : option (list sip_hdr) :=
  l ← Hash.hash_list (hdrht m) key; let l := map Hash.edata l in Some (if fwd then l else rev l).

Definition sip_msg_hdr_apply (m : sip_msg) (fwd : bool) (i : Z) (h : option (sip_hdr -> W -> bool * W)) (w : W) :
    option (option sip_hdr * W) :=
  l ← bucket_of m fwd i; Some (apply_hdrs (fun hdr => id hdr =? i) h l w).

(** The string [nm] is a constant or a buffer of the caller. *)
Definition sip_msg_xhdr_apply (m : sip_msg) (fwd : bool) (nm : pl) (h : option (sip_hdr -> W -> bool * W)) (w : W) :
    option (option sip_hdr * W) :=
  l ← bucket_of m fwd (hdr_hash nm);
  Some (apply_hdrs (fun hdr => pl_casecmp (Some (name hdr)) (Some nm) =? 0) h l w).
End Apply.

Definition sip_msg_hdr (m : sip_msg) (i : Z) : option (option sip_hdr) :=
  r ← sip_msg_hdr_apply m true i None tt; Some (fst r).
Definition sip_msg_xhdr (m : sip_msg) (nm : pl) : option (option sip_hdr) :=
  r ← sip_msg_xhdr_apply m true nm None tt; Some (fst r).

Definition count_handler (hdr : sip_hdr) (n : Z) : bool * Z := (false, u32 (n + 1)).
Definition sip_msg_hdr_count (m : sip_msg) (i : Z) : option Z :=
  r ← sip_msg_hdr_apply m true i (Some count_handler) 0; Some (snd r).
Definition sip_msg_xhdr_count (m : sip_msg) (nm : pl) : option Z :=
  r ← sip_msg_xhdr_apply m true nm (Some count_handler) 0; Some (snd r).

Definition value_handler (value : pl) (hdr : sip_hdr) (w : unit) : bool * unit :=
  (pl_strcasecmp (Some (val hdr)) (Some value) =? 0, w).
Definition sip_msg_hdr_has_value (m : sip_msg) (i : Z) (value : pl) : option bool :=
  r ← sip_msg_hdr_apply m true i (Some (value_handler value)) tt; Some (bool_decide (is_Some (fst r))).
Definition sip_msg_xhdr_has_value (m : sip_msg) (nm value : pl) : option bool :=
  r ← sip_msg_xhdr_apply m true nm (Some (value_handler value)) tt; Some (bool_decide (is_Some (fst r))).

End SipMsg.
