(* ===== verification/SipScan.v ===== *)
(** * The decoder of SIP messages is safe and reads lines

    Theorems about [SipMsg.sip_msg_decode]: it is defined on every text, the header fields
    of a message lie inside its buffer, and what it makes of a well-formed message is what
    adding the values of its lines one by one makes. *)
From S2P Require Import Prelude Pl Hash Mbuf Regex Param Sa Uri SipHdr SipId SipMsg.
Import Pl Regex Param Uri SipHdr SipId SipMsg.

Module SipScan.

(** ** The decoders of header fields are defined on every text *)

(** Runs the next expression, whose results are [err] and [os]. *)
Ltac run_regex err os H :=
  match goal with |- is_Some (mbind _ (re_regex ?x ?e ?a)) =>
    let v := eval vm_compute in (items e) in
    lazymatch v with Some ?its =>
      destruct (re_regex_defined x e a its) as (err&os&->&H);
        [vm_compute; reflexivity|discriminate|cbn; lia|]; cbn [mbind option_bind]
    end
  end.
(** What an expression that matched has stored in its argument [i]. *)
Ltac stored_arg H i c :=
  let E := fresh in
  destruct (H eq_refl i) as [c E]; [cbn; lia|reflexivity|]; rewrite E; cbn [mbind option_bind]; clear E.
Ltac err_case err := destruct (Z.eqb_spec err 0); [subst err|]; cbn [negb].

Lemma hostport_defined x h p : is_Some (Uri.decode_hostport x h p).
Proof. unfold Uri.decode_hostport. run_regex err os H. err_case err; [by eexists|]. run_regex err2 os2 H2. by eexists. Qed.

Lemma uri_decode_defined inet_pton x : is_Some (uri_decode inet_pton x).
Proof.
  unfold uri_decode. run_regex err os H.
  set (r := if err =? 0 then _ else _). assert (exists e u q, r = Some (e, u, q)) as (e&u&q&->).
  { unfold r. err_case err; [|by do 3 eexists]. stored_arg H 4%nat c.
    match goal with |- context [Uri.decode_hostport ?a ?b ?c] => destruct (hostport_defined a b c) as [[[??]?] ->] end.
    cbn [mbind option_bind]. by do 3 eexists. }
  cbn [mbind option_bind]. clear H. err_case e; [by eexists|]. run_regex err2 os2 H. err_case err2; [|by eexists].
  stored_arg H 1%nat c.
  match goal with |- context [Uri.decode_hostport ?a ?b ?c] => destruct (hostport_defined a b c) as [[[e2 ?]?] ->] end.
  cbn [mbind option_bind]. case_match; by eexists.
Qed.

Lemma addr_decode_defined inet_pton x : is_Some (sip_addr_decode inet_pton x).
Proof.
  unfold sip_addr_decode. run_regex err os H.
  set (r := if err =? 0 then _ else _). assert (is_Some r) as [[a|] ->].
  { unfold r. err_case err; [by eexists|]. run_regex err2 os2 H2. by eexists. }
  2: { by eexists. }
  cbn [mbind option_bind]. destruct (uri_decode_defined inet_pton (auri a)) as [[e u] ->].
  cbn [mbind option_bind]. by eexists.
Qed.

Lemma cseq_decode_defined c x : is_Some (sip_cseq_decode c x).
Proof.
  unfold sip_cseq_decode. run_regex err os H. err_case err; [|by eexists]. stored_arg H 0%nat c1. by eexists.
Qed.

Lemma ctype_decode_defined c x : is_Some (msg_ctype_decode c x).
Proof.
  unfold msg_ctype_decode. run_regex err os H. err_case err; [|by eexists]. stored_arg H 0%nat c1. by case_match; eexists.
Qed.

Lemma param_decode_defined x nm v : forallb tok nm = true -> (length nm <= 64)%nat -> is_Some (msg_param_decode x nm v).
Proof.
  intros Hnm Hl. unfold msg_param_decode.
  rewrite re_snprintf_fits; cbn [concat]; rewrite ?app_nil_r;
    [|rewrite !length_app; change (length (c_str ";[ \t\r\n]*")) with 8%nat;
      change (length (c_str "[ \t\r\n]*=[ \t\r\n]*[~ \t\r\n;]+")) with 24%nat; lia].
  destruct (re_regex_defined x _ [false; false; false; true] _ (decode_compiles nm Hnm)) as (err&os&->&H);
    [discriminate|unfold decode_items; cbn [classes]; rewrite classes_lits; cbn; lia|]. cbn [mbind option_bind].
  err_case err; [|by eexists].
  destruct (H eq_refl 3%nat) as [c Hc]; [unfold decode_items; cbn [classes]; rewrite classes_lits; cbn; lia|done|].
  rewrite Hc. by eexists.
Qed.

Lemma via_decode_defined inet_pton w x : is_Some (sip_via_decode inet_pton w x).
Proof.
  unfold sip_via_decode. run_regex err os H. err_case err; [|by eexists]. stored_arg H 4%nat tp.
  change SipHdr.decode_hostport with Uri.decode_hostport.
  match goal with |- context [Uri.decode_hostport ?a ?b ?c] => destruct (hostport_defined a b c) as [[[e2 ?]?] ->] end.
  cbn [mbind option_bind]. err_case e2; [|by eexists].
  match goal with |- context [msg_param_decode ?a ?b ?c] =>
    destruct (param_decode_defined a b c) as [[??] ->]; [reflexivity|apply Nat.leb_le; reflexivity|] end.
  by eexists.
Qed.

Lemma taddr_decode_defined inet_pton t x : is_Some (taddr_decode inet_pton t x).
Proof.
  unfold taddr_decode. destruct (addr_decode_defined inet_pton x) as [[e a] ->]. cbn [mbind option_bind].
  err_case e; [|by eexists].
  match goal with |- context [msg_param_decode ?a ?b ?c] =>
    destruct (param_decode_defined a b c) as [[??] ->]; [reflexivity|apply Nat.leb_le; reflexivity|] end.
  by eexists.
Qed.

(** ** The scanner stays inside the text *)

Section Safe.
Context (inet_pton : Z -> list Z -> option (list Z)) (news : nat -> Z) (base : Z) (text : list Z).
Context (Hbase : 0 < base) (Hlen : Z.of_nat (length text) < 2147483648).

Abbreviation stop := (base + Z.of_nat (length text)).

(** A string of the text. *)
Definition within (x : pl) : Prop := slice base text (pl_p x) (pl_l x) = Some x.
Definition hdr_in (h : sip_hdr) : Prop := within (name h) /\ within (val h).

Record msg_ok (m : sip_msg) : Prop := {
  ok_bsize : Hash.bsize (hdrht m) = HDR_HASH_SIZE;
  ok_buckets : length (Hash.bucket (hdrht m)) = 32%nat;
  ok_table : Forall (Forall (fun e => hdr_in (Hash.edata e))) (Hash.bucket (hdrht m));
  ok_list : Forall hdr_in (hdrl m) }.

Lemma slice_some q l : base <= q -> 0 <= l -> q + l <= stop -> exists x, slice base text q l = Some x /\ within x.
Proof.
  intros Hq Hl Hs. unfold within, slice.
  destruct (Z.leb_spec base q), (Z.leb_spec 0 l), (Z.leb_spec (q + l) stop); try lia. cbn [andb].
  eexists. split; [reflexivity|]. unfold pl_l. cbn [pl_p pl_s]. rewrite length_take, length_drop.
  replace (Z.of_nat (Z.to_nat l `min` (length text - Z.to_nat (q - base)))) with l by lia.
  destruct (Z.leb_spec base q), (Z.leb_spec 0 l), (Z.leb_spec (q + l) stop); (lia || done).
Qed.

Lemma parse_common_defined m h atomic : exists e m', parse_common inet_pton m h atomic = Some (e, m') /\
  hdrl m' = hdrl m /\ hdrht m' = hdrht m.
Proof.
  unfold parse_common.
  repeat match goal with
  | |- context [if ?b then _ else _] => destruct b
  | |- context [sip_via_decode ?i ?a ?b] => destruct (via_decode_defined i a b) as [[??] ->]; cbn [mbind option_bind]
  | |- context [taddr_decode ?i ?a ?b] => destruct (taddr_decode_defined i a b) as [[??] ->]; cbn [mbind option_bind]
  | |- context [sip_cseq_decode ?a ?b] => destruct (cseq_decode_defined a b) as [[??] ->]; cbn [mbind option_bind]
  | |- context [msg_ctype_decode ?a ?b] => destruct (ctype_decode_defined a b) as [[??] ->]; cbn [mbind option_bind]
  end; by do 2 eexists.
Qed.

Lemma hdr_add_defined a m nm i w atomic line : msg_ok m -> within nm -> within w ->
  exists e m', hdr_add inet_pton a m nm i w atomic line = Some (e, m') /\ msg_ok m'.
Proof.
  intros [H1 H2 H3 H4] Hn Hw. unfold hdr_add. destruct (a =? 0); [by do 2 eexists|].
  set (h := mk_sip_hdr nm w i). assert (hdr_in h) as Hh by by split.
  set (r := if tabled h atomic then _ else _). assert (exists m1, r = Some m1 /\ msg_ok m1) as (m1&->&[]).
  { unfold r. destruct (tabled h atomic); [|by eexists]. unfold Hash.hash_append, Hash.index. rewrite H1.
    destruct (lookup_lt_is_Some_2 (Hash.bucket (hdrht m)) (Z.to_nat (Z.land i (u32 (HDR_HASH_SIZE - 1))))) as [l El].
    { rewrite H2. change (u32 (HDR_HASH_SIZE - 1)) with (Z.ones 5). rewrite Z.land_ones by done.
      pose proof (Z.mod_pos_bound i (2 ^ 5) eq_refl). lia. }
    rewrite El. cbn [mbind option_bind]. eexists. split; [reflexivity|].
    split; cbn [hdrht hdrl set_hdrht Hash.bsize Hash.bucket]; [done|by rewrite length_insert| |done].
    apply Forall_insert; [done|]. apply Forall_app. split; [by eapply Forall_lookup_1|by constructor]. }
  cbn [mbind option_bind].
  destruct (parse_common_defined (if listed h atomic line then set_hdrl m1 (hdrl m1 ++ [h]) else m1) h atomic)
    as (e&m2&->&El&Eh).
  do 2 eexists. split; [reflexivity|].
  split; rewrite ?El, ?Eh; destruct (listed h atomic line); cbn [hdrl hdrht set_hdrl]; try done.
  apply Forall_app. split; [done|]. by constructor.
Qed.

(** What holds in front of the character at [p]. *)
Record scan_ok (p : Z) (s : scan) : Prop := {
  so_msg : msg_ok (msg s);
  so_p : base <= p <= stop;
  so_np : np s = 0 \/ base <= np s <= p;
  so_nl : 0 <= nl s;
  so_name : nl s <> 0 -> np s <> 0 -> np s + nl s <= p;
  so_none : np s = 0 -> nl s = 0;
  so_v : v s = 0 \/ base <= v s <= p;
  so_cv : cv s = 0 \/ base <= cv s <= p;
  so_ws : 0 <= ws s <= p - base;
  so_lf : 0 <= lf s <= 2 }.

Lemma add_defined p s q atomic line : scan_ok p s -> np s <> 0 -> nl s <> 0 -> q = 0 \/ base <= q <= p ->
  exists e s', add inet_pton news base text s p q atomic line = Some (e, s') /\ scan_ok p s' /\
    np s' = np s /\ nl s' = nl s /\ v s' = v s /\ cv s' = cv s /\ lf s' = lf s.
Proof.
  intros H Hnp Hnl Hq. pose proof H as [Hm Hp Hn Hl Hname Hnone Hv Hcv Hws Hlf]. unfold add.
  destruct (slice_some (np s) (nl s)) as (nm&->&Hnm); [lia|lia|lia|]. cbn [mbind option_bind].
  set (r := if negb (q =? 0) then _ else _). assert (exists w, r = Some w /\ within w) as (w&->&Hw).
  { unfold r. destruct (Z.eqb_spec q 0); cbn [negb]; apply slice_some; lia. }
  cbn [mbind option_bind].
  destruct (hdr_add_defined (news (nalloc s)) (msg s) nm (hid s) w atomic line) as (e&m&->&Hm'); [done..|].
  cbn [mbind option_bind]. do 2 eexists. split; [reflexivity|]. by split; [split|].
Qed.

(** The value that ends in front of [p] may be followed by the end of the header only. *)
Lemma value_end_defined p s : scan_ok p s -> (nl s <> 0 -> np s <> 0) ->
  exists f, value_end inet_pton news base text p s = Some f /\
    match f with
    | Out _ s' => msg_ok (msg s')
    | Next s' => scan_ok p s' /\ lf s' = lf s /\ lf s = 0 /\ nl s' <> 0
    | On s' => lf s <> 2 /\ msg_ok (msg s') /\ np s' = 0 /\ v s' = 0 /\ cv s' = 0 /\ lf s' = 0 /\ 0 <= ws s' <= p - base /\ 0 <= nl s'
    end.
Proof.
  intros H Hnp. unfold value_end. destruct (Z.eqb_spec (nl s) 0) as [|Hnl]; [eexists; split; [done|apply H]|].
  pose proof H as [Hm Hp Hn Hl Hname Hnone Hv Hcv Hws Hlf].
  destruct (add_defined p s (cv s) true ((cv s =? v s) && negb (lf s =? 0)) H (Hnp Hnl) Hnl Hcv)
    as (e&s1&->&H1&E1&E2&E3&E4&E5). cbn [mbind option_bind].
  err_case e; [|eexists; split; [done|apply H1]]. destruct (Z.eqb_spec (lf s1) 0) as [E0|E0].
  { eexists. split; [done|]. destruct H1 as [? ? ? ? ? ? ? ? ? ?]. split; [split|]; cbn; try done; [by left|].
    split_and!; [done|congruence|congruence]. }
  set (r := if negb (cv s1 =? v s1) then _ else _).
  assert (exists e2 s2, r = Some (e2, s2) /\ scan_ok p s2 /\ lf s2 = lf s1) as (e2&s2&->&H2&E6).
  { unfold r. destruct (Z.eqb_spec (cv s1) (v s1)); cbn [negb]; [by do 2 eexists|].
    destruct (add_defined p s1 (v s1) false true H1) as (e2&s2&->&H2&_&_&_&_&?); [rewrite E1; by apply Hnp|congruence|apply H1|].
    by do 2 eexists. }
  cbn [mbind option_bind]. err_case e2; [|eexists; split; [done|apply H2]].
  destruct (Z.ltb_spec 1 (lf s2)); [eexists; split; [done|apply H2]|].
  eexists. split; [done|]. destruct H2. cbn. split_and!; (done || lia).
Qed.

Lemma char_defined c p s : msg_ok (msg s) -> base <= p < stop -> lf s = 0 -> 0 <= ws s <= p - base -> 0 <= nl s ->
  np s = 0 \/ base <= np s <= p -> v s = 0 \/ base <= v s <= p -> cv s = 0 \/ base <= cv s <= p ->
  (nl s <> 0 -> np s <> 0 -> np s + nl s <= p) ->
  match char base text c p s with
  | Out _ s' => msg_ok (msg s')
  | Next s' | On s' => scan_ok (p + 1) s' /\ (nl s' <> 0 -> np s' <> 0) /\ lf s' = 0
  end.
Proof.
  intros Hm Hp Hlf Hws Hl Hn Hv Hcv Hname. unfold char.
  set (s1 := if np s =? 0 then _ else s).
  assert (msg s1 = msg s /\ lf s1 = 0 /\ 0 <= ws s1 <= p - base /\ 0 <= nl s1 /\ base <= np s1 <= p /\
    (nl s1 <> 0 -> np s1 + nl s1 <= p) /\ v s1 = v s /\ cv s1 = cv s) as (E1&E2&E3&E4&E5&E6&E7&E8).
  { unfold s1. destruct (Z.eqb_spec (np s) 0); cbn; split_and!; (done || lia || auto). }
  clearbody s1. destruct (Z.eqb_spec (nl s1) 0) as [E9|E9].
  - destruct (Z.eqb_spec c (code ":"%char)); cbn [negb].
    2: { split_and!; [|cbn; lia|done]. split; cbn; rewrite ?E1, ?E7, ?E8; (done || lia || tauto). }
    set (l := Z.max _ 0). assert (0 <= l <= p - np s1) as Hl'.
    { unfold l. rewrite s32_small by (destruct E5; lia). lia. }
    destruct (Z.eqb_spec l 0); [cbn; by rewrite E1|].
    split_and!; [|cbn; lia|done]. split; cbn; rewrite ?E1, ?E7, ?E8; (done || lia || tauto).
  - split_and!; [|cbn; lia|done].
    split; cbn; rewrite ?E1, ?E7, ?E8; try done; try lia; try (destruct (Z.eqb_spec (v s) 0), (Z.eqb_spec (cv s) 0); lia).
Qed.

Lemma scan_loop_defined t : forall p s, scan_ok p s -> (nl s <> 0 -> np s <> 0) -> lf s < 2 -> p + Z.of_nat (length t) = stop ->
  exists e s' r, scan_loop inet_pton news base text t p s = Some (e, s', r) /\ msg_ok (msg s') /\
    (length r <= length t)%nat.
Proof.
  induction t as [|c t IH]; intros p s H Hnp Hlf Hp; cbn [scan_loop length] in *.
  { do 3 eexists. split; [done|]. split; [apply H|done]. }
  assert (forall w l, 0 <= w <= p + 1 - base -> 0 <= l <= 2 -> scan_ok (p + 1) (set_ws s w l)) as Hset.
  { intros w l Hw Hl. destruct H. split; cbn; (done || lia || tauto). }
  assert (forall s1, scan_ok (p + 1) s1 -> (nl s1 <> 0 -> np s1 <> 0) -> lf s1 < 2 -> exists e s' r,
    scan_loop inet_pton news base text t (p + 1) s1 = Some (e, s', r) /\ msg_ok (msg s') /\ (length r <= S (length t))%nat) as Hgo.
  { intros s1 H1 Hn1 Hl1. destruct (IH (p + 1) s1 H1 Hn1 Hl1) as (e&s'&r&?&?&?); [lia|]. exists e, s', r. split_and!; [done..|lia]. }
  assert (u32 (ws s + 1) = ws s + 1) as Ew by (apply u32_small; destruct H; lia). rewrite Ew. pose proof (so_ws _ _ H) as Hw. pose proof (so_lf _ _ H) as Hl0.
  destruct (_ || (c =? 9)); [apply Hgo; [apply Hset; lia|done|cbn; lia]|].
  destruct (c =? 13); [apply Hgo; [apply Hset; lia|done|cbn; lia]|].
  destruct (c =? 10); cbn [andb].
  { destruct (Z.eqb_spec (lf s) 0); [apply Hgo; [apply Hset; lia|done|cbn; lia]|].
    assert (u32 (lf s + 1) = 2) as -> by (rewrite u32_small; lia).
    destruct (value_end_defined (p + 1) (set_ws s (ws s + 1) 2)) as (f&->&Hf); [apply Hset; lia|done|].
    cbn [mbind option_bind]. destruct f as [e s'|s'|s']; cbn in Hf; [|lia|lia].
    do 3 eexists. split; [done|]. split; [done|lia]. }
  unfold default_case. destruct (_ || _ && _) eqn:Eb.
  - destruct (value_end_defined p s H Hnp) as (f&->&Hf). cbn [mbind option_bind]. destruct f as [e s'|s'|s'].
    + do 3 eexists. split; [done|]. split; [done|cbn; lia].
    + destruct Hf as (H'&El&E0&Enl). apply Hgo; [|intros _|lia].
      * destruct H'. split; (done || lia).
      * intros E. apply Enl. by apply (so_none _ _ H').
    + destruct Hf as (_&Hm&E1&E2&E3&E4&E5&E6).
      pose proof (char_defined c p s' Hm ltac:(lia) E4 E5 E6 (or_introl E1) (or_introl E2) (or_introl E3) ltac:(lia)) as Hc.
      destruct (char base text c p s') as [e s2|s2|s2]; [|destruct Hc as (?&?&?); apply Hgo; (done || lia)..].
      do 3 eexists. split; [done|]. split; [done|cbn; lia].
  - apply orb_false_iff in Eb as [Elf%negb_false_iff%Z.eqb_eq _]. cbn [mbind option_bind]. destruct H.
    pose proof (char_defined c p s so_msg0 ltac:(lia) Elf so_ws0 so_nl0 so_np0 so_v0 so_cv0 so_name0) as Hc.
    destruct (char base text c p s) as [e s2|s2|s2]; [|destruct Hc as (?&?&?); apply Hgo; (done || lia)..].
    do 3 eexists. split; [done|]. split; [done|cbn; lia].
Qed.

End Safe.

(** ** The start line *)

Definition start_items : list item :=
  let word := Cls (map single [32; 9; 13; 10]) true false 1 UINT32_MAX in
  [word; Lit 32; word; Lit 32; Cls (map single [13; 10]) true false 0 UINT32_MAX;
   Cls [single 13] false false 0 UINT32_MAX; Cls [single 10] false false 1 1].

(** The line, and what is behind it. *)
Record start := mk_start { w1 : list Z; w2 : list Z; w3 : list Z; crs : list Z; rest : list Z }.
Definition start_text (l : start) : list Z := w1 l ++ 32 :: w2 l ++ 32 :: w3 l ++ crs l ++ [10].
Definition start_outs (p : Z) (l : start) : list (option pl) :=
  let q := p + Z.of_nat (length (w1 l)) + 1 in
  let r := q + Z.of_nat (length (w2 l)) + 1 in
  [Some (mk_pl p (w1 l)); Some (mk_pl q (w2 l)); Some (mk_pl r (w3 l)); None;
   Some (mk_pl (r + Z.of_nat (length (w3 l)) + Z.of_nat (length (crs l))) [10])].

Lemma start_args p l :
  let q := p + Z.of_nat (length (w1 l)) + 1 in
  let r := q + Z.of_nat (length (w2 l)) + 1 in
  arg (start_outs p l) 0 = Some (mk_pl p (w1 l)) /\ arg (start_outs p l) 1 = Some (mk_pl q (w2 l)) /\
  arg (start_outs p l) 2 = Some (mk_pl r (w3 l)) /\
  arg (start_outs p l) 4 = Some (mk_pl (r + Z.of_nat (length (w3 l)) + Z.of_nat (length (crs l))) [10]).
Proof. done. Qed.

Lemma start_items_ok : items start_line = Some start_items.
Proof. vm_compute. reflexivity. Qed.

Lemma matches_space its p t caps : matches (Lit 32 :: its) p t caps ->
  exists r, t = 32 :: r /\ matches its (p + 1) r caps.
Proof. intros (c&r&->&E&H)%matches_lit. symmetry in E. apply tolower_fix in E as ->; [by exists r|done]. Qed.

Lemma start_matches p t caps : matches start_items p t caps -> exists l, t = start_text l ++ rest l /\
  stored [true; true; true; false; true] caps = start_outs p l.
Proof.
  intros (a&t1&caps1&->&->&_&_&(t2&->&H)%matches_space)%matches_class.
  apply matches_class in H as (b&t3&caps2&->&->&_&_&(t4&->&H)%matches_space).
  apply matches_class in H as (d&t5&caps3&->&->&_&_&H). apply matches_class in H as (f&t6&caps4&->&->&_&_&H).
  apply matches_class in H as (g&t7&caps5&->&->&Hl&Hg&H). inversion H; subst.
  destruct g as [|c [|]]; cbn [length] in Hl; [lia| |lia].
  assert (c = 10) as ->. { revert Hg. cbn. unfold in_class, in_chr, single. cbn. unfold tolower. case_match; lia. }
  exists (mk_start a b d f t7). split; [|done]. unfold start_text. cbn.
  by list_simplifier.
Qed.

Lemma start_inv p text : p <> 0 ->
  (exists os, re_regex (mk_pl p text) start_line [true; true; true; false; true] = Some (ENOENT, os)) \/
  (exists i l, (i < length text)%nat /\ drop i text = start_text l ++ rest l /\
     re_regex (mk_pl p text) start_line [true; true; true; false; true] = Some (0, start_outs (p + Z.of_nat i) l)).
Proof.
  intros Hp. destruct (re_regex_inv [true; true; true; false; true] start_line start_items (mk_pl p text))
    as [(i&caps&Hi&(l&Et&Es)%start_matches&E)|(os&E)];
    [exact start_items_ok|discriminate|cbn; lia|done| |].
  - right. exists i, l. split_and!; [done|done|]. rewrite E. f_equal. f_equal. exact Es.
  - left. by exists os.
Qed.

Lemma start_decode_defined inet_pton m x y z : exists e m', start_decode inet_pton m x y z = Some (e, m') /\
  hdrl m' = hdrl m /\ hdrht m' = hdrht m.
Proof.
  unfold start_decode. destruct (req m); [|by do 2 eexists].
  destruct (uri_decode_defined inet_pton y) as [[e u] ->]. cbn [mbind option_bind]. by do 2 eexists.
Qed.

(** C28: decoding is defined on every text of less than 2^31 characters, whatever can be
    allocated.  When it succeeds, the name and the value of every header field in the list
    and in the table lie inside the text, and the position of the buffer is moved to a
    place inside it; when it does not, there is no message and the buffer is unchanged. *)
Theorem sip_msg_decode_safe inet_pton pb b text ok1 ok2 rand news :
  let base := Mbuf.buf b + Mbuf.pos b in
  0 < Mbuf.buf b -> 0 <= Mbuf.pos b -> Mbuf.end_ b = Mbuf.pos b + Z.of_nat (length text) ->
  Z.of_nat (length text) < 2147483648 ->
  exists err m b', sip_msg_decode inet_pton pb b text ok1 ok2 rand news = Some (err, m, b') /\
    (err = 0 -> exists m', m = Some m' /\ msg_ok base text m' /\
       Mbuf.pos b <= Mbuf.pos b' <= Mbuf.end_ b /\ Mbuf.end_ b' = Mbuf.end_ b) /\
    (err <> 0 -> m = None /\ b' = b).
Proof.
  intros base Hbuf Hpos Hend Hlen. unfold sip_msg_decode.
  destruct (Z.eqb_spec (Mbuf.buf b) 0); [lia|]. fold base.
  set (bad := if STARTLINE_MAX <? _ then _ else _).
  assert (bad <> 0) as Hbad by (unfold bad; case_match; discriminate).
  assert (forall err, err <> 0 -> exists e (m : option sip_msg) b', Some (err, None, b) = Some (e, m, b') /\
    (e = 0 -> exists m', m = Some m' /\ msg_ok base text m' /\
       Mbuf.pos b <= Mbuf.pos b' <= Mbuf.end_ b /\ Mbuf.end_ b' = Mbuf.end_ b) /\
    (e <> 0 -> m = None /\ b' = b)) as Herr by (intros err He; by exists err, None, b).
  destruct (start_inv base text) as [(os&->)|(i&l&Hi&Et&->)]; [lia|by apply Herr|].
  cbn [mbind option_bind]. change (negb (0 =? 0)) with false. cbn match.
  destruct (start_args (base + Z.of_nat i) l) as (->&->&->&->). cbn [mbind option_bind pl_p pl_l pl_s length].
  destruct (Z.eqb_spec (base + Z.of_nat i) base); cbn [negb]; [|by apply Herr].
  assert (i = 0%nat) as -> by lia. rewrite drop_0 in Et.
  destruct ok1; cbn [negb]; [|by apply Herr]. destruct ok2; [|by apply (Herr ENOMEM)].
  set (ht := Hash.mk_hash (replicate 32 []) 32 : Hash.hash sip_hdr).
  change (Hash.hash_alloc HDR_HASH_SIZE true) with (0, Some ht). cbn match.
  match goal with |- context [start_decode ?i ?m ?x ?y ?z] =>
    destruct (start_decode_defined i m x y z) as (e1&m1&->&El&Eh) end. cbn [mbind option_bind].
  err_case e1; [|by apply Herr].
  match goal with |- context [drop (Z.to_nat (?x - _)) text] => set (q := x) end. assert (q = base + Z.of_nat (length (start_text l))) as Eq.
  { unfold q, start_text, pl_l. cbn [pl_s pl_p]. repeat (rewrite length_app; cbn [length]). lia. }
  set (t := drop _ text). assert (t = rest l) as Ett.
  { unfold t. rewrite Et, Eq. replace (Z.to_nat _) with (length (start_text l)) by lia. apply drop_app_length. }
  assert (length text = (length (start_text l) + length (rest l))%nat) as Ell by by rewrite Et, length_app.
  destruct (scan_loop_defined inet_pton news base text ltac:(unfold base; lia) Hlen t q
    (mk_scan m1 0 0 0 SIP_HDR_NONE 0 0 0 0 false false)) as (e2&s&r&->&Hm&Hr).
  - split; cbn; try (lia || tauto). split; rewrite ?El, ?Eh; cbn; [done|done| |by constructor].
    repeat constructor.
  - cbn. lia.
  - cbn. lia.
  - rewrite Ett. lia.
  - cbn [mbind option_bind]. err_case e2; [|by apply Herr]. do 3 eexists. split; [done|].
    split; [|done]. intros _. eexists. split; [done|]. rewrite Ett in Hr. cbn. split_and!; (done || lia).
Qed.

(** ** The lines of a message

    A header field is a name, a colon and a value of one or more elements, separated by
    commas if the field is a list; a line of it may be folded. *)

Record field := mk_field { fname : list Z; fsp : list Z; elems : list (list Z); feol : list Z }.

Fixpoint join (ps : list (list Z)) : list Z :=
  match ps with [] => [] | [w] => w | w :: ps => w ++ 44 :: join ps end.
Definition fvalue (f : field) : list Z := join (elems f).
Definition field_text (f : field) : list Z := fname f ++ fsp f ++ 58 :: fvalue f ++ feol f.

(** After a line feed inside a value comes a space or a tab; [nl] is whether one was just
    read. *)
Fixpoint fold_ok (nl : bool) (w : list Z) : bool :=
  match w with
  | [] => negb nl
  | c :: w => if nl then ((c =? 32) || (c =? 9)) && fold_ok false w else fold_ok (c =? 10) w
  end.

(** No comma outside of quotes. *)
Fixpoint no_comma (q : bool) (w : list Z) : bool :=
  match w with
  | [] => true
  | c :: w => negb ((c =? 44) && negb q) && no_comma (if c =? 34 then negb q else q) w
  end.

(** Whether a quote is open behind [w]. *)
Definition quotes (q : bool) (w : list Z) : bool := foldl (fun q c => if c =? 34 then negb q else q) q w.

Definition blank (w : list Z) : bool := forallb Param.ws w.
Definition eol_ok (w : list Z) : Prop := w = [10] \/ w = [13; 10].

Record field_ok (f : field) : Prop := {
  fo_name : fname f <> [] /\ forallb (fun c => negb (Param.ws c) && negb (c =? 58)) (fname f) = true;
  fo_sp : forallb (fun c => (c =? 32) || (c =? 9)) (fsp f) = true;
  fo_elems : elems f <> [] /\ Forall (fun w => fold_ok false w = true) (elems f);
  fo_list : if hdr_comma_separated (hdr_hash (mk_pl 0 (fname f)))
            then (exists w, elems f = [w] /\ blank w = true) \/
                 Forall (fun w => blank w = false /\ no_comma false w = true /\ quotes false w = false) (elems f)
            else exists w, elems f = [w];
  fo_eol : eol_ok (feol f) }.

(** An element without the white space around it; [next] is where an empty one is. *)
Fixpoint lead (w : list Z) : nat := match w with c :: w => if Param.ws c then S (lead w) else O | [] => O end.
Fixpoint trailing (n : nat) (w : list Z) : nat :=
  match w with [] => n | c :: w => trailing (if Param.ws c then S n else O) w end.
Definition trim (p : Z) (w : list Z) (next : Z) : pl :=
  if blank w then mk_pl next []
  else mk_pl (p + Z.of_nat (lead w)) (take (length w - lead w - trailing 0 w) (drop (lead w) w)).

(** What is added for a field at [p], behind which the scanner stands at [next]: its
    elements to the table, and the field as a whole to the list. *)
Record entry := mk_entry { e_name : pl; e_id : Z; e_val : pl; e_atomic : bool; e_line : bool }.

Fixpoint elem_entries (nm : pl) (i p : Z) (ps : list (list Z)) : list entry :=
  match ps with
  | [] => []
  | w :: ps => mk_entry nm i (trim p w p) true false :: elem_entries nm i (p + Z.of_nat (length w) + 1) ps
  end.
Definition field_entries (f : field) (p next : Z) : list entry :=
  let nm := mk_pl p (fname f) in
  let i := hdr_hash nm in
  let q := p + Z.of_nat (length (fname f)) + Z.of_nat (length (fsp f)) + 1 in
  match elems f with
  | [w] => [mk_entry nm i (trim q w next) true true]
  | ps => elem_entries nm i q ps ++ [mk_entry nm i (trim q (fvalue f) next) false true]
  end.

(** All the fields of a message, the last of which is followed by an empty line of [k]
    characters. *)
Fixpoint entries (fs : list field) (p k : Z) : list entry :=
  match fs with
  | [] => []
  | f :: fs =>
      let next := p + Z.of_nat (length (field_text f)) in
      field_entries f p (match fs with [] => next + k | _ => next end) ++ entries fs next k
  end.
Definition fields_text (fs : list field) : list Z := concat (map field_text fs).

Section Lines.
Context (inet_pton : Z -> list Z -> option (list Z)) (news : nat -> Z) (base : Z) (text : list Z).
Context (Hbase : 0 < base) (Hlen : Z.of_nat (length text) < 2147483648).

Fixpoint add_all (k : nat) (m : sip_msg) (es : list entry) : option (Z * sip_msg) :=
  match es with
  | [] => Some (0, m)
  | e :: es =>
      '(err, m) ← hdr_add inet_pton (news k) m (e_name e) (e_id e) (e_val e) (e_atomic e) (e_line e);
      if negb (err =? 0) then Some (err, m) else add_all (S k) m es
  end.

(** What matters of the result of the loop, and adding in front of the rest of it. *)
Definition result (r : option (Z * scan * list Z)) : option (Z * sip_msg * option (list Z)) :=
  '(err, s, t) ← r; Some (err, msg s, if err =? 0 then Some t else None).
Definition run {X} (k : nat) (m : sip_msg) (es : list entry) (cont : nat -> sip_msg -> option (Z * sip_msg * option X)) :=
  '(err, m) ← add_all k m es; if negb (err =? 0) then Some (err, m, None) else cont (k + length es)%nat m.

Lemma run_app {X} es1 es2 : forall k m (cont : nat -> sip_msg -> option (Z * sip_msg * option X)),
  run k m (es1 ++ es2) cont = run k m es1 (fun k m => run k m es2 cont).
Proof.
  unfold run. induction es1 as [|e es IH]; intros k m cont.
  - cbn. by rewrite Nat.add_0_r.
  - cbn [app add_all length]. destruct (hdr_add _ _ _ _ _ _ _ _) as [[err m1]|]; [|done]. cbn [mbind option_bind].
    err_case err; [|cbn [mbind option_bind]; by destruct (Z.eqb_spec err 0)].
    rewrite <- !Nat.add_succ_comm. apply IH.
Qed.

Lemma run_ext {X} k m es (f g : nat -> sip_msg -> option (Z * sip_msg * option X)) :
  (forall k m, f k m = g k m) -> run k m es f = run k m es g.
Proof. intros H. unfold run. destruct (add_all k m es) as [[err m1]|]; [|done]. cbn. by rewrite H. Qed.

Lemma slice_mid a mid b : text = a ++ mid ++ b ->
  slice base text (base + Z.of_nat (length a)) (Z.of_nat (length mid)) = Some (mk_pl (base + Z.of_nat (length a)) mid).
Proof.
  intros E. unfold slice. assert (length text = (length a + (length mid + length b))%nat) as El.
  { rewrite E. by rewrite !length_app. }
  destruct (Z.leb_spec base (base + Z.of_nat (length a))), (Z.leb_spec 0 (Z.of_nat (length mid))),
    (Z.leb_spec (base + Z.of_nat (length a) + Z.of_nat (length mid)) (base + Z.of_nat (length text))); try lia.
  cbn [andb]. do 2 f_equal. rewrite Nat2Z.id. replace (Z.to_nat _) with (length a) by lia.
  rewrite E, drop_app_length. apply take_app_length.
Qed.

(** *** Runs of characters

    Of the scanner's state only the white space and the quotes change. *)

Abbreviation st := mk_scan.

Lemma ws_cases c : Param.ws c = true -> c = 32 \/ c = 9 \/ c = 13 \/ c = 10.
Proof. unfold Param.ws. cbn [existsb]. lia. Qed.
Lemma not_ws_cases c : Param.ws c = false -> (c =? 32) = false /\ (c =? 9) = false /\ (c =? 13) = false /\ (c =? 10) = false.
Proof. unfold Param.ws. cbn [existsb]. lia. Qed.

Lemma scan_ws c t p m k n l i a b w f cs q : Param.ws c = true -> (c <> 10 \/ f = 0) -> 0 <= w < 4294967295 ->
  scan_loop inet_pton news base text (c :: t) p (st m k n l i a b w f cs q) =
  scan_loop inet_pton news base text t (p + 1)
    (st m k n l i a b (w + 1) (if c =? 10 then 1 else if c =? 13 then f else 0) cs q).
Proof.
  intros Hc Hf Hw. cbn [scan_loop lf ws]. unfold set_ws. cbn [msg nalloc np nl hid v cv ws lf comsep quote].
  rewrite u32_small by lia.
  destruct (ws_cases c Hc) as [->|[->|[->| ->]]]; cbn [Z.eqb orb andb Pos.eqb]; try done.
  destruct Hf as [|Hf]; [done|]. by rewrite Hf.
Qed.

Lemma scan_other c t p s : Param.ws c = false ->
  scan_loop inet_pton news base text (c :: t) p s =
    (f ← default_case inet_pton news base text c p s;
     match f with
     | Out err s => Some (err, s, c :: t)
     | Next s | On s => scan_loop inet_pton news base text t (p + 1) s
     end).
Proof. intros H. apply not_ws_cases in H as (H1&H2&H3&H4). cbn [scan_loop]. by rewrite H1, H2, H3, H4. Qed.

(** Inside a value that has started, or over white space. *)
Lemma scan_run w : forall t p m k n l i a b x nlf cs q, n <> 0 -> l <> 0 ->
  (a <> 0 /\ b <> 0) \/ forallb Param.ws w = true -> fold_ok nlf w = true -> (cs = true -> no_comma q w = true) ->
  Z.of_nat x + Z.of_nat (length w) < 4294967295 ->
  scan_loop inet_pton news base text (w ++ t) p (st m k n l i a b (Z.of_nat x) (Z.b2z nlf) cs q) =
  scan_loop inet_pton news base text t (p + Z.of_nat (length w))
    (st m k n l i a b (Z.of_nat (trailing x w)) 0 cs (quotes q w)).
Proof.
  induction w as [|c w IH]; intros t p m k n l i a b x nlf cs q Hn Hl Hab Hf Hcm Hx.
  - destruct nlf; [done|]. cbn. by rewrite Z.add_0_r.
  - cbn [app length trailing] in *. destruct (Param.ws c) eqn:Hc.
    + rewrite scan_ws; [|done|destruct nlf; [left|by right]|lia].
      2: { intros ->. cbn [fold_ok] in Hf. done. }
      cbn [fold_ok] in Hf.
      assert (fold_ok (c =? 10) w = true /\ (if c =? 10 then 1 else if c =? 13 then Z.b2z nlf else 0) = Z.b2z (c =? 10)) as [Hf' ->].
      { destruct nlf; [|split; [done|destruct (c =? 10), (c =? 13); done]].
        apply andb_true_iff in Hf as [Hf1 Hf2].
        assert ((c =? 10) = false) as -> by lia. assert ((c =? 13) = false) as -> by lia. done. }
      assert ((c =? 34) = false) as Hq by (apply ws_cases in Hc; lia).
      replace (Z.of_nat x + 1) with (Z.of_nat (S x)) by lia.
      rewrite IH; try done; [|destruct Hab as [?|Hb]; [by left|right; cbn [forallb] in Hb; by apply andb_true_iff in Hb as [_ ?]]| |lia].
      2: { intros Hcs. specialize (Hcm Hcs). cbn [no_comma] in Hcm. rewrite Hq in Hcm. by apply andb_true_iff in Hcm as [_ ?]. }
      unfold quotes. cbn [foldl]. rewrite Hq. f_equal. lia.
    + destruct Hab as [[Ha Hb]|Hb]; [|cbn [forallb] in Hb; by rewrite Hc in Hb]. rewrite scan_other by done.
      assert (nlf = false) as ->. { destruct nlf; [|done]. apply not_ws_cases in Hc. cbn [fold_ok] in Hf. lia. }
      assert ((c =? 10) = false) as H10 by by apply not_ws_cases. cbn [fold_ok] in Hf. rewrite H10 in Hf.
      unfold default_case. cbn [lf comsep quote]. change (negb (Z.b2z false =? 0)) with false. cbn [orb].
      assert ((c =? code ","%char) && cs && negb q = false) as ->.
      { change (code ","%char) with 44. destruct cs; [|by rewrite andb_false_r]. specialize (Hcm eq_refl). apply andb_true_iff in Hcm as [Hcm _]. rewrite andb_true_r. by apply negb_true_iff. }
      cbn [mbind option_bind]. unfold char. cbn [np nl cv v quote]. 
      destruct (Z.eqb_spec n 0); [done|]. cbn [nl cv v quote]. destruct (Z.eqb_spec l 0); [done|].
      destruct (Z.eqb_spec b 0); [done|]. destruct (Z.eqb_spec a 0); [done|].
      unfold set_value. cbn [msg nalloc np nl hid v cv ws lf comsep quote].
      pose proof (IH t (p + 1) m k n l i a b O false cs (if c =? 34 then negb q else q)) as E.
      change (Z.of_nat 0) with 0 in E. rewrite E; try done; [|by left| |lia].
      2: { intros Hcs. specialize (Hcm Hcs). cbn [no_comma] in Hcm. by apply andb_true_iff in Hcm as [_ ?]. }
      unfold quotes. cbn [foldl]. f_equal. lia.
Qed.

(** *** Elements *)

Lemma nonblank_split w : blank w = false -> exists s c r, w = s ++ c :: r /\ lead w = length s /\
  forallb Param.ws s = true /\ Param.ws c = false.
Proof.
  unfold blank. induction w as [|c w IH]; [done|]. cbn [forallb lead]. destruct (Param.ws c) eqn:Hc.
  - cbn [andb]. intros H. destruct (IH H) as (s&d&r&->&->&?&?). exists (c :: s), d, r. split_and!; try done. cbn [forallb]. by rewrite Hc.
  - intros _. by exists [], c, w.
Qed.

Lemma trailing_app s : forall c r n, Param.ws c = false -> trailing n (s ++ c :: r) = trailing 0 r.
Proof. induction s as [|d s IH]; intros c r n Hc; cbn [app trailing]; [by rewrite Hc|by apply IH]. Qed.

Lemma trailing_le w : forall n, (trailing n w <= n + length w)%nat.
Proof. induction w as [|c w IH]; intros n; cbn [trailing length]; [lia|]. specialize (IH (if Param.ws c then S n else O)). case_match; lia. Qed.

Lemma blank_no_quote s : forallb Param.ws s = true -> forall q r, quotes q (s ++ r) = quotes q r /\ no_comma q (s ++ r) = no_comma q r.
Proof.
  unfold quotes. induction s as [|c s IH]; intros H q r; [done|]. cbn [forallb] in H. apply andb_true_iff in H as [Hc H].
  cbn [app foldl no_comma]. apply ws_cases in Hc. assert ((c =? 34) = false) as -> by lia.
  assert ((c =? 44) = false) as -> by lia. by apply IH.
Qed.

Lemma fold_split s c r : forall nl, fold_ok nl (s ++ c :: r) = true -> Param.ws c = false ->
  fold_ok nl s = true /\ fold_ok false r = true.
Proof.
  induction s as [|d s IH]; intros nl H Hc.
  - pose proof (not_ws_cases c Hc) as (H1&H2&H3&H4). cbn [app fold_ok] in *. rewrite H1, H2, H4 in H. by destruct nl.
  - cbn [app fold_ok] in *. destruct nl.
    + apply andb_true_iff in H as [-> H]. by apply IH.
    + by apply IH.
Qed.

Lemma elem_scan w t p m k n l i a x cs q : n <> 0 -> l <> 0 -> 0 < p -> blank w = false -> fold_ok false w = true ->
  (cs = true -> no_comma false w = true) -> Z.of_nat x + Z.of_nat (length w) < 4294967295 ->
  scan_loop inet_pton news base text (w ++ t) p (st m k n l i a 0 (Z.of_nat x) 0 cs q) =
  scan_loop inet_pton news base text t (p + Z.of_nat (length w))
    (st m k n l i (if a =? 0 then p + Z.of_nat (lead w) else a) (p + Z.of_nat (lead w)) (Z.of_nat (trailing 0 w)) 0 cs
        (quotes false w)).
Proof.
  intros Hn Hl Hp Hb Hf Hcm Hx. destruct (nonblank_split w Hb) as (s&c&r&->&->&Hs&Hc).
  destruct (fold_split s c r false Hf Hc) as [Hf1 Hf2]. rewrite <- app_assoc. rewrite !length_app in *. cbn [length app] in *.
  destruct (blank_no_quote s Hs false (c :: r)) as [-> Hq]. rewrite Hq in Hcm.
  rewrite trailing_app by done.
  pose proof (scan_run s (c :: r ++ t) p m k n l i a 0 x false cs q) as E0. change (Z.b2z false) with 0 in E0.
  rewrite E0; [|done|done|by right|done| |lia]. clear E0.
  2: { intros _. destruct (blank_no_quote s Hs q []) as [_ E]. by rewrite app_nil_r in E. }
  rewrite scan_other by done. unfold default_case. cbn [lf comsep quote].
  assert ((c =? code ","%char) && cs && negb (quotes q s) = false) as ->.
  { change (code ","%char) with 44. destruct cs; [|by rewrite andb_false_r]. specialize (Hcm eq_refl).
    cbn [no_comma] in Hcm. apply andb_true_iff in Hcm as [Hcm _]. rewrite andb_true_r in *. destruct (c =? 44); done. }
  change (negb (0 =? 0) || false) with false. cbn [mbind option_bind]. unfold char. cbn [np nl cv v quote].
  destruct (Z.eqb_spec n 0); [done|]. cbn [nl cv v quote]. destruct (Z.eqb_spec l 0); [done|].
  change (0 =? 0) with true. cbn match. unfold set_value. cbn [msg nalloc np nl hid v cv ws lf comsep quote].
  set (a' := if a =? 0 then _ else a). set (p' := p + Z.of_nat (length s)).
  pose proof (scan_run r t (p' + 1) m k n l i a' p' O false cs (if c =? 34 then true else false)) as E.
  change (Z.of_nat 0) with 0 in E. change (Z.b2z false) with 0 in E. change (negb false) with true. rewrite E; try done; [| | |lia].
  - unfold quotes at 2. cbn [foldl]. change (negb false) with true. fold (quotes (if c =? 34 then true else false) r).
    unfold a', p'. f_equal. lia.
  - left. unfold a', p'. destruct (Z.eqb_spec a 0); split; (done || lia).
  - intros Hcs. specialize (Hcm Hcs). cbn [no_comma] in Hcm. by apply andb_true_iff in Hcm as [_ ?].
Qed.

Lemma slice_trim pre w post p e nx : text = pre ++ w ++ post -> p = base + Z.of_nat (length pre) -> blank w = false ->
  slice base text (p + Z.of_nat (lead w))
    (Z.max (p + Z.of_nat (length w) + e - (p + Z.of_nat (lead w)) - (Z.of_nat (trailing 0 w) + e)) 0) = Some (trim p w nx).
Proof.
  intros Et Ep Hb. unfold trim. rewrite Hb. destruct (nonblank_split w Hb) as (s&c&r&->&->&Hs&Hc).
  pose proof (trailing_le r 0) as Hle. rewrite !length_app, trailing_app, drop_app_length by done. cbn [length].
  set (k := (length s + S (length r) - length s - trailing 0 r)%nat).
  pose proof (slice_mid (pre ++ s) (take k (c :: r)) (drop k (c :: r) ++ post)) as E.
  rewrite length_app, length_take in E. cbn [length] in E.
  replace (Z.max _ 0) with (Z.of_nat (k `min` S (length r))) by lia.
  replace (p + Z.of_nat (length s)) with (base + Z.of_nat (length pre + length s)) by lia. apply E.
  rewrite Et, (app_assoc (take k _)), take_drop. by list_simplifier.
Qed.

(** The field that is being read: its name, and its identifier. *)
Context (n : Z) (nm : pl) (Hn : n <> 0) (Hnm : slice base text n (pl_l nm) = Some nm) (Hl : pl_l nm <> 0).

Abbreviation loop := (scan_loop inet_pton news base text).

Lemma add_slice m k i a b x f cs q p c w atomic line :
  (if negb (c =? 0) then slice base text c (Z.max (p - c - x) 0) else slice base text p 0) = Some w ->
  add inet_pton news base text (st m k n (pl_l nm) i a b x f cs q) p c atomic line =
  ('(err, m) ← hdr_add inet_pton (news k) m nm i w atomic line; Some (err, st m (S k) n (pl_l nm) i a b x f cs q)).
Proof.
  intros E. unfold add. cbn [np nl ws nalloc msg hid v cv lf comsep quote]. rewrite Hnm. cbn [mbind option_bind].
  rewrite E. reflexivity.
Qed.

(** An element that a comma ends. *)
Lemma elem_comma pre w t p m k i a x q : text = pre ++ w ++ 44 :: t -> p = base + Z.of_nat (length pre) ->
  blank w = false -> no_comma false w = true -> quotes false w = false -> fold_ok false w = true ->
  Z.of_nat x + Z.of_nat (length w) < 4294967295 ->
  result (loop (w ++ 44 :: t) p (st m k n (pl_l nm) i a 0 (Z.of_nat x) 0 true q)) =
  run k m [mk_entry nm i (trim p w p) true false] (fun k m => result (loop t (p + Z.of_nat (length w) + 1)
    (st m k n (pl_l nm) i (if a =? 0 then p + Z.of_nat (lead w) else a) 0 (Z.of_nat (trailing 0 w)) 0 true false))).
Proof.
  intros Et Ep Hb Hc Hq Hf Hx. rewrite elem_scan by (done || lia). rewrite scan_other by done. rewrite Hq.
  unfold default_case. cbn [lf comsep quote]. change (negb (0 =? 0) || _) with true. cbn match.
  unfold value_end. cbn [nl cv v lf]. destruct (Z.eqb_spec (pl_l nm) 0); [done|].
  rewrite andb_false_r. rewrite (add_slice _ _ _ _ _ _ _ _ _ _ _ (trim p w p)).
  2: { destruct (Z.eqb_spec (p + Z.of_nat (lead w)) 0); [lia|]. cbn [negb].
       pose proof (slice_trim pre w (44 :: t) p 0 p Et Ep Hb) as E. by rewrite !Z.add_0_r in E. }
  unfold run. cbn [add_all e_name e_id e_val e_atomic e_line].
  destruct (hdr_add _ _ _ _ _ _ _ _) as [[err m']|]; [|done]. cbn [mbind option_bind]. err_case err.
  - cbn [lf mbind option_bind]. change (0 =? 0) with true. cbn match. unfold set_value.
    cbn [msg nalloc np nl hid v cv ws lf comsep quote length mbind option_bind]. by rewrite Nat.add_1_r.
  - cbn [mbind option_bind result msg]. unfold result. cbn [mbind option_bind msg]. by destruct (Z.eqb_spec err 0).
Qed.

(** *** Ends of lines *)

Definition end_entries (i a b : Z) (wa wb : pl) : list entry :=
  if b =? a then [mk_entry nm i wb true true] else [mk_entry nm i wb true false; mk_entry nm i wa false true].

Lemma value_end_entries m k i a b x f cs q p wa wb : f = 1 \/ f = 2 ->
  (if negb (b =? 0) then slice base text b (Z.max (p - b - x) 0) else slice base text p 0) = Some wb ->
  (b <> a -> a <> 0 /\ slice base text a (Z.max (p - a - x) 0) = Some wa) ->
  match add_all k m (end_entries i a b wa wb) with
  | None => value_end inet_pton news base text p (st m k n (pl_l nm) i a b x f cs q) = None
  | Some (err, m') => exists s', msg s' = m' /\
      value_end inet_pton news base text p (st m k n (pl_l nm) i a b x f cs q) =
        Some (if negb (err =? 0) then Out err s' else if f =? 2 then Out 0 s'
              else On (st m' (k + length (end_entries i a b wa wb)) 0 (pl_l nm) i 0 0 x 0 false q))
  end.
Proof.
  intros Hf Hwb Hwa. unfold value_end, end_entries. cbn [nl cv v lf]. destruct (Z.eqb_spec (pl_l nm) 0); [done|].
  assert ((f =? 0) = false) as Hf0 by lia. rewrite Hf0. cbn [negb]. rewrite andb_true_r.
  rewrite (add_slice _ _ _ _ _ _ _ _ _ _ _ wb) by done.
  destruct (Z.eqb_spec b a) as [Eb|Eb]; cbn [add_all e_name e_id e_val e_atomic e_line].
  - destruct (hdr_add _ _ _ _ _ _ _ _) as [[err m1]|]; [|done]. cbn [mbind option_bind]. err_case err.
    + cbn [lf cv v negb]. rewrite Hf0. apply Z.eqb_eq in Eb. rewrite Eb. cbn [mbind option_bind negb lf Z.eqb].
      destruct Hf as [-> | ->]; cbn; [exists (st m1 k n 0 i a b x 0 cs q)|eexists; split; [|reflexivity]; reflexivity]. by rewrite Nat.add_1_r.
    + destruct (Z.eqb_spec err 0); [done|]. cbn [negb]. eexists. split; [|done]. done.
  - destruct (Hwa Eb) as [Ha Hwa'].
    destruct (hdr_add _ _ _ _ _ _ _ _) as [[err m1]|]; [|done]. cbn [mbind option_bind]. err_case err.
    2: { destruct (Z.eqb_spec err 0); [done|]. cbn [negb]. eexists. split; [|done]. done. }
    cbn [lf cv v negb]. rewrite Hf0. apply Z.eqb_neq in Eb. rewrite Eb. cbn [negb].
    rewrite (add_slice _ _ _ _ _ _ _ _ _ _ _ wa).
    2: { apply Z.eqb_neq in Ha. by rewrite Ha. }
    destruct (hdr_add _ _ _ _ _ _ _ _) as [[err m2]|]; [|done]. cbn [mbind option_bind]. err_case err.
    + destruct Hf as [-> | ->]; cbn; [exists (st m2 k n 0 i a b x 0 cs q)|eexists; split; [|reflexivity]; reflexivity].
      by replace (k + 2)%nat with (S (S k)) by lia.
    + destruct (Z.eqb_spec err 0); [done|]. cbn [negb]. eexists. split; [|done]. done.
Qed.

Lemma eol_scan w t p m k i a b x cs q : eol_ok w -> 0 <= x -> x + 2 < 4294967295 ->
  loop (w ++ t) p (st m k n (pl_l nm) i a b x 0 cs q) =
  loop t (p + Z.of_nat (length w)) (st m k n (pl_l nm) i a b (x + Z.of_nat (length w)) 1 cs q).
Proof.
  intros [-> | ->] Hx1 Hx2; cbn [app length].
  - rewrite scan_ws by (done || lia || by right). done.
  - rewrite scan_ws by (done || lia || by left). change (13 =? 10) with false. change (13 =? 13) with true. cbn match.
    rewrite scan_ws by (done || lia || by right). change (10 =? 10) with true. cbn match. f_equal; [lia|]. f_equal. lia.
Qed.

(** The next line starts, or the header ends. *)
Lemma next_line c t p m k i a b x cs q wa wb : Param.ws c = false ->
  (if negb (b =? 0) then slice base text b (Z.max (p - b - x) 0) else slice base text p 0) = Some wb ->
  (b <> a -> a <> 0 /\ slice base text a (Z.max (p - a - x) 0) = Some wa) ->
  result (loop (c :: t) p (st m k n (pl_l nm) i a b x 1 cs q)) =
  run k m (end_entries i a b wa wb) (fun k m => result (loop (c :: t) p (st m k 0 (pl_l nm) i 0 0 x 0 false q))).
Proof.
  intros Hc Hwb Hwa. rewrite scan_other by done. unfold default_case. cbn [lf]. change (negb (1 =? 0) || _) with true. cbn match.
  pose proof (value_end_entries m k i a b x 1 cs q p wa wb ltac:(by left) Hwb Hwa) as H. unfold run.
  destruct (add_all k m _) as [[err m']|]; [|by rewrite H]. destruct H as (s'&<-&->). cbn [mbind option_bind].
  err_case err.
  - change (1 =? 2) with false. cbn [mbind option_bind]. rewrite scan_other by done. unfold default_case.
    cbn [lf comsep]. change (negb (0 =? 0)) with false. by rewrite andb_false_r.
  - cbn [mbind option_bind]. unfold result. cbn [mbind option_bind]. by destruct (Z.eqb_spec err 0).
Qed.

Lemma end_of_header w t p m k i a b x cs q wa wb : eol_ok w -> 0 <= x -> x + 2 < 4294967295 ->
  (if negb (b =? 0) then slice base text b (Z.max (p + Z.of_nat (length w) - b - (x + Z.of_nat (length w))) 0)
   else slice base text (p + Z.of_nat (length w)) 0) = Some wb ->
  (b <> a -> a <> 0 /\ slice base text a (Z.max (p + Z.of_nat (length w) - a - (x + Z.of_nat (length w))) 0) = Some wa) ->
  result (loop (w ++ t) p (st m k n (pl_l nm) i a b x 1 cs q)) =
  run k m (end_entries i a b wa wb) (fun k m => Some (0, m, Some t)).
Proof.
  intros Hw Hx1 Hx2 Hwb Hwa.
  assert (result (loop (w ++ t) p (st m k n (pl_l nm) i a b x 1 cs q)) =
    result (f ← value_end inet_pton news base text (p + Z.of_nat (length w))
                  (st m k n (pl_l nm) i a b (x + Z.of_nat (length w)) 2 cs q);
            match f with Out err s => Some (err, s, t) | _ => None end)) as ->.
  { destruct Hw as [-> | ->]; cbn [app length].
    - cbn [scan_loop lf]. change ((10 =? 32) || (10 =? 9)) with false. change (10 =? 13) with false.
      change ((10 =? 10) && (1 =? 0)) with false. change (10 =? 10) with true. cbn match. unfold set_ws.
      cbn [msg nalloc np nl hid v cv ws lf comsep quote]. rewrite (u32_small (x + 1)), (u32_small (1 + 1)) by lia. done.
    - rewrite scan_ws by (done || lia || by left). change (13 =? 10) with false. change (13 =? 13) with true. cbn match.
      cbn [scan_loop lf]. change ((10 =? 32) || (10 =? 9)) with false. change (10 =? 13) with false.
      change ((10 =? 10) && (1 =? 0)) with false. change (10 =? 10) with true. cbn match. unfold set_ws.
      cbn [msg nalloc np nl hid v cv ws lf comsep quote]. rewrite (u32_small (x + 1 + 1)), (u32_small (1 + 1)) by lia.
      replace (p + 1 + 1) with (p + Z.of_nat 2) by lia. by replace (x + 1 + 1) with (x + Z.of_nat 2) by lia. }
  pose proof (value_end_entries m k i a b (x + Z.of_nat (length w)) 2 cs q (p + Z.of_nat (length w)) wa wb
    ltac:(by right) Hwb Hwa) as H. unfold run.
  destruct (add_all k m _) as [[err m']|]; [|by rewrite H]. destruct H as (s'&<-&->). cbn [mbind option_bind].
  err_case err; unfold result; cbn [mbind option_bind]; [done|]. by destruct (Z.eqb_spec err 0).
Qed.

(** *** Elements of a list *)

Lemma lead_app w r : blank w = false -> lead (w ++ r) = lead w /\ blank (w ++ r) = false.
Proof.
  intros (s&c&r'&->&El&Hs&Hc)%nonblank_split. split.
  - rewrite El. clear El. induction s as [|d s IH]; cbn [app lead forallb] in *; [by rewrite Hc|].
    apply andb_true_iff in Hs as [-> Hs]. by rewrite IH.
  - unfold blank. rewrite !forallb_app. cbn [forallb]. rewrite Hc. by rewrite andb_false_r.
Qed.

Lemma trailing_bound w : (trailing 0 w <= length w)%nat.
Proof. apply (trailing_le w 0). Qed.

Definition elem_ok (w : list Z) : Prop :=
  (blank w = false /\ no_comma false w = true /\ quotes false w = false) /\ fold_ok false w = true.

(** All the elements but the last are added; the last has been read. *)
Lemma elems_scan ps t i a : a <> 0 -> ps <> [] -> Forall elem_ok ps -> forall pre p,
  text = pre ++ join ps ++ t -> p = base + Z.of_nat (length pre) ->
  exists init wl b q',
    (forall m k x q, Z.of_nat x <= Z.of_nat (length text) ->
     result (loop (join ps ++ t) p (st m k n (pl_l nm) i a 0 (Z.of_nat x) 0 true q)) =
      run k m init (fun k m => result (loop t (p + Z.of_nat (length (join ps)))
        (st m k n (pl_l nm) i a b (Z.of_nat (trailing 0 (join ps))) 0 true q')))) /\
    init ++ [mk_entry nm i wl true false] = elem_entries nm i p ps /\ p <= b /\
    forall e, slice base text b (Z.max (p + Z.of_nat (length (join ps)) + e - b - (Z.of_nat (trailing 0 (join ps)) + e)) 0) = Some wl.
Proof.
  intros Ha Hne Hps. induction Hps as [|w ps [(Hb&Hc&Hq) Hf] Hps IH]; [done|]. intros pre p Et Ep.
  assert (Z.of_nat (length (join (w :: ps))) <= Z.of_nat (length text)) as Hlj.
  { rewrite Et, !length_app. lia. }
  apply Z.eqb_neq in Ha as Ea. destruct ps as [|w' ps].
  - cbn [join] in *. exists [], (trim p w p), (p + Z.of_nat (lead w)), (quotes false w).
    split_and!; [|done|lia|intros e; by apply (slice_trim pre w t)]. intros m k x q Hx.
    rewrite elem_scan by (done || lia). rewrite Ea. unfold run. cbn. by rewrite Nat.add_0_r.
  - change (join (w :: w' :: ps)) with (w ++ 44 :: join (w' :: ps)) in *. rewrite length_app in Hlj. cbn [length] in Hlj.
    set (p2 := p + Z.of_nat (length w) + 1).
    assert (text = (pre ++ w ++ [44]) ++ join (w' :: ps) ++ t) as Et2 by (rewrite Et; by list_simplifier).
    destruct (IH ltac:(done) _ p2 Et2) as (init&wl&b&q'&E&Ei&Hb2&Hs).
    { unfold p2. rewrite !length_app. cbn [length]. lia. }
    assert (Z.of_nat (length (w ++ 44 :: join (w' :: ps))) = Z.of_nat (length w) + 1 + Z.of_nat (length (join (w' :: ps)))) as El.
    { rewrite length_app. cbn [length]. lia. }
    exists (mk_entry nm i (trim p w p) true false :: init), wl, b, q'. split_and!.
    + intros m k x q Hx. rewrite <- app_assoc. cbn [app].
      rewrite (elem_comma pre) by (done || lia || (rewrite Et; by list_simplifier)).
      change (?e :: init) with ([e] ++ init). rewrite run_app. apply run_ext. intros k1 m1. rewrite Ea. fold p2.
      rewrite E by (pose proof (trailing_bound w); lia). apply run_ext. intros k2 m2.
      rewrite trailing_app, El by done. unfold p2. do 2 f_equal. lia.
    + cbn [elem_entries app]. by rewrite Ei.
    + unfold p2 in *. lia.
    + intros e. rewrite trailing_app, El by done. rewrite <- (Hs e). unfold p2. f_equal. lia.
Qed.

(** *** Values *)

Definition value_entries (i p : Z) (ps : list (list Z)) (next : Z) : list entry :=
  match ps with
  | [w] => [mk_entry nm i (trim p w next) true true]
  | ps => elem_entries nm i p ps ++ [mk_entry nm i (trim p (join ps) next) false true]
  end.

(** What the scanner knows of the value behind its line, at [p] with [x] characters of white
    space in front: where [e] characters later it ends, [init] and the rest are added. *)
Definition at_end (i p x a b : Z) (init : list entry) (es : Z -> list entry) : Prop :=
  forall e, 0 <= e -> p + e <= base + Z.of_nat (length text) -> exists wa wb,
    (if negb (b =? 0) then slice base text b (Z.max (p + e - b - (x + e)) 0) else slice base text (p + e) 0) = Some wb /\
    (b <> a -> a <> 0 /\ slice base text a (Z.max (p + e - a - (x + e)) 0) = Some wa) /\
    init ++ end_entries i a b wa wb = es (p + e).

(** The value and its line, from the colon on. *)
Definition scans_to (ps : list (list Z)) (eol t : list Z) (i : Z) (x : nat) (q : bool) (p : Z) : Prop :=
  let p' := p + Z.of_nat (length (join ps)) + Z.of_nat (length eol) in
  exists init a b x' q',
    (forall m k, result (loop (join ps ++ eol ++ t) p (st m k n (pl_l nm) i 0 0 (Z.of_nat x) 0 (hdr_comma_separated i) q)) =
       run k m init (fun k m => result (loop t p' (st m k n (pl_l nm) i a b x' 1 (hdr_comma_separated i) q')))) /\
    0 <= x' <= p' - base /\ at_end i p' x' a b init (value_entries i p ps).

Section Value.
Context (eol t : list Z) (i : Z) (x : nat) (q : bool) (pre : list Z) (p : Z) (w : list Z) (ps : list (list Z)).
Context (Heol : eol_ok eol) (Et : text = pre ++ join (w :: ps) ++ eol ++ t) (Ep : p = base + Z.of_nat (length pre)).
Context (Hx : Z.of_nat x <= Z.of_nat (length pre)) (Hf : fold_ok false w = true).

Lemma value_length : Z.of_nat (length text) =
  Z.of_nat (length pre) + Z.of_nat (length (join (w :: ps))) + Z.of_nat (length eol) + Z.of_nat (length t).
Proof. rewrite Et, !length_app. lia. Qed.

Lemma blank_scan : ps = [] -> blank w = true -> scans_to (w :: ps) eol t i x q p.
Proof.
  pose proof value_length as El. intros -> Hb. cbn [join] in *. unfold scans_to. cbn [join]. set (p' := _ + _).
  exists [], 0, 0, (Z.of_nat (x + length w) + Z.of_nat (length eol)), (quotes q w).
  split_and!; [|lia|unfold p'; lia|].
  - intros m k. pose proof (scan_run w (eol ++ t) p m k n (pl_l nm) i 0 0 x false (hdr_comma_separated i) q) as E.
    change (Z.b2z false) with 0 in E. rewrite E; [|done|done|by right|done| |lia].
    2: { intros _. destruct (blank_no_quote w Hb q []) as [_ En]. by rewrite app_nil_r in En. }
    assert (trailing x w = (x + length w)%nat) as ->.
    { clear -Hb. revert x. induction w as [|c v IH]; intros x; cbn [trailing length]; [lia|]. cbn [blank forallb] in Hb.
      apply andb_true_iff in Hb as [Hc Hb]. rewrite Hc, IH by done. lia. }
    rewrite eol_scan by (done || lia). unfold run. cbn. by rewrite Nat.add_0_r.
  - intros e He Hs. exists pl_null, (mk_pl (p' + e) []). split_and!; [|done|].
    + change (negb (0 =? 0)) with false. cbn match. unfold slice.
      destruct (Z.leb_spec base (p' + e)), (Z.leb_spec (p' + e + 0) (base + Z.of_nat (length text))); (done || lia).
    + unfold end_entries, value_entries, trim. by rewrite Hb.
Qed.

Context (Hb : blank w = false) (Hc : hdr_comma_separated i = true -> no_comma false w = true).

Lemma single_scan : ps = [] -> scans_to (w :: ps) eol t i x q p.
Proof.
  pose proof value_length as El. intros ->. pose proof (trailing_bound w) as Htr. cbn [join] in *.
  unfold scans_to. cbn [join]. set (p' := _ + _).
  exists [], (p + Z.of_nat (lead w)), (p + Z.of_nat (lead w)), (Z.of_nat (trailing 0 w) + Z.of_nat (length eol)), (quotes false w).
  split_and!; [|lia|unfold p'; lia|].
  - intros m k. rewrite elem_scan by (done || lia). change (0 =? 0) with true. cbn match.
    rewrite eol_scan by (done || lia). unfold run. cbn. by rewrite Nat.add_0_r.
  - intros e He Hs. exists pl_null, (trim p w (p' + e)). split_and!; [|done|].
    + destruct (Z.eqb_spec (p + Z.of_nat (lead w)) 0); [lia|]. cbn [negb].
      rewrite <- (slice_trim pre w (eol ++ t) p (Z.of_nat (length eol) + e) (p' + e) Et Ep Hb).
      f_equal. unfold p'. lia.
    + unfold end_entries, value_entries. by rewrite Z.eqb_refl.
Qed.

Lemma list_scan : hdr_comma_separated i = true -> quotes false w = false -> ps <> [] -> Forall elem_ok ps ->
  scans_to (w :: ps) eol t i x q p.
Proof.
  intros Ei Hq Hne Hps. pose proof value_length as El. specialize (Hc Ei). destruct ps as [|w' ps']; [done|].
  unfold scans_to. rewrite Ei. change (join (w :: w' :: ps')) with (w ++ 44 :: join (w' :: ps')) in *.
  set (p' := _ + Z.of_nat (length eol)). set (p2 := p + Z.of_nat (length w) + 1). set (a := p + Z.of_nat (lead w)).
  assert (text = (pre ++ w ++ [44]) ++ join (w' :: ps') ++ eol ++ t) as Et2 by (rewrite Et; by list_simplifier).
  assert (lead w <= length w)%nat as Hlead.
  { destruct (nonblank_split w Hb) as (s&c&r&->&->&_). rewrite length_app. lia. }
  destruct (elems_scan (w' :: ps') (eol ++ t) i a ltac:(unfold a; lia) Hne Hps _ p2 Et2) as (init&wl&b&q'&E&Ee&Hb2&Hs).
  { unfold p2. rewrite !length_app. cbn [length]. lia. }
  assert (Z.of_nat (length (w ++ 44 :: join (w' :: ps'))) = Z.of_nat (length w) + 1 + Z.of_nat (length (join (w' :: ps')))) as El2.
  { rewrite length_app. cbn [length]. lia. }
  pose proof (trailing_bound (join (w' :: ps'))) as Htr2.
  exists (mk_entry nm i (trim p w p) true false :: init), a, b,
    (Z.of_nat (trailing 0 (join (w' :: ps'))) + Z.of_nat (length eol)), q'. split_and!; [|lia|unfold p'; lia|].
  - intros m k. rewrite <- app_assoc. cbn [app].
    rewrite (elem_comma pre) by (done || lia || (rewrite Et; by list_simplifier)).
    change (?e :: init) with ([e] ++ init). rewrite run_app. apply run_ext. intros k1 m1.
    change (0 =? 0) with true. cbn match. fold p2 a. rewrite E by (pose proof (trailing_bound w); lia).
    apply run_ext. intros k2 m2. rewrite eol_scan by (done || lia). unfold p', p2. do 2 f_equal. lia.
  - intros e He Hse. exists (trim p (w ++ 44 :: join (w' :: ps')) (p' + e)), wl. split_and!.
    + destruct (Z.eqb_spec b 0); [unfold p2 in *; lia|]. cbn [negb].
      rewrite <- (Hs (Z.of_nat (length eol) + e)). f_equal. unfold p', p2. lia.
    + intros _. split; [unfold a; lia|]. destruct (lead_app w (44 :: join (w' :: ps')) Hb) as [Ela Hba].
      rewrite <- (slice_trim pre _ (eol ++ t) p (Z.of_nat (length eol) + e) (p' + e) Et Ep Hba).
      rewrite Ela, trailing_app by done. f_equal. unfold p'. lia.
    + unfold end_entries. destruct (Z.eqb_spec b a); [unfold a, p2 in *; lia|].
      change (value_entries i p (w :: w' :: ps') (p' + e)) with
        (mk_entry nm i (trim p w p) true false :: elem_entries nm i p2 (w' :: ps') ++
         [mk_entry nm i (trim p (w ++ 44 :: join (w' :: ps')) (p' + e)) false true]).
      rewrite <- Ee. by list_simplifier.
Qed.
End Value.

Lemma value_scan ps eol t i x q pre p : ps <> [] -> Forall (fun w => fold_ok false w = true) ps ->
  (if hdr_comma_separated i
   then (exists w, ps = [w] /\ blank w = true) \/
        Forall (fun w => blank w = false /\ no_comma false w = true /\ quotes false w = false) ps
   else exists w, ps = [w]) -> eol_ok eol ->
  text = pre ++ join ps ++ eol ++ t -> p = base + Z.of_nat (length pre) -> Z.of_nat x <= Z.of_nat (length pre) ->
  scans_to ps eol t i x q p.
Proof.
  intros Hne Hfold Hlist Heol Et Ep Hx. destruct ps as [|w ps]; [done|]. apply Forall_cons in Hfold as [Hf Hfold].
  assert (ps = [] \/ hdr_comma_separated i = true /\
    Forall (fun w => blank w = false /\ no_comma false w = true /\ quotes false w = false) (w :: ps)) as Hps.
  { destruct (hdr_comma_separated i); [|left; by destruct Hlist as (?&[= _ ->])].
    destruct Hlist as [(?&[= _ ->]&_)|?]; [by left|by right]. }
  destruct (blank w) eqn:Hb.
  - eapply blank_scan; try done. destruct Hps as [|[_ [(Hb'&_) _]%Forall_cons]]; [done|congruence].
  - assert (hdr_comma_separated i = true -> no_comma false w = true) as Hc.
    { intros E. rewrite E in Hlist. destruct Hlist as [(w'&[= <- _]&Hb')|[(_&?&_) _]%Forall_cons]; congruence. }
    destruct Hps as [|[Ei [(_&_&Hq) Hall]%Forall_cons]]; [by eapply single_scan|].
    destruct ps as [|w' ps]; [by eapply single_scan|]. eapply list_scan; try done. apply Forall_and. by split.
Qed.

End Lines.

(** *** Fields *)

Section Fields.
Context (inet_pton : Z -> list Z -> option (list Z)) (news : nat -> Z) (base : Z) (text : list Z).
Context (Hbase : 0 < base) (Hlen : Z.of_nat (length text) < 2147483648).

Abbreviation loop := (scan_loop inet_pton news base text).
Abbreviation st := mk_scan.
Abbreviation run_adds := (run inet_pton news).

(** The scanner in front of a line. *)
Definition at_line (m : sip_msg) (k : nat) (l i x : Z) (q : bool) : scan := st m k 0 l i 0 0 x 0 false q.

Lemma name_run w : forall c t p m k n i q, n <> 0 -> forallb (fun c => negb (Param.ws c) && negb (c =? 58)) (c :: w) = true ->
  loop (w ++ t) p (st m k n 0 i 0 0 0 0 false q) = loop t (p + Z.of_nat (length w)) (st m k n 0 i 0 0 0 0 false q).
Proof.
  induction w as [|d w IH]; intros c t p m k n i q Hn Hw; [by rewrite Z.add_0_r|].
  cbn [forallb] in Hw. rewrite !andb_true_iff, !negb_true_iff in Hw. destruct Hw as (_&[Hd H58]&Hw).
  cbn [app length]. rewrite scan_other by done. unfold default_case. cbn [lf comsep].
  rewrite andb_false_r. change (negb (0 =? 0) || false && _) with false. cbn [mbind option_bind]. unfold char. cbn [np nl].
  destruct (Z.eqb_spec n 0); [done|]. cbn [nl]. change (0 =? 0) with true. cbn match.
  change (code ":"%char) with 58. rewrite H58. cbn [negb]. unfold set_ws. cbn [msg nalloc np nl hid v cv ws lf comsep quote].
  rewrite (IH d) by (try done; cbn [forallb]; by rewrite Hd, H58, Hw). f_equal. lia.
Qed.

Lemma sp_run w : forall t p m k n i x q, forallb (fun c => (c =? 32) || (c =? 9)) w = true -> 0 <= x ->
  x + Z.of_nat (length w) < 4294967295 ->
  loop (w ++ t) p (st m k n 0 i 0 0 x 0 false q) = loop t (p + Z.of_nat (length w)) (st m k n 0 i 0 0 (x + Z.of_nat (length w)) 0 false q).
Proof.
  induction w as [|d w IH]; intros t p m k n i x q Hw H0 Hx; cbn [app length] in *; [by rewrite !Z.add_0_r|].
  cbn [forallb] in Hw. apply andb_true_iff in Hw as [Hd Hw].
  rewrite scan_ws; [|unfold Param.ws; cbn [existsb]; lia|by right|lia].
  assert ((if d =? 10 then 1 else if d =? 13 then 0 else 0) = 0) as ->.
  { destruct (d =? 13); destruct (Z.eqb_spec d 10); (done || lia). }
  rewrite IH by (done || lia). f_equal; [lia|f_equal; lia].
Qed.

Lemma name_scan nm sp t pre p m k l i x q :
  nm <> [] -> forallb (fun c => negb (Param.ws c) && negb (c =? 58)) nm = true ->
  forallb (fun c => (c =? 32) || (c =? 9)) sp = true ->
  text = pre ++ nm ++ sp ++ 58 :: t -> p = base + Z.of_nat (length pre) ->
  let j := hdr_hash (mk_pl p nm) in
  loop (nm ++ sp ++ 58 :: t) p (at_line m k l i x q) =
  loop t (p + Z.of_nat (length nm) + Z.of_nat (length sp) + 1)
    (st m k p (Z.of_nat (length nm)) j 0 0 (Z.of_nat (length sp)) 0 (hdr_comma_separated j) q).
Proof.
  intros Hne Hnm Hsp Et Ep j. destruct nm as [|c nm]; [done|].
  assert (Z.of_nat (length text) = Z.of_nat (length pre) + 1 + Z.of_nat (length nm) + Z.of_nat (length sp) + 1 + Z.of_nat (length t)) as El.
  { rewrite Et. repeat (rewrite length_app; cbn [length]). lia. }
  pose proof Hnm as Hall. cbn [forallb] in Hnm. rewrite !andb_true_iff, !negb_true_iff in Hnm. destruct Hnm as ([Hc H58]&_).
  unfold at_line. cbn [app length]. rewrite scan_other by done. unfold default_case. cbn [lf comsep].
  rewrite andb_false_r. change (negb (0 =? 0) || false && _) with false. cbn [mbind option_bind]. unfold char. cbn [np].
  change (0 =? 0) with true. cbn match. unfold set_name. cbn [msg nalloc np nl hid v cv ws lf comsep quote].
  change (0 =? 0) with true. cbn match. change (code ":"%char) with 58. rewrite H58. cbn [negb]. unfold set_ws.
  cbn [msg nalloc np nl hid v cv ws lf comsep quote].
  rewrite (name_run nm c) by (done || lia). rewrite sp_run by (done || lia).
  rewrite scan_other by done. unfold default_case. cbn [lf comsep]. change (negb (0 =? 0) || _) with false.
  cbn [mbind option_bind]. unfold char. cbn [np nl]. destruct (Z.eqb_spec p 0); [lia|]. cbn [nl np ws].
  change (0 =? 0) with true. change (58 =? code ":"%char) with true. cbn match. cbn [negb].
  set (len := Z.max _ 0). assert (len = Z.of_nat (S (length nm))) as ->.
  { unfold len. rewrite s32_small; lia. }
  destruct (Z.eqb_spec (Z.of_nat (S (length nm))) 0); [lia|].
  unfold set_name. cbn [msg nalloc np nl hid v cv ws lf comsep quote].
  assert (take (Z.to_nat (Z.of_nat (S (length nm)))) (drop (Z.to_nat (p - base)) text) = c :: nm) as ->.
  { rewrite Nat2Z.id. replace (Z.to_nat (p - base)) with (length pre) by lia. rewrite Et, drop_app_length.
    change (S (length nm)) with (length (c :: nm)). apply take_app_length. }
  fold j. f_equal. f_equal. lia.
Qed.

Lemma comma_name f p : hdr_hash (mk_pl p (fname f)) = hdr_hash (mk_pl 0 (fname f)).
Proof. done. Qed.

(** A line, up to its end. *)
Lemma field_scan f t pre p m0 k0 l0 i0 x0 q0 : field_ok f -> text = pre ++ field_text f ++ t -> p = base + Z.of_nat (length pre) ->
  let i := hdr_hash (mk_pl p (fname f)) in
  let nm := mk_pl p (fname f) in
  let p' := p + Z.of_nat (length (field_text f)) in
  exists init a b x' q',
    result (loop (field_text f ++ t) p (at_line m0 k0 l0 i0 x0 q0)) =
      run_adds k0 m0 init (fun k m => result (loop t p' (st m k p (pl_l nm) i a b x' 1 (hdr_comma_separated i) q'))) /\
    0 <= x' <= p' - base /\ at_end base text nm i p' x' a b init (field_entries f p).
Proof.
  intros [[Hn1 Hn2] Hsp [He1 He2] Hlist Heol] Et Ep i nm p'.
  assert (field_text f ++ t = fname f ++ fsp f ++ 58 :: fvalue f ++ feol f ++ t) as E.
  { unfold field_text. by list_simplifier. }
  rewrite E in *.
  rewrite (name_scan (fname f) (fsp f) (fvalue f ++ feol f ++ t) pre p m0 k0 l0 i0 x0 q0); try done. fold i.
  set (q := p + Z.of_nat (length (fname f)) + Z.of_nat (length (fsp f)) + 1).
  assert (1 <= Z.of_nat (length (fname f))) by (destruct (fname f); [done|cbn; lia]).
  destruct (value_scan inet_pton news base text Hbase Hlen p nm ltac:(lia)) with (ps := elems f) (eol := feol f) (t := t)
    (i := i) (x := length (fsp f)) (q := q0) (pre := pre ++ fname f ++ fsp f ++ [58]) (p := q)
    as (init&a&b&x'&q'&Ev&Hx'&Hend); try done.
  - unfold nm, pl_l. cbn [pl_s]. rewrite Ep. by apply (slice_mid base text pre (fname f) _ Et).
  - unfold nm, pl_l. cbn [pl_s]. lia.
  - rewrite Et. unfold fvalue. by list_simplifier.
  - unfold q. rewrite !length_app. cbn [length]. lia.
  - rewrite !length_app. cbn [length]. lia.
  - assert (q + Z.of_nat (length (join (elems f))) + Z.of_nat (length (feol f)) = p') as Ep'.
    { unfold q, p', field_text, fvalue. repeat (rewrite length_app; cbn [length]). lia. }
    rewrite Ep' in *. exists init, a, b, x', q'. split_and!; [|lia|lia|].
    + apply Ev.
    + intros e He Hs. destruct (Hend e He Hs) as (wa&wb&H1&H2&H3). exists wa, wb. split_and!; [done|done|].
      rewrite H3. unfold field_entries, value_entries. fold nm. fold i. fold q. unfold fvalue. by destruct (elems f) as [|? [|]].
Qed.

Lemma field_head f : field_ok f -> exists c r, field_text f = c :: r /\ Param.ws c = false.
Proof.
  intros [[Hn1 Hn2] _ _ _ _]. unfold field_text. destruct (fname f) as [|c nm]; [done|]. cbn [forallb] in Hn2.
  rewrite !andb_true_iff, !negb_true_iff in Hn2. exists c, (nm ++ fsp f ++ 58 :: fvalue f ++ feol f). by split; [|apply Hn2].
Qed.

(** All lines, up to the empty one. *)
Lemma fields_scan eol t fs : fs <> [] -> Forall field_ok fs -> eol_ok eol -> forall pre p m k l i x q,
  text = pre ++ fields_text fs ++ eol ++ t -> p = base + Z.of_nat (length pre) ->
  result (loop (fields_text fs ++ eol ++ t) p (at_line m k l i x q)) =
  run_adds k m (entries fs p (Z.of_nat (length eol))) (fun _ m => Some (0, m, Some t)).
Proof.
  intros Hne Hfs Heol. induction Hfs as [|f fs Hf Hfs IH]; [done|]. intros pre p m k l i x q Et Ep. clear Hne.
  pose proof Hf as [[Hn1 Hn2] _ _ _ _].
  assert (1 <= Z.of_nat (length (fname f))) as Hn3 by (destruct (fname f); [done|cbn; lia]).
  unfold fields_text in *. cbn [map concat] in *. rewrite <- app_assoc in *.
  assert (Z.of_nat (length text) = Z.of_nat (length pre) + Z.of_nat (length (field_text f)) +
    Z.of_nat (length (concat (map field_text fs))) + Z.of_nat (length eol) + Z.of_nat (length t)) as El.
  { rewrite Et, !length_app. lia. }
  assert (slice base text p (pl_l (mk_pl p (fname f))) = Some (mk_pl p (fname f))) as Hnm.
  { unfold pl_l. cbn [pl_s]. rewrite Ep. eapply slice_mid. rewrite Et. unfold field_text. by rewrite <- app_assoc. }
  destruct (field_scan f _ pre p m k l i x q Hf Et Ep) as (init&a&b&x'&q'&E&Hx'&Hend). rewrite E. clear E.
  cbn [entries]. set (p' := p + Z.of_nat (length (field_text f))) in *. destruct fs as [|f2 fs].
  - destruct (Hend (Z.of_nat (length eol))) as (wa&wb&H1&H2&<-); [lia|unfold p'; lia|].
    cbn [map concat app entries]. rewrite app_nil_r, run_app. apply run_ext. intros k1 m1.
    apply end_of_header; try done; unfold p', pl_l in *; cbn [pl_s]; lia.
  - pose proof Hfs as [Hf2 _]%Forall_cons. destruct (field_head f2 Hf2) as (c&r&Ec&Hc).
    destruct (Hend 0) as (wa&wb&H1&H2&H3); [lia|unfold p'; lia|]. rewrite !Z.add_0_r in *. rewrite <- H3.
    rewrite run_app, run_app. apply run_ext. intros k1 m1.
    assert (concat (map field_text (f2 :: fs)) ++ eol ++ t = c :: (r ++ concat (map field_text fs) ++ eol ++ t)) as Erest.
    { cbn [map concat]. rewrite Ec. by list_simplifier. }
    rewrite Erest.
    rewrite (next_line inet_pton news base text) with (wa := wa) (wb := wb);
      [|try done; unfold pl_l; cbn [pl_s]; lia..].
    apply run_ext. intros k2 m2. rewrite <- Erest. apply (IH ltac:(done) (pre ++ field_text f)).
    + rewrite Et. by list_simplifier.
    + rewrite length_app. unfold p'. lia.
Qed.

End Fields.

(** *** Messages *)

Definition start_ok (l : start) : Prop :=
  (w1 l <> [] /\ forallb (fun c => negb (Param.ws c)) (w1 l) = true) /\
  (w2 l <> [] /\ forallb (fun c => negb (Param.ws c)) (w2 l) = true) /\
  free [13; 10] (w3 l) = true /\ forallb (fun c => c =? 13) (crs l) = true.

Lemma start_eval p l r : start_ok l -> Z.of_nat (length (start_text l)) <= UINT32_MAX -> exists caps,
  eval start_items p (start_text l ++ r) = Hit caps /\
  stored [true; true; true; false; true] caps = start_outs p l.
Proof.
  intros ([H1 H1']&[H2 H2']&H3&H4) Hl. unfold start_text in *.
  repeat (rewrite length_app in Hl; cbn [length] in Hl).
  assert (forall w, forallb (fun c => negb (Param.ws c)) w = true ->
    forallb (in_class (map single [32; 9; 13; 10]) true) w = true) as Hcls.
  { intros w Hw. apply free_class; [done|]. unfold free. eapply forallb_impl; [|exact Hw].
    intros c. unfold Param.ws. cbn [existsb]. lia. }
  assert (forall l : list Z, l <> [] -> 1 <= Z.of_nat (length l)) as Hlen by (intros []; simpl; [done|lia]).
  apply Hlen in H1, H2. repeat (rewrite <- app_assoc; cbn [app]). unfold start_items.
  rewrite eval_plain by (by apply Hcls || done || lia). rewrite eval_lit by done.
  rewrite eval_plain by (by apply Hcls || done || lia). rewrite eval_lit by done.
  rewrite eval_plain; [|by apply free_class| |lia].
  2: { destruct (crs l) as [|c w]; [done|]. cbn [forallb] in H4. apply andb_true_iff in H4 as [->%Z.eqb_eq _]. done. }
  rewrite eval_plain; [| |done|lia].
  2: { eapply forallb_impl; [|exact H4]. intros c ->%Z.eqb_eq. done. }
  change (10 :: r) with ([10] ++ r). rewrite (eval_full _ _ 1 1 [] _ [10] r) by done.
  cbn [eval capture]. eexists. split; [reflexivity|]. done.
Qed.

Abbreviation empty_table := (Hash.mk_hash (replicate 32 []) 32).

(** C27: a message whose start line, header fields and empty line are well-formed is decoded
    like this: the start line sets the members of a request or of a response, and then
    every element of every field, without the white space around it, is added in order,
    and, if the field is a list, the field as a whole after its elements.  The first error
    is the result; otherwise the buffer is left at the body.  Lines may be folded, and end
    with a line feed alone. *)
Theorem sip_msg_decode_lines inet_pton pb b text rand news l fs eol body :
  start_ok l -> fs <> [] -> Forall field_ok fs -> eol_ok eol ->
  text = start_text l ++ fields_text fs ++ eol ++ body ->
  0 < Mbuf.buf b -> 0 <= Mbuf.pos b -> Z.of_nat (length text) < 2147483648 ->
  let p := Mbuf.buf b + Mbuf.pos b in
  let q := p + Z.of_nat (length (w1 l)) + 1 in
  let r := q + Z.of_nat (length (w2 l)) + 1 in
  sip_msg_decode inet_pton pb b text true true rand news =
    ('(err, m) ← start_decode inet_pton (new_msg pb rand empty_table (bool_decide (w3 l = c_str "SIP/2.0")))
                   (mk_pl p (w1 l)) (mk_pl q (w2 l)) (mk_pl r (w3 l));
     if negb (err =? 0) then Some (err, None, b)
     else
       '(err, m) ← add_all inet_pton news 0 m (entries fs (p + Z.of_nat (length (start_text l))) (Z.of_nat (length eol)));
       if negb (err =? 0) then Some (err, None, b)
       else Some (0, Some m, Mbuf.mk_mbuf (Mbuf.buf b) (Mbuf.size b) (Mbuf.end_ b - Z.of_nat (length body)) (Mbuf.end_ b))).
Proof.
  intros Hl Hne Hfs Heol Et Hbuf Hpos Hlen p q r. unfold sip_msg_decode.
  assert (length text = (length (start_text l) + length (fields_text fs ++ eol ++ body))%nat) as El.
  { by rewrite Et, length_app. }
  destruct (Z.eqb_spec (Mbuf.buf b) 0); [lia|]. fold p.
  destruct (start_eval p l (fields_text fs ++ eol ++ body) Hl) as (caps&Ecaps&Es); [unfold UINT32_MAX; lia|]. rewrite <- Et in Ecaps.
  rewrite (re_regex_eval _ _ start_items (mk_pl p text) caps); [|exact start_items_ok|discriminate|cbn; lia|cbn; lia| |exact Ecaps].
  2: { cbn [pl_s]. intros E. rewrite E in El. unfold start_text in El. rewrite length_app in El. cbn in El. lia. }
  rewrite Es. cbn [mbind option_bind]. change (negb (0 =? 0)) with false. cbn match.
  destruct (start_args p l) as (->&->&->&->). cbn [mbind option_bind pl_p]. rewrite Z.eqb_refl. cbn [negb].
  change (Hash.hash_alloc HDR_HASH_SIZE true) with (0, Some (empty_table : Hash.hash sip_hdr)). cbn match. fold q r.
  assert ((pl_strcmp (Some (mk_pl r (w3 l))) (Some (mk_pl 1 (c_str "SIP/2.0"))) =? 0) =
    bool_decide (w3 l = c_str "SIP/2.0")) as -> by (rewrite pl_strcmp_text by (cbn [pl_p]; unfold r, q, p; lia); done).
  destruct (start_decode _ _ _ _ _) as [[err m]|]; [|done]. cbn [mbind option_bind]. err_case err; [|done].
  set (q' := _ + pl_l _). assert (q' = p + Z.of_nat (length (start_text l))) as ->.
  { unfold q', start_text, pl_l, r, q. cbn [pl_p pl_s length]. repeat (rewrite length_app; cbn [length]). lia. }
  replace (Z.to_nat (p + Z.of_nat (length (start_text l)) - p)) with (length (start_text l)) by lia.
  assert (drop (length (start_text l)) text = fields_text fs ++ eol ++ body) as -> by (rewrite Et; apply drop_app_length).
  pose proof (fields_scan inet_pton news p text ltac:(unfold p; lia) Hlen eol body fs Hne Hfs Heol (start_text l)
    (p + Z.of_nat (length (start_text l))) m 0 0 SIP_HDR_NONE 0 false Et eq_refl) as H.
  unfold at_line, run in H. destruct (scan_loop _ _ _ _ _ _ _) as [[[e s] t]|] eqn:Escan.
  - unfold result in H. cbn [mbind option_bind] in H.
    destruct (add_all _ _ _ _ _) as [[e' m']|]; [|done]. cbn [mbind option_bind] in *.
    destruct (Z.eqb_spec e' 0) as [->|]; cbn [negb] in *.
    + destruct (Z.eqb_spec e 0) as [->|]; [|by injection H as ? _ _]. injection H as <- <-. done.
    + destruct (Z.eqb_spec e 0) as [->|]; [by injection H as ? _ _|]. injection H as -> _. by destruct (Z.eqb_spec e' 0).
  - unfold result in H. cbn [mbind option_bind] in H. destruct (add_all _ _ _ _ _) as [[e' m']|]; [|done].
    cbn [mbind option_bind] in H. by destruct (negb (e' =? 0)).
Qed.

(** ** What the lookups find *)

Definition hdr_of (e : entry) : sip_hdr := mk_sip_hdr (e_name e) (e_val e) (e_id e).
Definition is_listed (e : entry) : bool := listed (hdr_of e) (e_atomic e) (e_line e).
(** The values of one identifier. *)
Definition values (i : Z) (es : list entry) : list sip_hdr :=
  map hdr_of (filter (fun e => e_atomic e = true /\ e_id e = i) es).

Section Lookup.
Context (inet_pton : Z -> list Z -> option (list Z)) (news : nat -> Z).

(** The table of [m] holds [vs i] for every identifier [i]. *)
Definition table_holds (m : sip_msg) (vs : Z -> list sip_hdr) : Prop :=
  Hash.bsize (hdrht m) = HDR_HASH_SIZE /\ length (Hash.bucket (hdrht m)) = 32%nat /\
  forall i, exists l, Hash.hash_list (hdrht m) i = Some l /\ filter (fun h => id h = i) (map Hash.edata l) = vs i.

Lemma index_bound (h : Hash.hash sip_hdr) i : Hash.bsize h = HDR_HASH_SIZE -> (Hash.index h i < 32)%nat.
Proof.
  intros E. unfold Hash.index. rewrite E. change (u32 (HDR_HASH_SIZE - 1)) with (Z.ones 5). rewrite Z.land_ones by done.
  pose proof (Z.mod_pos_bound i (2 ^ 5) eq_refl). lia.
Qed.

Lemma hdr_add_holds a m e err m' vs : table_holds m vs ->
  hdr_add inet_pton a m (e_name e) (e_id e) (e_val e) (e_atomic e) (e_line e) = Some (err, m') -> err = 0 ->
  table_holds m' (fun i => vs i ++ values i [e]) /\ hdrl m' = hdrl m ++ map hdr_of (List.filter is_listed [e]).
Proof.
  intros (Hb&Hl&Ht) E Herr. unfold hdr_add in E. destruct (a =? 0); [injection E as <- <-; done|].
  change (mk_sip_hdr (e_name e) (e_val e) (e_id e)) with (hdr_of e) in E.
  set (r := if tabled (hdr_of e) (e_atomic e) then _ else _) in E.
  assert (exists m1, r = Some m1 /\ table_holds m1 (fun i => vs i ++ values i [e]) /\ hdrl m1 = hdrl m) as (m1&Er&Ht1&El1).
  { unfold r, tabled, values. clear E r. destruct (e_atomic e) eqn:Ha.
    2: { exists m. split_and!; [done| |done]. split_and!; [done|done|]. intros i. destruct (Ht i) as (l&E1&E2). exists l.
         split; [done|]. rewrite filter_cons_False by (intros [? _]; congruence). cbn. by rewrite app_nil_r. }
    unfold Hash.hash_append.
    destruct (lookup_lt_is_Some_2 (Hash.bucket (hdrht m)) (Hash.index (hdrht m) (e_id e))) as [l0 E0].
    { rewrite Hl. by apply index_bound. }
    rewrite E0. cbn [mbind option_bind]. eexists. split; [reflexivity|]. split; [|done].
    split_and!; cbn [hdrht set_hdrht Hash.bsize Hash.bucket]; [done|by rewrite length_insert|].
    intros i. destruct (Ht i) as (l&E1&E2). unfold Hash.hash_list in *. cbn [Hash.bucket Hash.bsize].
    change (Hash.index (Hash.mk_hash _ (Hash.bsize (hdrht m))) i) with (Hash.index (hdrht m) i).
    destruct (decide (Hash.index (hdrht m) i = Hash.index (hdrht m) (e_id e))) as [Ei|Ei].
    - rewrite Ei in *. assert (l0 = l) as -> by congruence. rewrite list_lookup_insert_eq.
      2: { rewrite Hl. by apply index_bound. }
      eexists. split; [reflexivity|]. rewrite map_app, filter_app, E2. f_equal. cbn [map Hash.edata].
      destruct (decide (e_id e = i)) as [He|He].
      + rewrite !filter_cons_True by done. by rewrite filter_nil.
      + rewrite !filter_cons_False by (done || by intros [_ ?]). by rewrite filter_nil.
    - rewrite list_lookup_insert_ne by done. exists l. split; [done|]. rewrite E2.
      rewrite filter_cons_False by (intros [_ He]; by rewrite He in Ei). cbn. by rewrite app_nil_r. }
  rewrite Er in E. cbn [mbind option_bind] in E. clear Er r.
  set (m2 := if listed (hdr_of e) (e_atomic e) (e_line e) then _ else m1) in E.
  assert (hdrht m2 = hdrht m1 /\ hdrl m2 = hdrl m ++ map hdr_of (List.filter is_listed [e])) as [E1 E2].
  { unfold m2. cbn [List.filter]. unfold is_listed. destruct (listed _ _ _); cbn; [by rewrite El1|by rewrite app_nil_r]. }
  destruct (parse_common_defined inet_pton m2 (hdr_of e) (e_atomic e)) as (e'&m3&E3&E4&E5).
  rewrite E3 in E. injection E as _ <-. rewrite E4, E2. split; [|done]. unfold table_holds. rewrite E5, E1. exact Ht1.
Qed.

Lemma add_all_holds es : forall k m m' vs, table_holds m vs -> add_all inet_pton news k m es = Some (0, m') ->
  table_holds m' (fun i => vs i ++ values i es) /\ hdrl m' = hdrl m ++ map hdr_of (List.filter is_listed es).
Proof.
  induction es as [|e es IH]; intros k m m' vs Hm E.
  - injection E as <-. cbn. rewrite app_nil_r. split; [|done]. destruct Hm as (H1&H2&H3). split_and!; [done|done|].
    intros i. destruct (H3 i) as (l&?&?). exists l. unfold values. cbn. by rewrite app_nil_r.
  - cbn [add_all] in E. destruct (hdr_add _ _ _ _ _ _ _ _) as [[err m1]|] eqn:Ea; [|done]. cbn [mbind option_bind] in E.
    destruct (Z.eqb_spec err 0) as [->|]; [|cbn in E; congruence]. cbn [negb] in E.
    destruct (hdr_add_holds _ m e 0 m1 vs Hm Ea eq_refl) as [H1 H2]. destruct (IH _ _ _ _ H1 E) as [H3 H4]. split.
    + destruct H3 as (?&?&H3). split_and!; [done|done|]. intros i. destruct (H3 i) as (l&?&Ev). exists l. split; [done|]. rewrite Ev.
      rewrite <- app_assoc. f_equal. unfold values. by rewrite <- map_app, <- filter_app.
    + rewrite H4, H2, <- app_assoc. f_equal. cbn [List.filter]. by destruct (is_listed e).
Qed.

Lemma apply_first i l : apply_hdrs (W := unit) (fun h => id h =? i) None l tt = (head (filter (fun h => id h = i) l), tt).
Proof.
  induction l as [|h l IH]; [done|]. cbn [apply_hdrs]. destruct (Z.eqb_spec (id h) i); cbn [negb].
  - by rewrite filter_cons_True.
  - by rewrite filter_cons_False.
Qed.

Lemma apply_count i l : forall n, 0 <= n < 4294967296 -> apply_hdrs (fun h => id h =? i) (Some count_handler) l n =
  (None, u32 (n + Z.of_nat (length (filter (fun h => id h = i) l)))).
Proof.
  induction l as [|h l IH]; intros n Hn.
  - cbn. by rewrite Z.add_0_r, u32_small.
  - cbn [apply_hdrs]. destruct (Z.eqb_spec (id h) i); cbn [negb].
    + unfold count_handler at 1. cbn match. rewrite IH by apply u32_range. rewrite filter_cons_True by done. cbn [length].
      unfold u32. rewrite Zplus_mod_idemp_l. do 2 f_equal. lia.
    + rewrite IH by done. by rewrite filter_cons_False.
Qed.

Lemma apply_value i value l : apply_hdrs (fun h => id h =? i) (Some (value_handler value)) l tt =
  (head (filter (fun h => pl_strcasecmp (Some (val h)) (Some value) = 0) (filter (fun h => id h = i) l)), tt).
Proof.
  induction l as [|h l IH]; [done|]. cbn [apply_hdrs]. destruct (Z.eqb_spec (id h) i); cbn [negb].
  - rewrite (filter_cons_True (fun h => id h = i)) by done. unfold value_handler at 1. cbn match.
    destruct (Z.eqb_spec (pl_strcasecmp (Some (val h)) (Some value)) 0).
    + by rewrite filter_cons_True.
    + rewrite filter_cons_False by done. apply IH.
  - by rewrite (filter_cons_False (fun h => id h = i)) by done.
Qed.

(** Once the entries of a message have been added, its table holds for every
    identifier exactly the values of that identifier, in order: the lookup returns the
    first, the count is their number, and a value is found if and only if one of them is
    equal to it up to case; and its list holds the whole fields, those of Via and Route
    element by element. *)
Theorem sip_msg_headers m0 m es value : add_all inet_pton news 0 m0 es = Some (0, m) ->
  hdrl m0 = [] -> hdrht m0 = empty_table ->
  hdrl m = map hdr_of (List.filter is_listed es) /\
  forall i, sip_msg_hdr m i = Some (head (values i es)) /\
    sip_msg_hdr_count m i = Some (u32 (Z.of_nat (length (values i es)))) /\
    sip_msg_hdr_has_value m i value =
      Some (existsb (fun h => pl_strcasecmp (Some (val h)) (Some value) =? 0) (values i es)).
Proof.
  intros E Hl Ht. destruct (add_all_holds es 0 m0 m (fun _ => []) ) as [(_&_&H) H2]; [|done|].
  { split_and!; [by rewrite Ht|by rewrite Ht|]. intros i. exists []. split; [|done]. rewrite Ht. unfold Hash.hash_list.
    apply lookup_replicate. split; [done|]. by apply (index_bound empty_table). }
  rewrite Hl in H2. split; [done|]. intros i. destruct (H i) as (l&El&Ev). cbn [app] in Ev.
  unfold sip_msg_hdr, sip_msg_hdr_count, sip_msg_hdr_has_value, sip_msg_hdr_apply, bucket_of.
  rewrite El. cbn [mbind option_bind]. rewrite apply_first, apply_count, apply_value, Ev by done. cbn [fst snd].
  split_and!; [done|done|]. f_equal. clear Ev. induction (values i es) as [|h vs IH]; [done|]. cbn [existsb].
  destruct (Z.eqb_spec (pl_strcasecmp (Some (val h)) (Some value)) 0).
  - rewrite filter_cons_True by done. done.
  - rewrite filter_cons_False by done. exact IH.
Qed.

End Lookup.

(** ** Examples *)

(** A list, a folded line, compact names and a line that ends without a carriage return. *)
Definition ex_start : start := mk_start (c_str "INVITE") (c_str "sip:bob@h") (c_str "SIP/2.0") [13] [].
Definition ex_fields : list field :=
  [mk_field (c_str "Via") [] [c_str " SIP/2.0/UDP 1.2.3.4:5062;branch=z9 "; c_str " SIP/2.0/TCP a;branch=q"] [13; 10];
   mk_field (c_str "f") [] [c_str " <sip:a@b>;tag=77"] [13; 10];
   mk_field (c_str "To") [32] [c_str "sip:b@c"] [10];
   mk_field (c_str "X-Foo") [] [c_str " a\r\n b, c "] [13; 10];
   mk_field (c_str "Subject") [] [[]] [13; 10];
   mk_field (c_str "CSeq") [] [c_str " 1 INVITE"] [13; 10]].
Definition ex_text : list Z := start_text ex_start ++ fields_text ex_fields ++ [13; 10] ++ c_str "body".
Definition ex_buf : Mbuf.mbuf := Mbuf.mk_mbuf 1000 500 0 (Z.of_nat (length ex_text)).
Definition ex_news (k : nat) : Z := 5000 + Z.of_nat k.

Lemma ex_start_ok : start_ok ex_start.
Proof. by split_and!. Qed.

Definition field_check (f : field) : bool :=
  match fname f with [] => false | _ => true end &&
  forallb (fun c => negb (Param.ws c) && negb (c =? 58)) (fname f) &&
  forallb (fun c => (c =? 32) || (c =? 9)) (fsp f) &&
  match elems f with [] => false | _ => true end && forallb (fold_ok false) (elems f) &&
  (if hdr_comma_separated (hdr_hash (mk_pl 0 (fname f)))
   then match elems f with [w] => blank w | _ => false end ||
        forallb (fun w => negb (blank w) && no_comma false w && negb (quotes false w)) (elems f)
   else match elems f with [_] => true | _ => false end) &&
  (bool_decide (feol f = [10]) || bool_decide (feol f = [13; 10])).

Lemma field_check_ok f : field_check f = true -> field_ok f.
Proof.
  unfold field_check. rewrite !andb_true_iff, orb_true_iff, !bool_decide_eq_true.
  intros ((((((Hn&Hn')&Hsp)&He)&Hf)&Hl)&Heol). split.
  - split; [by destruct (fname f)|done].
  - done.
  - split; [by destruct (elems f)|]. apply Forall_forall. intros w Hw%list_elem_of_In. rewrite forallb_forall in Hf. by apply Hf.
  - destruct (hdr_comma_separated _).
    + apply orb_true_iff in Hl as [Hl|Hl].
      * left. destruct (elems f) as [|w [|]]; [done| |done]. by exists w.
      * right. apply Forall_forall. intros w Hw%list_elem_of_In. rewrite forallb_forall in Hl. specialize (Hl w Hw).
        rewrite !andb_true_iff, !negb_true_iff in Hl. tauto.
    + destruct (elems f) as [|w [|]]; [done| |done]. by exists w.
  - exact Heol.
Qed.

Lemma ex_fields_ok : Forall field_ok ex_fields.
Proof. repeat (apply Forall_cons_2; [apply field_check_ok; vm_compute; reflexivity|]). constructor. Qed.

Lemma sip_msg_decode_lines_witness :
  sip_msg_decode Sa.ex_pton 50 ex_buf ex_text true true 7 ex_news =
    ('(err, m) ← start_decode Sa.ex_pton (new_msg 50 7 empty_table true)
                   (mk_pl 1000 (c_str "INVITE")) (mk_pl 1007 (c_str "sip:bob@h")) (mk_pl 1017 (c_str "SIP/2.0"));
     if negb (err =? 0) then Some (err, None, ex_buf)
     else
       '(err, m) ← add_all Sa.ex_pton ex_news 0 m (entries ex_fields 1026 2);
       if negb (err =? 0) then Some (err, None, ex_buf)
       else Some (0, Some m, Mbuf.mk_mbuf 1000 500 (Mbuf.end_ ex_buf - 4) (Mbuf.end_ ex_buf))).
Proof.
  apply (sip_msg_decode_lines Sa.ex_pton 50 ex_buf ex_text 7 ex_news ex_start ex_fields [13; 10] (c_str "body"));
    [exact ex_start_ok|discriminate|exact ex_fields_ok|right; reflexivity|reflexivity|reflexivity|discriminate|reflexivity].
Defined.

Example decoded_values :
  match sip_msg_decode Sa.ex_pton 50 ex_buf ex_text true true 7 ex_news with
  | Some (0, Some m, b) => Some (map (fun h => pl_s (val h)) (hdrl m), Mbuf.end_ b - Mbuf.pos b)
  | _ => None end =
  Some ([c_str "SIP/2.0/UDP 1.2.3.4:5062;branch=z9"; c_str "SIP/2.0/TCP a;branch=q"; c_str "<sip:a@b>;tag=77";
         c_str "sip:b@c"; c_str "a\r\n b, c"; []; c_str "1 INVITE"], 4).
Proof. vm_compute. reflexivity. Qed.

Lemma sip_msg_decode_safe_witness : exists err m b',
  sip_msg_decode Sa.ex_pton 50 (Mbuf.mk_mbuf 1000 500 0 3) [1; 2; 3] true true 7 ex_news = Some (err, m, b').
Proof.
  destruct (sip_msg_decode_safe Sa.ex_pton 50 (Mbuf.mk_mbuf 1000 500 0 3) [1; 2; 3] true true 7 ex_news)
    as (err&m&b'&E&_); [reflexivity|discriminate|reflexivity|reflexivity|]. exists err, m, b'. exact E.
Defined.

Definition ex_msg : sip_msg := new_msg 50 7 empty_table true.
Definition ex_two : list entry :=
  [mk_entry (mk_pl 1024 (c_str "Via")) SIP_HDR_VIA (mk_pl 1030 (c_str "SIP/2.0/UDP a;branch=z")) true false;
   mk_entry (mk_pl 1060 (c_str "Group")) SIP_HDR_NONE (mk_pl 1070 (c_str "x")) true true].

Lemma sip_msg_headers_witness : exists m, add_all Sa.ex_pton ex_news 0 ex_msg ex_two = Some (0, m) /\
  sip_msg_hdr_count m SIP_HDR_VIA = Some 1.
Proof.
  destruct (add_all Sa.ex_pton ex_news 0 ex_msg ex_two) as [[e m]|] eqn:E; [|vm_compute in E; discriminate].
  assert (e = 0) as -> by (vm_compute in E; injection E as <- _; reflexivity).
  destruct (sip_msg_headers Sa.ex_pton ex_news ex_msg m ex_two pl_null E eq_refl eq_refl) as [_ H].
  exists m. split; [reflexivity|]. destruct (H SIP_HDR_VIA) as (_&Hc&_). rewrite Hc. vm_compute. reflexivity.
Defined.

(** A quote that the value of a field leaves open is still open in front of the next value:
    a comma at its start does not separate elements. *)
Example stale_quote :
  let vias (subject : string) :=
    let t := start_text ex_start ++ c_str "Subject: " ++ c_str subject ++ c_str "\r\nAllow: ,A,B\r\n\r\n" in
    match sip_msg_decode Sa.ex_pton 50 (Mbuf.mk_mbuf 1000 500 0 (Z.of_nat (length t))) t true true 7 ex_news with
    | Some (_, Some m, _) => sip_msg_hdr_count m SIP_HDR_ALLOW | _ => None end in
  vias "x" = Some 3 /\ vias (String (ascii_of_nat 34) EmptyString) = Some 2.
Proof. vm_compute. split; reflexivity. Qed.

(** The status code is read modulo 2^16, so 65736 is taken for 200. *)
Example status_wraps :
  let t := c_str "SIP/2.0 65736 OK\r\nSubject: x\r\n\r\n" in
  match sip_msg_decode Sa.ex_pton 50 (Mbuf.mk_mbuf 1000 500 0 (Z.of_nat (length t))) t true true 7 ex_news with
  | Some (e, Some m, _) => Some (e, scode m) | _ => None end = Some (0, 200).
Proof. vm_compute. reflexivity. Qed.

End SipScan.
