(* ===== verification/Store.v ===== *)
(** * Objects found through hash tables

    The layers of the stack keep their objects in hash tables whose elements are
    embedded in the objects: a table holds addresses, and the handler of a lookup
    reads the object.  The lemmas here relate such tables, with the store of the
    objects, to a list of the live objects, oldest first. *)
From S2P Require Import Prelude Hash.
Import Hash.

Module Store.

Section Store.
Context {T : Type}.

Abbreviation objects := (list (Z * T)).

(** The entries of a table whose elements are added under [key]. *)
Definition keyed (key : T -> Z) (live : objects) : list (Z * elem Z) :=
  (fun x => (key (snd x), mk_elem (fst x) (fst x))) <$> live.

(** The handler of a lookup, on the object of the element. *)
Definition at_elem (objs : gmap Z T) (f : T -> bool) (e : elem Z) : bool :=
  match objs !! edata e with Some s => f s | None => false end.

(** [list_ledata(hash_lookup(...))] *)
Definition find_data (h : hash Z) (k : Z) (objs : gmap Z T) (f : T -> bool) : option (option Z) :=
  r ← hash_lookup h k (at_elem objs f); Some (option_map edata r).

Definition list_find (f : T -> bool) (live : objects) : option (Z * T) :=
  List.find (fun x => f (snd x)) live.
Definition list_get (live : objects) (p : Z) : option T :=
  option_map snd (List.find (fun x => fst x =? p) live).
(** Replace the object at [p], or remove it. *)
Definition list_put (live : objects) (p : Z) (o : option T) : objects :=
  match o with
  | Some s => (fun x => if fst x =? p then (p, s) else x) <$> live
  | None => filter (fun x => fst x <> p) live
  end.

(** The store holds exactly the objects of the list. *)
Record store_ok (objs : gmap Z T) (live : objects) : Prop := {
  so_map : objs = list_to_map live;
  so_nodup : NoDup live.*1 }.

Lemma store_nil : store_ok ∅ [].
Proof. split; [done|constructor]. Qed.

Lemma store_get objs live p s : store_ok objs live -> (p, s) ∈ live -> objs !! p = Some s.
Proof. intros [-> Hn] Hin. by apply elem_of_list_to_map_1. Qed.

Lemma list_find_in g live x : list_find g live = Some x -> x ∈ live.
Proof. intros [H _]%List.find_some. by apply list_elem_of_In. Qed.

Lemma list_get_in live p s : list_get live p = Some s -> (p, s) ∈ live.
Proof.
  unfold list_get. destruct (List.find _ live) as [[q s']|] eqn:E; simpl; [|done].
  intros [= ->]. apply List.find_some in E as [Hin Hq%Z.eqb_eq]. simpl in Hq. subst q.
  by apply list_elem_of_In.
Qed.

Lemma list_get_live live p : p ∈ live.*1 -> exists s, list_get live p = Some s.
Proof.
  intros ([q s]&->&Hin)%list_elem_of_fmap. simpl. unfold list_get.
  destruct (List.find _ live) as [[q' s']|] eqn:E; [by eexists|].
  exfalso. apply list_elem_of_In, (List.find_none _ _ E) in Hin. simpl in Hin. lia.
Qed.

Lemma keyed_app key live p s : keyed key (live ++ [(p, s)]) =
  keyed key live ++ [(key s, mk_elem p p)].
Proof. unfold keyed. by rewrite fmap_app. Qed.

(** A lookup finds the oldest object that the handler accepts. *)
Lemma find_data_ok h key objs live k (f g : T -> bool) :
  table_ok h (keyed key live) -> store_ok objs live ->
  (forall p s, (p, s) ∈ live -> f s = g s) ->
  (forall p s, (p, s) ∈ live -> g s = true -> key s = k) ->
  find_data h k objs f = Some (option_map fst (list_find g live)).
Proof.
  intros Hh Hs Hf Hk. unfold find_data.
  assert (forall x, x ∈ live -> at_elem objs f (mk_elem (fst x) (fst x)) = g (snd x)) as HF.
  { intros [p s] Hin. unfold at_elem. simpl. rewrite (store_get objs live p s) by done.
    by apply (Hf p). }
  rewrite (hash_lookup_ok h (keyed key live)); [|done|].
  - simpl. f_equal. clear Hh Hk Hs Hf. induction live as [|x live IH]; [done|]. simpl.
    rewrite HF by left. destruct (g (snd x)); [done|]. apply IH. intros. apply HF. by right.
  - intros e ([p s]&->&Hx)%list_elem_of_fmap. pose proof (HF (p, s) Hx) as E.
    cbn [fst snd] in *. intros Hg. apply (Hk p); [done|]. by rewrite <- E.
Qed.

(** *** Changing an object *)

Lemma put_fst live p s : (list_put live p (Some s)).*1 = live.*1.
Proof.
  unfold list_put. rewrite <- list_fmap_compose. apply list_fmap_ext. intros i x _. simpl.
  destruct (Z.eqb_spec (fst x) p); simpl; congruence.
Qed.

Lemma put_in objs live p s s' x : store_ok objs live -> (p, s) ∈ live ->
  x ∈ list_put live p (Some s') -> x = (p, s') \/ x ∈ live.
Proof.
  intros _ _ (y&->&Hy)%list_elem_of_fmap. destruct (Z.eqb_spec (fst y) p); auto.
Qed.

Lemma keyed_put key objs live p s s' : store_ok objs live -> (p, s) ∈ live -> key s' = key s ->
  keyed key (list_put live p (Some s')) = keyed key live.
Proof.
  intros Hs Hin Hk. unfold keyed, list_put. rewrite <- list_fmap_compose. apply list_fmap_ext.
  intros i [q r] Hx%list_elem_of_lookup_2. simpl. destruct (Z.eqb_spec q p) as [->|]; [|done].
  pose proof (store_get _ _ _ _ Hs Hx). pose proof (store_get _ _ _ _ Hs Hin).
  simplify_eq. simpl. by rewrite Hk.
Qed.

Lemma store_put objs live p s s' : store_ok objs live -> (p, s) ∈ live ->
  store_ok (<[p := s']> objs) (list_put live p (Some s')).
Proof.
  intros [-> Hn] Hin. split; [|by rewrite put_fst].
  assert (NoDup (list_put live p (Some s')).*1) as Hn' by by rewrite put_fst.
  apply map_eq. intros q. symmetry. destruct (decide (q = p)) as [->|Hq].
  - rewrite lookup_insert_eq. apply elem_of_list_to_map_1; [done|].
    apply list_elem_of_fmap. exists (p, s). simpl. by rewrite Z.eqb_refl.
  - rewrite lookup_insert_ne by done. clear - Hq. induction live as [|[a r] live IH]; [done|].
    unfold list_put in *. rewrite fmap_cons. simpl. destruct (Z.eqb_spec a p); simpl.
    + subst a. by rewrite !lookup_insert_ne.
    + destruct (decide (a = q)) as [->|]; [by rewrite !lookup_insert_eq|].
      by rewrite !lookup_insert_ne.
Qed.

(** *** Removing an object *)

Lemma keyed_remove key live p :
  filter (fun e : Z * elem Z => le (snd e) <> p) (keyed key live) =
  keyed key (list_put live p None).
Proof.
  induction live as [|x live IH]; [done|]. unfold keyed, list_put in *.
  rewrite fmap_cons, !filter_cons. simpl.
  destruct (decide (fst x <> p)); simpl; by rewrite IH.
Qed.

Lemma table_remove h key live p : table_ok h (keyed key live) ->
  table_ok (hash_unlink h p) (keyed key (list_put live p None)).
Proof. intros H. rewrite <- keyed_remove. by apply hash_unlink_ok. Qed.

Lemma remove_in live p x : x ∈ list_put live p None -> x ∈ live.
Proof. by intros [_ ?]%list_elem_of_filter. Qed.

Lemma remove_fst (live : objects) p q : q ∈ (list_put live p None).*1 -> q ∈ live.*1 /\ q <> p.
Proof.
  intros (x&->&[Hp Hx]%list_elem_of_filter)%list_elem_of_fmap. split; [|done].
  by apply list_elem_of_fmap_2.
Qed.

Lemma store_remove objs live p : store_ok objs live ->
  store_ok (delete p objs) (list_put live p None).
Proof.
  intros [-> Hn]. split.
  - clear Hn. apply map_eq. intros q. destruct (decide (q = p)) as [->|Hq].
    + rewrite lookup_delete_eq. symmetry. apply not_elem_of_list_to_map_1.
      intros Hin. by apply remove_fst in Hin as [_ ?].
    + rewrite lookup_delete_ne by done. unfold list_put.
      induction live as [|[a r] live IH]; [done|].
      rewrite filter_cons. simpl. destruct (decide (a <> p)) as [|Ha]; simpl.
      * destruct (decide (a = q)) as [->|]; [by rewrite !lookup_insert_eq|].
        by rewrite !lookup_insert_ne.
      * destruct (decide (a = p)) as [->|]; [|tauto]. by rewrite lookup_insert_ne.
  - induction live as [|x live IH]; [done|]. unfold list_put in *.
    rewrite fmap_cons in Hn. apply NoDup_cons in Hn as [Hnx Hd]. rewrite filter_cons.
    destruct (decide (fst x <> p)); [|by apply IH]. rewrite fmap_cons. apply NoDup_cons.
    split; [|by apply IH]. intros Hin. by apply (remove_fst live p) in Hin as [? _].
Qed.

Lemma remove_added live p s : ~ (p ∈ (live : objects).*1) -> list_put (live ++ [(p, s)]) p None = live.
Proof.
  intros Hp. unfold list_put. rewrite filter_app, filter_cons_False by (simpl; tauto).
  rewrite app_nil_r. apply filter_all. intros x Hx <-.
  destruct Hp. by apply list_elem_of_fmap_2.
Qed.

(** *** Adding an object *)

Lemma store_add objs live p s : store_ok objs live -> ~ (p ∈ live.*1) ->
  store_ok (<[p := s]> objs) (live ++ [(p, s)]).
Proof.
  intros [-> Hn] Hp. split.
  - rewrite list_to_map_app. simpl. rewrite <- insert_union_r, map_union_empty; [done|].
    by apply not_elem_of_list_to_map_1.
  - rewrite fmap_app. apply NoDup_app. split; [done|]. split; [|apply NoDup_singleton].
    intros q Hq Hq'. apply list_elem_of_singleton in Hq'. simpl in Hq'. by subst.
Qed.

Lemma table_add h key live p s : table_ok h (keyed key live) ->
  exists h', hash_append h (key s) p p = Some h' /\ table_ok h' (keyed key (live ++ [(p, s)])).
Proof.
  intros Hh. destruct (hash_append_ok _ _ (key s) p p Hh) as (h'&E&_&?). exists h'.
  by rewrite keyed_app.
Qed.

End Store.

End Store.
