(* ===== verification/Ctrans.v ===== *)
(** * SIP client transactions: src/libre/src/sip/ctrans.c

    The state machine of one transaction with its two timers, and the table that
    routes responses to it.  The clock, the results of the transport and the
    arrival of responses are events; sending and the calls of the response
    handler are recorded as actions.  [None] is undefined behaviour. *)
From S2P Require Import Prelude Pl Hash Store.
Import Pl Hash Store.

Module Ctrans.

(** Timer values of [re_sip.h], in milliseconds. *)
Definition SIP_T1 : Z := 500.
Definition SIP_T2 : Z := 4000.
Definition SIP_T4 : Z := 5000.
Definition COMPLETE_WAIT : Z := 32000.

Inductive state := TRYING | CALLING | PROCEEDING | COMPLETED.
#[export] Instance state_eq_dec : EqDecision state.
Proof. solve_decision. Defined.

(** [struct sip_ctrans].  A running timer is its expiry; [reliable] is
    [sip_transp_reliable(ct->tp)], [mb_ack] whether the ACK could be built. *)
Record ctrans := mk_ct {
  tmr : option Z;
  tmre : option Z;
  met : list Z;
  branch : list Z;
  reliable : bool;
  st : state;
  txc : Z;          (** uint32_t *)
  invite : bool;
  mb_ack : bool }.

Definition set_timers (ct : ctrans) (t te : option Z) : ctrans :=
  mk_ct t te (met ct) (branch ct) (reliable ct) (st ct) (txc ct) (invite ct) (mb_ack ct).
Definition set_state (ct : ctrans) (s : state) : ctrans :=
  mk_ct (tmr ct) (tmre ct) (met ct) (branch ct) (reliable ct) s (txc ct) (invite ct) (mb_ack ct).
Definition set_txc (ct : ctrans) (n : Z) : ctrans :=
  mk_ct (tmr ct) (tmre ct) (met ct) (branch ct) (reliable ct) (st ct) n (invite ct) (mb_ack ct).
Definition set_ack (ct : ctrans) (b : bool) : ctrans :=
  mk_ct (tmr ct) (tmre ct) (met ct) (branch ct) (reliable ct) (st ct) (txc ct) (invite ct) b.

(** What a handler does: transmissions and calls of [resph] with the error and
    the status code of the message. *)
Inductive act :=
| Send                                   (** the request *)
| SendAck
| SendCancel
| Resph (err : Z) (scode : option Z).

(** The transaction afterwards, [None] when it was destroyed. *)
Definition outcome : Type := option ctrans * list act.

(** [tmr_start]: the expiry of a timer started now. *)
Definition expiry (now delay : Z) : option Z := Some (u64 (delay + now)).

(** [SIP_T1 << n] in [int]. *)
Definition shl_T1 (n : Z) : option Z :=
  if (n <? 32) && (SIP_T1 * 2 ^ n <=? 2147483647) then Some (SIP_T1 * 2 ^ n) else None.

Definition terminate (ct : ctrans) (err : Z) : list act :=
  match st ct with
  | TRYING | CALLING | PROCEEDING => [Resph err None]
  | COMPLETED => []
  end.

Definition transport_handler (ct : ctrans) (err : Z) : outcome := (None, terminate ct err).
Definition tmr_handler (ct : ctrans) : outcome := (None, terminate ct ETIMEDOUT).

(** [send_err]: the result of [sip_transp_send]. *)
Definition retransmit_handler (now : Z) (ct : ctrans) (send_err : Z) : option outcome :=
  let ct1 := set_txc ct (u32 (txc ct + 1)) in
  timeout ← match st ct1 with
            | TRYING => s ← shl_T1 (txc ct1); Some (Some (Z.min s SIP_T2))
            | CALLING => s ← shl_T1 (txc ct1); Some (Some s)
            | PROCEEDING => Some (Some SIP_T2)
            | COMPLETED => Some None
            end;
  match timeout with
  | None => Some (Some ct1, [])
  | Some timeout =>
      let ct2 := set_timers ct1 (tmr ct1) (expiry now timeout) in
      if negb (send_err =? 0) then Some (None, Send :: terminate ct2 send_err)
      else Some (Some ct2, [Send])
  end.

(** [sip_send] with a null buffer sends nothing. *)
Definition send_ack (ct : ctrans) : list act := if mb_ack ct then [SendAck] else [].

(** [ack]: whether [request_copy] succeeds. *)
Definition invite_response (now : Z) (ct : ctrans) (scode : Z) (ack : bool) : outcome :=
  let proceeding (ct : ctrans) : outcome :=
    if scode <? 200 then (Some (set_state ct PROCEEDING), [Resph 0 (Some scode)])
    else if scode <? 300 then (None, [Resph 0 (Some scode)])
    else
      let ct1 := set_ack (set_state ct COMPLETED) (mb_ack ct || ack) in
      let acts := send_ack ct1 ++ [Resph 0 (Some scode)] in
      if reliable ct1 then (None, acts)
      else (Some (set_timers ct1 (expiry now COMPLETE_WAIT) (tmre ct1)), acts) in
  match st ct with
  | CALLING => proceeding (set_timers ct None None)
  | PROCEEDING => proceeding ct
  | COMPLETED => if scode <? 300 then (Some ct, []) else (Some ct, send_ack ct)
  | TRYING => (Some ct, [])
  end.

(** [response_handler] once the transaction is found. *)
Definition handle_response (now : Z) (ct : ctrans) (scode : Z) (ack : bool) : outcome :=
  if invite ct then invite_response now ct scode ack
  else
    match st ct with
    | TRYING | PROCEEDING =>
        if scode <? 200 then (Some (set_state ct PROCEEDING), [Resph 0 (Some scode)])
        else
          let ct1 := set_state ct COMPLETED in
          if reliable ct1 then (None, [Resph 0 (Some scode)])
          else (Some (set_timers ct1 (expiry now SIP_T4) None), [Resph 0 (Some scode)])
    | _ => (Some ct, [])
    end.

Definition INVITE : list Z := [73; 78; 86; 73; 84; 69].
Definition CANCEL : list Z := [67; 65; 78; 67; 69; 76].

(** The new transaction, if the request can be sent; [alloc]: whether it can be
    allocated. *)
Definition sip_ctrans_request (now : Z) (rel : bool) (m b : list Z) (alloc : bool)
    (send_err : Z) : Z * outcome :=
  if negb alloc then (ENOMEM, (None, []))
  else
    let inv := bool_decide (m = INVITE) in
    let ct := mk_ct None None m b rel (if inv then CALLING else TRYING) 0 inv false in
    if negb (send_err =? 0) then (send_err, (None, [Send]))
    else
      (0, (Some (set_timers ct (expiry now (64 * SIP_T1))
                            (if rel then None else expiry now SIP_T1)), [Send])).

(** [copies]: whether the strings and the request can be allocated; the second
    transaction is the one of the CANCEL. *)
Definition sip_ctrans_cancel (now : Z) (ct : ctrans) (copies alloc : bool) (send_err : Z) :
    Z * ctrans * outcome :=
  if negb (invite ct) then (0, ct, (None, []))
  else
    match st ct with
    | PROCEEDING =>
        let ct1 := set_timers ct (expiry now (64 * SIP_T1)) (tmre ct) in
        if copies then
          let '(err, o) := sip_ctrans_request now (reliable ct) CANCEL (branch ct) alloc send_err in
          (err, ct1, o)
        else (ENOMEM, ct1, (None, []))
    | _ => (EPROTO, ct, (None, []))
    end.

(** ** The table

    [ht]: the hash table of the stack; its elements are the addresses of the
    transactions in [cts]. *)
Record table := mk_table { ht : hash Z; cts : gmap Z ctrans }.

Record resp_msg := mk_resp { via_branch : pl; cseq_met : pl; scode : Z }.

Definition cmp_handler (ct : ctrans) (msg : resp_msg) : bool :=
  (pl_strcmp (Some (via_branch msg)) (Some (mk_pl 1 (branch ct))) =? 0) &&
  (pl_strcmp (Some (cseq_met msg)) (Some (mk_pl 1 (met ct))) =? 0).

(** Store the outcome for the transaction at address [p]. *)
Definition settle (t : table) (p : Z) (o : option ctrans) : table :=
  match o with
  | Some ct => mk_table (ht t) (<[p := ct]> (cts t))
  | None => mk_table (hash_unlink (ht t) p) (delete p (cts t))
  end.

(** The result is the return value, the table and the actions. *)
Definition response_handler (now : Z) (t : table) (msg : resp_msg) (ack : bool) :
    option (bool * table * list act) :=
  r ← find_data (ht t) (hash_joaat_pl (Some (via_branch msg))) (cts t)
        (fun ct => cmp_handler ct msg);
  match r with
  | None => Some (false, t, [])
  | Some p =>
      ct ← cts t !! p;
      let '(o, acts) := handle_response now ct (scode msg) ack in
      Some (true, settle t p o, acts)
  end.

(** [sip_ctrans_request] with the table: [p] is the address of the new transaction,
    0 when there is no memory.  When the request cannot be sent the transaction is
    taken out of the table again by its destructor. *)
Definition request_in (now : Z) (t : table) (rel : bool) (m b : list Z) (p send_err : Z) :
    option (Z * table * list act) :=
  let '(err, (o, acts)) := sip_ctrans_request now rel m b (negb (p =? 0)) send_err in
  if p =? 0 then Some (err, t, acts)
  else h ← hash_append (ht t) (hash_joaat_str b) p p;
       Some (err, settle (mk_table h (cts t)) p o, acts).

Definition sip_ctrans_init (listen_err sz : Z) (ok : bool) : Z * option table :=
  if negb (listen_err =? 0) then (listen_err, None)
  else let '(err, h) := hash_alloc sz ok in (err, option_map (fun h => mk_table h ∅) h).

(** ** Runs of one transaction *)

Record conf := mk_conf {
  ct_of : option ctrans;
  clock : Z;
  trace : list (Z * act) }.   (** with the time, latest last *)

Definition log (now : Z) (l : list act) : list (Z * act) := map (pair now) l.
#[local] Arguments log : simpl never.

Inductive event :=
| Response (scode : Z) (ack : bool)
| TmrFires
| TmreFires (send_err : Z)
| TransportError (err : Z)
| Cancel (copies alloc : bool) (send_err : Z).

(** A timer that fires is no longer running when its handler is called. *)
Definition handle (now : Z) (ct : ctrans) (e : event) : option outcome :=
  match e with
  | Response scode ack => Some (handle_response now ct scode ack)
  | TmrFires => Some (tmr_handler (set_timers ct None (tmre ct)))
  | TmreFires err => retransmit_handler now (set_timers ct (tmr ct) None) err
  | TransportError err => Some (transport_handler ct err)
  | Cancel copies alloc err =>
      let '(_, ct', o) := sip_ctrans_cancel now ct copies alloc err in
      Some (Some ct', match snd o with [] => [] | _ => [SendCancel] end)
  end.

(** Of two due timers the one that expires first fires first ([tmr_poll]). *)
Definition enabled (now : Z) (ct : ctrans) (e : event) : Prop :=
  match e with
  | TmrFires => exists d, tmr ct = Some d /\ d <= now /\ forall d', tmre ct = Some d' -> d <= d'
  | TmreFires _ => exists d, tmre ct = Some d /\ d <= now /\ forall d', tmr ct = Some d' -> d <= d'
  | TransportError err => err <> 0
  | Response scode _ => 100 <= scode
  | Cancel _ _ _ => True
  end.

Definition clock_max : Z := 9223372036854775807.

Inductive step : conf -> conf -> Prop :=
| step_event c now ct e o acts : ct_of c = Some ct -> clock c <= now <= clock_max ->
    enabled now ct e -> handle now ct e = Some (o, acts) ->
    step c (mk_conf o now (trace c ++ log now acts)).

Inductive reachable (t0 : Z) (rel : bool) (m b : list Z) : conf -> Prop :=
| reach_start ct acts : sip_ctrans_request t0 rel m b true 0 = (0, (Some ct, acts)) ->
    0 <= t0 <= clock_max -> reachable t0 rel m b (mk_conf (Some ct) t0 (log t0 acts))
| reach_more c c' : reachable t0 rel m b c -> step c c' -> reachable t0 rel m b c'.

(** ** The calls of the response handler *)

Definition as_resph (a : Z * act) : option (Z * option Z) :=
  match snd a with Resph err s => Some (err, s) | _ => None end.
Definition resphs (tr : list (Z * act)) : list (Z * option Z) := omap as_resph tr.

(** A provisional response leaves the transaction running; any other call (a final
    response, or an error) is the last. *)
Definition provisional (r : Z * option Z) : Prop :=
  fst r = 0 /\ exists s, snd r = Some s /\ 100 <= s < 200.
Definition final_call (r : Z * option Z) : Prop :=
  fst r <> 0 \/ exists s, snd r = Some s /\ 200 <= s.

Definition only_provisional (l : list (Z * option Z)) : Prop := Forall provisional l.
Definition one_final (l : list (Z * option Z)) : Prop :=
  exists l' r, l = l' ++ [r] /\ only_provisional l' /\ final_call r.

Lemma resphs_app tr now acts : resphs (tr ++ log now acts) = resphs tr ++ resphs (log now acts).
Proof. apply omap_app. Qed.

Lemma one_final_app l l' : only_provisional l -> one_final l' -> one_final (l ++ l').
Proof.
  intros H (l2&r&->&H2&Hr). exists (l ++ l2), r. rewrite app_assoc.
  split_and!; [done|by apply Forall_app|done].
Qed.

(** The earliest time of the retransmission number [k] (from 0), after the start. *)
Fixpoint earliest (k : nat) : Z :=
  match k with
  | O => SIP_T1
  | S k' => earliest k' + Z.min (SIP_T1 * 2 ^ Z.of_nat k) SIP_T2
  end.

Lemma earliest_ge k : 500 * (Z.of_nat k + 1) <= earliest k.
Proof.
  induction k as [|k IH]; [done|]. cbn [earliest]. unfold SIP_T1, SIP_T2 in *.
  assert (1 <= 2 ^ Z.of_nat (S k)) by (apply (Z.pow_le_mono_r 2 0); lia). lia.
Qed.

Lemma earliest_mono k k' : (k <= k')%nat -> earliest k <= earliest k'.
Proof.
  induction 1 as [|k' _ IH]; [lia|]. cbn [earliest]. unfold SIP_T1, SIP_T2 in *.
  assert (0 <= 2 ^ Z.of_nat (S k')) by (apply Z.pow_nonneg; lia). lia.
Qed.

(** The invariant of a live transaction started at [t0]. *)
Record live_ok (t0 : Z) (rel : bool) (tr : list (Z * act)) (now : Z) (ct : ctrans) : Prop := {
  lo_rel : reliable ct = rel;
  lo_now : 0 <= t0 <= now;
  lo_txc : 0 <= txc ct <= 10;
  lo_trying : st ct = TRYING -> invite ct = false;
  lo_calling : st ct = CALLING -> invite ct = true;
  lo_prov : st ct <> COMPLETED -> only_provisional (resphs tr);
  lo_final : st ct = COMPLETED -> one_final (resphs tr) /\ rel = false /\ tmre ct = None /\
    exists d, tmr ct = Some d;
  lo_tmr : (st ct = TRYING \/ st ct = CALLING \/ st ct = PROCEEDING /\ invite ct = false) ->
    tmr ct = Some (t0 + 32000);
  lo_tmre : forall e, tmre ct = Some e ->
    t0 + earliest (Z.to_nat (txc ct)) <= e /\
    (st ct = PROCEEDING -> invite ct = false) }.

Definition conf_ok (t0 : Z) (rel : bool) (c : conf) : Prop :=
  match ct_of c with
  | Some ct => clock c <= clock_max /\ live_ok t0 rel (trace c) (clock c) ct
  | None => one_final (resphs (trace c))
  end.

Lemma ct_expiry_ok now d : 0 <= now <= clock_max -> 0 <= d <= 4294967296 ->
  expiry now d = Some (d + now).
Proof. unfold expiry, clock_max. intros. f_equal. apply u64_small. lia. Qed.

Lemma shl_T1_ok n : 0 <= n <= 10 -> shl_T1 n = Some (SIP_T1 * 2 ^ n).
Proof.
  intros Hn. unfold shl_T1, SIP_T1.
  pose proof (Z.pow_le_mono_r 2 n 10 ltac:(lia) ltac:(lia)) as H.
  change (2 ^ 10) with 1024 in H.
  destruct (Z.ltb_spec n 32); [|lia]. destruct (Z.leb_spec (500 * 2 ^ n) 2147483647); [done|lia].
Qed.

Lemma pending_time ct t0 e rel tr now : live_ok t0 rel tr now ct -> tmre ct = Some e ->
  (forall d', tmr ct = Some d' -> e <= d') -> st ct <> COMPLETED ->
  tmr ct = Some (t0 + 32000) /\ e <= t0 + 32000 /\ txc ct <= 9.
Proof.
  intros [] He Hle Hc. destruct (lo_tmre0 e He) as [Hlow Hpi].
  assert (tmr ct = Some (t0 + 32000)) as Ht.
  { apply lo_tmr0. destruct (st ct); auto; done. }
  pose proof (Hle _ Ht). split_and!; try done.
  destruct (Z.le_gt_cases (txc ct) 9); [done|].
  pose proof (earliest_mono 10 (Z.to_nat (txc ct)) ltac:(lia)) as Hm.
  change (earliest 10) with 35500 in Hm. lia.
Qed.

Definition after_ok (t0 : Z) (rel : bool) (tr : list (Z * act)) (now : Z) (r : outcome) : Prop :=
  conf_ok t0 rel (mk_conf (fst r) now (tr ++ log now (snd r))).

(** Letting time pass. *)
Lemma live_later t0 rel tr clk now ct : live_ok t0 rel tr clk ct -> clk <= now ->
  live_ok t0 rel tr now ct.
Proof. intros [] Hle. split; auto. lia. Qed.

(** Actions that do not call the response handler leave [resphs] as it was. *)
Lemma live_silent t0 rel tr now ct acts : live_ok t0 rel tr now ct ->
  resphs (log now acts) = [] -> live_ok t0 rel (tr ++ log now acts) now ct.
Proof. intros [] H. split; rewrite ?resphs_app, ?H, ?app_nil_r; auto. Qed.

Lemma gone_final t0 rel tr now acts r : only_provisional (resphs tr) ->
  resphs (log now acts) = [r] -> final_call r -> after_ok t0 rel tr now (None, acts).
Proof.
  intros Hp Hr Hf. unfold after_ok, conf_ok. simpl. rewrite resphs_app, Hr.
  by exists (resphs tr), r.
Qed.

(** The transaction ends in a state where the final response may or may not have
    been delivered yet. *)
Lemma terminate_ok t0 rel tr now ct ct' acts err : live_ok t0 rel tr now ct -> err <> 0 ->
  st ct' = st ct -> resphs (log now acts) = [] ->
  after_ok t0 rel tr now (None, acts ++ terminate ct' err).
Proof.
  intros [] He Hst Ha. unfold after_ok, conf_ok, terminate. simpl. rewrite Hst.
  rewrite resphs_app. unfold log in *. rewrite map_app. unfold resphs at 2. rewrite omap_app.
  change (omap as_resph (map (pair now) acts)) with (resphs (map (pair now) acts)).
  rewrite Ha. destruct (st ct); simpl.
  1-3: exists (resphs tr), (err, None); split_and!; [done|by apply lo_prov0|by left].
  rewrite app_nil_r. by apply lo_final0.
Qed.

Lemma ct_retransmit_ok t0 rel tr now ct err : live_ok t0 rel tr now ct -> now <= clock_max ->
  enabled now ct (TmreFires err) ->
  exists r, handle now ct (TmreFires err) = Some r /\ after_ok t0 rel tr now r.
Proof.
  intros Hl Hnow (e&He&Hen&Hle). pose proof Hl as [].
  assert (st ct <> COMPLETED) as Hc.
  { intros E. destruct (lo_final0 E) as (_&_&?&_). congruence. }
  destruct (pending_time ct t0 e rel tr now Hl He Hle Hc) as (Ht&He32&Htx).
  destruct (lo_tmre0 e He) as [Hlow Hpi].
  simpl. unfold retransmit_handler. simpl. rewrite u32_small by lia.
  rewrite shl_T1_ok by lia. simpl.
  assert (forall timeout, Z.min (SIP_T1 * 2 ^ (txc ct + 1)) SIP_T2 <= timeout <= 512000 ->
    exists r, (let ct2 := set_timers (set_txc (set_timers ct (tmr ct) None) (txc ct + 1))
        (tmr ct) (expiry now timeout) in
      if negb (err =? 0) then Some (None, Send :: terminate ct2 err)
      else Some (Some ct2, [Send])) = Some r /\ after_ok t0 rel tr now r) as Hgen.
  { intros timeout Hto. simpl.
    destruct (Z.eqb_spec err 0) as [->|Herr]; simpl; eexists; (split; [done|]).
    - unfold after_ok, conf_ok. simpl. split; [done|]. apply live_silent; [|done].
      split; simpl; try done; try lia.
      intros e'. unfold SIP_T1, SIP_T2 in *.
      assert (0 <= 2 ^ (txc ct + 1)) by (apply Z.pow_nonneg; lia).
      rewrite ct_expiry_ok by lia. intros [= <-]. split; [|done].
      replace (Z.to_nat (txc ct + 1)) with (S (Z.to_nat (txc ct))) by lia.
      cbn [earliest]. unfold SIP_T1, SIP_T2.
      replace (Z.of_nat (S (Z.to_nat (txc ct)))) with (txc ct + 1) by lia. lia.
    - by apply (terminate_ok t0 rel tr now ct _ [Send]). }
  pose proof (Z.pow_le_mono_r 2 (txc ct + 1) 10 ltac:(lia) ltac:(lia)) as Hpow.
  change (2 ^ 10) with 1024 in Hpow.
  assert (0 < 2 ^ (txc ct + 1)) by (apply Z.pow_pos_nonneg; lia).
  destruct (st ct) eqn:Est; simpl; try (apply Hgen; unfold SIP_T1, SIP_T2; lia). done.
Qed.

(** A provisional response; an INVITE has no timer from then on. *)
Lemma prov_ok t0 rel tr now ct ct' scode : live_ok t0 rel tr now ct -> now <= clock_max ->
  st ct <> COMPLETED -> 100 <= scode < 200 -> st ct' = PROCEEDING ->
  reliable ct' = reliable ct -> txc ct' = txc ct -> invite ct' = invite ct ->
  (invite ct = false -> tmr ct' = tmr ct /\ tmre ct' = tmre ct) ->
  (invite ct = true -> tmre ct' = None) ->
  after_ok t0 rel tr now (Some ct', [Resph 0 (Some scode)]).
Proof.
  intros [] Hnow Hc Hs Hst Hr Htx Hi Hn Hy. unfold after_ok, conf_ok. simpl. split; [done|].
  assert (only_provisional (resphs (tr ++ log now [Resph 0 (Some scode)]))) as Hp.
  { rewrite resphs_app. apply Forall_app. split; [by apply lo_prov0|].
    repeat constructor. simpl. eauto. }
  split; rewrite ?Hst, ?Hr, ?Htx, ?Hi; try done.
  - intros [?|[?|[_ E]]]; try done. destruct (Hn E) as [-> _]. apply lo_tmr0.
    destruct (st ct); auto; done.
  - intros e He. destruct (invite ct).
    + rewrite Hy in He by done. done.
    + destruct (Hn eq_refl) as [_ E]. rewrite E in He. split; [by apply lo_tmre0|done].
Qed.

(** A final response over an unreliable transport: the transaction lingers. *)
Lemma linger_ok t0 rel tr now ct ct' scode acts d : live_ok t0 rel tr now ct ->
  now <= clock_max -> st ct <> COMPLETED -> 200 <= scode -> st ct' = COMPLETED ->
  reliable ct' = reliable ct -> reliable ct = false -> txc ct' = txc ct ->
  tmre ct' = None -> tmr ct' = Some d -> resphs (log now acts) = [(0, Some scode)] ->
  after_ok t0 rel tr now (Some ct', acts).
Proof.
  intros [] Hnow Hc Hs Hst Hr Hrel Htx He Ht Ha. unfold after_ok, conf_ok. simpl.
  split; [done|]. split; rewrite ?Hst, ?Hr, ?Htx; try done.
  - intros _. split_and!; [|congruence|done|by exists d]. rewrite resphs_app, Ha.
    exists (resphs tr), (0, Some scode). split_and!; [done|by apply lo_prov0|]. right. by exists scode.
  - by intros [?|[?|[? ?]]].
  - intros e. by rewrite He.
Qed.

Lemma final_gone t0 rel tr now ct scode acts : live_ok t0 rel tr now ct ->
  st ct <> COMPLETED -> 200 <= scode -> resphs (log now acts) = [(0, Some scode)] ->
  after_ok t0 rel tr now (None, acts).
Proof.
  intros [] Hc Hs Ha. eapply gone_final; [by apply lo_prov0|exact Ha|]. right. by exists scode.
Qed.

Lemma send_ack_silent now ct : resphs (log now (send_ack ct)) = [].
Proof. unfold send_ack. by destruct (mb_ack ct). Qed.

Lemma send_ack_resph now ct r : resphs (log now (send_ack ct ++ [Resph 0 r])) = [(0, r)].
Proof. unfold send_ack. by destruct (mb_ack ct). Qed.

Lemma no_change t0 rel tr now ct acts : live_ok t0 rel tr now ct -> now <= clock_max ->
  resphs (log now acts) = [] -> after_ok t0 rel tr now (Some ct, acts).
Proof. intros Hl Hnow Ha. unfold after_ok, conf_ok. simpl. split; [done|]. by apply live_silent. Qed.

Lemma expiry_some now d : exists e, expiry now d = Some e.
Proof. by eexists. Qed.

(** The three answers of an INVITE transaction that has not completed; [ct'] is
    the transaction with its retransmission timer already off. *)
Lemma invite_proceeding_ok t0 rel tr now ct ct' scode ack : live_ok t0 rel tr now ct ->
  now <= clock_max -> 100 <= scode -> st ct <> COMPLETED -> invite ct = true ->
  reliable ct' = reliable ct -> txc ct' = txc ct -> invite ct' = invite ct -> tmre ct' = None ->
  after_ok t0 rel tr now
    (if scode <? 200 then (Some (set_state ct' PROCEEDING), [Resph 0 (Some scode)])
     else if scode <? 300 then (None, [Resph 0 (Some scode)])
     else
      let ct1 := set_ack (set_state ct' COMPLETED) (mb_ack ct' || ack) in
      let acts := send_ack ct1 ++ [Resph 0 (Some scode)] in
      if reliable ct1 then (None, acts)
      else (Some (set_timers ct1 (expiry now COMPLETE_WAIT) (tmre ct1)), acts)).
Proof.
  intros Hl Hnow Hs Hc Hi Hr Htx Hi' He.
  destruct (Z.ltb_spec scode 200).
  { apply (prov_ok t0 rel tr now ct); simpl; auto; try lia. congruence. }
  destruct (Z.ltb_spec scode 300); [by apply (final_gone t0 rel tr now ct scode)|].
  simpl. destruct (reliable ct') eqn:Erel.
  - apply (final_gone t0 rel tr now ct scode); try done. apply send_ack_resph.
  - eapply (linger_ok t0 rel tr now ct); simpl; try done; [congruence|apply send_ack_resph].
Qed.

Lemma ct_handle_response_ok t0 rel tr now ct scode ack : live_ok t0 rel tr now ct ->
  now <= clock_max -> 100 <= scode ->
  after_ok t0 rel tr now (handle_response now ct scode ack).
Proof.
  intros Hl Hnow Hs. pose proof Hl as []. unfold handle_response.
  destruct (invite ct) eqn:Ei.
  - unfold invite_response. destruct (st ct) eqn:Est.
    + by apply no_change.
    + by apply (invite_proceeding_ok t0 rel tr now ct); rewrite ?Est.
    + apply (invite_proceeding_ok t0 rel tr now ct); rewrite ?Est; try done.
      destruct (tmre ct) as [e|] eqn:He; [|done].
      destruct (lo_tmre0 e eq_refl) as [_ Hpi]. specialize (Hpi eq_refl). done.
    + destruct (scode <? 300); apply no_change; try done. apply send_ack_silent.
  - assert (st ct <> COMPLETED -> after_ok t0 rel tr now
      (if scode <? 200 then (Some (set_state ct PROCEEDING), [Resph 0 (Some scode)])
       else
         let ct1 := set_state ct COMPLETED in
         if reliable ct1 then (None, [Resph 0 (Some scode)])
         else (Some (set_timers ct1 (expiry now SIP_T4) None), [Resph 0 (Some scode)]))) as Hgen.
    { intros Hc. destruct (Z.ltb_spec scode 200).
      - apply (prov_ok t0 rel tr now ct); simpl; auto; try lia. congruence.
      - simpl. destruct (reliable ct) eqn:Erel.
        + by apply (final_gone t0 rel tr now ct scode).
        + eapply (linger_ok t0 rel tr now ct); simpl; try done. }
    destruct (st ct) eqn:Est; [by apply Hgen|by apply no_change|by apply Hgen|by apply no_change].
Qed.

Lemma cancel_ok t0 rel tr now ct copies alloc err : live_ok t0 rel tr now ct ->
  now <= clock_max ->
  exists r, handle now ct (Cancel copies alloc err) = Some r /\ after_ok t0 rel tr now r.
Proof.
  intros Hl Hnow. simpl. unfold sip_ctrans_cancel.
  destruct (invite ct) eqn:Ei; simpl; [|eexists; split; [done|by apply no_change]].
  assert (forall acts, resphs (log now (match acts : list act with [] => [] | _ => [SendCancel] end)) = [])
    as Hq by by intros [].
  assert (st ct = PROCEEDING -> forall acts, resphs (log now acts) = [] ->
    after_ok t0 rel tr now (Some (set_timers ct (expiry now (64 * SIP_T1)) (tmre ct)), acts)) as Hp.
  { intros Est acts Ha. apply no_change; [|done..]. destruct Hl. split; simpl; rewrite ?Est in *; try done.
    intros [?|[?|[_ ?]]]; congruence. }
  destruct (st ct) eqn:Est; try (eexists; split; [done|by apply no_change]).
  destruct copies; [|eexists; split; [done|by apply Hp]].
  destruct (sip_ctrans_request _ _ _ _ _ _) as [e o]. eexists. split; [done|]. apply Hp; [done|apply Hq].
Qed.

(** Progress and preservation: every event that can occur is handled. *)
Lemma ct_handle_ok t0 rel tr clk now ct e : live_ok t0 rel tr clk ct -> clk <= now <= clock_max ->
  enabled now ct e -> exists r, handle now ct e = Some r /\ after_ok t0 rel tr now r.
Proof.
  intros Hl Hnow He. assert (live_ok t0 rel tr now ct) as Hl' by (eapply live_later; [done|lia]).
  destruct e as [scode ack| |err|err|copies alloc err].
  - eexists. split; [done|]. apply ct_handle_response_ok; [done|lia|done].
  - eexists. split; [done|]. by apply (terminate_ok t0 rel tr now ct _ []).
  - apply ct_retransmit_ok; [done|lia|done].
  - eexists. split; [done|]. by apply (terminate_ok t0 rel tr now ct _ []).
  - apply cancel_ok; [done|lia].
Qed.

Lemma ct_reachable_ok t0 rel m b c : reachable t0 rel m b c -> conf_ok t0 rel c.
Proof.
  induction 1 as [ct acts E Ht|c c' _ IH Hstep].
  - unfold sip_ctrans_request in E. simpl in E. injection E as <- <-.
    unfold conf_ok. simpl. split; [lia|].
    destruct (decide (m = INVITE)) as [Hm|Hm];
      [rewrite bool_decide_eq_true_2 by done|rewrite bool_decide_eq_false_2 by done].
    all: split; simpl; try done; try lia.
    all: rewrite ?ct_expiry_ok by (unfold clock_max, SIP_T1 in *; lia).
    all: try (intros _; f_equal; unfold SIP_T1; lia).
    all: try (intros _; by constructor).
    all: intros e; destruct rel; [done|]; intros [= <-]; split; [unfold SIP_T1; lia|done].
  - destruct Hstep as [c now ct e o acts Hct Hnow He Hh].
    unfold conf_ok in IH. rewrite Hct in IH. destruct IH as [_ Hl].
    destruct (ct_handle_ok t0 rel _ _ now ct e Hl Hnow He) as (r&Hr&Ha).
    rewrite Hh in Hr. simplify_eq. exact Ha.
Qed.

(** ** The timeline of an unanswered request *)

(** The timer that fires next. *)
Definition next_timer (ct : ctrans) : option (Z * event) :=
  match tmr ct, tmre ct with
  | None, None => None
  | Some d, None => Some (d, TmrFires)
  | None, Some e => Some (e, TmreFires 0)
  | Some d, Some e => Some (if e <? d then (e, TmreFires 0) else (d, TmrFires))
  end.

(** Each timer fires exactly when it expires and every transmission succeeds. *)
Fixpoint idle (fuel : nat) (ct : ctrans) (tr : list (Z * act)) : option (list (Z * act)) :=
  match fuel with
  | O => None
  | S fuel =>
      match next_timer ct with
      | None => Some tr
      | Some (now, e) =>
          '(o, acts) ← handle now ct e;
          match o with
          | None => Some (tr ++ log now acts)
          | Some ct' => idle fuel ct' (tr ++ log now acts)
          end
      end
  end.

Definition unanswered (t0 : Z) (rel : bool) (m b : list Z) : option (list (Z * act)) :=
  match sip_ctrans_request t0 rel m b true 0 with
  | (_, (Some ct, acts)) => idle 20 ct (log t0 acts)
  | _ => None
  end.

Definition timeline (t0 : Z) (delays : list Z) : list (Z * act) :=
  map (fun d => (d + t0, Send)) delays ++ [(32000 + t0, Resph ETIMEDOUT None)].

(** One retransmission of the timeline. *)
Lemma idle_retransmit fuel t0 ct tr n e te : 0 <= t0 <= clock_max - 100000 ->
  tmr ct = Some (32000 + t0) -> tmre ct = Some (e + t0) -> 0 <= e < 32000 ->
  txc ct = n -> 0 <= n <= 10 -> st ct = TRYING \/ st ct = CALLING ->
  te = match st ct with
       | TRYING => Z.min (SIP_T1 * 2 ^ (n + 1)) SIP_T2
       | _ => SIP_T1 * 2 ^ (n + 1)
       end ->
  0 <= n + 1 <= 10 ->
  idle (S fuel) ct tr =
  idle fuel (set_timers (set_txc ct (n + 1)) (tmr ct) (Some (te + e + t0)))
       (tr ++ [(e + t0, Send)]).
Proof.
  intros Ht0 Ht He Hlt Hn Hn10 Hst Hte Hn1. cbn [idle]. unfold next_timer. rewrite Ht, He.
  destruct (Z.ltb_spec (e + t0) (32000 + t0)); [|lia].
  pose proof (Z.pow_le_mono_r 2 (n + 1) 10 ltac:(lia) ltac:(lia)) as Hpow.
  change (2 ^ 10) with 1024 in Hpow.
  assert (0 < 2 ^ (n + 1)) by (apply Z.pow_pos_nonneg; lia).
  cbn [handle]. unfold retransmit_handler. simpl. rewrite Hn, u32_small by lia.
  rewrite shl_T1_ok by lia. unfold clock_max in *.
  destruct (st ct) eqn:Est; [| |by destruct Hst..];
    simpl; rewrite Hte; unfold SIP_T1, SIP_T2 in *; rewrite ct_expiry_ok by (unfold clock_max; lia);
    simpl; rewrite Ht, Z.add_assoc; done.
Qed.

Lemma idle_timeout fuel t0 ct tr : tmr ct = Some (32000 + t0) ->
  (forall e, tmre ct = Some e -> 32000 + t0 <= e) -> st ct <> COMPLETED ->
  idle (S fuel) ct tr = Some (tr ++ [(32000 + t0, Resph ETIMEDOUT None)]).
Proof.
  intros Ht He Hst. cbn [idle]. unfold next_timer. rewrite Ht.
  assert ((match tmre ct with
           | Some e => Some (if e <? 32000 + t0 then (e, TmreFires 0) else (32000 + t0, TmrFires))
           | None => Some (32000 + t0, TmrFires)
           end) = Some (32000 + t0, TmrFires)) as ->.
  { destruct (tmre ct) as [e|]; [|done]. specialize (He e eq_refl).
    by destruct (Z.ltb_spec e (32000 + t0)); [lia|]. }
  simpl. unfold terminate. simpl. by destruct (st ct).
Qed.

Ltac retransmit t0 :=
  erewrite (idle_retransmit _ t0);
  [|done|reflexivity|reflexivity|lia|reflexivity|simpl; lia|auto|reflexivity|simpl; lia];
  cbn [st set_timers set_txc tmr tmre txc app met branch reliable invite mb_ack];
  match goal with |- context [Some (?te + ?e + t0)] =>
    let v := eval vm_compute in (te + e) in change (Some (te + e + t0)) with (Some (v + t0)) end.

(** ** Properties *)

(** C5: a client transaction reports to its user once: every event that can occur
    in a reachable state is handled without undefined behaviour (the shift of the
    retransmission interval included); before the transaction completes, the
    response handler was called with provisional responses only; once it has
    completed or is gone, the last call, and only the last, was a final response
    or an error. *)
Theorem ctrans_one_final t0 rel m b c : reachable t0 rel m b c ->
  (forall ct now e, ct_of c = Some ct -> clock c <= now <= clock_max -> enabled now ct e ->
     is_Some (handle now ct e)) /\
  match ct_of c with
  | None => one_final (resphs (trace c))
  | Some ct => if decide (st ct = COMPLETED) then one_final (resphs (trace c))
               else only_provisional (resphs (trace c))
  end.
Proof.
  intros Hr. pose proof (ct_reachable_ok t0 rel m b c Hr) as Hc. unfold conf_ok in Hc. split.
  - intros ct now e Hct Hnow He. rewrite Hct in Hc. destruct Hc as [_ Hl].
    destruct (ct_handle_ok t0 rel _ _ now ct e Hl Hnow He) as (r&->&_). by eexists.
  - destruct (ct_of c) as [ct|]; [|done]. destruct Hc as [_ []].
    destruct (decide (st ct = COMPLETED)); [by apply lo_final0|auto].
Qed.

(** No transaction waits for ever: one that has not completed, unless it is an
    INVITE that was answered provisionally, holds a timer that expires 32 seconds
    after its start, so when its timers have been served it is younger than that;
    one that has completed holds a timer too. *)
Theorem ctrans_lifetime t0 rel m b c ct : reachable t0 rel m b c -> ct_of c = Some ct ->
  (forall d, tmr ct = Some d -> clock c < d) ->
  (st ct <> COMPLETED -> invite ct = true /\ st ct = PROCEEDING \/ clock c < t0 + 32000) /\
  (st ct = COMPLETED -> is_Some (tmr ct) /\ tmre ct = None).
Proof.
  intros Hr Hct Hd. pose proof (ct_reachable_ok t0 rel m b c Hr) as Hc.
  unfold conf_ok in Hc. rewrite Hct in Hc. destruct Hc as [_ []]. split.
  - intros Hst. destruct (invite ct) eqn:Ei, (st ct) eqn:Es; auto; try done;
      right; apply Hd; auto.
  - intros Hst. destruct (lo_final0 Hst) as (_&_&?&d&?). split; [by exists d|done].
Qed.

(** An unanswered request is sent and retransmitted exactly at the times of RFC
    3261 and then reported as timed out: an INVITE 7 times, with doubling
    intervals, any other request 11 times, with intervals of at most 4 seconds,
    over a reliable transport once. *)
Theorem ctrans_retransmissions t0 b : 0 <= t0 <= clock_max - 100000 ->
  unanswered t0 false INVITE b =
    Some (timeline t0 [0; 500; 1500; 3500; 7500; 15500; 31500]) /\
  (forall m, m <> INVITE -> unanswered t0 false m b =
    Some (timeline t0 [0; 500; 1500; 3500; 7500; 11500; 15500; 19500; 23500; 27500; 31500])) /\
  (forall m, unanswered t0 true m b = Some (timeline t0 [0])).
Proof.
  intros Ht. unfold unanswered, sip_ctrans_request, timeline. unfold clock_max in *.
  split_and!; [|intros m Hm|intros m].
  - rewrite bool_decide_eq_true_2 by done. simpl negb. cbv iota.
    rewrite !ct_expiry_ok by (unfold clock_max, SIP_T1; lia).
    change (64 * SIP_T1) with 32000. change SIP_T1 with 500. unfold set_timers, log at 1.
    cbn [map tmr tmre met branch reliable st txc invite mb_ack].
    do 6 retransmit t0. rewrite (idle_timeout _ t0); [done|done| |done].
    simpl. intros e [= <-]. lia.
  - rewrite bool_decide_eq_false_2 by done. simpl negb. cbv iota.
    rewrite !ct_expiry_ok by (unfold clock_max, SIP_T1; lia).
    change (64 * SIP_T1) with 32000. change SIP_T1 with 500. unfold set_timers, log at 1.
    cbn [map tmr tmre met branch reliable st txc invite mb_ack].
    do 10 retransmit t0. rewrite (idle_timeout _ t0); [done|done| |done].
    simpl. intros e [= <-]. lia.
  - simpl negb. cbv iota. rewrite ct_expiry_ok by (unfold clock_max, SIP_T1; lia).
    change (64 * SIP_T1) with 32000. unfold set_timers, log at 1.
    rewrite (idle_timeout _ t0); [done|done|done|].
    simpl. by destruct (bool_decide _).
Qed.

(** Acknowledgements: an INVITE transaction answers every final response of
    300 or more, the first one and each retransmission of it, with one ACK (when
    the ACK could be built), and nothing else makes it send one; in particular it
    never acknowledges a response below 300, and no other transaction sends an
    ACK at all. *)
Theorem ctrans_ack_exact now ct e o acts : handle now ct e = Some (o, acts) ->
  omap (fun a => match a with SendAck => Some tt | _ => None end) acts =
  match e with
  | Response scode ack =>
      if invite ct && (300 <=? scode) &&
         match st ct with
         | COMPLETED => mb_ack ct
         | TRYING => false
         | _ => mb_ack ct || ack
         end
      then [tt] else []
  | _ => []
  end.
Proof.
  assert (forall ct err, omap (fun a => match a with SendAck => Some tt | _ => None end)
    (terminate ct err) = []) as Hterm by (intros c err; unfold terminate; by destruct (st c)).
  destruct e as [scode ack| |err|err|copies alloc err]; simpl.
  - unfold handle_response, invite_response, send_ack.
    destruct ct as [t te m b r s x i k]; destruct i, s, k, ack, r; simpl;
      zcase; intros E; simplify_eq/=; zcase.
  - intros [= <- <-]. apply Hterm.
  - unfold retransmit_handler. simpl.
    destruct (st ct); simpl; try (destruct (shl_T1 _); simpl; [|done]);
      try (destruct (negb _); simpl; intros [= <- <-]; simpl; by rewrite ?Hterm);
      by intros [= <- <-].
  - intros [= <- <-]. apply Hterm.
  - destruct (sip_ctrans_cancel _ _ _ _ _) as [[? ?] [? l]]. intros [= <- <-]. by destruct l.
Qed.

(** ** The table refines a list of transactions *)

Definition ascii (l : list Z) : Prop := Forall (fun b => 0 <= b < 128) l.
Definition by_branch (ct : ctrans) : Z := hash_joaat_str (branch ct).

Record tab_ok (t : table) (live : list (Z * ctrans)) : Prop := {
  tb_ht : table_ok (ht t) (keyed by_branch live);
  tb_cts : store_ok (cts t) live;
  tb_ascii : forall p ct, (p, ct) ∈ live -> ascii (branch ct) }.

(** The strings of a message are not those of a transaction. *)
Definition resp_ok (msg : resp_msg) : Prop :=
  pl_p (via_branch msg) <> 1 /\ pl_p (cseq_met msg) <> 1.

Definition answers (msg : resp_msg) (ct : ctrans) : bool :=
  bool_decide (pl_s (via_branch msg) = branch ct) && bool_decide (pl_s (cseq_met msg) = met ct).

Lemma joaat_ascii key : ascii key -> hash_joaat_str key = hash_joaat key.
Proof.
  intros Hk. apply foldl_joaat. eapply Forall_impl; [exact Hk|]. simpl. intros b Hb.
  unfold s8. rewrite u8_small by lia. destruct (Z.ltb_spec b 128); [|lia]. apply u32_small. lia.
Qed.

Lemma handle_branch now ct e ct' acts : handle now ct e = Some (Some ct', acts) ->
  branch ct' = branch ct.
Proof.
  destruct e; simpl.
  - unfold handle_response, invite_response.
    repeat case_match; intros; by simplify_eq/=.
  - done.
  - unfold retransmit_handler. destruct (st _); simpl; try destruct (shl_T1 _); simpl;
      try destruct (negb _); intros; by simplify_eq/=.
  - done.
  - unfold sip_ctrans_cancel. repeat case_match; intros; by simplify_eq/=.
Qed.

Lemma tab_settle t live p ct o : tab_ok t live -> (p, ct) ∈ live ->
  (forall ct', o = Some ct' -> branch ct' = branch ct) -> tab_ok (settle t p o) (list_put live p o).
Proof.
  intros [] Hin Hb. destruct o as [ct'|]; split; unfold settle; cbn [ht cts].
  - rewrite (keyed_put _ (cts t) _ _ ct); try done. unfold by_branch. by rewrite Hb.
  - by apply (store_put _ _ _ ct).
  - intros q r Hq. destruct (put_in (cts t) live p ct ct' (q, r)) as [[= -> ->]|]; try done.
    + rewrite Hb by done. by apply (tb_ascii0 p).
    + by apply (tb_ascii0 q).
  - by apply table_remove.
  - by apply store_remove.
  - intros q r Hq. apply (tb_ascii0 q). by apply (remove_in live p).
Qed.

Lemma request_branch now rel m b ok err e ct acts :
  sip_ctrans_request now rel m b ok err = (e, (Some ct, acts)) -> branch ct = b.
Proof. unfold sip_ctrans_request. repeat case_match; intros; by simplify_eq/=. Qed.

Lemma request_in_ok now t live rel m b p err : tab_ok t live -> ascii b -> ~ (p ∈ live.*1) ->
  let '(e, (o, acts)) := sip_ctrans_request now rel m b (negb (p =? 0)) err in
  exists t', request_in now t rel m b p err = Some (e, t', acts) /\
    tab_ok t' (match o with Some ct => live ++ [(p, ct)] | None => live end).
Proof.
  intros [] Hb Hp. unfold request_in.
  pose proof (fun e ct acts => request_branch now rel m b (negb (p =? 0)) err e ct acts) as Hk.
  destruct (sip_ctrans_request _ _ _ _ _ _) as [e [o acts]] eqn:E.
  destruct (Z.eqb_spec p 0) as [->|H0].
  { exists t. split; [done|]. unfold sip_ctrans_request in E. simpl in E. by simplify_eq. }
  set (ct0 := match o with Some ct => ct | None => mk_ct None None m b rel TRYING 0 false false end).
  assert (branch ct0 = b) as Hb0 by (destruct o; [by eapply Hk|done]).
  destruct (table_add _ by_branch live p ct0 tb_ht0) as (h&Eh&Hh). unfold by_branch in Eh at 1.
  rewrite Hb0 in Eh. rewrite Eh. cbn [mbind option_bind]. eexists. split; [done|].
  destruct o as [ct|]; split; unfold settle; cbn [ht cts]; try done.
  - by apply store_add.
  - intros q r [Hq| Hq%list_elem_of_singleton]%elem_of_app; [by apply (tb_ascii0 q)|].
    by simplify_eq.
  - apply (table_remove _ _ _ p) in Hh. by rewrite remove_added in Hh.
  - rewrite delete_id; [done|]. destruct tb_cts0 as [-> _]. by apply not_elem_of_list_to_map_1.
Qed.

Lemma response_handler_ok now t live msg ack : tab_ok t live -> resp_ok msg ->
  match list_find (answers msg) live with
  | None => response_handler now t msg ack = Some (false, t, [])
  | Some (p, ct) => exists t',
      let '(o, acts) := handle_response now ct (scode msg) ack in
      response_handler now t msg ack = Some (true, t', acts) /\ tab_ok t' (list_put live p o)
  end.
Proof.
  intros Ht [Hb Hm]. pose proof Ht as []. unfold response_handler.
  rewrite (find_data_ok _ by_branch _ live _ _ (answers msg)); try done.
  2: { intros p ct Hin. unfold cmp_handler, answers. by rewrite !pl_strcmp_text by done. }
  2: { intros p ct Hin [E _]%andb_prop. apply bool_decide_eq_true in E.
       unfold by_branch, hash_joaat_pl. rewrite joaat_ascii by by apply (tb_ascii0 p). by rewrite E. }
  destruct (list_find _ live) as [[p ct]|] eqn:E; cbn [option_map mbind option_bind fst]; [|done].
  apply list_find_in in E. rewrite (store_get _ live p ct) by done. cbn [mbind option_bind].
  destruct (handle_response now ct (scode msg) ack) as [o acts] eqn:Eh.
  eexists. split; [done|]. apply (tab_settle t live p ct); [done|done|].
  intros ct' ->. apply (handle_branch now ct (Response (scode msg) ack) ct' acts). simpl. by rewrite Eh.
Qed.

(** C6: the table of client transactions implements one list of live transactions:
    a new transaction is found by the responses to it from then on until it is
    destroyed; a response is given to the oldest transaction with its branch and
    method, compared as text, and a response that no live transaction waits for
    changes nothing; other events change only their transaction.  The branches are
    ASCII: on other branches the two hashes the code uses differ. *)
Theorem ctrans_table_refines :
  (forall sz, 0 <= sz < 4294967296 -> forall t, sip_ctrans_init 0 sz true = (0, Some t) ->
     tab_ok t []) /\
  (forall now t live rel m b p err, tab_ok t live -> ascii b -> ~ (p ∈ live.*1) ->
     let '(e, (o, acts)) := sip_ctrans_request now rel m b (negb (p =? 0)) err in
     exists t', request_in now t rel m b p err = Some (e, t', acts) /\
       tab_ok t' (match o with Some ct => live ++ [(p, ct)] | None => live end)) /\
  (forall now t live msg ack, tab_ok t live -> resp_ok msg ->
     match list_find (answers msg) live with
     | None => response_handler now t msg ack = Some (false, t, [])
     | Some (p, ct) => exists t',
         let '(o, acts) := handle_response now ct (scode msg) ack in
         response_handler now t msg ack = Some (true, t', acts) /\ tab_ok t' (list_put live p o)
     end) /\
  (forall now t live p ct e o acts, tab_ok t live -> (p, ct) ∈ live ->
     handle now ct e = Some (o, acts) -> tab_ok (settle t p o) (list_put live p o)).
Proof.
  split_and!.
  - intros sz Hsz t. unfold sip_ctrans_init. simpl negb. cbv iota.
    destruct (hash_alloc sz true) as [err h] eqn:E.
    destruct (hash_alloc_ok sz Hsz err h E) as [_ H]. intros [= -> Hh].
    destruct (H eq_refl) as (h'&->&Hh'&_). simpl in Hh. simplify_eq.
    split; [done|apply store_nil|]. intros p ct Hin. by apply elem_of_nil in Hin.
  - apply request_in_ok.
  - apply response_handler_ok.
  - intros now t live p ct e o acts Ht Hin He. apply (tab_settle t live p ct); [done|done|].
    intros ct' ->. by apply (handle_branch now ct e ct' acts).
Qed.

(** *** Witnesses: a REGISTER over UDP that is answered by 100, then by 200 *)

Definition REGISTER : list Z := [82; 69; 71; 73; 83; 84; 69; 82].
Definition ex_ct0 : ctrans :=
  mk_ct (Some 33000) (Some 1500) REGISTER [122] false TRYING 0 false false.
Definition ex_c1 : conf :=
  mk_conf (Some (set_state ex_ct0 PROCEEDING)) 1100 [(1000, Send); (1100, Resph 0 (Some 100))].
Definition ex_c2 : conf :=
  mk_conf (Some (set_timers (set_state ex_ct0 COMPLETED) (Some 6200) None)) 1200
    [(1000, Send); (1100, Resph 0 (Some 100)); (1200, Resph 0 (Some 200))].

Lemma ex_ctrans_reachable : reachable 1000 false REGISTER [122] ex_c2.
Proof.
  apply (reach_more _ _ _ _ ex_c1).
  - apply (reach_more _ _ _ _ (mk_conf (Some ex_ct0) 1000 [(1000, Send)])).
    + apply (reach_start 1000 false REGISTER [122] ex_ct0 [Send]); [by vm_compute|done].
    + apply (step_event (mk_conf (Some ex_ct0) 1000 [(1000, Send)]) 1100 ex_ct0 (Response 100 true)
        (Some (set_state ex_ct0 PROCEEDING)) [Resph 0 (Some 100)]);
        [done|done|done|by vm_compute].
  - apply (step_event ex_c1 1200 (set_state ex_ct0 PROCEEDING) (Response 200 true)
      (Some (set_timers (set_state ex_ct0 COMPLETED) (Some 6200) None)) [Resph 0 (Some 200)]);
      [done|done|done|by vm_compute].
Qed.

Lemma ctrans_one_final_witness : one_final (resphs (trace ex_c2)).
Proof. apply (ctrans_one_final 1000 false REGISTER [122] ex_c2 ex_ctrans_reachable). Defined.

Lemma ctrans_lifetime_witness : is_Some (tmr (set_timers (set_state ex_ct0 COMPLETED) (Some 6200) None)).
Proof.
  apply (ctrans_lifetime 1000 false REGISTER [122] ex_c2
    (set_timers (set_state ex_ct0 COMPLETED) (Some 6200) None) ex_ctrans_reachable eq_refl);
    [by intros d [= <-]|done].
Defined.

Lemma ctrans_retransmissions_witness :
  unanswered 1000 false INVITE [122] =
    Some (timeline 1000 [0; 500; 1500; 3500; 7500; 15500; 31500]).
Proof.
  destruct (ctrans_retransmissions 1000 [122]) as [H _]; [by vm_compute|exact H].
Defined.

Lemma ctrans_ack_exact_witness :
  omap (fun a => match a with SendAck => Some tt | _ => None end)
    [SendAck; Resph 0 (Some 486)] = [tt].
Proof.
  apply (ctrans_ack_exact 1100 (mk_ct None None INVITE [122] false PROCEEDING 0 true false)
    (Response 486 true)
    (Some (mk_ct (Some 33100) None INVITE [122] false COMPLETED 0 true true))).
  by vm_compute.
Defined.

Definition ex_table : table :=
  match sip_ctrans_init 0 4 true with (_, Some t) => t | _ => mk_table (mk_hash [] 0) ∅ end.

Lemma ctrans_table_refines_witness :
  exists t t', request_in 1000 ex_table false REGISTER [122] 4096 0 = Some (0, t, [Send]) /\
    tab_ok t [(4096, ex_ct0)] /\
    response_handler 1100 t (mk_resp (mk_pl 7 [122]) (mk_pl 8 REGISTER) 200) true =
      Some (true, t', [Resph 0 (Some 200)]).
Proof.
  destruct ctrans_table_refines as (H0&H1&H2&_).
  assert (tab_ok ex_table []) as Hi by (by apply (H0 4)).
  assert (ascii [122]) as Ha by (by constructor).
  destruct (H1 1000 ex_table [] false REGISTER [122] 4096 0 Hi Ha) as (t&E&Ht).
  { by intros ?%elem_of_nil. }
  specialize (H2 1100 t _ (mk_resp (mk_pl 7 [122]) (mk_pl 8 REGISTER) 200) true Ht).
  destruct H2 as (t'&E'&_); [done|]. exists t, t'. split_and!; [exact E|exact Ht|exact E'].
Defined.

End Ctrans.
