(* ===== verification/Strans.v ===== *)
(** * SIP server transactions: src/libre/src/sip/strans.c

    The state machine of a server transaction and the handler that matches
    incoming requests against the live transactions, in two hash tables over one
    store.  [None] is undefined behaviour. *)
From S2P Require Import Prelude Pl Hash Store Ctrans.
Import Pl Hash Store.

Module Strans.

Abbreviation SIP_T1 := Ctrans.SIP_T1.
Abbreviation SIP_T2 := Ctrans.SIP_T2.
Abbreviation SIP_T4 := Ctrans.SIP_T4.

Inductive state := TRYING | PROCEEDING | ACCEPTED | COMPLETED | CONFIRMED.
#[export] Instance state_eq_dec : EqDecision state.
Proof. solve_decision. Defined.

(** What the transaction layer looks at in a message. *)
Record sip_msg := mk_msg {
  m_met : pl;            (** method of the request line *)
  via_branch : pl;
  via_sentby : pl;
  cseq_met : pl;
  cseq_num : Z;
  callid : pl;
  from_tag : pl;
  to_tag : pl;
  ruri : pl;
  m_tag : Z;
  m_reliable : bool }.   (** [sip_transp_reliable(msg->tp)] *)

(** [struct sip_strans]; a running timer is its expiry, [mb] the stored response. *)
Record strans := mk_st {
  tmr : option Z;
  tmrg : option Z;
  msg : sip_msg;
  mb : option Z;
  st : state;
  txc : Z;
  invite : bool }.

Definition set_timers (s : strans) (t g : option Z) : strans :=
  mk_st t g (msg s) (mb s) (st s) (txc s) (invite s).
Definition set_state (s : strans) (x : state) : strans :=
  mk_st (tmr s) (tmrg s) (msg s) (mb s) x (txc s) (invite s).

(** Actions: transmit the stored response of the transaction at an address, answer
    a request without a transaction, call the cancel handler. *)
Inductive act :=
| SendStored (p : Z)
| Reply (scode : Z) (tag : option Z)
| CancelHandler (p : Z).

Definition expiry (now delay : Z) : option Z := Some (u64 (delay + now)).

(** ** One transaction *)

(** The retransmission of a final response: the transaction and what is sent. *)
Definition retransmit_handler (now : Z) (p : Z) (s : strans) : option (strans * list act) :=
  let n := u32 (txc s + 1) in
  x ← Ctrans.shl_T1 n;
  Some (mk_st (tmr s) (expiry now (Z.min x SIP_T2)) (msg s) (mb s) (st s) n (invite s),
        [SendStored p]).

(** [sip_strans_reply] from the transmission on; [None] in the result: the
    transaction is destroyed. *)
Definition reply_st (now : Z) (s : strans) (scode : Z) (send_err : Z) : Z * option strans :=
  if negb (send_err =? 0) then (send_err, None)
  else if invite s then
    if scode <? 200 then (0, Some (set_state s PROCEEDING))
    else if scode <? 300 then
      (0, Some (set_state (set_timers s (expiry now (64 * SIP_T1)) (tmrg s)) ACCEPTED))
    else
      let s1 := set_state (set_timers s (expiry now (64 * SIP_T1)) (tmrg s)) COMPLETED in
      (0, Some (if m_reliable (msg s) then s1
                else set_timers s1 (tmr s1) (expiry now SIP_T1)))
  else if scode <? 200 then (0, Some (set_state s PROCEEDING))
  else if negb (m_reliable (msg s)) then
    (0, Some (set_state (set_timers s (expiry now (64 * SIP_T1)) (tmrg s)) COMPLETED))
  else (0, None).

(** An ACK: whether it was for this transaction, and the transaction afterwards.
    ACKs of 2xx responses are passed on to the user. *)
Definition ack_st (now : Z) (s : strans) : bool * option strans :=
  match st s with
  | ACCEPTED => (false, Some s)
  | COMPLETED =>
      if m_reliable (msg s) then (true, None)
      else (true, Some (set_state (set_timers s (expiry now SIP_T4) None) CONFIRMED))
  | _ => (true, Some s)
  end.

(** ** The tables *)

Record sip := mk_sip { ht_strans : hash Z; ht_strans_mrg : hash Z; sts : gmap Z strans }.

Definition str_INVITE : option pl := Some (mk_pl 1 Ctrans.INVITE).
Definition str_CANCEL : option pl := Some (mk_pl 1 Ctrans.CANCEL).
Definition str_ACK : option pl := Some (mk_pl 1 [65; 67; 75]).

Definition eqpl (a b : pl) : bool := pl_cmp (Some a) (Some b) =? 0.

Definition strans_cmp (m1 m2 : sip_msg) : bool :=
  eqpl (via_branch m1) (via_branch m2) && eqpl (via_sentby m1) (via_sentby m2).

Definition cmp_handler (s : strans) (m : sip_msg) : bool :=
  strans_cmp (msg s) m && eqpl (cseq_met (msg s)) (cseq_met m).

Definition cmp_ack_handler (s : strans) (m : sip_msg) : bool :=
  strans_cmp (msg s) m && (pl_strcmp (Some (cseq_met (msg s))) str_INVITE =? 0).

Definition cmp_cancel_handler (s : strans) (m : sip_msg) : bool :=
  strans_cmp (msg s) m && negb (pl_strcmp (Some (cseq_met (msg s))) str_CANCEL =? 0).

Definition cmp_merge_handler (s : strans) (m : sip_msg) : bool :=
  eqpl (cseq_met (msg s)) (cseq_met m) && (cseq_num (msg s) =? cseq_num m) &&
  eqpl (callid (msg s)) (callid m) && eqpl (from_tag (msg s)) (from_tag m) &&
  eqpl (ruri (msg s)) (ruri m).

Definition branch_key (m : sip_msg) : Z := hash_joaat_pl (Some (via_branch m)).
Definition merge_key (m : sip_msg) : Z := hash_joaat_pl (Some (callid m)).

Definition find_branch (t : sip) (f : strans -> sip_msg -> bool) (m : sip_msg) : option (option Z) :=
  find_data (ht_strans t) (branch_key m) (sts t) (fun s => f s m).
Definition find_merge (t : sip) (m : sip_msg) : option (option Z) :=
  find_data (ht_strans_mrg t) (merge_key m) (sts t) (fun s => cmp_merge_handler s m).

Definition update (t : sip) (p : Z) (s : strans) : sip :=
  mk_sip (ht_strans t) (ht_strans_mrg t) (<[p := s]> (sts t)).

(** [mem_deref(st)] with its destructor. *)
Definition destroy (t : sip) (p : Z) : sip :=
  mk_sip (hash_unlink (ht_strans t) p) (hash_unlink (ht_strans_mrg t) p) (delete p (sts t)).

(** Return value, state, actions. *)
Definition result : Type := bool * sip * list act.

Definition ack_handler (now : Z) (t : sip) (m : sip_msg) : option result :=
  r ← find_branch t cmp_ack_handler m;
  match r with
  | None => Some (false, t, [])
  | Some p =>
      s ← sts t !! p;
      let '(ret, o) := ack_st now s in
      Some (ret, match o with Some s1 => update t p s1 | None => destroy t p end, [])
  end.

Definition cancel_handler (t : sip) (m : sip_msg) : option result :=
  r ← find_branch t cmp_cancel_handler m;
  match r with
  | None => Some (false, t, [])
  | Some p =>
      s ← sts t !! p;
      let ok := Reply 200 (Some (m_tag (msg s))) in
      match st s with
      | TRYING | PROCEEDING => Some (true, t, [ok; CancelHandler p])
      | _ => Some (true, t, [ok])
      end
  end.

Definition request_handler (now : Z) (t : sip) (m : sip_msg) : option result :=
  if pl_strcmp (Some (m_met m)) str_ACK =? 0 then ack_handler now t m
  else
    r ← find_branch t cmp_handler m;
    match r with
    | Some p =>
        s ← sts t !! p;
        match st s with
        | PROCEEDING | COMPLETED => Some (true, t, [SendStored p])
        | _ => Some (true, t, [])
        end
    | None =>
        merged ← (if negb (pl_isset (Some (to_tag m))) then find_merge t m else Some None);
        match merged with
        | Some _ => Some (true, t, [Reply 482 None])
        | None =>
            if pl_strcmp (Some (m_met m)) str_CANCEL =? 0 then cancel_handler t m
            else Some (false, t, [])
        end
    end.

(** [p]: the address of the new transaction, 0 when there is no memory. *)
Definition sip_strans_alloc (t : sip) (m : sip_msg) (p : Z) : option (Z * sip) :=
  if p =? 0 then Some (ENOMEM, t)
  else
    h1 ← hash_append (ht_strans t) (branch_key m) p p;
    h2 ← hash_append (ht_strans_mrg t) (merge_key m) p p;
    Some (0, mk_sip h1 h2 (<[p := mk_st None None m None TRYING 0
                                  (pl_strcmp (Some (m_met m)) str_INVITE =? 0)]> (sts t))).

(** [sip_strans_reply] once it has a transaction.  [stp]: the address of the caller's
    pointer, [None] when null, [Some None] when it holds a null pointer; the result
    has its new content. *)
Definition reply_with (now : Z) (t : sip) (stp : option (option Z)) (p : Z)
    (scode body send_err : Z) : option (Z * option (option Z) * sip * list act) :=
  s ← sts t !! p;
  let s1 := mk_st (tmr s) (tmrg s) (msg s) (Some body) (st s) (txc s) (invite s) in
  let stp1 := if negb (send_err =? 0) || (200 <=? scode) then None else Some p in
  let '(err, o) := reply_st now s1 scode send_err in
  Some (err, option_map (fun _ => stp1) stp,
        match o with Some s2 => update t p s2 | None => destroy t p end, [SendStored p]).

Definition sip_strans_reply (now : Z) (t : sip) (stp : option (option Z)) (m : sip_msg)
    (scode body send_err fresh : Z) : option (Z * option (option Z) * sip * list act) :=
  if (scode <? 200) && bool_decide (stp = None) then Some (EINVAL, stp, t, [])
  else match stp with
  | Some (Some p) => reply_with now t stp p scode body send_err
  | _ =>
      '(err, t1) ← sip_strans_alloc t m fresh;
      if negb (err =? 0) then Some (err, stp, t1, [])
      else reply_with now t1 stp fresh scode body send_err
  end.

Definition sip_strans_init (listen_err sz : Z) (ok_mrg ok : bool) : Z * option sip :=
  if negb (listen_err =? 0) then (listen_err, None)
  else match hash_alloc sz ok_mrg with
  | (0, Some hm) =>
      match hash_alloc sz ok with
      | (0, Some h) => (0, Some (mk_sip h hm ∅))
      | (err, _) => (err, None)
      end
  | (err, _) => (err, None)
  end.

(** ** Runs of one transaction *)

Record conf := mk_conf { of_conf : option strans; clock : Z; replied : option Z }.

Inductive event :=
| EvReply (scode send_err : Z)
| EvAck
| EvTmr
| EvTmrg.

Definition handle (now : Z) (s : strans) (e : event) : option (option strans) :=
  match e with
  | EvReply scode err => Some (snd (reply_st now s scode err))
  | EvAck => Some (snd (ack_st now s))
  | EvTmr => Some None
  | EvTmrg => '(s', _) ← retransmit_handler now 0 (set_timers s (tmr s) None); Some (Some s')
  end.

(** The user replies until it has sent a final response (then its pointer is
    cleared); of two due timers the earlier one fires first. *)
Definition enabled (now : Z) (s : strans) (e : event) : Prop :=
  match e with
  | EvReply scode _ => 100 <= scode /\ (st s = TRYING \/ st s = PROCEEDING)
  | EvAck => invite s = true
  | EvTmr => exists d, tmr s = Some d /\ d <= now /\ forall g, tmrg s = Some g -> d <= g
  | EvTmrg => exists g, tmrg s = Some g /\ g <= now /\ forall d, tmr s = Some d -> g <= d
  end.

Definition clock_max : Z := Ctrans.clock_max.

Inductive step : conf -> conf -> Prop :=
| step_event c now s e o : of_conf c = Some s -> clock c <= now <= clock_max ->
    enabled now s e -> handle now s e = Some o ->
    step c (mk_conf o now (match e with
                           | EvReply scode _ => if 200 <=? scode then Some now else replied c
                           | _ => replied c end)).

Inductive reachable (m : sip_msg) (inv : bool) : conf -> Prop :=
| reach_alloc t0 : 0 <= t0 <= clock_max ->
    reachable m inv (mk_conf (Some (mk_st None None m None TRYING 0 inv)) t0 None)
| reach_event c c' : reachable m inv c -> step c c' -> reachable m inv c'.

Record live_ok (m : sip_msg) (inv : bool) (t1 : option Z) (s : strans) : Prop := {
  lo_msg : msg s = m;
  lo_inv : invite s = inv;
  lo_txc : 0 <= txc s <= 10;
  lo_open : st s = TRYING \/ st s = PROCEEDING ->
    tmr s = None /\ tmrg s = None /\ txc s = 0 /\ t1 = None;
  lo_final : st s = ACCEPTED \/ st s = COMPLETED ->
    exists t, t1 = Some t /\ 0 <= t /\ tmr s = Some (t + 32000);
  lo_confirmed : st s = CONFIRMED -> is_Some (tmr s) /\ tmrg s = None;
  lo_tmrg : forall g, tmrg s = Some g -> st s = COMPLETED /\ inv = true /\
    m_reliable m = false /\ exists t, t1 = Some t /\ t + Ctrans.earliest (Z.to_nat (txc s)) <= g }.

Definition conf_ok (m : sip_msg) (inv : bool) (c : conf) : Prop :=
  0 <= clock c <= clock_max /\
  match of_conf c with Some s => live_ok m inv (replied c) s | None => True end.

Lemma st_expiry_ok now d : 0 <= now <= clock_max -> 0 <= d <= 4294967296 ->
  expiry now d = Some (now + d).
Proof. intros. rewrite Z.add_comm. by apply Ctrans.ct_expiry_ok. Qed.

Lemma st_retransmit_ok m inv t1 now s : live_ok m inv t1 s -> 0 <= now <= clock_max ->
  enabled now s EvTmrg ->
  exists o, handle now s EvTmrg = Some o /\
    match o with Some s' => live_ok m inv t1 s' | None => True end.
Proof.
  intros Hl Hnow (g&Hg&Hgn&Hle). pose proof Hl as [].
  destruct (lo_tmrg0 g Hg) as (Hc&Hi&Hr&t&->&He).
  destruct (lo_final0 (or_intror Hc)) as (t'&[= <-]&Ht0&Ht). pose proof (Hle _ Ht) as Hg32.
  assert (txc s <= 9) as Htx.
  { destruct (Z.le_gt_cases (txc s) 9); [done|].
    pose proof (Ctrans.earliest_mono 10 (Z.to_nat (txc s)) ltac:(lia)) as Hm.
    change (Ctrans.earliest 10) with 35500 in Hm. lia. }
  simpl. unfold retransmit_handler. simpl. rewrite u32_small, Ctrans.shl_T1_ok by lia. simpl.
  eexists. split; [done|].
  assert (0 < 2 ^ (txc s + 1)) by (apply Z.pow_pos_nonneg; lia).
  unfold Ctrans.SIP_T1, Ctrans.SIP_T2 in *. rewrite st_expiry_ok by (done || lia).
  split; simpl; try done; try lia.
  - rewrite Hc. by intros [|].
  - rewrite Hc. done.
  - intros g' [= <-]. split_and!; try done. exists t. split; [done|].
    replace (Z.to_nat (txc s + 1)) with (S (Z.to_nat (txc s))) by lia.
    cbn [Ctrans.earliest]. unfold Ctrans.SIP_T1, Ctrans.SIP_T2.
    replace (Z.of_nat (S (Z.to_nat (txc s)))) with (txc s + 1) by lia. lia.
Qed.

Lemma reply_ok m inv t1 now s scode err : live_ok m inv t1 s -> 0 <= now <= clock_max ->
  enabled now s (EvReply scode err) ->
  match snd (reply_st now s scode err) with
  | Some s' => live_ok m inv (if 200 <=? scode then Some now else t1) s'
  | None => True
  end.
Proof.
  intros [] Hnow [Hs Hst]. destruct (lo_open0 Hst) as (Ht&Hg&Hx&->).
  unfold reply_st. destruct (err =? 0); simpl; [|done].
  assert (scode < 200 -> live_ok m inv (if 200 <=? scode then Some now else None)
    (set_state s PROCEEDING)) as Hprov.
  { intros Hlt. destruct (Z.leb_spec 200 scode); [lia|].
    split; simpl; try done; [by intros [|]|]. intros g. by rewrite Hg. }
  assert (forall x t g, 200 <= scode -> x = ACCEPTED \/ x = COMPLETED ->
    t = expiry now (64 * SIP_T1) ->
    (g = None \/ x = COMPLETED /\ inv = true /\ m_reliable m = false /\ g = expiry now SIP_T1) ->
    live_ok m inv (if 200 <=? scode then Some now else None)
      (mk_st t g (msg s) (mb s) x (txc s) (invite s))) as Hfin.
  { intros x t g Hge Hxx -> Hgg. destruct (Z.leb_spec 200 scode); [|lia].
    change (64 * SIP_T1) with 32000. rewrite st_expiry_ok by (done || lia).
    split; simpl; try done.
    - intros [->| ->]; by destruct Hxx.
    - intros _. exists now. split_and!; try done. lia.
    - intros ->. by destruct Hxx.
    - intros g'. destruct Hgg as [->|(->&Hi&Hr&->)]; [done|].
      change SIP_T1 with 500. rewrite st_expiry_ok by (done || lia). intros [= <-].
      split_and!; try done. exists now. split; [done|]. rewrite Hx. simpl. unfold Ctrans.SIP_T1. lia. }
  destruct (invite s) eqn:Ei.
  - destruct (Z.ltb_spec scode 200); [by apply Hprov|].
    destruct (Z.ltb_spec scode 300); [|destruct (m_reliable (msg s)) eqn:Er];
      unfold set_state, set_timers; cbn [snd tmr tmrg msg mb st txc invite]; rewrite ?Hg, ?Ei;
      apply Hfin; auto.
    right. split_and!; try done; congruence.
  - destruct (Z.ltb_spec scode 200); [by apply Hprov|].
    destruct (m_reliable (msg s)) eqn:Er; [done|].
    unfold set_state, set_timers; cbn [negb snd tmr tmrg msg mb st txc invite].
    rewrite ?Hg, ?Ei. apply Hfin; auto.
Qed.

Lemma ack_ok m inv t1 now s : live_ok m inv t1 s -> 0 <= now <= clock_max ->
  match snd (ack_st now s) with Some s' => live_ok m inv t1 s' | None => True end.
Proof.
  intros Hl Hnow. pose proof Hl as []. unfold ack_st.
  destruct (st s) eqn:Est; simpl; try done.
  destruct (m_reliable (msg s)) eqn:Er; simpl; [done|].
  split; simpl; try done; by intros [|].
Qed.

Lemma st_handle_ok m inv c now s e : conf_ok m inv c -> of_conf c = Some s ->
  clock c <= now <= clock_max -> enabled now s e ->
  exists o, handle now s e = Some o /\
    conf_ok m inv (mk_conf o now (match e with
      | EvReply scode _ => if 200 <=? scode then Some now else replied c
      | _ => replied c end)).
Proof.
  intros [Hck Hc] Hs Hnow He. rewrite Hs in Hc.
  assert (0 <= now <= clock_max) as Hn by lia.
  destruct e as [scode err| | |].
  - eexists. split; [done|]. split; [done|]. simpl. by apply reply_ok.
  - eexists. split; [done|]. split; [done|]. simpl. by apply ack_ok.
  - by exists None.
  - destruct (st_retransmit_ok m inv (replied c) now s Hc Hn He) as (o&E&Ho).
    exists o. split; [exact E|]. split; [done|]. exact Ho.
Qed.

Lemma st_reachable_ok m inv c : reachable m inv c -> conf_ok m inv c.
Proof.
  induction 1 as [t0 Ht|c c' _ IH Hstep].
  - split; [done|]. simpl. split; simpl; try done; by intros [|].
  - destruct Hstep as [c now s e o Hs Hnow He Hh].
    destruct (st_handle_ok m inv c now s e IH Hs Hnow He) as (o'&E&Ho). congruence.
Qed.

(** C7: the life of a server transaction: no event that can happen is undefined;
    an unanswered transaction holds no timer; a final response is kept for 32
    seconds from the reply, and the timer of an acknowledged one is its only timer;
    only an error response to an INVITE over an unreliable transport is
    retransmitted, the retransmission number k not before the sum of the first k
    intervals of RFC 3261. *)
Theorem strans_lifecycle m inv c s : reachable m inv c -> of_conf c = Some s ->
  (forall e now, clock c <= now <= clock_max -> enabled now s e -> is_Some (handle now s e)) /\
  msg s = m /\ invite s = inv /\
  match st s with
  | TRYING | PROCEEDING => tmr s = None /\ tmrg s = None /\ replied c = None
  | ACCEPTED => tmrg s = None /\ exists t, replied c = Some t /\ tmr s = Some (t + 32000)
  | COMPLETED => exists t, replied c = Some t /\ tmr s = Some (t + 32000) /\
      forall g, tmrg s = Some g -> inv = true /\ m_reliable m = false /\
        t + Ctrans.earliest (Z.to_nat (txc s)) <= g
  | CONFIRMED => tmrg s = None /\ is_Some (tmr s)
  end.
Proof.
  intros Hr Hs. pose proof (st_reachable_ok m inv c Hr) as Hc.
  split; [|destruct Hc as [_ Hl]; rewrite Hs in Hl; destruct Hl].
  - intros e now Hn He. destruct (st_handle_ok m inv c now s e Hc Hs Hn He) as (o&->&_). by eexists.
  - split_and!; try done. destruct (st s) eqn:Es.
    + destruct (lo_open0 (or_introl eq_refl)) as (?&?&_&?). done.
    + destruct (lo_open0 (or_intror eq_refl)) as (?&?&_&?). done.
    + destruct (lo_final0 (or_introl eq_refl)) as (t&?&_&?). split; [|by exists t].
      destruct (tmrg s) as [g|] eqn:Eg; [|done]. by destruct (lo_tmrg0 g eq_refl).
    + destruct (lo_final0 (or_intror eq_refl)) as (t&Ht&_&?). exists t. split_and!; try done.
      intros g Hg. destruct (lo_tmrg0 g Hg) as (_&?&?&t'&?&?). split_and!; congruence.
    + by destruct (lo_confirmed0 eq_refl).
Qed.

(** ** The tables refine a list of transactions *)

Section Tables.

(** The bytes at an address, as long as the messages that refer to them live. *)
Context (read : Z -> nat -> list Z).

Definition pl_ok (x : pl) : Prop := pl_p x <> 1 /\ pl_s x = read (pl_p x) (length (pl_s x)).

Record msg_ok (m : sip_msg) : Prop := {
  mo_met : pl_ok (m_met m);
  mo_branch : pl_ok (via_branch m);
  mo_sentby : pl_ok (via_sentby m);
  mo_cseq : pl_ok (cseq_met m);
  mo_callid : pl_ok (callid m);
  mo_from : pl_ok (from_tag m);
  mo_ruri : pl_ok (ruri m) }.

Abbreviation transactions := (list (Z * strans)).

Definition by_branch (s : strans) : Z := branch_key (msg s).
Definition by_merge (s : strans) : Z := merge_key (msg s).

(** The tables hold the live transactions, oldest first. *)
Record tab_ok (t : sip) (live : transactions) : Prop := {
  tb_branch : table_ok (ht_strans t) (keyed by_branch live);
  tb_merge : table_ok (ht_strans_mrg t) (keyed by_merge live);
  tb_sts : store_ok (sts t) live;
  tb_msgs : forall x, x ∈ live -> msg_ok (msg (snd x)) }.

Definition same (f : sip_msg -> pl) (a b : sip_msg) : bool := bool_decide (pl_s (f a) = pl_s (f b)).
Definition is_met (f : sip_msg -> pl) (a : sip_msg) (k : list Z) : bool := bool_decide (pl_s (f a) = k).
Definition via_same (a b : sip_msg) : bool := same via_branch a b && same via_sentby a b.

Definition spec_find (f : sip_msg -> bool) (live : transactions) : option (Z * strans) :=
  list_find (fun s => f (msg s)) live.

(** A request: the transactions afterwards, whether it was absorbed, and what is done. *)
Definition spec_request (now : Z) (live : transactions) (m : sip_msg) :
    transactions * bool * list act :=
  if is_met m_met m [65; 67; 75] then
    match spec_find (fun x => via_same x m && is_met cseq_met x Ctrans.INVITE) live with
    | None => (live, false, [])
    | Some (p, s) => let '(ret, o) := ack_st now s in (list_put live p o, ret, [])
    end
  else match spec_find (fun x => via_same x m && same cseq_met x m) live with
  | Some (p, s) =>
      (live, true, if bool_decide (st s = PROCEEDING \/ st s = COMPLETED) then [SendStored p] else [])
  | None =>
      match (if bool_decide (pl_isset (Some (to_tag m)) = false) then
               spec_find (fun x => same cseq_met x m && (cseq_num x =? cseq_num m) &&
                 same callid x m && same from_tag x m && same ruri x m) live
             else None) with
      | Some _ => (live, true, [Reply 482 None])
      | None =>
          if is_met m_met m Ctrans.CANCEL then
            match spec_find (fun x => via_same x m && negb (is_met cseq_met x Ctrans.CANCEL)) live with
            | None => (live, false, [])
            | Some (p, s) =>
                (live, true, Reply 200 (Some (m_tag (msg s))) ::
                  if bool_decide (st s = TRYING \/ st s = PROCEEDING) then [CancelHandler p] else [])
            end
          else (live, false, [])
      end
  end.

(** An operation of the layer, with its result, the caller's pointer and the actions. *)
Inductive op :=
| OpRequest (m : sip_msg)
| OpAlloc (m : sip_msg) (p : Z)
| OpReply (stp : option (option Z)) (m : sip_msg) (scode body send_err fresh : Z)
| OpTmr (p : Z)
| OpTmrg (p : Z).

Definition outcome : Type := Z * option (option Z) * list act.

Definition run_op (now : Z) (t : sip) (o : op) : option (sip * outcome) :=
  match o with
  | OpRequest m => '(ret, t1, acts) ← request_handler now t m; Some (t1, (Z.b2z ret, None, acts))
  | OpAlloc m p => '(err, t1) ← sip_strans_alloc t m p; Some (t1, (err, None, []))
  | OpReply stp m scode body send_err fresh =>
      '(err, stp1, t1, acts) ← sip_strans_reply now t stp m scode body send_err fresh;
      Some (t1, (err, stp1, acts))
  | OpTmr p => Some (destroy t p, (0, None, []))
  | OpTmrg p =>
      s ← sts t !! p; '(s1, acts) ← retransmit_handler now p s;
      Some (update t p s1, (0, None, acts))
  end.

Definition spec_new (m : sip_msg) : strans :=
  mk_st None None m None TRYING 0 (is_met m_met m Ctrans.INVITE).

Definition spec_reply (now : Z) (live : transactions) (stp : option (option Z)) (p : Z) (s : strans)
    (scode body send_err : Z) : transactions * outcome :=
  let '(err, o) := reply_st now
    (mk_st (tmr s) (tmrg s) (msg s) (Some body) (st s) (txc s) (invite s)) scode send_err in
  let stp1 := if negb (send_err =? 0) || (200 <=? scode) then None else Some p in
  (list_put live p o, (err, option_map (fun _ => stp1) stp, [SendStored p])).

Definition spec_op (now : Z) (live : transactions) (o : op) : option (transactions * outcome) :=
  match o with
  | OpRequest m => let '(l, ret, acts) := spec_request now live m in Some (l, (Z.b2z ret, None, acts))
  | OpAlloc m p =>
      Some (if p =? 0 then (live, (ENOMEM, None, [])) else (live ++ [(p, spec_new m)], (0, None, [])))
  | OpReply stp m scode body send_err fresh =>
      if (scode <? 200) && bool_decide (stp = None) then Some (live, (EINVAL, stp, []))
      else match stp with
      | Some (Some p) => s ← list_get live p; Some (spec_reply now live stp p s scode body send_err)
      | _ =>
          Some (if fresh =? 0 then (live, (ENOMEM, stp, []))
                else spec_reply now (live ++ [(fresh, spec_new m)]) stp fresh (spec_new m)
                       scode body send_err)
      end
  | OpTmr p => Some (list_put live p None, (0, None, []))
  | OpTmrg p =>
      s ← list_get live p; '(s1, acts) ← retransmit_handler now p s;
      Some (list_put live p (Some s1), (0, None, acts))
  end.

(** What the callers guarantee: live transactions, fresh memory, messages that stay. *)
Definition op_ok (live : transactions) (o : op) : Prop :=
  match o with
  | OpRequest m => msg_ok m
  | OpAlloc m p => msg_ok m /\ ~ (p ∈ live.*1)
  | OpReply stp m _ _ _ fresh =>
      msg_ok m /\ ~ (fresh ∈ live.*1) /\
      match stp with Some (Some p) => p ∈ live.*1 | _ => True end
  | OpTmr p => p ∈ live.*1
  | OpTmrg p => exists s, list_get live p = Some s /\ 0 <= txc s <= 9
  end.

Lemma eqpl_text a b : pl_ok a -> pl_ok b -> eqpl a b = bool_decide (pl_s a = pl_s b).
Proof.
  intros [_ Ha] [_ Hb]. unfold eqpl, pl_cmp. rewrite pl_cmp_by_spec.
  - unfold memcmp_eq, pl_l. destruct (Z.eqb_spec (Z.of_nat (length (pl_s a))) (Z.of_nat (length (pl_s b)))).
    + simpl. by case_bool_decide.
    + simpl. symmetry. apply bool_decide_eq_false. congruence.
  - intros Hp Hl. unfold pl_l in Hl. rewrite Ha, Hb, Hp. f_equal. lia.
  - intros l. by apply bool_decide_eq_true.
  - intros Hl H0. unfold pl_l in *. apply bool_decide_eq_true.
    destruct (pl_s a), (pl_s b); simpl in *; done.
Qed.

Lemma tab_get t live p s : tab_ok t live -> (p, s) ∈ live -> sts t !! p = Some s.
Proof. intros [] Hin. by apply (store_get _ live). Qed.

Lemma find_branch_text t live m f (g : sip_msg -> bool) : tab_ok t live ->
  (forall p s, (p, s) ∈ live -> f s m = g (msg s)) ->
  (forall p s, (p, s) ∈ live -> g (msg s) = true -> via_same (msg s) m = true) ->
  find_branch t f m = Some (option_map fst (spec_find g live)).
Proof.
  intros [] Hf Hg. unfold find_branch, spec_find. apply (find_data_ok _ by_branch); try done.
  intros p s Hin Hs. specialize (Hg p s Hin Hs). unfold via_same, same in Hg.
  apply andb_prop in Hg as [Hg _]. apply bool_decide_eq_true in Hg.
  unfold by_branch, branch_key, hash_joaat_pl. by rewrite Hg.
Qed.

Lemma tab_put t live p s s' : tab_ok t live -> (p, s) ∈ live -> msg s' = msg s ->
  tab_ok (update t p s') (list_put live p (Some s')).
Proof.
  intros [] Hin Hm. split; unfold update; cbn [ht_strans ht_strans_mrg sts].
  - rewrite (keyed_put _ (sts t) _ _ s); try done. unfold by_branch. by rewrite Hm.
  - rewrite (keyed_put _ (sts t) _ _ s); try done. unfold by_merge. by rewrite Hm.
  - by apply (store_put _ _ _ s).
  - intros x Hx. destruct (put_in (sts t) live p s s' x) as [->|]; try done; [|by apply tb_msgs0].
    simpl. rewrite Hm. by apply (tb_msgs0 (p, s)).
Qed.

Lemma tab_destroy t live p : tab_ok t live -> tab_ok (destroy t p) (list_put live p None).
Proof.
  intros []. split.
  - by apply table_remove.
  - by apply table_remove.
  - by apply store_remove.
  - intros x Hx. by apply tb_msgs0, (remove_in live p).
Qed.

Lemma tab_alloc t live m p : tab_ok t live -> msg_ok m -> ~ (p ∈ live.*1) -> p <> 0 ->
  exists t', sip_strans_alloc t m p = Some (0, t') /\ tab_ok t' (live ++ [(p, spec_new m)]).
Proof.
  intros [] Hm Hp H0. unfold sip_strans_alloc, str_INVITE. rewrite pl_strcmp_text by apply Hm.
  destruct (Z.eqb_spec p 0); [done|].
  destruct (table_add _ by_branch live p (spec_new m) tb_branch0) as (h1&E1&?).
  destruct (table_add _ by_merge live p (spec_new m) tb_merge0) as (h2&E2&?).
  unfold by_branch, by_merge in E1, E2. simpl msg in E1, E2. rewrite E1, E2.
  cbn [mbind option_bind]. eexists. split; [done|]. split; try done.
  - by apply store_add.
  - intros x [Hx| ->%list_elem_of_singleton]%elem_of_app; [by apply tb_msgs0|done].
Qed.

Lemma ack_st_msg now s s' : snd (ack_st now s) = Some s' -> msg s' = msg s.
Proof. unfold ack_st. destruct (st s), (m_reliable (msg s)); simpl; intros; by simplify_eq/=. Qed.

Lemma reply_st_msg now s scode err s' : snd (reply_st now s scode err) = Some s' -> msg s' = msg s.
Proof. unfold reply_st. repeat case_match; simpl; intros; by simplify_eq/=. Qed.

Lemma via_match a m : msg_ok a -> msg_ok m -> strans_cmp a m = via_same a m.
Proof.
  intros Ha Hm. unfold strans_cmp, via_same, same.
  rewrite !eqpl_text; [done|by apply Ha|by apply Hm|by apply Ha|by apply Hm].
Qed.

Lemma find_via t live m f (h : sip_msg -> bool) : tab_ok t live -> msg_ok m ->
  (forall p s, (p, s) ∈ live -> f s m = strans_cmp (msg s) m && h (msg s)) ->
  find_branch t f m = Some (option_map fst (spec_find (fun x => via_same x m && h x) live)).
Proof.
  intros Ht Hm Hf. apply (find_branch_text t live m); [done| |].
  - intros p s Hin. rewrite (Hf p s Hin), via_match; [done| |done]. by apply (tb_msgs _ _ Ht (p, s)).
  - intros p s _ H. by apply andb_prop in H as [? _].
Qed.

Lemma find_merge_text t live m : tab_ok t live -> msg_ok m ->
  find_merge t m = Some (option_map fst (spec_find (fun x => same cseq_met x m &&
    (cseq_num x =? cseq_num m) && same callid x m && same from_tag x m && same ruri x m) live)).
Proof.
  intros Ht Hm. unfold find_merge, spec_find.
  apply (find_data_ok _ by_merge); [apply Ht|apply Ht| |].
  - intros p s Hin. pose proof (tb_msgs _ _ Ht _ Hin) as Hs. simpl in Hs.
    unfold cmp_merge_handler, same. by rewrite !eqpl_text by (apply Hs || apply Hm).
  - intros p s Hin Hs. apply andb_prop in Hs as [[[[_ _]%andb_prop Hs]%andb_prop _]%andb_prop _].
    unfold same in Hs. apply bool_decide_eq_true in Hs.
    unfold by_merge, merge_key, hash_joaat_pl. by rewrite Hs.
Qed.

(** What a step of the tables does, against what it does to the list. *)
Definition refines {R} (c : option (R * sip * list act)) (spec : transactions * R * list act) : Prop :=
  let '(l, r, acts) := spec in exists t', c = Some (r, t', acts) /\ tab_ok t' l.

Lemma ack_handler_refines now t live m : tab_ok t live -> msg_ok m ->
  refines (ack_handler now t m)
    (match spec_find (fun x => via_same x m && is_met cseq_met x Ctrans.INVITE) live with
     | None => (live, false, [])
     | Some (p, s) => let '(ret, o) := ack_st now s in (list_put live p o, ret, [])
     end).
Proof.
  intros Ht Hm. unfold ack_handler.
  rewrite (find_via t live m cmp_ack_handler (fun x => is_met cseq_met x Ctrans.INVITE)); try done.
  2: { intros p s Hin. unfold cmp_ack_handler, str_INVITE. rewrite pl_strcmp_text; [done|].
       apply (tb_msgs _ _ Ht _ Hin). }
  destruct (spec_find _ live) as [[p s]|] eqn:E; simpl; [|by exists t].
  apply list_find_in in E. rewrite (tab_get t live p s) by done. simpl.
  pose proof (ack_st_msg now s) as Hk. destruct (ack_st now s) as [ret o]. simpl in Hk.
  eexists. split; [done|]. destruct o as [s1|]; [|by apply tab_destroy].
  apply (tab_put t live p s); auto.
Qed.

Lemma cancel_handler_refines t live m : tab_ok t live -> msg_ok m ->
  refines (cancel_handler t m)
    (match spec_find (fun x => via_same x m && negb (is_met cseq_met x Ctrans.CANCEL)) live with
     | None => (live, false, [])
     | Some (p, s) =>
         (live, true, Reply 200 (Some (m_tag (msg s))) ::
           if bool_decide (st s = TRYING \/ st s = PROCEEDING) then [CancelHandler p] else [])
     end).
Proof.
  intros Ht Hm. unfold cancel_handler.
  rewrite (find_via t live m cmp_cancel_handler (fun x => negb (is_met cseq_met x Ctrans.CANCEL))); try done.
  2: { intros p s Hin. unfold cmp_cancel_handler, str_CANCEL. rewrite pl_strcmp_text; [done|].
       apply (tb_msgs _ _ Ht _ Hin). }
  destruct (spec_find _ live) as [[p s]|] eqn:E; simpl; [|by exists t].
  apply list_find_in in E. rewrite (tab_get t live p s) by done. simpl.
  exists t. split; [|done].
  by destruct (st s).
Qed.

Lemma request_handler_refines now t live m : tab_ok t live -> msg_ok m ->
  refines (request_handler now t m) (spec_request now live m).
Proof.
  intros Ht Hm. unfold request_handler, spec_request, str_ACK, str_CANCEL.
  rewrite (pl_strcmp_text (m_met m) [65; 67; 75]) by apply Hm.
  rewrite (pl_strcmp_text (m_met m) Ctrans.CANCEL) by apply Hm. unfold is_met at 1.
  case_bool_decide; [by apply ack_handler_refines|].
  rewrite (find_via t live m cmp_handler (fun x => same cseq_met x m)); try done.
  2: { intros p s Hin. unfold cmp_handler, same. rewrite eqpl_text; [done| |apply Hm].
       apply (tb_msgs _ _ Ht _ Hin). }
  destruct (spec_find (fun x => via_same x m && same cseq_met x m) live) as [[p s]|] eqn:E;
    cbn [option_map mbind option_bind fst].
  - apply list_find_in in E. rewrite (tab_get t live p s) by done. simpl. exists t. split; [|done].
    by destruct (st s).
  - rewrite (find_merge_text t live m) by done.
    destruct (pl_isset (Some (to_tag m))); simpl negb;
      [rewrite (bool_decide_eq_false_2 (true = false)) by done|rewrite (bool_decide_eq_true_2 (false = false)) by done];
      [|match goal with |- context [option_map fst ?x] => destruct x as [[p s]|] end;
        [by exists t|]]; cbn [option_map mbind option_bind];
      change (is_met m_met m Ctrans.CANCEL) with (bool_decide (pl_s (m_met m) = Ctrans.CANCEL));
      (case_bool_decide; [by apply cancel_handler_refines|by exists t]).
Qed.

Lemma reply_with_refines now t live stp p s scode body err : tab_ok t live -> (p, s) ∈ live ->
  let '(l, (e, stp1, acts)) := spec_reply now live stp p s scode body err in
  exists t', reply_with now t stp p scode body err = Some (e, stp1, t', acts) /\ tab_ok t' l.
Proof.
  intros Ht Hin. unfold reply_with, spec_reply. rewrite (tab_get t live p s) by done.
  cbn [mbind option_bind].
  pose proof (reply_st_msg now (mk_st (tmr s) (tmrg s) (msg s) (Some body) (st s) (txc s) (invite s))
    scode err) as Hk.
  destruct (reply_st _ _ _ _) as [e o]. cbn [snd] in Hk. eexists. split; [reflexivity|].
  destruct o as [s2|]; [|by apply tab_destroy].
  apply (tab_put t live p s); [done|done|]. by apply Hk.
Qed.

Lemma reply_new_refines now t live stp m scode body err fresh : tab_ok t live -> msg_ok m ->
  ~ (fresh ∈ live.*1) ->
  let '(l, (e, stp1, acts)) :=
    (if fresh =? 0 then (live, (ENOMEM, stp, []))
     else spec_reply now (live ++ [(fresh, spec_new m)]) stp fresh (spec_new m) scode body err) in
  exists t', ('(err', t1) ← sip_strans_alloc t m fresh;
      if negb (err' =? 0) then Some (err', stp, t1, [])
      else reply_with now t1 stp fresh scode body err) = Some (e, stp1, t', acts) /\ tab_ok t' l.
Proof.
  intros Ht Hm Hf. destruct (Z.eqb_spec fresh 0) as [->|H0]; [by exists t|].
  destruct (tab_alloc t live m fresh Ht Hm Hf H0) as (t1&->&Ht1). cbn [mbind option_bind].
  simpl negb. cbv iota. apply reply_with_refines; [done|].
  apply elem_of_app. right. by apply list_elem_of_singleton.
Qed.

Lemma reply_refines now t live stp m scode body err fresh : tab_ok t live ->
  op_ok live (OpReply stp m scode body err fresh) ->
  exists l e stp1 acts t', spec_op now live (OpReply stp m scode body err fresh) =
      Some (l, (e, stp1, acts)) /\
    sip_strans_reply now t stp m scode body err fresh = Some (e, stp1, t', acts) /\ tab_ok t' l.
Proof.
  intros Ht (Hm&Hf&Hstp). unfold spec_op, sip_strans_reply.
  destruct (_ && _); [by do 5 eexists|].
  pose proof (reply_new_refines now t live stp m scode body err fresh Ht Hm Hf) as Hnew.
  destruct (if fresh =? 0 then _ else _) as [l [[e stp1] acts]] in Hnew |- *.
  destruct Hnew as (t'&E&Ht').
  destruct stp as [[p|]|]; [|by do 5 eexists..].
  destruct (list_get_live live p Hstp) as (s&Hs). rewrite Hs. cbn [mbind option_bind].
  pose proof (reply_with_refines now t live (Some (Some p)) p s scode body err Ht
    (list_get_in live p s Hs)) as H.
  destruct (spec_reply _ _ _ _ _ _ _ _) as [l' [[e' stp1'] acts']]. destruct H as (t''&->&?).
  by do 5 eexists.
Qed.

(** C8: the two hash tables implement one list of live transactions, oldest first:
    starting from [sip_strans_init], every operation of the layer on live
    transactions is defined and does what the same operation does on the list. A
    request is absorbed by the first transaction with its branch, sender and
    method (an ACK by the INVITE transaction, a CANCEL by any other one), or
    rejected as merged when a transaction has its Call-ID, tag, sequence number,
    method and URI; transactions are matched by text, not by hash or address. *)
Theorem strans_tables_refine :
  (forall sz, 0 <= sz < 4294967296 -> forall t, sip_strans_init 0 sz true true = (0, Some t) ->
     tab_ok t []) /\
  (forall now t live o, tab_ok t live -> op_ok live o ->
     exists t' live' out, run_op now t o = Some (t', out) /\
       spec_op now live o = Some (live', out) /\ tab_ok t' live').
Proof.
  split.
  - intros sz Hsz t. unfold sip_strans_init. simpl negb. cbv iota.
    destruct (hash_alloc sz true) as [err h] eqn:E.
    destruct (hash_alloc_ok sz Hsz err h E) as [_ H].
    destruct (Z.eq_dec err 0) as [->|He]; [|by destruct err, h].
    destruct (H eq_refl) as (h'&->&Hh&_). intros [= <-]. split; try done; [apply store_nil|].
    intros x Hx. by apply elem_of_nil in Hx.
  - intros now t live o Ht Ho. destruct o as [m|m p|stp m scode body err fresh|p|p].
    + pose proof (request_handler_refines now t live m Ht Ho) as H. unfold run_op, spec_op.
      destruct (spec_request now live m) as [[l r] acts]. destruct H as (t'&->&?). by do 3 eexists.
    + destruct Ho as [Hm Hp]. unfold run_op, spec_op. destruct (Z.eqb_spec p 0) as [->|H0].
      * by do 3 eexists.
      * destruct (tab_alloc t live m p Ht Hm Hp H0) as (t1&->&?). by do 3 eexists.
    + destruct (reply_refines now t live stp m scode body err fresh Ht Ho)
        as (l&e&stp1&acts&t'&E1&E2&Ht').
      exists t', l, (e, stp1, acts). unfold run_op. rewrite E2. by split_and!.
    + do 3 eexists. split_and!; [reflexivity|reflexivity|by apply tab_destroy].
    + destruct Ho as (s&Hs&Hx). unfold run_op, spec_op.
      rewrite Hs, (tab_get t live p s) by (done || by apply list_get_in). cbn [mbind option_bind].
      unfold retransmit_handler. rewrite u32_small, Ctrans.shl_T1_ok by lia.
      cbn [mbind option_bind]. do 3 eexists. split_and!; [reflexivity|reflexivity|].
      apply (tab_put t live p s); [done|by apply list_get_in|done].
Qed.

End Tables.

(** *** Witnesses: an INVITE over UDP, rejected with 486; the response is
    retransmitted once and the INVITE is received again *)

Definition ex_text (p : Z) : list Z :=
  if p =? 100 then Ctrans.INVITE else if p =? 200 then [122; 57; 104; 71] else [97; 46; 99].
Definition ex_read (p : Z) (n : nat) : list Z := take n (ex_text p).
Definition ex_pl (p : Z) : pl := mk_pl p (ex_text p).
Definition ex_msg (tag : Z) : sip_msg :=
  mk_msg (ex_pl 100) (ex_pl 200) (ex_pl 300) (ex_pl 100) 1 (ex_pl 400) (ex_pl 500) pl_null
    (ex_pl 600) tag false.

Definition ex_st0 : strans := mk_st None None (ex_msg 7) None TRYING 0 true.
Definition ex_st1 : strans := mk_st (Some 33000) (Some 1500) (ex_msg 7) None COMPLETED 0 true.
Definition ex_st2 : strans := mk_st (Some 33000) (Some 2500) (ex_msg 7) None COMPLETED 1 true.

Lemma ex_strans_reachable : reachable (ex_msg 7) true (mk_conf (Some ex_st2) 1500 (Some 1000)).
Proof.
  apply (reach_event _ _ (mk_conf (Some ex_st1) 1000 (Some 1000))).
  - apply (reach_event _ _ (mk_conf (Some ex_st0) 1000 None)); [by apply reach_alloc|].
    apply (step_event (mk_conf (Some ex_st0) 1000 None) 1000 ex_st0 (EvReply 486 0) (Some ex_st1));
      [done|done|by split; [|left]|by vm_compute].
  - apply (step_event (mk_conf (Some ex_st1) 1000 (Some 1000)) 1500 ex_st1 EvTmrg (Some ex_st2));
      [done|done| |by vm_compute].
    exists 1500. split_and!; [done|done|]. by intros d [= <-].
Qed.

Lemma strans_lifecycle_witness :
  is_Some (handle 2500 ex_st2 EvTmrg) /\ exists t, Some 1000 = Some t /\ tmr ex_st2 = Some (t + 32000).
Proof.
  destruct (strans_lifecycle _ _ _ _ ex_strans_reachable eq_refl) as (H1&_&_&t&Ht&Htm&_).
  split; [apply H1; [done|]|by exists t].
  exists 2500. split_and!; [done|done|]. by intros d [= <-].
Defined.

Lemma ex_msg_ok tag : msg_ok ex_read (ex_msg tag).
Proof. by split. Qed.

Definition ex_sip : sip :=
  match sip_strans_init 0 4 true true with
  | (_, Some t) => t
  | _ => mk_sip (mk_hash [] 0) (mk_hash [] 0) ∅
  end.

Lemma strans_tables_refine_witness :
  exists t t', run_op 1000 ex_sip (OpAlloc (ex_msg 7) 4096) = Some (t, (0, None, [])) /\
    tab_ok ex_read t [(4096, spec_new (ex_msg 7))] /\
    run_op 1001 t (OpRequest (ex_msg 8)) = Some (t', (1, None, [])).
Proof.
  destruct (strans_tables_refine ex_read) as [H0 H1].
  assert (tab_ok ex_read ex_sip []) as Hi by (by apply (H0 4)).
  destruct (H1 1000 ex_sip [] (OpAlloc (ex_msg 7) 4096) Hi) as (t&live&out&E&[= <- <-]&Ht).
  { split; [apply ex_msg_ok|]. by intros ?%elem_of_nil. }
  destruct (H1 1001 t _ (OpRequest (ex_msg 8)) Ht (ex_msg_ok 8)) as (t'&live'&out'&E'&Es&_).
  exists t, t'. split_and!; [exact E|exact Ht|]. rewrite E'.
  vm_compute in Es. by injection Es as <- <-.
Defined.

End Strans.
