(* ===== verification/Sipreg.v ===== *)
(** * SIP registration client: src/libre/src/sipreg/reg.c

    One registration with its timer, its outstanding request and the loop state of
    src/libre/src/sip/request.c.  The clock, the random number, the results of
    sending and of the authentication are arguments; requests and calls of the
    user's handler are recorded as actions.  The text of the REGISTER request and
    the decoding of the Contact header fields are not modelled. *)
From S2P Require Import Prelude Pl.
Import Pl.

Module Sipreg.

(** ** Loop detection *)

Record loopstate := mk_ls { ls_failc : Z; last_scode : Z }.

Definition sip_request_loops (ls : loopstate) (scode : Z) : bool * loopstate :=
  if scode <? 200 then (false, ls)
  else if scode <? 300 then (false, mk_ls 0 scode)
  else
    let n := u32 (ls_failc ls + 1) in
    if scode <? 400 then (16 <=? n, mk_ls n scode)
    else if (scode =? 401) || (scode =? 407) || (scode =? 491) then (16 <=? n, mk_ls n scode)
    else ((last_scode ls =? scode) || (16 <=? n), mk_ls n scode).

Definition sip_loopstate_reset : loopstate := mk_ls 0 0.

(** ** The registration *)

Definition DEFAULT_EXPIRES : Z := 3600.
Definition EAUTH : Z := 217.

(** [struct sipreg]; [tmr] is the expiry of the running timer, [req] and [ka]
    whether the pointers are set, [resph] whether the handler is still the user's. *)
Record sipreg := mk_reg {
  ls : loopstate;
  tmr : option Z;
  req : bool;
  ka : bool;
  expires : Z;
  failc : Z;
  wait : Z;
  registered : bool;
  terminated : bool;
  regid : Z;
  resph : bool }.

Definition set_ls (r : sipreg) x := mk_reg x (tmr r) (req r) (ka r) (expires r) (failc r) (wait r)
  (registered r) (terminated r) (regid r) (resph r).
Definition set_tmr (r : sipreg) x := mk_reg (ls r) x (req r) (ka r) (expires r) (failc r) (wait r)
  (registered r) (terminated r) (regid r) (resph r).
Definition set_req (r : sipreg) x := mk_reg (ls r) (tmr r) x (ka r) (expires r) (failc r) (wait r)
  (registered r) (terminated r) (regid r) (resph r).
Definition set_ka (r : sipreg) x := mk_reg (ls r) (tmr r) (req r) x (expires r) (failc r) (wait r)
  (registered r) (terminated r) (regid r) (resph r).
Definition set_expires (r : sipreg) x := mk_reg (ls r) (tmr r) (req r) (ka r) x (failc r) (wait r)
  (registered r) (terminated r) (regid r) (resph r).
Definition set_failc (r : sipreg) x := mk_reg (ls r) (tmr r) (req r) (ka r) (expires r) x (wait r)
  (registered r) (terminated r) (regid r) (resph r).
Definition set_wait (r : sipreg) x := mk_reg (ls r) (tmr r) (req r) (ka r) (expires r) (failc r) x
  (registered r) (terminated r) (regid r) (resph r).
Definition set_registered (r : sipreg) := mk_reg (ls r) (tmr r) (req r) (ka r) (expires r) (failc r)
  (wait r) true (terminated r) (regid r) (resph r).
Definition set_terminated (r : sipreg) := mk_reg (ls r) (tmr r) (req r) (ka r) (expires r) (failc r)
  (wait r) (registered r) true (regid r) false.

Inductive act :=
| Register (expires : Z)                  (** a REGISTER with this Contact expiry is sent *)
| Resph (err : Z) (scode : option Z)
| AuthReset
| StartKeepalive.

Definition call_resph (r : sipreg) (err : Z) (scode : option Z) : list act :=
  if resph r then [Resph err scode] else [].

(** [tmr_start] *)
Definition start (now : Z) (r : sipreg) (delay : Z) : sipreg :=
  set_tmr r (Some (u64 (delay + now))).

(** [rand]: the value of [rand_u16()]. *)
Definition failwait (failc rand : Z) : Z :=
  u32 (Z.min 1800 (30 * Z.shiftl 1 (Z.min failc 6)) * (500 + rand mod 501)).

(** [send_err]: the result of [sip_drequestf]. *)
Definition request (r : sipreg) (reset_ls : bool) (send_err : Z) : Z * sipreg * list act :=
  let r := if terminated r then set_expires r 0 else r in
  let r := if reset_ls then set_ls r sip_loopstate_reset else r in
  if negb (send_err =? 0) then (send_err, r, []) else (0, set_req r true, [Register (expires r)]).

(** [mem_deref] of the registration, which has one reference: the registration
    afterwards, if its destructor took a reference again. *)
Definition deref (r : sipreg) (send_err : Z) : option sipreg * list act :=
  let r := set_tmr r None in
  if terminated r then (None, [])
  else
    let r := set_terminated r in
    if req r then (Some r, [])
    else if registered r then
      let '(err, r, acts) := request r true send_err in
      if err =? 0 then (Some r, acts) else (None, acts)
    else (None, []).

Definition tmr_handler (now : Z) (r : sipreg) (rand send_err : Z) : sipreg * list act :=
  let '(err, r, acts) := request r true send_err in
  if negb (err =? 0) then
    let r := set_failc r (u32 (failc r + 1)) in
    let r := start now r (failwait (failc r) rand) in
    (r, acts ++ call_resph r err None)
  else (r, acts).

Definition keepalive_handler (now : Z) (r : sipreg) (err rand : Z) : sipreg * list act :=
  if req r || terminated r then (r, [])
  else
    let r := set_failc r (u32 (failc r + 1)) in
    let r := start now r (failwait (failc r) rand) in
    (r, call_resph r err None).

(** What the handler sees of a Contact header field: whether it can be decoded, its
    URI and its "expires" parameter. *)
Record contact := mk_contact { decoded : bool; auri : pl; c_expires : option pl }.

(** [uri]: the URI that this client registers; [m_expires]: the Expires field.  The
    result is the new [wait] when the field is ours. *)
Definition contact_handler (uri : pl) (m_expires : pl) (c : contact) : option Z :=
  if negb (decoded c) then None
  else if negb (pl_strcmp (Some (auri c)) (Some uri) =? 0) then None
  else match c_expires c with
  | Some e => Some (pl_u32 (Some e))
  | None => Some (if pl_isset (Some m_expires) then pl_u32 (Some m_expires) else DEFAULT_EXPIRES)
  end.

(** [sip_msg_hdr_apply]: the handler stops at the first field that is ours. *)
Definition contact_apply (uri m_expires : pl) (cs : list contact) (wait : Z) : Z :=
  match omap (contact_handler uri m_expires) cs with w :: _ => w | [] => wait end.

(** A response; [outbound]: the Require field names it. *)
Record resp := mk_resp {
  scode : Z;
  contacts : list contact;
  m_expires : pl;
  min_expires : option pl;
  outbound : bool }.

(** What the calls of a handler return. *)
Record env := mk_env { rand : Z; uri : pl; auth_err : Z; send_err : Z; out_err : Z; ka_ok : bool }.

(** From the label [out]. *)
Definition finish (now : Z) (r : sipreg) (err : Z) (msg : option Z) (e : env) :
    option sipreg * list act :=
  if expires r =? 0 then deref r 0
  else if terminated r then
    if negb (registered r) then deref r 0
    else
      let '(err, r, acts) := request r true (out_err e) in
      if negb (err =? 0) then let '(o, acts1) := deref r 0 in (o, acts ++ acts1) else (Some r, acts)
  else
    let r := start now r (wait r) in
    (Some r, call_resph r err msg).

(** [++reg->failc] before the label. *)
Definition failed (now : Z) (r : sipreg) (err : Z) (msg : option Z) (e : env) :
    option sipreg * list act :=
  finish now (set_failc r (u32 (failc r + 1))) err msg e.

Definition start_outbound (r : sipreg) (m : resp) (e : env) : sipreg * list act :=
  if outbound m then (set_ka r (ka_ok e), [StartKeepalive]) else (r, []).

(** A successful response. *)
Definition accepted (now : Z) (r : sipreg) (m : resp) (e : env) : option sipreg * list act :=
  let r := set_registered r in
  let w := contact_apply (uri e) (m_expires m) (contacts m) (expires r) in
  let r := set_failc (set_wait r (u32 (w * 900))) 0 in
  let '(r, acts) := (if (0 <? regid r) && negb (terminated r) && negb (ka r)
                     then start_outbound r m e else (r, [])) in
  let '(o, acts1) := finish now r 0 (Some (scode m)) e in
  (o, acts ++ acts1).

(** A response of 300 or more. *)
Definition refused (now : Z) (r : sipreg) (m : resp) (e : env) : option sipreg * list act :=
  if terminated r && negb (registered r) then finish now r 0 (Some (scode m)) e
  else if (scode m =? 401) || (scode m =? 407) then
    if negb (auth_err e =? 0) then
      failed now r (if auth_err e =? EAUTH then 0 else auth_err e) (Some (scode m)) e
    else
      let '(err, r, acts) := request r false (send_err e) in
      if negb (err =? 0) then failed now r err (Some (scode m)) e else (Some r, acts)
  else if scode m =? 403 then
    let '(o, acts) := failed now r 0 (Some (scode m)) e in (o, AuthReset :: acts)
  else if scode m =? 423 then
    let m_exp := match min_expires m with Some x => pl_u32 (Some x) | None => 0 end in
    if (m_exp =? 0) || (expires r =? 0) then failed now r 0 (Some (scode m)) e
    else
      let '(err, r, acts) := request (set_expires r m_exp) false (send_err e) in
      if negb (err =? 0) then failed now r err (Some (scode m)) e else (Some r, acts)
  else failed now r 0 (Some (scode m)) e.

(** [inl err]: the request failed; [inr m]: the response [m]. *)
Definition response_handler (now : Z) (r : sipreg) (x : Z + resp) (e : env) :
    option sipreg * list act :=
  let r := set_wait r (failwait (u32 (failc r + 1)) (rand e)) in
  match x with
  | inl err => failed now r err None e
  | inr m =>
      let '(loops, l) := sip_request_loops (ls r) (scode m) in
      let r := set_ls r l in
      if loops then failed now r 0 (Some (scode m)) e
      else if scode m <? 200 then (Some r, [])
      else if scode m <? 300 then accepted now r m e
      else refused now r m e
  end.

(** [err0]: the error of an allocation. *)
Definition sipreg_register (expires regid err0 send_err : Z) : Z * option sipreg * list act :=
  if expires =? 0 then (EINVAL, None, [])
  else if negb (err0 =? 0) then (err0, None, [])
  else
    let r := mk_reg sip_loopstate_reset None false false expires 0 0 false false regid true in
    let '(err, r, acts) := request r true send_err in
    if negb (err =? 0) then (err, None, acts) else (0, Some r, acts).

(** ** Runs *)

Inductive event :=
| EvResponse (x : Z + resp) (e : env)
| EvTmr (rand send_err : Z)
| EvKeepalive (err rand : Z)
| EvDeref (send_err : Z).

Definition final (x : Z + resp) : bool :=
  match x with inl _ => true | inr m => negb (scode m <? 200) end.

(** A request clears its pointer before it reports a final response, the keepalive
    object before its handler is called; a timer that fires is not running. *)
Definition handle (now : Z) (r : sipreg) (ev : event) : option sipreg * list act :=
  match ev with
  | EvResponse x e => response_handler now (if final x then set_req r false else r) x e
  | EvTmr rand send_err =>
      let '(r, acts) := tmr_handler now (set_tmr r None) rand send_err in (Some r, acts)
  | EvKeepalive err rand =>
      let '(r, acts) := keepalive_handler now (set_ka r false) err rand in (Some r, acts)
  | EvDeref send_err => deref r send_err
  end.

Definition enabled (now : Z) (r : sipreg) (ev : event) : Prop :=
  match ev with
  | EvResponse (inl err) _ => req r = true /\ err <> 0
  | EvResponse (inr m) _ => req r = true /\ 100 <= scode m <= 699
  | EvTmr _ _ => exists t, tmr r = Some t /\ t <= now
  | EvKeepalive err _ => ka r = true
  | EvDeref _ => terminated r = false
  end.

(** The registration, [None] when it is freed, and what was done, latest last. *)
Record conf := mk_conf { reg : option sipreg; trace : list act }.

Inductive step : conf -> conf -> Prop :=
| step_event c now r ev o acts : reg c = Some r -> enabled now r ev ->
    handle now r ev = (o, acts) -> step c (mk_conf o (trace c ++ acts)).

Inductive reachable (exp0 id : Z) : conf -> Prop :=
| reach_register r acts : sipreg_register exp0 id 0 0 = (0, Some r, acts) ->
    reachable exp0 id (mk_conf (Some r) acts)
| reach_event c c' : reachable exp0 id c -> step c c' -> reachable exp0 id c'.

Record reg_ok (r : sipreg) : Prop := {
  ro_expires : expires r = 0 -> terminated r = true;
  ro_term : terminated r = true -> req r = true /\ tmr r = None /\ resph r = false;
  ro_live : terminated r = false -> resph r = true /\
    ((req r = true /\ tmr r = None) \/ (req r = false /\ is_Some (tmr r)));
  ro_count : 0 <= ls_failc (ls r);
  ro_failc : req r = true -> ls_failc (ls r) <= 15 }.

(** A registration whose request was answered. *)
Record idle_ok (r : sipreg) : Prop := {
  io_expires : expires r = 0 -> terminated r = true;
  io_req : req r = false;
  io_tmr : tmr r = None;
  io_resph : resph r = negb (terminated r);
  io_failc : 0 <= ls_failc (ls r) }.

(** REGISTERs have expiry 0 exactly after termination. *)
Definition regs (acts : list act) : list Z :=
  omap (fun a => match a with Register x => Some x | _ => None end) acts.
Definition regs_ok (t : bool) (acts : list act) : Prop :=
  Forall (fun x => if t then x = 0 else x <> 0) (regs acts).

Definition outcome_ok (t : bool) (x : option sipreg * list act) : Prop :=
  match fst x with Some r => reg_ok r /\ terminated r = t | None => t = true end /\
  regs_ok t (snd x).

Lemma regs_app a b : regs (a ++ b) = regs a ++ regs b.
Proof. apply omap_app. Qed.

Lemma resph_regs r err s : regs (call_resph r err s) = [].
Proof. unfold call_resph. by destruct (resph r). Qed.

Lemma deref_terminated r err : terminated r = true -> deref r err = (None, []).
Proof. intros Et. unfold deref. simpl. by rewrite Et. Qed.

Lemma finish_ok now r err msg e : idle_ok r -> outcome_ok (terminated r) (finish now r err msg e).
Proof.
  intros []. unfold finish, outcome_ok. destruct (Z.eqb_spec (expires r) 0) as [E|E].
  { rewrite deref_terminated by auto. split; [by apply io_expires0|constructor]. }
  destruct (terminated r) eqn:Et.
  - destruct (registered r).
    2: { simpl negb. cbv iota. rewrite deref_terminated by done. split; [done|constructor]. }
    unfold request. rewrite Et. simpl. destruct (out_err e =? 0) eqn:E0; simpl; rewrite ?E0; simpl.
    + split; [|by repeat constructor]. split; [|done].
      split; simpl; rewrite ?Et, ?io_tmr0, ?io_resph0; (done || lia).
    + rewrite deref_terminated by exact Et. simpl. split; [done|constructor].
  - unfold regs_ok. simpl. rewrite resph_regs. split; [|constructor]. split; [|done].
    split; simpl; rewrite ?Et, ?io_req0, ?io_resph0; try done. intros _. split; [done|]. right. by split.
Qed.

Lemma failed_ok now r err msg e : idle_ok r -> outcome_ok (terminated r) (failed now r err msg e).
Proof. intros []. apply (finish_ok now (set_failc r _)). by split. Qed.

Lemma request_ok r b err : idle_ok r -> (b = false -> ls_failc (ls r) <= 15) ->
  let '(e, r', acts) := request r b err in
  terminated r' = terminated r /\ regs_ok (terminated r) acts /\
  (e = 0 -> reg_ok r') /\ (e <> 0 -> acts = [] /\ idle_ok r').
Proof.
  intros [] Hl. unfold request. destruct (terminated r) eqn:Et, b, (err =? 0) eqn:Ee; simpl;
    (split; [done|]); (split; [by repeat constructor; intros ?; apply io_expires0 in H|]);
    split; intros He; try (exfalso; lia); try (split; [done|]); split; simpl; try done; try lia;
    rewrite ?Et, ?io_resph0, ?io_req0; try done; auto.
Qed.

Lemma outcome_cons t o acts a : regs [a] = [] -> outcome_ok t (o, acts) -> outcome_ok t (o, a :: acts).
Proof.
  intros Ha [H1 H2]. split; [done|]. unfold regs_ok in *. cbn [snd] in *.
  change (a :: acts) with ([a] ++ acts). by rewrite regs_app, Ha.
Qed.

Lemma accepted_ok now r m e : idle_ok r -> outcome_ok (terminated r) (accepted now r m e).
Proof.
  intros Hi. unfold accepted.
  set (r1 := set_failc _ 0).
  assert (idle_ok r1 /\ terminated r1 = terminated r) as [Hi1 Et] by (destruct Hi; by repeat split).
  clearbody r1. rewrite <- Et. clear Et Hi.
  destruct (_ && _); [|].
  - unfold start_outbound. destruct (outbound m).
    + assert (idle_ok (set_ka r1 (ka_ok e))) as Hi2 by (by destruct Hi1).
      pose proof (finish_ok now _ 0 (Some (scode m)) e Hi2) as H.
      destruct (finish now _ 0 (Some (scode m)) e) as [o acts]. by apply outcome_cons.
    + pose proof (finish_ok now r1 0 (Some (scode m)) e Hi1) as H.
      by destruct (finish now _ 0 (Some (scode m)) e) as [o acts].
  - pose proof (finish_ok now r1 0 (Some (scode m)) e Hi1) as H.
    by destruct (finish now _ 0 (Some (scode m)) e) as [o acts].
Qed.

Lemma retried_ok now r b err s e r' acts r0 : idle_ok r -> ls_failc (ls r) <= 15 ->
  terminated r = terminated r0 -> request r b (send_err e) = (err, r', acts) ->
  outcome_ok (terminated r0) (if negb (err =? 0) then failed now r' err s e else (Some r', acts)).
Proof.
  intros Hi Hl Et E. pose proof (request_ok r b (send_err e) Hi (fun _ => Hl)) as H. rewrite E in H.
  destruct H as (Ht&Ha&H0&H1). rewrite <- Et. destruct (Z.eqb_spec err 0) as [E0|E0]; simpl.
  - split; simpl; auto.
  - rewrite <- Ht. apply failed_ok. by apply H1.
Qed.

Lemma refused_ok now r m e : idle_ok r -> ls_failc (ls r) <= 15 ->
  outcome_ok (terminated r) (refused now r m e).
Proof.
  intros Hi Hl. unfold refused.
  destruct (_ && _); [by apply finish_ok|].
  destruct (_ || _).
  { destruct (negb (auth_err e =? 0)); [by apply failed_ok|].
    destruct (request r false (send_err e)) as [[err r'] acts] eqn:E.
    by apply (retried_ok now r false err (Some (scode m)) e r' acts r). }
  destruct (scode m =? 403).
  { pose proof (failed_ok now r 0 (Some (scode m)) e Hi) as H.
    destruct (failed now r 0 (Some (scode m)) e) as [o acts]. by apply outcome_cons. }
  destruct (scode m =? 423); [|by apply failed_ok].
  set (me := match min_expires m with Some x => pl_u32 (Some x) | None => 0 end).
  destruct (Z.eqb_spec me 0); [by apply failed_ok|]. destruct (Z.eqb_spec (expires r) 0); [by apply failed_ok|].
  simpl orb. cbv iota.
  destruct (request (set_expires r me) false (send_err e)) as [[err r'] acts] eqn:E.
  apply (retried_ok now (set_expires r me) false err (Some (scode m)) e r' acts r); try done.
  by destruct Hi.
Qed.

(** A response that is not final changes nothing that matters. *)
Lemma provisional_ok now r m e : reg_ok r -> 100 <= scode m < 200 ->
  response_handler now r (inr m) e = (Some (set_wait r (failwait (u32 (failc r + 1)) (rand e))), []).
Proof.
  intros _ Hs. unfold response_handler, sip_request_loops. simpl.
  destruct (Z.ltb_spec (scode m) 200); [|lia]. by destruct r.
Qed.

Lemma loops_failc l s : 0 <= ls_failc l <= 15 -> 200 <= s ->
  0 <= ls_failc (snd (sip_request_loops l s)) /\
  (fst (sip_request_loops l s) = false -> ls_failc (snd (sip_request_loops l s)) <= 15).
Proof.
  intros Hl Hs. unfold sip_request_loops. rewrite u32_small by lia.
  destruct (Z.ltb_spec s 200); [lia|]. destruct (s <? 300); [simpl; lia|].
  destruct (s <? 400); [simpl; lia|]. destruct (_ || _); simpl; [lia|].
  destruct (_ =? _); simpl; lia.
Qed.

Lemma response_final_ok now r x e : reg_ok r -> req r = true -> final x = true ->
  outcome_ok (terminated r) (response_handler now (set_req r false) x e).
Proof.
  intros Hr Hq Hx. pose proof Hr as []. assert (0 <= ls_failc (ls r) <= 15) as Hf by auto.
  assert (forall l w, 0 <= ls_failc l -> idle_ok (set_ls (set_wait (set_req r false) w) l)) as Hi.
  { intros l w Hl. split; simpl; try done.
    - destruct (terminated r) eqn:Et; [by apply ro_term0|].
      destruct (ro_live0 eq_refl) as (_&[[_ ?]|[? _]]); congruence.
    - destruct (terminated r) eqn:Et; simpl; [by apply ro_term0|by apply ro_live0]. }
  unfold response_handler. set (w := failwait _ _). destruct x as [err|m].
  - specialize (Hi (ls r) w ltac:(lia)). apply (failed_ok now (set_wait (set_req r false) w)).
    by destruct Hi.
  - simpl in Hx. apply negb_true_iff, Z.ltb_ge in Hx.
    destruct (loops_failc (ls r) (scode m) Hf Hx) as [H1 H2].
    change (ls (set_wait (set_req r false) w)) with (ls r).
    destruct (sip_request_loops (ls r) (scode m)) as [b l]. simpl in H1, H2.
    specialize (Hi l w H1). set (r1 := set_ls _ l) in *.
    change (terminated r) with (terminated r1). destruct b; [by apply failed_ok|].
    destruct (Z.ltb_spec (scode m) 200); [lia|].
    destruct (scode m <? 300); [by apply accepted_ok|]. apply refused_ok; [done|simpl; auto].
Qed.

Lemma reg_idle r : reg_ok r -> terminated r = false -> is_Some (tmr r) ->
  idle_ok (set_tmr r None).
Proof.
  intros [] Et [t Ht]. destruct (ro_live0 Et) as (Hr&[[_ ?]|[Hq _]]); [congruence|].
  split; simpl; try done. by rewrite Hr, Et.
Qed.

Definition dropped (ev : event) : bool := match ev with EvDeref _ => true | _ => false end.

Lemma armed_ok now r n d : idle_ok r -> terminated r = false ->
  reg_ok (start now (set_failc r n) d).
Proof.
  intros [] Et. split; simpl; rewrite ?Et, ?io_req0, ?io_resph0, ?Et; try done.
  - intros E. by rewrite io_expires0 in Et.
  - intros _. split; [done|]. right. by split.
Qed.

Lemma reg_handle_ok now r ev : reg_ok r -> enabled now r ev ->
  outcome_ok (terminated r || dropped ev) (handle now r ev).
Proof.
  intros Hr He. pose proof Hr as []. destruct ev as [x e|rnd err|err rnd|err]; simpl; rewrite ?orb_false_r.
  - destruct (final x) eqn:Ef.
    + apply response_final_ok; [done| |done]. by destruct x, He.
    + destruct x as [|m]; [done|]. destruct He as [Hq Hs]. simpl in Ef.
      apply negb_false_iff, Z.ltb_lt in Ef. rewrite provisional_ok by (done || lia).
      split; [|constructor]. split; [|done]. by split.
  - destruct He as (t&Ht&_). assert (terminated r = false) as Et.
    { destruct (terminated r); [|done]. destruct (ro_term0 eq_refl) as (_&?&_). congruence. }
    pose proof (reg_idle r Hr Et ltac:(by rewrite Ht)) as Hi. unfold tmr_handler.
    pose proof (request_ok (set_tmr r None) true err Hi ltac:(done)) as H.
    destruct (request (set_tmr r None) true err) as [[e r1] acts]. simpl terminated in H.
    destruct H as (Ht1&Ha&H0&H1). rewrite Et in *. destruct (Z.eqb_spec e 0) as [E0|E0]; simpl.
    + split; simpl; auto.
    + destruct (H1 E0) as [-> Hi1]. unfold outcome_ok, regs_ok. simpl. rewrite resph_regs.
      split; [|constructor]. split; [|done]. by apply armed_ok.
  - unfold keepalive_handler. simpl. destruct (req r) eqn:Eq; simpl.
    { split; [|constructor]. split; [|done]. split; simpl; rewrite ?Eq; auto. }
    destruct (terminated r) eqn:Et; simpl.
    { split; [|constructor]. split; [|done]. by destruct (ro_term0 eq_refl). }
    unfold outcome_ok, regs_ok. simpl. rewrite resph_regs. split; [|constructor]. split; [|done].
    destruct (ro_live0 eq_refl) as (Hrs&_). split; simpl; rewrite ?Et, ?Eq; try done; auto.
  - rewrite He. unfold deref. simpl. rewrite He. destruct (req r) eqn:Eq.
    + split; [|constructor]. split; [|done]. split; simpl; rewrite ?Eq; try done; auto.
    + destruct (registered r); [|split; [done|constructor]]. unfold request. simpl.
      destruct (err =? 0) eqn:E; simpl; rewrite ?E; simpl; [|split; [done|constructor]].
      split; [|by repeat constructor]. split; [|done]. split; simpl; try done; lia.
Qed.

Lemma reg_reachable_ok exp0 id c : 0 < exp0 -> reachable exp0 id c ->
  match reg c with Some r => reg_ok r | None => True end.
Proof.
  intros Hx Hr. induction Hr as [r acts E|c c' _ IH Hstep].
  - unfold sipreg_register in E. destruct (Z.eqb_spec exp0 0); [lia|]. simpl in E. simplify_eq. simpl.
    split; simpl; try done; try lia. intros _. split; [done|by left].
  - destruct Hstep as [c now r ev o acts Hc He Hh]. rewrite Hc in IH. simpl.
    pose proof (reg_handle_ok now r ev IH He) as [H _]. rewrite Hh in H. simpl in H.
    destruct o as [r'|]; [by destruct H|done].
Qed.

(** C9: a registration never stalls and never loses its object: whatever happens,
    in any order, while it is alive and not terminated exactly one of an
    outstanding request and a running refresh timer exists; after the user has
    dropped it a request is outstanding, until the object is freed; it is freed
    only after the user dropped it; the REGISTERs before that have a non-zero
    expiry, those after it the expiry 0, which unregisters. *)
Theorem sipreg_never_stalls exp0 id c now ev r o acts : 0 < exp0 -> reachable exp0 id c ->
  reg c = Some r -> enabled now r ev -> handle now r ev = (o, acts) ->
  (if terminated r then req r = true /\ tmr r = None
   else expires r <> 0 /\ (req r = true <-> tmr r = None)) /\
  (o = None -> terminated r || dropped ev = true) /\
  (forall x, Register x ∈ acts -> (x = 0 <-> terminated r || dropped ev = true)).
Proof.
  intros Hx Hr Hc He Hh. pose proof (reg_reachable_ok exp0 id c Hx Hr) as Hok. rewrite Hc in Hok.
  pose proof (reg_handle_ok now r ev Hok He) as [H1 H2]. rewrite Hh in H1, H2. simpl in H1, H2.
  split_and!.
  - destruct Hok. destruct (terminated r) eqn:Et.
    + by destruct (ro_term0 eq_refl) as (?&?&?).
    + split; [intros E; by apply ro_expires0 in E|].
      destruct (ro_live0 eq_refl) as (_&[[? ?]|[Hq [t Ht]]]); [done|]. rewrite Hq, Ht. done.
  - by intros ->.
  - intros x Hin. assert (x ∈ regs acts) as Hin'.
    { apply list_elem_of_omap. by exists (Register x). }
    unfold regs_ok in H2. rewrite Forall_forall in H2. specialize (H2 x Hin').
    by destruct (terminated r || dropped ev).
Qed.

(** *** Release *)

(** The outcome of a final response while unregistering: freed, or a request with
    credentials was sent, one more towards the limit. *)
Definition released_or (P : sipreg -> Prop) (x : option sipreg * list act) : Prop :=
  match fst x with Some r => P r | None => True end.

Lemma finish_unregister now r err msg e : terminated r = true ->
  released_or (fun r' => expires r <> 0 /\ expires r' = 0) (finish now r err msg e).
Proof.
  intros Et. unfold finish, released_or. destruct (Z.eqb_spec (expires r) 0) as [E|E].
  - by rewrite deref_terminated.
  - rewrite Et. destruct (registered r); [|by rewrite deref_terminated].
    unfold request. rewrite Et. simpl. destruct (out_err e =? 0) eqn:E0; simpl; rewrite ?E0; simpl.
    + done.
    + by rewrite deref_terminated by exact Et.
Qed.

Lemma refused_unregister now r m e : terminated r = true ->
  released_or (fun r' => expires r' = 0 /\ (expires r = 0 -> ls r' = ls r)) (refused now r m e).
Proof.
  intros Et.
  assert (forall r1 err msg, terminated r1 = true -> (expires r = 0 -> expires r1 = 0) ->
    released_or (fun r' => expires r' = 0 /\ (expires r = 0 -> ls r' = ls r)) (finish now r1 err msg e)) as Hfin.
  { intros r1 err msg Et1 Hx. pose proof (finish_unregister now r1 err msg e Et1) as H.
    unfold released_or in *. destruct (fst _); [|done]. destruct H as [H1 H2].
    split; [done|]. intros H0. by apply Hx in H0. }
  unfold refused. rewrite Et.
  generalize (match min_expires m with Some x => pl_u32 (Some x) | None => 0 end). intros me.
  destruct (registered r); simpl; [|by apply Hfin].
  destruct (_ || _).
  { destruct (auth_err e =? 0); simpl; [|by apply Hfin].
    unfold request. rewrite Et. simpl. destruct (send_err e =? 0) eqn:E0; simpl; rewrite ?E0; simpl; [done|].
    by apply Hfin. }
  destruct (scode m =? 403).
  { pose proof (Hfin (set_failc r (u32 (failc r + 1))) 0 (Some (scode m)) Et ltac:(done)) as H.
    unfold failed. by destruct (finish _ _ _ _ _). }
  destruct (scode m =? 423); [|by apply Hfin].
  destruct (me =? 0); simpl; [by apply Hfin|].
  destruct (Z.eqb_spec (expires r) 0) as [E|E]; [by apply Hfin|].
  unfold request. simpl. rewrite Et. simpl. destruct (send_err e =? 0) eqn:E0; simpl; rewrite ?E0; simpl.
  - split; [done|]. intros E'. by apply E in E'.
  - by apply Hfin.
Qed.

(** After the first final response the expiry is 0; from then on each one either
    frees the object or is an authentication challenge, which the loop detection
    counts. *)
Lemma response_unregister now r x e : reg_ok r -> terminated r = true -> final x = true ->
  released_or (fun r' => expires r' = 0 /\ (expires r = 0 -> ls_failc (ls r') = ls_failc (ls r) + 1))
    (response_handler now (set_req r false) x e).
Proof.
  intros Hr Et Hx. pose proof Hr as []. destruct (ro_term0 Et) as (Hq&_&_).
  assert (0 <= ls_failc (ls r) <= 15) as Hf by auto. clear - Et Hx Hf.
  assert (forall r1 err msg, terminated r1 = true -> expires r1 = expires r ->
    released_or (fun r' => expires r' = 0 /\ (expires r = 0 -> ls_failc (ls r') = ls_failc (ls r) + 1))
      (finish now r1 err msg e)) as Hfin.
  { intros r1 err msg Et1 Hx1. pose proof (finish_unregister now r1 err msg e Et1) as H.
    unfold released_or in *. destruct (fst _); [|done]. destruct H as [H1 H2].
    split; [done|]. intros H0. congruence. }
  unfold response_handler. set (r0 := set_wait _ _). destruct x as [err|m]; [by apply Hfin|].
  change (ls r0) with (ls r). simpl in Hx. apply negb_true_iff, Z.ltb_ge in Hx.
  destruct (sip_request_loops (ls r) (scode m)) as [b l] eqn:El. destruct b; [by apply Hfin|].
  destruct (Z.ltb_spec (scode m) 200); [lia|]. destruct (Z.ltb_spec (scode m) 300).
  - unfold accepted. set (r2 := set_failc _ 0).
    assert (terminated r2 = true) as Et2 by done. assert (expires r2 = expires r) as Ex2 by done.
    clearbody r2. rewrite Et2, andb_false_r. simpl.
    pose proof (Hfin r2 0 (Some (scode m)) Et2 Ex2) as H'. by destruct (finish _ _ _ _ _).
  - pose proof (refused_unregister now (set_ls r0 l) m e Et) as H'. unfold released_or in *.
    destruct (fst _); [|done]. destruct H' as [H1 H2]. split; [done|]. intros H3.
    rewrite (H2 H3). simpl. unfold sip_request_loops in El. rewrite u32_small in El by lia.
    destruct (Z.ltb_spec (scode m) 200); [lia|]. destruct (Z.ltb_spec (scode m) 300); [lia|].
    repeat case_match; by simplify_eq/=.
Qed.

(** Final responses, one to each request that is outstanding. *)
Fixpoint answer (r : option sipreg) (l : list (Z * (Z + resp) * env)) : option sipreg :=
  match r, l with
  | Some r, (now, x, e) :: l => answer (fst (handle now r (EvResponse x e))) l
  | _, _ => r
  end.

Definition final_ok (a : Z * (Z + resp) * env) : Prop :=
  match snd (fst a) with inl err => err <> 0 | inr m => 200 <= scode m <= 699 end.

Lemma answer_none l : answer None l = None.
Proof. by destruct l. Qed.

Lemma final_response a r : final_ok a -> req r = true ->
  let '(now, x, e) := a in enabled now r (EvResponse x e) /\ final x = true.
Proof.
  destruct a as [[now [err|m]] e]; unfold final_ok; simpl; [done|]. intros Hs Hq.
  split; [split; [done|lia]|]. apply negb_true_iff, Z.ltb_ge. lia.
Qed.

Lemma answer_step a r : final_ok a -> reg_ok r -> terminated r = true ->
  let '(now, x, e) := a in
  match fst (handle now r (EvResponse x e)) with
  | None => True
  | Some r' => reg_ok r' /\ terminated r' = true /\ expires r' = 0 /\
      (expires r = 0 -> ls_failc (ls r') = ls_failc (ls r) + 1)
  end.
Proof.
  intros Ha Hr Et. pose proof (final_response a r Ha) as H.
  destruct a as [[now x] e]. destruct (H (proj1 (ro_term r Hr Et))) as [He Hf].
  pose proof (reg_handle_ok now r _ Hr He) as [H1 _]. pose proof (response_unregister now r x e Hr Et Hf) as H2.
  unfold released_or in H2. simpl in *. rewrite Hf in *. destruct (fst _) as [r'|]; [|done].
  rewrite orb_false_r in H1. destruct H1, H2. rewrite Et in *. done.
Qed.

Lemma answer_released l : forall r, Forall final_ok l -> reg_ok r -> terminated r = true ->
  expires r = 0 -> 16 <= Z.of_nat (length l) + ls_failc (ls r) -> answer (Some r) l = None.
Proof.
  induction l as [|a l IH]; intros r Hl Hr Et Hx Hn.
  - pose proof (ro_failc r Hr (proj1 (ro_term r Hr Et))). simpl in Hn. lia.
  - apply Forall_cons in Hl as [Ha Hl]. pose proof (answer_step a r Ha Hr Et) as H.
    destruct a as [[now x] e]. cbn [answer].
    destruct (fst (handle now r (EvResponse x e))) as [r'|]; [|apply answer_none].
    destruct H as (Hr'&Et'&Hx'&Hf). apply IH; try done. rewrite Hf by done. simpl length in Hn. lia.
Qed.

(** C10: a registration that the user dropped is released: after at most 17 final
    responses to its requests, whatever they are, the object is freed (the loop
    detection ends an endless series of authentication challenges). *)
Theorem sipreg_released exp0 id c r l : 0 < exp0 -> reachable exp0 id c -> reg c = Some r ->
  terminated r = true -> Forall final_ok l -> (17 <= length l)%nat -> answer (Some r) l = None.
Proof.
  intros Hx Hr Hc Et Hl Hn. pose proof (reg_reachable_ok exp0 id c Hx Hr) as Hok. rewrite Hc in Hok.
  destruct l as [|a l]; [simpl in Hn; lia|]. apply Forall_cons in Hl as [Ha Hl].
  pose proof (answer_step a r Ha Hok Et) as H. destruct a as [[now x] e]. cbn [answer].
  destruct (fst (handle now r (EvResponse x e))) as [r'|]; [|apply answer_none].
  destruct H as (Hr'&Et'&Hx'&_). pose proof (ro_count r' Hr'). apply answer_released; try done.
  simpl length in Hn. lia.
Qed.

(** *** The refresh schedule *)

(** The back-off after [k] failures, in seconds: 60, 120, ... up to 1800. *)
Definition backoff (k : Z) : Z := Z.min 1800 (30 * 2 ^ Z.min k 6).

Lemma failwait_bounds k rand : 0 <= k -> 0 <= rand ->
  500 * backoff k <= failwait k rand <= 1000 * backoff k.
Proof.
  intros Hk Hr. unfold failwait, backoff. rewrite Z.shiftl_1_l.
  assert (0 < 2 ^ Z.min k 6) by (apply Z.pow_pos_nonneg; lia).
  pose proof (Z.mod_pos_bound rand 501 ltac:(lia)). set (W := Z.min 1800 _).
  assert (0 <= W <= 1800) by lia. rewrite u32_small by nia. nia.
Qed.

Lemma start_due now r d : 0 <= now < 9223372036854775808 -> 0 <= d <= 4294967296 ->
  tmr (start now r d) = Some (now + d).
Proof. intros Hn Hd. simpl. f_equal. unfold u64. rewrite Z.mod_small; lia. Qed.

Lemma finish_due now r err msg e : idle_ok r -> terminated r = false ->
  exists acts, finish now r err msg e = (Some (start now r (wait r)), acts).
Proof.
  intros [] Et. unfold finish. destruct (Z.eqb_spec (expires r) 0) as [E|]; [by rewrite io_expires0 in Et|].
  rewrite Et. by eexists.
Qed.

(** What a failed response leads to: another request at once, or the back-off. *)
Definition retry_ok (now : Z) (r : sipreg) (o : option sipreg) : Prop :=
  exists r', o = Some r' /\ (req r' = true \/
    failc r' = u32 (failc r + 1) /\ exists d, tmr r' = Some (now + d) /\
      500 * backoff (u32 (failc r + 1)) <= d <= 1000 * backoff (u32 (failc r + 1))).

Lemma failed_due now r r0 err msg e rand : idle_ok r -> terminated r = false ->
  0 <= now < 9223372036854775808 -> 0 <= rand -> failc r = failc r0 ->
  wait r = failwait (u32 (failc r0 + 1)) rand -> retry_ok now r0 (fst (failed now r err msg e)).
Proof.
  intros Hi Et Hn Hr Hf Hw. unfold failed.
  assert (idle_ok (set_failc r (u32 (failc r + 1)))) as Hi' by by destruct Hi.
  destruct (finish_due now _ err msg e Hi' Et) as [acts ->]. eexists. split; [done|]. right.
  split; [simpl; by rewrite Hf|]. exists (wait r).
  pose proof (failwait_bounds (u32 (failc r0 + 1)) rand) as Hb. rewrite <- Hw in Hb.
  assert (0 <= u32 (failc r0 + 1)) by (apply Z.mod_pos_bound; lia). specialize (Hb H Hr).
  assert (0 <= backoff (u32 (failc r0 + 1)) <= 1800).
  { unfold backoff. assert (0 < 2 ^ Z.min (u32 (failc r0 + 1)) 6) by (apply Z.pow_pos_nonneg; lia). lia. }
  split; [|done]. apply start_due; [done|]. simpl. lia.
Qed.

Lemma refused_due now r r0 m e rand : idle_ok r -> terminated r = false ->
  0 <= now < 9223372036854775808 -> 0 <= rand -> failc r = failc r0 ->
  wait r = failwait (u32 (failc r0 + 1)) rand -> retry_ok now r0 (fst (refused now r m e)).
Proof.
  intros Hi Et Hn Hr Hf Hw.
  assert (forall r1 err msg, idle_ok r1 -> terminated r1 = false -> failc r1 = failc r ->
    wait r1 = wait r -> retry_ok now r0 (fst (failed now r1 err msg e))) as Hfail.
  { intros r1 err msg H1 H2 H3 H4. apply (failed_due now r1 r0 err msg e rand); congruence. }
  unfold refused. generalize (match min_expires m with Some x => pl_u32 (Some x) | None => 0 end). intros me.
  rewrite Et. simpl.
  destruct (_ || _).
  { destruct (auth_err e =? 0); simpl; [|by apply Hfail].
    unfold request. rewrite Et. simpl. destruct (send_err e =? 0) eqn:E0; simpl; rewrite ?E0; simpl.
    - eexists. split; [done|]. by left.
    - by apply Hfail. }
  destruct (scode m =? 403).
  { pose proof (Hfail r 0 (Some (scode m)) Hi Et eq_refl eq_refl) as H.
    by destruct (failed now r 0 (Some (scode m)) e). }
  destruct (scode m =? 423); [|by apply Hfail].
  destruct (Z.eqb_spec me 0); simpl; [by apply Hfail|].
  destruct (Z.eqb_spec (expires r) 0); [by apply Hfail|].
  unfold request. simpl. rewrite Et. simpl. destruct (send_err e =? 0) eqn:E0; simpl; rewrite ?E0; simpl.
  - eexists. split; [done|]. by left.
  - apply Hfail; try done. by destruct Hi.
Qed.

(** The expiry that a successful response grants. *)
Definition granted (r : sipreg) (m : resp) (e : env) : Z :=
  contact_apply (uri e) (m_expires m) (contacts m) (expires r).

(** The refresh schedule of a live registration: after a success the next
    REGISTER is due when 90 percent of the granted time have passed, counted
    modulo 2^32 milliseconds, so that a grant of 4772186 seconds, about 55 days,
    is refreshed after 104 milliseconds; after a failure the request is repeated
    at once, with credentials or another expiry, or the next one is due after the
    back-off for the number of failures in a row, between a half and the whole of
    it. *)
Theorem sipreg_schedule now r x e : reg_ok r -> req r = true -> terminated r = false ->
  final x = true -> 0 <= now < 9223372036854775808 -> 0 <= rand e ->
  let '(o, acts) := handle now r (EvResponse x e) in
  match x with
  | inr m =>
      if scode m <? 300 then exists r', o = Some r' /\ failc r' = 0 /\ registered r' = true /\
        (0 <= granted r m e <= 4772185 -> tmr r' = Some (now + 900 * granted r m e)) /\
        (granted r m e = 4772186 -> tmr r' = Some (now + 104))
      else retry_ok now r o
  | inl _ => retry_ok now r o
  end.
Proof.
  intros Hr Hq Et Hx Hn Hrd. pose proof Hr as []. assert (0 <= ls_failc (ls r) <= 15) as Hf by auto.
  destruct (ro_live0 Et) as (Hrs&[[_ Htm]|[? _]]); [|congruence].
  simpl. rewrite Hx. unfold response_handler. set (r0 := set_wait _ _).
  assert (forall l, 0 <= ls_failc l -> idle_ok (set_ls r0 l)) as Hi.
  { intros l Hl. split; simpl; try done. by rewrite Et, Hrs. }
  destruct x as [err|m].
  - pose proof (Hi (ls r) ltac:(lia)) as Hi0.
    pose proof (failed_due now r0 r err None e (rand e) ltac:(by destruct Hi0) Et Hn Hrd eq_refl eq_refl) as H.
    by destruct (failed now r0 err None e).
  - simpl in Hx. apply negb_true_iff, Z.ltb_ge in Hx.
    destruct (loops_failc (ls r) (scode m) Hf Hx) as [H1 H2]. change (ls r0) with (ls r).
    destruct (sip_request_loops (ls r) (scode m)) as [b l] eqn:El. simpl in H1, H2.
    specialize (Hi l H1). destruct (Z.ltb_spec (scode m) 200); [lia|].
    destruct (Z.ltb_spec (scode m) 300) as [H3|H3].
    + assert (b = false) as ->.
      { unfold sip_request_loops in El. destruct (Z.ltb_spec (scode m) 200); [lia|].
        destruct (Z.ltb_spec (scode m) 300); [by simplify_eq|lia]. }
      unfold accepted. simpl. fold (granted r m e). rewrite Et. simpl.
      set (w := granted r m e) in *. set (r1 := set_failc _ 0).
      assert (idle_ok r1) as Hi1 by by destruct Hi.
      assert (forall k, idle_ok (set_ka r1 k)) as Hi2 by by destruct Hi1.
      assert (forall r2 acts, idle_ok r2 -> terminated r2 = false -> wait r2 = u32 (w * 900) ->
        failc r2 = 0 -> registered r2 = true ->
        let '(o, acts0) := (let '(o, acts1) := finish now r2 0 (Some (scode m)) e in (o, acts ++ acts1)) in
        exists r', o = Some r' /\ failc r' = 0 /\ registered r' = true /\
        (0 <= w <= 4772185 -> tmr r' = Some (now + 900 * w)) /\
        (w = 4772186 -> tmr r' = Some (now + 104))) as Hgen.
      { intros r2 acts Hir2 Et2 Hw Hfc Hreg. destruct (finish_due now r2 0 (Some (scode m)) e Hir2 Et2) as [a ->].
        eexists. split; [done|]. split_and!; [done|done| |].
        - intros Hb. rewrite Hw, u32_small by lia. rewrite start_due by (done || lia). f_equal. lia.
        - intros ->. rewrite Hw. by rewrite start_due by (done || by vm_compute). }
      destruct (_ && _); [|by apply Hgen]. unfold start_outbound.
      destruct (outbound m); [by apply (Hgen (set_ka r1 (ka_ok e)))|by apply Hgen].
    + destruct b.
      * pose proof (failed_due now (set_ls r0 l) r 0 (Some (scode m)) e (rand e) Hi Et Hn Hrd eq_refl eq_refl) as H'.
        by destruct (failed _ _ _ _ _).
      * pose proof (refused_due now (set_ls r0 l) r m e (rand e) Hi Et Hn Hrd eq_refl eq_refl) as H'.
        by destruct (refused _ _ _ _).
Qed.

(** *** Witnesses: a registration for 300 seconds, and one that is dropped at once *)

Definition ex_reg : sipreg :=
  mk_reg (mk_ls 0 0) None true false 300 0 0 false false 0 true.
Definition ex_dropped : sipreg :=
  mk_reg (mk_ls 0 0) None true false 300 0 0 false true 0 false.
Definition ex_uri : pl := mk_pl 5 [115; 105; 112; 58; 97].
Definition ex_env : env := mk_env 0 ex_uri 0 0 0 true.
Definition ex_200 : resp :=
  mk_resp 200 [mk_contact true (mk_pl 6 [115; 105; 112; 58; 98]) None;
               mk_contact true (mk_pl 7 [115; 105; 112; 58; 97]) (Some (mk_pl 8 [54; 48]))]
    pl_null None false.

Lemma ex_reg_reachable : reachable 300 0 (mk_conf (Some ex_reg) [Register 300]).
Proof. by apply reach_register. Qed.

Lemma ex_dropped_reachable : reachable 300 0 (mk_conf (Some ex_dropped) [Register 300]).
Proof.
  apply (reach_event _ _ _ _ ex_reg_reachable).
  by apply (step_event (mk_conf (Some ex_reg) [Register 300]) 0 ex_reg (EvDeref 0) (Some ex_dropped) []).
Qed.

Lemma sipreg_never_stalls_witness :
  300 <> 0 /\ (req ex_reg = true <-> tmr ex_reg = None).
Proof.
  apply (sipreg_never_stalls 300 0 (mk_conf (Some ex_reg) [Register 300]) 0 (EvDeref 0) ex_reg
    (Some ex_dropped) []); [done|apply ex_reg_reachable|done|done|done].
Defined.

Lemma sipreg_released_witness :
  answer (Some ex_dropped) (replicate 17 (1000, inl 110, ex_env)) = None.
Proof.
  apply (sipreg_released 300 0 (mk_conf (Some ex_dropped) [Register 300]));
    [done|apply ex_dropped_reachable|done|done| |by vm_compute; lia].
  by repeat constructor.
Defined.

Lemma sipreg_schedule_witness : exists r',
  fst (handle 1000 ex_reg (EvResponse (inr ex_200) ex_env)) = Some r' /\ tmr r' = Some 55000.
Proof.
  pose proof (sipreg_schedule 1000 ex_reg (inr ex_200) ex_env) as H.
  destruct (handle 1000 ex_reg (EvResponse (inr ex_200) ex_env)) as [o acts].
  destruct H as (r'&E&_&_&H&_); try done.
  - split; simpl; try done; try lia. intros _. split; [done|by left].
  - exists r'. split; [done|]. rewrite H; [by vm_compute|]. split; by vm_compute.
Defined.

End Sipreg.
