(* ===== verification/Dialog.v ===== *)
(** * SIP dialogs: src/libre/src/sip/dialog.c

    The state of a dialog and its operations.  A dialog prints its header fields to a
    memory buffer, which is any buffer of [Codec] with an address; the formats are those
    of the code, printed by the interpreter of [Print].  Random numbers and the results of
    the allocations are arguments: [news k] is the address of the [k]-th block, 0 if there
    is no memory, and [newmb] the new buffer.  The null checks of the arguments are left out. *)
From S2P Require Import Prelude Mem Pl Hash Mbuf Codec Uric Sa Print Printers Uri SipHdr SipId SipMsg SipScan.
Import Pl Codec Uri.

Module Dialog.

Abbreviation sip_msg := SipMsg.sip_msg.
Abbreviation sip_hdr := SipMsg.sip_hdr.

Definition ROUTE_OFFSET : Z := 7.
Definition X64_STRSIZE : Z := 17.

(** A string is a block of its own. *)
Record sip_dialog {B : Type} := mk_dialog { route : uri; dmb : B; dcallid : pl; ltag : pl; rtag : option pl;
  duri : pl; lseq : Z; rseq : Z; cpos : Z }.
Arguments sip_dialog : clear implicits.
Arguments mk_dialog {B}.

(** The tags of the local and of the remote party in a message. *)
Definition tag_to (m : sip_msg) : pl := SipHdr.tag (SipMsg.to m).
Definition tag_from (m : sip_msg) : pl := SipHdr.tag (SipMsg.from m).
Definition local_tag (m : sip_msg) : pl := if SipMsg.req m then tag_to m else tag_from m.
Definition remote_tag (m : sip_msg) : pl := if SipMsg.req m then tag_from m else tag_to m.
Definition remote_val (m : sip_msg) : pl :=
  if SipMsg.req m then SipHdr.taddr_val (SipMsg.from m) else SipHdr.taddr_val (SipMsg.to m).

(** [pl_strdup], with the string up to its terminator. *)
Definition strdup (a : Z) (src : pl) : Z * pl :=
  match pl_strdup true (Some src) a with
  | (err, Some d) => (err, mk_pl (pl_p d) (cstr (pl_s d)))
  | (err, None) => (err, pl_null)
  end.

Section Dialog.
Context (inet_pton : Z -> list Z -> option (list Z)) (inet_ntop : Z -> list Z -> list Z) (strerror : Z -> list Z).
Context {B : Type} `{Buffer B} (mb_buf : B -> Z).

Definition no_handler {S : Type} (h : Empty_set) : S -> option (Z * S) := match h with end.
Definition printf (mb : B) (fmt : list Z) (args : list (Print.arg Empty_set)) : option (Z * B) :=
  Printers.mbuf_vprintf inet_ntop strerror no_handler 1 mb fmt args.
Abbreviation str t := (Print.AStr (Some t)).

(** A string with the number in hexadecimal, at [a]. *)
Definition x64_strdup (a val : Z) : option (Z * pl) :=
  if a =? 0 then Some (ENOMEM, pl_null)
  else
    '(_, s) ← Printers.re_vsnprintf inet_ntop strerror no_handler 1 a X64_STRSIZE (c_str "%016llx") [Print.AInt val];
    Some (0, mk_pl a (cstr (default [] s))).

(** The [n] bytes of the buffer at [off]. *)
Definition mb_slice (mb : B) (off n : Z) : option pl :=
  '(err, l, _) ← mbuf_read_mem (mb_set_pos mb off) n;
  if negb (err =? 0) then None else Some (mk_pl (mb_buf mb + off) l).

(** The route is the first of the Route fields, which ends at [rend], or else the target. *)
Definition decode_route (mb : B) (rend : Z) (target : pl) : option (Z * uri) :=
  if negb (rend =? 0) then
    x ← mb_slice mb ROUTE_OFFSET (u64 (rend - ROUTE_OFFSET));
    '(err, a) ← SipHdr.sip_addr_decode inet_pton x; Some (err, SipHdr.addr_uri a)
  else uri_decode inet_pton target.

Fixpoint print_routes (i : Z) (routev : list (option (list Z))) (mb : B) (err rend : Z) : option (Z * B * Z) :=
  match routev with
  | [] => Some (err, mb, rend)
  | r :: routev =>
      '(e, mb) ← printf mb (c_str "Route: <%s;lr>\r\n") [Print.AStr r];
      print_routes (i + 1) routev mb (Z.lor err e) (if i =? 0 then u64 (mb_pos mb - 2) else rend)
  end.

Definition sip_dialog_alloc (news : nat -> Z) (newmb : option B) (r_ltag r_lseq r_callid : Z)
    (uri to_uri from_uri : option (list Z)) (from_name : option (list Z)) (routev : list (option (list Z))) :
    option (Z * option (sip_dialog B)) :=
  match uri, to_uri, from_uri with
  | Some uri, Some to_uri, Some from_uri =>
      if (news 0%nat =? 0) || (news 1%nat =? 0) then Some (ENOMEM, None)
      else
        let duri := mk_pl (news 1%nat) uri in
        '(err, callid) ← x64_strdup (news 2%nat) r_callid;
        if negb (err =? 0) then Some (err, None)
        else
          '(err, ltag) ← x64_strdup (news 3%nat) r_ltag;
          if negb (err =? 0) then Some (err, None)
          else match newmb with
          | None => Some (ENOMEM, None)
          | Some mb =>
              '(err, mb, rend) ← print_routes 0 routev mb 0 0;
              '(e, mb) ← printf mb (c_str "To: <%s>\r\n") [str to_uri];
              let err := Z.lor err e in
              let cpos := mb_pos mb in
              '(e, mb) ← printf mb (c_str "From: %s%s%s<%s>;tag=%016llx\r\n")
                 [str (match from_name with Some _ => [34] | None => [] end); Print.AStr from_name;
                  str (match from_name with Some _ => [34; 32] | None => [] end); str from_uri; Print.AInt r_ltag];
              let err := Z.lor err e in
              if negb (err =? 0) then Some (err, None)
              else
                let mb := mb_set_pos mb 0 in
                '(err, rt) ← decode_route mb rend duri;
                Some (err, if negb (err =? 0) then None
                           else Some (mk_dialog rt mb callid ltag None duri (u16 r_lseq) 0 cpos))
          end
  | _, _, _ => Some (EINVAL, None)
  end.

(** The handler has no way to fail but running out of memory; [None] is undefined behaviour. *)
Definition record_route_handler (hdr : sip_hdr) (renc : option (B * Z)) : bool * option (B * Z) :=
  match renc with
  | None => (true, None)
  | Some (mb, e) =>
      match printf mb (c_str "Route: %r\r\n") [Print.APl (Some (SipMsg.val hdr))] with
      | None => (true, None)
      | Some (err, mb) =>
          if negb (err =? 0) then (true, Some (mb, e))
          else (false, Some (mb, if e =? 0 then u64 (mb_pos mb - 2) else e))
      end
  end.

Definition record_routes (msg : sip_msg) (fwd : bool) (mb : B) : option (Z * B * Z) :=
  '(stopped, renc) ← SipMsg.sip_msg_hdr_apply msg fwd SipId.SIP_HDR_RECORD_ROUTE (Some record_route_handler) (Some (mb, 0));
  '(mb, e) ← renc; Some (match stopped with Some _ => ENOMEM | None => 0 end, mb, e).

(** The decoded Contact, or the error. *)
Definition contact_of (msg : sip_msg) : option (option SipHdr.sip_addr) :=
  contact ← SipMsg.sip_msg_hdr msg SipId.SIP_HDR_CONTACT;
  match contact with
  | None => Some None
  | Some c =>
      '(err, a) ← SipHdr.sip_addr_decode inet_pton (SipMsg.val c); Some (if negb (err =? 0) then None else Some a)
  end.

Definition sip_dialog_accept (news : nat -> Z) (newmb : option B) (r_lseq : Z) (msg : sip_msg) :
    option (Z * option (sip_dialog B)) :=
  if negb (SipMsg.req msg) then Some (EINVAL, None)
  else
    contact ← contact_of msg;
    match contact with
    | None => Some (EBADMSG, None)
    | Some addr =>
        if pl_p (SipMsg.callid msg) =? 0 then Some (EBADMSG, None)
        else if news 0%nat =? 0 then Some (ENOMEM, None)
        else
          let '(err, duri) := strdup (news 1%nat) (SipHdr.auri addr) in
          if negb (err =? 0) then Some (err, None)
          else
            let '(err, callid) := strdup (news 2%nat) (SipMsg.callid msg) in
            if negb (err =? 0) then Some (err, None)
            else
              '(err, ltag) ← x64_strdup (news 3%nat) (SipMsg.tag msg);
              if negb (err =? 0) then Some (err, None)
              else
                let '(err, rtag) := strdup (news 4%nat) (tag_from msg) in
                if negb (err =? 0) then Some (err, None)
                else match newmb with
                | None => Some (ENOMEM, None)
                | Some mb =>
                    '(err, mb, rend) ← record_routes msg true mb;
                    '(e, mb) ← printf mb (c_str "To: %r\r\n") [Print.APl (Some (SipHdr.taddr_val (SipMsg.from msg)))];
                    let err := Z.lor err e in
                    '(e, mb) ← printf mb (c_str "From: %r;tag=%016llx\r\n")
                       [Print.APl (Some (SipHdr.taddr_val (SipMsg.to msg))); Print.AInt (SipMsg.tag msg)];
                    let err := Z.lor err e in
                    if negb (err =? 0) then Some (err, None)
                    else
                      let mb := mb_set_pos mb 0 in
                      '(err, rt) ← decode_route mb rend duri;
                      Some (err, if negb (err =? 0) then None
                                 else Some (mk_dialog rt mb callid ltag (Some rtag) duri (u16 r_lseq)
                                              (SipHdr.num (SipMsg.cseq msg)) 0))
                end
    end.

(** What [sip_dialog_create] and [sip_dialog_fork] print: the routes, To, and the rest of
    the fields of the dialog from [cpos]; the buffer of the dialog is rewound. *)
Definition print_peer (msg : sip_msg) (old : B) (at_ : Z) (mb : B) : option (Z * B * Z) :=
  '(err, mb, rend) ← record_routes msg (SipMsg.req msg) mb;
  '(e, mb) ← printf mb (c_str "To: %r\r\n") [Print.APl (Some (remote_val msg))];
  let err := Z.lor err e in
  let old := mb_set_pos old at_ in
  '(e0, l, _) ← mbuf_read_mem old (mbuf_get_left old);
  '(e, mb) ← (if negb (e0 =? 0) then None else mbuf_write_mem mb l);
  Some (Z.lor err e, mb, rend).

Definition rewound (d : sip_dialog B) : sip_dialog B :=
  mk_dialog (route d) (mb_set_pos (dmb d) 0) (dcallid d) (ltag d) (rtag d) (duri d) (lseq d) (rseq d) (cpos d).

(** The error, and the dialog afterwards. *)
Definition sip_dialog_create (news : nat -> Z) (newmb : option B) (d : sip_dialog B) (msg : sip_msg) :
    option (Z * sip_dialog B) :=
  if bool_decide (is_Some (rtag d)) || (cpos d =? 0) then Some (EINVAL, d)
  else
    contact ← contact_of msg;
    match contact, newmb with
    | None, _ => Some (EBADMSG, d)
    | Some addr, None => Some (ENOMEM, d)
    | Some addr, Some mb =>
        let '(err, uri) := strdup (news 0%nat) (SipHdr.auri addr) in
        if negb (err =? 0) then Some (err, d)
        else
          let '(err, rt) := strdup (news 1%nat) (remote_tag msg) in
          if negb (err =? 0) then Some (err, d)
          else
            '(err, mb, rend) ← print_peer msg (dmb d) (cpos d) mb;
            let d := rewound d in
            if negb (err =? 0) then Some (err, d)
            else
              let mb := mb_set_pos mb 0 in
              '(err, r) ← decode_route mb rend uri;
              if negb (err =? 0) then Some (err, d)
              else Some (0, mk_dialog r mb (dcallid d) (ltag d) (Some rt) uri (lseq d)
                              (if SipMsg.req msg then SipHdr.num (SipMsg.cseq msg) else 0) 0)
    end.

(** The new dialog shares the Call-ID and the local tag; the second is the old one afterwards. *)
Definition sip_dialog_fork (news : nat -> Z) (newmb : option B) (d : sip_dialog B) (msg : sip_msg) :
    option (Z * option (sip_dialog B) * sip_dialog B) :=
  if cpos d =? 0 then Some (EINVAL, None, d)
  else
    contact ← contact_of msg;
    match contact with
    | None => Some (EBADMSG, None, d)
    | Some addr =>
        if pl_p (SipMsg.callid msg) =? 0 then Some (EBADMSG, None, d)
        else if news 0%nat =? 0 then Some (ENOMEM, None, d)
        else
          let '(err, uri) := strdup (news 1%nat) (SipHdr.auri addr) in
          if negb (err =? 0) then Some (err, None, d)
          else
            let '(err, rt) := strdup (news 2%nat) (remote_tag msg) in
            if negb (err =? 0) then Some (err, None, d)
            else match newmb with
            | None => Some (ENOMEM, None, d)
            | Some mb =>
                '(err, mb, rend) ← print_peer msg (dmb d) (cpos d) mb;
                let d := rewound d in
                if negb (err =? 0) then Some (err, None, d)
                else
                  let mb := mb_set_pos mb 0 in
                  '(err, r) ← decode_route mb rend uri;
                  Some (err, if negb (err =? 0) then None
                             else Some (mk_dialog r mb (dcallid d) (ltag d) (Some rt) uri (lseq d)
                                          (if SipMsg.req msg then SipHdr.num (SipMsg.cseq msg) else 0) 0), d)
            end
    end.

(** [a]: the address of the new target. *)
Definition sip_dialog_update (a : Z) (d : sip_dialog B) (msg : sip_msg) : option (Z * sip_dialog B) :=
  contact ← contact_of msg;
  match contact with
  | None => Some (EBADMSG, d)
  | Some addr =>
      let '(err, uri) := strdup a (SipHdr.auri addr) in
      if negb (err =? 0) then Some (err, d)
      else
        '(err, r) ← (if pl_p (scheme (route d)) =? pl_p (duri d) then uri_decode inet_pton uri else Some (0, route d));
        if negb (err =? 0) then Some (err, d)
        else Some (0, mk_dialog r (dmb d) (dcallid d) (ltag d) (rtag d) uri (lseq d) (rseq d) (cpos d))
  end.

Definition sip_dialog_rseq_valid (d : sip_dialog B) (msg : sip_msg) : bool * sip_dialog B :=
  if negb (SipMsg.req msg) then (false, d)
  else if SipHdr.num (SipMsg.cseq msg) <? rseq d then (false, d)
  else (true, mk_dialog (route d) (dmb d) (dcallid d) (ltag d) (rtag d) (duri d) (lseq d)
                (SipHdr.num (SipMsg.cseq msg)) (cpos d)).

(** Prints to [mb], a buffer other than that of the dialog. *)
Definition sip_dialog_encode (mb : B) (d : sip_dialog B) (cseq : Z) (met : list Z) : option (Z * B * sip_dialog B) :=
  '(e0, l, _) ← mbuf_read_mem (dmb d) (mbuf_get_left (dmb d));
  '(err, mb) ← (if negb (e0 =? 0) then None else mbuf_write_mem mb l);
  '(e, mb) ← printf mb (c_str "Call-ID: %s\r\n") [str (pl_s (dcallid d))];
  let err := Z.lor err e in
  let ack := bool_decide (met = c_str "ACK") in
  '(e, mb) ← printf mb (c_str "CSeq: %u %s\r\n") [Print.AInt (if ack then cseq else lseq d); str met];
  Some (Z.lor err e, mb, mk_dialog (route d) (dmb d) (dcallid d) (ltag d) (rtag d) (duri d)
                           (if ack then lseq d else u32 (lseq d + 1)) (rseq d) (cpos d)).

Definition sip_dialog_established (d : sip_dialog B) : bool := bool_decide (is_Some (rtag d)).

Definition sip_dialog_cmp_half (d : sip_dialog B) (msg : sip_msg) : bool :=
  if negb (pl_strcmp (Some (SipMsg.callid msg)) (Some (dcallid d)) =? 0) then false
  else if negb (pl_strcmp (Some (local_tag msg)) (Some (ltag d)) =? 0) then false
  else true.

Definition sip_dialog_cmp (d : sip_dialog B) (msg : sip_msg) : bool :=
  if negb (pl_strcmp (Some (SipMsg.callid msg)) (Some (dcallid d)) =? 0) then false
  else if negb (pl_strcmp (Some (local_tag msg)) (Some (ltag d)) =? 0) then false
  else if negb (pl_strcmp (Some (remote_tag msg)) (rtag d) =? 0) then false
  else true.

End Dialog.

(** ** The texts *)

Section Texts.
Context (inet_ntop : Z -> list Z -> list Z) (strerror : Z -> list Z).

Definition no_text (h : Empty_set) : option (list Z) := None.
Abbreviation text fmt args := (Print.format_text inet_ntop strerror no_text 1 fmt args).
Abbreviation str t := (Print.AStr (Some t)).
Abbreviation plarg x := (Print.APl (Some x)).

Definition digits (n : Z) : list Z := Uric.local_itoa (u32 n) 10 false.

Lemma text_alloc_route r : text (c_str "Route: <%s;lr>\r\n") [Print.AStr r] =
  Some (c_str "Route: <" ++ default [] r ++ c_str ";lr>\r\n").
Proof. eval_format. Qed.

Lemma text_alloc_to t : text (c_str "To: <%s>\r\n") [str t] = Some (c_str "To: <" ++ t ++ c_str ">\r\n").
Proof. eval_format. Qed.

Lemma text_alloc_from q n q' u v : text (c_str "From: %s%s%s<%s>;tag=%016llx\r\n") [str q; Print.AStr n; str q'; str u; Print.AInt v] =
  Some (c_str "From: " ++ q ++ default [] n ++ q' ++ c_str "<" ++ u ++ c_str ">;tag=" ++ Print.x64_text v ++ c_str "\r\n").
Proof. eval_format. Qed.

Lemma text_record_route x : text (c_str "Route: %r\r\n") [plarg x] = Some (c_str "Route: " ++ Print.pl_text (Some x) ++ c_str "\r\n").
Proof. eval_format. Qed.

Lemma text_to x : text (c_str "To: %r\r\n") [plarg x] = Some (c_str "To: " ++ Print.pl_text (Some x) ++ c_str "\r\n").
Proof. eval_format. Qed.

Lemma text_from x v : text (c_str "From: %r;tag=%016llx\r\n") [plarg x; Print.AInt v] =
  Some (c_str "From: " ++ Print.pl_text (Some x) ++ c_str ";tag=" ++ Print.x64_text v ++ c_str "\r\n").
Proof. eval_format. Qed.

Lemma text_callid t : text (c_str "Call-ID: %s\r\n") [str t] = Some (c_str "Call-ID: " ++ t ++ c_str "\r\n").
Proof. eval_format. Qed.

Lemma text_cseq n t : text (c_str "CSeq: %u %s\r\n") [Print.AInt n; str t] =
  Some (c_str "CSeq: " ++ digits n ++ c_str " " ++ t ++ c_str "\r\n").
Proof. eval_format. Qed.

Lemma text_x64 v : text (c_str "%016llx") [Print.AInt v] = Some (Print.x64_text v).
Proof. eval_format. by rewrite app_nil_r. Qed.

End Texts.

(** ** What the operations print *)
Section Effects.
Context (inet_pton : Z -> list Z -> option (list Z)) (inet_ntop : Z -> list Z -> list Z) (strerror : Z -> list Z).
Context {B : Type} `{BL : BufferLaws B} (mb_buf : B -> Z).
Hypothesis buf_fixed : forall b p, mb_buf (mb_set_pos b p) = mb_buf b.
Abbreviation print := (printf inet_ntop strerror).
Abbreviation text_of fmt args := (Print.format_text inet_ntop strerror no_text 1 fmt args).
Abbreviation len := Print.len.

(** [t] was printed behind [u], or not all of it if there was an error. *)
Definition ran (u t : list Z) (err : Z) (mb : B) : Prop :=
  exists v, at_end mb (u ++ v) /\ (if err =? 0 then v = t else len v <= len t).

Lemma ran_start (u : list Z) (mb : B) : at_end mb u -> ran u [] 0 mb.
Proof. intros Hu. exists []. by rewrite app_nil_r. Qed.

Lemma ran_more u t err mb x e mb' v : ran u t err mb -> (forall w, at_end mb w -> at_end mb' (w ++ v)) ->
  (if e =? 0 then v = x else len v <= len x) -> ran u (t ++ x) (Z.lor err e) mb'.
Proof.
  intros (w&Hw&Hc) Hv He. exists (w ++ v). rewrite app_assoc. split; [by apply Hv|].
  destruct (Z.eqb_spec err 0) as [->|He1], (Z.eqb_spec e 0) as [->|He2]; simpl; subst; try done;
    (destruct (Z.eqb_spec (Z.lor err e) 0) as [E%Z.lor_eq_0_iff|]; [lia|]) ||
    (destruct (Z.eqb_spec (Z.lor 0 e) 0) as [E%Z.lor_eq_0_iff|]; [lia|]) ||
    (destruct (Z.eqb_spec (Z.lor err 0) 0) as [E%Z.lor_eq_0_iff|]; [lia|]);
    rewrite !Print.len_app; lia.
Qed.

Lemma ran_bound u t err mb : ran u t err mb -> exists w, at_end mb w /\ len w <= len u + len t.
Proof.
  intros (v&Hv&Hc). exists (u ++ v). split; [done|]. rewrite Print.len_app. destruct (err =? 0); [subst; lia|lia].
Qed.

Lemma ran_printf_ok u t err mb fmt args x : ran u t err mb -> text_of fmt args = Some x ->
  len u + len (t ++ x) <= Mem.SIZE_MAX ->
  exists e mb', print mb fmt args = Some (e, mb') /\ ran u (t ++ x) (Z.lor err e) mb' /\ (~ writes_fail (B := B) -> e = 0).
Proof.
  intros Hr Ht Hlen. destruct (ran_bound _ _ _ _ Hr) as (w&Hw&Hwl). rewrite Print.len_app in Hlen.
  destruct (Printers.mbuf_vprintf_ok inet_ntop strerror no_handler 1 no_text ltac:(intros []) mb w fmt args x Hw)
    as (e&mb'&v&E&Hv&Hc&Hnf); [lia|done|].
  exists e, mb'. split_and!; [done| |done]. apply (ran_more _ _ _ mb _ _ _ v); [done| |done].
  intros w' Hw'. by rewrite (Printers.at_end_inj mb w' w).
Qed.

Lemma ran_printf u t err mb fmt args x : ran u t err mb -> text_of fmt args = Some x ->
  len u + len (t ++ x) <= Mem.SIZE_MAX ->
  exists e mb', print mb fmt args = Some (e, mb') /\ ran u (t ++ x) (Z.lor err e) mb'.
Proof. intros Hr Ht Hlen. destruct (ran_printf_ok _ _ _ _ _ _ _ Hr Ht Hlen) as (e&mb'&?&?&_). by exists e, mb'. Qed.

Lemma ran_write_ok u t err mb x : ran u t err mb -> len u + len (t ++ x) <= Mem.SIZE_MAX ->
  exists e mb', mbuf_write_mem mb x = Some (e, mb') /\ ran u (t ++ x) (Z.lor err e) mb' /\ (~ writes_fail (B := B) -> e = 0).
Proof.
  intros Hr Hlen. destruct (ran_bound _ _ _ _ Hr) as (w&Hw&Hwl). rewrite Print.len_app in Hlen.
  pose proof Hw as (Hb&Htx&Hpos). pose proof (mb_length mb Hb) as Hl. rewrite Htx in Hl. unfold Print.len in *.
  destruct (mb_write_ok mb x Hb) as (e&mb'&E&Hb'&Hcase); [lia|lia|].
  exists e, mb'. split; [done|]. destruct Hcase as [(->&Hp'&Ht')|(->&Hp'&Ht')]; (split; [|try done]).
  - apply (ran_more _ _ _ mb _ _ _ x); [done| |done]. intros w' Hw'. rewrite (Printers.at_end_inj mb w' w) by done.
    split_and!; [done|by rewrite Ht', Hpos, Htx, overwrite_end|]. rewrite Hp', Hpos, length_app. lia.
  - apply (ran_more _ _ _ mb _ _ _ []); [done| |unfold Print.len; simpl; lia]. intros w' Hw'. rewrite app_nil_r.
    rewrite (Printers.at_end_inj mb w' w) by done. split_and!; [done|by rewrite Ht'|by rewrite Hp'].
  - intros Hnf. destruct Hnf. by eexists _, _, _.
Qed.

Lemma ran_write u t err mb x : ran u t err mb -> len u + len (t ++ x) <= Mem.SIZE_MAX ->
  exists e mb', mbuf_write_mem mb x = Some (e, mb') /\ ran u (t ++ x) (Z.lor err e) mb'.
Proof. intros Hr Hlen. destruct (ran_write_ok _ _ _ _ _ Hr Hlen) as (e&mb'&?&?&_). by exists e, mb'. Qed.

(** A string of its own. *)
Lemma x64_strdup_ok a v : 0 <= a -> x64_strdup inet_ntop strerror a v =
  Some (if a =? 0 then (ENOMEM, pl_null) else (0, mk_pl a (Print.x64_text v))).
Proof.
  intros Ha. unfold x64_strdup. destruct (Z.eqb_spec a 0); [done|]. destruct (Print.x64_text_ok v) as [Hn Hl].
  pose proof (Printers.re_vsnprintf_ok inet_ntop strerror no_handler 1 no_text ltac:(intros []) a X64_STRSIZE
    (c_str "%016llx") [Print.AInt v] _ n ltac:(unfold X64_STRSIZE; lia) (text_x64 inet_ntop strerror v)) as E.
  rewrite Hl in E. change (16 <? X64_STRSIZE) with true in E. cbv iota in E. rewrite E. simpl. do 3 f_equal.
  clear -Hn. induction (Print.x64_text v) as [|c l IH]; [done|]. apply Forall_cons in Hn as [Hc Hn]. simpl.
  destruct (Z.eqb_spec c 0); [done|]. f_equal. by apply IH.
Qed.

Lemma strdup_ok a x : strdup a x = (if pl_p x =? 0 then (EINVAL, pl_null) else if a =? 0 then (ENOMEM, pl_null)
  else (0, mk_pl a (cstr (pl_s x ++ [0])))).
Proof. unfold strdup, pl_strdup. simpl. by destruct (pl_p x =? 0), (a =? 0). Qed.

(** ** The Route fields *)
Definition route_line (x : pl) : list Z := c_str "Route: " ++ Print.pl_text (Some x) ++ c_str "\r\n".
Definition is_record_route (h : sip_hdr) : bool := SipMsg.id h =? SipId.SIP_HDR_RECORD_ROUTE.
Definition routes_of (l : list sip_hdr) : list pl := map SipMsg.val (List.filter is_record_route l).

(** The values of the Record-Route fields, in the order they are printed. *)
Definition record_route_values (msg : sip_msg) (fwd : bool) : option (list pl) :=
  routes_of <$> SipMsg.bucket_of msg fwd SipId.SIP_HDR_RECORD_ROUTE.

(** Where the first Route field ends. *)
Definition end_of_route (vs : list pl) : Z :=
  match vs with [] => 0 | x :: _ => len (c_str "Route: ") + len (Print.pl_text (Some x)) end.

Lemma route_line_len x : len (route_line x) = end_of_route [x] + 2.
Proof. unfold route_line, end_of_route. rewrite !Print.len_app. change (len (c_str "\r\n")) with 2. lia. Qed.

Lemma end_of_route_pos x : 7 <= end_of_route [x].
Proof. unfold end_of_route. change (len (c_str "Route: ")) with 7. unfold Print.len. lia. Qed.

Lemma routes_of_cons h l : routes_of (h :: l) = if is_record_route h then SipMsg.val h :: routes_of l else routes_of l.
Proof. unfold routes_of. cbn [List.filter]. by destruct (is_record_route h). Qed.

#[local] Arguments c_str : simpl never.
#[local] Arguments route_line : simpl never.
#[local] Arguments end_of_route : simpl never.

Lemma apply_ran l : forall mb t e, ran [] t 0 mb -> len t + len (concat (map route_line (routes_of l))) <= Mem.SIZE_MAX ->
  0 <= e -> (e = 0 -> t = []) ->
  exists r mb' e', SipMsg.apply_hdrs is_record_route (Some (record_route_handler inet_ntop strerror)) l (Some (mb, e)) =
      (r, Some (mb', e')) /\
    ran [] (t ++ concat (map route_line (routes_of l))) (match r with Some _ => ENOMEM | None => 0 end) mb' /\
    (r = None -> e' = if e =? 0 then end_of_route (routes_of l) else e).
Proof.
  induction l as [|h l IH]; intros mb t e Hr Hlen He Het.
  - exists None, mb, e. simpl. rewrite app_nil_r. split_and!; [done|done|]. intros _. by destruct (Z.eqb_spec e 0).
  - rewrite routes_of_cons in *. cbn [SipMsg.apply_hdrs]. destruct (is_record_route h) eqn:Eh; cbn [negb]; [|by apply IH].
    cbn [map concat] in *. cbn [record_route_handler]. rewrite Print.len_app in Hlen.
    assert (0 <= len (concat (map route_line (routes_of l)))) by (unfold Print.len; lia).
    assert (0 <= len t) by (unfold Print.len; lia). pose proof (route_line_len (SipMsg.val h)) as Hll.
    destruct (ran_printf [] t 0 mb _ _ _ Hr (text_record_route inet_ntop strerror (SipMsg.val h)))
      as (err&mb1&->&Hr1). { rewrite Print.len_app. fold (route_line (SipMsg.val h)). change (len []) with 0. lia. }
    fold (route_line (SipMsg.val h)) in Hr1. rewrite Z.lor_0_l in Hr1.
    destruct (Z.eqb_spec err 0) as [->|Hne]; cbn [negb].
    + destruct Hr1 as (v&Hv&Hv'). change (0 =? 0) with true in Hv'. cbv iota in Hv'. subst v. pose proof Hv as (_&_&Hpos). cbn [app] in Hpos.
      change (Z.of_nat (length (t ++ route_line (SipMsg.val h)))) with (len (t ++ route_line (SipMsg.val h))) in Hpos.
      rewrite Print.len_app in Hpos.
      pose proof (end_of_route_pos (SipMsg.val h)).
      destruct (IH mb1 (t ++ route_line (SipMsg.val h)) (if e =? 0 then u64 (mb_pos mb1 - 2) else e))
        as (r&mb'&e'&E&Hr2&He2).
      * by eexists.
      * rewrite Print.len_app. lia.
      * destruct (e =? 0); [apply u64_range|done].
      * destruct (Z.eqb_spec e 0) as [->|]; [|done]. rewrite (Het eq_refl) in *. change (len []) with 0 in Hpos.
        pose proof (end_of_route_pos (SipMsg.val h)). unfold Mem.SIZE_MAX in *. rewrite u64_small by lia. lia.
      * exists r, mb', e'. split; [done|]. rewrite <- app_assoc in Hr2. split; [done|]. intros ->. rewrite He2 by done.
        destruct (Z.eqb_spec e 0) as [->|]; [|by destruct (Z.eqb_spec e 0)].
        rewrite (Het eq_refl) in Hpos. change (len []) with 0 in Hpos. unfold Mem.SIZE_MAX in *.
        rewrite u64_small, Hpos, Hll by lia.
        replace (0 + (end_of_route [SipMsg.val h] + 2) - 2) with (end_of_route [SipMsg.val h]) by lia.
        by destruct (Z.eqb_spec (end_of_route [SipMsg.val h]) 0); [lia|].
    + exists (Some h), mb1, e. split; [done|]. split; [|done]. destruct Hr1 as (v&Hv&Hv').
      destruct (Z.eqb_spec err 0); [done|]. exists v. split; [done|].
      change (ENOMEM =? 0) with false. cbv iota. rewrite !Print.len_app in *. lia.
Qed.

Lemma record_routes_ok msg fwd mb vs : record_route_values msg fwd = Some vs -> at_end mb [] ->
  len (concat (map route_line vs)) <= Mem.SIZE_MAX ->
  exists err mb' e, record_routes inet_ntop strerror msg fwd mb = Some (err, mb', e) /\
    ran [] (concat (map route_line vs)) err mb' /\ (err = 0 -> e = end_of_route vs).
Proof.
  unfold record_route_values, record_routes, SipMsg.sip_msg_hdr_apply. intros Hvs Hmb Hlen.
  destruct (SipMsg.bucket_of msg fwd SipId.SIP_HDR_RECORD_ROUTE) as [l|]; [|done]. injection Hvs as <-.
  destruct (apply_ran l mb [] 0 (ran_start [] mb Hmb)) as (r&mb'&e&E&Hr&He); [done|lia|done|].
  cbn [mbind option_bind]. change (fun hdr : sip_hdr => SipMsg.id hdr =? SipId.SIP_HDR_RECORD_ROUTE) with is_record_route.
  rewrite E. cbn [mbind option_bind]. eexists _, _, _. split; [done|]. split; [exact Hr|]. intros Herr.
  destruct r; [done|]. by apply He.
Qed.

(** Where the route comes from: the first Route field, or else the target. *)
Definition route_source (mb : B) (vs : list pl) (target : pl) : option (Z * uri) :=
  match vs with
  | [] => uri_decode inet_pton target
  | v :: _ =>
      '(err, a) ← SipHdr.sip_addr_decode inet_pton (mk_pl (mb_buf mb + ROUTE_OFFSET) (Print.pl_text (Some v)));
      Some (err, SipHdr.addr_uri a)
  end.

Lemma route_source_total mb vs target : 0 < mb_buf mb + ROUTE_OFFSET -> 0 < pl_p target ->
  is_Some (route_source mb vs target).
Proof.
  intros Hb Ht. destruct vs as [|v vs]; simpl; [by apply uri_decode_total|].
  destruct (SipHdr.sip_addr_decode_total inet_pton (mk_pl (mb_buf mb + ROUTE_OFFSET) (Print.pl_text (Some v))) Hb)
    as [[err a] E]. simpl in E. rewrite E. by eexists.
Qed.

Lemma decode_route_ok mb vs rest target : at_end mb (concat (map route_line vs) ++ rest) ->
  decode_route inet_pton mb_buf (mb_set_pos mb 0) (end_of_route vs) target = route_source mb vs target.
Proof.
  intros (Hb&Ht&Hp). unfold decode_route, route_source. destruct vs as [|v vs]; [done|].
  pose proof (end_of_route_pos v) as He. change (end_of_route (v :: vs)) with (end_of_route [v]).
  destruct (Z.eqb_spec (end_of_route [v]) 0); [lia|]. cbn [negb].
  assert (end_of_route [v] - ROUTE_OFFSET = len (Print.pl_text (Some v))) as En.
  { unfold end_of_route. change (len (c_str "Route: ")) with ROUTE_OFFSET. lia. }
  cbn [map concat] in Ht. pose proof (mb_length mb Hb) as Hlen. pose proof (mb_bounds mb Hb) as [_ Hmax].
  assert (len (route_line v) <= mb_end mb) as Hle.
  { rewrite <- Hlen, Ht. fold (len ((route_line v ++ concat (map route_line vs)) ++ rest)). rewrite !Print.len_app.
    unfold Print.len. lia. }
  rewrite route_line_len in Hle. unfold mb_slice. rewrite mb_pos_set_set, En, buf_fixed.
  assert (0 <= len (Print.pl_text (Some v))) by (unfold Print.len; lia). unfold Mem.SIZE_MAX, ROUTE_OFFSET in *.
  rewrite u64_small by lia. destruct (mb_pos_set mb 7 Hb) as (Hb7&Ht7&Hp7&He7); [done|].
  rewrite mb_read_ok by (done || (rewrite Hp7, He7; lia)). unfold mbuf_get_left. rewrite Hp7, He7.
  destruct (Z.ltb_spec 7 (mb_end mb)); [|lia]. destruct (Z.ltb_spec (mb_end mb - 7) (len (Print.pl_text (Some v)))); [lia|].
  cbn [mbind option_bind negb Z.eqb]. rewrite Ht7, Ht. unfold route_line. rewrite <- !app_assoc.
  change (Z.to_nat 7) with (length (c_str "Route: ")). rewrite drop_app_length.
  unfold Print.len. rewrite Nat2Z.id, take_app_length. done.
Qed.

Hypothesis buf_pos : forall b, 0 <= mb_buf b.

(** A buffer that holds [t], read from its start. *)
Definition holds_text (mb : B) (t : list Z) : Prop := mb_ok mb /\ mb_text mb = t /\ mb_pos mb = 0.

Lemma holds_start t mb : at_end mb t -> holds_text (mb_set_pos mb 0) t.
Proof. intros (Hb&Ht&_). destruct (mb_pos_set mb 0 Hb) as (?&?&?&_); [done|]. split_and!; [done|congruence|done]. Qed.

(** What a new dialog [d] for the target, with the Route fields [vs], is. *)
Definition made (err : Z) (r : option (sip_dialog B)) (vs : list pl) (rest : list Z) (target : pl)
    (mk : uri -> B -> sip_dialog B) : Prop :=
  match r with
  | None => err <> 0
  | Some d => err = 0 /\ exists rt mb, d = mk rt mb /\ holds_text mb (concat (map route_line vs) ++ rest) /\
      route_source mb vs target = Some (0, rt)
  end.

Lemma decode_made mb vs rest target : at_end mb (concat (map route_line vs) ++ rest) -> 0 < pl_p target ->
  exists e rt, decode_route inet_pton mb_buf (mb_set_pos mb 0) (end_of_route vs) target = Some (e, rt) /\
    holds_text (mb_set_pos mb 0) (concat (map route_line vs) ++ rest) /\
    (e = 0 -> route_source (mb_set_pos mb 0) vs target = Some (0, rt)).
Proof.
  intros Hv Ht. rewrite (decode_route_ok mb vs rest target Hv).
  assert (route_source mb vs target = route_source (mb_set_pos mb 0) vs target) as ->.
  { unfold route_source. by rewrite buf_fixed. }
  pose proof (buf_pos (mb_set_pos mb 0)).
  destruct (route_source_total (mb_set_pos mb 0) vs target) as [[e rt] Er]; [unfold ROUTE_OFFSET; lia|done|].
  rewrite Er. exists e, rt. split; [done|]. split; [by apply holds_start|]. by intros ->.
Qed.

(** The end of the functions that make a dialog. *)
Lemma dlg_finish_ok err e mb vs rest target mk : ran [] (concat (map route_line vs) ++ rest) err mb ->
  (err = 0 -> e = end_of_route vs) -> 0 < pl_p target ->
  exists err' r, (if negb (err =? 0) then Some (err, None)
    else '(err, rt) ← decode_route inet_pton mb_buf (mb_set_pos mb 0) e target;
         Some (err, if negb (err =? 0) then None else Some (mk rt (mb_set_pos mb 0)))) = Some (err', r) /\
    made err' r vs rest target mk.
Proof.
  intros (v&Hv&Hc) He Ht. destruct (Z.eqb_spec err 0) as [->|Hne]; cbn [negb]; [|by eexists _, _].
  rewrite Hc in Hv. rewrite (He eq_refl). destruct (decode_made mb vs rest target Hv Ht) as (e'&rt&->&Hh&Hs).
  cbn [mbind option_bind]. eexists _, _. split; [done|].
  destruct (Z.eqb_spec e' 0) as [->|]; cbn [negb made]; [|done]. split; [done|].
  exists rt, (mb_set_pos mb 0). split_and!; [done|done|]. by apply Hs.
Qed.

(** The string in a new block. *)
Definition c_string (x : pl) : list Z := cstr (pl_s x ++ [0]).

Lemma strdup_cases a x : 0 <= a -> (exists err, err <> 0 /\ strdup a x = (err, pl_null)) \/
  (0 < a /\ strdup a x = (0, mk_pl a (c_string x))).
Proof.
  intros Ha. rewrite strdup_ok. destruct (pl_p x =? 0); [left; by exists EINVAL|].
  destruct (Z.eqb_spec a 0); [left; by exists ENOMEM|]. right. split; [lia|done].
Qed.

Context (news : nat -> Z) (newmb : option B).
Hypothesis news_ok : forall k, 0 <= news k.
Hypothesis newmb_ok : forall b, newmb = Some b -> at_end b [].

Definition accept_fields (msg : sip_msg) : list Z :=
  c_str "To: " ++ Print.pl_text (Some (SipHdr.taddr_val (SipMsg.from msg))) ++ c_str "\r\n" ++
  c_str "From: " ++ Print.pl_text (Some (SipHdr.taddr_val (SipMsg.to msg))) ++
  c_str ";tag=" ++ Print.x64_text (SipMsg.tag msg) ++ c_str "\r\n".

Ltac step_strdup k x :=
  destruct (strdup_cases (news k) x (news_ok k)) as [(?err&?Herr&->)|(?Hnew&->)];
  [match goal with Herr : ?e <> 0 |- _ => destruct (Z.eqb_spec e 0); [done|]; cbn [negb]; by eexists _, _ end|];
  change (negb (0 =? 0)) with false; cbv iota.

Ltac step_x64 k v :=
  rewrite (x64_strdup_ok (news k) v (news_ok k)); cbn [mbind option_bind];
  destruct (Z.eqb_spec (news k) 0); [by eexists _, _|];
  change (negb (0 =? 0)) with false; cbv iota.

Lemma dlg_accept_ok r_lseq msg addr vs : SipMsg.req msg = true -> contact_of inet_pton msg = Some (Some addr) ->
  record_route_values msg true = Some vs ->
  len (concat (map route_line vs) ++ accept_fields msg) <= Mem.SIZE_MAX ->
  exists err r, sip_dialog_accept inet_pton inet_ntop strerror mb_buf news newmb r_lseq msg = Some (err, r) /\
    made err r vs (accept_fields msg) (mk_pl (news 1%nat) (c_string (SipHdr.auri addr)))
      (fun rt mb => mk_dialog rt mb (mk_pl (news 2%nat) (c_string (SipMsg.callid msg)))
         (mk_pl (news 3%nat) (Print.x64_text (SipMsg.tag msg))) (Some (mk_pl (news 4%nat) (c_string (tag_from msg))))
         (mk_pl (news 1%nat) (c_string (SipHdr.auri addr))) (u16 r_lseq) (SipHdr.num (SipMsg.cseq msg)) 0).
Proof.
  intros Hreq Hc Hvs Hlen. unfold sip_dialog_accept. rewrite Hreq, Hc. cbn [negb mbind option_bind].
  destruct (pl_p (SipMsg.callid msg) =? 0); [by eexists _, _|]. destruct (news 0%nat =? 0); [by eexists _, _|].
  step_strdup 1%nat (SipHdr.auri addr). step_strdup 2%nat (SipMsg.callid msg). step_x64 3%nat (SipMsg.tag msg).
  step_strdup 4%nat (tag_from msg). destruct newmb as [mb|] eqn:Emb; [|by eexists _, _].
  rewrite Print.len_app in Hlen. assert (0 <= len (accept_fields msg)) by (unfold Print.len; lia).
  destruct (record_routes_ok msg true mb vs Hvs (newmb_ok mb eq_refl)) as (err&mb1&e&->&Hr1&He); [lia|].
  cbn [mbind option_bind].
  assert (len [] + (len (concat (map route_line vs)) + len (accept_fields msg)) <= Mem.SIZE_MAX) as Hmax by (change (len []) with 0; lia).
  unfold accept_fields in Hmax. repeat rewrite Print.len_app in Hmax.
  destruct (ran_printf _ _ _ _ _ _ _ Hr1 (text_to inet_ntop strerror (SipHdr.taddr_val (SipMsg.from msg))))
    as (e2&mb2&->&Hr2). { rewrite !Print.len_app. unfold Print.len in *. lia. }
  cbn [mbind option_bind].
  destruct (ran_printf _ _ _ _ _ _ _ Hr2 (text_from inet_ntop strerror (SipHdr.taddr_val (SipMsg.to msg)) (SipMsg.tag msg)))
    as (e3&mb3&->&Hr3). { rewrite !Print.len_app. unfold Print.len in *. lia. }
  cbn [mbind option_bind].
  apply (dlg_finish_ok _ e mb3 vs (accept_fields msg) (mk_pl (news 1%nat) (c_string (SipHdr.auri addr)))
    (fun rt mb => mk_dialog rt mb _ _ _ _ _ _ _)); [|intros E|simpl; lia].
  - unfold accept_fields. by rewrite <- !app_assoc in *.
  - apply He. by apply Z.lor_eq_0_iff in E as [[? _]%Z.lor_eq_0_iff _].
Qed.

(** [sip_dialog_alloc] *)
Definition alloc_route (r : option (list Z)) : pl := mk_pl 1 (c_str "<" ++ default [] r ++ c_str ";lr>").

Lemma alloc_route_line r : c_str "Route: <" ++ default [] r ++ c_str ";lr>\r\n" = route_line (alloc_route r).
Proof. unfold route_line, alloc_route. cbn [Print.pl_text pl_p pl_s Z.eqb]. by rewrite <- !app_assoc. Qed.

Lemma print_routes_ok rs : forall i mb t err rend, ran [] t err mb -> 0 <= i -> (i = 0 -> t = [] /\ rend = 0) ->
  len t + len (concat (map route_line (map alloc_route rs))) <= Mem.SIZE_MAX ->
  exists err' mb' rend', print_routes inet_ntop strerror i rs mb err rend = Some (err', mb', rend') /\
    ran [] (t ++ concat (map route_line (map alloc_route rs))) err' mb' /\
    (err' = 0 -> err = 0 /\ rend' = if i =? 0 then end_of_route (map alloc_route rs) else rend).
Proof.
  induction rs as [|r rs IH]; intros i mb t err rend Hr Hi Hi0 Hlen.
  - exists err, mb, rend. cbn [map concat]. rewrite app_nil_r. split_and!; [done|done|]. intros ->. split; [done|].
    destruct (Z.eqb_spec i 0); [by apply Hi0|done].
  - cbn [map concat print_routes] in *. rewrite Print.len_app in Hlen.
    assert (0 <= len (concat (map route_line (map alloc_route rs)))) by (unfold Print.len; lia).
    pose proof (end_of_route_pos (alloc_route r)) as Hpos. pose proof (route_line_len (alloc_route r)) as Hll.
    destruct (ran_printf _ _ _ _ _ _ _ Hr (text_alloc_route inet_ntop strerror r)) as (e&mb1&->&Hr1);
      rewrite alloc_route_line in *; [change (len []) with 0; rewrite Print.len_app; lia|].
    cbn [mbind option_bind].
    destruct (IH (i + 1) mb1 _ _ (if i =? 0 then u64 (mb_pos mb1 - 2) else rend) Hr1) as (err'&mb'&rend'&E&Hr2&He);
      [lia|lia|rewrite Print.len_app; lia|].
    exists err', mb', rend'. split; [done|]. rewrite <- app_assoc in Hr2. split; [done|]. intros ->.
    destruct (He eq_refl) as [[-> ->]%Z.lor_eq_0_iff ->]. split; [done|]. destruct (Z.eqb_spec (i + 1) 0); [lia|].
    destruct (Z.eqb_spec i 0) as [->|]; [|done]. destruct (Hi0 eq_refl) as [-> _].
    destruct Hr1 as (v&(_&_&Hp)&Hv). change (Z.lor 0 0 =? 0) with true in Hv. cbv iota in Hv. subst v. cbn [app] in Hp.
    change (Z.of_nat (length (route_line (alloc_route r)))) with (len (route_line (alloc_route r))) in Hp.
    change (end_of_route (alloc_route r :: map alloc_route rs)) with (end_of_route [alloc_route r]).
    change (len []) with 0 in Hlen. unfold Mem.SIZE_MAX in *. rewrite u64_small; lia.
Qed.

Definition to_line (to_uri : list Z) : list Z := c_str "To: <" ++ to_uri ++ c_str ">\r\n".
Definition from_line (from_name : option (list Z)) (from_uri : list Z) (r_ltag : Z) : list Z :=
  c_str "From: " ++ (match from_name with Some n => [34] ++ n ++ [34; 32] | None => [] end) ++
  c_str "<" ++ from_uri ++ c_str ">;tag=" ++ Print.x64_text r_ltag ++ c_str "\r\n".

Lemma text_from_line from_name from_uri r_ltag : text_of (c_str "From: %s%s%s<%s>;tag=%016llx\r\n")
    [Print.AStr (Some (match from_name with Some _ => [34] | None => [] end)); Print.AStr from_name;
     Print.AStr (Some (match from_name with Some _ => [34; 32] | None => [] end)); Print.AStr (Some from_uri);
     Print.AInt r_ltag] = Some (from_line from_name from_uri r_ltag).
Proof. rewrite text_alloc_from. unfold from_line. by destruct from_name as [nm|]; cbn [default from_option app]; rewrite <- ?app_assoc. Qed.

Lemma alloc_ok r_ltag r_lseq r_callid uri to_uri from_uri from_name routev :
  let vs := map alloc_route routev in
  let fields := to_line to_uri ++ from_line from_name from_uri r_ltag in
  len (concat (map route_line vs) ++ fields) <= Mem.SIZE_MAX ->
  exists err r, sip_dialog_alloc inet_pton inet_ntop strerror mb_buf news newmb r_ltag r_lseq r_callid
      (Some uri) (Some to_uri) (Some from_uri) from_name routev = Some (err, r) /\
    made err r vs fields (mk_pl (news 1%nat) uri)
      (fun rt mb => mk_dialog rt mb (mk_pl (news 2%nat) (Print.x64_text r_callid))
         (mk_pl (news 3%nat) (Print.x64_text r_ltag)) None (mk_pl (news 1%nat) uri) (u16 r_lseq) 0
         (len (concat (map route_line vs) ++ to_line to_uri))).
Proof.
  intros vs fields Hlen. unfold sip_dialog_alloc. destruct (Z.eqb_spec (news 0%nat) 0); [by eexists _, _|].
  destruct (Z.eqb_spec (news 1%nat) 0); [by eexists _, _|]. cbn [orb].
  step_x64 2%nat r_callid. step_x64 3%nat r_ltag. destruct newmb as [mb|] eqn:Emb; [|by eexists _, _].
  pose proof (news_ok 1%nat). unfold fields in *. rewrite !Print.len_app in Hlen.
  assert (forall l, 0 <= len l) as Hge by (intros; unfold Print.len; lia).
  pose proof (Hge (to_line to_uri)). pose proof (Hge (from_line from_name from_uri r_ltag)).
  destruct (print_routes_ok routev 0 mb [] 0 0 (ran_start [] mb (newmb_ok mb eq_refl))) as (err&mb1&e&->&Hr1&He);
    [lia|done|change (len []) with 0; fold vs; lia|]. fold vs in Hr1, He. cbn [app] in Hr1. cbn [mbind option_bind].
  destruct (ran_printf _ _ _ _ _ _ _ Hr1 (text_alloc_to inet_ntop strerror to_uri)) as (e2&mb2&->&Hr2);
    fold (to_line to_uri) in *; [change (len []) with 0; rewrite Print.len_app; lia|].
  cbn [mbind option_bind].
  destruct (ran_printf _ _ _ _ _ _ _ Hr2 (text_from_line from_name from_uri r_ltag)) as (e3&mb3&E3&Hr3);
    [change (len []) with 0; rewrite !Print.len_app; lia|].
  rewrite E3. cbn [mbind option_bind]. rewrite <- app_assoc in Hr3.
  destruct (Z.eqb_spec (Z.lor (Z.lor err e2) e3) 0) as [E|E]; cbn [negb]; [|by eexists _, _].
  assert (mb_pos mb2 = len (concat (map route_line vs) ++ to_line to_uri)) as ->.
  { destruct Hr2 as (v&(_&_&->)&Hv). apply Z.lor_eq_0_iff in E as [E' _]. rewrite E' in Hv. change (0 =? 0) with true in Hv.
    cbv iota in Hv. by subst v. }
  rewrite E in Hr3. destruct (dlg_finish_ok 0 e mb3 vs _ (mk_pl (news 1%nat) uri)
    (fun rt mb => mk_dialog rt mb (mk_pl (news 2%nat) (Print.x64_text r_callid))
         (mk_pl (news 3%nat) (Print.x64_text r_ltag)) None (mk_pl (news 1%nat) uri) (u16 r_lseq) 0
         (len (concat (map route_line vs) ++ to_line to_uri))) Hr3) as (err'&r&Ef&Hm).
  - intros _. by apply Z.lor_eq_0_iff in E as [[[_ ->]%He _]%Z.lor_eq_0_iff _].
  - simpl. lia.
  - exists err', r. by rewrite <- Ef.
Qed.

(** What is left of the fields of a dialog from [at_] on. *)
Lemma read_left old at_ t : holds_text old t -> 0 <= at_ <= len t ->
  exists b, mbuf_read_mem (mb_set_pos old at_) (mbuf_get_left (mb_set_pos old at_)) =
    Some (0, drop (Z.to_nat at_) t, b).
Proof.
  intros (Hb&Ht&_) Hat. destruct (mb_pos_set old at_ Hb) as (Hb'&Ht'&Hp'&He'); [lia|].
  pose proof (mb_length old Hb) as Hl. rewrite Ht in Hl. fold (len t) in Hl.
  assert (mbuf_get_left (mb_set_pos old at_) = len t - at_) as El.
  { unfold mbuf_get_left. rewrite Hp', He', <- Hl. destruct (Z.ltb_spec at_ (len t)); lia. }
  rewrite mb_read_ok by (done || (rewrite El, Hp', He', <- Hl; lia)). rewrite Z.ltb_irrefl, El, Hp', Ht', Ht.
  rewrite firstn_all2; [by eexists|]. rewrite length_drop. unfold Print.len in *. lia.
Qed.

Lemma print_peer_ok msg old at_ t mb vs : record_route_values msg (SipMsg.req msg) = Some vs ->
  holds_text old t -> 0 <= at_ <= len t -> at_end mb [] ->
  let peer := c_str "To: " ++ Print.pl_text (Some (remote_val msg)) ++ c_str "\r\n" ++ drop (Z.to_nat at_) t in
  len (concat (map route_line vs) ++ peer) <= Mem.SIZE_MAX ->
  exists err mb' e, print_peer inet_ntop strerror msg old at_ mb = Some (err, mb', e) /\
    ran [] (concat (map route_line vs) ++ peer) err mb' /\ (err = 0 -> e = end_of_route vs).
Proof.
  intros Hvs Hold Hat Hmb peer Hlen. unfold print_peer.
  assert (forall l, 0 <= len l) as Hge by (intros; unfold Print.len; lia).
  unfold peer in *. rewrite !Print.len_app in Hlen.
  pose proof (Hge (c_str "To: ")). pose proof (Hge (c_str "\r\n")). pose proof (Hge (drop (Z.to_nat at_) t)).
  pose proof (Hge (Print.pl_text (Some (remote_val msg)))). pose proof (Hge (concat (map route_line vs))).
  destruct (record_routes_ok msg (SipMsg.req msg) mb vs Hvs Hmb) as (err&mb1&e&->&Hr1&He); [lia|].
  cbn [mbind option_bind].
  destruct (ran_printf _ _ _ _ _ _ _ Hr1 (text_to inet_ntop strerror (remote_val msg))) as (e2&mb2&->&Hr2).
  { change (len []) with 0. rewrite !Print.len_app. lia. }
  cbn [mbind option_bind]. destruct (read_left old at_ t Hold Hat) as [b ->]. cbn [mbind option_bind negb Z.eqb].
  destruct (ran_write _ _ _ _ (drop (Z.to_nat at_) t) Hr2) as (e3&mb3&->&Hr3).
  { change (len []) with 0. rewrite !Print.len_app. lia. }
  cbn [mbind option_bind]. eexists _, _, _. split; [done|]. split; [by rewrite <- !app_assoc in *|].
  intros E. apply He. by apply Z.lor_eq_0_iff in E as [[? _]%Z.lor_eq_0_iff _].
Qed.

Definition peer_fields (msg : sip_msg) (t : list Z) (at_ : Z) : list Z :=
  c_str "To: " ++ Print.pl_text (Some (remote_val msg)) ++ c_str "\r\n" ++ drop (Z.to_nat at_) t.

Lemma rewound_same (d : sip_dialog B) : mb_pos (dmb d) = 0 -> rewound d = d.
Proof. intros Hp. unfold rewound. rewrite <- Hp, mb_pos_same. by destruct d. Qed.

(** [sip_dialog_create]: everything or nothing. *)
Lemma create_ok d t msg addr vs : rtag d = None -> 0 < cpos d <= len t -> holds_text (dmb d) t ->
  contact_of inet_pton msg = Some (Some addr) -> record_route_values msg (SipMsg.req msg) = Some vs ->
  len (concat (map route_line vs) ++ peer_fields msg t (cpos d)) <= Mem.SIZE_MAX ->
  exists err d', sip_dialog_create inet_pton inet_ntop strerror mb_buf news newmb d msg = Some (err, d') /\
    (err <> 0 -> d' = d) /\
    made err (if err =? 0 then Some d' else None) vs (peer_fields msg t (cpos d)) (mk_pl (news 0%nat) (c_string (SipHdr.auri addr)))
      (fun rt mb => mk_dialog rt mb (dcallid d) (ltag d) (Some (mk_pl (news 1%nat) (c_string (remote_tag msg))))
         (mk_pl (news 0%nat) (c_string (SipHdr.auri addr))) (lseq d)
         (if SipMsg.req msg then SipHdr.num (SipMsg.cseq msg) else 0) 0).
Proof.
  intros Hrt Hc Hold Hcon Hvs Hlen. unfold sip_dialog_create. rewrite Hrt, Hcon.
  destruct (Z.eqb_spec (cpos d) 0); [lia|]. rewrite bool_decide_eq_false_2 by (intros []; done). cbn [orb mbind option_bind].
  destruct newmb as [mb|] eqn:Emb; [|by eexists _, _].
  assert (forall err, err <> 0 -> made err (if err =? 0 then Some d else None) vs (peer_fields msg t (cpos d))
    (mk_pl (news 0%nat) (c_string (SipHdr.auri addr)))
      (fun rt mb => mk_dialog rt mb (dcallid d) (ltag d) (Some (mk_pl (news 1%nat) (c_string (remote_tag msg))))
         (mk_pl (news 0%nat) (c_string (SipHdr.auri addr))) (lseq d)
         (if SipMsg.req msg then SipHdr.num (SipMsg.cseq msg) else 0) 0)) as Hfail.
  { intros err He. by destruct (Z.eqb_spec err 0). }
  destruct (strdup_cases (news 0%nat) (SipHdr.auri addr) (news_ok 0%nat)) as [(err&He&->)|(Hn0&->)].
  { destruct (Z.eqb_spec err 0); [done|]. cbn [negb]. exists err, d. by split_and!; [|done|apply Hfail]. }
  change (negb (0 =? 0)) with false. cbv iota.
  destruct (strdup_cases (news 1%nat) (remote_tag msg) (news_ok 1%nat)) as [(err&He&->)|(Hn1&->)].
  { destruct (Z.eqb_spec err 0); [done|]. cbn [negb]. exists err, d. by split_and!; [|done|apply Hfail]. }
  change (negb (0 =? 0)) with false. cbv iota.
  destruct (print_peer_ok msg (dmb d) (cpos d) t mb vs Hvs Hold ltac:(lia) (newmb_ok mb eq_refl) Hlen) as (err&mb'&e&->&Hr&He).
  cbn [mbind option_bind]. destruct Hold as (_&_&Hpos). rewrite rewound_same by done.
  destruct (Z.eqb_spec err 0) as [->|Hne]; cbn [negb].
  2: { exists err, d. by split_and!; [|done|apply Hfail]. }
  destruct Hr as (v&Hv&Hv'). change (0 =? 0) with true in Hv'. cbv iota in Hv'. subst v. rewrite (He eq_refl).
  destruct (decode_made mb' vs _ (mk_pl (news 0%nat) (c_string (SipHdr.auri addr))) Hv ltac:(done)) as (e'&rt&->&Hh&Hs).
  cbn [mbind option_bind]. destruct (Z.eqb_spec e' 0) as [->|]; cbn [negb].
  - eexists _, _. split; [done|]. split; [done|]. split; [done|]. exists rt, (mb_set_pos mb' 0). split_and!; [done|done|by apply Hs].
  - exists e', d. by split_and!; [|done|apply Hfail].
Qed.

Lemma fork_ok d t msg addr vs : 0 < cpos d <= len t -> holds_text (dmb d) t ->
  contact_of inet_pton msg = Some (Some addr) -> record_route_values msg (SipMsg.req msg) = Some vs ->
  len (concat (map route_line vs) ++ peer_fields msg t (cpos d)) <= Mem.SIZE_MAX ->
  exists err r, sip_dialog_fork inet_pton inet_ntop strerror mb_buf news newmb d msg = Some (err, r, d) /\
    made err r vs (peer_fields msg t (cpos d)) (mk_pl (news 1%nat) (c_string (SipHdr.auri addr)))
      (fun rt mb => mk_dialog rt mb (dcallid d) (ltag d) (Some (mk_pl (news 2%nat) (c_string (remote_tag msg))))
         (mk_pl (news 1%nat) (c_string (SipHdr.auri addr))) (lseq d)
         (if SipMsg.req msg then SipHdr.num (SipMsg.cseq msg) else 0) 0).
Proof.
  intros Hc Hold Hcon Hvs Hlen. unfold sip_dialog_fork. rewrite Hcon.
  destruct (Z.eqb_spec (cpos d) 0); [lia|]. cbn [mbind option_bind].
  destruct (pl_p (SipMsg.callid msg) =? 0); [by eexists _, _|]. destruct (news 0%nat =? 0); [by eexists _, _|].
  step_strdup 1%nat (SipHdr.auri addr). step_strdup 2%nat (remote_tag msg).
  destruct newmb as [mb|] eqn:Emb; [|by eexists _, _].
  destruct (print_peer_ok msg (dmb d) (cpos d) t mb vs Hvs Hold ltac:(lia) (newmb_ok mb eq_refl) Hlen) as (err&mb'&e&->&Hr&He).
  cbn [mbind option_bind]. destruct Hold as (_&_&Hpos). rewrite rewound_same by done.
  destruct (dlg_finish_ok err e mb' vs _ (mk_pl (news 1%nat) (c_string (SipHdr.auri addr)))
    (fun rt mb => mk_dialog rt mb (dcallid d) (ltag d) (Some (mk_pl (news 2%nat) (c_string (remote_tag msg))))
         (mk_pl (news 1%nat) (c_string (SipHdr.auri addr))) (lseq d)
         (if SipMsg.req msg then SipHdr.num (SipMsg.cseq msg) else 0) 0) Hr He ltac:(done)) as (err'&r&Ef&Hm).
  exists err', r. split; [|exact Hm]. destruct (negb (err =? 0)); [by injection Ef as -> <-|].
  destruct (decode_route inet_pton mb_buf (mb_set_pos mb' 0) e _) as [[e' rt]|]; [|done]. by injection Ef as -> <-.
Qed.

Lemma dlg_encode_ok mb u (d : sip_dialog B) t cseq met : at_end mb u -> holds_text (dmb d) t ->
  let ack := bool_decide (met = c_str "ACK") in
  let fields := t ++ c_str "Call-ID: " ++ pl_s (dcallid d) ++ c_str "\r\n" ++
    c_str "CSeq: " ++ digits (if ack then cseq else lseq d) ++ c_str " " ++ met ++ c_str "\r\n" in
  len u + len fields <= Mem.SIZE_MAX ->
  exists err mb', sip_dialog_encode inet_ntop strerror mb d cseq met = Some (err, mb',
      mk_dialog (route d) (dmb d) (dcallid d) (ltag d) (rtag d) (duri d) (if ack then lseq d else u32 (lseq d + 1)) (rseq d) (cpos d)) /\
    ran u fields err mb'.
Proof.
  intros Hmb Hold ack fields Hlen. unfold sip_dialog_encode. pose proof Hold as (_&_&Hpos).
  destruct (read_left (dmb d) 0 t Hold) as [b E]; [unfold Print.len; lia|]. rewrite <- Hpos, mb_pos_same in E.
  rewrite E, Hpos. change (Z.to_nat 0) with 0%nat. rewrite drop_0. cbn [mbind option_bind negb Z.eqb].
  assert (forall l, 0 <= len l) as Hge by (intros; unfold Print.len; lia).
  pose proof (Hge met). pose proof (Hge (pl_s (dcallid d))). pose proof (Hge (digits (if ack then cseq else lseq d))).
  pose proof (Hge (c_str "\r\n")). pose proof (Hge (c_str "CSeq: ")). pose proof (Hge (c_str "Call-ID: ")). pose proof (Hge (c_str " ")).
  unfold fields in *. rewrite !Print.len_app in Hlen.
  destruct (ran_write u [] 0 mb t (ran_start u mb Hmb)) as (e1&mb1&->&Hr1); [cbn [app]; lia|]. cbn [mbind option_bind app] in *.
  destruct (ran_printf _ _ _ _ _ _ _ Hr1 (text_callid inet_ntop strerror (pl_s (dcallid d)))) as (e2&mb2&->&Hr2);
    [rewrite !Print.len_app; lia|]. cbn [mbind option_bind].
  destruct (ran_printf _ _ _ _ _ _ _ Hr2 (text_cseq inet_ntop strerror (if ack then cseq else lseq d) met)) as (e3&mb3&E3&Hr3);
    [rewrite !Print.len_app; lia|].
  change (bool_decide (met = c_str "ACK")) with ack. rewrite E3. cbn [mbind option_bind].
  eexists _, _. split; [done|]. by rewrite Z.lor_0_l, <- !app_assoc in Hr3.
Qed.

(** [sip_dialog_update]: the route of a dialog without Route fields is that of the new
    target, that of the others stays. *)
Lemma update_ok a (d : sip_dialog B) msg addr : 0 <= a -> contact_of inet_pton msg = Some (Some addr) ->
  exists err d', sip_dialog_update inet_pton a d msg = Some (err, d') /\ (err <> 0 -> d' = d) /\
    (err = 0 -> exists rt, d' = mk_dialog rt (dmb d) (dcallid d) (ltag d) (rtag d) (mk_pl a (c_string (SipHdr.auri addr)))
         (lseq d) (rseq d) (cpos d) /\
       if pl_p (scheme (route d)) =? pl_p (duri d)
       then uri_decode inet_pton (mk_pl a (c_string (SipHdr.auri addr))) = Some (0, rt) else rt = route d).
Proof.
  intros Ha Hc. unfold sip_dialog_update. rewrite Hc. cbn [mbind option_bind].
  destruct (strdup_cases a (SipHdr.auri addr) Ha) as [(err&He&->)|(Hn&->)].
  { destruct (Z.eqb_spec err 0); [done|]. cbn [negb]. by exists err, d. }
  change (negb (0 =? 0)) with false. cbv iota. destruct (pl_p (scheme (route d)) =? pl_p (duri d)).
  - destruct (uri_decode_total inet_pton (mk_pl a (c_string (SipHdr.auri addr))) Hn) as [[e rt] ->]. cbn [mbind option_bind].
    destruct (Z.eqb_spec e 0) as [->|]; cbn [negb]; [|by exists e, d]. eexists _, _. split; [done|]. split; [done|].
    intros _. by exists rt.
  - cbn [mbind option_bind negb Z.eqb]. eexists _, _. split; [done|]. split; [done|]. intros _. by exists (route d).
Qed.

End Effects.

Section Properties.
Context (inet_pton : Z -> list Z -> option (list Z)) (inet_ntop : Z -> list Z -> list Z) (strerror : Z -> list Z).
Context {B : Type} `{BL : BufferLaws B} (mb_buf : B -> Z).
Hypothesis buf_fixed : forall b p, mb_buf (mb_set_pos b p) = mb_buf b.
Hypothesis buf_pos : forall b, 0 <= mb_buf b.
Abbreviation len := Print.len.
Abbreviation source := (route_source inet_pton mb_buf).

(** ** Recognising messages *)

(** Strings of a dialog are not in the memory of a message. *)
Definition apart (d : sip_dialog B) (m : sip_msg) : Prop :=
  pl_p (SipMsg.callid m) <> pl_p (dcallid d) /\ pl_p (local_tag m) <> pl_p (ltag d) /\
  forall t, rtag d = Some t -> pl_p (remote_tag m) <> pl_p t.

Lemma strcmp_texts x y : pl_p x <> pl_p y ->
  (pl_strcmp (Some x) (Some y) =? 0) = bool_decide (pl_s x = pl_s y).
Proof.
  intros Hp. unfold pl_strcmp, pl_set_str, pl_cmp, pl_cmp_by, memcmp_eq, pl_l.
  destruct (Z.eqb_spec (Z.of_nat (length (pl_s x))) (Z.of_nat (length (pl_s y)))) as [E|E]; cbn [negb].
  - destruct (Z.eqb_spec (Z.of_nat (length (pl_s x))) 0) as [E0|E0].
    + rewrite E0 in E. destruct (pl_s x), (pl_s y); try done; simpl in *; lia.
    + destruct (Z.eqb_spec (pl_p x) (pl_p y)); [done|]. by destruct (bool_decide (pl_s x = pl_s y)).
  - symmetry. apply bool_decide_eq_false. intros Ex. by rewrite Ex in E.
Qed.

Lemma cmp_ok d m rt : apart d m -> rtag d = Some rt ->
  sip_dialog_cmp d m = bool_decide (pl_s (SipMsg.callid m) = pl_s (dcallid d)) &&
    bool_decide (pl_s (local_tag m) = pl_s (ltag d)) && bool_decide (pl_s (remote_tag m) = pl_s rt).
Proof.
  intros (H1&H2&H3) Hrt. unfold sip_dialog_cmp. rewrite Hrt, !strcmp_texts by (done || by apply H3).
  by repeat case_bool_decide.
Qed.

Lemma cmp_half_ok d m : apart d m -> sip_dialog_cmp_half d m =
  bool_decide (pl_s (SipMsg.callid m) = pl_s (dcallid d)) && bool_decide (pl_s (local_tag m) = pl_s (ltag d)).
Proof.
  intros (H1&H2&H3). unfold sip_dialog_cmp_half. rewrite !strcmp_texts by done. by repeat case_bool_decide.
Qed.

(** What the requests in a row do. *)
Fixpoint receive (d : sip_dialog B) (msgs : list sip_msg) : list sip_msg * sip_dialog B :=
  match msgs with
  | [] => ([], d)
  | m :: msgs =>
      let '(ok, d) := sip_dialog_rseq_valid d m in
      let '(l, d) := receive d msgs in (if ok : bool then m :: l else l, d)
  end.

Definition cseq_of (m : sip_msg) : Z := SipHdr.num (SipMsg.cseq m).

Lemma receive_rseq msgs : forall d l d', receive d msgs = (l, d') ->
  rseq d' = foldl (fun _ m => cseq_of m) (rseq d) l /\ StronglySorted Z.le (rseq d :: map cseq_of l).
Proof.
  induction msgs as [|m msgs IH]; intros d l d' E; simpl in E.
  - injection E as <- <-. split; [done|]. by repeat constructor.
  - unfold sip_dialog_rseq_valid in E. destruct (SipMsg.req m); cbn [negb] in E.
    + destruct (Z.ltb_spec (SipHdr.num (SipMsg.cseq m)) (rseq d)) as [Hlt|Hge].
      * destruct (receive d msgs) as [l1 d1] eqn:E1. injection E as <- <-. by apply IH.
      * destruct (receive _ msgs) as [l1 d1] eqn:E1. injection E as <- <-. destruct (IH _ _ _ E1) as [Hr Hs].
        simpl in *. split; [done|]. constructor; [done|]. constructor; [done|]. inversion Hs as [|? ? Hs' Hf]; subst.
        eapply Forall_impl; [exact Hf|]. simpl. unfold cseq_of in *. lia.
    + destruct (receive d msgs) as [l1 d1] eqn:E1. injection E as <- <-. by apply IH.
Qed.

(** ** Properties *)

(** C11: a dialog that is set up between two parties is the same on both sides.  The caller
    makes a dialog and sends an INVITE with its Call-ID and tag, the callee accepts it and
    answers with its own tag, and the caller completes its dialog from the answer.  When
    this succeeds, the Call-IDs agree, each side's local tag is the other's remote tag, and
    of any two messages with the same Call-ID and tags that go in opposite directions, the
    one is recognised by the caller if and only if the other is by the callee.  The fields
    the two will send are those of the messages: the Route fields are the values of
    Record-Route, in reverse for the caller, To is the peer's address, and From is that of
    the INVITE, with the local tag of the callee; each route is that of the first Route
    field or else of the Contact. *)
Theorem dialog_handshake news1 mb1 r_ltag r_lseq r_callid uri to_uri from_uri from_name routev d1
    news2 mb2 r_lseq2 m1 addr1 vs1 d2 news3 mb3 m2 addr2 vs2 d3 :
  (forall k, 0 <= news1 k) -> (forall b : B, mb1 = Some b -> at_end b []) ->
  (forall k, 0 <= news2 k) -> (forall b : B, mb2 = Some b -> at_end b []) ->
  (forall k, 0 <= news3 k) -> (forall b : B, mb3 = Some b -> at_end b []) ->
  sip_dialog_alloc inet_pton inet_ntop strerror mb_buf news1 mb1 r_ltag r_lseq r_callid
    (Some uri) (Some to_uri) (Some from_uri) from_name routev = Some (0, Some d1) ->
  len (concat (map route_line (map alloc_route routev)) ++ to_line to_uri ++ from_line from_name from_uri r_ltag) <= Mem.SIZE_MAX ->
  sip_dialog_accept inet_pton inet_ntop strerror mb_buf news2 mb2 r_lseq2 m1 = Some (0, Some d2) ->
  contact_of inet_pton m1 = Some (Some addr1) -> record_route_values m1 true = Some vs1 ->
  len (concat (map route_line vs1) ++ accept_fields m1) <= Mem.SIZE_MAX ->
  c_string (SipMsg.callid m1) = pl_s (dcallid d1) -> c_string (tag_from m1) = pl_s (ltag d1) ->
  sip_dialog_create inet_pton inet_ntop strerror mb_buf news3 mb3 d1 m2 = Some (0, d3) -> SipMsg.req m2 = false ->
  contact_of inet_pton m2 = Some (Some addr2) -> record_route_values m2 false = Some vs2 ->
  len (concat (map route_line vs2) ++ c_str "To: " ++ Print.pl_text (Some (remote_val m2)) ++ c_str "\r\n" ++
    from_line from_name from_uri r_ltag) <= Mem.SIZE_MAX ->
  c_string (tag_to m2) = pl_s (ltag d2) ->
  pl_s (dcallid d3) = pl_s (dcallid d2) /\
  (exists t3 t2, rtag d3 = Some t3 /\ rtag d2 = Some t2 /\ pl_s t3 = pl_s (ltag d2) /\ pl_s t2 = pl_s (ltag d3)) /\
  (forall q q', apart d3 q -> apart d2 q' -> SipMsg.req q' = negb (SipMsg.req q) ->
     pl_s (SipMsg.callid q') = pl_s (SipMsg.callid q) -> pl_s (tag_to q') = pl_s (tag_to q) ->
     pl_s (tag_from q') = pl_s (tag_from q) -> sip_dialog_cmp d3 q = sip_dialog_cmp d2 q') /\
  holds_text (dmb d2) (concat (map route_line vs1) ++ accept_fields m1) /\
  holds_text (dmb d3) (concat (map route_line vs2) ++ c_str "To: " ++ Print.pl_text (Some (SipHdr.taddr_val (SipMsg.to m2))) ++
    c_str "\r\n" ++ from_line from_name from_uri r_ltag) /\
  source (dmb d2) vs1 (duri d2) = Some (0, route d2) /\ source (dmb d3) vs2 (duri d3) = Some (0, route d3).
Proof.
  intros Hn1 Hm1 Hn2 Hm2 Hn3 Hm3 Ealloc Hl1 Eacc Hc1 Hv1 Hl2 Hcid Htag Ecre Hreq Hc2 Hv2 Hl3 Htag2.
  assert (SipMsg.req m1 = true) as Hreq1.
  { unfold sip_dialog_accept in Eacc. by destruct (SipMsg.req m1). }
  destruct (alloc_ok inet_pton inet_ntop strerror mb_buf buf_fixed buf_pos news1 mb1 Hn1 Hm1 r_ltag r_lseq r_callid
    uri to_uri from_uri from_name routev Hl1) as (e1&r1&E1&M1).
  rewrite Ealloc in E1. injection E1 as <- <-. destruct M1 as (_&rt1&b1&Ed1&Hh1&_).
  destruct (dlg_accept_ok inet_pton inet_ntop strerror mb_buf buf_fixed buf_pos news2 mb2 Hn2 Hm2 r_lseq2 m1 addr1 vs1 Hreq1 Hc1 Hv1 Hl2)
    as (e2&r2&E2&M2). rewrite Eacc in E2. injection E2 as <- <-. destruct M2 as (_&rt2&b2&Ed2&Hh2&Hs2).
  set (t1 := concat (map route_line (map alloc_route routev)) ++ to_line to_uri ++ from_line from_name from_uri r_ltag) in *.
  assert (drop (Z.to_nat (cpos d1)) t1 = from_line from_name from_uri r_ltag) as Edrop.
  { rewrite Ed1. cbn [cpos]. unfold t1, Print.len. by rewrite Nat2Z.id, app_assoc, drop_app_length. }
  assert (0 < cpos d1 <= len t1) as Hcp.
  { rewrite Ed1. cbn [cpos]. unfold t1, to_line. rewrite !Print.len_app. change (len (c_str "To: <")) with 5.
    unfold Print.len. lia. }
  destruct (create_ok inet_pton inet_ntop strerror mb_buf buf_fixed buf_pos news3 mb3 Hn3 Hm3 d1 t1 m2 addr2 vs2)
    as (e3&d&E3&_&M3); [by rewrite Ed1|done|by rewrite Ed1|done|by rewrite Hreq|unfold peer_fields; by rewrite Edrop|].
  rewrite Ecre in E3. injection E3 as <- <-. change (0 =? 0) with true in M3. cbv iota in M3.
  destruct M3 as (_&rt3&b3&Ed3&Hh3&Hs3). unfold peer_fields in Hh3. rewrite Edrop in Hh3.
  assert (local_tag m2 = tag_from m2 /\ remote_tag m2 = tag_to m2 /\ remote_val m2 = SipHdr.taddr_val (SipMsg.to m2)) as (El&Er&Ev).
  { unfold local_tag, remote_tag, remote_val. by rewrite Hreq. }
  rewrite Ev in Hh3. rewrite Er in Ed3.
  assert (rtag d3 = Some (mk_pl (news3 1%nat) (c_string (tag_to m2)))) as Hr3 by by rewrite Ed3.
  assert (rtag d2 = Some (mk_pl (news2 4%nat) (c_string (tag_from m1)))) as Hr2 by by rewrite Ed2.
  assert (pl_s (dcallid d3) = pl_s (dcallid d2)) as Hcall by (rewrite Ed3, Ed2; cbn [dcallid pl_s]; congruence).
  assert (ltag d3 = ltag d1) as Hl by by rewrite Ed3.
  split_and!; [done| | | | | |]; try by (rewrite ?Ed2, ?Ed3; cbn [dmb duri route]).
  - eexists _, _. split; [exact Hr3|]. split; [exact Hr2|]. cbn [pl_s]. by rewrite Hl.
  - intros q q' Ha Ha' Hq Hci Hto Hfr. rewrite (cmp_ok d3 q _ Ha Hr3), (cmp_ok d2 q' _ Ha' Hr2). cbn [pl_s].
    rewrite Hcall, Hci, Hl, Htag, Htag2. unfold local_tag, remote_tag. rewrite Hq.
    destruct (SipMsg.req q); cbn [negb]; rewrite Hto, Hfr, <- !andb_assoc; f_equal; apply andb_comm.
Qed.

(** The header table as the decoder makes it. *)
Definition table_ok (msg : sip_msg) : Prop :=
  Hash.bsize (SipMsg.hdrht msg) = SipMsg.HDR_HASH_SIZE /\ length (Hash.bucket (SipMsg.hdrht msg)) = 32%nat.

Lemma bucket_defined msg fwd i : table_ok msg -> is_Some (SipMsg.bucket_of msg fwd i).
Proof.
  intros [Hb Hl]. unfold SipMsg.bucket_of, Hash.hash_list.
  destruct (lookup_lt_is_Some_2 (Hash.bucket (SipMsg.hdrht msg)) (Hash.index (SipMsg.hdrht msg) i)) as [l ->].
  { rewrite Hl. by apply SipScan.index_bound. }
  by eexists.
Qed.

Lemma contact_defined msg : table_ok msg -> exists contact, contact_of inet_pton msg = Some contact.
Proof.
  intros Ht. unfold contact_of, SipMsg.sip_msg_hdr, SipMsg.sip_msg_hdr_apply.
  destruct (bucket_defined msg true SipId.SIP_HDR_CONTACT Ht) as [l ->]. cbn [mbind option_bind].
  destruct (fst _) as [c|]; [|by eexists].
  destruct (SipScan.addr_decode_defined inet_pton (SipMsg.val c)) as [[err x] ->]. by eexists.
Qed.

Lemma routes_defined msg fwd : table_ok msg -> exists vs, record_route_values msg fwd = Some vs.
Proof. intros [l E]%(bucket_defined msg fwd SipId.SIP_HDR_RECORD_ROUTE). unfold record_route_values. rewrite E. by eexists. Qed.

(** What a dialog [d] with the fields [t] becomes with a message: the error if there is one
    before anything is done, and the dialog afterwards. *)
Definition precheck (established : bool) (d : sip_dialog B) (contact : option SipHdr.sip_addr) : Z :=
  if established || (cpos d =? 0) then EINVAL else match contact with None => EBADMSG | Some _ => 0 end.
Definition completed (d : sip_dialog B) (t : list Z) (msg : sip_msg) (addr : SipHdr.sip_addr) (vs : list pl)
    (a_uri a_tag : Z) (d' : sip_dialog B) : Prop :=
  exists rt mb, d' = mk_dialog rt mb (dcallid d) (ltag d) (Some (mk_pl a_tag (c_string (remote_tag msg))))
      (mk_pl a_uri (c_string (SipHdr.auri addr))) (lseq d) (if SipMsg.req msg then cseq_of msg else 0) 0 /\
    holds_text mb (concat (map route_line vs) ++ peer_fields msg t (cpos d)) /\ source mb vs (duri d') = Some (0, rt).

Lemma create_cases news newmb d t msg contact vs : (forall k, 0 <= news k) ->
  (forall b : B, newmb = Some b -> at_end b []) -> holds_text (dmb d) t -> 0 <= cpos d <= len t ->
  contact_of inet_pton msg = Some contact -> record_route_values msg (SipMsg.req msg) = Some vs ->
  len (concat (map route_line vs) ++ peer_fields msg t (cpos d)) <= Mem.SIZE_MAX ->
  exists err d', sip_dialog_create inet_pton inet_ntop strerror mb_buf news newmb d msg = Some (err, d') /\
    (precheck (bool_decide (is_Some (rtag d))) d contact <> 0 -> err = precheck (bool_decide (is_Some (rtag d))) d contact) /\
    (err <> 0 -> d' = d) /\
    (err = 0 -> exists addr, contact = Some addr /\ completed d t msg addr vs (news 0%nat) (news 1%nat) d').
Proof.
  intros Hn Hm Hh Hc Hcon Hvs Hlen. unfold precheck.
  destruct (bool_decide (is_Some (rtag d)) || (cpos d =? 0)) eqn:Er.
  { exists EINVAL, d. unfold sip_dialog_create. by rewrite Er. }
  destruct contact as [addr|].
  2: { exists EBADMSG, d. unfold sip_dialog_create. rewrite Er, Hcon. by split_and!. }
  apply orb_false_iff in Er as [Er%bool_decide_eq_false Ec%Z.eqb_neq].
  destruct (create_ok inet_pton inet_ntop strerror mb_buf buf_fixed buf_pos news newmb Hn Hm d t msg addr vs)
    as (err&d'&E&Hf&Hm'); try done; [by apply eq_None_not_Some|lia|].
  exists err, d'. split_and!; [done..|]. intros ->. change (0 =? 0) with true in Hm'. cbv iota in Hm'.
  destruct Hm' as (_&rt&mb&->&?&?). exists addr. split; [done|]. by exists rt, mb.
Qed.

Lemma fork_cases news newmb d t msg contact vs : (forall k, 0 <= news k) ->
  (forall b : B, newmb = Some b -> at_end b []) -> holds_text (dmb d) t -> 0 <= cpos d <= len t ->
  contact_of inet_pton msg = Some contact -> record_route_values msg (SipMsg.req msg) = Some vs ->
  len (concat (map route_line vs) ++ peer_fields msg t (cpos d)) <= Mem.SIZE_MAX ->
  exists err r, sip_dialog_fork inet_pton inet_ntop strerror mb_buf news newmb d msg = Some (err, r, d) /\
    (precheck false d contact <> 0 -> err = precheck false d contact) /\ (err <> 0 -> r = None) /\
    (err = 0 -> exists addr d', contact = Some addr /\ r = Some d' /\
       completed d t msg addr vs (news 1%nat) (news 2%nat) d').
Proof.
  intros Hn Hm Hh Hc Hcon Hvs Hlen. unfold precheck. cbn [orb]. destruct (Z.eqb_spec (cpos d) 0) as [Ec|Ec].
  { exists EINVAL, None. unfold sip_dialog_fork. by rewrite Ec. }
  destruct contact as [addr|].
  2: { exists EBADMSG, None. unfold sip_dialog_fork. rewrite Hcon. by destruct (Z.eqb_spec (cpos d) 0). }
  destruct (fork_ok inet_pton inet_ntop strerror mb_buf buf_fixed buf_pos news newmb Hn Hm d t msg addr vs)
    as (err&r&E&Hm'); try done; [lia|].
  exists err, r. split; [done|]. split; [done|]. destruct r as [d'|]; [|done].
  destruct Hm' as (->&rt&mb&->&?&?). split; [done|]. intros _. exists addr. eexists. split; [done|]. split; [done|].
  by exists rt, mb.
Qed.

(** C12: completing a dialog is all or nothing, and defined on every message and for every
    dialog.  [sip_dialog_create], with which the caller completes its dialog, refuses an
    established or complete one, and [sip_dialog_fork], which makes one more from the same
    request, a complete one; both refuse a message without a Contact that decodes.  Else
    they can only run out of memory or find no route: on any error the dialog is what it
    was and there is no other; on success the Route fields, the addresses, the target, the
    tags, the sequence numbers and the route are those of the message, all of them.
    [sip_dialog_update], of any dialog, replaces the target, and the route when it is that
    of the target, or leaves the dialog as it is. *)
Theorem dialog_all_or_nothing news newmb d t msg a : (forall k, 0 <= news k) ->
  (forall b : B, newmb = Some b -> at_end b []) -> 0 <= a -> table_ok msg ->
  holds_text (dmb d) t -> 0 <= cpos d <= len t ->
  (forall vs, record_route_values msg (SipMsg.req msg) = Some vs ->
     len (concat (map route_line vs) ++ peer_fields msg t (cpos d)) <= Mem.SIZE_MAX) ->
  exists contact vs, contact_of inet_pton msg = Some contact /\
  record_route_values msg (SipMsg.req msg) = Some vs /\
  (exists err d', sip_dialog_create inet_pton inet_ntop strerror mb_buf news newmb d msg = Some (err, d') /\
    let refused := precheck (bool_decide (is_Some (rtag d))) d contact in
    (refused <> 0 -> err = refused) /\ (err <> 0 -> d' = d) /\
    (err = 0 -> exists addr, contact = Some addr /\ completed d t msg addr vs (news 0%nat) (news 1%nat) d')) /\
  (exists err r, sip_dialog_fork inet_pton inet_ntop strerror mb_buf news newmb d msg = Some (err, r, d) /\
    (precheck false d contact <> 0 -> err = precheck false d contact) /\ (err <> 0 -> r = None) /\
    (err = 0 -> exists addr d', contact = Some addr /\ r = Some d' /\
       completed d t msg addr vs (news 1%nat) (news 2%nat) d')) /\
  (exists err d', sip_dialog_update inet_pton a d msg = Some (err, d') /\
    (contact = None -> err = EBADMSG) /\ (err <> 0 -> d' = d) /\
    (err = 0 -> exists addr rt, contact = Some addr /\
       d' = mk_dialog rt (dmb d) (dcallid d) (ltag d) (rtag d) (mk_pl a (c_string (SipHdr.auri addr)))
         (lseq d) (rseq d) (cpos d) /\
       if pl_p (scheme (route d)) =? pl_p (duri d) then uri_decode inet_pton (duri d') = Some (0, rt) else rt = route d)).
Proof.
  intros Hn Hm Ha Htab Hh Hc Hlen. destruct (contact_defined msg Htab) as [contact Hcon].
  destruct (routes_defined msg (SipMsg.req msg) Htab) as [vs Hvs]. specialize (Hlen vs Hvs).
  exists contact, vs. split; [done|]. split; [done|]. split_and!.
  - by apply create_cases.
  - by apply fork_cases.
  - destruct contact as [addr|].
    + destruct (update_ok inet_pton a d msg addr Ha Hcon) as (err&d'&E&Hf&Hok).
      exists err, d'. split_and!; [done..|]. intros He. destruct (Hok He) as (rt&->&?). by exists addr, rt.
    + exists EBADMSG, d. unfold sip_dialog_update. rewrite Hcon. by split_and!.
Qed.

(** C13: sequence numbers.  The fields of a request are those of the dialog, its Call-ID and
    a CSeq, which is the local sequence number and takes it, except for an ACK, which has
    the number of the request it is for; and of the requests that come in, exactly those
    are accepted whose number is not smaller than the first expected and than all that were
    accepted before, so that those are in order. *)
Theorem dialog_cseq_order mb u (d : sip_dialog B) t cseq met l m l2 : at_end mb u -> holds_text (dmb d) t ->
  let ack := bool_decide (met = c_str "ACK") in
  let fields := t ++ c_str "Call-ID: " ++ pl_s (dcallid d) ++ c_str "\r\n" ++
    c_str "CSeq: " ++ digits (if ack then cseq else lseq d) ++ c_str " " ++ met ++ c_str "\r\n" in
  len u + len fields <= Mem.SIZE_MAX ->
  (exists err mb' d', sip_dialog_encode inet_ntop strerror mb d cseq met = Some (err, mb', d') /\
     (err = 0 -> at_end mb' (u ++ fields)) /\ lseq d' = (if ack then lseq d else u32 (lseq d + 1)) /\
     holds_text (dmb d') t /\ rseq d' = rseq d /\ dcallid d' = dcallid d) /\
  StronglySorted Z.le (rseq d :: map cseq_of (fst (receive d (l ++ m :: l2)))) /\
  fst (receive d (l ++ [m])) = fst (receive d l) ++
    (if SipMsg.req m && forallb (fun n => n <=? cseq_of m) (rseq d :: map cseq_of (fst (receive d l))) then [m] else []).
Proof.
  intros Hmb Hh ack fields Hlen. split_and!.
  - destruct (dlg_encode_ok inet_ntop strerror mb u d t cseq met Hmb Hh Hlen) as (err&mb'&E&v&Hv&Hc).
    eexists _, _, _. split; [exact E|]. split_and!; try done. intros ->. change (0 =? 0) with true in Hc.
    cbv iota in Hc. rewrite Hc in Hv. exact Hv.
  - destruct (receive d (l ++ m :: l2)) as [acc d'] eqn:E. by apply receive_rseq in E as [_ ?].
  - clear. revert d. induction l as [|x l IH]; intros d; simpl.
    + unfold sip_dialog_rseq_valid. destruct (SipMsg.req m); cbn [negb andb]; [|done].
      rewrite andb_true_r. unfold cseq_of. by destruct (Z.ltb_spec (SipHdr.num (SipMsg.cseq m)) (rseq d)),
        (Z.leb_spec (rseq d) (SipHdr.num (SipMsg.cseq m))); try lia.
    + pose proof (IH (snd (sip_dialog_rseq_valid d x))) as IHx.
      destruct (sip_dialog_rseq_valid d x) as [ok d1] eqn:Ex. cbn [snd] in IHx.
      destruct (receive d1 (l ++ [m])) as [a1 e1]. destruct (receive d1 l) as [a2 e2] eqn:E2. cbn [fst] in *. subst a1.
      unfold sip_dialog_rseq_valid in Ex. destruct (SipMsg.req x); cbn [negb] in Ex; [|by injection Ex as <- <-].
      destruct (Z.ltb_spec (SipHdr.num (SipMsg.cseq x)) (rseq d)); injection Ex as <- <-; [done|].
      cbn [app map forallb rseq]. f_equal. unfold cseq_of at 2 5. f_equal.
      destruct (SipMsg.req m); cbn [andb]; [|done].
      destruct (Z.leb_spec (rseq d) (cseq_of m)), (Z.leb_spec (SipHdr.num (SipMsg.cseq x)) (cseq_of m)); cbn [andb]; try done; lia.
Qed.

End Properties.

(** ** Concrete dialogs *)
#[local] Existing Instances text_buffer text_laws.
Abbreviation TB := (Z * list Z)%type.
Definition ex_at (b : TB) : Z := 9000.
Definition ex_news (base : Z) (k : nat) : Z := base + Z.of_nat k.
Definition ex_mb : option TB := Some (0, []).
Abbreviation ex_ntop := (fun (_ : Z) (l : list Z) => l).
Abbreviation ex_str := (fun _ : Z => c_str "error").

Definition ex_decode (base rand : Z) (t : list Z) : sip_msg :=
  match SipMsg.sip_msg_decode Sa.ex_pton 50 (Mbuf.mk_mbuf base 4000 0 (Z.of_nat (length t))) t true true rand (ex_news 5000) with
  | Some (_, Some m, _) => m
  | _ => SipMsg.new_msg 50 7 (Hash.mk_hash [] 0) true
  end.

Definition ex_lines (l : list string) : list Z := concat (map (fun x => c_str x ++ c_str "\r\n") l) ++ c_str "\r\n".

Definition ex_invite : sip_msg := Eval vm_compute in ex_decode 1000 51 (ex_lines
  ["INVITE sip:bob@b.org SIP/2.0"; "Via: SIP/2.0/UDP 1.2.3.4:5060;branch=z9hG4bK1";
   "Record-Route: <sip:p2;lr>"; "Record-Route: <sip:p1;lr>"; "To: <sip:bob@b.org>";
   "From: <sip:alice@a.org>;tag=0000000000000011"; "Call-ID: 0000000000000022"; "CSeq: 5 INVITE";
   "Contact: <sip:alice@1.2.3.4>"]%string).

Definition ex_answer : sip_msg := Eval vm_compute in ex_decode 2000 52 (ex_lines
  ["SIP/2.0 200 OK"; "Via: SIP/2.0/UDP 1.2.3.4:5060;branch=z9hG4bK1";
   "Record-Route: <sip:p2;lr>"; "Record-Route: <sip:p1;lr>"; "To: <sip:bob@b.org>;tag=0000000000000033";
   "From: <sip:alice@a.org>;tag=0000000000000011"; "Call-ID: 0000000000000022"; "CSeq: 5 INVITE";
   "Contact: <sip:bob@5.6.7.8>"]%string).

Definition ex_d0 : sip_dialog TB := mk_dialog uri0 (0, []) pl_null pl_null None pl_null 0 0 0.

Definition ex_d1 : sip_dialog TB := Eval vm_compute in
  match sip_dialog_alloc Sa.ex_pton ex_ntop ex_str ex_at (ex_news 3000) ex_mb 17 5 34 (Some (c_str "sip:bob@b.org"))
    (Some (c_str "sip:bob@b.org")) (Some (c_str "sip:alice@a.org")) None [] with
  | Some (_, Some d) => d | _ => ex_d0 end.

Definition ex_d2 : sip_dialog TB := Eval vm_compute in
  match sip_dialog_accept Sa.ex_pton ex_ntop ex_str ex_at (ex_news 3100) ex_mb 9 ex_invite with Some (_, Some d) => d | _ => ex_d0 end.

Definition ex_d3 : sip_dialog TB := Eval vm_compute in
  match sip_dialog_create Sa.ex_pton ex_ntop ex_str ex_at (ex_news 3200) ex_mb ex_d1 ex_answer with Some (_, d) => d | _ => ex_d0 end.

Definition ex_contact (m : sip_msg) : SipHdr.sip_addr :=
  match contact_of Sa.ex_pton m with Some (Some a) => a | _ => SipHdr.addr0 end.
Definition ex_routes (m : sip_msg) (fwd : bool) : list pl := default [] (record_route_values m fwd).

Lemma ex_alloc : sip_dialog_alloc Sa.ex_pton ex_ntop ex_str ex_at (ex_news 3000) ex_mb 17 5 34 (Some (c_str "sip:bob@b.org"))
    (Some (c_str "sip:bob@b.org")) (Some (c_str "sip:alice@a.org")) None [] = Some (0, Some ex_d1).
Proof. vm_compute. reflexivity. Qed.
Lemma ex_accept : sip_dialog_accept Sa.ex_pton ex_ntop ex_str ex_at (ex_news 3100) ex_mb 9 ex_invite = Some (0, Some ex_d2).
Proof. vm_compute. reflexivity. Qed.
Lemma ex_create : sip_dialog_create Sa.ex_pton ex_ntop ex_str ex_at (ex_news 3200) ex_mb ex_d1 ex_answer = Some (0, ex_d3).
Proof. vm_compute. reflexivity. Qed.
Lemma ex_contacts : contact_of Sa.ex_pton ex_invite = Some (Some (ex_contact ex_invite)) /\
  contact_of Sa.ex_pton ex_answer = Some (Some (ex_contact ex_answer)).
Proof. vm_compute. split; reflexivity. Qed.
Lemma ex_values : record_route_values ex_invite true = Some (ex_routes ex_invite true) /\
  record_route_values ex_answer false = Some (ex_routes ex_answer false).
Proof. vm_compute. split; reflexivity. Qed.

(** What the caller will send: the routes in reverse. *)
Example ex_fields : snd (dmb ex_d3) = concat (map (fun x => c_str x ++ c_str "\r\n")
  ["Route: <sip:p1;lr>"; "Route: <sip:p2;lr>"; "To: <sip:bob@b.org>;tag=0000000000000033";
   "From: <sip:alice@a.org>;tag=0000000000000011"]%string).
Proof. vm_compute. reflexivity. Qed.

Lemma ex_news_pos base : 0 <= base -> forall k, 0 <= ex_news base k.
Proof. unfold ex_news. lia. Qed.

Lemma ex_mb_ok (b : TB) : ex_mb = Some b -> at_end b [].
Proof. intros [= <-]. split_and!; [split; [done|discriminate]|done|done]. Qed.

Lemma ex_lengths : Print.len (concat (map route_line (map alloc_route [])) ++ to_line (c_str "sip:bob@b.org") ++
     from_line None (c_str "sip:alice@a.org") 17) <= Mem.SIZE_MAX /\
  Print.len (concat (map route_line (ex_routes ex_invite true)) ++ accept_fields ex_invite) <= Mem.SIZE_MAX /\
  Print.len (concat (map route_line (ex_routes ex_answer false)) ++ c_str "To: " ++ Print.pl_text (Some (remote_val ex_answer)) ++
    c_str "\r\n" ++ from_line None (c_str "sip:alice@a.org") 17) <= Mem.SIZE_MAX.
Proof. vm_compute. split_and!; discriminate. Qed.

Lemma ex_ids : c_string (SipMsg.callid ex_invite) = pl_s (dcallid ex_d1) /\ c_string (tag_from ex_invite) = pl_s (ltag ex_d1) /\
  c_string (tag_to ex_answer) = pl_s (ltag ex_d2).
Proof. vm_compute. split_and!; reflexivity. Qed.

Lemma dialog_handshake_witness : pl_s (dcallid ex_d3) = pl_s (dcallid ex_d2) /\
  exists t3 t2, rtag ex_d3 = Some t3 /\ rtag ex_d2 = Some t2 /\ pl_s t3 = pl_s (ltag ex_d2) /\ pl_s t2 = pl_s (ltag ex_d3).
Proof.
  destruct (dialog_handshake Sa.ex_pton ex_ntop ex_str ex_at ltac:(reflexivity) ltac:(intros ?; discriminate)
    (ex_news 3000) ex_mb 17 5 34 (c_str "sip:bob@b.org") (c_str "sip:bob@b.org") (c_str "sip:alice@a.org") None [] ex_d1
    (ex_news 3100) ex_mb 9 ex_invite (ex_contact ex_invite) (ex_routes ex_invite true) ex_d2
    (ex_news 3200) ex_mb ex_answer (ex_contact ex_answer) (ex_routes ex_answer false) ex_d3
    (ex_news_pos 3000 ltac:(lia)) ex_mb_ok (ex_news_pos 3100 ltac:(lia)) ex_mb_ok (ex_news_pos 3200 ltac:(lia)) ex_mb_ok
    ex_alloc (proj1 ex_lengths) ex_accept (proj1 ex_contacts) (proj1 ex_values) (proj1 (proj2 ex_lengths))
    (proj1 ex_ids) (proj1 (proj2 ex_ids)) ex_create eq_refl (proj2 ex_contacts) (proj2 ex_values) (proj2 (proj2 ex_lengths))
    (proj2 (proj2 ex_ids))) as (H1&H2&_).
  exact (conj H1 H2).
Defined.

Lemma ex_answer_table : table_ok ex_answer.
Proof. vm_compute. split; reflexivity. Qed.

Lemma ex_d1_ok : holds_text (dmb ex_d1) (snd (dmb ex_d1)) /\ 0 <= cpos ex_d1 <= Print.len (snd (dmb ex_d1)) /\
  forall vs, record_route_values ex_answer (SipMsg.req ex_answer) = Some vs ->
    Print.len (concat (map route_line vs) ++ peer_fields ex_answer (snd (dmb ex_d1)) (cpos ex_d1)) <= Mem.SIZE_MAX.
Proof.
  split; [|split].
  - vm_compute. repeat split; discriminate.
  - vm_compute. split; discriminate.
  - change (SipMsg.req ex_answer) with false. rewrite (proj2 ex_values). intros vs [= <-]. vm_compute. discriminate.
Qed.

Lemma dialog_all_or_nothing_witness : exists err d',
  sip_dialog_create Sa.ex_pton ex_ntop ex_str ex_at (ex_news 3200) ex_mb ex_d1 ex_answer = Some (err, d') /\ (err <> 0 -> d' = ex_d1).
Proof.
  destruct (dialog_all_or_nothing Sa.ex_pton ex_ntop ex_str ex_at ltac:(reflexivity) ltac:(intros ?; discriminate)
    (ex_news 3200) ex_mb ex_d1 (snd (dmb ex_d1)) ex_answer 7000
    (ex_news_pos 3200 ltac:(lia)) ex_mb_ok ltac:(lia) ex_answer_table (proj1 ex_d1_ok) (proj1 (proj2 ex_d1_ok))
    (proj2 (proj2 ex_d1_ok))) as (contact&vs&_&_&(err&d'&E&_&Hf&_)&_).
  exact (ex_intro _ err (ex_intro _ d' (conj E Hf))).
Defined.

Lemma ex_bye_size : Print.len [] + Print.len (snd (dmb ex_d3) ++ c_str "Call-ID: " ++ pl_s (dcallid ex_d3) ++ c_str "\r\n" ++
    c_str "CSeq: " ++ digits (if bool_decide (c_str "BYE" = c_str "ACK") then 7 else lseq ex_d3) ++ c_str " " ++ c_str "BYE" ++ c_str "\r\n") <= Mem.SIZE_MAX.
Proof. vm_compute. discriminate. Qed.
Lemma ex_d3_ok : holds_text (dmb ex_d3) (snd (dmb ex_d3)).
Proof. vm_compute. repeat split; discriminate. Qed.

Lemma dialog_cseq_order_witness : fst (receive ex_d2 ([ex_invite] ++ [ex_answer])) = [ex_invite].
Proof.
  destruct (dialog_cseq_order ex_ntop ex_str (0, []) [] ex_d3 (snd (dmb ex_d3)) 7 (c_str "BYE") [] ex_invite []
    (ex_mb_ok _ eq_refl) ex_d3_ok ex_bye_size) as [(err&mb'&d'&_) _].
  destruct (dialog_cseq_order ex_ntop ex_str (0, []) [] ex_d2 (snd (dmb ex_d2)) 7 (c_str "BYE") [ex_invite] ex_answer [])
    as (_&_&H).
  - exact (ex_mb_ok _ eq_refl).
  - vm_compute. repeat split; discriminate.
  - vm_compute. discriminate.
  - exact H.
Defined.

(** A Contact that starts with a colon is accepted and its scheme is found after it, so
    that the update does not know the route as that of the target: the old target is freed
    and the route still points into its block, at 3101. *)
Definition ex_colon : sip_msg := Eval vm_compute in ex_decode 1000 51 (ex_lines
  ["INVITE sip:bob@b.org SIP/2.0"; "Via: SIP/2.0/UDP 1.2.3.4:5060;branch=z9hG4bK1"; "To: <sip:bob@b.org>";
   "From: <sip:alice@a.org>;tag=0000000000000011"; "Call-ID: 0000000000000022"; "CSeq: 5 INVITE";
   "Contact: <:sip:alice@1.2.3.4>"]%string).

Example update_leaves_route :
  match sip_dialog_accept Sa.ex_pton ex_ntop ex_str ex_at (ex_news 3100) ex_mb 9 ex_colon with
  | Some (_, Some d) =>
      match sip_dialog_update Sa.ex_pton 8000 d ex_invite with
      | Some (err, d') => err = 0 /\ pl_p (duri d) = 3101 /\ pl_p (duri d') = 8000 /\ 3101 < pl_p (host (route d')) < 3120
      | None => False
      end
  | _ => False
  end.
Proof. vm_compute. repeat split; reflexivity. Qed.

End Dialog.
