(* ===== verification/SipTransp.v ===== *)
(** * SIP transports: the lookups of src/libre/src/sip/transp.c

    The transports of a stack in their order, the choice of one for a family of
    addresses, and the names and ports of the kinds of transports. *)
From S2P Require Import Prelude Mem Sa.
Import Sa.

Module SipTransp.

(** [enum sip_transp] *)
Definition SIP_TRANSP_NONE : Z := -1.
Definition SIP_TRANSP_UDP : Z := 0.
Definition SIP_TRANSP_TCP : Z := 1.
Definition SIP_TRANSP_TLS : Z := 2.
Definition SIP_TRANSPC : Z := 3.

Definition SIP_PORT : Z := 5060.
Definition SIP_PORT_TLS : Z := 5061.
Definition EPROTONOSUPPORT : Z := 93.

(** A transport: its kind, its local address, its socket, and if it has a TLS context. *)
Record sip_transport := mk_transport { tr_tp : Z; laddr : sa; tr_sock : Z; tr_tls : bool }.

Definition transp_find (transpl : list sip_transport) (tp af : Z) : option sip_transport :=
  List.find (fun t => (tr_tp t =? tp) && ((af =? AF_UNSPEC) || (sa_af (laddr t) =? af))) transpl.

Definition sip_transp_supported (transpl : list sip_transport) (tp af : Z) : bool :=
  match transp_find transpl tp af with Some _ => true | None => false end.

Definition sip_transp_laddr (transpl : list sip_transport) (tp : Z) (dst : sa) : Z * option sa :=
  match transp_find transpl tp (sa_af dst) with
  | None => (EPROTONOSUPPORT, None)
  | Some t => (0, Some (laddr t))
  end.

(** The transports are other objects than [la]. *)
Definition sip_transp_isladdr (transpl : list sip_transport) (tp : Z) (la : sa) : bool :=
  existsb (fun t => ((tp =? SIP_TRANSP_NONE) || (tr_tp t =? tp)) && sa_cmp false (laddr t) la SA_ALL) transpl.

Definition sip_transp_name (tp : Z) : list Z :=
  if tp =? SIP_TRANSP_UDP then c_str "UDP"
  else if tp =? SIP_TRANSP_TCP then c_str "TCP"
  else if tp =? SIP_TRANSP_TLS then c_str "TLS" else c_str "???".

Definition sip_transp_srvid (tp : Z) : list Z :=
  if tp =? SIP_TRANSP_UDP then c_str "_sip._udp"
  else if tp =? SIP_TRANSP_TCP then c_str "_sip._tcp"
  else if tp =? SIP_TRANSP_TLS then c_str "_sips._tcp" else c_str "???".

Definition sip_transp_param (tp : Z) : list Z :=
  if tp =? SIP_TRANSP_UDP then []
  else if tp =? SIP_TRANSP_TCP then c_str ";transport=tcp"
  else if tp =? SIP_TRANSP_TLS then c_str ";transport=tls" else [].

Definition sip_transp_reliable (tp : Z) : bool :=
  if tp =? SIP_TRANSP_UDP then false
  else if tp =? SIP_TRANSP_TCP then true
  else if tp =? SIP_TRANSP_TLS then true else false.

Definition sip_transp_port (tp port : Z) : Z :=
  if negb (port =? 0) then port
  else if tp =? SIP_TRANSP_UDP then SIP_PORT
  else if tp =? SIP_TRANSP_TCP then SIP_PORT
  else if tp =? SIP_TRANSP_TLS then SIP_PORT_TLS else 0.

(** ** What is found *)

Lemma transp_find_some l tp af t : transp_find l tp af = Some t ->
  t ∈ l /\ tr_tp t = tp /\ (af = AF_UNSPEC \/ sa_af (laddr t) = af).
Proof.
  intros [Hin Hp]%find_some. apply list_elem_of_In in Hin.
  apply andb_true_iff in Hp as [->%Z.eqb_eq Hp]. apply orb_true_iff in Hp as [Hp%Z.eqb_eq|Hp%Z.eqb_eq]; auto.
Qed.

Lemma supported_iff l tp af : sip_transp_supported l tp af = true <->
  exists t, t ∈ l /\ tr_tp t = tp /\ (af = AF_UNSPEC \/ sa_af (laddr t) = af).
Proof.
  unfold sip_transp_supported. split.
  - destruct (transp_find l tp af) as [t|] eqn:E; [|done]. intros _. exists t. by apply transp_find_some.
  - intros (t&Hin&Ht&Ha). destruct (transp_find l tp af) eqn:E; [done|].
    apply list_elem_of_In, (find_none _ _ E) in Hin. apply not_true_iff_false in Hin. exfalso. apply Hin.
    rewrite (proj2 (Z.eqb_eq _ _) Ht). simpl. apply orb_true_iff. rewrite !Z.eqb_eq. tauto.
Qed.

(** A transport for a family of addresses is one for any. *)
Lemma supported_unspec l tp af : sip_transp_supported l tp af = true -> sip_transp_supported l tp AF_UNSPEC = true.
Proof. rewrite !supported_iff. intros (t&?&?&_). exists t. auto. Qed.

End SipTransp.
