(* ===== verification/SipConn.v ===== *)
(** * Connections of the SIP transport: src/libre/src/sip/transp.c, sip/keepalive.c

    The connections of a stack over TCP and TLS: queueing until they are established,
    cutting the stream into messages, idle and keepalive timers, closing.  The results of
    sockets, of allocations and of the random numbers come from the environment in the
    order of the calls; what is sent and called is logged.  The hash table of connections
    is the list of those in it, in the order they were added, since equal addresses are in
    one bucket.  The handlers called are taken not to close connections or to cancel what
    waits on the one at hand.  Messages are handed on by
    their text; local addresses are left out. *)
From stdpp Require Import base list gmap.
From S2P Require Import Prelude Mem Sa SipTransp.
Import Sa SipTransp.

Module SipConn.

Definition TCP_ACCEPT_TIMEOUT : Z := 32.
Definition TCP_IDLE_TIMEOUT : Z := 900.
Definition TCP_KEEPALIVE_TIMEOUT : Z := 10.
Definition TCP_KEEPALIVE_INTVAL : Z := 120.
Definition TCP_BUFSIZE_MAX : Z := 65536.
Definition ENOTCONN : Z := 107.
Definition ECONNABORTED : Z := 103.

(** A buffer: its text up to the end, and its position. *)
Record cbuf := mk_cbuf { c_text : list Z; c_pos : Z }.
Definition left (b : cbuf) : list Z := drop (Z.to_nat (c_pos b)) (c_text b).
Definition advance (b : cbuf) (k : Z) : cbuf := mk_cbuf (c_text b) (c_pos b + k).

(** A queued message; [q_slot]: the pointer of its sender to it, [q_h]: whether it has a
    handler of its own. *)
Record connqent := mk_qent { q_id : Z; q_mb : list Z; q_slot : option Z; q_h : bool }.
Record keepalive := mk_ka { ka_id : Z; ka_slot : Z }.

Record conn := mk_conn { c_id : Z; ql : list connqent; kal : list keepalive; tmr : option Z; tmr_ka : option Z;
  paddr : sa; sc : bool; tc : bool; mb : option cbuf; ka_interval : Z; established : bool }.

Inductive action :=
| Sent (c : Z) (text : list Z)            (* tcp_send *)
| SentUdp (sock : Z) (dst : sa) (text : list Z)
| Received (c : Z) (tp : Z) (text : list Z)  (* a message handed to sip_recv *)
| Queued (q : Z)
| Flushed (q : Z)                         (* sent when the connection was established *)
| Failed (q : Z) (err : Z)                (* the handler of a queued message *)
| Canceled (q : Z)
| Freed (q : Z)                           (* with its connection, untold *)
| Kept (k : Z) (err : Z)                  (* the handler of a keepalive *)
| Closed (c : Z) (err : Z)
| Rejected.

(** [slots], [kslots]: the pointers that the users keep to what they queued and started. *)
Record world := mk_world { conns : list conn; slots : gmap Z Z; kslots : gmap Z Z; log : list action; results : list Z; allocs : list bool;
  rands : list Z; next : Z; calls : nat }.

Definition set_ql (c : conn) x := mk_conn (c_id c) x (kal c) (tmr c) (tmr_ka c) (paddr c) (sc c) (tc c) (mb c) (ka_interval c) (established c).
Definition set_kal (c : conn) x := mk_conn (c_id c) (ql c) x (tmr c) (tmr_ka c) (paddr c) (sc c) (tc c) (mb c) (ka_interval c) (established c).
Definition set_tmr (c : conn) x := mk_conn (c_id c) (ql c) (kal c) x (tmr_ka c) (paddr c) (sc c) (tc c) (mb c) (ka_interval c) (established c).
Definition set_tmr_ka (c : conn) x := mk_conn (c_id c) (ql c) (kal c) (tmr c) x (paddr c) (sc c) (tc c) (mb c) (ka_interval c) (established c).
Definition set_mb (c : conn) x := mk_conn (c_id c) (ql c) (kal c) (tmr c) (tmr_ka c) (paddr c) (sc c) (tc c) x (ka_interval c) (established c).
Definition set_interval (c : conn) x := mk_conn (c_id c) (ql c) (kal c) (tmr c) (tmr_ka c) (paddr c) (sc c) (tc c) (mb c) x (established c).
Definition set_established (c : conn) := mk_conn (c_id c) (ql c) (kal c) (tmr c) (tmr_ka c) (paddr c) (sc c) (tc c) (mb c) (ka_interval c) true.
Definition set_sc (c : conn) := mk_conn (c_id c) (ql c) (kal c) (tmr c) (tmr_ka c) (paddr c) true (tc c) (mb c) (ka_interval c) (established c).

Definition set_conns (w : world) x := mk_world x (slots w) (kslots w) (log w) (results w) (allocs w) (rands w) (next w) (calls w).
Definition set_slots (w : world) x := mk_world (conns w) x (kslots w) (log w) (results w) (allocs w) (rands w) (next w) (calls w).
Definition set_kslots (w : world) x := mk_world (conns w) (slots w) x (log w) (results w) (allocs w) (rands w) (next w) (calls w).
Definition act (w : world) (a : action) := mk_world (conns w) (slots w) (kslots w) (log w ++ [a]) (results w) (allocs w) (rands w) (next w) (calls w).

(** The environment's next answers; when it has none left, calls succeed. *)
Definition result (w : world) : Z * world :=
  (hd 0 (results w), mk_world (conns w) (slots w) (kslots w) (log w) (tail (results w)) (allocs w) (rands w) (next w) (calls w)).
Definition alloc (w : world) : bool * world :=
  (hd true (allocs w), mk_world (conns w) (slots w) (kslots w) (log w) (results w) (tail (allocs w)) (rands w) (next w) (calls w)).
Definition rand_u16 (w : world) : Z * world :=
  (u16 (hd 0 (rands w)), mk_world (conns w) (slots w) (kslots w) (log w) (results w) (allocs w) (tail (rands w)) (next w) (calls w)).
Definition fresh (w : world) : Z * world :=
  (next w, mk_world (conns w) (slots w) (kslots w) (log w) (results w) (allocs w) (rands w) (next w + 1) (calls w)).
Definition called (w : world) : world :=
  mk_world (conns w) (slots w) (kslots w) (log w) (results w) (allocs w) (rands w) (next w) (S (calls w)).

(** Sending on a connection. *)
Definition tcp_send (c : Z) (text : list Z) (w : world) : Z * world :=
  let '(err, w) := result w in (err, if err =? 0 then act w (Sent c text) else w).

(** ** The table *)

Definition find_id (w : world) (i : Z) : option conn := List.find (fun c => c_id c =? i) (conns w).
(** Writes a connection of the table back. *)
Definition update (c : conn) (w : world) : world := set_conns w (map (fun d => if c_id d =? c_id c then c else d) (conns w)).
Definition hash_unlink (i : Z) (w : world) : world := set_conns w (List.filter (fun d => negb (c_id d =? i)) (conns w)).
Definition hash_append (c : conn) (w : world) : world := set_conns w (conns w ++ [c]).

Definition conn_find (w : world) (dst : sa) (secure : bool) : option conn :=
  List.find (fun c => Bool.eqb secure (sc c) && sa_cmp false (paddr c) dst SA_ALL) (conns w).

(** The pointer of the sender is cleared. *)
Definition clear_slot (s : option Z) (w : world) : world :=
  match s with Some s => set_slots w (delete s (slots w)) | None => w end.
Definition fill_slot (s : option Z) (x : Z) (w : world) : world :=
  match s with Some s => set_slots w (<[s := x]> (slots w)) | None => w end.

Definition clear_kslot (s : Z) (w : world) : world := set_kslots w (delete s (kslots w)).

(** ** Closing *)

Fixpoint fail_queue (q : list connqent) (err : Z) (w : world) : world :=
  match q with
  | [] => w
  | e :: q => fail_queue q err (act (clear_slot (q_slot e) w) (Failed (q_id e) err))
  end.

(** Each keepalive is freed, and its user's pointer cleared, before its handler is called. *)
Fixpoint sip_keepalive_signal (l : list keepalive) (err : Z) (w : world) : world :=
  match l with
  | [] => w
  | k :: l => sip_keepalive_signal l err (act (clear_kslot (ka_slot k) w) (Kept (ka_id k) err))
  end.

(** Nothing in the table refers to the connection any more; who else holds it finds it
    without a socket. *)
Definition conn_close (c : conn) (err : Z) (w : world) : world :=
  let w := act (hash_unlink (c_id c) w) (Closed (c_id c) err) in
  sip_keepalive_signal (kal c) err (fail_queue (ql c) err w).

(** Freeing a connection that was just made, or at the end: conn_destructor. *)
Fixpoint flush_queue (q : list connqent) (w : world) : world :=
  match q with [] => w | e :: q => flush_queue q (act (clear_slot (q_slot e) w) (Freed (q_id e))) end.
Fixpoint flush_kal (l : list keepalive) (w : world) : world :=
  match l with [] => w | k :: l => flush_kal l (clear_kslot (ka_slot k) w) end.
Definition conn_destructor (c : conn) (w : world) : world :=
  hash_unlink (c_id c) (flush_queue (ql c) (flush_kal (kal c) w)).

Definition conn_tmr_handler (c : conn) (w : world) : world := conn_close c ETIMEDOUT w.
Definition tcp_close_handler (c : conn) (err : Z) (w : world) : world :=
  conn_close c (if negb (err =? 0) then err else ECONNRESET) w.

(** ** Keepalives *)

Definition sip_keepalive_wait (interval : Z) (w : world) : Z * world :=
  let '(r, w) := rand_u16 w in (u32 (interval * (800 + r mod 201)), w).

Definition crlfcrlf : list Z := [13; 10; 13; 10].

Definition conn_keepalive_handler (c : conn) (w : world) : world :=
  let '(err, w) := tcp_send (c_id c) crlfcrlf w in
  if negb (err =? 0) then conn_close c err w
  else
    let c := set_tmr c (Some (TCP_KEEPALIVE_TIMEOUT * 1000)) in
    let '(t, w) := sip_keepalive_wait (ka_interval c) w in
    update (set_tmr_ka c (Some t)) w.

Definition sip_keepalive_tcp (k : keepalive) (c : conn) (interval : Z) (w : world) : Z * world :=
  if negb (tc c) || negb (established c) then (ENOTCONN, w)
  else
    let c := set_kal c (kal c ++ [k]) in
    match tmr_ka c with
    | Some _ => (0, update c w)
    | None =>
        let interval := Z.max (if negb (interval =? 0) then interval else TCP_KEEPALIVE_INTVAL) (TCP_KEEPALIVE_TIMEOUT * 2) in
        let c := set_interval c interval in
        let '(t, w) := sip_keepalive_wait interval w in
        (0, update (set_tmr_ka c (Some t)) w)
    end.

(** ** Sending *)

Definition new_conn (i : Z) (dst : sa) : conn :=
  mk_conn i [] [] None None dst false false None 0 false.

Definition set_tc (c : conn) := mk_conn (c_id c) (ql c) (kal c) (tmr c) (tmr_ka c) (paddr c) (sc c) true (mb c) (ka_interval c) (established c).

(** The label [out] of conn_send: a connection that was made for nothing is freed. *)
Definition out (fresh_conn : bool) (c : conn) (err : Z) (w : world) : Z * world :=
  (err, if fresh_conn then conn_destructor c w else w).

Definition enqueue (fresh_conn : bool) (c : conn) (slot : option Z) (text : list Z) (h : bool) (w : world) : Z * world :=
  let '(ok, w) := alloc w in
  if negb ok then out fresh_conn c ENOMEM w
  else
    let '(q, w) := fresh w in
    (0, act (fill_slot slot q (update (set_ql c (ql c ++ [mk_qent q text slot h])) w)) (Queued q)).

(** The TLS context of the stack for a family of addresses. *)
Definition tls_of (transpl : list sip_transport) (af : Z) : bool :=
  match transp_find transpl SIP_TRANSP_TLS af with Some t => tr_tls t | None => false end.

Definition conn_send (transpl : list sip_transport) (slot : option Z) (secure : bool) (dst : sa) (text : list Z) (h : bool)
    (w : world) : Z * world :=
  match conn_find w dst secure with
  | Some c => if negb (established c) then enqueue false c slot text h w else tcp_send (c_id c) text w
  | None =>
      let '(ok, w) := alloc w in
      if negb ok then (ENOMEM, w) else
      let '(i, w) := fresh w in
      let c := new_conn i dst in
      let w := hash_append c w in
      let '(err, w) := result w in           (* tcp_connect *)
      if negb (err =? 0) then out true c err w else
      let c := set_tc c in
      let '(err, w) := result w in           (* tcp_conn_local_get *)
      if negb (err =? 0) then out true c err w else
      if secure && negb (tls_of transpl (sa_af dst)) then out true c EPROTONOSUPPORT w else
      let '(err, w) := if secure then result w else (0, w) in   (* tls_start_tcp *)
      if negb (err =? 0) then out true c err w else
      let c := if secure then set_sc c else c in
      let c := set_tmr c (Some (TCP_IDLE_TIMEOUT * 1000)) in
      enqueue true c slot text h (update c w)
  end.

(** [sock]: the socket of a datagram or the connection of the message that is answered. *)
Definition sip_transp_send (transpl : list sip_transport) (slot : option Z) (sock : option Z) (tp : Z) (dst : sa) (text : list Z)
    (h : bool) (w : world) : Z * world :=
  if tp =? SIP_TRANSP_UDP then
    match (match sock with Some s => Some s | None => option_map tr_sock (transp_find transpl tp (sa_af dst)) end) with
    | None => (EPROTONOSUPPORT, w)
    | Some s => let '(err, w) := result w in (err, if err =? 0 then act w (SentUdp s dst text) else w)
    end
  else if (tp =? SIP_TRANSP_TCP) || (tp =? SIP_TRANSP_TLS) then
    match (match sock with Some i => find_id w i | None => None end) with
    | Some c => tcp_send (c_id c) text w
    | None => conn_send transpl slot (tp =? SIP_TRANSP_TLS) dst text h w
    end
  else (EPROTONOSUPPORT, w).

(** ** The connection is established, by the peer or to it *)

Fixpoint flush_out (c : Z) (q : list connqent) (w : world) : world :=
  match q with
  | [] => w
  | e :: q =>
      let w := clear_slot (q_slot e) w in
      let '(err, w) := tcp_send c (q_mb e) w in
      flush_out c q (act w (if negb (err =? 0) then Failed (q_id e) err else Flushed (q_id e)))
  end.

Definition tcp_estab_handler (c : conn) (w : world) : world :=
  update (set_ql (set_established c) []) (flush_out (c_id c) (ql c) w).

Definition tcp_connect_handler (tls : bool) (peer : sa) (w : world) : world :=
  let '(ok, w) := alloc w in
  if negb ok then act w Rejected else
  let '(i, w) := fresh w in
  let c := new_conn i peer in
  let w := hash_append c w in
  let reject c w := conn_destructor c (act w Rejected) in
  let '(err, w) := result w in               (* tcp_accept *)
  if negb (err =? 0) then reject c w else
  let c := set_tc c in
  let '(err, w) := result w in               (* tcp_conn_local_get *)
  if negb (err =? 0) then reject c w else
  let '(err, w) := if tls then result w else (0, w) in   (* tls_start_tcp *)
  if negb (err =? 0) then reject c w else
  let c := if tls then set_sc c else c in
  update (set_tmr c (Some (TCP_ACCEPT_TIMEOUT * 1000))) w.

(** ** What the users give up *)

Definition cancel_queued (slot : Z) (w : world) : world :=
  match slots w !! slot with
  | None => w
  | Some q => act (clear_slot (Some slot) (set_conns w (map (fun c => set_ql c (List.filter (fun e => negb (q_id e =? q)) (ql c))) (conns w)))) (Canceled q)
  end.

Definition cancel_keepalive (slot : Z) (w : world) : world :=
  match kslots w !! slot with
  | None => w
  | Some k => clear_kslot slot (set_conns w (map (fun c => set_kal c (List.filter (fun e => negb (ka_id e =? k)) (kal c))) (conns w)))
  end.

(** For a message that came over a connection. *)
Definition sip_keepalive_start (slot : Z) (sock interval : Z) (w : world) : Z * world :=
  let '(ok, w) := alloc w in
  if negb ok then (ENOMEM, w) else
  let '(i, w) := fresh w in
  match find_id w sock with
  | None => (ENOTCONN, w)
  | Some c =>
      let '(err, w) := sip_keepalive_tcp (mk_ka i slot) c interval w in
      (err, if err =? 0 then set_kslots w (<[slot := i]> (kslots w)) else w)
  end.

Definition sip_transp_flush (w : world) : world := fold_left (fun w c => conn_destructor c w) (conns w) w.

(** ** Receiving *)

(** What the decoder makes of a text: an error, or how many characters the header has and
    the length that it gives for the body. *)
Inductive decoded := Bad (err : Z) | Header (used : Z) (clen : option Z).

Section Receive.
(** The answers of the decoder, call by call. *)
Context (decode : nat -> list Z -> decoded).

Definition crlf (t : list Z) : bool := bool_decide (take 2 t = [13; 10]).
Definition idle (c : conn) : conn := set_tmr c (Some (TCP_IDLE_TIMEOUT * 1000)).
Definition tp_of (c : conn) : Z := if sc c then SIP_TRANSP_TLS else SIP_TRANSP_TCP.

(** The loop of tcp_recv_handler on the buffer [b]; every turn takes characters out of it. *)
Fixpoint recv_loop (fuel : nat) (c : conn) (b : cbuf) (w : world) : option (Z * conn * world) :=
  match fuel with
  | O => None
  | S fuel =>
      let t := left b in
      if Z.of_nat (length t) <? 2 then Some (0, set_mb c (Some b), w)
      else if crlf t then
        let c := idle c in
        let b := advance b 2 in
        let ping := (2 <=? Z.of_nat (length (left b))) && crlf (left b) in
        let b := if ping then advance b 2 else b in
        let '(err, w) := if ping then tcp_send (c_id c) [13; 10] w else (0, w) in
        if negb (err =? 0) then Some (err, set_mb c (Some b), w)
        else if negb (Z.of_nat (length (left b)) =? 0) then recv_loop fuel c b w
        else Some (0, set_mb c None, w)
      else
        let d := decode (calls w) t in
        let w := called w in
        match d with
        | Bad err => Some (if err =? ENODATA then 0 else err, set_mb c (Some b), w)
        | Header used clen =>
            let b1 := advance b used in
            match clen with
            | None => Some (EBADMSG, set_mb c (Some b1), w)
            | Some clen =>
                if Z.of_nat (length (left b1)) <? clen then Some (0, set_mb c (Some b), w)
                else
                  let c := idle c in
                  let w := act w (Received (c_id c) (tp_of c) (take (Z.to_nat (used + clen)) t)) in
                  let rest := drop (Z.to_nat clen) (left b1) in
                  if Z.of_nat (length rest) =? 0 then Some (0, set_mb c None, w)
                  else
                    let '(ok, w) := alloc w in
                    if negb ok then Some (ENOMEM, set_mb c (Some b1), w)
                    else recv_loop fuel c (mk_cbuf rest 0) w
            end
        end
  end.

(** An error ends the connection. *)
Definition recv_end (r : Z * conn * world) : world :=
  let '(err, c, w) := r in if negb (err =? 0) then conn_close c err w else update c w.

Definition tcp_recv_handler (c : conn) (chunk : list Z) (w : world) : option world :=
  match mb c with
  | Some b =>
      let '(ok, w) := alloc w in
      if negb ok then Some (recv_end (ENOMEM, c, w))
      else
        let b := mk_cbuf (c_text b ++ chunk) (c_pos b) in
        if TCP_BUFSIZE_MAX <? Z.of_nat (length (left b)) then Some (recv_end (EOVERFLOW, set_mb c (Some b), w))
        else r ← recv_loop (S (length (left b))) c b w; Some (recv_end r)
  | None => r ← recv_loop (S (length chunk)) c (mk_cbuf chunk 0) w; Some (recv_end r)
  end.

End Receive.

(** ** Listeners *)

Record lsnr := mk_lsnr { ls_req : bool; ls_id : Z }.
Inductive outcome := Taken (l : Z) | Reply (scode : Z) (reason : list Z) | Dropped.

(** [takes]: whether a listener's handler takes the message. *)
Fixpoint lsnr_loop (takes : Z -> bool) (req : bool) (l : list lsnr) : option Z :=
  match l with
  | [] => None
  | x :: l => if negb (Bool.eqb req (ls_req x)) then lsnr_loop takes req l
              else if takes (ls_id x) then Some (ls_id x) else lsnr_loop takes req l
  end.

Definition sip_recv (takes : Z -> bool) (l : list lsnr) (req : bool) (met : list Z) : outcome :=
  match lsnr_loop takes req l with
  | Some i => Taken i
  | None =>
      if req then
        if bool_decide (met = c_str "CANCEL") then Reply 481 (c_str "Transaction Does Not Exist")
        else Reply 501 (c_str "Not Implemented")
      else Dropped
  end.

(** ** Streams

    A stream is a sequence of pieces: empty lines and messages.  A message has a header
    that the decoder takes out of any text beginning with it, and asks for more on a part
    of. *)

Section Stream.
Context (decode : nat -> list Z -> decoded) (most : Z).

Record framed (h body : list Z) : Prop := {
  fr_head : 2 <= Z.of_nat (length h) /\ hd_error h <> Some 13;
  fr_size : Z.of_nat (length (h ++ body)) <= most;
  fr_all : forall k x, Z.of_nat (length (h ++ x)) <= TCP_BUFSIZE_MAX -> decode k (h ++ x) = Header (Z.of_nat (length h)) (Some (Z.of_nat (length body)));
  fr_part : forall k t u, h = t ++ u -> u <> [] -> 2 <= Z.of_nat (length t) -> decode k t = Bad ENODATA }.

Inductive piece := Crlf | Msg (h body : list Z).
Definition text_of (p : piece) : list Z := match p with Crlf => [13; 10] | Msg h body => h ++ body end.
Definition piece_ok (p : piece) : Prop := match p with Crlf => True | Msg h body => framed h body end.
Definition stream (ps : list piece) : list Z := concat (map text_of ps).
Definition messages (ps : list piece) : list (list Z) := omap (fun p => match p with Crlf => None | Msg h body => Some (h ++ body) end) ps.

Definition received (w : world) : list (list Z) := omap (fun a => match a with Received _ _ t => Some t | _ => None end) (log w).
Definition pending (c : conn) : list Z := match mb c with Some b => left b | None => [] end.

(** The position is inside the buffer. *)
Definition pos_ok (b : cbuf) : Prop := 0 <= c_pos b <= Z.of_nat (length (c_text b)).
Definition pos_fine (c : conn) : Prop := match mb c with Some b => pos_ok b | None => True end.

Lemma left_length b : pos_ok b -> Z.of_nat (length (left b)) = Z.of_nat (length (c_text b)) - c_pos b.
Proof. unfold pos_ok, left. intros Hb. rewrite length_drop. lia. Qed.

Lemma advance_ok b k : pos_ok b -> 0 <= k <= Z.of_nat (length (left b)) -> pos_ok (advance b k).
Proof. intros Hb Hk. pose proof (left_length b Hb). unfold pos_ok in *. cbn. lia. Qed.

(** What is left is the beginning of a piece. *)
Definition unfinished (t : list Z) (ps : list piece) : Prop :=
  match ps with [] => True | p :: _ => (length t < length (text_of p))%nat end.

Lemma piece_length p : piece_ok p -> (2 <= length (text_of p))%nat.
Proof. destruct p as [|h body]; [simpl; lia|]. intros [[Hh _] _ _ _]. cbn. rewrite length_app. lia. Qed.

Lemma unfinished_short t ps : Forall piece_ok ps -> (length t < 2)%nat -> unfinished t ps.
Proof. intros Ho Ht. destruct ps as [|p ps]; [done|]. apply Forall_cons in Ho as [Ho _]. pose proof (piece_length p Ho). cbn. lia. Qed.

Lemma piece_first p ps t r : Forall piece_ok (p :: ps) -> t ++ r = stream (p :: ps) -> (2 <= length t)%nat ->
  crlf t = match p with Crlf => true | Msg _ _ => false end.
Proof.
  intros Ho E Ht. destruct t as [|x [|y t]]; try (simpl in Ht; lia). unfold crlf. cbn [take].
  apply Forall_cons in Ho as [Ho _]. destruct p as [|h body].
  - injection E as -> ->. done.
  - destruct Ho as [[Hh Hne] _ _ _]. destruct h as [|a h]; [simpl in Hh; lia|]. cbn in E. injection E as -> _.
    apply bool_decide_eq_false. intros [= -> _]. by apply Hne.
Qed.

Lemma received_act w a : received (act w a) = received w ++ match a with Received _ _ t => [t] | _ => [] end.
Proof. unfold received. cbn [log act]. rewrite omap_app. by destruct a. Qed.

(** What a quiet environment leaves as it is. *)
Record same (c : conn) (w : world) (c' : conn) (w' : world) : Prop := {
  sm_conns : conns w' = conns w; sm_results : results w' = []; sm_allocs : allocs w' = []; sm_id : c_id c' = c_id c }.

Lemma left_advance b k : 0 <= c_pos b -> 0 <= k -> left (advance b k) = drop (Z.to_nat k) (left b).
Proof. intros Hb Hk. unfold left. cbn [advance c_pos c_text]. rewrite drop_drop. f_equal. lia. Qed.

(** The result of the loop on a text of which [r] is still to come. *)
Definition cut (ps : list piece) (r : list Z) (c : conn) (w : world) (res : option (Z * conn * world)) : Prop :=
  exists c' w' ps1 ps2, res = Some (0, c', w') /\ ps = ps1 ++ ps2 /\ pending c' ++ r = stream ps2 /\
    unfinished (pending c') ps2 /\ received w' = received w ++ messages ps1 /\ same c w c' w' /\
    pos_fine c'.

Lemma cut_stop ps r c b w c' w' : pending c' = left b -> pos_fine c' ->
  left b ++ r = stream ps -> unfinished (left b) ps ->
  received w' = received w -> same c w c' w' -> cut ps r c w (Some (0, c', w')).
Proof. intros Ep Hp Er Hu Em Hs. exists c', w', [], ps. rewrite Ep. split_and!; try done. by rewrite app_nil_r. Qed.

Lemma cut_more p ps r c w c1 w1 res : cut ps r c1 w1 res -> received w1 = received w ++ messages p -> same c w c1 w1 ->
  cut (p ++ ps) r c w res.
Proof.
  intros (c'&w'&ps1&ps2&->&->&Ep&Hu&Em&Hs&Hp) E1 [H1 H2 H3 H4]. exists c', w', (p ++ ps1), ps2.
  split_and!; try done; [by rewrite app_assoc| |].
  - rewrite Em, E1, <- app_assoc. f_equal. unfold messages. by rewrite omap_app.
  - destruct Hs as [S1 S2 S3 S4]. constructor; congruence.
Qed.

Lemma send_quiet c t w : results w = [] -> tcp_send c t w = (0, act (mk_world (conns w) (slots w) (kslots w) (log w) [] (allocs w) (rands w) (next w) (calls w)) (Sent c t)).
Proof. intros E. unfold tcp_send, result. rewrite E. done. Qed.

Lemma strip {A} (a t r b : list A) : t ++ r = a ++ b -> (length a <= length t)%nat -> exists x, t = a ++ x /\ x ++ r = b.
Proof.
  intros E Hl. exists (drop (length a) t). assert (take (length a) t = a) as Ea.
  { rewrite <- (take_app_le t r) by done. rewrite E. apply take_app_length. }
  split; [by rewrite <- Ea at 1; rewrite take_drop|]. apply (app_inv_head a). rewrite <- E, app_assoc. f_equal.
  rewrite <- (take_drop (length a) t) at 2. by rewrite Ea.
Qed.

Lemma loop_cut fuel : forall ps c b w r, left b ++ r = stream ps -> Forall piece_ok ps -> (length (left b) < fuel)%nat ->
  Z.of_nat (length (left b)) <= TCP_BUFSIZE_MAX -> pos_ok b -> results w = [] -> allocs w = [] ->
  cut ps r c w (recv_loop decode fuel c b w).
Proof.
  induction fuel as [|fuel IH]; intros ps c b w r E Ho Hf Hm Hb Hw Ha; [lia|]. pose proof (proj1 Hb) as Hb0. cbn [recv_loop].
  destruct (Z.ltb_spec (Z.of_nat (length (left b))) 2) as [Hs|Hs].
  { eapply cut_stop; [reflexivity|done|done|apply unfinished_short; [done|lia]|done|done]. }
  destruct ps as [|p ps].
  { apply (f_equal length) in E. rewrite length_app in E. simpl in E. lia. }
  rewrite (piece_first p ps (left b) r Ho E) by lia. pose proof Ho as Ho'. apply Forall_cons in Ho' as [Hp Hps].
  destruct p as [|h body].
  - change (stream (Crlf :: ps)) with ([13; 10] ++ stream ps) in E.
    destruct (strip [13; 10] (left b) r (stream ps) E) as (x&Ex&Er); [simpl; lia|].
    assert (left (advance b 2) = x) as El by (rewrite left_advance, Ex by lia; done). rewrite El.
    assert (length (left b) = S (S (length x))) as Hlx by by rewrite Ex.
    destruct ((2 <=? Z.of_nat (length x)) && crlf x) eqn:Eping.
    + (* two empty lines, which are answered *)
      apply andb_true_iff in Eping as [H2%Z.leb_le Ec]. rewrite (send_quiet _ _ _ Hw). cbn match. cbn [negb Z.eqb].
      destruct ps as [|p ps]. { apply (f_equal length) in Er. rewrite length_app in Er. simpl in Er. lia. }
      pose proof (piece_first p ps x r Hps Er ltac:(lia)) as Ef. rewrite Ec in Ef. destruct p; [|done].
      change (stream (Crlf :: ps)) with ([13; 10] ++ stream ps) in Er. apply Forall_cons in Hps as [_ Hps].
      destruct (strip [13; 10] x r (stream ps) Er) as (y&Ey&Er'); [simpl; lia|].
      assert (left (advance (advance b 2) 2) = y) as El2 by (rewrite left_advance, El, Ey by (cbn; lia); done). rewrite El2.
      set (w1 := act _ _). assert (received w1 = received w ++ messages [Crlf; Crlf]) as Em by (unfold w1; rewrite received_act; done).
      assert (same c w (idle c) w1) as Hsm by done.
      change (Crlf :: Crlf :: ps) with ([Crlf; Crlf] ++ ps).
      destruct (Z.eqb_spec (Z.of_nat (length y)) 0) as [Hy|Hy]; cbn [negb].
      * destruct y; [|simpl in Hy; lia]. eapply cut_more; [|exact Em|exact Hsm].
        eapply (cut_stop _ _ _ (mk_cbuf [] 0)); [reflexivity|done|exact Er'|by apply unfinished_short; [|simpl; lia]|done|done].
      * eapply cut_more; [|exact Em|exact Hsm]. rewrite Ey in Hlx. cbn [length app] in Hlx.
        apply IH; rewrite ?El2; try done; try lia. by apply advance_ok; [apply advance_ok; [done|lia]|rewrite El; lia].
    + cbn match. cbn [negb Z.eqb]. rewrite El. change (Crlf :: ps) with ([Crlf] ++ ps).
      destruct (Z.eqb_spec (Z.of_nat (length x)) 0) as [Hx|Hx]; cbn [negb].
      * destruct x; [|simpl in Hx; lia]. eapply (cut_more _ _ _ _ _ (idle c) w); [|by rewrite app_nil_r|done].
        eapply (cut_stop _ _ _ (mk_cbuf [] 0)); [reflexivity|done|exact Er|by apply unfinished_short; [|simpl; lia]|done|done].
      * eapply (cut_more _ _ _ _ _ (idle c) w); [|by rewrite app_nil_r|done]. apply IH; rewrite ?El; try done; try lia. apply advance_ok; [done|lia].
  - change (stream (Msg h body :: ps)) with ((h ++ body) ++ stream ps) in E. rewrite <- app_assoc in E.
    destruct Hp as [[Hh _] _ Hall Hpart]. set (t := left b) in *.
    destruct (Nat.lt_ge_cases (length t) (length h)) as [Hlt|Hge].
    + destruct (strip t h (body ++ stream ps) r (eq_sym E)) as (u&Eu&_); [lia|].
      rewrite (Hpart (calls w) t u Eu) by (try lia; intros ->; rewrite app_nil_r in Eu; rewrite Eu in Hlt; lia).
      cbn match. rewrite Z.eqb_refl. eapply cut_stop; [reflexivity|done|change (stream (Msg h body :: ps)) with ((h ++ body) ++ stream ps); by rewrite <- app_assoc| |done|done].
      cbn. rewrite length_app. fold t. lia.
    + destruct (strip h t r (body ++ stream ps) E Hge) as (x&Ex&Er). rewrite Ex, Hall by (rewrite <- Ex; done). cbn match.
      assert (left (advance b (Z.of_nat (length h))) = x) as El by (rewrite left_advance by lia; fold t; rewrite Ex, Nat2Z.id; apply drop_app_length).
      rewrite El. destruct (Z.ltb_spec (Z.of_nat (length x)) (Z.of_nat (length body))) as [Hlt|Hge'].
      * eapply (cut_stop _ _ _ b); [reflexivity|done|fold t; rewrite Ex; change (stream (Msg h body :: ps)) with ((h ++ body) ++ stream ps); rewrite <- !app_assoc; by rewrite Er| |done|done].
        cbn. fold t. rewrite Ex, !length_app. lia.
      * destruct (strip body x r (stream ps) Er) as (y&Ey&Er'); [lia|]. rewrite Nat2Z.id.
        assert (drop (length body) x = y) as -> by (rewrite Ey; apply drop_app_length).
        assert (take (Z.to_nat (Z.of_nat (length h) + Z.of_nat (length body))) (h ++ x) = h ++ body) as ->.
        { rewrite Ey, app_assoc. apply take_app_length'. rewrite length_app. lia. }
        set (w1 := act _ _). change (Msg h body :: ps) with ([Msg h body] ++ ps).
        assert (received w1 = received w ++ messages [Msg h body]) as Em by (unfold w1; rewrite received_act; done).
        assert (same c w (idle c) w1) as Hsm by done.
        destruct (Z.eqb_spec (Z.of_nat (length y)) 0) as [Hy|Hy].
        -- destruct y; [|simpl in Hy; lia]. eapply cut_more; [|exact Em|exact Hsm].
           eapply (cut_stop _ _ _ (mk_cbuf [] 0)); [reflexivity|done|exact Er'|by apply unfinished_short; [|simpl; lia]|done|done].
        -- unfold alloc. change (allocs w1) with (allocs w). rewrite Ha. cbn [hd tail negb].
           match goal with |- cut _ _ _ _ (recv_loop _ _ _ _ ?x) => set (w2 := x) end.
           apply (cut_more [Msg h body] ps r c w (idle c) w2); [|exact Em|done].
           assert (length t = length h + (length body + length y))%nat as Hlen by by rewrite Ex, Ey, !length_app.
           apply IH; change (left (mk_cbuf y 0)) with y; try done; try lia. unfold pos_ok. cbn. lia.
Qed.

(** ** Chunks *)

(** The bytes that a connection receives, chunk by chunk. *)
Fixpoint recv_all (i : Z) (chunks : list (list Z)) (w : world) : option world :=
  match chunks with
  | [] => Some w
  | chunk :: chunks => match find_id w i with
                       | Some c => w ← tcp_recv_handler decode c chunk w; recv_all i chunks w
                       | None => None
                       end
  end.

Lemma find_update c c' w : find_id w (c_id c) = Some c -> c_id c' = c_id c -> find_id (update c' w) (c_id c) = Some c'.
Proof.
  unfold find_id, update. cbn [conns set_conns]. induction (conns w) as [|d l IH]; cbn [List.find map]; [done|].
  intros E Ei. rewrite Ei. destruct (Z.eqb_spec (c_id d) (c_id c)) as [Ed|Ed]; [by rewrite Ei, Z.eqb_refl|].
  rewrite (proj2 (Z.eqb_neq _ _) Ed). specialize (IH E Ei). by rewrite Ei in IH.
Qed.

Lemma find_id_id w i c : find_id w i = Some c -> c_id c = i.
Proof. unfold find_id. intros E. apply find_some in E as [_ E]. by apply Z.eqb_eq. Qed.

Lemma update_received c w : received (update c w) = received w.
Proof. done. Qed.

Lemma chunk_cut ps c chunk w r : (pending c ++ chunk) ++ r = stream ps -> Forall piece_ok ps ->
  Z.of_nat (length (pending c ++ chunk)) <= TCP_BUFSIZE_MAX -> pos_fine c ->
  results w = [] -> allocs w = [] -> find_id w (c_id c) = Some c ->
  exists c' w' ps1 ps2, tcp_recv_handler decode c chunk w = Some w' /\ ps = ps1 ++ ps2 /\ pending c' ++ r = stream ps2 /\
    unfinished (pending c') ps2 /\ received w' = received w ++ messages ps1 /\ find_id w' (c_id c) = Some c' /\
    results w' = [] /\ allocs w' = [] /\ pos_fine c'.
Proof.
  intros E Ho Hm Hp Hw Ha Hf.
  assert (forall b wx, left b = pending c ++ chunk -> pos_ok b -> conns wx = conns w -> results wx = [] -> allocs wx = [] -> received wx = received w ->
    exists c' w' ps1 ps2, (r0 ← recv_loop decode (S (length (left b))) c b wx; Some (recv_end r0)) = Some w' /\ ps = ps1 ++ ps2 /\
      pending c' ++ r = stream ps2 /\ unfinished (pending c') ps2 /\ received w' = received w ++ messages ps1 /\
      find_id w' (c_id c) = Some c' /\ results w' = [] /\ allocs w' = [] /\ pos_fine c') as Hgo.
  { intros b wx El Hb Hc Hwx Hax Hr. destruct (loop_cut (S (length (left b))) ps c b wx r) as (c'&w'&ps1&ps2&->&->&Ep&Hu&Em&[S1 S2 S3 S4]&Hpos);
      [by rewrite El|done|lia|by rewrite El|done|done|done|].
    exists c', (update c' w'), ps1, ps2. cbn [mbind option_bind recv_end negb Z.eqb]. split_and!; try done.
    - by rewrite update_received, Em, Hr.
    - apply find_update; [|done]. unfold find_id in *. by rewrite S1, Hc. }
  unfold tcp_recv_handler. unfold pending in *. destruct (mb c) as [b|] eqn:Eb.
  - unfold alloc. rewrite Ha. cbn [hd tail negb].
    unfold pos_fine in Hp. rewrite Eb in Hp. unfold pos_ok in Hp.
    assert (left (mk_cbuf (c_text b ++ chunk) (c_pos b)) = left b ++ chunk) as El by (unfold left; cbn [c_text c_pos]; apply drop_app_le; lia).
    rewrite El. destruct (Z.ltb_spec TCP_BUFSIZE_MAX (Z.of_nat (length (left b ++ chunk)))); [lia|]. rewrite <- El. apply Hgo; try done.
    unfold pos_ok. cbn [c_text c_pos]. rewrite length_app. lia.
  - apply (Hgo (mk_cbuf chunk 0) w); try done. unfold pos_ok. cbn. lia.
Qed.

Lemma unfinished_bound t ps r : Forall piece_ok ps -> 2 <= most -> unfinished t ps -> t ++ r = stream ps -> Z.of_nat (length t) <= most.
Proof.
  intros Ho Hm Hu E. destruct ps as [|p ps]; cbn in Hu.
  - apply app_eq_nil in E as [-> _]. simpl. lia.
  - apply Forall_cons in Ho as [Hp _]. destruct p as [|h body]; cbn in Hu; [lia|]. destruct Hp as [_ Hs _ _]. lia.
Qed.

(** However the stream is cut into chunks, the messages are those of the stream. *)
Lemma chunks_cut chunks : forall ps c w, (pending c ++ concat chunks) = stream ps -> unfinished (pending c) ps -> Forall piece_ok ps ->
  2 <= most -> Forall (fun chunk => Z.of_nat (length chunk) <= TCP_BUFSIZE_MAX - most) chunks ->
  pos_fine c -> results w = [] -> allocs w = [] -> find_id w (c_id c) = Some c ->
  exists c' w', recv_all (c_id c) chunks w = Some w' /\ find_id w' (c_id c) = Some c' /\ pending c' = [] /\
    received w' = received w ++ messages ps.
Proof.
  induction chunks as [|chunk chunks IH]; intros ps c w E Hu Ho Hm Hch Hp Hw Ha Hf; cbn [recv_all].
  - exists c, w. cbn in E. rewrite app_nil_r in E. destruct ps as [|p ps].
    + split_and!; try done. by rewrite app_nil_r.
    + exfalso. cbn in Hu. rewrite E in Hu. change (stream (p :: ps)) with (text_of p ++ stream ps) in Hu. rewrite length_app in Hu. lia.
  - rewrite Hf. apply Forall_cons in Hch as [Hc Hch]. cbn [concat] in E. rewrite app_assoc in E.
    assert (Z.of_nat (length (pending c)) <= most) as Hl.
    { apply (unfinished_bound _ ps (chunk ++ concat chunks)); try done. by rewrite app_assoc. }
    destruct (chunk_cut ps c chunk w (concat chunks) E Ho) as (c1&w1&ps1&ps2&->&->&E1&Hu1&Em&Hf1&Hw1&Ha1&Hp1); try done.
    { rewrite length_app. lia. }
    cbn [mbind option_bind]. apply Forall_app in Ho as [_ Ho]. pose proof (find_id_id _ _ _ Hf1) as Ei.
    rewrite <- Ei in *. destruct (IH ps2 c1 w1) as (c'&w'&->&Hf'&Ep&Em'); try done.
    exists c', w'. split_and!; try done. rewrite Em', Em, <- app_assoc. f_equal. unfold messages. by rewrite omap_app.
Qed.

End Stream.

End SipConn.
