(* ===== verification/SipConnInv.v ===== *)
(** * What becomes of the messages that wait for a connection

    The invariant of SipConn over everything that can happen to the connections of a
    stack. *)
From stdpp Require Import base list gmap.
From S2P Require Import Prelude Mem Sa SipTransp SipConn.
Import Sa SipTransp SipConn.

Module SipConnInv.

(** ** Messages and their senders' pointers *)

Definition all_q (w : world) : list connqent := concat (map ql (conns w)).
Definition all_k (w : world) : list keepalive := concat (map kal (conns w)).

Definition occ (q : Z) (l : list Z) : nat := count_occ Z.eq_dec l q.
Definition queued_of (a : action) : list Z := match a with Queued q => [q] | _ => [] end.
Definition fate_of (a : action) : list Z :=
  match a with Flushed q | Failed q _ | Canceled q | Freed q => [q] | _ => [] end.
Definition queued (l : list action) : list Z := concat (map queued_of l).
Definition fates (l : list action) : list Z := concat (map fate_of l).

(** The pointers point at what waits, and every message that was queued waits or met with
    one of its ends, once. *)
Record tracked (Q : list connqent) (sl : gmap Z Z) (lg : list action) (nx : Z) : Prop := {
  tk_slot : forall s x, sl !! s = Some x <-> exists e, e ∈ Q /\ q_slot e = Some s /\ q_id e = x;
  tk_count : forall q, occ q (queued lg) = (occ q (fates lg) + occ q (map q_id Q))%nat;
  tk_nodup : NoDup (queued lg);
  tk_fresh : Forall (fun q => q < nx) (queued lg) }.

Definition ktracked (K : list keepalive) (sl : gmap Z Z) : Prop :=
  forall s x, sl !! s = Some x <-> exists k, k ∈ K /\ ka_slot k = s /\ ka_id k = x.

Lemma cn_occ_app q l1 l2 : occ q (l1 ++ l2) = (occ q l1 + occ q l2)%nat.
Proof. apply count_occ_app. Qed.
Lemma queued_app l1 l2 : queued (l1 ++ l2) = queued l1 ++ queued l2.
Proof. unfold queued. by rewrite map_app, concat_app. Qed.
Lemma fates_app l1 l2 : fates (l1 ++ l2) = fates l1 ++ fates l2.
Proof. unfold fates. by rewrite map_app, concat_app. Qed.

(** Actions that say nothing of a message. *)
Definition neutral (a : action) : Prop := queued_of a = [] /\ fate_of a = [].

Lemma tracked_neutral Q sl lg nx a : neutral a -> tracked Q sl lg nx -> tracked Q sl (lg ++ [a]) nx.
Proof.
  intros [Ha Hb] [H1 H2 H3 H4]. assert (queued (lg ++ [a]) = queued lg) as Eq by (rewrite queued_app; unfold queued at 2; cbn; rewrite Ha; by rewrite !app_nil_r).
  assert (fates (lg ++ [a]) = fates lg) as Ef by (rewrite fates_app; unfold fates at 2; cbn; rewrite Hb; by rewrite !app_nil_r).
  constructor; rewrite ?Eq, ?Ef; done.
Qed.

Lemma tracked_neutrals Q sl nx l : forall lg, Forall neutral l -> tracked Q sl lg nx -> tracked Q sl (lg ++ l) nx.
Proof.
  induction l as [|a l IH]; intros lg Hl H; [by rewrite app_nil_r|]. apply Forall_cons in Hl as [Ha Hl].
  replace (lg ++ a :: l) with ((lg ++ [a]) ++ l) by by rewrite <- app_assoc. apply IH; [done|]. by apply tracked_neutral.
Qed.

Lemma tracked_perm Q Q' sl lg nx : Q ≡ₚ Q' -> tracked Q sl lg nx -> tracked Q' sl lg nx.
Proof.
  intros E [H1 H2 H3 H4]. constructor; try done.
  - intros s x. rewrite H1. by setoid_rewrite E.
  - intros q. rewrite H2. f_equal. apply Permutation_count_occ. by rewrite E.
Qed.

Definition clear (s : option Z) (sl : gmap Z Z) : gmap Z Z := match s with Some s => delete s sl | None => sl end.
Definition fill (s : option Z) (x : Z) (sl : gmap Z Z) : gmap Z Z := match s with Some s => <[s := x]> sl | None => sl end.

(** A message that waits meets with an end. *)
Lemma tracked_end Q e sl lg nx a : NoDup (map q_id (e :: Q)) -> queued_of a = [] -> fate_of a = [q_id e] ->
  tracked (e :: Q) sl lg nx -> tracked Q (clear (q_slot e) sl) (lg ++ [a]) nx.
Proof.
  intros Hnd Ha Hb [H1 H2 H3 H4]. cbn [map] in Hnd. apply NoDup_cons in Hnd as [He _].
  assert (queued (lg ++ [a]) = queued lg) as Eq by (rewrite queued_app; unfold queued at 2; cbn; rewrite Ha; by rewrite !app_nil_r).
  assert (fates (lg ++ [a]) = fates lg ++ [q_id e]) as Ef by (rewrite fates_app; unfold fates at 2; cbn; by rewrite Hb, app_nil_r).
  constructor; rewrite ?Eq; try done.
  - intros s x. unfold clear. destruct (q_slot e) as [s0|] eqn:Es.
    + destruct (decide (s = s0)) as [->|Hs].
      * rewrite lookup_delete_eq. split; [done|]. intros (f&Hf&Ef'&<-). exfalso. apply He.
        assert (sl !! s0 = Some (q_id e)) as E1 by (apply H1; exists e; split; [by left|done]).
        assert (sl !! s0 = Some (q_id f)) as E2 by (apply H1; exists f; split; [by right|done]).
        rewrite E1 in E2. injection E2 as ->. by apply list_elem_of_fmap_2.
      * rewrite lookup_delete_ne by done. rewrite H1. split; intros (f&Hf&Ef'&Ex); exists f; [|split_and!; [by right|done..]].
        apply elem_of_cons in Hf as [->|Hf]; [|done]. rewrite Es in Ef'. congruence.
    + rewrite H1. split; intros (f&Hf&Ef'&Ex); exists f; [|split_and!; [by right|done..]].
      apply elem_of_cons in Hf as [->|Hf]; [|done]. by rewrite Es in Ef'.
  - intros q. rewrite Ef, cn_occ_app. rewrite H2. cbn [map]. unfold occ. cbn [count_occ]. destruct (Z.eq_dec (q_id e) q); lia.
Qed.

(** A message starts to wait. *)
Lemma tracked_queue Q e sl lg nx : (forall s, q_slot e = Some s -> sl !! s = None) -> q_id e = nx ->
  tracked Q sl lg nx -> tracked (e :: Q) (fill (q_slot e) nx sl) (lg ++ [Queued nx]) (nx + 1).
Proof.
  intros Hs Hx [H1 H2 H3 H4].
  assert (queued (lg ++ [Queued nx]) = queued lg ++ [nx]) as Eq by (rewrite queued_app; done).
  assert (fates (lg ++ [Queued nx]) = fates lg) as Ef by (rewrite fates_app; by rewrite app_nil_r).
  assert (nx ∉ queued lg) as Hn by (intros Hin; rewrite Forall_forall in H4; specialize (H4 nx Hin); lia).
  constructor; rewrite ?Eq, ?Ef.
  - intros s x. unfold fill. destruct (q_slot e) as [s0|] eqn:Es.
    + destruct (decide (s = s0)) as [->|Hne].
      * rewrite lookup_insert_eq. split; [intros [= <-]; exists e; split; [by left|done]|].
        intros (f&Hf&Ef'&<-). apply elem_of_cons in Hf as [->|Hf]; [by rewrite Hx|].
        assert (sl !! s0 = Some (q_id f)) as E2 by (apply H1; by exists f). by rewrite (Hs s0 eq_refl) in E2.
      * rewrite lookup_insert_ne by done. rewrite H1. split; intros (f&Hf&Ef'&Ex); exists f; [split_and!; [by right|done..]|].
        apply elem_of_cons in Hf as [->|Hf]; [|done]. rewrite Es in Ef'. congruence.
    + rewrite H1. split; intros (f&Hf&Ef'&Ex); exists f; [split_and!; [by right|done..]|].
      apply elem_of_cons in Hf as [->|Hf]; [|done]. by rewrite Es in Ef'.
  - intros q. rewrite cn_occ_app, H2. cbn [map]. unfold occ. cbn [count_occ]. rewrite Hx. destruct (Z.eq_dec nx q); lia.
  - apply NoDup_app. split_and!; [done| |apply NoDup_singleton]. intros x Hin ->%list_elem_of_singleton. done.
  - apply Forall_app. split; [eapply Forall_impl; [exact H4|]; cbn; intros; lia|]. constructor; [lia|done].
Qed.

Lemma tracked_next Q sl lg nx nx' : nx <= nx' -> tracked Q sl lg nx -> tracked Q sl lg nx'.
Proof. intros Hn [H1 H2 H3 H4]. constructor; try done. eapply Forall_impl; [exact H4|]. cbn. intros. lia. Qed.

Lemma ktracked_end K k sl : NoDup (map ka_id (k :: K)) -> ktracked (k :: K) sl -> ktracked K (delete (ka_slot k) sl).
Proof.
  intros Hnd H s x. cbn [map] in Hnd. apply NoDup_cons in Hnd as [He _]. destruct (decide (s = ka_slot k)) as [->|Hs].
  - rewrite lookup_delete_eq. split; [done|]. intros (f&Hf&Ef&<-). exfalso. apply He.
    assert (sl !! ka_slot k = Some (ka_id k)) as E1 by (apply H; exists k; split; [by left|done]).
    assert (sl !! ka_slot k = Some (ka_id f)) as E2 by (apply H; exists f; split; [by right|done]).
    rewrite E1 in E2. injection E2 as ->. by apply list_elem_of_fmap_2.
  - rewrite lookup_delete_ne by done. rewrite (H s x). split; intros (f&Hf&Ef&Ex); exists f; [|split_and!; [by right|done..]].
    apply elem_of_cons in Hf as [->|Hf]; [congruence|done].
Qed.

Lemma ktracked_start K k sl : sl !! ka_slot k = None -> ktracked K sl -> ktracked (k :: K) (<[ka_slot k := ka_id k]> sl).
Proof.
  intros Hs H s x. destruct (decide (s = ka_slot k)) as [->|Hne].
  - rewrite lookup_insert_eq. split; [intros [= <-]; exists k; split; [by left|done]|].
    intros (f&Hf&Ef&<-). apply elem_of_cons in Hf as [->|Hf]; [done|].
    assert (sl !! ka_slot k = Some (ka_id f)) as E2 by (apply H; by exists f). by rewrite Hs in E2.
  - rewrite lookup_insert_ne by done. rewrite (H s x). split; intros (f&Hf&Ef&Ex); exists f; [split_and!; [by right|done..]|].
    apply elem_of_cons in Hf as [->|Hf]; [congruence|done].
Qed.

Lemma ktracked_perm K K' sl : K ≡ₚ K' -> ktracked K sl -> ktracked K' sl.
Proof. intros E H s x. rewrite (H s x). by setoid_rewrite E. Qed.

(** ** The invariant *)

(** The objects of a connection; all are numbered by one counter. *)
Definition objs (c : conn) : list Z := c_id c :: map q_id (ql c) ++ map ka_id (kal c).

(** A connection of the table has a socket and a running timer; when it is established
    nothing waits for it. *)
Record conn_ok (c : conn) : Prop := {
  cn_tc : tc c = true;
  cn_tmr : tmr c <> None;
  cn_estab : established c = true -> ql c = [];
  cn_ka : kal c <> [] -> tmr_ka c <> None }.

Record ok (C : list conn) (sl ksl : gmap Z Z) (lg : list action) (nx : Z) : Prop := {
  ok_ids : NoDup (concat (map objs C));
  ok_fresh : Forall (fun i => i < nx) (concat (map objs C));
  ok_conns : Forall conn_ok C;
  ok_q : tracked (concat (map ql C)) sl lg nx;
  ok_k : ktracked (concat (map kal C)) ksl }.

Definition wok (w : world) : Prop := ok (conns w) (slots w) (kslots w) (log w) (next w).

Lemma concat_mid {A} (f : conn -> list A) l1 c l2 : concat (map f (l1 ++ c :: l2)) ≡ₚ f c ++ concat (map f (l1 ++ l2)).
Proof. rewrite !map_app, !concat_app. cbn [map concat]. rewrite !app_assoc. f_equiv. apply Permutation_app_comm. Qed.

Lemma ok_neutral C sl ksl lg nx a : neutral a -> ok C sl ksl lg nx -> ok C sl ksl (lg ++ [a]) nx.
Proof. intros Ha [H1 H2 H3 H4 H5]. constructor; try done. by apply tracked_neutral. Qed.

Lemma ok_neutrals C sl ksl lg l nx : Forall neutral l -> ok C sl ksl lg nx -> ok C sl ksl (lg ++ l) nx.
Proof. intros Hl [H1 H2 H3 H4 H5]. constructor; try done. by apply tracked_neutrals. Qed.

Lemma ok_next C sl ksl lg nx nx' : nx <= nx' -> ok C sl ksl lg nx -> ok C sl ksl lg nx'.
Proof.
  intros Hn [H1 H2 H3 H4 H5]. constructor; try done; [|by eapply tracked_next].
  eapply Forall_impl; [exact H2|]. cbn. intros. lia.
Qed.

Lemma ids_of C : incl (map c_id C) (concat (map objs C)).
Proof.
  induction C as [|c C IH]; intros x Hx; [done|]. cbn [map concat objs app]. destruct Hx as [<-|Hx]; [by left|right].
  apply in_or_app. right. by apply IH.
Qed.

(** An object is one of the connection in the middle, or of the others. *)
Lemma objs_apart l1 c l2 : NoDup (concat (map objs (l1 ++ c :: l2))) ->
  NoDup (objs c) /\ NoDup (concat (map objs (l1 ++ l2))) /\ (forall x, x ∈ objs c -> x ∈ concat (map objs (l1 ++ l2)) -> False).
Proof.
  intros Hn. rewrite concat_mid in Hn. apply NoDup_app in Hn as (H1&H2&H3). split_and!; [done..|]. intros x Hx Hy. by apply (H2 x).
Qed.

Lemma find_split w i c : NoDup (concat (map objs (conns w))) -> find_id w i = Some c -> exists l1 l2, conns w = l1 ++ c :: l2 /\ c_id c = i /\
  (forall d, d ∈ l1 ++ l2 -> c_id d <> i).
Proof.
  unfold find_id. intros Hnd E. destruct (find_some _ _ E) as [Hin Ei]. apply Z.eqb_eq in Ei.
  apply in_split in Hin as (l1&l2&El). exists l1, l2. split_and!; [done..|]. intros d Hd Ed.
  rewrite El in Hnd. destruct (objs_apart _ _ _ Hnd) as (_&_&Ha). apply (Ha i).
  - rewrite <- Ei. unfold objs. by left.
  - apply list_elem_of_In, ids_of, in_map_iff. exists d. split; [done|]. by apply list_elem_of_In.
Qed.

Lemma map_other (C : list conn) c : (forall d, d ∈ C -> c_id d <> c_id c) -> map (fun d => if c_id d =? c_id c then c else d) C = C.
Proof.
  induction C as [|d C IH]; intros H; [done|]. cbn [map]. rewrite (proj2 (Z.eqb_neq _ _)) by (apply H; by left). f_equal. apply IH.
  intros e He. apply H. by right.
Qed.

Lemma filter_other (C : list conn) i : (forall d, d ∈ C -> c_id d <> i) -> List.filter (fun d => negb (c_id d =? i)) C = C.
Proof.
  induction C as [|d C IH]; intros H; [done|]. cbn [List.filter]. rewrite (proj2 (Z.eqb_neq _ _)) by (apply H; by left). cbn [negb]. f_equal. apply IH.
  intros e He. apply H. by right.
Qed.

Lemma update_split w c c' l1 l2 : conns w = l1 ++ c :: l2 -> c_id c' = c_id c -> (forall d, d ∈ l1 ++ l2 -> c_id d <> c_id c) ->
  conns (update c' w) = l1 ++ c' :: l2.
Proof.
  intros E Ei Ho. unfold update. cbn [conns set_conns]. rewrite E, map_app. cbn [map]. rewrite <- Ei, Z.eqb_refl.
  rewrite !map_other; [done|..]; intros d Hd; rewrite Ei; apply Ho; apply elem_of_app; auto.
Qed.

Lemma unlink_split w c l1 l2 : conns w = l1 ++ c :: l2 -> (forall d, d ∈ l1 ++ l2 -> c_id d <> c_id c) ->
  conns (hash_unlink (c_id c) w) = l1 ++ l2.
Proof.
  intros E Ho. unfold hash_unlink. cbn [conns set_conns]. rewrite E, List.filter_app. cbn [List.filter]. rewrite Z.eqb_refl. cbn [negb].
  rewrite !filter_other; [done|..]; intros d Hd; apply Ho; apply elem_of_app; auto.
Qed.

(** A connection changes, but not what waits on it. *)
Lemma ok_replace l1 c c' l2 sl ksl lg nx : ok (l1 ++ c :: l2) sl ksl lg nx -> c_id c' = c_id c -> ql c' = ql c -> kal c' = kal c -> conn_ok c' ->
  ok (l1 ++ c' :: l2) sl ksl lg nx.
Proof.
  intros [H1 H2 H3 H4 H5] E1 E2 E3 Hc. assert (objs c' = objs c) as Eo by (unfold objs; congruence).
  assert (forall (A : Type) (f : conn -> list A), f c' = f c -> concat (map f (l1 ++ c' :: l2)) = concat (map f (l1 ++ c :: l2))) as E
    by (intros A f Ef; rewrite !map_app; cbn [map]; by rewrite Ef).
  constructor; rewrite ?(E _ objs), ?(E _ ql), ?(E _ kal); try done.
  apply Forall_app in H3 as [H3 H3']. apply Forall_cons in H3' as [_ H3']. apply Forall_app. split; [done|]. by constructor.
Qed.

(** ** Closing *)

Lemma fail_queue_same q err : forall w, conns (fail_queue q err w) = conns w /\ kslots (fail_queue q err w) = kslots w /\ next (fail_queue q err w) = next w.
Proof. induction q as [|e q IH]; intros w; [done|]. cbn [fail_queue]. destruct (IH (act (clear_slot (q_slot e) w) (Failed (q_id e) err))) as (->&->&->). by destruct (q_slot e). Qed.

Lemma slots_clear s w : slots (clear_slot s w) = clear s (slots w).
Proof. by destruct s. Qed.

Lemma fail_queue_tracked q err Q : forall w nx, NoDup (map q_id (q ++ Q)) -> tracked (q ++ Q) (slots w) (log w) nx ->
  tracked Q (slots (fail_queue q err w)) (log (fail_queue q err w)) nx.
Proof.
  induction q as [|e q IH]; intros w nx Hn H; [done|]. cbn [fail_queue app]. apply IH.
  - cbn [app map] in Hn. by apply NoDup_cons in Hn as [_ Hn].
  - cbn [slots log act]. rewrite slots_clear. assert (log (clear_slot (q_slot e) w) = log w) as -> by by destruct (q_slot e).
    apply tracked_end; done.
Qed.

Lemma flush_queue_same q : forall w, conns (flush_queue q w) = conns w /\ kslots (flush_queue q w) = kslots w /\ next (flush_queue q w) = next w.
Proof. induction q as [|e q IH]; intros w; [done|]. cbn [flush_queue]. destruct (IH (act (clear_slot (q_slot e) w) (Freed (q_id e)))) as (->&->&->). by destruct (q_slot e). Qed.

Lemma flush_queue_tracked q Q : forall w nx, NoDup (map q_id (q ++ Q)) -> tracked (q ++ Q) (slots w) (log w) nx ->
  tracked Q (slots (flush_queue q w)) (log (flush_queue q w)) nx.
Proof.
  induction q as [|e q IH]; intros w nx Hn H; [done|]. cbn [flush_queue app]. apply IH.
  - cbn [app map] in Hn. by apply NoDup_cons in Hn as [_ Hn].
  - cbn [slots log act]. rewrite slots_clear. assert (log (clear_slot (q_slot e) w) = log w) as -> by by destruct (q_slot e).
    apply tracked_end; done.
Qed.

Lemma signal_same l err Q : forall w nx, tracked Q (slots w) (log w) nx ->
  let w' := sip_keepalive_signal l err w in conns w' = conns w /\ next w' = next w /\ tracked Q (slots w') (log w') nx.
Proof.
  induction l as [|k l IH]; intros w nx H; [done|]. cbn [sip_keepalive_signal]. cbv zeta.
  destruct (IH (act (clear_kslot (ka_slot k) w) (Kept (ka_id k) err)) nx) as (->&->&?); [by apply tracked_neutral|]. done.
Qed.

Lemma signal_ktracked l err K : forall w, NoDup (map ka_id (l ++ K)) -> ktracked (l ++ K) (kslots w) ->
  ktracked K (kslots (sip_keepalive_signal l err w)).
Proof.
  induction l as [|k l IH]; intros w Hn H; [done|]. cbn [sip_keepalive_signal app map] in *. apply IH.
  - by apply NoDup_cons in Hn as [_ Hn].
  - cbn [kslots act clear_kslot set_kslots]. apply ktracked_end; [|done]. done.
Qed.

Lemma flush_kal_same l : forall w, conns (flush_kal l w) = conns w /\ next (flush_kal l w) = next w /\ slots (flush_kal l w) = slots w /\ log (flush_kal l w) = log w.
Proof. induction l as [|k l IH]; intros w; [done|]. cbn [flush_kal]. by destruct (IH (clear_kslot (ka_slot k) w)) as (->&->&->&->). Qed.

Lemma flush_kal_ktracked l K : forall w, NoDup (map ka_id (l ++ K)) -> ktracked (l ++ K) (kslots w) -> ktracked K (kslots (flush_kal l w)).
Proof.
  induction l as [|k l IH]; intros w Hn H; [done|]. cbn [flush_kal app map] in *. apply IH.
  - by apply NoDup_cons in Hn as [_ Hn].
  - cbn [kslots clear_kslot set_kslots]. apply ktracked_end; done.
Qed.

(** The objects of a list of connections, by kind. *)
Lemma objs_kinds C : NoDup (concat (map objs C)) -> NoDup (map q_id (concat (map ql C))) /\ NoDup (map ka_id (concat (map kal C))).
Proof.
  assert (concat (map objs C) ≡ₚ map c_id C ++ map q_id (concat (map ql C)) ++ map ka_id (concat (map kal C))) as E.
  { induction C as [|c C IH]; [done|]. cbn [map concat]. rewrite IH, !map_app. unfold objs at 1. rewrite <- !app_comm_cons. apply perm_skip. rewrite <- !app_assoc.
    set (A := map q_id (ql c)). set (B := map ka_id (kal c)). set (I := map c_id C). set (Q := map q_id _). set (K := map ka_id (concat _)).
    rewrite (Permutation_app_swap_app Q B K), (Permutation_app_swap_app B I (Q ++ K)), (Permutation_app_swap_app A I). done. }
  rewrite E, !NoDup_app. tauto.
Qed.

(** The parts of a state without a connection. *)
Lemma ok_without l1 c l2 sl ksl lg nx : ok (l1 ++ c :: l2) sl ksl lg nx ->
  NoDup (concat (map objs (l1 ++ l2))) /\ Forall (fun i => i < nx) (concat (map objs (l1 ++ l2))) /\ Forall conn_ok (l1 ++ l2) /\
  NoDup (map q_id (ql c ++ concat (map ql (l1 ++ l2)))) /\ tracked (ql c ++ concat (map ql (l1 ++ l2))) sl lg nx /\
  NoDup (map ka_id (kal c ++ concat (map kal (l1 ++ l2)))) /\ ktracked (kal c ++ concat (map kal (l1 ++ l2))) ksl.
Proof.
  intros [H1 H2 H3 H4 H5]. destruct (objs_kinds _ H1) as [Hq Hk]. rewrite (concat_mid ql) in Hq. rewrite (concat_mid kal) in Hk.
  destruct (objs_apart _ _ _ H1) as (_&Hn&_). split_and!; try done.
  - rewrite concat_mid in H2. by apply Forall_app in H2 as [_ H2].
  - apply Forall_app in H3 as [H3 H3']. apply Forall_cons in H3' as [_ H3']. by apply Forall_app.
  - eapply tracked_perm; [apply concat_mid|exact H4].
  - eapply ktracked_perm; [apply concat_mid|exact H5].
Qed.

Lemma ok_close w l1 c l2 err : wok w -> conns w = l1 ++ c :: l2 -> (forall d, d ∈ l1 ++ l2 -> c_id d <> c_id c) -> wok (conn_close c err w).
Proof.
  unfold wok. intros H E Ho. rewrite E in H. destruct (ok_without _ _ _ _ _ _ _ H) as (H1&H2&H3&Hnq&Hq&Hnk&Hk).
  unfold conn_close. set (w1 := act (hash_unlink (c_id c) w) (Closed (c_id c) err)).
  assert (conns w1 = l1 ++ l2) as E1 by by apply unlink_split.
  assert (tracked (ql c ++ concat (map ql (l1 ++ l2))) (slots w1) (log w1) (next w1)) as Hq1 by by apply tracked_neutral.
  pose proof (fail_queue_tracked (ql c) err _ w1 _ Hnq Hq1) as Hq2. destruct (fail_queue_same (ql c) err w1) as (E2&E3&E4).
  set (w2 := fail_queue (ql c) err w1) in *. destruct (signal_same (kal c) err _ w2 _ Hq2) as (E5&E6&Hq3).
  pose proof (signal_ktracked (kal c) err (concat (map kal (l1 ++ l2))) w2 Hnk) as Hk3. rewrite E3 in Hk3. specialize (Hk3 Hk).
  set (w3 := sip_keepalive_signal (kal c) err w2) in *. constructor; rewrite ?E5, ?E2, ?E1, ?E6, ?E4; done.
Qed.

Lemma ok_destroy w l1 c l2 : wok w -> conns w = l1 ++ c :: l2 -> (forall d, d ∈ l1 ++ l2 -> c_id d <> c_id c) -> 
  wok (conn_destructor c w) /\ conns (conn_destructor c w) = l1 ++ l2.
Proof.
  unfold wok. intros H E Ho. rewrite E in H. destruct (ok_without _ _ _ _ _ _ _ H) as (H1&H2&H3&Hnq&Hq&Hnk&Hk).
  unfold conn_destructor. destruct (flush_kal_same (kal c) w) as (E1&E2&E3&E4). pose proof (flush_kal_ktracked (kal c) _ w Hnk Hk) as Hk1.
  set (w1 := flush_kal (kal c) w) in *. destruct (flush_queue_same (ql c) w1) as (E5&E6&E7). rewrite <- E3, <- E4 in Hq.
  pose proof (flush_queue_tracked (ql c) _ w1 _ Hnq Hq) as Hq2. set (w2 := flush_queue (ql c) w1) in *.
  assert (conns (hash_unlink (c_id c) w2) = l1 ++ l2) as E8 by (apply unlink_split; [by rewrite E5, E1|done]).
  split; [|done]. constructor; rewrite ?E8; cbn [slots kslots log next hash_unlink set_conns]; rewrite ?E7, ?E2, ?E6; done.
Qed.

(** ** New connections and new messages *)

Lemma ok_new C c sl ksl lg nx : ok C sl ksl lg nx -> c_id c = nx -> ql c = [] -> kal c = [] -> conn_ok c -> ok (C ++ [c]) sl ksl lg (nx + 1).
Proof.
  intros H Ei Eq Ek Hc. pose proof (ok_fresh _ _ _ _ _ H) as Hf. apply (ok_next _ _ _ _ _ (nx + 1)) in H as [H1 H2 H3 H4 H5]; [|lia].
  assert (objs c = [nx]) as Eo by (unfold objs; by rewrite Eq, Ek, Ei).
  constructor; rewrite ?map_app, ?concat_app; cbn [map concat]; rewrite ?Eo, ?Eq, ?Ek, ?app_nil_r; try done.
  - apply NoDup_app. split_and!; [done| |apply NoDup_singleton]. intros x Hx ->%list_elem_of_singleton.
    rewrite Forall_forall in Hf. specialize (Hf nx Hx). lia.
  - apply Forall_app. split; [done|]. constructor; [lia|done].
  - apply Forall_app. split; [done|]. by constructor.
Qed.

(** A connection gets a new object, [nx]. *)
Lemma objs_grow l1 c c' l2 nx : objs c' ≡ₚ nx :: objs c -> NoDup (concat (map objs (l1 ++ c :: l2))) ->
  Forall (fun i => i < nx) (concat (map objs (l1 ++ c :: l2))) ->
  NoDup (concat (map objs (l1 ++ c' :: l2))) /\ Forall (fun i => i < nx + 1) (concat (map objs (l1 ++ c' :: l2))).
Proof.
  intros Eo H1 H2. rewrite (concat_mid objs l1 c' l2), Eo. rewrite (concat_mid objs l1 c l2) in H1, H2. cbn [app]. split.
  - constructor; [|done]. intros Hx. rewrite Forall_forall in H2. specialize (H2 nx Hx). lia.
  - constructor; [lia|]. eapply Forall_impl; [exact H2|]. cbn. intros. lia.
Qed.

Lemma ok_queue l1 c l2 sl ksl lg nx t slot h : ok (l1 ++ c :: l2) sl ksl lg nx -> established c = false ->
  (forall s, slot = Some s -> sl !! s = None) ->
  ok (l1 ++ set_ql c (ql c ++ [mk_qent nx t slot h]) :: l2) (fill slot nx sl) ksl (lg ++ [Queued nx]) (nx + 1).
Proof.
  intros [H1 H2 H3 H4 H5] He Hs. set (e := mk_qent nx t slot h). set (c' := set_ql c (ql c ++ [e])).
  assert (objs c' ≡ₚ nx :: objs c) as Eo.
  { unfold objs, c'. cbn [c_id ql kal set_ql]. rewrite map_app. cbn [map q_id e]. rewrite <- app_assoc. cbn [app].
    rewrite (perm_swap (c_id c)). f_equiv. symmetry. apply Permutation_middle. }
  destruct (objs_grow l1 c c' l2 nx Eo H1 H2) as [H1' H2']. constructor; try done.
  - apply Forall_app in H3 as [H3 H3']. apply Forall_cons in H3' as [[Ht Htm Hq Hk] H3']. apply Forall_app. split; [done|].
    constructor; [|done]. constructor; cbn; try done. by rewrite He.
  - eapply tracked_perm; [|apply (tracked_queue (concat (map ql (l1 ++ c :: l2))) e sl lg nx); [exact Hs|done|exact H4]].
    rewrite (concat_mid ql l1 c' l2), (concat_mid ql l1 c l2). cbn [ql set_ql c']. rewrite <- app_assoc. cbn [app]. apply Permutation_middle.
  - by rewrite !map_app in *.
Qed.

Lemma ok_keep l1 c l2 sl ksl lg nx slot t iv : ok (l1 ++ c :: l2) sl ksl lg nx -> ksl !! slot = None ->
  ok (l1 ++ set_tmr_ka (set_interval (set_kal c (kal c ++ [mk_ka nx slot])) iv) (Some t) :: l2) sl (<[slot := nx]> ksl) lg (nx + 1).
Proof.
  intros [H1 H2 H3 H4 H5] Hs. set (k := mk_ka nx slot). set (c' := set_tmr_ka _ _).
  assert (objs c' ≡ₚ nx :: objs c) as Eo.
  { unfold objs, c'. cbn [c_id ql kal set_kal set_interval set_tmr_ka]. rewrite map_app. cbn [map ka_id k]. rewrite app_assoc. 
    rewrite (perm_swap (c_id c)). f_equiv. symmetry. apply Permutation_cons_append. }
  destruct (objs_grow l1 c c' l2 nx Eo H1 H2) as [H1' H2']. constructor; try done.
  - apply Forall_app in H3 as [H3 H3']. apply Forall_cons in H3' as [[Ht Htm Hq Hk] H3']. apply Forall_app. split; [done|].
    constructor; [|done]. by constructor.
  - rewrite !map_app in *. eapply tracked_next; [|exact H4]. lia.
  - eapply ktracked_perm; [|apply (ktracked_start (concat (map kal (l1 ++ c :: l2))) k); [exact Hs|exact H5]].
    rewrite (concat_mid kal l1 c' l2), (concat_mid kal l1 c l2). cbn [kal set_kal set_interval set_tmr_ka c']. rewrite <- app_assoc. cbn [app]. apply Permutation_middle.
Qed.

(** ** The answers of the environment *)

(** Nothing but the environment, and what is sent, may change. *)
Record quiet (w w' : world) : Prop := {
  qt_conns : conns w' = conns w; qt_slots : slots w' = slots w; qt_kslots : kslots w' = kslots w; qt_next : next w' = next w;
  qt_log : exists l, log w' = log w ++ l /\ Forall neutral l }.

Lemma cn_quiet_refl w : quiet w w.
Proof. constructor; try done. exists []. by rewrite app_nil_r. Qed.

Lemma cn_quiet_trans w1 w2 w3 : quiet w1 w2 -> quiet w2 w3 -> quiet w1 w3.
Proof.
  intros [A1 A2 A3 A4 (l&A5&A6)] [B1 B2 B3 B4 (m&B5&B6)]. constructor; try congruence. exists (l ++ m).
  rewrite B5, A5, app_assoc. split; [done|]. by apply Forall_app.
Qed.

Lemma quiet_act w a : neutral a -> quiet w (act w a).
Proof. intros Ha. constructor; try done. exists [a]. split; [done|]. by constructor. Qed.

Lemma quiet_result w : quiet w (result w).2.
Proof. constructor; try done. exists []. by rewrite app_nil_r. Qed.
Lemma quiet_alloc w : quiet w (alloc w).2.
Proof. constructor; try done. exists []. by rewrite app_nil_r. Qed.
Lemma quiet_rand w : quiet w (rand_u16 w).2.
Proof. constructor; try done. exists []. by rewrite app_nil_r. Qed.
Lemma quiet_called w : quiet w (called w).
Proof. constructor; try done. exists []. by rewrite app_nil_r. Qed.

Lemma quiet_send c t w : quiet w (tcp_send c t w).2.
Proof.
  unfold tcp_send. pose proof (quiet_result w) as Hq. destruct (result w) as [err w1]. cbn [snd] in *.
  destruct (err =? 0); [|done]. eapply cn_quiet_trans; [exact Hq|]. by apply quiet_act.
Qed.

Lemma wok_quiet w w' : quiet w w' -> wok w -> wok w'.
Proof.
  unfold wok. intros [-> -> -> -> (l&->&Hl)]. intros H. by apply ok_neutrals.
Qed.

(** A handler that leaves the messages of its connection alone. *)
Lemma wok_update w l1 c c' l2 : wok w -> conns w = l1 ++ c :: l2 -> (forall d, d ∈ l1 ++ l2 -> c_id d <> c_id c) ->
  c_id c' = c_id c -> ql c' = ql c -> kal c' = kal c -> conn_ok c' -> wok (update c' w).
Proof.
  unfold wok. intros H E Ho Ei Eq Ek Hc. rewrite (update_split w c c' l1 l2 E Ei Ho). rewrite E in H.
  by apply (ok_replace l1 c).
Qed.

Lemma wok_at w i c : wok w -> find_id w i = Some c -> exists l1 l2, conns w = l1 ++ c :: l2 /\
  (forall d, d ∈ l1 ++ l2 -> c_id d <> c_id c) /\ conn_ok c /\ c_id c = i.
Proof.
  intros H E. destruct (find_split w i c (ok_ids _ _ _ _ _ H) E) as (l1&l2&El&Ei&Ho). subst i. exists l1, l2. split_and!; try done.
  pose proof (ok_conns _ _ _ _ _ H) as Hc. rewrite El in Hc. apply Forall_app in Hc as [_ Hc]. by apply Forall_cons in Hc as [Hc _].
Qed.

(** ** Sending *)

Lemma enqueue_ok b c slot t h w l1 l2 : wok w -> conns w = l1 ++ c :: l2 -> (forall d, d ∈ l1 ++ l2 -> c_id d <> c_id c) ->
  established c = false -> (forall s, slot = Some s -> slots w !! s = None) -> wok (enqueue b c slot t h w).2.
Proof.
  intros H E Ho He Hs. unfold enqueue. pose proof (quiet_alloc w) as Hq. destruct (alloc w) as [[] w1]; cbn [negb snd] in *.
  - pose proof (wok_quiet _ _ Hq H) as H1. destruct Hq as [Ec Es _ _ _]. unfold fresh. cbn zeta iota.
    set (c' := set_ql c _). set (w2 := mk_world _ _ _ _ _ _ _ _ _).
    assert (conns (update c' w2) = l1 ++ c' :: l2) as Eu by (apply (update_split w2 c); [cbn; congruence|done|done]).
    unfold wok in *. rewrite Ec, E in H1. pose proof (ok_queue l1 c l2 _ _ _ _ t slot h H1 He ltac:(by rewrite Es)) as H2.
    destruct slot as [s|]; match goal with |- ok ?C _ _ _ _ => replace C with (l1 ++ c' :: l2) by (symmetry; exact Eu) end; exact H2.
  - unfold out. cbn [snd]. pose proof (wok_quiet _ _ Hq H) as H1. destruct b; [|done].
    apply (ok_destroy w1 l1 c l2); [done| |done]. by rewrite (qt_conns _ _ Hq).
Qed.

(** A connection that was added to the table but is not ready. *)
Definition making (w : world) (c : conn) : Prop :=
  exists C, conns w = C ++ [c] /\ ok C (slots w) (kslots w) (log w) (c_id c) /\ next w = c_id c + 1.

Lemma making_quiet w w' c : quiet w w' -> making w c -> making w' c.
Proof.
  intros [E1 E2 E3 E4 (l&E5&Hl)] (C&Ec&H&En). exists C. rewrite E1, E2, E3, E4, E5. split_and!; try done.
  by apply ok_neutrals.
Qed.

Lemma making_others C c sl ksl lg : ok C sl ksl lg (c_id c) -> forall d, d ∈ C ++ [] -> c_id d <> c_id c.
Proof.
  intros H d Hd Ed. rewrite app_nil_r in Hd. pose proof (ok_fresh _ _ _ _ _ H) as Hf. rewrite Forall_forall in Hf.
  assert (c_id d < c_id c); [|lia]. apply Hf, list_elem_of_In, ids_of, in_map_iff. exists d. split; [done|]. by apply list_elem_of_In.
Qed.

Lemma making_gone w c c' : making w c -> c_id c' = c_id c -> ql c' = [] -> kal c' = [] -> wok (conn_destructor c' w).
Proof.
  intros (C&Ec&H&En) Ei Eq Ek. unfold conn_destructor. rewrite Eq, Ek. cbn [flush_queue flush_kal]. unfold wok. rewrite Ei.
  rewrite (unlink_split w c C []) by (done || by eapply making_others). rewrite app_nil_r. cbn [slots kslots log next hash_unlink set_conns].
  rewrite En. eapply ok_next; [|exact H]. lia.
Qed.

Lemma making_done w c c' : making w c -> c_id c' = c_id c -> ql c' = [] -> kal c' = [] -> conn_ok c' ->
  wok (update c' w) /\ exists C, conns (update c' w) = C ++ c' :: [] /\ (forall d, d ∈ C ++ [] -> c_id d <> c_id c').
Proof.
  intros (C&Ec&H&En) Ei Eq Ek Hc. pose proof (making_others C c _ _ _ H) as Ho.
  assert (conns (update c' w) = C ++ [c']) as Eu by (by apply (update_split w c)). split.
  - unfold wok. rewrite Eu. cbn [slots kslots log next update set_conns]. rewrite En. by apply ok_new.
  - exists C. rewrite Ei. done.
Qed.

Lemma making_new w dst : wok w -> let '(i, w1) := fresh w in making (hash_append (new_conn i dst) w1) (new_conn i dst).
Proof. intros H. cbn. by exists (conns w). Qed.

Lemma find_conn w dst secure c : wok w -> conn_find w dst secure = Some c -> exists l1 l2, conns w = l1 ++ c :: l2 /\
  (forall d, d ∈ l1 ++ l2 -> c_id d <> c_id c).
Proof.
  intros H E. unfold conn_find in E. apply find_some in E as [Hin _]. apply in_split in Hin as (l1&l2&El). exists l1, l2. split; [done|].
  intros d Hd Ed. pose proof (ok_ids _ _ _ _ _ H) as Hnd. rewrite El in Hnd. destruct (objs_apart _ _ _ Hnd) as (_&_&Ha). apply (Ha (c_id c)).
  - unfold objs. by left.
  - apply list_elem_of_In, ids_of, in_map_iff. exists d. split; [done|]. by apply list_elem_of_In.
Qed.

Lemma conn_send_ok transpl slot secure dst t h w : wok w -> (forall s, slot = Some s -> slots w !! s = None) ->
  wok (conn_send transpl slot secure dst t h w).2.
Proof.
  intros H Hs. unfold conn_send. destruct (conn_find w dst secure) as [c|] eqn:Ef.
  - destruct (find_conn _ _ _ _ H Ef) as (l1&l2&El&Ho). destruct (established c) eqn:Ee; cbn [negb].
    + eapply wok_quiet; [apply quiet_send|done].
    + by apply (enqueue_ok false c slot t h w l1 l2).
  - pose proof (quiet_alloc w) as Hq. destruct (alloc w) as [[] w1]; cbn [negb snd] in *; [|by apply (wok_quiet w)].
    pose proof (wok_quiet _ _ Hq H) as H1. pose proof (making_new w1 dst H1) as Hm. unfold fresh in *. cbn zeta iota in *.
    set (c := new_conn (next w1) dst) in *. assert (slots (hash_append c (snd (fresh w1))) = slots w) as Es by apply Hq.
    set (w2 := hash_append c _) in *. change (slots w2 = slots w) in Es.
    assert (forall w3 b, making w3 c -> b = tt -> forall e, wok (out true (set_tc c) e w3).2) as Hout by (intros w3 b Hw _ e; by apply (making_gone w3 c)).
    pose proof (quiet_result w2) as Hq2. destruct (result w2) as [e1 w3]. cbn [snd] in Hq2. apply (making_quiet _ _ _ Hq2) in Hm.
    destruct (negb (e1 =? 0)); [by apply (making_gone w3 c)|].
    pose proof (quiet_result w3) as Hq3. destruct (result w3) as [e2 w4]. cbn [snd] in Hq3. apply (making_quiet _ _ _ Hq3) in Hm.
    destruct (negb (e2 =? 0)); [by apply (Hout w4 tt)|]. destruct (secure && _); [by apply (Hout w4 tt)|].
    assert (exists e3 w5, (if secure then result w4 else (0, w4)) = (e3, w5) /\ quiet w4 w5) as (e3&w5&->&Hq4).
    { destruct secure; [|exists 0, w4; split; [done|apply cn_quiet_refl]]. pose proof (quiet_result w4). destruct (result w4). by eexists _, _. }
    apply (making_quiet _ _ _ Hq4) in Hm. destruct (negb (e3 =? 0)); [by apply (Hout w5 tt)|].
    set (c' := set_tmr _ _). assert (conn_ok c' /\ c_id c' = c_id c /\ ql c' = [] /\ kal c' = [] /\ established c' = false) as (Hc&Ei&Eq&Ek&Ee).
    { unfold c'. destruct secure; by split. }
    destruct (making_done w5 c c' Hm Ei Eq Ek Hc) as (H6&C&Ec&Ho).
    apply (enqueue_ok true c' slot t h _ C []); try done.
    cbn [slots update set_conns]. rewrite (qt_slots _ _ Hq4), (qt_slots _ _ Hq3), (qt_slots _ _ Hq2), Es. done.
Qed.

Lemma transp_send_ok transpl slot sock tp dst t h w : wok w -> (forall s, slot = Some s -> slots w !! s = None) ->
  wok (sip_transp_send transpl slot sock tp dst t h w).2.
Proof.
  intros H Hs. unfold sip_transp_send. destruct (tp =? SIP_TRANSP_UDP).
  - destruct (match sock with Some s => Some s | None => _ end) as [s|]; [|done].
    pose proof (quiet_result w) as Hq. destruct (result w) as [e w1]. cbn [snd] in *. pose proof (wok_quiet _ _ Hq H).
    destruct (e =? 0); [|done]. eapply wok_quiet; [by apply quiet_act|done].
  - destruct (_ || _); [|done]. destruct (match sock with Some i => find_id w i | None => None end) as [c|].
    + eapply wok_quiet; [apply quiet_send|done].
    + by apply conn_send_ok.
Qed.

(** ** Accepting, and being established *)

Lemma tcp_connect_ok tls peer w : wok w -> wok (tcp_connect_handler tls peer w).
Proof.
  intros H. unfold tcp_connect_handler. pose proof (quiet_alloc w) as Hq. destruct (alloc w) as [[] w1]; cbn [negb snd] in *.
  2: { eapply wok_quiet; [by apply quiet_act|]. by apply (wok_quiet w). }
  pose proof (wok_quiet _ _ Hq H) as H1. pose proof (making_new w1 peer H1) as Hm. unfold fresh in *. cbn zeta iota in *.
  set (c := new_conn (next w1) peer) in *. set (w2 := hash_append c _) in *.
  assert (forall w3 c', making w3 c -> c_id c' = c_id c -> ql c' = [] -> kal c' = [] -> wok (conn_destructor c' (act w3 Rejected))) as Hrej.
  { intros w3 c' Hw Ei Eq Ek. apply (making_gone _ c c'); try done. eapply making_quiet; [by apply quiet_act|done]. }
  pose proof (quiet_result w2) as Hq2. destruct (result w2) as [e1 w3]. cbn [snd] in Hq2. apply (making_quiet _ _ _ Hq2) in Hm.
  destruct (negb (e1 =? 0)); [by apply Hrej|].
  pose proof (quiet_result w3) as Hq3. destruct (result w3) as [e2 w4]. cbn [snd] in Hq3. apply (making_quiet _ _ _ Hq3) in Hm.
  destruct (negb (e2 =? 0)); [by apply Hrej|].
  assert (exists e3 w5, (if tls then result w4 else (0, w4)) = (e3, w5) /\ quiet w4 w5) as (e3&w5&->&Hq4).
  { destruct tls; [|exists 0, w4; split; [done|apply cn_quiet_refl]]. pose proof (quiet_result w4). destruct (result w4). by eexists _, _. }
  apply (making_quiet _ _ _ Hq4) in Hm. destruct (negb (e3 =? 0)); [by apply Hrej|].
  apply (making_done w5 c); try done; by destruct tls.
Qed.

Lemma flush_out_same i q : forall w, conns (flush_out i q w) = conns w /\ kslots (flush_out i q w) = kslots w /\ next (flush_out i q w) = next w.
Proof.
  induction q as [|e q IH]; intros w; [done|]. cbn [flush_out].
  pose proof (quiet_send i (q_mb e) (clear_slot (q_slot e) w)) as Hq. destruct (tcp_send i (q_mb e) _) as [err w1]. cbn [snd] in Hq.
  match goal with |- context [flush_out i q ?x] => destruct (IH x) as (->&->&->) end. cbn [conns kslots next act].
  rewrite (qt_conns _ _ Hq), (qt_kslots _ _ Hq), (qt_next _ _ Hq). by destruct (q_slot e).
Qed.

Lemma tracked_quiet Q w w' nx : quiet w w' -> tracked Q (slots w) (log w) nx -> tracked Q (slots w') (log w') nx.
Proof.
  intros [_ -> _ _ (l&->&Hl)]. intros H. by apply tracked_neutrals.
Qed.

Lemma flush_out_tracked i q Q : forall w nx, NoDup (map q_id (q ++ Q)) -> tracked (q ++ Q) (slots w) (log w) nx ->
  tracked Q (slots (flush_out i q w)) (log (flush_out i q w)) nx.
Proof.
  induction q as [|e q IH]; intros w nx Hn H; [done|]. cbn [flush_out app].
  pose proof (quiet_send i (q_mb e) (clear_slot (q_slot e) w)) as Hq. destruct (tcp_send i (q_mb e) _) as [err w1]. cbn [snd] in Hq.
  apply IH; [cbn [app map] in Hn; by apply NoDup_cons in Hn as [_ Hn]|].
  (* the end is logged behind what was sent *)
  destruct Hq as [_ Es _ _ (l&El&Hl)]. cbn [slots log act]. rewrite Es, El, slots_clear.
  assert (log (clear_slot (q_slot e) w) = log w) as -> by by destruct (q_slot e).
  apply tracked_end; [done| | |]; [by destruct (negb _)|by destruct (negb _)|].
  by apply tracked_neutrals.
Qed.

Lemma estab_ok w i c : wok w -> find_id w i = Some c -> wok (tcp_estab_handler c w).
Proof.
  intros H E. destruct (wok_at w i c H E) as (l1&l2&El&Ho&Hc&_). unfold wok in H. rewrite El in H.
  destruct (ok_without _ _ _ _ _ _ _ H) as (H1&H2&H3&Hnq&Hq&Hnk&Hk). unfold tcp_estab_handler.
  destruct (flush_out_same (c_id c) (ql c) w) as (E1&E2&E3). pose proof (flush_out_tracked (c_id c) (ql c) _ w _ Hnq Hq) as Hq'.
  set (w1 := flush_out _ _ w) in *. set (c' := set_ql (set_established c) []).
  assert (conns (update c' w1) = l1 ++ c' :: l2) as Eu by (apply (update_split w1 c); [congruence|done|done]).
  destruct H as [G1 G2 G3 G4 G5]. unfold wok. rewrite Eu. cbn [slots kslots log next update set_conns]. rewrite E2, E3.
  assert (concat (map objs (l1 ++ c' :: l2)) ⊆+ concat (map objs (l1 ++ c :: l2))) as Hsub.
  { rewrite !concat_mid. apply submseteq_app; [|done]. unfold objs. cbn [c_id ql kal c' set_ql set_established map app].
    apply submseteq_skip, submseteq_inserts_l. done. }
  apply submseteq_Permutation in Hsub as [rest Hsub]. constructor.
  - rewrite Hsub in G1. apply NoDup_app in G1. tauto.
  - apply Forall_forall. intros x Hx. rewrite Forall_forall in G2. apply G2. rewrite Hsub. apply elem_of_app. by left.
  - apply Forall_app in G3 as [G3 G3']. apply Forall_cons in G3' as [_ G3']. apply Forall_app. split; [done|]. constructor; [|done].
    destruct Hc. by constructor.
  - eapply tracked_perm; [symmetry; apply concat_mid|]. exact Hq'.
  - by rewrite !map_app in *.
Qed.

(** ** Receiving *)

(** What receiving leaves of a connection. *)
Record kept (c c' : conn) : Prop := {
  kp_id : c_id c' = c_id c; kp_ql : ql c' = ql c; kp_kal : kal c' = kal c; kp_tc : tc c' = tc c;
  kp_estab : established c' = established c; kp_ka : tmr_ka c' = tmr_ka c; kp_tmr : tmr c <> None -> tmr c' <> None }.

Lemma kept_ok c c' : kept c c' -> conn_ok c -> conn_ok c'.
Proof. intros [K1 K2 K3 K4 K5 K6 K7] [A1 A2 A3 A4]. constructor; rewrite ?K2, ?K3, ?K4, ?K5, ?K6; auto. Qed.

Lemma kept_trans c1 c2 c3 : kept c1 c2 -> kept c2 c3 -> kept c1 c3.
Proof. intros [A1 A2 A3 A4 A5 A6 A7] [B1 B2 B3 B4 B5 B6 B7]. constructor; try congruence. auto. Qed.

Lemma recv_loop_kept decode fuel : forall c b w err c' w', recv_loop decode fuel c b w = Some (err, c', w') -> kept c c' /\ quiet w w'.
Proof.
  induction fuel as [|fuel IH]; intros c b w err c' w'; [done|]. cbn [recv_loop].
  assert (forall x, kept c (set_mb c x)) as Hmb by (intros x; by constructor).
  assert (forall x, kept c (set_mb (idle c) x)) as Hid by (intros x; by constructor).
  destruct (_ <? 2); [intros [= <- <- <-]; split; [done|apply cn_quiet_refl]|]. destruct (crlf (left b)).
  - destruct (_ && _).
    + pose proof (quiet_send (c_id (idle c)) [13; 10] w) as Hq. destruct (tcp_send _ _ w) as [e w1]. cbn [snd] in Hq.
      destruct (negb (e =? 0)); [by intros [= <- <- <-]|]. destruct (negb _).
      * intros E. destruct (IH _ _ _ _ _ _ E) as [Hk Hq']. split; [eapply kept_trans; [|exact Hk]; by constructor|by eapply cn_quiet_trans].
      * by intros [= <- <- <-].
    + cbn match. cbn [negb Z.eqb]. destruct (negb _).
      * intros E. destruct (IH _ _ _ _ _ _ E) as [Hk Hq']. split; [eapply kept_trans; [|exact Hk]; by constructor|done].
      * intros [= <- <- <-]. split; [done|apply cn_quiet_refl].
  - pose proof (quiet_called w) as Hqc. destruct (decode (calls w) (left b)) as [e|used [clen|]].
    + intros [= <- <- <-]. done.
    + destruct (_ <? clen); [by intros [= <- <- <-]|]. set (w1 := act (called w) _).
      assert (quiet w w1) as Hq1 by (eapply cn_quiet_trans; [exact Hqc|by apply quiet_act]).
      destruct (_ =? 0); [by intros [= <- <- <-]|]. pose proof (quiet_alloc w1) as Hqa. destruct (alloc w1) as [[] w2]; cbn [negb snd] in *.
      * intros E. destruct (IH _ _ _ _ _ _ E) as [Hk Hq']. split; [eapply kept_trans; [|exact Hk]; by constructor|].
        eapply cn_quiet_trans; [exact Hq1|]. by eapply cn_quiet_trans.
      * intros [= <- <- <-]. split; [done|by eapply cn_quiet_trans].
    + by intros [= <- <- <-].
Qed.

Lemma recv_end_ok w l1 c l2 err c' w' : wok w -> conns w = l1 ++ c :: l2 -> (forall d, d ∈ l1 ++ l2 -> c_id d <> c_id c) -> conn_ok c ->
  kept c c' -> quiet w w' -> wok (recv_end (err, c', w')).
Proof.
  intros H E Ho Hc Hk Hq. pose proof (wok_quiet _ _ Hq H) as H'. assert (conns w' = l1 ++ c :: l2) as E' by by rewrite (qt_conns _ _ Hq).
  pose proof (kept_ok _ _ Hk Hc) as Hc'. destruct Hk as [K1 K2 K3 _ _ _ _].
  pose proof (wok_update w' l1 c c' l2 H' E' Ho K1 K2 K3 Hc') as Hu. cbn [recv_end]. destruct (negb (err =? 0)); [|done].
  (* closing goes by the number, the queue and the keepalives, which are those of the table *)
  assert (conn_close c' err w' = conn_close c err w') as -> by (unfold conn_close; by rewrite K1, K2, K3).
  by apply (ok_close w' l1 c l2).
Qed.

Lemma recv_ok decode w i c chunk w' : wok w -> find_id w i = Some c -> tcp_recv_handler decode c chunk w = Some w' -> wok w'.
Proof.
  intros H E. destruct (wok_at w i c H E) as (l1&l2&El&Ho&Hc&_). unfold tcp_recv_handler.
  assert (forall fuel b w1 w2, quiet w w1 -> (r ← recv_loop decode fuel c b w1; Some (recv_end r)) = Some w2 -> wok w2) as Hgo.
  { intros fuel b w1 w2 Hq. destruct (recv_loop decode fuel c b w1) as [[[e c1] w3]|] eqn:Er; [|done]. cbn [mbind option_bind]. intros [= <-].
    destruct (recv_loop_kept _ _ _ _ _ _ _ _ Er) as [Hk Hq']. apply (recv_end_ok w l1 c l2); try done. by eapply cn_quiet_trans. }
  destruct (mb c) as [b|].
  - pose proof (quiet_alloc w) as Hq. destruct (alloc w) as [[] w1]; cbn [negb snd] in *.
    + destruct (_ <? _); [|by apply Hgo]. intros [= <-].
      by apply (recv_end_ok w l1 c l2 EOVERFLOW (set_mb c (Some (mk_cbuf (c_text b ++ chunk) (c_pos b)))) w1).
    + intros [= <-]. by apply (recv_end_ok w l1 c l2 ENOMEM c w1).
  - apply Hgo, cn_quiet_refl.
Qed.

(** ** Keepalives, and what the users give up *)

Lemma quiet_wait iv w : quiet w (sip_keepalive_wait iv w).2.
Proof. unfold sip_keepalive_wait. pose proof (quiet_rand w). by destruct (rand_u16 w). Qed.

Lemma ka_handler_ok w i c : wok w -> find_id w i = Some c -> wok (conn_keepalive_handler c w).
Proof.
  intros H E. destruct (wok_at w i c H E) as (l1&l2&El&Ho&Hc&_). unfold conn_keepalive_handler.
  pose proof (quiet_send (c_id c) crlfcrlf w) as Hq. destruct (tcp_send _ _ w) as [e w1]. cbn [snd] in Hq.
  pose proof (wok_quiet _ _ Hq H) as H1. assert (conns w1 = l1 ++ c :: l2) as E1 by by rewrite (qt_conns _ _ Hq).
  destruct (negb (e =? 0)); [by apply (ok_close w1 l1 c l2)|].
  match goal with |- context [sip_keepalive_wait ?iv w1] => pose proof (quiet_wait iv w1) as Hq2; destruct (sip_keepalive_wait iv w1) as [t w2] end.
  cbn [snd] in Hq2. apply (wok_update w2 l1 c _ l2); try done; [by apply (wok_quiet w1)|by rewrite (qt_conns _ _ Hq2)|].
  destruct Hc. by constructor.
Qed.

Lemma ka_start_ok w slot sock iv : wok w -> kslots w !! slot = None -> wok (sip_keepalive_start slot sock iv w).2.
Proof.
  intros H Hs. unfold sip_keepalive_start. pose proof (quiet_alloc w) as Hq. destruct (alloc w) as [[] w1]; cbn [negb snd] in *; [|by apply (wok_quiet w)].
  pose proof (wok_quiet _ _ Hq H) as H1. unfold fresh. cbn zeta iota. set (w2 := mk_world _ _ _ _ _ _ _ _ _).
  assert (wok w2) as H2 by (unfold wok in *; cbn; eapply ok_next; [|exact H1]; lia).
  destruct (find_id w2 sock) as [c|] eqn:Ef; [|done]. destruct (wok_at w2 sock c H2 Ef) as (l1&l2&El&Ho&Hc&_).
  unfold sip_keepalive_tcp. destruct (_ || _); [done|]. unfold wok in H1. change (conns w1) with (conns w2) in H1. rewrite El in H1.
  rewrite (qt_kslots _ _ Hq) in H1.
  destruct (tmr_ka (set_kal c _)) as [t0|] eqn:Et; cbn [tmr_ka set_kal] in Et.
  - cbn [snd Z.eqb]. pose proof (ok_keep l1 c l2 _ _ _ _ slot t0 (ka_interval c) H1 Hs) as H3.
    set (c' := set_kal c _). assert (set_tmr_ka (set_interval c' (ka_interval c)) (Some t0) = c') as Ec by (unfold c', set_tmr_ka, set_interval, set_kal; cbn; by rewrite <- Et; destruct c).
    fold c' in H3. rewrite Ec in H3. unfold wok.
    match goal with |- ok ?C _ _ _ _ => replace C with (l1 ++ c' :: l2) by (symmetry; by apply (update_split w2 c)) end.
    cbn. rewrite (qt_kslots _ _ Hq). exact H3.
  - match goal with |- context [sip_keepalive_wait ?i w2] => set (iv' := i); pose proof (quiet_wait iv' w2) as Hq2; destruct (sip_keepalive_wait iv' w2) as [t w3] end.
    cbn [snd Z.eqb] in *. pose proof (ok_keep l1 c l2 _ _ _ _ slot t iv' H1 Hs) as H3. set (c' := set_tmr_ka _ _) in *. unfold wok.
    match goal with |- ok ?C _ _ _ _ => replace C with (l1 ++ c' :: l2) by (symmetry; apply (update_split w3 c); [by rewrite (qt_conns _ _ Hq2)|done|done]) end.
    destruct Hq2 as [_ A2 A3 A4 (l&A5&A6)]. cbn [slots kslots log next set_kslots update set_conns]. rewrite A2, A3, A4, A5.
    cbn. rewrite (qt_kslots _ _ Hq). by apply ok_neutrals.
Qed.

Lemma concat_filter {A} (f : A -> bool) (g : conn -> list A) h C : (forall c, g (h c) = List.filter f (g c)) ->
  concat (map g (map h C)) = List.filter f (concat (map g C)).
Proof. intros E. induction C as [|c C IH]; [done|]. cbn [map concat]. by rewrite List.filter_app, E, IH. Qed.

Lemma concat_same {A} (g : conn -> list A) h C : (forall c, g (h c) = g c) -> concat (map g (map h C)) = concat (map g C).
Proof. intros E. induction C as [|c C IH]; [done|]. cbn [map concat]. by rewrite E, IH. Qed.

Lemma filter_out {A} (id : A -> Z) (l : list A) e : NoDup (map id l) -> e ∈ l -> l ≡ₚ e :: List.filter (fun x => negb (id x =? id e)) l.
Proof.
  induction l as [|x l IH]; intros Hn He; [by apply elem_of_nil in He|]. cbn [map] in Hn. apply NoDup_cons in Hn as [Hx Hn].
  cbn [List.filter]. apply elem_of_cons in He as [->|He].
  - rewrite Z.eqb_refl. cbn [negb]. f_equiv. assert (forall y, y ∈ l -> id y <> id x) as Hy.
    { intros y Hy Ey. apply Hx. rewrite <- Ey. by apply list_elem_of_fmap_2. }
    clear IH Hn Hx. induction l as [|y l IH]; [done|]. cbn [List.filter]. rewrite (proj2 (Z.eqb_neq _ _)) by (apply Hy; by left).
    cbn [negb]. f_equiv. apply IH. intros z Hz. apply Hy. by right.
  - assert (id x <> id e) as Hne by (intros E; apply Hx; rewrite E; by apply list_elem_of_fmap_2).
    rewrite (proj2 (Z.eqb_neq _ _) Hne). cbn [negb]. rewrite (perm_swap x e). f_equiv. by apply IH.
Qed.

Lemma filter_sub {A} (f : A -> bool) l : List.filter f l ⊆+ l.
Proof. induction l as [|x l IH]; [done|]. cbn [List.filter]. destruct (f x); [by apply submseteq_skip|by apply submseteq_cons]. Qed.

Lemma objs_sub h C : (forall c, objs (h c) ⊆+ objs c) -> concat (map objs (map h C)) ⊆+ concat (map objs C).
Proof. intros Hs. induction C as [|c C IH]; [done|]. cbn [map concat]. by apply submseteq_app. Qed.

Lemma ids_sub l l' nx : l' ⊆+ l -> NoDup l -> Forall (fun i : Z => i < nx) l -> NoDup l' /\ Forall (fun i => i < nx) l'.
Proof.
  intros [r E]%submseteq_Permutation Hn Hf. rewrite E in Hn, Hf. apply NoDup_app in Hn as [Hn _]. by apply Forall_app in Hf as [Hf _].
Qed.

Lemma cancel_queued_ok w slot : wok w -> wok (cancel_queued slot w).
Proof.
  intros H. unfold cancel_queued. destruct (slots w !! slot) as [q|] eqn:Es; [|done]. destruct H as [H1 H2 H3 H4 H5].
  destruct (objs_kinds _ H1) as [Hnq _]. pose proof Es as Es'. apply (tk_slot _ _ _ _ H4) in Es' as (e&He&Ee&<-).
  set (h := fun c => set_ql c _). destruct (ids_sub (concat (map objs (conns w))) (concat (map objs (map h (conns w)))) (next w)) as [H1' H2']; [|done|done|].
  { apply objs_sub. intros c. unfold objs, h. cbn [c_id ql kal set_ql]. apply submseteq_skip, submseteq_app; [|done].
    apply fmap_submseteq, filter_sub. }
  unfold wok. cbn [conns slots kslots log next act clear_slot set_slots set_conns].
  assert (concat (map ql (map h (conns w))) = List.filter (fun x => negb (q_id x =? q_id e)) (concat (map ql (conns w)))) as Eq by by apply concat_filter.
  constructor; try done.
  - apply Forall_fmap. eapply Forall_impl; [exact H3|]. intros c [A1 A2 A3 A4]. constructor; cbn; try done. intros Hee. by rewrite (A3 Hee).
  - rewrite Eq. set (Q := concat (map ql (conns w))) in *. pose proof (filter_out q_id Q e Hnq He) as Ep.
    pose proof (tracked_perm _ _ _ _ _ Ep H4) as H6. change (delete slot (slots w)) with (clear (Some slot) (slots w)). rewrite <- Ee.
    apply tracked_end; [by rewrite <- Ep|done|done|exact H6].
  - by rewrite (concat_same kal h).
Qed.

Lemma cancel_keepalive_ok w slot : wok w -> wok (cancel_keepalive slot w).
Proof.
  intros H. unfold cancel_keepalive. destruct (kslots w !! slot) as [q|] eqn:Es; [|done]. destruct H as [H1 H2 H3 H4 H5].
  destruct (objs_kinds _ H1) as [_ Hnk]. pose proof Es as Es'. apply H5 in Es' as (k&Hk&Ek&<-).
  set (h := fun c => set_kal c _). destruct (ids_sub (concat (map objs (conns w))) (concat (map objs (map h (conns w)))) (next w)) as [H1' H2']; [|done|done|].
  { apply objs_sub. intros c. unfold objs, h. cbn [c_id ql kal set_kal]. apply submseteq_skip, submseteq_app; [done|].
    apply fmap_submseteq, filter_sub. }
  unfold wok. cbn [conns slots kslots log next clear_kslot set_kslots set_conns].
  assert (concat (map kal (map h (conns w))) = List.filter (fun x => negb (ka_id x =? ka_id k)) (concat (map kal (conns w)))) as Eq by by apply concat_filter.
  constructor; try done.
  - apply Forall_fmap. eapply Forall_impl; [exact H3|]. intros c [A1 A2 A3 A4]. constructor; cbn; try done. intros Hne. apply A4.
    intros E. rewrite E in Hne. done.
  - by rewrite (concat_same ql h).
  - rewrite Eq. set (K := concat (map kal (conns w))) in *. pose proof (filter_out ka_id K k Hnk Hk) as Ep.
    pose proof (ktracked_perm _ _ _ Ep H5) as H6. rewrite <- Ek. apply ktracked_end; [by rewrite <- Ep|exact H6].
Qed.

Lemma cn_flush_ok w : wok w -> wok (sip_transp_flush w) /\ conns (sip_transp_flush w) = [].
Proof.
  unfold sip_transp_flush. intros H. remember (conns w) as l eqn:El. symmetry in El. revert w H El.
  induction l as [|c l IH]; intros w H El; [done|]. cbn [fold_left].
  assert (find_id w (c_id c) = Some c) as Ef by (unfold find_id; rewrite El; cbn [List.find]; by rewrite Z.eqb_refl).
  assert (forall d, d ∈ [] ++ l -> c_id d <> c_id c) as Ho.
  { intros d Hd Ed. pose proof (ok_ids _ _ _ _ _ H) as Hn. rewrite El in Hn. destruct (objs_apart [] c l Hn) as (_&_&Ha).
    apply (Ha (c_id c)); [unfold objs; by left|]. apply list_elem_of_In, ids_of, in_map_iff. exists d. split; [done|]. by apply list_elem_of_In. }
  destruct (ok_destroy w [] c l H El Ho) as [H' El']. by apply IH.
Qed.

(** ** Everything that can happen *)

Section Steps.
Context (decode : nat -> list Z -> decoded) (transpl : list sip_transport).

(** What the environment will answer next. *)
Definition ask (rs : list Z) (al : list bool) (rn : list Z) (w : world) : world :=
  mk_world (conns w) (slots w) (kslots w) (log w) rs al rn (next w) (calls w).

Inductive step (w : world) : world -> Prop :=
| StAsk rs al rn : step w (ask rs al rn w)
| StSend slot sock tp dst t h : (forall s, slot = Some s -> slots w !! s = None) -> step w (sip_transp_send transpl slot sock tp dst t h w).2
| StConnect tls peer : step w (tcp_connect_handler tls peer w)
| StEstab i c : find_id w i = Some c -> step w (tcp_estab_handler c w)
| StRecv i c chunk w' : find_id w i = Some c -> tcp_recv_handler decode c chunk w = Some w' -> step w w'
| StClose i c err : find_id w i = Some c -> step w (tcp_close_handler c err w)
| StTmr i c : find_id w i = Some c -> step w (conn_tmr_handler c w)
| StKa i c : find_id w i = Some c -> step w (conn_keepalive_handler c w)
| StCancel slot : step w (cancel_queued slot w)
| StKeep slot sock iv : kslots w !! slot = None -> step w (sip_keepalive_start slot sock iv w).2
| StUnkeep slot : step w (cancel_keepalive slot w)
| StFlush : step w (sip_transp_flush w).

Definition start_world : world := mk_world [] ∅ ∅ [] [] [] [] 0 0.
Inductive reach : world -> Prop :=
| reach_start : reach start_world
| reach_step w w' : reach w -> step w w' -> reach w'.

Lemma step_ok w w' : wok w -> step w w' -> wok w'.
Proof.
  intros H. destruct 1 as [| | | | | i c err E|i c E| | | | |]; [|by apply transp_send_ok|by apply tcp_connect_ok|by eapply estab_ok|by eapply recv_ok| | |
    by eapply ka_handler_ok|by apply cancel_queued_ok|by apply ka_start_ok|by apply cancel_keepalive_ok|by apply cn_flush_ok].
  - exact H.
  - destruct (wok_at w i c H E) as (l1&l2&El&Ho&_). by apply (ok_close w l1 c l2).
  - destruct (wok_at w i c H E) as (l1&l2&El&Ho&_). by apply (ok_close w l1 c l2).
Qed.

Lemma reach_ok w : reach w -> wok w.
Proof.
  induction 1; [|by eapply step_ok]. constructor; cbn; try done; [constructor| |].
  - constructor; cbn; try done; [|constructor]. intros s x. rewrite lookup_empty. split; [done|]. intros (e&He&_). by apply elem_of_nil in He.
  - intros s x. rewrite lookup_empty. split; [done|]. intros (e&He&_). by apply elem_of_nil in He.
Qed.

End Steps.

(** *** What closing tells *)

Lemma fail_queue_told q err : forall w, (forall a, In a (log w) -> In a (log (fail_queue q err w))) /\
  (forall s, slots w !! s = None -> slots (fail_queue q err w) !! s = None) /\
  (forall e, e ∈ q -> In (Failed (q_id e) err) (log (fail_queue q err w)) /\ (forall s, q_slot e = Some s -> slots (fail_queue q err w) !! s = None)).
Proof.
  induction q as [|e q IH]; intros w; cbn [fail_queue]; [split_and!; try done; intros e He; by apply elem_of_nil in He|].
  set (w1 := act _ _). destruct (IH w1) as (H1&H2&H3).
  assert (log w1 = log w ++ [Failed (q_id e) err] /\ slots w1 = clear (q_slot e) (slots w)) as [El Es] by (unfold w1; by destruct (q_slot e)).
  split_and!.
  - intros a Ha. apply H1. rewrite El. apply in_or_app. by left.
  - intros s Hs. apply H2. rewrite Es. unfold clear. destruct (q_slot e); [|done]. by apply lookup_delete_None; right.
  - intros f [->|Hf]%elem_of_cons; [|by apply H3]. split.
    + apply H1. rewrite El. apply in_or_app. right. by left.
    + intros s Hs. apply H2. rewrite Es, Hs. apply lookup_delete_eq.
Qed.

Lemma signal_told l err : forall w, let w' := sip_keepalive_signal l err w in
  (forall a, In a (log w) -> In a (log w')) /\
  (forall k, k ∈ l -> In (Kept (ka_id k) err) (log w') /\ kslots w' !! ka_slot k = None) /\
  slots w' = slots w /\ conns w' = conns w /\ (forall s, kslots w !! s = None -> kslots w' !! s = None).
Proof.
  induction l as [|k l IH]; intros w; cbn [sip_keepalive_signal]; [split_and!; try done; intros k Hk; by apply elem_of_nil in Hk|].
  set (w1 := act _ _). destruct (IH w1) as (H1&H2&H3&H4&H5). cbv zeta. split_and!; try done.
  - intros a Ha. apply H1. apply in_or_app. by left.
  - intros f [->|Hf]%elem_of_cons; [|by apply H2]. split.
    + apply H1. apply in_or_app. right. by left.
    + apply H5. cbn. apply lookup_delete_eq.
  - intros s Hs. apply H5. cbn. by apply lookup_delete_None; right.
Qed.

(** C19: whatever is sent, received, accepted, closed, canceled and timed out, and in
    whatever order: a message that was queued for a connection meets with at most one end
    (it is sent when the connection is established, its handler gets an error, it is
    canceled or freed with the stack), and while it has met with none it waits, once, on a
    connection that is not established but has a socket and a timer that will close it; and
    a sender's pointer is set exactly while its message waits, to that message. *)
Theorem conn_queue_once decode transpl w : reach decode transpl w ->
  (forall q, (occ q (fates (log w)) + occ q (map q_id (all_q w)) = occ q (queued (log w)))%nat /\ (occ q (queued (log w)) <= 1)%nat) /\
  (forall c e, c ∈ conns w -> e ∈ ql c -> established c = false /\ tc c = true /\ tmr c <> None) /\
  (forall s x, slots w !! s = Some x <-> exists e, e ∈ all_q w /\ q_slot e = Some s /\ q_id e = x).
Proof.
  intros [H1 H2 H3 [H4 H5 H6 H7] H8]%reach_ok. split_and!.
  - intros q. split; [symmetry; apply H5|]. unfold occ. by apply NoDup_count_occ, NoDup_ListNoDup.
  - intros c e Hc He. rewrite Forall_forall in H3. destruct (H3 c Hc) as [A1 A2 A3 A4]. split_and!; try done.
    destruct (established c); [|done]. rewrite A3 in He by done. by apply elem_of_nil in He.
  - exact H4.
Qed.

(** When a connection is closed by its peer, by its timer or for an error, it leaves
    the table, and each message that waited for it has met with its end. *)
Theorem conn_close_tells decode transpl w i c err : reach decode transpl w -> find_id w i = Some c ->
  let w' := conn_close c err w in
  find_id w' i = None /\ (forall e, e ∈ ql c -> In (Failed (q_id e) err) (log w') /\ (forall s, q_slot e = Some s -> slots w' !! s = None)) /\
  (forall k, k ∈ kal c -> In (Kept (ka_id k) err) (log w') /\ kslots w' !! ka_slot k = None).
Proof.
  intros H%reach_ok E w'. destruct (wok_at w i c H E) as (l1&l2&El&Ho&_&Ei). unfold w', conn_close.
  set (w1 := act _ _). destruct (fail_queue_told (ql c) err w1) as (_&_&Hq). destruct (fail_queue_same (ql c) err w1) as (E1&_&_).
  set (w2 := fail_queue _ _ w1) in *. destruct (signal_told (kal c) err w2) as (Hl2&Hk&Hs&Hc&_). split_and!.
  - unfold find_id. rewrite Hc, E1. unfold w1. cbn [conns act hash_unlink set_conns].
    match goal with |- ?x = None => destruct x as [d|] eqn:Ed; [|done] end. apply find_some in Ed as [Hd Ed].
    apply filter_In in Hd as [_ Hd]. rewrite Ei in Hd. by rewrite Ed in Hd.
  - intros e He. destruct (Hq e He) as [Hf Hsl]. split; [by apply Hl2|]. intros s Es. rewrite Hs. by apply Hsl.
  - intros k Hkk. by apply Hk.
Qed.

(** ** A concrete run *)

Definition exc_sa : sa := mk_sa 2 [19; 196] [10; 0; 0; 1] (zeros 16) 16.
(** Two messages wait for one connection, one is given up, the other is sent when the
    connection is established; the peer closes it. *)
Definition exc_w1 : world := (sip_transp_send [] (Some 7) None SIP_TRANSP_TCP exc_sa [1; 2] true start_world).2.
Definition exc_w2 : world := (sip_transp_send [] (Some 8) None SIP_TRANSP_TCP exc_sa [3] true exc_w1).2.
Definition exc_w3 : world := cancel_queued 7 exc_w2.
Definition exc_conn (w : world) : conn := match conns w with c :: _ => c | [] => new_conn 0 exc_sa end.
Definition exc_w4 : world := tcp_estab_handler (exc_conn exc_w3) exc_w3.

Example exc_queue : (map q_id (all_q exc_w2), log exc_w4, conns (tcp_close_handler (exc_conn exc_w4) 0 exc_w4)) =
  ([1; 2], [Queued 1; Queued 2; Canceled 1; Sent 0 [3]; Flushed 2], []).
Proof. vm_compute. reflexivity. Qed.

Lemma exc_reach (decode : nat -> list Z -> decoded) : reach decode [] exc_w3.
Proof.
  apply (reach_step _ _ exc_w2); [|apply (StCancel _ _ _ 7)].
  apply (reach_step _ _ exc_w1); [|apply StSend; intros s [= <-]; vm_compute; reflexivity].
  apply (reach_step _ _ start_world); [apply reach_start|]. apply StSend. intros s [= <-]. vm_compute. reflexivity.
Qed.

Lemma conn_queue_once_witness : (occ 2 (fates (log exc_w3)) + occ 2 (map q_id (all_q exc_w3)) = 1)%nat /\ slots exc_w3 !! 8 = Some 2.
Proof.
  destruct (conn_queue_once (fun _ _ => Bad 0) [] exc_w3 (exc_reach _)) as (Hc&_&Hs). split.
  - rewrite (proj1 (Hc 2)). vm_compute. reflexivity.
  - apply Hs. exists (mk_qent 2 [3] (Some 8) true). split_and!; [|reflexivity|reflexivity].
    apply list_elem_of_In. vm_compute. left. reflexivity.
Defined.

Lemma exc_find : find_id exc_w3 0 = Some (exc_conn exc_w3).
Proof. vm_compute. reflexivity. Qed.

Lemma conn_close_tells_witness : In (Failed 2 ECONNRESET) (log (conn_close (exc_conn exc_w3) ECONNRESET exc_w3)).
Proof.
  destruct (conn_close_tells (fun _ _ => Bad 0) [] exc_w3 0 (exc_conn exc_w3) ECONNRESET (exc_reach _) exc_find) as (_&Hq&_).
  apply (Hq (mk_qent 2 [3] (Some 8) true)). apply list_elem_of_In. vm_compute. left. reflexivity.
Defined.

End SipConnInv.
