(* ===== verification/SipStream.v ===== *)
(** * Messages out of a stream: sip_msg_decode on what has come so far

    A transport that carries a stream decodes what it has and tries again with more
    (src/libre/src/sip/transp.c).  This works because the decoder of src/libre/src/sip/msg.c
    asks for more on every text that stops inside the header of a message, and takes the
    same header out of every text that begins with it. *)
From stdpp Require Import base list.
From S2P Require Import Prelude Mbuf Pl Regex Param Sa Hash Uri SipHdr SipId SipMsg SipScan SipConn.
Import Pl Regex Param Uri SipHdr SipId SipMsg SipScan.

Module SipStream.

Section More.
Context (inet_pton : Z -> list Z -> option (list Z)) (news : nat -> Z) (base : Z) (text u : list Z).
Context (Hbase : 0 < base) (Hlen : Z.of_nat (length text) < 2147483648).

Abbreviation stop := (base + Z.of_nat (length text)).

(** ** What was found in a text is found in a longer one *)

Lemma slice_more q l x : slice base text q l = Some x -> slice base (text ++ u) q l = Some x.
Proof.
  unfold slice. destruct (Z.leb_spec base q), (Z.leb_spec 0 l), (Z.leb_spec (q + l) stop); try done. cbn [andb]. intros [= <-].
  rewrite length_app. destruct (Z.leb_spec (q + l) (base + Z.of_nat (length text + length u))); [|lia].
  do 2 f_equal. rewrite drop_app_le by lia. rewrite take_app_le; [done|]. rewrite length_drop. lia.
Qed.

Lemma add_more s p q atomic line r : add inet_pton news base text s p q atomic line = Some r ->
  add inet_pton news base (text ++ u) s p q atomic line = Some r.
Proof.
  unfold add. destruct (slice base text (np s) (nl s)) as [nm|] eqn:E1; [|done]. rewrite (slice_more _ _ _ E1). cbn [mbind option_bind].
  destruct (negb (q =? 0)).
  - destruct (slice base text q _) as [w|] eqn:E2; [|done]. by rewrite (slice_more _ _ _ E2).
  - destruct (slice base text p 0) as [w|] eqn:E2; [|done]. by rewrite (slice_more _ _ _ E2).
Qed.

Lemma value_end_more p s f : value_end inet_pton news base text p s = Some f ->
  value_end inet_pton news base (text ++ u) p s = Some f.
Proof.
  unfold value_end. destruct (nl s =? 0); [done|].
  destruct (add inet_pton news base text s p (cv s) true _) as [[e s1]|] eqn:E1; [|done]. rewrite (add_more _ _ _ _ _ _ E1).
  cbn [mbind option_bind]. destruct (negb (e =? 0)); [done|]. destruct (lf s1 =? 0); [done|]. destruct (negb (cv s1 =? v s1)); [|done].
  destruct (add inet_pton news base text s1 p (v s1) false true) as [[e2 s2]|] eqn:E2; [|done]. by rewrite (add_more _ _ _ _ _ _ E2).
Qed.

Lemma char_more c p s : base <= p < stop -> lf s = 0 -> 0 <= ws s <= p - base -> np s = 0 \/ base <= np s <= p ->
  char base (text ++ u) c p s = char base text c p s.
Proof.
  intros Hp Hlf Hws Hn. unfold char. set (s1 := if np s =? 0 then _ else s).
  assert (base <= np s1 <= p /\ 0 <= ws s1 <= p - base) as [Hn1 Hw1] by (unfold s1; destruct (Z.eqb_spec (np s) 0); cbn; lia).
  clearbody s1. destruct (nl s1 =? 0); [|done]. destruct (negb (c =? _)); [done|].
  set (l := Z.max _ 0). assert (0 <= l <= p - np s1) as Hl by (unfold l; rewrite s32_small by lia; lia). cbv zeta.
  destruct (l =? 0); [done|].
  cbn [np set_name]. rewrite (drop_app_le text) by lia. rewrite take_app_le; [done|]. rewrite length_drop. lia.
Qed.

Lemma default_case_more c p s f : scan_ok base text p s -> (nl s <> 0 -> np s <> 0) -> p < stop ->
  default_case inet_pton news base text c p s = Some f -> default_case inet_pton news base (text ++ u) c p s = Some f.
Proof.
  intros H Hnp Hp. unfold default_case. destruct (_ || _ && _) eqn:Eb.
  - destruct (value_end_defined inet_pton news base text Hbase p s H Hnp) as (f1&E&Hf). rewrite E, (value_end_more _ _ _ E).
    cbn [mbind option_bind]. destruct f1 as [e s'|s'|s']; try done.
    destruct Hf as (_&Hm&E1&E2&E3&E4&E5&E6). intros <-. f_equal. apply char_more; try done; [destruct H; lia|by left].
  - apply orb_false_iff in Eb as [Elf%negb_false_iff%Z.eqb_eq _]. cbn [mbind option_bind]. intros <-. f_equal.
    destruct H. apply char_more; (done || lia).
Qed.

Lemma default_case_defined c p s : scan_ok base text p s -> (nl s <> 0 -> np s <> 0) -> lf s < 2 -> p < stop ->
  exists f, default_case inet_pton news base text c p s = Some f /\
    match f with
    | Out _ _ => True
    | Next s' | On s' => scan_ok base text (p + 1) s' /\ (nl s' <> 0 -> np s' <> 0) /\ lf s' = 0
    end.
Proof.
  intros H Hnp Hlf Hp. unfold default_case. destruct (_ || _ && _) eqn:Eb.
  - destruct (value_end_defined inet_pton news base text Hbase p s H Hnp) as (f&->&Hf). cbn [mbind option_bind].
    destruct f as [e s'|s'|s']; [by eexists|eexists; split; [done|]|eexists; split; [done|]].
    + destruct Hf as (H'&El&E0&Enl). split_and!; [|intros _ E; apply Enl; by apply (so_none _ _ _ _ H')|congruence].
      destruct H'. split; (done || lia).
    + destruct Hf as (_&Hm&E1&E2&E3&E4&E5&E6). destruct H.
      pose proof (char_defined base text Hbase Hlen c p s' Hm ltac:(lia) E4 E5 E6 (or_introl E1) (or_introl E2) (or_introl E3) ltac:(lia)) as Hc.
      by destruct (char base text c p s').
  - apply orb_false_iff in Eb as [Elf%negb_false_iff%Z.eqb_eq _]. cbn [mbind option_bind]. eexists. split; [done|]. destruct H.
    pose proof (char_defined base text Hbase Hlen c p s so_msg0 ltac:(lia) Elf so_ws0 so_nl0 so_np0 so_v0 so_cv0 so_name0) as Hc.
    by destruct (char base text c p s).
Qed.

(** The scanner stops inside the text, the same way with more behind it, or gets to its end,
    and goes on from there with more. *)
Lemma scan_loop_more t : forall p s, scan_ok base text p s -> (nl s <> 0 -> np s <> 0) -> lf s < 2 -> p + Z.of_nat (length t) = stop ->
  (exists e s' r, scan_loop inet_pton news base text t p s = Some (e, s', r) /\
     scan_loop inet_pton news base (text ++ u) (t ++ u) p s = Some (e, s', r ++ u)) \/
  (exists s', scan_loop inet_pton news base text t p s = Some (ENODATA, s', []) /\
     scan_loop inet_pton news base (text ++ u) (t ++ u) p s = scan_loop inet_pton news base (text ++ u) u stop s').
Proof.
  induction t as [|c t IH]; intros p s H Hnp Hlf Hp; cbn [length] in *.
  { right. exists s. split; [done|]. cbn [app]. f_equal. lia. }
  cbn [scan_loop app].
  assert (forall w l, 0 <= w <= p + 1 - base -> 0 <= l <= 2 -> scan_ok base text (p + 1) (set_ws s w l)) as Hset.
  { intros w l Hw Hl. destruct H. split; cbn; (done || lia || tauto). }
  assert (u32 (ws s + 1) = ws s + 1) as Ew by (apply u32_small; destruct H; lia). rewrite Ew.
  pose proof (so_ws _ _ _ _ H) as Hw. pose proof (so_lf _ _ _ _ H) as Hl0.
  destruct (_ || (c =? 9)); [apply IH; [apply Hset; lia|done|cbn; lia|lia]|].
  destruct (c =? 13); [apply IH; [apply Hset; lia|done|cbn; lia|lia]|].
  destruct (c =? 10); cbn [andb].
  { destruct (Z.eqb_spec (lf s) 0); [apply IH; [apply Hset; lia|done|cbn; lia|lia]|].
    assert (u32 (lf s + 1) = 2) as -> by (rewrite u32_small; lia). left.
    destruct (value_end_defined inet_pton news base text Hbase (p + 1) (set_ws s (ws s + 1) 2)) as (f&E&Hf); [apply Hset; lia|done|].
    rewrite E, (value_end_more _ _ _ E). cbn [mbind option_bind]. destruct f as [e s'|s'|s']; cbn in Hf; [|lia|lia]. by exists e, s', t. }
  destruct (default_case_defined c p s H Hnp Hlf ltac:(lia)) as (f&Ed&Hf).
  rewrite Ed, (default_case_more _ _ _ _ H Hnp ltac:(lia) Ed). cbn [mbind option_bind].
  destruct f as [e s'|s'|s']; [left; by exists e, s', (c :: t)|..]; destruct Hf as (?&?&?); apply IH; (done || lia).
Qed.

End More.

(** ** The decoder behind the start line *)

Section Message.
Context (inet_pton : Z -> list Z -> option (list Z)).

(** The first characters of a text, in a buffer. *)
Definition buf_at (p n : Z) : Mbuf.mbuf := Mbuf.mk_mbuf p n 0 n.

Definition outer (b : Mbuf.mbuf) (news : nat -> Z) (text r : list Z) (p : Z) (m : sip_msg) : option (Z * option sip_msg * Mbuf.mbuf) :=
  '(err, s, r) ← scan_loop inet_pton news (Mbuf.buf b + Mbuf.pos b) text r p (mk_scan m 0 0 0 SIP_HDR_NONE 0 0 0 0 false false);
  if negb (err =? 0) then Some (err, None, b)
  else Some (0, Some (msg s), Mbuf.mk_mbuf (Mbuf.buf b) (Mbuf.size b) (Mbuf.end_ b - Z.of_nat (length r)) (Mbuf.end_ b)).

(** The message that the start line begins. *)
Definition begun (p pb rand : Z) (l : start) : option (Z * sip_msg) :=
  let q := p + Z.of_nat (length (w1 l)) + 1 in
  let r := q + Z.of_nat (length (w2 l)) + 1 in
  start_decode inet_pton (new_msg pb rand empty_table (bool_decide (w3 l = c_str "SIP/2.0"))) (mk_pl p (w1 l)) (mk_pl q (w2 l)) (mk_pl r (w3 l)).

Lemma decode_start pb b text rand news l R : start_ok l -> text = start_text l ++ R -> 0 < Mbuf.buf b -> 0 <= Mbuf.pos b ->
  Z.of_nat (length text) < 2147483648 ->
  let p := Mbuf.buf b + Mbuf.pos b in
  sip_msg_decode inet_pton pb b text true true rand news =
    '(err, m) ← begun p pb rand l;
    if negb (err =? 0) then Some (err, None, b) else outer b news text R (p + Z.of_nat (length (start_text l))) m.
Proof.
  intros Hl Et Hbuf Hpos Hlen p. unfold sip_msg_decode, begun.
  assert (length text = (length (start_text l) + length R)%nat) as El by (by rewrite Et, length_app).
  destruct (Z.eqb_spec (Mbuf.buf b) 0); [lia|]. fold p.
  destruct (start_eval p l R Hl) as (caps&Ecaps&Es); [unfold UINT32_MAX; lia|]. rewrite <- Et in Ecaps.
  rewrite (re_regex_eval _ _ start_items (mk_pl p text) caps); [|exact start_items_ok|discriminate|cbn; lia|cbn; lia| |exact Ecaps].
  2: { cbn [pl_s]. intros E. rewrite E in El. unfold start_text in El. rewrite length_app in El. cbn in El. lia. }
  rewrite Es. cbn [mbind option_bind]. change (negb (0 =? 0)) with false. cbn match.
  destruct (start_args p l) as (->&->&->&->). cbn [mbind option_bind pl_p]. rewrite Z.eqb_refl. cbn [negb].
  change (Hash.hash_alloc HDR_HASH_SIZE true) with (0, Some (empty_table : Hash.hash sip_hdr)). cbn match.
  set (r := p + Z.of_nat (length (w1 l)) + 1 + Z.of_nat (length (w2 l)) + 1).
  assert ((pl_strcmp (Some (mk_pl r (w3 l))) (Some (mk_pl 1 (c_str "SIP/2.0"))) =? 0) =
    bool_decide (w3 l = c_str "SIP/2.0")) as -> by (rewrite pl_strcmp_text by (cbn [pl_p]; unfold r, p; lia); done).
  destruct (start_decode _ _ _ _ _) as [[err m]|]; [|done]. cbn [mbind option_bind]. destruct (negb (err =? 0)); [done|].
  unfold outer. fold p. set (q' := _ + pl_l _). assert (q' = p + Z.of_nat (length (start_text l))) as ->.
  { unfold q', start_text, pl_l, r. cbn [pl_p pl_s length]. repeat (rewrite length_app; cbn [length]). lia. }
  replace (Z.to_nat (p + Z.of_nat (length (start_text l)) - p)) with (length (start_text l)) by lia.
  by rewrite Et, drop_app_length.
Qed.

(** ** Headers that are decoded *)

Definition header (l : start) (fs : list field) (eol : list Z) : list Z := start_text l ++ fields_text fs ++ eol.

(** The header of a message that decodes to [m] at the address [p]. *)
Record header_ok (p pb rand : Z) (news : nat -> Z) (l : start) (fs : list field) (eol : list Z) (m : sip_msg) : Prop := {
  ho_start : start_ok l;
  ho_short : Z.of_nat (length (start_text l)) <= STARTLINE_MAX;
  ho_fields : fs <> [] /\ Forall field_ok fs;
  ho_eol : eol_ok eol;
  ho_decoded : exists m0, begun p pb rand l = Some (0, m0) /\
    add_all inet_pton news 0 m0 (entries fs (p + Z.of_nat (length (start_text l))) (Z.of_nat (length eol))) = Some (0, m) }.

Section Header.
Context (pb rand : Z) (news : nat -> Z) (l : start) (fs : list field) (eol : list Z) (m : sip_msg) (b : Mbuf.mbuf).
Context (Hok : header_ok (Mbuf.buf b + Mbuf.pos b) pb rand news l fs eol m) (Hbuf : 0 < Mbuf.buf b) (Hpos : 0 <= Mbuf.pos b).

(** With anything behind it. *)
Lemma header_decoded body : Z.of_nat (length (header l fs eol ++ body)) < 2147483648 ->
  sip_msg_decode inet_pton pb b (header l fs eol ++ body) true true rand news =
    Some (0, Some m, Mbuf.mk_mbuf (Mbuf.buf b) (Mbuf.size b) (Mbuf.end_ b - Z.of_nat (length body)) (Mbuf.end_ b)).
Proof.
  intros Hlen. destruct Hok as [Hl _ [Hne Hfs] Heol (m0&Eb&Ea)].
  rewrite (sip_msg_decode_lines inet_pton pb b _ rand news l fs eol body Hl Hne Hfs Heol); [|by unfold header; rewrite <- !app_assoc|done..].
  unfold begun in Eb. rewrite Eb. cbn [mbind option_bind]. change (negb (0 =? 0)) with false. cbn match.
  rewrite Ea. reflexivity.
Qed.

(** No start line ends before its last character. *)
Lemma start_unfinished t u : start_ok l -> start_text l = t ++ u -> u <> [] -> 10 ∉ t.
Proof.
  intros ([_ H1]&[_ H2]&H3&H4) Et Hu. destruct (exists_last Hu) as (u'&x&->). unfold start_text in Et.
  replace (w1 l ++ 32 :: w2 l ++ 32 :: w3 l ++ crs l ++ [10]) with ((w1 l ++ 32 :: w2 l ++ 32 :: w3 l ++ crs l) ++ [10]) in Et
    by (repeat (rewrite <- app_assoc; cbn [app]); done).
  rewrite app_assoc in Et. apply app_inj_tail in Et as [Et _]. intros Hin.
  assert (10 ∈ w1 l ++ 32 :: w2 l ++ 32 :: w3 l ++ crs l) as Hn by (rewrite Et; apply elem_of_app; by left).
  rewrite forallb_forall in H1, H2, H4. unfold free in H3. rewrite forallb_forall in H3.
  rewrite !elem_of_app, !elem_of_cons, !elem_of_app, elem_of_cons, !elem_of_app in Hn.
  destruct Hn as [Hn|[Hn|[Hn|[Hn|[Hn|Hn]]]]]; try done; apply list_elem_of_In in Hn; [by specialize (H1 _ Hn)|by specialize (H2 _ Hn)|by specialize (H3 _ Hn)|by specialize (H4 _ Hn)].
Qed.

(** And with anything missing. *)
Lemma header_incomplete t u : header l fs eol = t ++ u -> u <> [] -> Z.of_nat (length (header l fs eol)) < 2147483648 ->
  sip_msg_decode inet_pton pb b t true true rand news = Some (ENODATA, None, b).
Proof.
  intros Et Hu Hlen. pose proof (header_decoded []) as Hd. rewrite !app_nil_r in Hd. specialize (Hd Hlen).
  destruct Hok as [Hl Hshort _ _ (m0&Eb&_)]. rewrite Et, length_app in Hlen.
  destruct (Nat.lt_ge_cases (length t) (length (start_text l))) as [Hlt|Hge].
  - unfold header in Et. assert (exists v, start_text l = t ++ v) as [v Ev].
    { exists (drop (length t) (start_text l)). rewrite <- (take_drop (length t) (start_text l)) at 1. f_equal.
      rewrite <- (take_app_le (start_text l) (fields_text fs ++ eol)) by lia. rewrite Et. apply take_app_length. }
    assert (v <> []) as Hv by (intros ->; rewrite Ev, app_nil_r in Hlt; lia). pose proof (start_unfinished t v Hl Ev Hv) as Hn.
    unfold sip_msg_decode. destruct (Z.eqb_spec (Mbuf.buf b) 0); [lia|].
    destruct (start_inv (Mbuf.buf b + Mbuf.pos b) t) as [(os&->)|(i&l'&_&Ed&_)]; [lia| |].
    + cbn [mbind option_bind]. change (negb (ENOENT =? 0)) with true. cbn match. destruct (Z.ltb_spec STARTLINE_MAX (Z.of_nat (length t))); [lia|done].
    + exfalso. apply Hn. assert (10 ∈ drop i t) as H10; [|rewrite <- (take_drop i t); apply elem_of_app; by right].
      rewrite Ed. unfold start_text. rewrite !elem_of_app, !elem_of_cons, !elem_of_app, elem_of_cons, !elem_of_app, list_elem_of_singleton. tauto.
  - assert (exists t', t = start_text l ++ t') as [t' ->].
    { exists (drop (length (start_text l)) t). rewrite <- (take_drop (length (start_text l)) t) at 1. f_equal.
      rewrite <- (take_app_le t u) by lia. rewrite <- Et. unfold header. apply take_app_length. }
    rewrite Et in Hd. rewrite <- app_assoc in Hd. rewrite length_app in Hlen.
    rewrite (decode_start pb b _ rand news l (t' ++ u) Hl eq_refl Hbuf Hpos) in Hd by (rewrite !length_app; lia).
    rewrite (decode_start pb b _ rand news l t' Hl eq_refl Hbuf Hpos) by (rewrite !length_app; lia).
    rewrite Eb in *. cbn [mbind option_bind] in *. change (negb (0 =? 0)) with false in *. cbn match in *. unfold outer in *.
    set (p := Mbuf.buf b + Mbuf.pos b) in *. set (q := p + Z.of_nat (length (start_text l))) in *.
    destruct (scan_loop_more inet_pton news p (start_text l ++ t') u ltac:(unfold p; lia) ltac:(rewrite length_app; lia) t' q
      (mk_scan m0 0 0 0 SIP_HDR_NONE 0 0 0 0 false false)) as [(e&s&r&E1&E2)|(s&E1&_)].
    + unfold begun in Eb. match type of Eb with start_decode ?i ?m ?x ?y ?z = _ =>
        destruct (start_decode_defined i m x y z) as (e1&m1&E&El&Eh) end. rewrite E in Eb. injection Eb as -> ->.
      split; cbn; rewrite ?length_app; try (lia || tauto). split; rewrite ?El, ?Eh; cbn; [done|done| |by constructor].
      repeat constructor.
    + cbn. lia.
    + cbn. lia.
    + rewrite length_app. unfold q. lia.
    + rewrite app_assoc in Hd. rewrite E2 in Hd. cbn [mbind option_bind] in Hd. destruct (negb (e =? 0)); [done|].
      exfalso. injection Hd as _ Hd. rewrite length_app in Hd. destruct u; [done|cbn [length] in Hd; lia].
    + rewrite E1. reflexivity.
Qed.

End Header.

(** ** The decoder of a connection *)

(** Where the text is, and the message and its fields are allocated, at each call. *)
Record place_env := mk_place { e_text : Z; e_msg : Z; e_rand : Z; e_news : nat -> Z }.

Definition wire (env : nat -> place_env) (k : nat) (text : list Z) : SipConn.decoded :=
  let e := env k in let n := Z.of_nat (length text) in
  match sip_msg_decode inet_pton (e_msg e) (buf_at (e_text e) n) text true true (e_rand e) (e_news e) with
  | Some (err, Some m, b) =>
      if negb (err =? 0) then SipConn.Bad err
      else SipConn.Header (Mbuf.pos b) (if pl_p (clen m) =? 0 then None else Some (pl_u32 (Some (clen m))))
  | Some (err, None, _) => SipConn.Bad err
  | None => SipConn.Bad EBADMSG
  end.

Record wire_msg := mk_wire { m_start : start; m_fields : list field; m_eol : list Z; m_body : list Z }.
Definition wire_header (x : wire_msg) : list Z := header (m_start x) (m_fields x) (m_eol x).
Inductive wire_piece := Blank | Message (x : wire_msg).
Definition piece_of (p : wire_piece) : SipConn.piece :=
  match p with Blank => SipConn.Crlf | Message x => SipConn.Msg (wire_header x) (m_body x) end.

(** A message of well-formed lines, which says how long its body is. *)
Record wire_ok (env : nat -> place_env) (most : Z) (x : wire_msg) : Prop := {
  wo_header : forall k, exists m, header_ok (e_text (env k)) (e_msg (env k)) (e_rand (env k)) (e_news (env k)) (m_start x) (m_fields x) (m_eol x) m /\
    pl_p (clen m) <> 0 /\ pl_u32 (Some (clen m)) = Z.of_nat (length (m_body x));
  wo_size : Z.of_nat (length (wire_header x ++ m_body x)) <= most }.

Definition wire_piece_ok (env : nat -> place_env) (most : Z) (p : wire_piece) : Prop :=
  match p with Blank => True | Message x => wire_ok env most x end.

Lemma wire_framed env most x : (forall k, 0 < e_text (env k)) -> most <= SipConn.TCP_BUFSIZE_MAX -> wire_ok env most x ->
  SipConn.framed (wire env) most (wire_header x) (m_body x).
Proof.
  intros He Hm [Hh Hs]. destruct (Hh 0%nat) as (m0&[([Hn1 Hw1]&_) _ _ _ _]&_). unfold SipConn.TCP_BUFSIZE_MAX in *.
  assert (exists c r, wire_header x = c :: r /\ c <> 13 /\ r <> []) as (c&r&Ec&Hc&Hr).
  { unfold wire_header, header, start_text. destruct (w1 (m_start x)) as [|c r]; [done|]. eexists c, _. split; [reflexivity|]. split.
    - intros ->. cbn in Hw1. done.
    - destruct r; discriminate. }
  constructor; [|done| |].
  - rewrite Ec. cbn [length hd_error]. split; [destruct r; [done|cbn [length]; lia]|]. by intros [= ->].
  - intros k y Hy. destruct (Hh k) as (m&Hok&Hp&Hl). unfold wire.
    unfold SipConn.TCP_BUFSIZE_MAX in Hy.
    rewrite (header_decoded (e_msg (env k)) (e_rand (env k)) (e_news (env k)) (m_start x) (m_fields x) (m_eol x) m
      (buf_at (e_text (env k)) (Z.of_nat (length (wire_header x ++ y))))) by (cbn [buf_at Mbuf.buf Mbuf.pos]; rewrite ?Z.add_0_r; (done || apply He || unfold wire_header in Hy; lia)).
    change (negb (0 =? 0)) with false. cbn match. rewrite (proj2 (Z.eqb_neq _ _) Hp), Hl. cbn [buf_at Mbuf.pos Mbuf.end_]. f_equal.
    rewrite length_app. lia.
  - intros k t u E Hu Ht. destruct (Hh k) as (m&Hok&_). unfold wire. rewrite length_app in Hs.
    rewrite (header_incomplete (e_msg (env k)) (e_rand (env k)) (e_news (env k)) (m_start x) (m_fields x) (m_eol x) m
      (buf_at (e_text (env k)) (Z.of_nat (length t)))) with (u := u); try done; cbn [buf_at Mbuf.buf Mbuf.pos]; rewrite ?Z.add_0_r; try done; try apply He.
    unfold wire_header in *. lia.
Qed.

End Message.

(** C18: however the network cuts a stream of messages and empty lines into chunks, a
    connection hands on exactly the messages of the stream, each with its header and its
    body and in their order, and keeps nothing in the end; as long as no message is longer
    than [most] bytes and no chunk than the rest of the buffer's limit. *)
Theorem sip_stream_exact inet_pton env most ps chunks c w : (forall k, 0 < e_text (env k)) -> 2 <= most <= SipConn.TCP_BUFSIZE_MAX ->
  Forall (wire_piece_ok inet_pton env most) ps ->
  concat chunks = SipConn.stream (map piece_of ps) ->
  Forall (fun chunk => Z.of_nat (length chunk) <= SipConn.TCP_BUFSIZE_MAX - most) chunks ->
  SipConn.mb c = None -> SipConn.results w = [] -> SipConn.allocs w = [] -> SipConn.find_id w (SipConn.c_id c) = Some c ->
  exists c' w', SipConn.recv_all (wire inet_pton env) (SipConn.c_id c) chunks w = Some w' /\
    SipConn.find_id w' (SipConn.c_id c) = Some c' /\ SipConn.pending c' = [] /\
    SipConn.received w' = SipConn.received w ++
      omap (fun p => match p with Blank => None | Message x => Some (wire_header x ++ m_body x) end) ps.
Proof.
  intros He Hm Hps Ec Hch Hmb Hw Ha Hf.
  assert (Forall (SipConn.piece_ok (wire inet_pton env) most) (map piece_of ps)) as Ho.
  { apply Forall_fmap. eapply Forall_impl; [exact Hps|]. intros [|x] Hx; [done|]. apply wire_framed; [done|lia|done]. }
  assert (SipConn.pending c = []) as Hp by (unfold SipConn.pending; by rewrite Hmb).
  destruct (SipConn.chunks_cut (wire inet_pton env) most chunks (map piece_of ps) c w) as (c'&w'&?&?&?&Er); try done.
  - by rewrite Hp.
  - rewrite Hp. apply (SipConn.unfinished_short (wire inet_pton env) most); [done|simpl; lia].
  - lia.
  - unfold SipConn.pos_fine. by rewrite Hmb.
  - exists c', w'. split_and!; try done. rewrite Er. f_equal. unfold SipConn.messages. clear. induction ps as [|[|x] ps IH]; [done|exact IH|].
    cbn. f_equal. exact IH.
Qed.

(** ** A concrete stream *)

Definition exw_env (_ : nat) : place_env := mk_place 1500 50 7 ex_news.
Definition exw_fields : list field :=
  [mk_field (c_str "Via") [] [c_str " SIP/2.0/TCP 1.2.3.4:5062;branch=z9"] [13; 10];
   mk_field (c_str "To") [32] [c_str "sip:b@c"] [10];
   mk_field (c_str "Content-Length") [] [c_str " 4"] [13; 10]].
Definition exw_msg : wire_msg := mk_wire ex_start exw_fields [13; 10] (c_str "body").

Definition exw_begun : sip_msg := match begun Sa.ex_pton 1500 50 7 ex_start with Some (_, m) => m | None => ex_msg end.
Definition exw_m : sip_msg :=
  match add_all Sa.ex_pton ex_news 0 exw_begun (entries exw_fields (1500 + Z.of_nat (length (start_text ex_start))) 2) with
  | Some (_, m) => m | None => ex_msg end.

Lemma exw_decoded : begun Sa.ex_pton 1500 50 7 ex_start = Some (0, exw_begun) /\
  add_all Sa.ex_pton ex_news 0 exw_begun (entries exw_fields (1500 + Z.of_nat (length (start_text ex_start))) 2) = Some (0, exw_m).
Proof. split; vm_compute; reflexivity. Qed.

Lemma exw_ok : wire_ok Sa.ex_pton exw_env 200 exw_msg.
Proof.
  constructor; [|vm_compute; discriminate]. intros k. exists exw_m. split; [|split; [by vm_compute|vm_compute; reflexivity]].
  constructor; cbn [exw_env e_text e_msg e_rand e_news exw_msg m_start m_fields m_eol].
  - exact ex_start_ok.
  - vm_compute. discriminate.
  - split; [discriminate|]. repeat (apply Forall_cons_2; [apply field_check_ok; vm_compute; reflexivity|]). constructor.
  - by right.
  - exists exw_begun. exact exw_decoded.
Qed.

Definition exw_text : list Z := wire_header exw_msg ++ c_str "body".
Definition exw_conn : SipConn.conn := SipConn.mk_conn 3 [] [] (Some 32000) None (Sa.sa_init 2) false true None 0 true.
Definition exw_world : SipConn.world := SipConn.mk_world [exw_conn] ∅ ∅ [] [] [] [] 4 0.

(** Two messages with empty lines between them, one byte at a time. *)
Definition exw_pieces : list wire_piece := [Message exw_msg; Blank; Blank; Message exw_msg].
Definition exw_chunks : list (list Z) := map (fun c => [c]) (exw_text ++ [13; 10; 13; 10] ++ exw_text).

Lemma exw_pieces_ok : Forall (wire_piece_ok Sa.ex_pton exw_env 200) exw_pieces.
Proof. apply Forall_cons_2; [exact exw_ok|]. do 2 (apply Forall_cons_2; [exact I|]). apply Forall_cons_2; [exact exw_ok|constructor]. Qed.
Lemma exw_chunks_ok : concat exw_chunks = SipConn.stream (map piece_of exw_pieces) /\
  Forall (fun chunk => Z.of_nat (length chunk) <= SipConn.TCP_BUFSIZE_MAX - 200) exw_chunks.
Proof.
  split; [vm_compute; reflexivity|]. apply Forall_fmap, Forall_true. intros c. cbn. unfold SipConn.TCP_BUFSIZE_MAX. lia.
Qed.

Lemma sip_stream_exact_witness : exists w', SipConn.recv_all (wire Sa.ex_pton exw_env) 3 exw_chunks exw_world = Some w' /\
  SipConn.received w' = [exw_text; exw_text].
Proof.
  destruct (sip_stream_exact Sa.ex_pton exw_env 200 exw_pieces exw_chunks exw_conn exw_world) as (c'&w'&E&_&_&Er);
    [intros k; reflexivity|unfold SipConn.TCP_BUFSIZE_MAX; lia|exact exw_pieces_ok|apply exw_chunks_ok|apply exw_chunks_ok|reflexivity|reflexivity|reflexivity|reflexivity|].
  exists w'. split; [exact E|exact Er].
Defined.

(** A ping, two empty lines, is answered only when both come in one chunk. *)
Example split_ping :
  let run chunks := match SipConn.recv_all (wire Sa.ex_pton exw_env) 3 chunks exw_world with Some w => Some (SipConn.log w) | None => None end in
  run [[13; 10; 13; 10]] = Some [SipConn.Sent 3 [13; 10]] /\ run [[13; 10]; [13; 10]] = Some [].
Proof. vm_compute. split; reflexivity. Qed.

End SipStream.
