(* ===== verification/SipRequest.v ===== *)
(** * SIP requests: src/libre/src/sip/request.c

    A request finds out where to send to, by looking up NAPTR, SRV and address records,
    sends, and tries the next destination when one fails; until it has an outcome, which
    its response handler is told once.  The results of allocations, queries and sending
    are an environment that every function consumes in the order of its calls, and the
    calls out of the module are recorded.  sip_requestf and sip_drequestf, which print
    the header fields of their callers, are left out; the loop state is in [Sipreg]. *)
From S2P Require Import Prelude Mem Pl Hash Mbuf Codec Uric Param Sa Print Printers Uri DnsRr RrList SipTransp Dialog.
Import Pl Codec Sa DnsRr RrList SipTransp.

Module SipRequest.

Definition DNS_CLASS_IN : Z := 1.
Definition ENOSYS : Z := 38.
Definition EDESTADDRREQ : Z := 89.
Definition ECONNABORTED : Z := 103.

(** The handler of a pending query. *)
Inductive query := QNaptr | QSrv | QAddr.

(** The lists hold records with their addresses. *)
Record sip_request := mk_request {
  reqp : bool; resph : bool; sendh : bool; linked : bool; stateful : bool; canceled : bool; provrecv : bool;
  tp : Z; tp_selected : bool; rport : Z; rhost : list Z; met : list Z; ruri : list Z; body : list Z;
  srvl : list (Z * dnsrr); addrl : list (Z * dnsrr); cachel : list (Z * dnsrr);
  ct : bool; dnsq : option query; dnsq2 : option query }.

(** What is called: a query with its result, the sending of the message in a buffer (or
    the start of a transaction), the response handler, the cancelling of a transaction,
    [*reqp = NULL]; what becomes of the records of an answer: a reference to one, one
    taken over, one given up; the request is freed. *)
Inductive action {B : Type} :=
| Query (name : str) (ty : Z) (err : Z)
| Send (tp : Z) (dst : sa) (mb : B) (transaction : bool) (err : Z)
| Resp (err : Z) (scode : option Z)
| CtransCancel
| Unset
| Ref (p : Z) | Take (p : Z) | Deref (p : Z)
| Free.
Arguments action : clear implicits.
Arguments Query {B}. Arguments Send {B}. Arguments Resp {B}. Arguments CtransCancel {B}. Arguments Unset {B}.
Arguments Ref {B}. Arguments Take {B}. Arguments Deref {B}. Arguments Free {B}.

(** One call of [request]: the allocations of the branch and of the buffer, the random
    number, what the send handler does with the buffer, and how sending ends. *)
Record attempt {B : Type} := mk_attempt { at_branch : Z; at_mb : option B; at_rand : Z;
  at_sendh : Z -> sa -> sa -> B -> Z * B; at_send : Z }.
Arguments attempt : clear implicits.
Arguments mk_attempt {B}. Arguments at_branch {B}. Arguments at_mb {B}. Arguments at_rand {B}.
Arguments at_sendh {B}. Arguments at_send {B}.

Record env {B : Type} := mk_env { attempts : list (attempt B); queries : list Z; log : list (action B) }.
Arguments env : clear implicits.
Arguments mk_env {B}. Arguments attempts {B}. Arguments queries {B}. Arguments log {B}.

Definition set_reqp (b : bool) (r : sip_request) : sip_request :=
  mk_request b (resph r) (sendh r) (linked r) (stateful r) (canceled r) (provrecv r) (tp r) (tp_selected r) (rport r)
    (rhost r) (met r) (ruri r) (body r) (srvl r) (addrl r) (cachel r) (ct r) (dnsq r) (dnsq2 r).
Definition set_resph (b : bool) (r : sip_request) : sip_request :=
  mk_request (reqp r) b (sendh r) (linked r) (stateful r) (canceled r) (provrecv r) (tp r) (tp_selected r) (rport r)
    (rhost r) (met r) (ruri r) (body r) (srvl r) (addrl r) (cachel r) (ct r) (dnsq r) (dnsq2 r).
Definition set_sendh (b : bool) (r : sip_request) : sip_request :=
  mk_request (reqp r) (resph r) b (linked r) (stateful r) (canceled r) (provrecv r) (tp r) (tp_selected r) (rport r)
    (rhost r) (met r) (ruri r) (body r) (srvl r) (addrl r) (cachel r) (ct r) (dnsq r) (dnsq2 r).
Definition unlink (r : sip_request) : sip_request :=
  mk_request (reqp r) (resph r) (sendh r) false (stateful r) (canceled r) (provrecv r) (tp r) (tp_selected r) (rport r)
    (rhost r) (met r) (ruri r) (body r) (srvl r) (addrl r) (cachel r) (ct r) (dnsq r) (dnsq2 r).
Definition set_canceled (r : sip_request) : sip_request :=
  mk_request (reqp r) (resph r) (sendh r) (linked r) (stateful r) true (provrecv r) (tp r) (tp_selected r) (rport r)
    (rhost r) (met r) (ruri r) (body r) (srvl r) (addrl r) (cachel r) (ct r) (dnsq r) (dnsq2 r).
Definition set_provrecv (b : bool) (r : sip_request) : sip_request :=
  mk_request (reqp r) (resph r) (sendh r) (linked r) (stateful r) (canceled r) b (tp r) (tp_selected r) (rport r)
    (rhost r) (met r) (ruri r) (body r) (srvl r) (addrl r) (cachel r) (ct r) (dnsq r) (dnsq2 r).
Definition set_tp (t : Z) (sel : bool) (r : sip_request) : sip_request :=
  mk_request (reqp r) (resph r) (sendh r) (linked r) (stateful r) (canceled r) (provrecv r) t sel (rport r)
    (rhost r) (met r) (ruri r) (body r) (srvl r) (addrl r) (cachel r) (ct r) (dnsq r) (dnsq2 r).
Definition set_rport (p : Z) (r : sip_request) : sip_request :=
  mk_request (reqp r) (resph r) (sendh r) (linked r) (stateful r) (canceled r) (provrecv r) (tp r) (tp_selected r) p
    (rhost r) (met r) (ruri r) (body r) (srvl r) (addrl r) (cachel r) (ct r) (dnsq r) (dnsq2 r).
Definition set_lists (s a c : list (Z * dnsrr)) (r : sip_request) : sip_request :=
  mk_request (reqp r) (resph r) (sendh r) (linked r) (stateful r) (canceled r) (provrecv r) (tp r) (tp_selected r) (rport r)
    (rhost r) (met r) (ruri r) (body r) s a c (ct r) (dnsq r) (dnsq2 r).
Definition set_ct (b : bool) (r : sip_request) : sip_request :=
  mk_request (reqp r) (resph r) (sendh r) (linked r) (stateful r) (canceled r) (provrecv r) (tp r) (tp_selected r) (rport r)
    (rhost r) (met r) (ruri r) (body r) (srvl r) (addrl r) (cachel r) b (dnsq r) (dnsq2 r).
Definition set_dns (q q2 : option query) (r : sip_request) : sip_request :=
  mk_request (reqp r) (resph r) (sendh r) (linked r) (stateful r) (canceled r) (provrecv r) (tp r) (tp_selected r) (rport r)
    (rhost r) (met r) (ruri r) (body r) (srvl r) (addrl r) (cachel r) (ct r) q q2.

Section Request.
Context (inet_pton : Z -> list Z -> option (list Z)) (inet_ntop : Z -> list Z -> list Z) (strerror : Z -> list Z).
Context {B : Type} `{Buffer B} (transpl : list sip_transport).
(** What is in a local socket address before it is set. *)
Context (sa0 : sa).

Abbreviation env := (env B).
Abbreviation action := (action B).
Abbreviation printf := (Dialog.Dialog.printf inet_ntop strerror).
Abbreviation supported := (sip_transp_supported transpl).

Definition emit (l : list action) (e : env) : env := mk_env (attempts e) (queries e) (log e ++ l).

(** ** Ends *)

Definition sip_request_cancel (r : sip_request) (e : env) : sip_request * env :=
  if canceled r then (r, e)
  else
    let r := set_canceled r in
    if negb (provrecv r) then (r, e) else (r, emit [CtransCancel] e).

(** [mem_deref] of a list that holds a reference to every record. *)
Definition list_flush (l : list (Z * dnsrr)) : list action := map (fun x => Deref (fst x)) l.

(** What is left of the request when its last reference goes: with a user that may not
    have it yet, it lives on, canceled. *)
Definition destructor (r : sip_request) (e : env) : option sip_request * env :=
  if reqp r && stateful r then
    let e := emit [Unset] e in
    let r := set_resph false (set_sendh false (set_reqp false r)) in
    let '(r, e) := sip_request_cancel r e in (Some r, e)
  else (None, emit (list_flush (cachel r) ++ list_flush (addrl r) ++ list_flush (srvl r) ++ [Free]) e).

Definition terminate (r : sip_request) (err : Z) (msg : option Z) (e : env) : sip_request * env :=
  let '(r, e) := if reqp r then (set_reqp false r, emit [Unset] e) else (r, e) in
  let r := set_sendh false (unlink r) in
  if resph r then (set_resph false r, emit [Resp err msg] e) else (r, e).

Definition close_handler (r : sip_request) (e : env) : option sip_request * env :=
  let r := set_ct false (set_dns None None r) in
  let '(r, e) := terminate r ECONNABORTED None e in
  destructor r e.

(** The label [fail] of the handlers of the queries. *)
Definition fail (r : sip_request) (err : Z) (e : env) : option sip_request * env :=
  let '(r, e) := terminate r err None e in destructor r e.

(** ** Sending *)

Definition request (r : sip_request) (t : Z) (dst : sa) (e : env) : option (Z * sip_request * env) :=
  let r := set_provrecv false r in
  match attempts e with
  | [] => Some (ENOMEM, r, e)
  | a :: rest =>
      let e := mk_env rest (queries e) (log e) in
      match at_mb a with
      | None => Some (ENOMEM, r, e)
      | Some mb =>
          if at_branch a =? 0 then Some (ENOMEM, r, e)
          else
            '(_, branch) ← Printers.re_vsnprintf inet_ntop strerror Dialog.Dialog.no_handler 1 (at_branch a) 24
                             (c_str "z9hG4bK%016llx") [Print.AInt (at_rand a)];
            let branch := option_map cstr branch in
            match sip_transp_laddr transpl t dst with
            | (_, Some la) =>
                '(err, mb) ← printf mb (c_str "%s %s SIP/2.0\r\n") [Print.AStr (Some (met r)); Print.AStr (Some (ruri r))];
                '(er, mb) ← printf mb (c_str "Via: SIP/2.0/%s %J;branch=%s;rport\r\n")
                              [Print.AStr (Some (sip_transp_name t)); Print.ASa (Some la); Print.AStr branch];
                let err := Z.lor err er in
                let '(er, mb) := if sendh r then at_sendh a t la dst mb else (0, mb) in
                let err := Z.lor err er in
                '(er, mb) ← mbuf_write_mem mb (body r);
                let err := Z.lor err er in
                if negb (err =? 0) then Some (err, r, e)
                else
                  let mb := mb_set_pos mb 0 in
                  let err := at_send a in
                  let e := emit [Send t dst mb (stateful r) err] e in
                  Some (err, if stateful r && (err =? 0) then set_ct true r else r, e)
            | (err, None) => Some (err, r, e)
            end
      end
  end.

(** A query of the resolver, whose handle is stored on success. *)
Definition dnsc_query (nm : str) (ty : Z) (e : env) : Z * env :=
  let err := match queries e with [] => ENOMEM | q :: _ => q end in
  (err, emit [Query nm ty err] (mk_env (attempts e) (tl (queries e)) (log e))).

Definition srv_lookup (r : sip_request) (domain : list Z) (e : env) : option (Z * sip_request * env) :=
  '(n, nm) ← Printers.re_vsnprintf inet_ntop strerror Dialog.Dialog.no_handler 1 1 256 (c_str "%s.%s")
     [Print.AStr (Some (sip_transp_srvid (tp r))); Print.AStr (Some domain)];
  if n <? 0 then Some (ENOMEM, r, e)
  else
    let '(err, e) := dnsc_query (option_map cstr nm) DNS_TYPE_SRV e in
    Some (err, if err =? 0 then set_dns (Some QSrv) (dnsq2 r) r else r, e).

Definition addr_lookup (r : sip_request) (nm : str) (e : env) : Z * sip_request * env :=
  let '(err, r, e) :=
    if supported (tp r) AF_INET then
      let '(err, e) := dnsc_query nm DNS_TYPE_A e in
      (err, if err =? 0 then set_dns (Some QAddr) (dnsq2 r) r else r, e)
    else (0, r, e) in
  if negb (err =? 0) then (err, r, e)
  else
    let '(err, r, e) :=
      if supported (tp r) AF_INET6 then
        let '(err, e) := dnsc_query nm DNS_TYPE_AAAA e in
        (err, if err =? 0 then set_dns (dnsq r) (Some QAddr) r else r, e)
      else (0, r, e) in
    if negb (err =? 0) then (err, r, e)
    else match dnsq r, dnsq2 r with
         | None, None => (EPROTONOSUPPORT, r, e)
         | _, _ => (0, r, e)
         end.

(** ** Records *)

(** A list of records with what happened to them.  [busy] are the records that are in a
    list through their member [le]. *)
Abbreviation rstate := (list (Z * dnsrr) * list action)%type.

Definition rr_append_handler (busy : list Z) (p : Z) (rr : dnsrr) (s : rstate) : bool * rstate :=
  let '(lst, l) := s in
  if (type rr =? DNS_TYPE_A) || (type rr =? DNS_TYPE_AAAA) || (type rr =? DNS_TYPE_SRV) then
    if bool_decide (p ∈ busy ++ map fst lst) then (false, s)
    else (false, (lst ++ [(p, rr)], l ++ [Ref p]))
  else (false, s).

(** The handler moves a record out of the list of the answer. *)
Definition rr_cache_handler (t : Z) (p : Z) (rr : dnsrr) (s : rstate) : bool * rstate :=
  let '(lst, l) := s in
  let take := (false, (lst ++ [(p, rr)], l ++ [Take p])) in
  if type rr =? DNS_TYPE_A then if supported t AF_INET then take else (false, s)
  else if type rr =? DNS_TYPE_AAAA then if supported t AF_INET6 then take else (false, s)
  else if type rr =? DNS_TYPE_CNAME then take
  else (false, s).

Definition naptr_tp (services : str) : option Z :=
  if str_same services (Some (c_str "SIP+D2U")) then Some SIP_TRANSP_UDP
  else if str_same services (Some (c_str "SIP+D2T")) then Some SIP_TRANSP_TCP
  else if str_same services (Some (c_str "SIPS+D2T")) then Some SIP_TRANSP_TLS
  else None.

Definition rr_naptr_handler (p : Z) (rr : dnsrr) (r : sip_request) : bool * sip_request :=
  match rr_data rr with
  | NAPTR _ _ _ services _ _ =>
      match naptr_tp services with
      | None => (false, r)
      | Some t => if negb (supported t AF_UNSPEC) then (false, r) else (true, set_tp t true r)
      end
  | _ => (false, r)
  end.

(** [dns_rrlist_apply] with a handler that appends to [srvl] or to [addrl], or caches. *)
Definition append_srv (rrl : list (Z * dnsrr)) (nm : str) (recurse : bool) (r : sip_request) (e : env) :
    option (sip_request * env) :=
  '(_, (l, acts)) ← dns_rrlist_apply rrl nm DNS_TYPE_SRV DNS_CLASS_IN recurse
     (Some (rr_append_handler (map fst (addrl r)))) (srvl r, []);
  Some (set_lists l (addrl r) (cachel r) r, emit acts e).

Definition append_addr (rrl : list (Z * dnsrr)) (nm : str) (recurse : bool) (r : sip_request) (e : env) :
    option (sip_request * env) :=
  '(_, (l, acts)) ← dns_rrlist_apply2 rrl nm DNS_TYPE_A DNS_TYPE_AAAA DNS_CLASS_IN recurse
     (Some (rr_append_handler (map fst (srvl r)))) (addrl r, []);
  Some (set_lists (srvl r) l (cachel r) r, emit acts e).

Definition cache (addl : list (Z * dnsrr)) (r : sip_request) (e : env) : option (sip_request * env) :=
  '(_, (l, acts)) ← dns_rrlist_apply addl None DNS_QTYPE_ANY DNS_CLASS_IN false
     (Some (rr_cache_handler (tp r))) (cachel r, []);
  Some (set_lists (srvl r) (addrl r) l r, emit acts e).

(** ** The next destination *)

Definition dst_of (rr : dnsrr) (port : Z) : option sa :=
  match rr_data rr with
  | A addr => Some (sa_set_in sa0 addr port)
  | AAAA addr => Some (sa_set_in6 sa0 addr port)
  | _ => None
  end.

Fixpoint request_next (fuel : nat) (r : sip_request) (e : env) : option (Z * sip_request * env) :=
  match fuel with
  | O => None
  | S fuel =>
      match addrl r with
      | [] =>
          match srvl r with
          | [] => Some (ENOENT, r, e)
          | (p, rr) :: rest =>
              match rr_data rr with
              | SRV _ _ port target =>
                  '(r, e) ← append_addr (cachel r) target true (set_rport port r) e;
                  let r := set_lists rest (addrl r) (cachel r) r in
                  match addrl r with
                  | _ :: _ => request_next fuel r (emit [Deref p] e)
                  | [] =>
                      let '(err, r, e) := addr_lookup r target e in
                      Some (err, r, emit [Deref p] e)
                  end
              | _ => None
              end
          end
      | (p, rr) :: rest =>
          match dst_of rr (rport r) with
          | None => Some (EINVAL, r, e)
          | Some dst =>
              let r := set_lists (srvl r) rest (cachel r) r in
              '(err, r, e) ← request r (tp r) dst (emit [Deref p] e);
              if negb (err =? 0) then
                match addrl r, srvl r with
                | [], [] => Some (err, r, e)
                | _, _ => request_next fuel r e
                end
              else Some (err, r, e)
          end
      end
  end.

(** Every turn takes an address or a service, and a service brings at most the addresses
    of the cache. *)
Definition next_fuel (r : sip_request) : nat :=
  S (length (addrl r) + length (srvl r) * S (length (cachel r)))%nat.
Definition next (r : sip_request) (e : env) : option (Z * sip_request * env) := request_next (next_fuel r) r e.

(** [i] counts up from [*tp + 1], or down from [*tp - 1]. *)
Fixpoint transp_up (n : nat) (i : Z) : option Z :=
  match n with
  | O => None
  | S n => if negb (i <? SIP_TRANSPC) then None
           else if negb (supported i AF_UNSPEC) then transp_up n (i + 1) else Some i
  end.
Definition transp_next (t : Z) : option Z := transp_up (Z.to_nat (SIP_TRANSPC - t)) (t + 1).

Fixpoint transp_down (n : nat) (i : Z) : option Z :=
  match n with
  | O => None
  | S n => if negb (SIP_TRANSP_NONE <? i) then None
           else if negb (supported i AF_UNSPEC) then transp_down n (i - 1) else Some i
  end.
Definition transp_next_srv (t : Z) : option Z := transp_down (Z.to_nat (t - SIP_TRANSP_NONE)) (t - 1).

(** ** Handlers *)

(** The error or the status: with no error there is a message. *)
Definition failed (err : Z) (msg : option Z) : option bool :=
  if negb (err =? 0) then Some true
  else match msg with Some scode => Some (scode =? 503) | None => None end.

Definition response_handler (r : sip_request) (err : Z) (msg : option Z) (e : env) :
    option (option sip_request * env) :=
  let fin (r : sip_request) (err : Z) (e : env) :=
    let '(r, e) := terminate r err msg e in destructor r e in
  if match msg with Some scode => scode <? 200 | None => false end then
    let '(r, e) :=
      if negb (provrecv r) then
        let r := set_provrecv true r in
        (r, if canceled r then emit [CtransCancel] e else e)
      else (r, e) in
    Some (Some r, if resph r then emit [Resp err msg] e else e)
  else
    let r := set_ct false r in
    if canceled r then Some (fin r err e)
    else
      f ← failed err msg;
      if (f : bool) && match addrl r, srvl r with [], [] => false | _, _ => true end then
        '(err, r, e) ← next r e;
        if err =? 0 then Some (Some r, e) else Some (fin r err e)
      else Some (fin r err e).

(** The end of the three handlers of queries: the next destination is tried, and a
    request without a transaction is done when it is sent. *)
Definition proceed (r : sip_request) (e : env) : option (option sip_request * env) :=
  '(err, r, e) ← next r e;
  if negb (err =? 0) then Some (fail r err e)
  else if negb (stateful r) then
    let '(r, e) := terminate (set_resph false r) 0 None e in Some (destructor r e)
  else Some (Some r, e).

(** What follows a lookup that was started. *)
Definition started (x : Z * sip_request * env) : option sip_request * env :=
  let '(err, r, e) := x in if negb (err =? 0) then fail r err e else (Some r, e).

Definition find_rr (l : list (Z * dnsrr)) (p : Z) : option dnsrr :=
  option_map snd (List.find (fun x => fst x =? p) l).

Definition naptr_handler (r : sip_request) (ansl addl : list (Z * dnsrr)) (e : env) :
    option (option sip_request * env) :=
  let ansl := rrlist_sort DNS_TYPE_NAPTR ansl in
  '(rr, r) ← dns_rrlist_apply ansl None DNS_TYPE_NAPTR DNS_CLASS_IN false (Some rr_naptr_handler) r;
  match rr with
  | None =>
      let r := set_tp SIP_TRANSPC (tp_selected r) r in
      match transp_next_srv (tp r) with
      | None => Some (fail r EPROTONOSUPPORT e)
      | Some t => x ← srv_lookup (set_tp t (tp_selected r) r) (rhost r) e; Some (started x)
      end
  | Some p =>
      rr ← find_rr ansl p;
      replace ← match rr_data rr with NAPTR _ _ _ _ _ replace => Some replace | _ => None end;
      let addl := rrlist_sort DNS_TYPE_SRV addl in
      '(r, e) ← append_srv addl replace true r e;
      match srvl r with
      | [] =>
          let '(err, e) := dnsc_query replace DNS_TYPE_SRV e in
          Some (started (err, if err =? 0 then set_dns (Some QSrv) (dnsq2 r) r else r, e))
      | _ :: _ =>
          '(r, e) ← cache addl r e;
          proceed r e
      end
  end.

Definition srv_handler (r : sip_request) (ansl addl : list (Z * dnsrr)) (e : env) :
    option (option sip_request * env) :=
  let ansl := rrlist_sort DNS_TYPE_SRV ansl in
  '(r, e) ← append_srv ansl None false r e;
  match srvl r with
  | [] =>
      let addresses (r : sip_request) :=
        let r := set_rport (sip_transp_port (tp r) 0) r in
        Some (started (addr_lookup r (Some (rhost r)) e)) in
      if negb (tp_selected r) then
        match transp_next_srv (tp r) with
        | Some t => x ← srv_lookup (set_tp t (tp_selected r) r) (rhost r) e; Some (started x)
        | None =>
            let r := set_tp SIP_TRANSP_NONE (tp_selected r) r in
            match transp_next (tp r) with
            | None => Some (fail r EPROTONOSUPPORT e)
            | Some t => addresses (set_tp t (tp_selected r) r)
            end
        end
      else addresses r
  | _ :: _ =>
      '(r, e) ← cache addl r e;
      proceed r e
  end.

Definition addr_handler (r : sip_request) (err : Z) (ansl : list (Z * dnsrr)) (e : env) :
    option (option sip_request * env) :=
  '(r, e) ← append_addr ansl None false r e;
  match dnsq r, dnsq2 r with
  | None, None =>
      match addrl r, srvl r with
      | [], [] => Some (fail r (if negb (err =? 0) then err else EDESTADDRREQ) e)
      | _, _ => proceed r e
      end
  | _, _ => Some (Some r, e)
  end.

(** ** Start *)

(** The transport that the parameter of the route names. *)
Definition named_tp (x : pl) : option Z :=
  let named s := pl_strcasecmp (Some x) (Some (mk_pl 1 (c_str s))) =? 0 in
  if named "udp"%string then Some SIP_TRANSP_UDP
  else if named "tcp"%string then Some SIP_TRANSP_TCP
  else if named "tls"%string then Some SIP_TRANSP_TLS
  else None.

(** The label [out]; [user] is whether there is a [reqp]. *)
Definition out (user : bool) (x : Z * sip_request * env) : option (Z * option sip_request * env) :=
  let '(err, r, e) := x in
  if negb (err =? 0) then let '(o, e) := destructor r e in Some (err, o, e)
  else Some (0, Some (if user then set_reqp true r else r), e).

(** The first step: to the address that the host is, or else a lookup. *)
Definition start (user : bool) (port : Z) (r : sip_request) (e : env) : option (Z * option sip_request * env) :=
  let '(err, dst) := sa_set_str inet_pton sa0 (rhost r) (sip_transp_port (tp r) port) in
  if err =? 0 then
    '(err, r, e) ← request r (tp r) dst e;
    if negb (stateful r) then let '(o, e) := destructor r e in Some (err, o, e)
    else out user (err, r, e)
  else if negb (port =? 0) then
    let r := set_rport (sip_transp_port (tp r) port) r in
    out user (addr_lookup r (Some (rhost r)) e)
  else if tp_selected r then x ← srv_lookup r (rhost r) e; out user x
  else
    let '(err, e) := dnsc_query (Some (rhost r)) DNS_TYPE_NAPTR e in
    out user (err, if err =? 0 then set_dns (Some QNaptr) (dnsq2 r) r else r, e).

(** [mem k] is the address of the k-th block, 0 if there is no memory. *)
Definition sip_request_ (mem : nat -> Z) (user isstateful : bool) (m u : list Z) (route : Uri.Uri.uri) (mb : list Z)
    (hassendh hasresph : bool) (e : env) : option (Z * option sip_request * env) :=
  if negb (pl_strcasecmp (Some (Uri.Uri.scheme route)) (Some (mk_pl 1 (c_str "sip"))) =? 0) then Some (ENOSYS, None, e)
  else if mem 0%nat =? 0 then Some (ENOMEM, None, e)
  else
    let r := mk_request false false false true false false false 0 false 0 [] [] [] [] [] [] [] false None None in
    if (mem 1%nat =? 0) || (mem 2%nat =? 0) then out user (ENOMEM, r, e)
    else
      '(err, x) ← Param.Param.msg_param_decode (Uri.Uri.params route) (c_str "maddr") pl_null;
      let '(err, h) := Dialog.Dialog.strdup (mem 3%nat) (if negb (err =? 0) then Uri.Uri.host route else x) in
      if negb (err =? 0) then out user (err, r, e)
      else
        '(err, x) ← Param.Param.msg_param_decode (Uri.Uri.params route) (c_str "transport") x;
        let set t sel := mk_request false hasresph hassendh true isstateful false false t sel 0 (pl_s h) m u mb
                           [] [] [] false None None in
        if err =? 0 then
          match named_tp x with
          | None => out user (EPROTONOSUPPORT, set 0 false, e)
          | Some t =>
              if negb (supported t AF_UNSPEC) then out user (EPROTONOSUPPORT, set t false, e)
              else start user (Uri.Uri.port route) (set t true) e
          end
        else
          match transp_next SIP_TRANSP_NONE with
          | None => out user (EPROTONOSUPPORT, set SIP_TRANSP_NONE false, e)
          | Some t => start user (Uri.Uri.port route) (set t false) e
          end.

(** ** What can happen to a request *)

(** An answer to the query in [dnsq] or in [dnsq2], the end of its transaction or a
    provisional response, and what the user may do: cancel, give up, close the stack. *)
Inductive event :=
| Answer (second : bool) (err : Z) (ansl addl : list (Z * dnsrr))
| Response (err : Z) (scode : option Z)
| Cancel | GiveUp | Close.

(** The resolver forgets the query before it calls the handler. *)
Definition handle (r : sip_request) (ev : event) (e : env) : option (option sip_request * env) :=
  match ev with
  | Answer second err ansl addl =>
      q ← (if second : bool then dnsq2 r else dnsq r);
      let r := if second then set_dns (dnsq r) None r else set_dns None (dnsq2 r) r in
      match q with
      | QNaptr => naptr_handler r ansl addl e
      | QSrv => srv_handler r ansl addl e
      | QAddr => addr_handler r err ansl e
      end
  | Response err scode => response_handler r err scode e
  | Cancel => let '(r, e) := sip_request_cancel r e in Some (Some r, e)
  | GiveUp => Some (destructor r e)
  | Close => Some (close_handler r e)
  end.

End Request.
End SipRequest.
