(* ===== verification/SipRequestInv.v ===== *)
(** * What holds of SIP requests

    The steps of [SipRequest] keep an invariant: a request that exists waits for the
    resolver or for its transaction, its lists hold records it has a reference to, and
    its user is told provisional responses only. *)
From S2P Require Import Prelude Mem Pl Hash Mbuf Codec Uric Param Sa Print Printers Uri SipHdr SipMsg SipScan DnsRr RrList SipTransp Dialog SipRequest.
Import Pl Codec Sa DnsRr RrList SipTransp SipRequest.

Module SipRequestInv.

Abbreviation record := (Z * dnsrr)%type.

(** ** Records *)

(** A record as the decoder makes it: data that is not decoded is of another type. *)
Definition decoded (x : record) : Prop :=
  match rr_data (snd x) with Other t => t ∉ [1; 2; 5; 6; 12; 15; 28; 33; 35] | _ => True end.
Definition is_srv (x : record) : Prop := exists pri w port target, rr_data (snd x) = SRV pri w port target.
Definition is_addr (x : record) : Prop := (exists a, rr_data (snd x) = A a) \/ exists a, rr_data (snd x) = AAAA a.

Lemma decoded_srv x : decoded x -> type (snd x) = DNS_TYPE_SRV -> is_srv x.
Proof.
  destruct x as [p [? ? ? ? [] ] ]; unfold decoded, type, is_srv, DNS_TYPE_SRV; simpl; intros Hd Ht; try done; [by eexists _, _, _, _|].
  exfalso. apply Hd. subst. set_solver.
Qed.

Lemma decoded_addr x : decoded x -> type (snd x) = DNS_TYPE_A \/ type (snd x) = DNS_TYPE_AAAA -> is_addr x.
Proof.
  destruct x as [p [? ? ? ? [] ] ]; unfold decoded, type, is_addr, DNS_TYPE_A, DNS_TYPE_AAAA; simpl;
    intros Hd [Ht|Ht]; try done; eauto; exfalso; apply Hd; subst; set_solver.
Qed.

Lemma decoded_naptr x : decoded x -> type (snd x) = DNS_TYPE_NAPTR ->
  exists o p f s re rp, rr_data (snd x) = NAPTR o p f s re rp.
Proof.
  destruct x as [p [? ? ? ? [] ] ]; unfold decoded, type, DNS_TYPE_NAPTR; simpl; intros Hd Ht; try done; [by eexists _, _, _, _, _, _|].
  exfalso. apply Hd. subst. set_solver.
Qed.

(** What passes the filter of a search for one or two types. *)
Lemma filtered_type t1 t2 cls recurse nm rr : t1 <> DNS_QTYPE_ANY -> t2 <> DNS_QTYPE_ANY ->
  filtered t1 t2 cls recurse nm rr = false -> type rr = t1 \/ type rr = t2 \/ (type rr = DNS_TYPE_CNAME /\ recurse = true).
Proof.
  intros H1 H2. unfold filtered. rewrite !orb_false_iff, !andb_false_iff, !orb_false_iff, !negb_false_iff, !Z.eqb_eq. tauto.
Qed.

(** ** Appending to the lists of a request *)

(** Every record is appended once, with a reference. *)
Definition appended (busy : list Z) (l0 : list record) (rrl : list record) (P : record -> Prop)
    (l : list record) (new : list record) : Prop :=
  l = l0 ++ new /\ NoDup (map fst new) /\ Forall (fun x => x ∈ rrl /\ P x /\ fst x ∉ busy ++ map fst l0) new.

Section Apply.
Context {B : Type}.
Abbreviation action := (action B).
Definition refs (l : list record) : list action := map (fun x => Ref (fst x)) l.

Lemma rq_append_ok busy l0 rrl nm recurse t1 t2 P : Z.of_nat (length rrl) < 2 ^ 31 ->
  t1 <> DNS_QTYPE_ANY -> t2 <> DNS_QTYPE_ANY ->
  (forall x, x ∈ rrl -> type (snd x) = t1 \/ type (snd x) = t2 -> P x) ->
  exists r new, rrlist_apply rrl t1 t2 DNS_CLASS_IN recurse (Some (rr_append_handler (B := B) busy)) apply_fuel nm 0 (l0, []) =
    Some (r, (l0 ++ new, refs new)) /\ appended busy l0 rrl P (l0 ++ new) new.
Proof.
  intros Hl H1 H2 HP.
  destruct (dns_apply_ok rrl t1 t2 DNS_CLASS_IN recurse (Some (rr_append_handler (B := B) busy))
    (fun s => exists new, s = (l0 ++ new, refs new) /\ appended busy l0 rrl P (l0 ++ new) new)
    (rr_append_handler busy) nm (l0, []) eq_refl Hl) as (r&w&E&(new&->&Hn)&_).
  - intros nm' p rr w Hin Hf (new&->&_&Hnd&Hall). apply filtered_type in Hf; [|done|done].
    unfold rr_append_handler. destruct (_ || _ || _) eqn:Et; [|by exists new].
    case_bool_decide as Hb; [by exists new|]. exists (new ++ [(p, rr)]). cbn [snd]. unfold refs. rewrite map_app, <- !app_assoc.
    assert (type rr = t1 \/ type rr = t2) as Ht.
    { destruct Hf as [|[|[Hc _]]]; [by left|by right|]. exfalso. rewrite Hc in Et. done. }
    rewrite map_app, app_assoc in Hb. split; [done|]. split; [done|]. split.
    + rewrite map_app. apply NoDup_app. split_and!; [done| |apply NoDup_singleton].
      intros q Hq ->%list_elem_of_singleton. apply Hb, elem_of_app. by right.
    + apply Forall_app. split; [done|]. apply Forall_singleton. split_and!; [done|by apply HP|].
      intros Hq. apply Hb, elem_of_app. by left.
  - exists []. rewrite app_nil_r. split; [done|]. split; [by rewrite app_nil_r|]. split; [constructor|constructor].
  - by exists r, new.
Qed.

Definition takes (l : list record) : list action := map (fun x => Take (fst x)) l.

(** What is cached: addresses of families the transport has, and aliases. *)
Lemma cache_loop transpl t rec le : forall nm d l0 (acts : list action), exists new,
  apply_loop DNS_QTYPE_ANY DNS_QTYPE_ANY DNS_CLASS_IN false (Some (rr_cache_handler transpl t)) rec le nm d (l0, acts) =
    Some (None, (l0 ++ new, acts ++ takes new)) /\ (length new <= length le)%nat /\ Forall (fun x => x ∈ le) new.
Proof.
  induction le as [|[p rr] le IH]; intros nm d l0 acts.
  { exists []. cbn. by rewrite !app_nil_r. }
  assert (forall nm d l acts, exists new, apply_loop DNS_QTYPE_ANY DNS_QTYPE_ANY DNS_CLASS_IN false
    (Some (rr_cache_handler transpl t)) rec le nm d (l, acts) = Some (None, (l ++ new, acts ++ takes new)) /\
    (length new <= length le)%nat /\ Forall (fun x => x ∈ (p, rr) :: le) new) as IH'.
  { intros nm' d' l acts'. destruct (IH nm' d' l acts') as (new&E&?&Hn). exists new. split_and!; [done|done|].
    eapply Forall_impl; [exact Hn|]. intros x ?. by right. }
  cbn [apply_loop length]. destruct (filtered _ _ _ _ nm rr).
  { destruct (IH' nm d l0 acts) as (new&E&?&?). exists new. split_and!; [done|lia|done]. }
  assert (rr_cache_handler transpl t p rr (l0, acts) = (false, (l0, acts)) \/
    rr_cache_handler transpl t p rr (l0, acts) = (false, (l0 ++ [(p, rr)], acts ++ [Take p]))) as [-> | ->].
  { unfold rr_cache_handler. repeat case_match; auto. }
  - cbn [follows andb]. destruct (IH' nm d l0 acts) as (new&E&?&?). exists new. split_and!; [done|lia|done].
  - cbn [follows andb]. destruct (IH' nm d (l0 ++ [(p, rr)]) (acts ++ [Take p])) as (new&E&?&Hn).
    exists ((p, rr) :: new). cbn. rewrite <- !app_assoc in E. split_and!; [done|lia|]. constructor; [left|done].
Qed.

End Apply.
(** ** Sending *)

Section Inv.
Context (inet_pton : Z -> list Z -> option (list Z)) (inet_ntop : Z -> list Z -> list Z) (strerror : Z -> list Z).
Context {B : Type} `{BL : BufferLaws B} (transpl : list sip_transport) (sa0 : sa).
Abbreviation len := Print.Print.len.
Abbreviation laddr_text a := (Print.Print.sa_text inet_ntop Print.Print.conv0 a).
Definition limit : Z := 2 ^ 32.
Hypothesis laddr_len : Forall (fun t => len (laddr_text (laddr t)) <= limit) transpl.

Abbreviation env := (env B).
Abbreviation action := (action B).
Abbreviation text_of fmt args := (Print.Print.format_text inet_ntop strerror Dialog.Dialog.no_text 1 fmt args).
Abbreviation request := (request inet_ntop strerror transpl).
Abbreviation ran := Dialog.Dialog.ran.

(** A buffer is new; a send handler appends, and fails or not. *)
Definition attempt_ok (a : attempt B) : Prop :=
  (forall mb, at_mb a = Some mb -> at_end mb []) /\
  forall t la dst mb w, at_end mb w -> exists v, at_end (snd (at_sendh a t la dst mb)) (w ++ v) /\ len v <= limit.
Definition fits (r : sip_request) : Prop := len (met r) <= limit /\ len (ruri r) <= limit /\ len (body r) <= limit.

(** The lines that a request begins with. *)
Definition head_text (r : sip_request) (t : Z) (la : sa) (rnd : Z) : list Z :=
  met r ++ c_str " " ++ ruri r ++ c_str " SIP/2.0\r\n" ++
  c_str "Via: SIP/2.0/" ++ sip_transp_name t ++ c_str " " ++ laddr_text la ++ c_str ";branch=z9hG4bK" ++
  Print.Print.x64_text rnd ++ c_str ";rport\r\n".

Lemma text_start m u : text_of (c_str "%s %s SIP/2.0\r\n") [Print.Print.AStr (Some m); Print.Print.AStr (Some u)] =
  Some (m ++ c_str " " ++ u ++ c_str " SIP/2.0\r\n").
Proof. eval_format. Qed.

Lemma text_via n la b : text_of (c_str "Via: SIP/2.0/%s %J;branch=%s;rport\r\n")
    [Print.Print.AStr (Some n); Print.Print.ASa (Some la); Print.Print.AStr (Some b)] =
  Some (c_str "Via: SIP/2.0/" ++ n ++ c_str " " ++ laddr_text la ++ c_str ";branch=" ++ b ++ c_str ";rport\r\n").
Proof. eval_format. Qed.

Lemma text_branch v : text_of (c_str "z9hG4bK%016llx") [Print.Print.AInt v] = Some (c_str "z9hG4bK" ++ Print.Print.x64_text v).
Proof. eval_format. by rewrite app_nil_r. Qed.

Lemma cstr_terminated l : Forall (fun c => c <> 0) l -> cstr (l ++ [0]) = l.
Proof. induction 1 as [|c l Hc _ IH]; [done|]. simpl. rewrite IH. by destruct (Z.eqb_spec c 0). Qed.

Lemma branch_ok a v : a <> 0 -> exists n, Printers.re_vsnprintf inet_ntop strerror Dialog.Dialog.no_handler 1 a 24
    (c_str "z9hG4bK%016llx") [Print.Print.AInt v] = Some (n, Some ((c_str "z9hG4bK" ++ Print.Print.x64_text v) ++ [0])) /\
  cstr ((c_str "z9hG4bK" ++ Print.Print.x64_text v) ++ [0]) = c_str "z9hG4bK" ++ Print.Print.x64_text v.
Proof.
  intros Ha. destruct (Print.Print.x64_text_ok v) as [Hz Hl].
  pose proof (Printers.re_vsnprintf_ok inet_ntop strerror Dialog.Dialog.no_handler 1 Dialog.Dialog.no_text ltac:(intros [])
    a 24 _ _ _ Ha ltac:(lia) (text_branch v)) as Hp.
  rewrite Print.Print.len_app, Hl in Hp. change (len (c_str "z9hG4bK")) with 7 in Hp. simpl in Hp.
  eexists. split; [exact Hp|]. apply cstr_terminated, Forall_app. split; [|done]. by repeat constructor.
Qed.

Lemma name_len t : len (sip_transp_name t) = 3.
Proof. unfold sip_transp_name. by repeat case_match. Qed.

(** The text in the buffer that is sent: what is printed before the send handler, what the
    handler of the attempt adds to the buffer it is given, and the message. *)
Definition handed (a : attempt B) (r : sip_request) (t : Z) (la dst : sa) (v : list Z) : Prop :=
  exists mb0 mb1, at_end mb0 (head_text r t la (at_rand a)) /\ at_end mb1 (head_text r t la (at_rand a) ++ v) /\
    (if sendh r then at_sendh a t la dst mb0 = (0, mb1) else mb1 = mb0).

(** The attempt has its allocations, there is a transport, the send handler does not fail
    and the buffer never does. *)
Definition can_send (a : attempt B) (r : sip_request) (t : Z) (dst : sa) : Prop :=
  at_mb a <> None /\ at_branch a <> 0 /\ is_Some (transp_find transpl t (sa_af dst)) /\
  (sendh r = true -> forall la mb, fst (at_sendh a t la dst mb) = 0) /\ ~ writes_fail (B := B).

(** What becomes of the next attempt: the message is sent, as a whole, or nothing is. *)
Definition sent (e : env) (r : sip_request) (t : Z) (dst : sa) (err : Z) (l : list action) : Prop :=
  exists mb la a v, l = [Send t dst mb (stateful r) err] /\ sip_transp_laddr transpl t dst = (0, Some la) /\
    head (attempts e) = Some a /\ handed a r t la dst v /\ err = at_send a /\
    Dialog.Dialog.holds_text mb (head_text r t la (at_rand a) ++ v ++ body r).
Definition unsent (e : env) (r : sip_request) (t : Z) (dst : sa) (err : Z) (l : list action) : Prop :=
  l = [] /\ err <> 0 /\ forall a, head (attempts e) = Some a -> ~ can_send a r t dst.

Lemma handed_ok a r t la dst mb2 e2 : attempt_ok a -> Dialog.Dialog.ran [] (head_text r t la (at_rand a)) e2 mb2 ->
  exists v e3 mb3, (if sendh r then at_sendh a t la dst mb2 else (0, mb2)) = (e3, mb3) /\ len v <= limit /\
    Dialog.Dialog.ran [] (head_text r t la (at_rand a) ++ v) (Z.lor e2 e3) mb3 /\
    (e2 = 0 -> e3 = 0 -> handed a r t la dst v) /\
    ((sendh r = true -> forall la mb, fst (at_sendh a t la dst mb) = 0) -> e3 = 0).
Proof.
  intros [_ Hh] Hr. destruct (if sendh r then _ else _) as [e3 mb3] eqn:E3.
  assert (exists v, (forall w, at_end mb2 w -> at_end mb3 (w ++ v)) /\ len v <= limit) as (v&Hv&Hvl).
  { destruct (sendh r).
    - destruct Hr as (w&Hw&_). destruct (Hh t la dst mb2 _ Hw) as (v&Hv&?). rewrite E3 in Hv. exists v.
      split; [|done]. intros w' Hw'. by rewrite (Printers.at_end_inj mb2 w' _ Hw' Hw).
    - injection E3 as <- <-. exists []. split; [|by apply Z.leb_le]. intros w. by rewrite app_nil_r. }
  exists v, e3, mb3. split_and!; try done.
  - apply (Dialog.Dialog.ran_more [] _ _ mb2 v e3 mb3 v Hr Hv). destruct (e3 =? 0); [done|lia].
  - intros -> ->. destruct Hr as (w&Hw&Hc). change (0 =? 0) with true in Hc. cbv iota in Hc. subst w.
    exists mb2, mb3. split_and!; [exact Hw|by apply (Hv _ Hw)|]. destruct (sendh r); [done|]. by injection E3.
  - intros Hs. destruct (sendh r); [|by injection E3]. by rewrite <- (Hs eq_refl la mb2), E3.
Qed.

Lemma rq_request_ok r t dst (e : env) : Forall attempt_ok (attempts e) -> fits r ->
  exists err e' l, request r t dst e =
      Some (err, if stateful r && (err =? 0) then set_ct true (set_provrecv false r) else set_provrecv false r, e') /\
    queries e' = queries e /\ attempts e' = tl (attempts e) /\ log e' = log e ++ l /\
    (sent e r t dst err l \/ unsent e r t dst err l).
Proof.
  intros Ha (Hm&Hu&Hb). unfold SipRequest.request. set (r' := set_provrecv false r).
  assert (forall err e', err <> 0 -> queries e' = queries e -> attempts e' = tl (attempts e) -> log e' = log e ->
    (forall a, head (attempts e) = Some a -> ~ can_send a r t dst) ->
    exists err' e'' l, Some (err, r', e') = Some (err', if stateful r && (err' =? 0) then set_ct true r' else r', e'') /\
    queries e'' = queries e /\ attempts e'' = tl (attempts e) /\ log e'' = log e ++ l /\
    (sent e r t dst err' l \/ unsent e r t dst err' l)) as Hfail.
  { intros err e' He ????. exists err, e', []. destruct (Z.eqb_spec err 0); [done|]. rewrite andb_false_r, app_nil_r.
    split_and!; try done. right. by split_and!. }
  destruct (attempts e) as [|a rest] eqn:Ea; [apply Hfail; rewrite ?Ea; done|]. apply Forall_cons in Ha as [Hok Hr].
  pose proof Hok as [Hnew _].
  destruct (at_mb a) as [mb|] eqn:Emb; [|apply Hfail; try done; intros ? [= <-] (?&_); done]. specialize (Hnew mb eq_refl).
  destruct (Z.eqb_spec (at_branch a) 0) as [|Hbr]; [apply Hfail; try done; intros ? [= <-] (_&?&_); done|].
  destruct (branch_ok (at_branch a) (at_rand a) Hbr) as (n&->&Ec). cbn [mbind option_bind option_map]. rewrite Ec.
  unfold sip_transp_laddr. destruct (transp_find transpl t (sa_af dst)) as [tr|] eqn:Et.
  2: { apply Hfail; try done. intros ? [= <-] (_&_&[? Hx]&_). congruence. }
  apply transp_find_some in Et as Hin. destruct Hin as [Hin _]. rewrite Forall_forall in laddr_len. specialize (laddr_len tr Hin).
  change (met r') with (met r). change (ruri r') with (ruri r). change (sendh r') with (sendh r). change (body r') with (body r).
  assert (len (c_str " SIP/2.0\r\n") = 10 /\ len (c_str " ") = 1) as [L1 L2] by done.
  assert (len (c_str "Via: SIP/2.0/") = 13 /\ len (c_str ";branch=") = 8 /\ len (c_str ";rport\r\n") = 8 /\ len (c_str "z9hG4bK") = 7)
    as (L3&L4&L5&L6) by done.
  pose proof (proj2 (Print.Print.x64_text_ok (at_rand a))) as L7. pose proof (name_len t) as L8.
  assert (8 * limit + 1000 <= Mem.SIZE_MAX /\ 0 <= limit) as [Hlim Hlim0] by done. change (len []) with 0 in *.
  destruct (Dialog.Dialog.ran_printf_ok inet_ntop strerror [] [] 0 mb _ _ _ (Dialog.Dialog.ran_start _ _ Hnew) (text_start (met r) (ruri r)))
    as (e1&mb1&->&Hr1&Hf1); [change (len []) with 0; rewrite ?app_nil_l, ?Print.Print.len_app; lia|]. cbn [mbind option_bind].
  destruct (Dialog.Dialog.ran_printf_ok inet_ntop strerror [] _ _ mb1 _ _ _ Hr1
    (text_via (sip_transp_name t) (laddr tr) (c_str "z9hG4bK" ++ Print.Print.x64_text (at_rand a))))
    as (e2&mb2&->&Hr2&Hf2); [change (len []) with 0; rewrite ?app_nil_l, ?Print.Print.len_app; lia|]. cbn [mbind option_bind].
  match type of Hr2 with Dialog.Dialog.ran [] ?x _ _ => assert (x = head_text r t (laddr tr) (at_rand a)) as Ex end.
  { unfold head_text. rewrite !app_nil_l, <- !app_assoc. reflexivity. }
  assert (len (head_text r t (laddr tr) (at_rand a)) <= 3 * limit + 100) as Hhl.
  { rewrite <- Ex, app_nil_l, !Print.Print.len_app. lia. }
  rewrite Ex in Hr2. clear Ex Hr1.
  destruct (handed_ok a r t (laddr tr) dst mb2 _ Hok Hr2) as (v&e3&mb3&->&Hvl&Hr3&Hhand&Hf3).
  destruct (Dialog.Dialog.ran_write_ok [] _ _ mb3 (body r) Hr3) as (e4&mb4&->&Hr4&Hf4);
    [change (len []) with 0; rewrite ?Print.Print.len_app; lia|]. cbn [mbind option_bind].
  rewrite Z.lor_0_l in *. destruct Hr4 as (w&Hw&Hc). destruct (Z.eqb_spec (Z.lor (Z.lor (Z.lor e1 e2) e3) e4) 0) as [E|Hne]; cbn [negb].
  2: { apply Hfail; try done. intros ? [= <-] (_&_&_&Hs&Hnf). rewrite (Hf1 Hnf), (Hf2 Hnf), (Hf3 Hs), (Hf4 Hnf) in Hne. done. }
  apply Z.lor_eq_0_iff in E as [[E12 E3]%Z.lor_eq_0_iff _].
  cbv iota in Hc. subst w. exists (at_send a). eexists _, _. split; [reflexivity|]. cbn. split_and!; [done|done|done|]. left.
  exists (mb_set_pos mb4 0), (laddr tr), a, v. split_and!; [done| |by rewrite Ea|by apply Hhand|done|].
  - unfold sip_transp_laddr. by rewrite Et.
  - apply Dialog.Dialog.holds_start. by rewrite app_assoc.
Qed.

(** ** References *)

Definition bal1 (p : Z) (a : action) : Z :=
  match a with
  | Ref q | Take q => if q =? p then 1 else 0
  | Deref q => if q =? p then -1 else 0
  | _ => 0
  end.
(** The references to a record that were taken and not given up. *)
Fixpoint bal (p : Z) (l : list action) : Z := match l with [] => 0 | a :: l => bal1 p a + bal p l end.
Fixpoint occ (p : Z) (l : list record) : Z := match l with [] => 0 | x :: l => (if fst x =? p then 1 else 0) + occ p l end.
Definition held (p : Z) (r : sip_request) : Z := occ p (cachel r) + occ p (addrl r) + occ p (srvl r).

Lemma bal_app p a b : bal p (a ++ b) = bal p a + bal p b.
Proof. induction a as [|x a IH]; simpl; lia. Qed.
Lemma occ_app p a b : occ p (a ++ b) = occ p a + occ p b.
Proof. induction a as [|x a IH]; simpl; lia. Qed.
Lemma bal_refs p l : bal p (refs l) = occ p l.
Proof. unfold refs. induction l as [|x l IH]; simpl; [done|]. by rewrite IH. Qed.
Lemma bal_takes p l : bal p (takes l) = occ p l.
Proof. unfold takes. induction l as [|x l IH]; simpl; [done|]. by rewrite IH. Qed.
Lemma bal_flush p l : bal p (list_flush (B := B) l) = - occ p l.
Proof. unfold list_flush. induction l as [|x l IH]; simpl; [done|]. rewrite IH. destruct (_ =? _); lia. Qed.

(** What trying the next destination does: queries, messages, and references to the
    records that the lists gain and lose. *)
Definition silent (a : action) : Prop :=
  match a with Query _ _ _ | Send _ _ _ _ _ | Ref _ | Take _ | Deref _ => True | _ => False end.

(** What it leaves alone. *)
Definition core (r : sip_request) : sip_request :=
  set_provrecv false (set_rport 0 (set_lists [] [] [] (set_ct false (set_dns None None r)))).

Record evolves (r r' : sip_request) (e e' : env) : Prop := {
  ev_core : core r' = core r;
  ev_cache : cachel r' = cachel r;
  ev_attempts : Forall attempt_ok (attempts e) -> Forall attempt_ok (attempts e');
  ev_log : exists l, log e' = log e ++ l /\ Forall silent l /\ forall p, bal p l = held p r' - held p r }.

Lemma evolves_trans r1 r2 r3 e1 e2 e3 : evolves r1 r2 e1 e2 -> evolves r2 r3 e2 e3 -> evolves r1 r3 e1 e3.
Proof.
  intros [? ? ? (l1&E1&?&Hb1)] [? ? ? (l2&E2&?&Hb2)]. constructor; [congruence|congruence|auto|].
  exists (l1 ++ l2). rewrite E2, E1, app_assoc. split_and!; [done|by apply Forall_app|]. intros p. rewrite bal_app, Hb1, Hb2. lia.
Qed.

Lemma evolves_refl r e : evolves r r e e.
Proof. constructor; try done. exists []. rewrite app_nil_r. split_and!; [done|constructor|]. intros p. simpl. lia. Qed.

(** A step that only touches what [core] leaves out. *)
Lemma evolves_step r r' e e' l : core r' = core r -> cachel r' = cachel r ->
  (Forall attempt_ok (attempts e) -> Forall attempt_ok (attempts e')) ->
  log e' = log e ++ l -> Forall silent l -> (forall p, bal p l = held p r' - held p r) -> evolves r r' e e'.
Proof. intros ?????. constructor; try done. by exists l. Qed.

Lemma fits_core r r' : core r' = core r -> fits r -> fits r'.
Proof.
  intros Hc. pose proof (f_equal met Hc) as E1. pose proof (f_equal ruri Hc) as E2. pose proof (f_equal body Hc) as E3.
  cbn in *. unfold fits. by rewrite E1, E2, E3.
Qed.

Definition lists_ok (r : sip_request) : Prop :=
  Forall is_srv (srvl r) /\ Forall is_addr (addrl r) /\ Forall decoded (cachel r) /\ Z.of_nat (length (cachel r)) < 2 ^ 31.

(** *** The steps of [request_next] *)

Lemma request_evolves r t dst (e : env) : Forall attempt_ok (attempts e) -> fits r ->
  exists err r' e', request r t dst e = Some (err, r', e') /\ evolves r r' e e' /\
    srvl r' = srvl r /\ addrl r' = addrl r /\ dnsq r' = dnsq r /\ dnsq2 r' = dnsq2 r /\
    ct r' = (ct r || (stateful r && (err =? 0))).
Proof.
  intros Ha Hf. destruct (rq_request_ok r t dst e Ha Hf) as (err&e'&l&E&_&Ha'&Hl&Hs).
  exists err. eexists _, e'. split; [exact E|].
  assert (forall (b : bool) p, held p (if b then set_ct true (set_provrecv false r) else set_provrecv false r) = held p r) as Hh
    by (intros [] ?; done).
  split; [|destruct (stateful r && (err =? 0)); rewrite ?orb_true_r, ?orb_false_r; done].
  apply (evolves_step _ _ _ _ l); try done.
  - by destruct (stateful r && (err =? 0)).
  - by destruct (stateful r && (err =? 0)).
  - intros _. rewrite Ha'. destruct (attempts e); [constructor|by apply Forall_cons in Ha as [_ ?]].
  - destruct Hs as [(?&?&?&?&->&_)|[-> _]]; by repeat constructor.
  - intros p. rewrite Hh. destruct Hs as [(?&?&?&?&->&_)|[-> _]]; simpl; lia.
Qed.

Lemma append_addr_ok rrl nm recurse r (e : env) : Z.of_nat (length rrl) < 2 ^ 31 -> Forall decoded rrl ->
  exists new, append_addr rrl nm recurse r e = Some (set_lists (srvl r) (addrl r ++ new) (cachel r) r, emit (refs new) e) /\
    appended (map fst (srvl r)) (addrl r) rrl is_addr (addrl r ++ new) new /\
    evolves r (set_lists (srvl r) (addrl r ++ new) (cachel r) r) e (emit (refs new) e).
Proof.
  intros Hl Hd. destruct (rq_append_ok (B := B) (map fst (srvl r)) (addrl r) rrl nm recurse DNS_TYPE_A DNS_TYPE_AAAA is_addr Hl)
    as (x&new&E&Hnew); [done|done| |].
  - intros y Hy. rewrite Forall_forall in Hd. apply decoded_addr; auto.
  - exists new. unfold append_addr, dns_rrlist_apply2. rewrite E. split_and!; [done|done|].
    apply (evolves_step _ _ _ _ (refs new)); try done; [unfold refs; apply Forall_map, Forall_true; done|].
    intros p. rewrite bal_refs. unfold held. cbn. rewrite occ_app. lia.
Qed.

Lemma append_srv_ok rrl nm recurse r (e : env) : Z.of_nat (length rrl) < 2 ^ 31 -> Forall decoded rrl ->
  exists new, append_srv rrl nm recurse r e = Some (set_lists (srvl r ++ new) (addrl r) (cachel r) r, emit (refs new) e) /\
    appended (map fst (addrl r)) (srvl r) rrl is_srv (srvl r ++ new) new /\
    evolves r (set_lists (srvl r ++ new) (addrl r) (cachel r) r) e (emit (refs new) e).
Proof.
  intros Hl Hd. destruct (rq_append_ok (B := B) (map fst (addrl r)) (srvl r) rrl nm recurse DNS_TYPE_SRV DNS_TYPE_SRV is_srv Hl)
    as (x&new&E&Hnew); [done|done| |].
  - intros y Hy Ht. rewrite Forall_forall in Hd. apply decoded_srv; [auto|]. by destruct Ht.
  - exists new. unfold append_srv, dns_rrlist_apply. rewrite E. split_and!; [done|done|].
    apply (evolves_step _ _ _ _ (refs new)); try done; [unfold refs; apply Forall_map, Forall_true; done|].
    intros p. rewrite bal_refs. unfold held. cbn. rewrite occ_app. lia.
Qed.

(** Addresses are looked up: at least one query is pending, or there is an error. *)
Lemma addr_lookup_ok r nm (e : env) : dnsq r = None -> dnsq2 r = None ->
  exists err r' e', addr_lookup transpl r nm e = (err, r', e') /\ evolves r r' e e' /\
    srvl r' = srvl r /\ addrl r' = addrl r /\ ct r' = ct r /\
    (err = 0 -> (dnsq r' <> None \/ dnsq2 r' <> None) /\
      dnsq r' ∈ [None; Some QAddr] /\ dnsq2 r' ∈ [None; Some QAddr]).
Proof.
  intros H1 H2. unfold addr_lookup.
  set (q1 := if sip_transp_supported transpl (tp r) AF_INET then _ else (0, r, e)).
  assert (exists err r' e', q1 = (err, r', e') /\ evolves r r' e e' /\ tp r' = tp r /\
    srvl r' = srvl r /\ addrl r' = addrl r /\ ct r' = ct r /\ dnsq r' ∈ [None; Some QAddr] /\ dnsq2 r' = None)
    as (err1&r1&e1&->&Hev1&Ht1&Hs1&Ha1&Hc1&Hq1&Hq2).
  { unfold q1. destruct (sip_transp_supported _ _ _).
    - unfold dnsc_query. set (err := match queries e with [] => ENOMEM | q :: _ => q end).
      exists err. eexists _, _. split; [reflexivity|]. split.
      + apply (evolves_step _ _ _ _ [Query nm DNS_TYPE_A err]); try (by destruct (err =? 0)); [by repeat constructor|].
        intros p. destruct (err =? 0); unfold held; cbn; lia.
      + destruct (err =? 0); cbn; rewrite ?H1, ?H2; split_and!; try done; set_solver.
    - exists 0, r, e. rewrite H1, H2. split_and!; try done; [apply evolves_refl|set_solver]. }
  destruct (Z.eqb_spec err1 0) as [->|Hne]; cbn [negb].
  2: { exists err1, r1, e1. split_and!; try done. }
  rewrite Ht1. set (q2 := if sip_transp_supported transpl (tp r) AF_INET6 then _ else (0, r1, e1)).
  assert (exists err r' e', q2 = (err, r', e') /\ evolves r1 r' e1 e' /\
    srvl r' = srvl r /\ addrl r' = addrl r /\ ct r' = ct r /\ dnsq r' = dnsq r1 /\ dnsq2 r' ∈ [None; Some QAddr])
    as (err2&r2&e2&->&Hev2&Hs2&Ha2&Hc2&Hq1'&Hq2').
  { unfold q2. destruct (sip_transp_supported _ _ _).
    - unfold dnsc_query. set (err := match queries e1 with [] => ENOMEM | q :: _ => q end).
      exists err. eexists _, _. split; [reflexivity|]. split.
      + apply (evolves_step _ _ _ _ [Query nm DNS_TYPE_AAAA err]); try (by destruct (err =? 0)); [by repeat constructor|].
        intros p. destruct (err =? 0); unfold held; cbn; lia.
      + destruct (err =? 0); cbn; rewrite ?Hq2; split_and!; try done; set_solver.
    - exists 0, r1, e1. rewrite Hq2. split_and!; try done; [apply evolves_refl|set_solver]. }
  pose proof (evolves_trans _ _ _ _ _ _ Hev1 Hev2) as Hev.
  destruct (Z.eqb_spec err2 0) as [->|Hne]; cbn [negb].
  2: { exists err2, r2, e2. by split_and!. }
  rewrite <- Hq1' in Hq1. clear Hq1'. destruct (dnsq r2) as [q|] eqn:E1, (dnsq2 r2) as [q'|] eqn:E2;
    eexists _, r2, e2; (split; [reflexivity|]); rewrite ?E1, ?E2; split_and!; try done; intros _; split_and!; auto.
Qed.

(** *** The next destination *)

Definition pending (r : sip_request) : Prop := (dnsq r <> None \/ dnsq2 r <> None) /\
  dnsq r ∈ [None; Some QAddr] /\ dnsq2 r ∈ [None; Some QAddr].
Definition idle (r : sip_request) : Prop := ct r = false /\ dnsq r = None /\ dnsq2 r = None.

(** Fewer services are left, or as many and fewer addresses. *)
Definition fewer (r' r : sip_request) : Prop :=
  (length (srvl r') < length (srvl r))%nat \/
  (length (srvl r') = length (srvl r) /\ (length (addrl r') < length (addrl r))%nat).

Lemma fewer_trans r1 r2 r3 : fewer r1 r2 -> fewer r2 r3 -> fewer r1 r3.
Proof. unfold fewer. lia. Qed.

(** The message was given to the transport or to a transaction, or addresses are looked up. *)
Definition advanced (r r' : sip_request) : Prop := fewer r' r /\ lists_ok r' /\
  ((ct r' = stateful r /\ dnsq r' = None /\ dnsq2 r' = None) \/
   (ct r' = false /\ pending r' /\ addrl r' = [] /\ (length (srvl r') < length (srvl r))%nat)).

Lemma advanced_trans r r1 r' : stateful r1 = stateful r -> fewer r1 r -> advanced r1 r' -> advanced r r'.
Proof.
  intros Hst Hf (Hf'&Hl&Hc). split; [by eapply fewer_trans|]. split; [done|]. rewrite <- Hst.
  destruct Hc as [|(?&?&?&?)]; [by left|]. right. split_and!; try done. unfold fewer in Hf. lia.
Qed.

Definition next_measure (r : sip_request) : nat := (length (addrl r) + length (srvl r) * S (length (cachel r)))%nat.

Lemma appended_length busy l0 rrl P l new : appended busy l0 rrl P l new -> (length new <= length rrl)%nat.
Proof.
  intros (_&Hnd&Hall). rewrite <- (length_map fst new), <- (length_map fst rrl). apply submseteq_length, NoDup_submseteq; [done|].
  intros p (x&->&Hx)%list_elem_of_fmap. apply list_elem_of_fmap. exists x. split; [done|].
  rewrite Forall_forall in Hall. by apply Hall.
Qed.

Lemma appended_all busy l0 rrl P l new : appended busy l0 rrl P l new -> Forall P new.
Proof. intros (_&_&Hall). eapply Forall_impl; [exact Hall|]. naive_solver. Qed.

(** A service is taken: its addresses are in the cache, or are looked up. *)
Lemma next_service fuel r p rr rest (e : env) : addrl r = [] -> srvl r = (p, rr) :: rest -> lists_ok r -> idle r ->
  exists r1 e1, evolves r r1 e e1 /\ fewer r1 r /\ lists_ok r1 /\ (next_measure r1 < next_measure r)%nat /\ (
    (idle r1 /\ request_next inet_ntop strerror transpl sa0 (S fuel) r e =
      request_next inet_ntop strerror transpl sa0 fuel r1 e1) \/
    exists err, request_next inet_ntop strerror transpl sa0 (S fuel) r e = Some (err, r1, e1) /\ ct r1 = false /\
      (err = 0 -> pending r1 /\ addrl r1 = [] /\ (length (srvl r1) < length (srvl r))%nat)).
Proof.
  intros Ha Hs (Hsrv&_&Hcd&Hcl) (Hct&Hq1&Hq2). cbn [request_next]. rewrite Ha, Hs.
  rewrite Hs in Hsrv. apply Forall_cons in Hsrv as [(pri&w&port&target&Ed) Hrest]. cbn [snd] in Ed. rewrite Ed.
  change (cachel r) with (cachel (set_rport port r)).
  destruct (append_addr_ok (cachel (set_rport port r)) target true (set_rport port r) e Hcl Hcd) as (new&->&Hnew&Hev).
  cbn [mbind option_bind]. cbn in Hev, Hnew |- *. rewrite Ha in *. cbn [app] in *.
  set (r1 := set_lists rest new (cachel r) _). pose proof (appended_length _ _ _ _ _ _ Hnew) as Hlen.
  assert (forall r2 e', evolves r1 r2 (emit (refs new) e) e' ->
    srvl r2 = rest -> evolves r r2 e (emit [Deref p] e')) as Hto.
  { intros r2 e' [He1 He2 He3 (l&He4&Hl&Hb)] Hs2. destruct Hev as [Hv1 Hv2 Hv3 (l'&Hv4&Hl'&Hb')]. constructor.
    - by rewrite He1.
    - by rewrite He2.
    - auto.
    - exists (l' ++ l ++ [Deref p]). cbn in Hv4 |- *. rewrite He4. cbn. rewrite Hv4, <- !app_assoc. split; [done|]. split.
      + repeat (apply Forall_app; split); try done. by repeat constructor.
      + intros q. rewrite !bal_app, Hb, Hb'. unfold held. cbn. rewrite Hs, Ha. cbn. destruct (p =? q); lia. }
  assert (lists_ok r1) as Hok by (split_and!; cbn; try done; by apply appended_all in Hnew).
  assert (fewer r1 r) as Hfew by (left; cbn; rewrite Hs; simpl; lia).
  assert (next_measure r1 < next_measure r)%nat as Hm by (unfold next_measure; cbn; rewrite Hs, Ha; simpl; lia).
  destruct new as [|x new].
  - destruct (addr_lookup_ok r1 target (emit (refs []) e)) as (err&r2&e2&->&Hev2&Hs2&Ha2&Hc2&Hp); [done|done|].
    exists r2. eexists. split; [by apply Hto|]. pose proof (ev_cache _ _ _ _ Hev2) as Hc.
    split; [left; rewrite Hs2, Hs; simpl; lia|]. split; [unfold lists_ok; by rewrite Hs2, Ha2, Hc|].
    split; [unfold next_measure in *; by rewrite Hs2, Ha2, Hc|]. right. exists err. split; [done|]. split; [by rewrite Hc2|].
    intros He. destruct (Hp He) as (?&?&?). split; [by split_and!|]. rewrite Ha2, Hs2. cbn. split; [done|lia].
  - exists r1. eexists. split; [apply Hto; [apply evolves_refl|done]|]. split_and!; try done. by left.
Qed.

Lemma request_next_ok fuel : forall r (e : env), Forall attempt_ok (attempts e) -> fits r -> lists_ok r -> idle r ->
  (next_measure r < fuel)%nat ->
  exists err r' e', request_next inet_ntop strerror transpl sa0 fuel r e = Some (err, r', e') /\ evolves r r' e e' /\
    lists_ok r' /\ (err = 0 -> advanced r r') /\ (err <> 0 -> ct r' = false).
Proof.
  induction fuel as [|fuel IH]; intros r e Hat Hfit Hok Hidle Hm; [lia|].
  destruct (addrl r) as [|[p rr] rest] eqn:Ha.
  - destruct (srvl r) as [|[p rr] rest] eqn:Hs.
    { exists ENOENT, r, e. cbn [request_next]. rewrite Ha, Hs. split_and!; try done; [apply evolves_refl|]. by destruct Hidle. }
    destruct (next_service fuel r p rr rest e Ha Hs Hok Hidle) as (r1&e1&Hev&Hfew&Hok1&Hm1&[[Hid1 ->]|(err&->&Hc&Hp)]).
    + destruct (IH r1 e1) as (err&r'&e'&->&Hev'&Hok'&Had&Hne); try done; [by apply (ev_attempts _ _ _ _ Hev)|
        by apply (fits_core r), Hfit; apply (ev_core _ _ _ _ Hev)|lia|].
      exists err, r', e'. split_and!; try done; [by eapply evolves_trans|]. intros He.
      apply (advanced_trans _ r1); try done; [|by apply Had]. exact (f_equal stateful (ev_core _ _ _ _ Hev)).
    + exists err, r1, e1. split_and!; try done. intros He. destruct (Hp He) as (?&?&?). split_and!; try done. right. by split_and!.
  - cbn [request_next]. rewrite Ha. destruct Hok as (Hsrv&Haddr&Hc&Hcl). rewrite Ha in Haddr.
    apply Forall_cons in Haddr as [Hx Hrest].
    assert (exists dst, dst_of sa0 rr (rport r) = Some dst) as (dst&->).
    { unfold dst_of. destruct Hx as [[a E]|[a E]]; cbn [snd] in E; rewrite E; by eexists. }
    set (r0 := set_lists (srvl r) rest (cachel r) r).
    assert (evolves r r0 e (emit [Deref p] e)) as Hev0.
    { apply (evolves_step _ _ _ _ [Deref p]); try done; [by repeat constructor|]. intros q. unfold held. cbn. rewrite Ha. cbn.
      destruct (p =? q); lia. }
    assert (lists_ok r0) as Hok0 by by split_and!.
    assert (fewer r0 r) as Hf0 by (right; cbn; rewrite Ha; simpl; lia).
    change (tp r) with (tp r0).
    destruct (request_evolves r0 (tp r0) dst (emit [Deref p] e)) as (err&r1&e1&E1&Hev1&Hs1&Ha1&Hd1&Hd2&Hc1);
      [done|by apply (fits_core r)|].
    change (tp r0) with (tp r) in E1 |- *. rewrite E1. cbn [mbind option_bind].
    pose proof (evolves_trans _ _ _ _ _ _ Hev0 Hev1) as Hev. pose proof (ev_cache _ _ _ _ Hev1) as Hca.
    assert (lists_ok r1) as Hok1 by (unfold lists_ok; by rewrite Hs1, Ha1, Hca).
    assert (fewer r1 r) as Hf1 by (unfold fewer in *; by rewrite Hs1, Ha1).
    destruct Hidle as (Hct&Hq1&Hq2). cbn in Hc1, Hd1, Hd2. rewrite Hct in Hc1.
    destruct (Z.eqb_spec err 0) as [->|Hne]; cbn [negb].
    { exists 0, r1, e1. split_and!; try done. intros _. split_and!; try done. left. rewrite Hc1, Hd1, Hd2. by destruct (stateful r). }
    rewrite andb_false_r in Hc1.
    destruct (match addrl r1, srvl r1 with [], [] => true | _, _ => false end) eqn:Eend.
    { exists err, r1, e1. split_and!; try done. by destruct (addrl r1), (srvl r1). }
    destruct (IH r1 e1) as (err'&r'&e'&E'&Hev'&Hok'&Had&Hne'); try done; [by apply (ev_attempts _ _ _ _ Hev)|
      by apply (fits_core r), Hfit; apply (ev_core _ _ _ _ Hev)|by rewrite <- Hd1, <- Hd2 in * |
      unfold next_measure in *; rewrite Hs1, Ha1, Hca; cbn; rewrite Ha in Hm; simpl in Hm; lia|].
    exists err', r', e'. split.
    { rewrite <- E'. by destruct (addrl r1), (srvl r1). }
    split_and!; try done; [by eapply evolves_trans|]. intros He.
    apply (advanced_trans _ r1); try done; [|by apply Had]. exact (f_equal stateful (ev_core _ _ _ _ Hev)).
Qed.

Lemma next_ok r (e : env) : Forall attempt_ok (attempts e) -> fits r -> lists_ok r -> idle r ->
  exists err r' e', next inet_ntop strerror transpl sa0 r e = Some (err, r', e') /\ evolves r r' e e' /\
    lists_ok r' /\ (err = 0 -> advanced r r') /\ (err <> 0 -> ct r' = false).
Proof. intros. apply request_next_ok; try done. unfold next_fuel, next_measure. lia. Qed.

(** ** Handlers *)

Definition resp_of (a : action) : option (Z * option Z) := match a with Resp err msg => Some (err, msg) | _ => None end.
Definition resps (l : list action) : list (Z * option Z) := omap resp_of l.
Definition provisional (x : Z * option Z) : Prop := exists scode, snd x = Some scode /\ scode < 200.
Definition final (x : Z * option Z) : Prop := fst x <> 0 \/ exists scode, snd x = Some scode /\ 200 <= scode.

Lemma provisional_dec x : provisional x \/ ~ provisional x.
Proof.
  destruct x as [err [sc|]]; unfold provisional; cbn; [|right; by intros (?&?&_)].
  destruct (Z.lt_ge_cases sc 200); [left; by exists sc|right; intros (?&[= <-]&?); lia].
Qed.
Lemma resps_app a b : resps (a ++ b) = resps a ++ resps b.
Proof. apply omap_app. Qed.
Lemma resps_silent l : Forall silent l -> resps l = [].
Proof. induction 1 as [|[] l ? _ IH]; done. Qed.
Lemma resps_flush l : resps (list_flush (B := B) l) = [].
Proof. unfold list_flush. by induction l. Qed.
Lemma free_silent l : Forall silent l -> Free ∉ l.
Proof. intros Hl Hin. rewrite Forall_forall in Hl. by apply Hl in Hin. Qed.
Lemma free_flush l : Free ∉ list_flush (B := B) l.
Proof. unfold list_flush. by intros (?&?&?)%list_elem_of_fmap. Qed.

(** What no handler changes; the state of the lookups is left out. *)
Definition ident (r : sip_request) : sip_request := set_tp 0 false (core r).

Record moves (r r' : sip_request) (e e' : env) : Prop := {
  mv_ident : ident r' = ident r;
  mv_attempts : Forall attempt_ok (attempts e) -> Forall attempt_ok (attempts e');
  mv_log : exists l, log e' = log e ++ l /\ Forall silent l /\ forall p, bal p l = held p r' - held p r }.

Lemma evolves_moves r r' e e' : evolves r r' e e' -> moves r r' e e'.
Proof. intros [Hc _ ? ?]. constructor; [|done|done]. unfold ident. by rewrite Hc. Qed.
Lemma moves_set r r' e : ident r' = ident r -> (forall p, held p r' = held p r) -> moves r r' e e.
Proof.
  intros ? Hh. constructor; [done|done|]. exists []. rewrite app_nil_r. split_and!; [done|constructor|].
  intros p. rewrite Hh. simpl. lia.
Qed.
Lemma moves_trans r1 r2 r3 e1 e2 e3 : moves r1 r2 e1 e2 -> moves r2 r3 e2 e3 -> moves r1 r3 e1 e3.
Proof.
  intros [? ? (l1&E1&?&Hb1)] [? ? (l2&E2&?&Hb2)]. constructor; [congruence|auto|].
  exists (l1 ++ l2). rewrite E2, E1, app_assoc. split_and!; [done|by apply Forall_app|]. intros p. rewrite bal_app, Hb1, Hb2. lia.
Qed.

Lemma ident_eqs r r' : ident r' = ident r -> reqp r' = reqp r /\ resph r' = resph r /\ sendh r' = sendh r /\
  linked r' = linked r /\ stateful r' = stateful r /\ canceled r' = canceled r /\ rhost r' = rhost r /\
  met r' = met r /\ ruri r' = ruri r /\ body r' = body r.
Proof. intros Hi. unfold ident in Hi. cbn in Hi. by injection Hi. Qed.

Lemma fits_ident r r' : ident r' = ident r -> fits r -> fits r'.
Proof. intros (_&_&_&_&_&_&_&E1&E2&E3)%ident_eqs. unfold fits. by rewrite E1, E2, E3. Qed.

(** A request is over: its user is told, unless it was sent without a transaction; the
    pointer of the user is cleared; the records are given up. *)
Definition ended (r : sip_request) (l : list action) : Prop := exists l', l = l' ++ [Free] /\ Free ∉ l' /\
  (forall p, bal p l' = - held p r) /\
  ((exists x, final x /\ resps l' = if resph r then [x] else []) \/ (stateful r = false /\ resps l' = [])) /\
  (reqp r = true -> Unset ∈ l').

(** What a request waits for. *)
Definition phase (r : sip_request) : Prop :=
  (ct r = true /\ stateful r = true /\ dnsq r = None /\ dnsq2 r = None) \/
  (ct r = false /\ (pending r \/
    (srvl r = [] /\ addrl r = [] /\ cachel r = [] /\ dnsq2 r = None /\
     ((dnsq r = Some QSrv /\ 0 <= tp r < 3) \/ dnsq r = Some QNaptr)))).

Definition outcome (R : sip_request -> Prop) (r : sip_request) (e : env) (o : option sip_request) (e' : env) : Prop :=
  (Forall attempt_ok (attempts e) -> Forall attempt_ok (attempts e')) /\
  match o with
  | Some r' => moves r r' e e' /\ lists_ok r' /\ phase r' /\ R r'
  | None => exists l, log e' = log e ++ l /\ ended r l
  end.

Lemma outcome_moves R r r1 e e1 o e' : moves r r1 e e1 -> outcome R r1 e1 o e' -> outcome R r e o e'.
Proof.
  intros Hm [Ha Ho]. split; [intros; by apply Ha, (mv_attempts _ _ _ _ Hm)|]. destruct o as [r'|].
  - destruct Ho as (Hm'&?&?&?). split_and!; try done. by eapply moves_trans.
  - destruct Ho as (l&El&l'&->&Hfree&Hb&Hr&Hu). destruct Hm as [Hi _ (l0&E0&Hs&Hb0)].
    apply ident_eqs in Hi as (Eq&Er&_&_&Es&_). rewrite Eq, Er, Es in *.
    exists (l0 ++ l' ++ [Free]). split; [by rewrite El, E0, <- app_assoc|]. exists (l0 ++ l'). split; [by rewrite <- app_assoc|].
    rewrite resps_app, (resps_silent l0) by done. split_and!; [|intros p; rewrite bal_app, Hb, Hb0; lia|done|].
    + intros [Hf|Hf]%elem_of_app; [by apply (free_silent l0)|done].
    + intros Hq. apply elem_of_app. right. auto.
Qed.

(** The records that go with a request. *)
Definition flushed (r : sip_request) : list action := list_flush (cachel r) ++ list_flush (addrl r) ++ list_flush (srvl r).

Lemma flushed_ok r : Free ∉ flushed r /\ resps (flushed r) = [] /\ forall p, bal p (flushed r) = - held p r.
Proof.
  unfold flushed. rewrite !resps_app, !resps_flush. split_and!; [|done|].
  - rewrite !not_elem_of_app. split_and!; apply free_flush.
  - intros p. rewrite !bal_app, !bal_flush. unfold held. lia.
Qed.

Definition told (r : sip_request) (err : Z) (msg : option Z) : list action :=
  (if reqp r then [Unset] else []) ++ (if resph r then [Resp err msg] else []) ++ flushed r.

Lemma fin_eq r err msg (e : env) : (let '(r, e) := terminate r err msg e in destructor r e) =
  (None, emit (told r err msg ++ [Free]) e).
Proof.
  unfold terminate, destructor, told, flushed, emit. destruct r as [q rh ? ? ? ? ? ? ? ? ? ? ? ? ? ? ? ? ? ?].
  destruct q, rh; cbn; rewrite <- ?app_assoc; reflexivity.
Qed.

Lemma told_ended r err msg : final (err, msg) -> ended r (told r err msg ++ [Free]).
Proof.
  intros Hf. destruct (flushed_ok r) as (F1&F2&F3). exists (told r err msg). split; [done|]. unfold told.
  assert (forall a : action, Free <> a -> Free ∉ [a]) as Hone by (intros a ? ?%list_elem_of_singleton; done).
  split_and!.
  - rewrite !not_elem_of_app. destruct (reqp r), (resph r); split_and!; auto using not_elem_of_nil.
  - intros p. rewrite !bal_app, F3. destruct (reqp r), (resph r); cbn; lia.
  - left. exists (err, msg). split; [done|]. rewrite !resps_app, F2. by destruct (reqp r), (resph r).
  - intros ->. left.
Qed.

Lemma outcome_fin R r err msg (e : env) : final (err, msg) ->
  outcome R r e (fst (let '(r, e) := terminate r err msg e in destructor r e))
                (snd (let '(r, e) := terminate r err msg e in destructor r e)).
Proof.
  intros Hf. rewrite fin_eq. split; [done|]. cbn. eexists. split; [reflexivity|]. by apply told_ended.
Qed.

Lemma outcome_fail R r err (e : env) : err <> 0 -> outcome R r e (fst (fail r err e)) (snd (fail r err e)).
Proof. intros He. by apply outcome_fin; left. Qed.

(** A request without a transaction that was sent is over without a word. *)
Lemma outcome_sent R r (e : env) : stateful r = false ->
  outcome R r e (fst (let '(r, e) := terminate (set_resph false r) 0 None e in destructor r e))
                (snd (let '(r, e) := terminate (set_resph false r) 0 None e in destructor r e)).
Proof.
  intros Hst. rewrite fin_eq. split; [done|]. cbn. eexists. split; [reflexivity|].
  destruct (told_ended (set_resph false r) 1 None) as (l&E&?&?&_&?); [by left|].
  apply app_inj_tail in E as [<- _]. eexists. split; [reflexivity|]. split_and!; try done.
  right. split; [done|]. unfold told. destruct (flushed_ok (set_resph false r)) as (_&F2&_).
  cbn [reqp resph set_resph app]. by destruct (reqp r).
Qed.

Abbreviation next := (next inet_ntop strerror transpl sa0).
Abbreviation proceed := (proceed inet_ntop strerror transpl sa0).
Abbreviation srv_lookup := (srv_lookup inet_ntop strerror).

Lemma proceed_ok R r (e : env) : Forall attempt_ok (attempts e) -> fits r -> lists_ok r -> idle r ->
  (forall r', advanced r r' -> R r') ->
  exists o e', proceed r e = Some (o, e') /\ outcome R r e o e'.
Proof.
  intros Ha Hf Hl Hi HR. unfold SipRequest.proceed.
  destruct (next_ok r e Ha Hf Hl Hi) as (err&r'&e'&->&Hev&Hl'&Had&_). cbn [mbind option_bind].
  pose proof (evolves_moves _ _ _ _ Hev) as Hm.
  destruct (Z.eqb_spec err 0) as [->|Hne]; cbn [negb].
  2: { eexists _, _. rewrite (surjective_pairing (fail r' err e')). split; [reflexivity|].
       apply (outcome_moves _ _ _ _ _ _ _ Hm). by apply outcome_fail. }
  specialize (Had eq_refl). pose proof (f_equal stateful (ev_core _ _ _ _ Hev)) as Hst. cbn in Hst.
  destruct (stateful r') eqn:Es; cbn [negb].
  - exists (Some r'), e'. split; [done|]. split; [apply (mv_attempts _ _ _ _ Hm)|]. split_and!; [done|done| |by apply HR].
    destruct Had as (_&_&[(?&?&?)|(?&?&_)]); [left|right; auto]. rewrite <- Hst in *. by split_and!.
  - pose proof (outcome_moves _ _ _ _ _ _ _ Hm (outcome_sent R r' e' Es)) as Ho.
    destruct (terminate (set_resph false r') 0 None e') as [r2 e2]. eexists _, _. split; [|exact Ho].
    by rewrite <- surjective_pairing.
Qed.

(** A lookup was started, or there is an error. *)
Lemma rq_started_ok (R : sip_request -> Prop) r (e : env) err r' e' : moves r r' e e' ->
  (err = 0 -> lists_ok r' /\ phase r' /\ R r') ->
  exists o e2, started (err, r', e') = (o, e2) /\ outcome R r e o e2.
Proof.
  intros Hm Hs. unfold started. destruct (Z.eqb_spec err 0) as [->|Hne]; cbn [negb].
  - exists (Some r'), e'. destruct (Hs eq_refl) as (?&?&?). split; [done|]. split; [apply (mv_attempts _ _ _ _ Hm)|].
    by split_and!.
  - eexists _, _. split; [apply surjective_pairing|]. apply (outcome_moves _ _ _ _ _ _ _ Hm). by apply outcome_fail.
Qed.

Lemma dnsc_query_moves r nm ty (e : env) : exists err e', dnsc_query nm ty e = (err, e') /\
  forall r', ident r' = ident r -> (forall p, held p r' = held p r) -> moves r r' e e'.
Proof.
  unfold dnsc_query. eexists _, _. split; [reflexivity|]. intros r' Hi Hh. constructor; [done|done|].
  eexists [_]. split; [reflexivity|]. split; [by repeat constructor|]. intros p. rewrite Hh. simpl. lia.
Qed.

(** A request with no lists that waits for an answer about services. *)
Definition waits_srv (r : sip_request) : Prop := ct r = false /\ srvl r = [] /\ addrl r = [] /\ cachel r = [] /\
  dnsq2 r = None /\ dnsq r = Some QSrv /\ 0 <= tp r < 3.

Lemma lists_ok_nil r : srvl r = [] -> addrl r = [] -> cachel r = [] -> lists_ok r.
Proof. intros E1 E2 E3. unfold lists_ok. rewrite E1, E2, E3. by split_and!. Qed.

Lemma srv_lookup_ok r domain (e : env) : exists err r' e', srv_lookup r domain e = Some (err, r', e') /\
  moves r r' e e' /\ tp r' = tp r /\ tp_selected r' = tp_selected r /\ srvl r' = srvl r /\ addrl r' = addrl r /\ cachel r' = cachel r /\
  ct r' = ct r /\ dnsq2 r' = dnsq2 r /\ (err = 0 -> dnsq r' = Some QSrv).
Proof.
  unfold SipRequest.srv_lookup.
  assert (text_of (c_str "%s.%s") [Print.Print.AStr (Some (sip_transp_srvid (tp r))); Print.Print.AStr (Some domain)] =
    Some (sip_transp_srvid (tp r) ++ c_str "." ++ domain)) as Ht by (eval_format; cbn; by rewrite app_nil_r).
  pose proof (Printers.re_vsnprintf_ok inet_ntop strerror Dialog.Dialog.no_handler 1 Dialog.Dialog.no_text ltac:(intros [])
    1 256 _ _ _ ltac:(done) ltac:(lia) Ht) as Hp.
  destruct (_ <? 256) eqn:El in Hp.
  - rewrite Hp. cbn [mbind option_bind]. destruct (Z.ltb_spec (len (sip_transp_srvid (tp r) ++ c_str "." ++ domain)) 0) as [Hneg|_];
      [unfold len in Hneg; lia|].
    set (nm := option_map cstr _). destruct (dnsc_query_moves r nm DNS_TYPE_SRV e) as (err&e'&->&Hm).
    exists err. eexists _, _. split; [reflexivity|]. destruct (Z.eqb_spec err 0); cbn; split_and!; try done; by apply Hm.
  - destruct Hp as (w&->&_). cbn [mbind option_bind]. exists ENOMEM, r, e. split; [done|]. split; [by apply moves_set|]. by split_and!.
Qed.

Lemma transp_down_ok n i t : transp_down transpl n i = Some t -> -1 < t <= i.
Proof.
  revert i. induction n as [|n IH]; intros i; [done|]. cbn [transp_down]. unfold SIP_TRANSP_NONE.
  destruct (Z.ltb_spec (-1) i); [|done]. cbn [negb]. destruct (negb _); [intros ?%IH; lia|]. intros [= <-]. lia.
Qed.
Lemma transp_up_ok n i t : transp_up transpl n i = Some t -> i <= t < 3.
Proof.
  revert i. induction n as [|n IH]; intros i; [done|]. cbn [transp_up]. unfold SIP_TRANSPC.
  destruct (Z.ltb_spec i 3); [|done]. cbn [negb]. destruct (negb _); [intros ?%IH; lia|]. intros [= <-]. lia.
Qed.

(** ** Progress *)

(** How far the lookups are: the transports still to be asked for services count down. *)
Definition stage (r : sip_request) : nat :=
  match dnsq r with
  | Some QNaptr => 5
  | Some QSrv => if tp_selected r then 1 else 2 + Z.to_nat (tp r)
  | _ => 0
  end.
Definition queries_of (r : sip_request) : nat :=
  (match dnsq r with Some _ => 1 | None => 0 end + match dnsq2 r with Some _ => 1 | None => 0 end)%nat.

Definition below (r' r : sip_request) : Prop :=
  (stage r' < stage r)%nat \/ (stage r' = stage r /\
   ((length (srvl r') < length (srvl r))%nat \/ (length (srvl r') = length (srvl r) /\
    ((queries_of r' < queries_of r)%nat \/ (queries_of r' = queries_of r /\
     (length (addrl r') < length (addrl r))%nat))))).

Lemma below_wf : well_founded below.
Proof.
  assert (forall a b c d r, stage r = a -> length (srvl r) = b -> queries_of r = c -> length (addrl r) = d -> Acc below r) as Hall.
  { induction a as [a IHa] using lt_wf_ind. induction b as [b IHb] using lt_wf_ind. induction c as [c IHc] using lt_wf_ind.
    induction d as [d IHd] using lt_wf_ind. intros r Ea Eb Ec Ed. constructor. intros r' [Hlt|(E1&[Hlt|(E2&[Hlt|(E3&Hlt)])])].
    - eapply IHa; [|reflexivity..]. lia.
    - eapply IHb; [|congruence|reflexivity..]. lia.
    - eapply IHc; [|congruence|congruence|reflexivity..]. lia.
    - eapply IHd; [|congruence|congruence|congruence|reflexivity]. lia. }
  intros r. by eapply Hall.
Qed.

Lemma advanced_stage r r' : advanced r r' -> stage r' = 0%nat.
Proof.
  intros (_&_&Hc). unfold stage. destruct Hc as [(_&Hq&_)|(_&(_&Hq&_)&_)]; [by rewrite Hq|].
  by apply elem_of_cons in Hq as [Hq|Hq%list_elem_of_singleton]; rewrite Hq.
Qed.

(** ** The answers *)

(** The records of an answer: new objects, not too many of them. *)
Definition records_ok (l : list record) : Prop :=
  Forall decoded l /\ NoDup (map fst l) /\ Z.of_nat (length l) < 2 ^ 31.

Lemma records_ok_app l l' : records_ok (l ++ l') -> records_ok l /\ records_ok l'.
Proof.
  intros ([]%Forall_app&Hn&Hl). rewrite map_app in Hn. apply NoDup_app in Hn as (?&_&?).
  rewrite length_app in Hl. split; (split_and!; [done|done|lia]).
Qed.

Lemma sort_records ty l : records_ok l -> records_ok (rrlist_sort ty l) /\ rrlist_sort ty l ≡ₚ l.
Proof.
  intros (Hd&Hn&Hl). destruct (rrlist_sort_ok ty l) as [Hp _].
  - eapply Forall_impl; [exact Hd|]. intros [p [? ? ? ? [] ] ]; try done. unfold decoded, typed. cbn.
    intros Hx. split_and!; intros ->; apply Hx; set_solver.
  - split; [|done]. unfold records_ok. rewrite Hp. split_and!; try done.
Qed.

Lemma find_rr_ok l p rr : NoDup (map fst l) -> (p, rr) ∈ l -> find_rr l p = Some rr.
Proof.
  unfold find_rr. induction l as [|[q r'] l IH]; cbn [map List.find fst]; intros Hn Hin; [by apply elem_of_nil in Hin|].
  apply NoDup_cons in Hn as [Hq Hn]. apply elem_of_cons in Hin as [[= <- <-]|Hin].
  - by rewrite Z.eqb_refl.
  - destruct (Z.eqb_spec q p) as [->|]; [|by apply IH]. exfalso. apply Hq, list_elem_of_fmap. by exists (p, rr).
Qed.

(** Before the first service is known: no lists, and nothing awaited. *)
Definition blank (r : sip_request) : Prop := idle r /\ srvl r = [] /\ addrl r = [] /\ cachel r = [].

Lemma cache_ok addl r (e : env) : records_ok addl -> cachel r = [] ->
  exists new, cache transpl addl r e = Some (set_lists (srvl r) (addrl r) new r, emit (takes new) e) /\
    Forall decoded new /\ Z.of_nat (length new) < 2 ^ 31 /\
    moves r (set_lists (srvl r) (addrl r) new r) e (emit (takes new) e).
Proof.
  intros (Hd&_&Hl) Hc. unfold cache, dns_rrlist_apply. rewrite Hc.
  assert (forall w, rrlist_apply addl DNS_QTYPE_ANY DNS_QTYPE_ANY DNS_CLASS_IN false (Some (rr_cache_handler (B := B) transpl (tp r)))
    apply_fuel None 0 w = apply_loop DNS_QTYPE_ANY DNS_QTYPE_ANY DNS_CLASS_IN false (Some (rr_cache_handler (B := B) transpl (tp r)))
    (rrlist_apply addl DNS_QTYPE_ANY DNS_QTYPE_ANY DNS_CLASS_IN false (Some (rr_cache_handler (B := B) transpl (tp r))) 17) addl None 0 w)
    as -> by done.
  destruct (cache_loop (B := B) transpl (tp r) (rrlist_apply addl DNS_QTYPE_ANY DNS_QTYPE_ANY DNS_CLASS_IN false
    (Some (rr_cache_handler (B := B) transpl (tp r))) 17) addl None 0 [] []) as (new&->&Hn&Hin).
  exists new. cbn. split; [done|]. split; [|split; [lia|]].
  - eapply Forall_impl; [exact Hin|]. rewrite Forall_forall in Hd. auto.
  - constructor; [done|done|]. exists (takes new). split_and!; [done|unfold takes; apply Forall_map, Forall_true; done|].
    intros p. rewrite bal_takes. unfold held. cbn. rewrite Hc. simpl. lia.
Qed.

(** The end of the answers about services: the records are kept and the first one is tried. *)
Lemma services_ok R addl new r (e : env) : Forall attempt_ok (attempts e) -> fits r -> idle r -> addrl r = [] -> cachel r = [] ->
  srvl r = new -> Forall is_srv new -> records_ok addl -> (forall r', stage r' = 0%nat -> R r') ->
  exists o e', ('(r, e) ← cache transpl addl r e; proceed r e) = Some (o, e') /\ outcome R r e o e'.
Proof.
  intros Ha Hf Hi Hal Hcl Hsl Hsrv Hrec HR. destruct (cache_ok addl r e Hrec Hcl) as (c&->&Hd&Hl&Hm). cbn [mbind option_bind].
  destruct (proceed_ok R (set_lists (srvl r) (addrl r) c r) (emit (takes c) e)) as (o&e'&->&Ho); try done.
  - unfold lists_ok. cbn. rewrite Hal, Hsl. by split_and!.
  - intros r' Had. apply HR. by eapply advanced_stage.
  - exists o, e'. split; [done|]. by eapply outcome_moves.
Qed.

Abbreviation naptr_handler := (naptr_handler inet_ntop strerror transpl sa0).
Abbreviation srv_handler := (srv_handler inet_ntop strerror transpl sa0).
Abbreviation addr_handler := (addr_handler inet_ntop strerror transpl sa0).

(** The services of a transport are looked up. *)
Lemma services_lookup_ok R r t (e : env) : blank r -> 0 <= t < 3 ->
  (forall r', stage r' = (if tp_selected r then 1 else 2 + Z.to_nat t)%nat -> R r') ->
  exists o e', (x ← srv_lookup (set_tp t (tp_selected r) r) (rhost r) e; Some (started x)) = Some (o, e') /\ outcome R r e o e'.
Proof.
  intros ((Hct&_&Hq2)&Hs&Ha&Hc) Ht HR. set (r1 := set_tp t (tp_selected r) r).
  destruct (srv_lookup_ok r1 (rhost r) e) as (err&r'&e'&->&Hm&Et&Es&E1&E2&E3&E4&E5&Eq). cbn [mbind option_bind].
  cbn in Et, Es, E1, E2, E3, E4, E5.
  destruct (rq_started_ok R r1 e err r' e' Hm) as (o&e2&->&Ho).
  - intros He. specialize (Eq He). rewrite Hs, Ha, Hc, Hct, Hq2 in *. split_and!; [by apply lists_ok_nil| |].
    + right. split; [done|]. right. rewrite Et. auto 10.
    + apply HR. unfold stage. rewrite Eq, Es, Et. done.
  - exists o, e2. split; [done|]. apply (outcome_moves R r r1 e e); [by apply moves_set|done].
Qed.

Lemma naptr_stops p rr w r1 : rr_naptr_handler transpl p rr w = (true, r1) -> exists t, 0 <= t < 3 /\ r1 = set_tp t true w.
Proof.
  unfold rr_naptr_handler, naptr_tp, SIP_TRANSP_UDP, SIP_TRANSP_TCP, SIP_TRANSP_TLS. intros Hh.
  repeat case_match; try done; simplify_eq; eexists; (split; [|reflexivity]); lia.
Qed.

Lemma naptr_handler_ok R r ansl addl (e : env) : Forall attempt_ok (attempts e) -> fits r -> blank r ->
  records_ok ansl -> records_ok addl -> (forall r', (stage r' < 5)%nat -> R r') ->
  exists o e', naptr_handler r ansl addl e = Some (o, e') /\ outcome R r e o e'.
Proof.
  intros Ha Hf Hbl Han Had HR. unfold SipRequest.naptr_handler.
  destruct (sort_records DNS_TYPE_NAPTR ansl Han) as [(Hd&Hn&Hl) _]. set (al := rrlist_sort DNS_TYPE_NAPTR ansl) in *.
  unfold dns_rrlist_apply.
  destruct (dns_apply_ok al DNS_TYPE_NAPTR DNS_TYPE_NAPTR DNS_CLASS_IN false (Some (rr_naptr_handler transpl))
    (fun r' => exists t s, r' = set_tp t s r) (rr_naptr_handler transpl) None r eq_refl Hl) as (res&r1&->&(t&sel&->)&Hres).
  { intros _ p rr w _ _ (t&s&->). unfold rr_naptr_handler. repeat case_match; cbn; by eexists _, _. }
  { exists (tp r), (tp_selected r). by destruct r. }
  cbn [mbind option_bind]. set (r1 := set_tp t sel r) in *.
  assert (fits r1 /\ blank r1 /\ moves r r1 e e) as (Hf1&Hb1&Hm1) by (split_and!; try done; by apply moves_set).
  destruct res as [p|].
  - destruct Hres as (nm&rr&w&Hin&Hty&(t'&sel'&->)&(t2&Ht2&Er1)%naptr_stops). apply filtered_type in Hty; [|done|done].
    assert (type rr = DNS_TYPE_NAPTR) as Et by (destruct Hty as [|[|[_ ?] ] ]; done).
    assert (t = t2 /\ sel = true) as [-> ->] by (unfold r1 in Er1; clear -Er1; destruct r; by injection Er1).
    rewrite (find_rr_ok al p rr Hn Hin). cbn [mbind option_bind].
    destruct (decoded_naptr (p, rr)) as (?&?&?&?&?&repl&Ed); [rewrite Forall_forall in Hd; by apply Hd|done|]. cbn [snd] in Ed.
    rewrite Ed. cbn [mbind option_bind].
    destruct (sort_records DNS_TYPE_SRV addl Had) as [Had' _]. destruct Hb1 as ((Hct&Hq1&Hq2)&Hs&Hal&Hc).
    destruct (append_srv_ok (rrlist_sort DNS_TYPE_SRV addl) repl true r1 e) as (new&->&Hnew&Hev); [apply Had'|apply Had'|].
    cbn [mbind option_bind]. rewrite Hs in *. cbn [app] in *. pose proof (evolves_moves _ _ _ _ Hev) as Hm2.
    pose proof (moves_trans _ _ _ _ _ _ Hm1 Hm2) as Hm. destruct new as [|y new]; cbn [srvl set_lists].
    + set (r2 := set_lists [] (addrl r1) (cachel r1) r1) in *.
      destruct (dnsc_query_moves r2 repl DNS_TYPE_SRV (emit (refs []) e)) as (err&e'&->&Hq).
      destruct (rq_started_ok R r2 (emit (refs []) e) err (if err =? 0 then set_dns (Some QSrv) (dnsq2 r2) r2 else r2) e') as (o&e2&->&Ho).
      * apply Hq; by destruct (err =? 0).
      * intros ->. cbn. split_and!; [by apply lists_ok_nil| |].
        -- right. split; [done|]. right. cbn. split_and!; try done. left. split; [done|lia].
        -- apply HR. unfold stage. cbn. lia.
      * exists o, e2. split; [done|]. by apply (outcome_moves _ _ _ _ _ _ _ Hm).
    + set (r2 := set_lists (y :: new) (addrl r1) (cachel r1) r1) in *.
      destruct (services_ok R (rrlist_sort DNS_TYPE_SRV addl) (y :: new) r2 (emit (refs (y :: new)) e)) as (o&e'&->&Ho); try done.
      * by apply appended_all in Hnew.
      * intros r' Hr'. apply HR. lia.
      * exists o, e'. split; [done|]. by apply (outcome_moves _ _ _ _ _ _ _ Hm).
  - unfold transp_next_srv. set (r2 := set_tp SIP_TRANSPC (tp_selected r1) r1).
    assert (moves r r2 e e) as Hm2 by by apply moves_set.
    destruct (transp_down _ _ _) as [t'|] eqn:Etd.
    + apply transp_down_ok in Etd. cbn in Etd. unfold SIP_TRANSPC in Etd.
      destruct (services_lookup_ok R r2 t' e) as (o&e'&E&Ho); [done|lia| |].
      * intros r' Hr'. apply HR. rewrite Hr'. destruct (tp_selected r2); lia.
      * exists o, e'. split; [exact E|]. by apply (outcome_moves _ _ _ _ _ _ _ Hm2).
    + eexists _, _. split; [by rewrite <- surjective_pairing|]. apply (outcome_moves _ _ _ _ _ _ _ Hm2). by apply outcome_fail.
Qed.

(** No service: the addresses of the host itself are looked up. *)
Lemma addresses_ok R r nm (e : env) : blank r -> (forall r', stage r' = 0%nat -> R r') ->
  exists o e', started (addr_lookup transpl r nm e) = (o, e') /\ outcome R r e o e'.
Proof.
  intros ((Hct&Hq1&Hq2)&Hs&Ha&Hc) HR.
  destruct (addr_lookup_ok r nm e Hq1 Hq2) as (err&r'&e'&->&Hev&Hs'&Ha'&Hc'&Hp).
  apply rq_started_ok; [by apply evolves_moves|]. intros He. specialize (Hp He). split_and!.
  - apply lists_ok_nil; [by rewrite Hs'|by rewrite Ha'|by rewrite (ev_cache _ _ _ _ Hev)].
  - right. rewrite Hc'. split; [done|]. by left.
  - apply HR. unfold stage. destruct Hp as (_&Hq&_).
    by apply elem_of_cons in Hq as [Hq|Hq%list_elem_of_singleton]; rewrite Hq.
Qed.

Lemma srv_handler_ok R r ansl addl (e : env) : Forall attempt_ok (attempts e) -> fits r -> blank r -> 0 <= tp r < 3 ->
  records_ok ansl -> records_ok addl ->
  (forall r', (stage r' < if tp_selected r then 1 else 2 + Z.to_nat (tp r))%nat -> R r') ->
  exists o e', srv_handler r ansl addl e = Some (o, e') /\ outcome R r e o e'.
Proof.
  intros Ha Hf Hbl Htp Han Had HR. unfold SipRequest.srv_handler.
  destruct (sort_records DNS_TYPE_SRV ansl Han) as [(Hd&Hn&Hl) _]. pose proof Hbl as ((Hct&Hq1&Hq2)&Hs&Hal&Hc).
  destruct (append_srv_ok (rrlist_sort DNS_TYPE_SRV ansl) None false r e Hl Hd) as (new&->&Hnew&Hev).
  cbn [mbind option_bind]. rewrite Hs in *. cbn [app] in *. pose proof (evolves_moves _ _ _ _ Hev) as Hm.
  assert (forall r', stage r' = 0%nat -> R r') as HR0 by (intros r' Hr'; apply HR; rewrite Hr'; destruct (tp_selected r); lia).
  destruct new as [|y new]; cbn [srvl set_lists].
  - set (r2 := set_lists [] (addrl r) (cachel r) r) in *. assert (blank r2) as Hb2 by by split_and!.
    destruct (tp_selected r2) eqn:Esel; cbn [negb].
    + set (r3 := set_rport (sip_transp_port (tp r2) 0) r2).
      destruct (addresses_ok R r3 (Some (rhost r3)) (emit (refs []) e)) as (o&e'&E&Ho); [done|done|].
      exists o, e'. split; [by rewrite E|]. apply (outcome_moves _ _ _ _ _ _ _ Hm).
      apply (outcome_moves R r2 r3 (emit (refs []) e) (emit (refs []) e)); [by apply moves_set|done].
    + unfold transp_next_srv. destruct (transp_down _ _ _) as [t'|] eqn:Etd.
      * apply transp_down_ok in Etd. change (tp r2) with (tp r) in Etd.
        destruct (services_lookup_ok R r2 t' (emit (refs []) e)) as (o&e'&E&Ho); [done|lia| |].
        -- intros r' Hr'. apply HR. rewrite Hr', Esel. change (tp_selected r) with (tp_selected r2). rewrite Esel. lia.
        -- exists o, e'. rewrite Esel in E. split; [exact E|]. by apply (outcome_moves _ _ _ _ _ _ _ Hm).
      * unfold transp_next. destruct (transp_up _ _ _) as [t'|].
        -- set (r3 := set_rport _ _).
           destruct (addresses_ok R r3 (Some (rhost r3)) (emit (refs []) e)) as (o&e'&E&Ho); [done|done|].
           exists o, e'. split; [by rewrite E|]. apply (outcome_moves _ _ _ _ _ _ _ Hm).
           apply (outcome_moves R r2 r3 (emit (refs []) e) (emit (refs []) e)); [by apply moves_set|done].
        -- eexists _, _. split; [by rewrite <- surjective_pairing|]. apply (outcome_moves _ _ _ _ _ _ _ Hm).
           set (r3 := set_tp SIP_TRANSP_NONE false r2).
           apply (outcome_moves R r2 r3 (emit (refs []) e) (emit (refs []) e)); [by apply moves_set|by apply outcome_fail].
  - set (r2 := set_lists (y :: new) (addrl r) (cachel r) r) in *.
    destruct (services_ok R addl (y :: new) r2 (emit (refs (y :: new)) e)) as (o&e'&->&Ho); try done.
    + by apply appended_all in Hnew.
    + exists o, e'. split; [done|]. by apply (outcome_moves _ _ _ _ _ _ _ Hm).
Qed.

Lemma stage_pending r : pending r -> stage r = 0%nat.
Proof. intros (_&Hq&_). unfold stage. by apply elem_of_cons in Hq as [Hq|Hq%list_elem_of_singleton]; rewrite Hq. Qed.

Lemma addr_handler_ok R r err ansl (e : env) : Forall attempt_ok (attempts e) -> fits r -> lists_ok r -> ct r = false ->
  dnsq r ∈ [None; Some QAddr] -> dnsq2 r ∈ [None; Some QAddr] -> records_ok ansl ->
  (forall r', stage r' = 0%nat -> ((length (srvl r') < length (srvl r))%nat \/
    (length (srvl r') = length (srvl r) /\ (queries_of r' <= queries_of r)%nat)) -> R r') ->
  exists o e', addr_handler r err ansl e = Some (o, e') /\ outcome R r e o e'.
Proof.
  intros Ha Hf (Hsrv&Haddr&Hcd&Hcl) Hct Hq1 Hq2 (Hd&_&Hl) HR. unfold SipRequest.addr_handler.
  destruct (append_addr_ok ansl None false r e Hl Hd) as (new&->&Hnew&Hev). cbn [mbind option_bind].
  pose proof (evolves_moves _ _ _ _ Hev) as Hm. set (r1 := set_lists (srvl r) (addrl r ++ new) (cachel r) r) in *.
  assert (lists_ok r1) as Hl1.
  { split_and!; try done. cbn. apply Forall_app. split; [done|by apply appended_all in Hnew]. }
  destruct (match dnsq r1, dnsq2 r1 with None, None => true | _, _ => false end) eqn:Edone.
  - assert (dnsq r1 = None /\ dnsq2 r1 = None) as [E1 E2] by (by destruct (dnsq r1), (dnsq2 r1)). rewrite E1, E2.
    destruct (match addrl r1, srvl r1 with [], [] => true | _, _ => false end) eqn:Enil.
    + assert (addrl r1 = [] /\ srvl r1 = []) as [-> ->] by (by destruct (addrl r1), (srvl r1)).
      eexists _, _. split; [by rewrite <- surjective_pairing|]. apply (outcome_moves _ _ _ _ _ _ _ Hm), outcome_fail.
      by destruct (Z.eqb_spec err 0).
    + destruct (proceed_ok R r1 (emit (refs new) e)) as (o&e'&E&Ho); [done|done|done|by split_and!| |].
      * intros r' Hadv. pose proof (advanced_stage _ _ Hadv). destruct Hadv as (Hfew&_&Hcase). apply HR; [done|].
        unfold fewer in Hfew. cbn in Hfew. destruct Hcase as [(_&Eq1&Eq2)|(_&_&_&?)]; [|by left].
        destruct Hfew as [|[? _]]; [by left|right]. split; [done|]. unfold queries_of. rewrite Eq1, Eq2. lia.
      * exists o, e'. split; [|by apply (outcome_moves _ _ _ _ _ _ _ Hm)]. rewrite <- E. by destruct (addrl r1), (srvl r1).
  - exists (Some r1), (emit (refs new) e). split; [by destruct (dnsq r1), (dnsq2 r1)|].
    assert (pending r1) as Hp by (split_and!; [destruct (dnsq r1), (dnsq2 r1); naive_solver|done|done]).
    apply (outcome_moves _ _ _ _ _ _ _ Hm). split; [done|]. split_and!; [by apply moves_set|done| |].
    + right. split; [done|]. by left.
    + apply HR; [by apply stage_pending|]. by right.
Qed.

(** ** Responses *)

Abbreviation response_handler := (response_handler inet_ntop strerror transpl sa0).
Abbreviation handle := (handle inet_ntop strerror transpl sa0).

Lemma response_final R r err msg (e : env) : Forall attempt_ok (attempts e) -> fits r -> lists_ok r ->
  stateful r = true -> dnsq r = None -> dnsq2 r = None -> (err <> 0 <-> msg = None) -> ~ provisional (err, msg) ->
  (forall r', advanced (set_ct false r) r' -> R r') ->
  exists o e', response_handler r err msg e = Some (o, e') /\ outcome R r e o e'.
Proof.
  intros Ha Hf Hl Hst0 Hq1 Hq2 Hm Hnp HR. unfold SipRequest.response_handler.
  assert (match msg with Some scode => scode <? 200 | None => false end = false) as ->.
  { destruct msg as [sc|]; [|done]. destruct (Z.ltb_spec sc 200); [|done]. exfalso. apply Hnp. by exists sc. }
  assert (final (err, msg)) as Hfin.
  { destruct msg as [sc|]; [|left; by apply Hm]. right. exists sc. split; [done|].
    destruct (Z.le_gt_cases 200 sc); [done|]. exfalso. apply Hnp. exists sc. split; [done|lia]. }
  set (r1 := set_ct false r). assert (moves r r1 e e) as Hm1 by by apply moves_set.
  assert (forall err e2 r2, final (err, msg) -> moves r r2 e e2 -> exists o e',
    Some (let '(r, e) := terminate r2 err msg e2 in destructor r e) = Some (o, e') /\ outcome R r e o e') as Hend.
  { intros err' e2 r2 Hfin' Hm2. eexists _, _. split; [by rewrite <- surjective_pairing|].
    apply (outcome_moves _ _ _ _ _ _ _ Hm2). by apply outcome_fin. }
  destruct (canceled r1); [by apply Hend|].
  assert (exists f, failed err msg = Some f) as (f&->).
  { unfold failed. destruct (Z.eqb_spec err 0) as [->|]; [|by eexists]. destruct msg; [by eexists|]. by destruct Hm as [_ []]. }
  cbn [mbind option_bind]. destruct (f && _); [|by apply Hend].
  destruct (next_ok r1 e Ha Hf Hl) as (err'&r'&e'&->&Hev&Hl'&Had&_); [done|]. cbn [mbind option_bind].
  pose proof (moves_trans _ _ _ _ _ _ Hm1 (evolves_moves _ _ _ _ Hev)) as Hm2.
  destruct (Z.eqb_spec err' 0) as [->|Hne].
  - specialize (Had eq_refl). exists (Some r'), e'. split; [done|]. split; [apply (mv_attempts _ _ _ _ Hm2)|].
    split_and!; [done|done| |by apply HR]. pose proof (f_equal stateful (ev_core _ _ _ _ Hev)) as Hst. cbn in Hst.
    destruct Had as (_&_&[(Hc&?&?)|(?&?&_)]); [|right; auto]. left. rewrite Hst, Hst0. by rewrite Hc.
  - apply Hend; [by left|done].
Qed.

(** ** The life of a request *)

(** An answer of the resolver is for a pending query; a transaction ends with an error or
    reports a response; the user has the pointer; the stack knows the request. *)
Definition enabled (r : sip_request) (ev : event) : Prop :=
  match ev with
  | Answer second _ ansl addl => (if second : bool then dnsq2 r else dnsq r) <> None /\ records_ok ansl /\ records_ok addl
  | Response err msg => ct r = true /\ (err <> 0 <-> msg = None)
  | Cancel | GiveUp => reqp r = true
  | Close => linked r = true
  end.

(** The events that a request waits for: an answer, or the end of the transaction. *)
Definition completes (ev : event) : Prop :=
  match ev with
  | Answer _ _ _ _ => True
  | Response err msg => ~ provisional (err, msg)
  | _ => False
  end.
Definition gives_up (ev : event) : bool := match ev with GiveUp => true | _ => false end.

(** A request for a user with ([hr]) a response handler, who may have the pointer
    ([user]) and may have given up ([gu]); [l] is what happened. *)
Record alive (st hr user gu : bool) (r : sip_request) (l : list action) : Prop := {
  al_lists : lists_ok r; al_fits : fits r; al_phase : phase r; al_linked : linked r = true; al_st : stateful r = st;
  al_bal : forall p, bal p l = held p r; al_free : Free ∉ l; al_prov : Forall provisional (resps l);
  al_quiet : st = false -> resps l = [];
  al_told : resph r = hr && negb gu /\ reqp r = user && negb gu }.

(** It is over: freed as the last thing, with every record given up, the pointer of the
    user cleared, and its outcome told once, unless it was sent without a transaction. *)
Definition over (st hr user gu : bool) (l : list action) : Prop := exists l', l = l' ++ [Free] /\ Free ∉ l' /\
  (forall p, bal p l' = 0) /\
  (exists ps, Forall provisional ps /\ (st = false -> ps = []) /\
    ((exists x, final x /\ resps l' = ps ++ (if hr && negb gu then [x] else [])) \/ (st && negb gu = false /\ resps l' = ps))) /\
  (user && negb gu = true -> Unset ∈ l').

Lemma ended_over st hr user gu r l0 l : alive st hr user gu r l0 -> ended r l -> over st hr user gu (l0 ++ l).
Proof.
  intros [_ _ _ _ Hst Hb Hf Hp Hq [Hr Hu]] (l'&->&Hf'&Hb'&Ho&Hu'). exists (l0 ++ l'). rewrite app_assoc. split; [done|].
  rewrite not_elem_of_app. split; [done|]. split; [intros p; rewrite bal_app, Hb, Hb'; lia|]. split.
  - exists (resps l0). split; [done|]. split; [done|]. rewrite resps_app. destruct Ho as [(x&Hx&->)|[Hs ->]].
    + left. exists x. split; [done|]. by rewrite Hr.
    + right. rewrite app_nil_r, <- Hst, Hs. done.
  - intros Hg. apply elem_of_app. right. apply Hu'. by rewrite Hu.
Qed.

Lemma outcome_alive R st hr user gu r (e : env) o e' : alive st hr user gu r (log e) -> outcome R r e o e' ->
  match o with Some r' => alive st hr user gu r' (log e') /\ R r' | None => over st hr user gu (log e') end.
Proof.
  intros Hal [_ Ho]. destruct o as [r'|].
  - destruct Ho as ([Hi _ (l&->&Hs&Hb)]&Hl&Hp&HR). split; [|done]. destruct Hal as [? Hf ? Hli ? Hb0 Hfr Hpr Hq [Hr Hu]].
    apply ident_eqs in Hi as Hi'. destruct Hi' as (E1&E2&_&E4&E5&_). constructor; try congruence; try done.
    + by apply (fits_ident r).
    + intros p. rewrite bal_app, Hb, Hb0. lia.
    + rewrite not_elem_of_app. split; [done|]. by apply free_silent.
    + by rewrite resps_app, (resps_silent l), app_nil_r.
    + intros. rewrite resps_app, (resps_silent l), app_nil_r by done. auto.
    + by rewrite E1, E2.
  - destruct Ho as (l&->&He). by apply (ended_over _ _ _ _ r).
Qed.

(** What is not awaited changes nothing that is: it is kept, or the request is over. *)
Definition same_wait (r' r : sip_request) : Prop := stage r' = stage r /\ srvl r' = srvl r /\ addrl r' = addrl r /\
  dnsq r' = dnsq r /\ dnsq2 r' = dnsq2 r /\ ct r' = ct r.

Lemma answer_ok r (e : env) second err ansl addl : Forall attempt_ok (attempts e) -> lists_ok r -> fits r -> phase r ->
  enabled r (Answer second err ansl addl) ->
  exists o e', handle r (Answer second err ansl addl) e = Some (o, e') /\ outcome (fun r' => below r' r) r e o e'.
Proof.
  intros Ha Hl Hf Hph (Hq&Han&Had). unfold SipRequest.handle.
  set (r1 := if second then set_dns (dnsq r) None r else set_dns None (dnsq2 r) r).
  assert (moves r r1 e e) as Hm by (apply moves_set; by destruct second).
  assert (forall x, (exists o e', x = Some (o, e') /\ outcome (fun r' => below r' r) r1 e o e') ->
    exists o e', x = Some (o, e') /\ outcome (fun r' => below r' r) r e o e') as Hvia.
  { intros x (o&e'&E&Ho). exists o, e'. split; [done|]. by apply (outcome_moves _ _ _ _ _ _ _ Hm). }
  assert (fits r1 /\ lists_ok r1) as [Hf1 Hl1] by (by destruct second).
  destruct Hph as [(_&_&E1&E2)|(Hct&[Hp|(Hs&Hal&Hc&E2&E1)])].
  - destruct second; congruence.
  - pose proof (stage_pending r Hp) as Hst. destruct Hp as (_&H1&H2).
    assert ((if second then dnsq2 r else dnsq r) = Some QAddr) as ->.
    { apply elem_of_cons in H1 as [|?%list_elem_of_singleton], H2 as [|?%list_elem_of_singleton]; destruct second; congruence. }
    cbn [mbind option_bind]. apply Hvia. fold r1.
    apply addr_handler_ok; try done; [by destruct second|destruct second; cbn; try done; set_solver|
      destruct second; cbn; try done; set_solver|].
    intros r' Hr' Hlt. right. split; [congruence|]. assert (srvl r1 = srvl r) as Es by by destruct second. rewrite Es in Hlt.
    destruct Hlt as [|[Hlt Hqs]]; [by left|]. right. split; [done|]. left. unfold queries_of in *.
    destruct second; cbn in *; destruct (dnsq r), (dnsq2 r); simpl in *; try done; lia.
  - destruct second; [by rewrite E2 in Hq|]. assert (blank r1) as Hb by (by split_and!).
    destruct E1 as [[E1 Ht]|E1]; rewrite E1; cbn [mbind option_bind]; apply Hvia.
    + apply srv_handler_ok; try done. intros r' Hr'. left. unfold stage at 2. by rewrite E1.
    + apply naptr_handler_ok; try done. intros r' Hr'. left. unfold stage at 2. by rewrite E1.
Qed.

Lemma final_ok r (e : env) err msg : Forall attempt_ok (attempts e) -> lists_ok r -> fits r -> phase r ->
  enabled r (Response err msg) -> ~ provisional (err, msg) ->
  exists o e', handle r (Response err msg) e = Some (o, e') /\ outcome (fun r' => below r' r) r e o e'.
Proof.
  intros Ha Hl Hf Hph (Hct&Hm) Hnp. destruct Hph as [(_&Hst&E1&E2)|(Hct'&_)]; [|congruence].
  apply response_final; try done. intros r' Hadv. pose proof (advanced_stage _ _ Hadv) as Hs.
  destruct Hadv as (Hfew&_&Hcase). unfold fewer in Hfew. cbn in Hfew. right.
  split; [rewrite Hs; unfold stage; by rewrite E1|]. destruct Hcase as [(_&Q1&Q2)|(_&_&_&?)]; [|by left].
  destruct Hfew as [|[? ?]]; [by left|right]. split; [done|]. right. unfold queries_of. by rewrite E1, E2, Q1, Q2.
Qed.

Lemma rq_provisional_ok st hr user gu r (e : env) err msg : alive st hr user gu r (log e) ->
  enabled r (Response err msg) -> provisional (err, msg) ->
  exists r' e', handle r (Response err msg) e = Some (Some r', e') /\ alive st hr user gu r' (log e') /\ same_wait r' r.
Proof.
  intros Hal [Hct _] Hp. destruct Hp as (sc&E&Hsc). cbn in E. subst msg. cbn [SipRequest.handle]. unfold SipRequest.response_handler.
  destruct (Z.ltb_spec sc 200); [|lia].
  set (r' := if negb (provrecv r) then set_provrecv true r else r).
  set (l := (if negb (provrecv r) && canceled r then [CtransCancel] else []) ++ (if resph r then [Resp err (Some sc)] else []) : list action).
  exists r', (emit l e). split; [|split].
  - unfold r', l. destruct (provrecv r), (canceled r) eqn:Ec, (resph r) eqn:Er; cbn; rewrite ?Ec, ?Er; unfold emit; cbn;
      rewrite <- ?app_assoc, ?app_nil_r; try reflexivity; by destruct e; rewrite ?app_nil_r.
  - destruct Hal as [? ? Hph ? Hst Hb Hfr Hpr Hq Ht].
    assert (Free ∉ l /\ (forall p, bal p l = 0) /\ Forall provisional (resps l)) as (L1&L2&L3).
    { unfold l. split_and!.
      - rewrite not_elem_of_app. destruct (negb _ && _), (resph r); rewrite ?not_elem_of_cons; split_and!; try done; apply not_elem_of_nil.
      - intros p. by destruct (negb _ && _), (resph r).
      - destruct (negb _ && _), (resph r); cbn; repeat constructor; by exists sc. }
    unfold r'. constructor; try by destruct (negb (provrecv r)).
    + intros p. transitivity (held p r); [|by destruct (negb (provrecv r))].
      unfold emit. cbn [log]. rewrite bal_app, Hb, L2. lia.
    + unfold emit. cbn [log]. by rewrite not_elem_of_app.
    + unfold emit. cbn [log]. rewrite resps_app. by apply Forall_app.
    + intros Hs. exfalso. destruct Hph as [(_&?&_)|(?&_)]; congruence.
  - unfold r'. by destruct (negb (provrecv r)).
Qed.

Lemma rq_cancel_ok st hr user gu r (e : env) : alive st hr user gu r (log e) ->
  exists r' e', handle r Cancel e = Some (Some r', e') /\ alive st hr user gu r' (log e') /\ same_wait r' r.
Proof.
  intros Hal. cbn [SipRequest.handle]. unfold sip_request_cancel. destruct (canceled r); [by exists r, e|].
  destruct (negb (provrecv (set_canceled r))); (eexists _, _; split; [reflexivity|]; split; [|done]).
  - by destruct Hal.
  - destruct Hal as [? ? ? ? ? Hb Hf Hp Hq ?]. constructor; try done; cbn.
    + intros p. rewrite bal_app, Hb. cbn. unfold held. cbn. lia.
    + rewrite not_elem_of_app, not_elem_of_cons. split_and!; try done. apply not_elem_of_nil.
    + by rewrite resps_app, app_nil_r.
    + intros. rewrite resps_app, app_nil_r. auto.
Qed.

(** Giving up frees a request without a transaction; the others live on, canceled. *)
Lemma giveup_ok st hr user gu r (e : env) : alive st hr user gu r (log e) -> reqp r = true ->
  exists o e', handle r GiveUp e = Some (o, e') /\
    match o with
    | Some r' => alive st hr user true r' (log e') /\ (completes GiveUp -> below r' r) /\ (~ completes GiveUp -> same_wait r' r)
    | None => over st hr user true (log e')
    end.
Proof.
  intros Hal Hq. cbn [SipRequest.handle]. unfold destructor. rewrite Hq. destruct (stateful r) eqn:Est; cbn [andb].
  - set (r1 := set_resph false (set_sendh false (set_reqp false r))). set (e1 := emit [Unset] e).
    assert (alive st hr user true r1 (log e1)) as Hal1.
    { destruct Hal as [? ? ? ? ? Hb Hf Hp Hqu ?]. constructor; try done; cbn.
      + intros p. rewrite bal_app, Hb. cbn. unfold held. cbn. lia.
      + rewrite not_elem_of_app, not_elem_of_cons. split_and!; try done. apply not_elem_of_nil.
      + by rewrite resps_app, app_nil_r.
      + intros. rewrite resps_app, app_nil_r. auto.
      + by rewrite !andb_false_r. }
    destruct (rq_cancel_ok _ _ _ _ _ _ Hal1) as (r'&e'&E&Hal'&Hs). cbn [SipRequest.handle] in E.
    destruct (sip_request_cancel r1 e1) as [r2 e2]. injection E as -> ->. exists (Some r'), e'. split; [done|].
    split_and!; [done|by intros []|done].
  - eexists None, _. split; [reflexivity|]. destruct Hal as [_ _ _ _ Hst Hb Hf Hp Hqu _]. destruct (flushed_ok r) as (F1&F2&F3).
    exists (log e ++ flushed r). unfold flushed in *. cbn. rewrite <- !app_assoc. split; [done|].
    rewrite not_elem_of_app. split; [done|]. split; [intros p; rewrite bal_app, Hb, F3; lia|].
    rewrite !andb_false_r. split; [|done]. exists (resps (log e)). split_and!; try done. right.
    by rewrite resps_app, F2, app_nil_r.
Qed.

Lemma handle_ok st hr user gu r (e : env) ev : Forall attempt_ok (attempts e) -> alive st hr user gu r (log e) ->
  enabled r ev ->
  exists o e', handle r ev e = Some (o, e') /\
    match o with
    | Some r' => alive st hr user (gu || gives_up ev) r' (log e') /\
        (completes ev -> below r' r) /\ (~ completes ev -> same_wait r' r)
    | None => over st hr user (gu || gives_up ev) (log e')
    end.
Proof.

  intros Ha Hal Hen. destruct ev as [second err ansl addl|err msg| | |]; cbn [gives_up]; rewrite ?orb_false_r, ?orb_true_r.
  - destruct (answer_ok r e second err ansl addl) as (o&e'&E&Ho); try done; [apply Hal..|].
    exists o, e'. split; [done|]. pose proof (outcome_alive _ _ _ _ _ _ _ _ _ Hal Ho) as Hr. destruct o; [|done].
    destruct Hr. split_and!; first [done|by intros []].
  - destruct (provisional_dec (err, msg)) as [Hp|Hp].
    + destruct (rq_provisional_ok st hr user gu r e err msg Hal Hen Hp) as (r'&e'&->&?&?). exists (Some r'), e'.
      split_and!; first [done|by intros []].
    + destruct (final_ok r e err msg) as (o&e'&E&Ho); try done; [apply Hal..|].
      exists o, e'. split; [done|]. pose proof (outcome_alive _ _ _ _ _ _ _ _ _ Hal Ho) as Hr. destruct o; [|done].
      destruct Hr. split_and!; first [done|by intros []].
  - destruct (rq_cancel_ok st hr user gu r e Hal) as (r'&e'&->&?&?). exists (Some r'), e'. split_and!; first [done|by intros []].
  - by apply (giveup_ok st hr user gu r e).
  - cbn [SipRequest.handle]. unfold close_handler. set (r1 := set_ct false _).
    eexists _, _. rewrite fin_eq. split; [reflexivity|]. apply (ended_over _ _ _ _ r); [done|].
    apply (told_ended r1 ECONNABORTED None). by left.
Qed.

(** ** Start *)

(** A request that cannot start is freed, and nobody is told but the caller. *)
Definition refused (l : list action) : Prop := exists l', (l = [] \/ l = l' ++ [Free]) /\ Forall silent l' /\ forall p, bal p l' = 0.

Lemma named_tp_ok x t : named_tp x = Some t -> 0 <= t < 3.
Proof.
  unfold named_tp, SIP_TRANSP_UDP, SIP_TRANSP_TCP, SIP_TRANSP_TLS. intros Hn.
  repeat case_match; try done; simplify_eq; lia.
Qed.

(** A request that nothing was done for. *)
Record fresh (st hr : bool) (r : sip_request) : Prop := {
  fr_st : stateful r = st; fr_hr : resph r = hr; fr_reqp : reqp r = false; fr_linked : linked r = true;
  fr_blank : blank r; fr_fits : fits r }.

Lemma destructor_fresh r r' (e e' : env) : blank r -> reqp r = false -> Forall silent (log e) -> (forall p, bal p (log e) = 0) ->
  moves r r' e e' -> exists e2, destructor r' e' = (None, e2) /\ refused (log e2).
Proof.
  intros (_&Hs&Ha&Hc) Hq Hl Hb [Hi _ (l&E&Hl'&Hb')]. apply ident_eqs in Hi as (Eq&_).
  unfold destructor. rewrite Eq, Hq. cbn [andb]. eexists. split; [reflexivity|].
  destruct (flushed_ok r') as (_&_&F3). exists (log e' ++ flushed r'). unfold flushed in *. cbn. split.
  - right. by rewrite <- !app_assoc.
  - split.
    + rewrite E. repeat (apply Forall_app; split); try done; unfold list_flush; by apply Forall_map, Forall_true.
    + intros p. rewrite bal_app, F3, E, bal_app, Hb, Hb'. unfold held at 2. rewrite Hs, Ha, Hc. simpl. lia.
Qed.

Definition begun (st hr user : bool) (err : Z) (o : option sip_request) (l : list action) : Prop :=
  match o with
  | Some r => err = 0 /\ alive st hr user false r l
  | None => refused l /\ (st = true -> err <> 0)
  end.

Lemma out_ok st hr user r err r' (e e' : env) : fresh st hr r -> Forall silent (log e) -> (forall p, bal p (log e) = 0) ->
  moves r r' e e' -> (err = 0 -> lists_ok r' /\ phase r') ->
  exists err2 o e2, out user (err, r', e') = Some (err2, o, e2) /\ begun st hr user err2 o (log e2).
Proof.
  intros [Hst Hhr Hq Hli Hbl Hf] Hl Hb Hm Hok. exists err. unfold out. destruct (Z.eqb_spec err 0) as [->|Hne]; cbn [negb].
  - destruct (Hok eq_refl) as [Hl' Hph]. eexists _, _. split; [reflexivity|]. split; [done|].
    destruct Hm as [Hi _ (l&->&Hsl&Hb')]. apply ident_eqs in Hi as Hi'. destruct Hi' as (E1&E2&_&E4&E5&_).
    assert (fits r') as Hf' by by apply (fits_ident r).
    assert (forall p, held p r = 0) as Hh0 by (intros p; unfold held; destruct Hbl as (_&->&->&->); done).
    constructor; try (by destruct user); try (destruct user; cbn; congruence).
    + intros p. rewrite bal_app, Hb, Hb', Hh0. destruct user; unfold held; cbn; lia.
    + rewrite not_elem_of_app. split; by apply free_silent.
    + rewrite resps_app, !resps_silent by done. constructor.
    + intros _. by rewrite resps_app, !resps_silent by done.
    + rewrite !andb_true_r. destruct user; cbn; split; congruence.
  - destruct (destructor_fresh r r' e e') as (e2&->&Hr); try done. eexists _, _. split; [reflexivity|]. by split.
Qed.

Lemma out_err st hr user r err (e : env) : blank r -> reqp r = false -> log e = [] -> err <> 0 ->
  exists err2 o e2, out user (err, r, e) = Some (err2, o, e2) /\ begun st hr user err2 o (log e2).
Proof.
  intros Hb Hq Hl He. exists err. unfold out. destruct (Z.eqb_spec err 0); [done|]. cbn [negb].
  destruct (destructor_fresh r r e e) as (e2&->&Hr); try done; [by rewrite Hl|intros p; by rewrite Hl|by apply moves_set|].
  eexists _, _. split; [reflexivity|]. by split.
Qed.

(** A host that is an address is sent to at once; without a transaction that is all. *)
Lemma start_address st hr user r dst (e : env) : Forall attempt_ok (attempts e) -> fresh st hr r -> log e = [] ->
  exists err o e2, ('(err, r, e) ← request r (tp r) dst e;
    if negb (stateful r) then let '(o, e) := destructor r e in Some (err, o, e) else out user (err, r, e)) =
    Some (err, o, e2) /\ begun st hr user err o (log e2).
Proof.
  intros Ha Hfr Hl. pose proof Hfr as [Hst Hhr Hq Hli Hbl Hf].
  destruct (request_evolves r (tp r) dst e Ha Hf) as (err&r'&e'&->&Hev&Hs&Hal&Hd1&Hd2&Hc). cbn [mbind option_bind].
  pose proof (evolves_moves _ _ _ _ Hev) as Hm. pose proof Hm as [Hi _ _]. apply ident_eqs in Hi as (_&_&_&_&E5&_).
  pose proof Hbl as ((Hct&Hq1&Hq2)&B1&B2&B3).
  rewrite E5, Hst in *. destruct st; cbn [negb].
  - apply (out_ok true hr user r err r' e e'); try done; [by rewrite Hl|by intros; rewrite Hl|]. intros ->.
    rewrite Hct in Hc. cbn in Hc. split.
    + apply lists_ok_nil; congruence || by rewrite (ev_cache _ _ _ _ Hev).
    + left. split_and!; congruence.
  - destruct (destructor_fresh r r' e e') as (e2&->&Hr); try done; [by rewrite Hl|by intros; rewrite Hl|].
    eexists err, _, _. split; [reflexivity|]. by split.
Qed.

(** A host that is a name is looked up. *)
Lemma start_name st hr user r port (e : env) : fresh st hr r -> log e = [] ->
  (tp_selected r = true -> 0 <= tp r < 3) ->
  exists err o e2, (if negb (port =? 0) then
       let r := set_rport (sip_transp_port (tp r) port) r in out user (addr_lookup transpl r (Some (rhost r)) e)
     else if tp_selected r then x ← srv_lookup r (rhost r) e; out user x
     else let '(err, e) := dnsc_query (Some (rhost r)) DNS_TYPE_NAPTR e in
       out user (err, if err =? 0 then set_dns (Some QNaptr) (dnsq2 r) r else r, e)) = Some (err, o, e2) /\
    begun st hr user err o (log e2).
Proof.
  intros Hfr Hl Htp. pose proof Hfr as [Hst Hhr Hq Hli Hbl Hf]. pose proof Hbl as ((Hct&Hq1&Hq2)&B1&B2&B3).
  assert (Forall silent (log e) /\ forall p, bal p (log e) = 0) as [L1 L2] by (rewrite Hl; by split).
  destruct (negb (port =? 0)).
  - set (r1 := set_rport (sip_transp_port (tp r) port) r). assert (moves r r1 e e) as Hm0 by by apply moves_set.
    cbv zeta. fold r1.
    destruct (addr_lookup_ok r1 (Some (rhost r1)) e) as (err&r'&e'&->&Hev&Hs&Ha&Hc&Hp); [done|done|].
    apply (out_ok st hr user r err r' e e'); try done;
      [apply (moves_trans _ _ _ _ _ _ Hm0); by apply evolves_moves|].
    intros He. specialize (Hp He). split.
    + apply lists_ok_nil; [by rewrite Hs|by rewrite Ha|by rewrite (ev_cache _ _ _ _ Hev)].
    + right. rewrite Hc. split; [done|]. by left.
  - destruct (tp_selected r).
    + destruct (srv_lookup_ok r (rhost r) e) as (err&r'&e'&->&Hm&Et&_&E1&E2&E3&E4&E5&Eq). cbn [mbind option_bind].
      apply (out_ok st hr user r err r' e e'); try done. intros He. specialize (Eq He). specialize (Htp eq_refl). split.
      * apply lists_ok_nil; congruence.
      * right. rewrite E4. split; [done|]. right. rewrite E1, E2, E3, E5, Et. auto 10.
    + destruct (dnsc_query_moves r (Some (rhost r)) DNS_TYPE_NAPTR e) as (err&e'&->&Hm).
      apply (out_ok st hr user r err (if err =? 0 then set_dns (Some QNaptr) (dnsq2 r) r else r) e e'); try done; [apply Hm; by destruct (err =? 0)|].
      intros ->. cbn. split; [by apply lists_ok_nil|]. right. split; [done|]. right. cbn. auto 10.
Qed.

Lemma start_ok st hr user port r (e : env) : Forall attempt_ok (attempts e) -> fresh st hr r -> log e = [] ->
  (tp_selected r = true -> 0 <= tp r < 3) ->
  exists err o e2, start inet_pton inet_ntop strerror transpl sa0 user port r e = Some (err, o, e2) /\
    begun st hr user err o (log e2).
Proof.
  intros Ha Hfr Hl Htp. unfold start. destruct (sa_set_str _ _ _ _) as [err dst]. destruct (err =? 0).
  - by apply start_address.
  - by apply start_name.
Qed.

Lemma sip_request_ok mem user st m u route mb hs hr (e : env) : Forall attempt_ok (attempts e) ->
  len m <= limit -> len u <= limit -> len mb <= limit -> log e = [] ->
  exists err o e', sip_request_ inet_pton inet_ntop strerror transpl sa0 mem user st m u route mb hs hr e = Some (err, o, e') /\
    begun st hr user err o (log e').
Proof.
  intros Ha Hm Hu Hb Hl. unfold sip_request_.
  assert (forall err, err <> 0 -> exists err' o e', Some (err, None, e) = Some (err', o, e') /\ begun st hr user err' o (log e')) as Hno.
  { intros err He. exists err, None, e. split; [done|]. split; [|done]. exists []. split; [by left|]. by split. }
  destruct (negb _); [by apply Hno|]. destruct (mem 0%nat =? 0); [by apply Hno|]. cbv zeta.
  destruct ((mem 1%nat =? 0) || (mem 2%nat =? 0)); [by apply out_err|].
  destruct (SipScan.param_decode_defined (Uri.Uri.params route) (c_str "maddr") pl_null) as [[err x] ->]; [done|apply Nat.leb_le; reflexivity|].
  cbn [mbind option_bind].
  destruct (Dialog.Dialog.strdup _ _) as [err2 h] eqn:Ed.
  destruct (Z.eqb_spec err2 0) as [->|]; cbn [negb]; [|by apply out_err].
  destruct (SipScan.param_decode_defined (Uri.Uri.params route) (c_str "transport") x) as [[err3 y] ->]; [done|apply Nat.leb_le; reflexivity|].
  cbn [mbind option_bind]. destruct (err3 =? 0).
  - destruct (named_tp y) as [t|] eqn:Et; [|by apply out_err].
    destruct (sip_transp_supported transpl t AF_UNSPEC); cbn [negb]; [|by apply out_err]. apply start_ok; try done. intros _. by apply (named_tp_ok y).
  - destruct (transp_next transpl SIP_TRANSP_NONE) as [t|]; [by apply start_ok|by apply out_err].
Qed.

End Inv.
End SipRequestInv.
