(* ===== verification/SipRequestEnd.v ===== *)
(** * SIP requests, from start to end

    Runs of [SipRequest] and the properties of them, proved with the invariant of
    [SipRequestInv]; concrete requests. *)
From S2P Require Import Prelude Mem Pl Hash Mbuf Codec Uric Param Sa Print Printers Uri DnsRr RrList SipTransp Dialog SipRequest SipRequestInv.
Import Pl Codec Sa DnsRr RrList SipTransp SipRequest SipRequestInv.

Module SipRequestEnd.

Section Properties.
Context (inet_pton : Z -> list Z -> option (list Z)) (inet_ntop : Z -> list Z -> list Z) (strerror : Z -> list Z).
Context {B : Type} `{BL : BufferLaws B} (transpl : list sip_transport) (sa0 : sa).
Abbreviation len := Print.Print.len.
Abbreviation action := (action B).
Abbreviation env := (env B).
Abbreviation handle := (handle inet_ntop strerror transpl sa0).

(** The local addresses have texts of bounded length. *)
Definition transports_ok : Prop :=
  Forall (fun t => len (Print.Print.sa_text inet_ntop Print.Print.conv0 (laddr t)) <= limit) transpl.

(** ** Runs

    A request is started and events happen to it; what the allocations, the queries and
    the sending will return is chosen anew at each. *)
Inductive reach (st hr user : bool) : bool -> option sip_request -> list action -> Prop :=
| reach_start mem m u route mb hs atts qs r (e : env) : Forall attempt_ok atts ->
    len m <= limit -> len u <= limit -> len mb <= limit ->
    sip_request_ inet_pton inet_ntop strerror transpl sa0 mem user st m u route mb hs hr (mk_env atts qs []) = Some (0, Some r, e) ->
    reach st hr user false (Some r) (log e)
| reach_step gu r l ev atts qs o (e : env) : reach st hr user gu (Some r) l -> enabled r ev -> Forall attempt_ok atts ->
    handle r ev (mk_env atts qs l) = Some (o, e) ->
    reach st hr user (gu || gives_up ev) o (log e).

Lemma reach_alive st hr user gu o l : transports_ok -> reach st hr user gu o l ->
  match o with Some r => alive st hr user gu r l | None => over st hr user gu l end.
Proof.
  intros Ht. induction 1 as [mem m u route mb hs atts qs r e Ha Hm Hu Hb E|gu r l ev atts qs o e _ IH Hen Ha E].
  - destruct (sip_request_ok inet_pton inet_ntop strerror transpl sa0 Ht mem user st m u route mb hs hr (mk_env atts qs []))
      as (err&o&e'&E'&Hb'); try done. rewrite E in E'. injection E' as <- <- <-. by apply Hb'.
  - destruct (handle_ok inet_pton inet_ntop strerror transpl sa0 Ht st hr user gu r (mk_env atts qs l) ev Ha IH Hen) as (o'&e'&E'&Hr).
    rewrite E in E'. injection E' as <- <-. destruct o; [by destruct Hr|done].
Qed.

(** C14: while a request lives it waits for the resolver or for its transaction, it holds
    exactly the references to DNS records that it took and did not give up, its user
    has heard of nothing but provisional responses, and every event that can happen to it
    is handled without undefined behaviour.  When it is freed, which happens once and
    last, every reference was given up, the user's pointer was cleared, and the user, if
    there is a response handler and the user did not give up, was told exactly one final
    outcome after the provisional ones (a request without a transaction may be over
    without a word: it was sent). *)
Theorem request_lifecycle st hr user gu o l : transports_ok -> reach st hr user gu o l ->
  match o with
  | Some r => (ct r = true \/ dnsq r <> None \/ dnsq2 r <> None) /\ Free ∉ l /\
      (forall p, bal p l = held p r) /\ Forall provisional (resps l) /\
      forall ev atts qs, enabled r ev -> Forall attempt_ok atts -> is_Some (handle r ev (mk_env atts qs l))
  | None => exists l', l = l' ++ [Free] /\ Free ∉ l' /\ (forall p, bal p l' = 0) /\
      (user = true -> gu = false -> Unset ∈ l') /\
      exists ps, Forall provisional ps /\
        (if st && hr && negb gu then exists x, final x /\ resps l' = ps ++ [x]
         else resps l' = ps \/ exists x, final x /\ resps l' = ps ++ [x])
  end.
Proof.
  intros Ht Hr. pose proof (reach_alive _ _ _ _ _ _ Ht Hr) as Ha. destruct o as [r|].
  - pose proof Ha as [Hl Hf Hp Hli Hst Hb Hfr Hpr Hq Htold]. split_and!; try done.
    + destruct Hp as [(?&_)|(_&[(Hq'&_)|(_&_&_&_&[[Hq' _]|Hq'])])]; [by left|by right|right; left; congruence..].
    + intros ev atts qs Hen Hatt.
      destruct (handle_ok inet_pton inet_ntop strerror transpl sa0 Ht st hr user gu r (mk_env atts qs l) ev Hatt Ha Hen) as (o'&e'&->&_).
      by eexists.
  - destruct Ha as (l'&->&Hf&Hb&(ps&Hps&_&Ho)&Hu). exists l'. split_and!; try done.
    + intros -> ->. by apply Hu.
    + exists ps. split; [done|]. destruct Ho as [(x&Hx&E)|[E1 E2]].
      * destruct st, hr, gu; cbn in *; rewrite ?app_nil_r in E; eauto.
      * destruct st, hr, gu; cbn in *; try done; auto.
Qed.

(** C15: a request comes to its end: there is always an answer or an end of a transaction
    that it waits for; each of these frees it or moves it down a well-founded order (the
    transports still to be asked for services, then the services left, the pending
    queries, the addresses left), which no other event changes. *)
Theorem request_ends st hr user gu r l : transports_ok -> reach st hr user gu (Some r) l ->
  well_founded below /\
  (exists ev, enabled r ev /\ completes ev) /\
  forall ev atts qs o (e : env), enabled r ev -> Forall attempt_ok atts -> handle r ev (mk_env atts qs l) = Some (o, e) ->
    match o with
    | None => True
    | Some r' => (completes ev -> below r' r) /\ (~ completes ev -> same_wait r' r)
    end.
Proof.
  intros Ht Hr. pose proof (reach_alive _ _ _ _ _ _ Ht Hr) as Ha. split; [apply below_wf|]. split.
  - assert (forall second, (if second : bool then dnsq2 r else dnsq r) <> None -> exists ev, enabled r ev /\ completes ev) as Hans.
    { intros second Hq. exists (Answer second 0 [] []). split; [|done]. split; [done|].
      split; (split_and!; [constructor|constructor|done]). }
    destruct (al_phase _ _ _ _ _ _ Ha) as [(Hc&_)|(_&[([Hq|Hq]&_)|(_&_&_&_&[[Hq _]|Hq])])].
    + exists (Response ETIMEDOUT None). split; [by split|]. by intros (?&?&_).
    + by apply (Hans false).
    + by apply (Hans true).
    + apply (Hans false). congruence.
    + apply (Hans false). congruence.
  - intros ev atts qs o e Hen Hatt E.
    destruct (handle_ok inet_pton inet_ntop strerror transpl sa0 Ht st hr user gu r (mk_env atts qs l) ev Hatt Ha Hen) as (o'&e'&E'&Hx).
    rewrite E in E'. injection E' as <- <-. destruct o; [by destruct Hx|done].
Qed.

(** ** What is sent, and where to *)

(** The destinations that a log tried, with the results. *)
Definition dests (l : list action) : list (sa * Z) :=
  omap (fun a => match a with Send _ dst _ _ err => Some (dst, err) | _ => None end) l.
(** The queries of a log. *)
Definition asked (l : list action) : list (str * Z * Z) :=
  omap (fun a => match a with Query nm ty err => Some (nm, ty, err) | _ => None end) l.

Lemma dests_app a b : dests (a ++ b) = dests a ++ dests b.
Proof. apply omap_app. Qed.

Lemma asked_app a b : asked (a ++ b) = asked a ++ asked b.
Proof. apply omap_app. Qed.
Lemma refs_dests l : dests (refs l) = [].
Proof. unfold refs. by induction l. Qed.
Lemma refs_asked l : asked (refs l) = [].
Proof. unfold refs. by induction l. Qed.

(** C16: what one attempt sends: the request line, a Via with the local address of the first
    transport of the kind and the family and with the random number of the attempt as its
    branch, what the send handler appends to the buffer with these lines when it is called
    with the transport and the addresses, and the message of the request; or nothing is sent
    at all and an error says so, which only happens when an allocation or the send handler
    fails or there is no transport.  Only when the transaction was started is the request
    with it. *)
Theorem request_message r t dst (e : env) : transports_ok -> Forall attempt_ok (attempts e) -> fits r -> ct r = false ->
  exists err r' e' l, request inet_ntop strerror transpl r t dst e = Some (err, r', e') /\ log e' = log e ++ l /\
    attempts e' = tl (attempts e) /\ ct r' = (stateful r && (err =? 0)) /\ provrecv r' = false /\
    ((l = [] /\ err <> 0 /\ forall a, head (attempts e) = Some a -> ~ can_send transpl a r t dst) \/
     exists a mb la v mb0 mb1, head (attempts e) = Some a /\ l = [Send t dst mb (stateful r) err] /\ err = at_send a /\
       (exists tr, tr ∈ transpl /\ tr_tp tr = t /\ laddr tr = la /\ (sa_af dst = AF_UNSPEC \/ sa_af la = sa_af dst)) /\
       let lines := (met r ++ c_str " " ++ ruri r ++ c_str " SIP/2.0\r\n") ++
         (c_str "Via: SIP/2.0/" ++ sip_transp_name t ++ c_str " " ++ Print.Print.sa_text inet_ntop Print.Print.conv0 la ++
          c_str ";branch=z9hG4bK" ++ Print.Print.x64_text (at_rand a) ++ c_str ";rport\r\n") in
       mb_text mb0 = lines /\ mb_text mb1 = lines ++ v /\
       (if sendh r then at_sendh a t la dst mb0 = (0, mb1) else v = []) /\
       mb_pos mb = 0 /\ mb_text mb = lines ++ v ++ body r).
Proof.
  intros Ht Ha Hf Hct. destruct (rq_request_ok inet_ntop strerror transpl Ht r t dst e Ha Hf) as (err&e'&l&E&_&Hatt&Hl&Hs).
  exists err. eexists _, e', l. split; [exact E|]. split; [done|]. split; [done|].
  split; [destruct (stateful r && (err =? 0)); done|]. split; [by destruct (stateful r && (err =? 0))|].
  destruct Hs as [(mb&la&a&v&->&Hla&Hhd&(mb0&mb1&H0&H1&Hh)&He&(_&Htx&Hpos))|Hun]; [right|by left].
  exists a, mb, la, v, mb0, mb1. split; [done|]. split; [done|]. split; [done|]. split.
  { unfold sip_transp_laddr in Hla. destruct (transp_find _ _ _) as [tr|] eqn:Ef; [|done].
    injection Hla as <-. apply transp_find_some in Ef as (?&?&?). by exists tr. }
  assert (head_text inet_ntop r t la (at_rand a) = (met r ++ c_str " " ++ ruri r ++ c_str " SIP/2.0\r\n") ++
         (c_str "Via: SIP/2.0/" ++ sip_transp_name t ++ c_str " " ++ Print.Print.sa_text inet_ntop Print.Print.conv0 la ++
          c_str ";branch=z9hG4bK" ++ Print.Print.x64_text (at_rand a) ++ c_str ";rport\r\n")) as <-.
  { unfold head_text. by rewrite <- !app_assoc. }
  cbv zeta. split; [apply H0|]. split; [apply H1|]. split; [|done]. destruct (sendh r); [done|]. subst mb1.
  pose proof (Printers.at_end_inj mb0 _ _ H0 H1) as Hv. symmetry in Hv. rewrite <- (app_nil_r (head_text _ _ _ _ _)) in Hv at 2.
  by apply app_inv_head in Hv.
Qed.

(** *** Failing over *)

(** The addresses that the cache [c] has for [target]. *)
Definition cached (c : list (Z * dnsrr)) (busy : list Z) (target : str) : list (Z * dnsrr) :=
  match dns_rrlist_apply2 c target DNS_TYPE_A DNS_TYPE_AAAA DNS_CLASS_IN true
          (Some (rr_append_handler (B := B) busy)) ([], []) with
  | Some (_, (l, _)) => l
  | None => []
  end.

(** The destinations of addresses, and those of a request: its addresses, and then those of
    its services in order, up to the first service without an address in the cache, whose
    target and port come with the services behind it. *)
Definition dsts (port : Z) (l : list (Z * dnsrr)) : list sa := omap (fun x => dst_of sa0 (snd x) port) l.
Fixpoint plan_services (c l : list (Z * dnsrr)) : list sa * option (str * Z * list (Z * dnsrr)) :=
  match l with
  | [] => ([], None)
  | x :: rest =>
      match rr_data (snd x) with
      | SRV _ _ port target =>
          match cached c (map fst l) target with
          | [] => ([], Some (target, port, rest))
          | addrs => (dsts port addrs ++ fst (plan_services c rest), snd (plan_services c rest))
          end
      | _ => ([], None)
      end
  end.
Definition plan (r : sip_request) : list sa * option (str * Z * list (Z * dnsrr)) :=
  (dsts (rport r) (addrl r) ++ fst (plan_services (cachel r) (srvl r)), snd (plan_services (cachel r) (srvl r))).

(** The addresses of [nm] are asked for, those of every family that there is a transport
    for; or a query fails, or there is no family. *)
Definition families (t : Z) : list Z :=
  (if sip_transp_supported transpl t AF_INET then [DNS_TYPE_A] else []) ++
  (if sip_transp_supported transpl t AF_INET6 then [DNS_TYPE_AAAA] else []).
Definition looked_up (t : Z) (nm : str) (err : Z) (qs : list (str * Z * Z)) : Prop :=
  (err = 0 -> families t <> [] /\ qs = map (fun ty => (nm, ty, 0)) (families t)) /\
  (err <> 0 -> (families t = [] /\ qs = []) \/ exists ty, last qs = Some (nm, ty, err)).

(** What trying one destination after the other did: [os] is what came of them, the result
    of sending or [None] if there was nothing to send. *)
Definition tried (r : sip_request) (e : env) (os : list (option Z)) (l : list action) : Prop :=
  (length os <= length (fst (plan r)))%nat /\
  dests l = omap (fun x => pair (fst x) <$> snd x) (zip (fst (plan r)) os) /\
  forall i a d o, attempts e !! i = Some a -> fst (plan r) !! i = Some d -> os !! i = Some o ->
    match o with Some err => err = at_send a | None => ~ can_send transpl a r (tp r) d end.
Definition went (r : sip_request) (os : list (option Z)) (l : list action) (err : Z) (r' : sip_request) : Prop :=
  (err = 0 /\ asked l = [] /\ (exists os', os = os' ++ [Some 0] /\ Forall (fun o => o <> Some 0) os') /\
   plan r' = (drop (length os) (fst (plan r)), snd (plan r))) \/
  (Forall (fun o => o <> Some 0) os /\ length os = length (fst (plan r)) /\ addrl r' = [] /\
   match snd (plan r) with
   | None => srvl r' = [] /\ asked l = [] /\ err <> 0
   | Some (target, port, rest) => srvl r' = rest /\ rport r' = port /\ looked_up (tp r) target err (asked l)
   end).
Definition fails_over (r : sip_request) (e : env) (err : Z) (r' : sip_request) (e' : env) : Prop :=
  exists os l, log e' = log e ++ l /\ attempts e' = drop (length os) (attempts e) /\ tried r e os l /\ went r os l err r'.

Lemma cached_ok c busy target : Z.of_nat (length c) < 2 ^ 31 -> Forall decoded c -> exists x,
  dns_rrlist_apply2 c target DNS_TYPE_A DNS_TYPE_AAAA DNS_CLASS_IN true (Some (rr_append_handler (B := B) busy)) ([], []) =
    Some (x, (cached c busy target, refs (cached c busy target))) /\ Forall is_addr (cached c busy target) /\
  (length (cached c busy target) <= length c)%nat.
Proof.
  intros Hl Hd. destruct (rq_append_ok (B := B) busy [] c target true DNS_TYPE_A DNS_TYPE_AAAA is_addr Hl)
    as (x&new&E&Hnew); [done|done| |].
  - intros y Hy. rewrite Forall_forall in Hd. apply decoded_addr; auto.
  - unfold cached, dns_rrlist_apply2. rewrite E. exists x. cbn [app] in *. split_and!; [done| |].
    + by apply appended_all in Hnew.
    + by apply appended_length in Hnew.
Qed.

Lemma dsts_addr port l : Forall is_addr l -> length (dsts port l) = length l.
Proof.
  unfold dsts. induction 1 as [|x l [[a E]|[a E]] _ IH]; [done|..]; cbn [omap list_omap]; unfold dst_of;
    rewrite E; simpl; by f_equal.
Qed.

Lemma addr_lookup_asked r nm (e : env) : dnsq r = None -> dnsq2 r = None -> exists err r' e' l,
  addr_lookup transpl r nm e = (err, r', e') /\ log e' = log e ++ l /\ attempts e' = attempts e /\
  srvl r' = srvl r /\ addrl r' = addrl r /\ rport r' = rport r /\ dests l = [] /\ looked_up (tp r) nm err (asked l).
Proof.
  intros H1 H2. unfold addr_lookup, looked_up, families, dnsc_query.
  destruct (sip_transp_supported transpl (tp r) AF_INET) eqn:S4.
  - set (q := match queries e with [] => ENOMEM | q :: _ => q end). destruct (Z.eqb_spec q 0) as [Eq|Eq]; cbn [negb tp set_dns].
    + destruct (sip_transp_supported transpl (tp r) AF_INET6) eqn:S6.
      * cbn [queries emit]. set (q2 := match tl (queries e) with [] => ENOMEM | q :: _ => q end).
        destruct (Z.eqb_spec q2 0) as [Eq2|Eq2]; cbn [negb];
          eexists _, _, _, [Query nm DNS_TYPE_A q; Query nm DNS_TYPE_AAAA q2]; cbn; split_and!; try done.
        -- cbn. by rewrite <- app_assoc.
        -- intros _. by rewrite Eq, Eq2.
        -- cbn. by rewrite <- app_assoc.
        -- intros _. right. by eexists.
      * cbn [negb]. eexists _, _, _, [Query nm DNS_TYPE_A q]. cbn. rewrite H2. split_and!; try done. intros _. by rewrite Eq.
    + eexists _, _, _, [Query nm DNS_TYPE_A q]. cbn. split_and!; try done. intros _. right. by eexists.
  - cbn [negb]. destruct (sip_transp_supported transpl (tp r) AF_INET6) eqn:S6.
    + set (q2 := match queries e with [] => ENOMEM | q :: _ => q end).
      destruct (Z.eqb_spec q2 0) as [Eq2|Eq2]; cbn [negb]; eexists _, _, _, [Query nm DNS_TYPE_AAAA q2]; cbn; rewrite ?H1;
        split_and!; try done.
      * intros _. by rewrite Eq2.
      * intros _. right. by eexists.
    + cbn. rewrite H1, H2. eexists _, _, _, []. rewrite app_nil_r. split_and!; try done. intros _. by left.
Qed.

(** A service whose addresses are in the cache: they are the next to try. *)
Lemma service_cached r p rr rest port target pri w : addrl r = [] -> srvl r = (p, rr) :: rest ->
  rr_data rr = SRV pri w port target -> cached (cachel r) (p :: map fst rest) target <> [] ->
  plan (set_lists rest (cached (cachel r) (p :: map fst rest) target) (cachel r) (set_rport port r)) = plan r.
Proof.
  intros Ha Hs Hd Hc. unfold plan. rewrite Ha, Hs. cbn [plan_services snd map fst srvl addrl cachel rport set_lists set_rport].
  rewrite Hd. by destruct (cached (cachel r) (p :: map fst rest) target) eqn:E.
Qed.

Lemma fails_over_later r r1 (e e1 : env) l1 err r' e' : plan r1 = plan r -> tp r1 = tp r -> sendh r1 = sendh r ->
  log e1 = log e ++ l1 -> attempts e1 = attempts e -> dests l1 = [] -> asked l1 = [] ->
  fails_over r1 e1 err r' e' -> fails_over r e err r' e'.
Proof.
  intros Hp Ht Hsh Hl Hatt Hd Hq (os&l&Hl'&Ha'&(Hlen&Hds&Hi)&Hw). exists os, (l1 ++ l).
  split; [by rewrite Hl', Hl, app_assoc|]. split; [by rewrite Ha', Hatt|].
  unfold tried, went, can_send in *. rewrite dests_app, asked_app, Hd, Hq. rewrite Hp, Ht, Hsh, Hatt in *. done.
Qed.

(** A destination that failed is followed by the others. *)
Lemma fails_over_next r r1 (e e1 : env) d o l1 err r' e' : fst (plan r) = d :: fst (plan r1) -> snd (plan r) = snd (plan r1) ->
  tp r1 = tp r -> sendh r1 = sendh r -> log e1 = log e ++ l1 -> attempts e1 = tl (attempts e) ->
  dests l1 = match o with Some x => [(d, x)] | None => [] end -> asked l1 = [] -> o <> Some 0 ->
  (forall a, head (attempts e) = Some a -> match o with Some err => err = at_send a | None => ~ can_send transpl a r (tp r) d end) ->
  fails_over r1 e1 err r' e' -> fails_over r e err r' e'.
Proof.
  intros Hp Hu Ht Hsh Hl Hatt Hd Hq Ho Hh (os&l&Hl'&Ha'&(Hlen&Hds&Hi)&Hw). exists (o :: os), (l1 ++ l).
  split; [by rewrite Hl', Hl, app_assoc|]. split; [rewrite Ha', Hatt; destruct (attempts e); simpl; by rewrite ?drop_nil|]. split.
  - unfold tried. rewrite Hp, dests_app, Hd, Hds. split; [cbn [length]; lia|]. split; [by destruct o|].
    intros [|i] a d' o' Ea Ed Eo; simpl in Ed, Eo.
    + injection Ed as <-. injection Eo as <-. apply Hh. by destruct (attempts e); [|injection Ea as ->].
    + unfold can_send in *. rewrite Ht, Hsh, Hatt in Hi. apply (Hi i); [|done..]. by destruct (attempts e).
  - unfold went in *. rewrite asked_app, Hq, Hp, Hu, Ht in *. destruct Hw as [(He&Hq'&(os'&->&Hos')&Hpl)|(Hos&Hl0&Har&Hrest)].
    + left. split_and!; try done. exists (o :: os'). split; [done|by constructor].
    + right. split_and!; [by constructor|cbn [length]; lia|done|exact Hrest].
Qed.

Lemma failover_address fuel r p rr rest (e : env) : transports_ok -> Forall attempt_ok (attempts e) -> fits r ->
  addrl r = (p, rr) :: rest -> lists_ok r -> ct r = false ->
  (forall r1 e1, Forall attempt_ok (attempts e1) -> fits r1 -> lists_ok r1 -> core r1 = core r -> ct r1 = false ->
    dnsq r1 = dnsq r -> dnsq2 r1 = dnsq2 r -> (next_measure r1 < next_measure r)%nat ->
    exists err r' e', request_next inet_ntop strerror transpl sa0 fuel r1 e1 = Some (err, r', e') /\ fails_over r1 e1 err r' e') ->
  exists err r' e', request_next inet_ntop strerror transpl sa0 (S fuel) r e = Some (err, r', e') /\ fails_over r e err r' e'.
Proof.
  intros Ht Ha Hf Ea (Hsrv&Haddr&Hcd&Hcl) Hct IH. cbn [request_next]. rewrite Ea in *.
  apply Forall_cons in Haddr as [Hx Hrest].
  assert (exists dst, dst_of sa0 rr (rport r) = Some dst) as (dst&Ed).
  { unfold dst_of. destruct Hx as [[a E]|[a E]]; cbn [snd] in E; rewrite E; by eexists. }
  rewrite Ed. set (r0 := set_lists (srvl r) rest (cachel r) r).
  destruct (rq_request_ok inet_ntop strerror transpl Ht r0 (tp r0) dst (emit [Deref p] e)) as (err&e1&l&->&_&Hatt&Hl&Hsent); [done|done|].
  cbn [mbind option_bind]. change (attempts (emit [Deref p] e)) with (attempts e) in Hatt.
  set (r1 := if stateful r0 && (err =? 0) then _ else _). assert (core r1 = core r /\ addrl r1 = rest /\ srvl r1 = srvl r /\ cachel r1 = cachel r /\ rport r1 = rport r /\ fits r1 /\
    dnsq r1 = dnsq r /\ dnsq2 r1 = dnsq2 r /\ (err <> 0 -> ct r1 = false)) as (Ec&E1&E2&E3&E4&Hf1&Eq1&Eq2&Hct1).
  { unfold r1. destruct (Z.eqb_spec err 0) as [->|]; destruct (stateful r0); cbn [andb]; split_and!; done. }
  assert (log e1 = log e ++ Deref p :: l) as Hl1 by (rewrite Hl; cbn; by rewrite <- app_assoc).
  assert (fst (plan r) = dst :: fst (plan r1) /\ snd (plan r) = snd (plan r1)) as [Hp Hu].
  { unfold plan. rewrite E1, E2, E3, E4, Ea. cbn [fst snd dsts omap list_omap]. by rewrite Ed. }
  assert (exists o, dests (Deref p :: l) = match o with Some x => [(dst, x)] | None => [] end /\ asked (Deref p :: l) = [] /\
    o = (if err =? 0 then Some 0 else o) /\ (err <> 0 -> o <> Some 0) /\
    forall a, head (attempts e) = Some a -> match o with Some err => err = at_send a | None => ~ can_send transpl a r (tp r) dst end)
    as (o&Hd&Hq&Ho&Ho'&Hh).
  { destruct Hsent as [(mb&la&a&v&->&_&Hhd&_&He&_)|(->&He&Hun)].
    - exists (Some err). cbn. split_and!; try done; [by destruct (Z.eqb_spec err 0) as [->|]|congruence|].
      intros a' Ha'. cbn in Hhd. congruence.
    - exists None. cbn. by destruct (Z.eqb_spec err 0). }
  destruct (Z.eqb_spec err 0) as [->|Herr]; cbn [negb].
  - subst o. exists 0, r1, e1. split; [done|]. exists [Some 0], (Deref p :: l). split; [done|].
    split; [rewrite Hatt; by destruct (attempts e)|]. unfold tried, went. rewrite Hp, Hu. split.
    + split; [simpl; lia|]. split; [rewrite Hd; generalize (fst (plan r1)); by intros []|]. intros [|i] a d o Ea' Ed' Eo; [|done].
      injection Ed' as <-. injection Eo as <-. apply Hh. by destruct (attempts e); [|injection Ea' as ->].
    + left. split_and!; try done; by exists [].
  - assert (fails_over r1 e1 err r1 e1 -> fails_over r e err r1 e1) as Hback.
    { apply (fails_over_next r r1 e e1 dst o (Deref p :: l)); try done; [exact (f_equal tp Ec)|exact (f_equal sendh Ec)|by auto]. }
    assert (rest <> [] \/ srvl r <> [] -> exists err r' e', request_next inet_ntop strerror transpl sa0 fuel r1 e1 = Some (err, r', e') /\
      fails_over r e err r' e') as Hgo.
    { intros Hne. destruct (IH r1 e1) as (err'&r'&e'&E&Hfo); try done.
      - rewrite Hatt. destruct (attempts e); [constructor|by apply Forall_cons in Ha as [_ ?]].
      - unfold lists_ok. by rewrite E1, E2, E3.
      - by apply Hct1.
      - unfold next_measure. rewrite E1, E2, E3, Ea. simpl. lia.
      - exists err', r', e'. split; [done|].
        apply (fails_over_next r r1 e e1 dst o (Deref p :: l)); try done; [exact (f_equal tp Ec)|exact (f_equal sendh Ec)|by auto]. }
    rewrite E1, E2. destruct rest as [|y rest]; [destruct (srvl r) as [|y srv]|]; try (apply Hgo; by auto).
    exists err, r1, e1. split; [done|]. apply Hback. exists [], []. rewrite app_nil_r, drop_0.
    unfold tried, went, plan. rewrite E1, E2. cbn. split_and!; try done. right. by split_and!.
Qed.

Lemma failover_service fuel r p rr rest (e : env) : Forall attempt_ok (attempts e) -> fits r ->
  addrl r = [] -> srvl r = (p, rr) :: rest -> lists_ok r -> idle r ->
  (forall r1 e1, Forall attempt_ok (attempts e1) -> fits r1 -> lists_ok r1 -> idle r1 -> (next_measure r1 < next_measure r)%nat ->
    exists err r' e', request_next inet_ntop strerror transpl sa0 fuel r1 e1 = Some (err, r', e') /\ fails_over r1 e1 err r' e') ->
  exists err r' e', request_next inet_ntop strerror transpl sa0 (S fuel) r e = Some (err, r', e') /\ fails_over r e err r' e'.
Proof.
  intros Ha Hf Ea Es (Hsrv&Haddr&Hcd&Hcl) (Hct&Hq1&Hq2) IH. cbn [request_next]. rewrite Ea, Es in *.
  apply Forall_cons in Hsrv as [(pri&w&port&target&Ed) Hrest]. cbn [snd] in Ed. rewrite Ed.
  unfold append_addr. cbn [cachel set_rport addrl srvl]. rewrite Ea, Es. cbn [map fst].
  destruct (cached_ok (cachel r) (p :: map fst rest) target Hcl Hcd) as (x&->&Hnew&Hlen). cbn [mbind option_bind].
  pose proof (service_cached r p rr rest port target pri w Ea Es Ed) as Hplan.
  assert (snd (plan r) = snd (plan_services (cachel r) ((p, rr) :: rest)) /\
    fst (plan r) = fst (plan_services (cachel r) ((p, rr) :: rest))) as [Hu Hp] by (unfold plan; by rewrite Ea, Es).
  cbn [plan_services snd map fst] in Hu, Hp. rewrite Ed in Hu, Hp. cbn [addrl srvl cachel set_lists set_rport].
  destruct (cached (cachel r) (p :: map fst rest) target) as [|y new] eqn:Ec; cbn [refs map app].
  - destruct (addr_lookup_asked (set_lists rest [] (cachel r) (set_lists ((p, rr) :: rest) [] (cachel r) (set_rport port r))) target
      (emit [] e) Hq1 Hq2) as (err&r2&e2&l&->&Hl&Hat&E1&E2&E3&Hd&Hlook).
    cbn in Hl, E1, E2, E3. rewrite app_nil_r in Hl.
    eexists err, r2, _. split; [reflexivity|]. exists [], (l ++ [Deref p]). cbn [log attempts emit].
    rewrite drop_0, app_assoc, Hl. split; [done|]. split; [done|]. unfold tried, went. rewrite Hp, Hu, dests_app, asked_app, Hd.
    cbn [app]. split; [by split_and!; [..|intros []]|]. right. rewrite E2. change (asked [Deref p]) with (@nil (str * Z * Z)).
    rewrite app_nil_r. by split_and!.
  - set (r1 := set_lists rest (y :: new) _ _). destruct (IH r1 (emit [Deref p] (emit (refs (y :: new)) e)))
      as (err&r'&e'&E&Hfo); [done|done| |done| |].
    + by split_and!.
    + unfold next_measure. cbn. rewrite Ea, Es. simpl in *. lia.
    + exists err, r', e'. split; [exact E|].
      apply (fails_over_later r r1 e _ (refs (y :: new) ++ [Deref p])) in Hfo; try done; [by apply Hplan|..].
      * cbn. by rewrite <- app_assoc.
      * by rewrite dests_app, refs_dests.
      * by rewrite asked_app, refs_asked.
Qed.

(** C17: failing over.  The destinations of a request are its addresses, and then those that
    the cache has for its services, in their order, up to the first service it has none
    for.  They are tried one after the other, each once, with an attempt of its own, until
    one is sent without an error: then those behind it are left, the same as before; one
    that is not sent at all could not be.  If all fail, the addresses of the service
    without any are asked for and those behind it are left; and if there is no such
    service there is an error and nothing is left. *)
Theorem request_failover r (e : env) : transports_ok -> Forall attempt_ok (attempts e) -> fits r -> lists_ok r -> idle r ->
  exists err r' e', next inet_ntop strerror transpl sa0 r e = Some (err, r', e') /\
  exists os l, log e' = log e ++ l /\ attempts e' = drop (length os) (attempts e) /\
    (length os <= length (fst (plan r)))%nat /\
    dests l = omap (fun x => pair (fst x) <$> snd x) (zip (fst (plan r)) os) /\
    (forall i a d o, attempts e !! i = Some a -> fst (plan r) !! i = Some d -> os !! i = Some o ->
       match o with Some err => err = at_send a | None => ~ can_send transpl a r (tp r) d end) /\
    ((err = 0 /\ asked l = [] /\ (exists os', os = os' ++ [Some 0] /\ Forall (fun o => o <> Some 0) os') /\
      plan r' = (drop (length os) (fst (plan r)), snd (plan r))) \/
     (Forall (fun o => o <> Some 0) os /\ length os = length (fst (plan r)) /\ addrl r' = [] /\
      match snd (plan r) with
      | None => srvl r' = [] /\ asked l = [] /\ err <> 0
      | Some (target, port, rest) => srvl r' = rest /\ rport r' = port /\ looked_up (tp r) target err (asked l)
      end)).
Proof.
  intros Ht Ha Hf Hok Hid. assert (exists err r' e', next inet_ntop strerror transpl sa0 r e = Some (err, r', e') /\
    fails_over r e err r' e') as (err&r'&e'&E&(os&l&?&?&(?&?&?)&?)).
  { unfold next. assert (next_measure r < next_fuel r)%nat as Hfuel by (unfold next_fuel, next_measure; lia).
    revert Hfuel. generalize (next_fuel r) as fuel. intros fuel. revert r e Ha Hf Hok Hid.
    induction fuel as [|fuel IH]; intros r e Ha Hf Hok Hid Hfuel; [lia|].
    destruct (addrl r) as [|[p rr] rest] eqn:Ea; [destruct (srvl r) as [|[p rr] rest] eqn:Es|].
    - exists ENOENT, r, e. cbn [request_next]. rewrite Ea, Es. split; [done|]. exists [], [].
      unfold tried, went, plan. rewrite app_nil_r, drop_0, Ea, Es. cbn. split_and!; try done. right. by split_and!.
    - apply (failover_service fuel r p rr rest e); try done. intros r1 e1 ????. intros. apply IH; try done. lia.
    - apply (failover_address fuel r p rr rest e); try done; [by destruct Hid|].
      intros r1 e1 ???? Hct1 Hq1 Hq2 Hm. destruct Hid as (_&?&?). apply IH; try done; [split_and!; congruence|lia]. }
  exists err, r', e'. split; [done|]. exists os, l. by split_and!.
Qed.

End Properties.
(** ** Concrete requests *)

#[local] Existing Instances text_buffer text_laws.
Abbreviation TB := (Z * list Z)%type.
Definition exr_pton (af : Z) (l : list Z) : option (list Z) := None.
Definition exr_ntop (af : Z) (l : list Z) : list Z := c_str "10.0.0.1".
Definition exr_str (err : Z) : list Z := [].
Definition exr_transpl : list sip_transport :=
  [mk_transport SIP_TRANSP_UDP (sa_set_in (sa_init AF_INET) 167772161 5060) 1 false].
Definition exr_sa0 : sa := sa_init 0.

Definition exr_attempt (err : Z) : attempt TB := mk_attempt 1 (Some (0, [])) 7 (fun _ _ _ mb => (0, mb)) err.

Lemma exr_attempt_ok err : attempt_ok (exr_attempt err).
Proof.
  split.
  - intros mb [= <-]. by split_and!.
  - intros t la dst mb w Hw. exists []. rewrite app_nil_r. by split.
Qed.
Lemma exr_attempts_ok errs : Forall attempt_ok (map exr_attempt errs).
Proof. apply Forall_map, Forall_true. intros. apply exr_attempt_ok. Qed.

Lemma exr_transports : transports_ok exr_ntop exr_transpl.
Proof. apply Forall_singleton. apply Z.leb_le. vm_compute. reflexivity. Qed.

Abbreviation exr_start st m := (sip_request_ exr_pton exr_ntop exr_str exr_transpl exr_sa0 (fun k => 1 + Z.of_nat k) true st
  (c_str m) (c_str "sip:a.org") (Uri.Uri.mk_uri (mk_pl 10 (c_str "sip")) pl_null pl_null (mk_pl 20 (c_str "a.org")) 0 0
    (mk_pl 30 (c_str ";transport=udp")) pl_null) (c_str "CSeq: 1 INVITE" ++ [13; 10; 13; 10]) true true).
Abbreviation exr_handle := (handle exr_ntop exr_str exr_transpl exr_sa0).
Abbreviation exr_reach st := (reach exr_pton exr_ntop exr_str exr_transpl exr_sa0 st true true).

(** Two services with an address each, in the wrong order. *)
Definition exr_srv (p pri : Z) (target : string) : Z * dnsrr :=
  (p, mk_dnsrr (Some (c_str "_sip._udp.a.org")) 1 60 20 (SRV pri 1 5070 (Some (c_str target)))).
Definition exr_a (p addr : Z) (name : string) : Z * dnsrr := (p, mk_dnsrr (Some (c_str name)) 1 60 4 (A addr)).
Definition exr_ansl : list (Z * dnsrr) := [exr_srv 101 20 "x.org"; exr_srv 102 10 "y.org"].
Definition exr_addl : list (Z * dnsrr) := [exr_a 103 16909060 "x.org"; exr_a 104 84281096 "y.org"].

Lemma exr_records : records_ok exr_ansl /\ records_ok exr_addl.
Proof. split; (split_and!; [by repeat constructor|apply NoDup_cons; split; [set_solver|apply NoDup_singleton]|done]). Qed.

Definition exr_get (x : option (Z * option sip_request * env TB)) : sip_request * list (action TB) :=
  match x with Some (_, Some r, e) => (r, log e) | _ => (mk_request false false false false false false false 0 false 0 [] [] [] [] [] [] [] false None None, []) end.
Definition exr_next (x : option (option sip_request * env TB)) : sip_request * list (action TB) :=
  match x with Some (o, e) => exr_get (Some (0, o, e)) | _ => exr_get None end.
Definition exr_log (x : option (option sip_request * env TB)) : list (action TB) := match x with Some (_, e) => log e | _ => [] end.

(** An INVITE: the better service answers 503, the other one rings and answers. *)
Definition exr_s1 := Eval vm_compute in exr_get (exr_start true "INVITE" (mk_env [] [0] [])).
Definition exr_s2 := Eval vm_compute in exr_next (exr_handle (fst exr_s1) (Answer false 0 exr_ansl exr_addl)
  (mk_env (map exr_attempt [0]) [] (snd exr_s1))).
Definition exr_s3 := Eval vm_compute in exr_next (exr_handle (fst exr_s2) (Response 0 (Some 503)) (mk_env (map exr_attempt [0]) [] (snd exr_s2))).
Definition exr_s4 := Eval vm_compute in exr_next (exr_handle (fst exr_s3) (Response 0 (Some 180)) (mk_env [] [] (snd exr_s3))).
Definition exr_l5 := Eval vm_compute in exr_log (exr_handle (fst exr_s4) (Response 0 (Some 200)) (mk_env [] [] (snd exr_s4))).

(** The destinations by their port and address, and what the user hears. *)
Example exr_tried : map (fun x => (sa_in (fst x), sa_port (fst x))) (dests exr_l5) = [(84281096, 5070); (16909060, 5070)] /\
  resps exr_l5 = [(0, Some 180); (0, Some 200)].
Proof. vm_compute. by split. Qed.

Lemma exr_reach1 : exr_reach true false (Some (fst exr_s1)) (snd exr_s1).
Proof.
  apply (reach_start exr_pton exr_ntop exr_str exr_transpl exr_sa0 true true true (fun k => 1 + Z.of_nat k) (c_str "INVITE") (c_str "sip:a.org")
    (Uri.Uri.mk_uri (mk_pl 10 (c_str "sip")) pl_null pl_null (mk_pl 20 (c_str "a.org")) 0 0 (mk_pl 30 (c_str ";transport=udp")) pl_null)
    (c_str "CSeq: 1 INVITE" ++ [13; 10; 13; 10]) true [] [0] (fst exr_s1) (mk_env [] [] (snd exr_s1)));
    [constructor|done|done|done|vm_compute; reflexivity].
Qed.

Lemma exr_step gu r l ev errs o l' : exr_reach true gu (Some r) l -> enabled r ev ->
  exr_handle r ev (mk_env (map exr_attempt errs) [] l) = Some (o, mk_env [] [] l') ->
  exr_reach true (gu || gives_up ev) o l'.
Proof. intros Hr Hen E. apply (reach_step _ _ _ _ _ _ _ _ _ _ _ _ _ _ _ _ Hr Hen (exr_attempts_ok errs) E). Qed.

Lemma exr_reach5 : exr_reach true false None exr_l5.
Proof.
  apply (exr_step false (fst exr_s4) (snd exr_s4) (Response 0 (Some 200)) []); [|by split|vm_compute; reflexivity].
  apply (exr_step false (fst exr_s3) (snd exr_s3) (Response 0 (Some 180)) []); [|by split|vm_compute; reflexivity].
  apply (exr_step false (fst exr_s2) (snd exr_s2) (Response 0 (Some 503)) [0]); [|by split|vm_compute; reflexivity].
  apply (exr_step false (fst exr_s1) (snd exr_s1) (Answer false 0 exr_ansl exr_addl) [0]);
    [apply exr_reach1|split; [done|apply exr_records]|vm_compute; reflexivity].
Qed.

Lemma request_lifecycle_witness : exists l', exr_l5 = l' ++ [Free] /\ Unset ∈ l'.
Proof.
  destruct (request_lifecycle exr_pton exr_ntop exr_str exr_transpl exr_sa0 true true true false None exr_l5 exr_transports exr_reach5)
    as (l'&E&_&_&Hu&_).
  exists l'. split; [exact E|]. by apply Hu.
Defined.

Lemma request_ends_witness : exists ev, enabled (fst exr_s1) ev /\ completes ev.
Proof.
  apply (request_ends exr_pton exr_ntop exr_str exr_transpl exr_sa0 true true true false (fst exr_s1) (snd exr_s1) exr_transports exr_reach1).
Defined.

(** A request as [request] sends it, and with addresses to fail over. *)
Definition exr_r : sip_request := set_lists [] [exr_a 103 16909060 "x.org"; exr_a 104 84281096 "y.org"] []
  (set_rport 5070 (set_dns None None (fst exr_s1))).

Lemma exr_fits : fits exr_r.
Proof. by split_and!. Qed.

Definition exr_dst : sa := sa_set_in exr_sa0 16909060 5070.
Lemma request_message_witness : exists err r' e' l, request exr_ntop exr_str exr_transpl exr_r 0 exr_dst
    (mk_env (map exr_attempt [0]) [] []) = Some (err, r', e') /\ log e' = [] ++ l /\ ct r' = (true && (err =? 0)).
Proof.
  destruct (request_message exr_ntop exr_str exr_transpl exr_r 0 exr_dst (mk_env (map exr_attempt [0]) [] []) exr_transports
    (exr_attempts_ok [0]) exr_fits) as (err&r'&e'&l&E&El&_&Ec&_); [reflexivity|].
  exists err, r', e', l. split; [exact E|]. split; [exact El|exact Ec].
Defined.

(** With services behind the addresses, one of which is in the cache. *)
Definition exr_r2 : sip_request := set_lists [exr_srv 101 20 "x.org"; exr_srv 102 10 "z.org"]
  [exr_a 104 84281096 "y.org"] [exr_a 103 16909060 "x.org"] (set_rport 5080 (set_dns None None (fst exr_s1))).

Example exr_plan : (fun '(l, u) => (map (fun x => (sa_in x, sa_port x)) l, u)) (plan (B := TB) exr_sa0 exr_r2) =
  ([(84281096, 5080); (16909060, 5070)], Some (Some (c_str "z.org"), 5070, [])).
Proof. vm_compute. reflexivity. Qed.

Lemma exr_lists : lists_ok exr_r2 /\ idle exr_r2.
Proof.
  split; [|by split_and!]. split_and!; [repeat apply Forall_cons_2; try constructor; by eexists _, _, _, _| |by repeat constructor|done].
  apply Forall_singleton. left. by eexists.
Qed.

Lemma request_failover_witness : exists err r' e', next exr_ntop exr_str exr_transpl exr_sa0 exr_r2
    (mk_env (map exr_attempt [110; 0]) [] []) = Some (err, r', e') /\
  exists (os : list (option Z)) l, log e' = [] ++ l /\ attempts e' = drop (length os) (map exr_attempt [110; 0]).
Proof.
  destruct (request_failover exr_ntop exr_str exr_transpl exr_sa0 exr_r2 (mk_env (map exr_attempt [110; 0]) [] []) exr_transports
    (exr_attempts_ok [110; 0]) exr_fits (proj1 exr_lists) (proj2 exr_lists)) as (err&r'&e'&E&os&l&El&Ea&_).
  exists err, r', e'. split; [exact E|]. exists os, l. split; [exact El|exact Ea].
Defined.

(** ** Two surprises *)

(** A request without a transaction, such as an ACK, whose service has no address in the
    answer: the address is looked up, but the request is freed before it is known, and
    never sent. *)
Example ack_lost :
  let s := exr_get (exr_start false "ACK" (mk_env [] [0] [])) in
  exr_log (exr_handle (fst s) (Answer false 0 exr_ansl []) (mk_env (map exr_attempt [0]) [0] (snd s))) =
    [Query (Some (c_str "_sip._udp.a.org")) DNS_TYPE_SRV 0; Ref 102; Ref 101;
     Query (Some (c_str "y.org")) DNS_TYPE_A 0; Deref 102; Unset; Deref 101; Free].
Proof. vm_compute. reflexivity. Qed.

(** A user who gives up while the service is looked up: the request is sent all the same,
    without what the send handler would add, and canceled when it is answered. *)
Example given_up_is_sent :
  let s2 := exr_next (exr_handle (fst exr_s1) GiveUp (mk_env [] [] (snd exr_s1))) in
  let s3 := exr_next (exr_handle (fst s2) (Answer false 0 exr_ansl exr_addl) (mk_env (map exr_attempt [0]) [] (snd s2))) in
  let s4 := exr_next (exr_handle (fst s3) (Response 0 (Some 180)) (mk_env [] [] (snd s3))) in
  sendh (fst s2) = false /\ length (dests (snd s2)) = 0%nat /\ length (dests (snd s3)) = 1%nat /\
  drop (length (snd s3)) (snd s4) = [CtransCancel].
Proof. vm_compute. by split_and!. Qed.

End SipRequestEnd.
