(* ===== verification/Sipsess.v ===== *)
(** * SIP sessions: src/libre/src/sipsess/

    One session ([struct sipsess]) with its reference count: sess.c, connect.c,
    accept.c, reply.c, ack.c, close.c, modify.c, request.c, info.c and the handlers of
    listen.c once the session is found.  Every handler is a function of the state, the
    message and the results of what it calls ([env]); it gives what the memory block is
    afterwards and the actions in their order.  [None] is undefined behaviour: the use
    of a freed session, the release of one that requests still point to, or a read through
    a null or an uninitialised pointer.

    The texts of the messages, the dialog (src/libre/src/sip/dialog.c, of which only
    whether the remote tag is known is kept), the close and the extra header fields and
    the ACKs kept for retransmission are not modelled here. *)
From S2P Require Import Prelude Ctrans Sipreg.

Module Sipsess.

Abbreviation SIP_T1 := Ctrans.SIP_T1.
Abbreviation SIP_T2 := Ctrans.SIP_T2.
Abbreviation loopstate := Sipreg.loopstate.
Abbreviation EAUTH := Sipreg.EAUTH.

Definition ENOSYS : Z := 38.
Definition ENOTCONN : Z := 107.

(** ** The session *)

(** The request that [sess->req] points to, by its response handler. *)
Inductive kind := Invite | ReInvite | Bye.
#[export] Instance kind_eq_dec : EqDecision kind.
Proof. solve_decision. Defined.

(** [struct sipsess_reply]; a timer is its expiry. *)
Record reply := mk_reply {
  r_seq : Z;
  r_awaiting : bool;
  r_txc : Z;
  r_tmr : Z;
  r_tmrg : Z }.

(** [struct sipsess].  [app]: the application has not given up the reference that
    [sipsess_connect] or [sipsess_accept] returned; [dlg]: the dialog has a remote tag;
    [uh]: the offer, answer, progress, establish and close handlers are still those of
    the application; [msg]: the CSeq number of the INVITE and whether it has a body;
    [requestl]: the loop states of the INFO requests; pointers to other objects are
    whether they are set. *)
Record sipsess := mk_sess {
  nrefs : Z;
  app : bool;
  terminated : Z;
  established : bool;
  peerterm : bool;
  owner : bool;
  dlg : bool;
  sent_offer : bool;
  awaiting_answer : bool;
  modify_pending : bool;
  uh : bool;
  infoh : bool;
  referh : bool;
  st : bool;
  msg : option (Z * bool);
  req : option kind;
  replyl : list reply;
  requestl : list loopstate;
  desc : bool;
  tmr : option Z;
  ls : loopstate }.

Definition set_nrefs (s : sipsess) x := mk_sess x (app s) (terminated s) (established s) (peerterm
  s) (owner s) (dlg s) (sent_offer s) (awaiting_answer s) (modify_pending s) (uh s) (infoh s)
  (referh s) (st s) (msg s) (req s) (replyl s) (requestl s) (desc s) (tmr s) (ls s).
Definition set_app (s : sipsess) x := mk_sess (nrefs s) x (terminated s) (established s) (peerterm
  s) (owner s) (dlg s) (sent_offer s) (awaiting_answer s) (modify_pending s) (uh s) (infoh s)
  (referh s) (st s) (msg s) (req s) (replyl s) (requestl s) (desc s) (tmr s) (ls s).
Definition set_terminated (s : sipsess) x := mk_sess (nrefs s) (app s) x (established s) (peerterm
  s) (owner s) (dlg s) (sent_offer s) (awaiting_answer s) (modify_pending s) (uh s) (infoh s)
  (referh s) (st s) (msg s) (req s) (replyl s) (requestl s) (desc s) (tmr s) (ls s).
Definition set_established (s : sipsess) x := mk_sess (nrefs s) (app s) (terminated s) x (peerterm
  s) (owner s) (dlg s) (sent_offer s) (awaiting_answer s) (modify_pending s) (uh s) (infoh s)
  (referh s) (st s) (msg s) (req s) (replyl s) (requestl s) (desc s) (tmr s) (ls s).
Definition set_peerterm (s : sipsess) x := mk_sess (nrefs s) (app s) (terminated s) (established s)
  x (owner s) (dlg s) (sent_offer s) (awaiting_answer s) (modify_pending s) (uh s) (infoh s) (referh
  s) (st s) (msg s) (req s) (replyl s) (requestl s) (desc s) (tmr s) (ls s).
Definition set_dlg (s : sipsess) x := mk_sess (nrefs s) (app s) (terminated s) (established s)
  (peerterm s) (owner s) x (sent_offer s) (awaiting_answer s) (modify_pending s) (uh s) (infoh s)
  (referh s) (st s) (msg s) (req s) (replyl s) (requestl s) (desc s) (tmr s) (ls s).
Definition set_sent_offer (s : sipsess) x := mk_sess (nrefs s) (app s) (terminated s) (established
  s) (peerterm s) (owner s) (dlg s) x (awaiting_answer s) (modify_pending s) (uh s) (infoh s)
  (referh s) (st s) (msg s) (req s) (replyl s) (requestl s) (desc s) (tmr s) (ls s).
Definition set_awaiting_answer (s : sipsess) x := mk_sess (nrefs s) (app s) (terminated s)
  (established s) (peerterm s) (owner s) (dlg s) (sent_offer s) x (modify_pending s) (uh s) (infoh
  s) (referh s) (st s) (msg s) (req s) (replyl s) (requestl s) (desc s) (tmr s) (ls s).
Definition set_modify_pending (s : sipsess) x := mk_sess (nrefs s) (app s) (terminated s)
  (established s) (peerterm s) (owner s) (dlg s) (sent_offer s) (awaiting_answer s) x (uh s) (infoh
  s) (referh s) (st s) (msg s) (req s) (replyl s) (requestl s) (desc s) (tmr s) (ls s).
Definition set_st (s : sipsess) x := mk_sess (nrefs s) (app s) (terminated s) (established s)
  (peerterm s) (owner s) (dlg s) (sent_offer s) (awaiting_answer s) (modify_pending s) (uh s) (infoh
  s) (referh s) x (msg s) (req s) (replyl s) (requestl s) (desc s) (tmr s) (ls s).
Definition set_msg (s : sipsess) x := mk_sess (nrefs s) (app s) (terminated s) (established s)
  (peerterm s) (owner s) (dlg s) (sent_offer s) (awaiting_answer s) (modify_pending s) (uh s) (infoh
  s) (referh s) (st s) x (req s) (replyl s) (requestl s) (desc s) (tmr s) (ls s).
Definition set_req (s : sipsess) x := mk_sess (nrefs s) (app s) (terminated s) (established s)
  (peerterm s) (owner s) (dlg s) (sent_offer s) (awaiting_answer s) (modify_pending s) (uh s) (infoh
  s) (referh s) (st s) (msg s) x (replyl s) (requestl s) (desc s) (tmr s) (ls s).
Definition set_replyl (s : sipsess) x := mk_sess (nrefs s) (app s) (terminated s) (established s)
  (peerterm s) (owner s) (dlg s) (sent_offer s) (awaiting_answer s) (modify_pending s) (uh s) (infoh
  s) (referh s) (st s) (msg s) (req s) x (requestl s) (desc s) (tmr s) (ls s).
Definition set_requestl (s : sipsess) x := mk_sess (nrefs s) (app s) (terminated s) (established s)
  (peerterm s) (owner s) (dlg s) (sent_offer s) (awaiting_answer s) (modify_pending s) (uh s) (infoh
  s) (referh s) (st s) (msg s) (req s) (replyl s) x (desc s) (tmr s) (ls s).
Definition set_desc (s : sipsess) x := mk_sess (nrefs s) (app s) (terminated s) (established s)
  (peerterm s) (owner s) (dlg s) (sent_offer s) (awaiting_answer s) (modify_pending s) (uh s) (infoh
  s) (referh s) (st s) (msg s) (req s) (replyl s) (requestl s) x (tmr s) (ls s).
Definition set_tmr (s : sipsess) x := mk_sess (nrefs s) (app s) (terminated s) (established s)
  (peerterm s) (owner s) (dlg s) (sent_offer s) (awaiting_answer s) (modify_pending s) (uh s) (infoh
  s) (referh s) (st s) (msg s) (req s) (replyl s) (requestl s) (desc s) x (ls s).
Definition set_ls (s : sipsess) x := mk_sess (nrefs s) (app s) (terminated s) (established s)
  (peerterm s) (owner s) (dlg s) (sent_offer s) (awaiting_answer s) (modify_pending s) (uh s) (infoh
  s) (referh s) (st s) (msg s) (req s) (replyl s) (requestl s) (desc s) (tmr s) x.
Definition drop_handlers (s : sipsess) := mk_sess (nrefs s) (app s) (terminated s) (established s)
  (peerterm s) (owner s) (dlg s) (sent_offer s) (awaiting_answer s) (modify_pending s) false false
  false (st s) (msg s) (req s) (replyl s) (requestl s) (desc s) (tmr s) (ls s).

(** The block afterwards: [Freed s] holds what it was when it was released. *)
Inductive obj := Live (s : sipsess) | Freed (s : sipsess).

Inductive handler :=
| Offerh | Answerh | Progrh | Estabh | Infoh | Referh | Resph (err : Z) | Closeh (err : Z).

Inductive act :=
| Send (k : kind) (offer : bool) (err : Z)   (** [sip_drequestf] was called and returned [err] *)
| Info (err : Z)
| Cancel                                     (** [sip_request_cancel(sess->req)] *)
| Reply (scode : Z)                          (** a response was handed to the transaction or transport *)
| Resend (seq : Z)
| Ack (cseq : Z) (body : bool)
| Call (h : handler).

(** The description that the offer handler gives is stored through a pointer, which it may
    leave untouched. *)
Inductive given := Untouched | NoDesc | Desc.
Definition is_desc (d : given) : bool := match d with Desc => true | _ => false end.

(** What the calls of a handler return: [h_err] and [h_desc] are the result of the offer
    or answer handler and the description it gave, [h_drop] whether it gave up the
    application's reference; [c_drop] is the same for the close handler and for the
    handler of an INFO response.  The other handlers are called last, so that what they
    do is an event of its own. *)
Record env := mk_env {
  send_err : Z;
  bye_err : Z;
  reply_err : Z;
  reply_mem : bool;
  ack_err : Z;
  auth_err : Z;
  create_err : Z;
  update_err : Z;
  h_err : Z;
  h_desc : given;
  h_drop : bool;
  c_drop : bool }.

Definition nonempty {A} (l : list A) : bool := match l with [] => false | _ => true end.
Definition isset {A} (o : option A) : bool := match o with None => false | Some _ => true end.

Definition res : Type := option (obj * list act).
Definition emit (a : list act) (m : res) : res := '(o, b) ← m; Some (o, a ++ b).

(** The code goes on to use the session. *)
Definition andthen (m : res) (k : sipsess -> res) : res :=
  '(o, a) ← m; match o with Live s => emit a (k s) | Freed _ => None end.

Definition mem_ref (s : sipsess) : sipsess := set_nrefs s (u32 (nrefs s + 1)).

(** ** Termination: sess.c, close.c *)

(** [sip_treply] and [sip_treplyf] with [&sess->st]: a final response and a failure clear
    the pointer. *)
Definition treply (s : sipsess) (scode err : Z) : Z * sipsess * list act :=
  if negb (isset (msg s)) then (EINVAL, s, [])
  else if negb (err =? 0) then (err, set_st s false, [Reply scode])
  else (0, set_st s (scode <? 200), [Reply scode]).

Definition wait_if (b : bool) (x : bool * sipsess) : bool * sipsess :=
  if b then (true, mem_ref (snd x)) else x.

Definition termwait (s : sipsess) (e : env) : bool * sipsess * list act :=
  let s := set_tmr (drop_handlers (set_terminated s 1)) None in
  let '(_, s, a) := if st s then treply s 486 (reply_err e) else (0, s, []) in
  let '(w, s1) := wait_if (isset (req s)) (false, s) in
  let '(w, s1) := wait_if (nonempty (replyl s)) (w, s1) in
  let '(w, s1) := wait_if (nonempty (requestl s)) (w, s1) in
  (w, s1, a ++ if isset (req s) then [Cancel] else []).

Definition sipsess_bye (s : sipsess) (reset_ls : bool) (e : env) : Z * sipsess * list act :=
  if isset (req s) then (EPROTO, s, [])
  else
    let s := if reset_ls then set_ls s Sipreg.sip_loopstate_reset else s in
    let err := bye_err e in
    (err, if err =? 0 then set_req s (Some Bye) else s, [Send Bye false err]).

Definition terminate (s : sipsess) (e : env) : bool * sipsess * list act :=
  let s := set_terminated s 2 in
  if negb (established s) || peerterm s then (false, s, [])
  else
    let '(err, s, a) := sipsess_bye s true e in
    if negb (err =? 0) then (false, s, a) else (true, mem_ref s, a).

(** The end of the destructor; [list_flush(&sess->requestl)] releases requests that
    point back to the session. *)
Definition release (s : sipsess) : res :=
  if nonempty (requestl s) then None else Some (Freed s, []).

Definition destructor (s : sipsess) (e : env) : res :=
  let case1 (s : sipsess) : res :=
    let '(w, s, a) := terminate s e in
    emit a (if w then Some (Live s, []) else release s) in
  if terminated s =? 0 then
    let '(w, s, a) := termwait s e in
    emit a (if w then Some (Live s, []) else case1 s)
  else if terminated s =? 1 then case1 s
  else release s.

Definition mem_deref (s : sipsess) (e : env) : res :=
  let n := u32 (nrefs s - 1) in
  let s := set_nrefs s n in
  if 0 <? n then Some (Live s, []) else destructor s e.

(** The application gives up its reference, if it has it. *)
Definition app_drop (b : bool) (s : sipsess) (e : env) : res :=
  if b && app s then mem_deref (set_app s false) e else Some (Live s, []).

Definition sipsess_terminate (s : sipsess) (err : Z) (e : env) : res :=
  if negb (terminated s =? 0) then Some (Live s, [])
  else
    let user := uh s in
    let '(w, s, a) := termwait s e in
    let '(s, b) := if w then (s, []) else let '(_, s, b) := terminate s e in (s, b) in
    emit (a ++ b) (if user then emit [Call (Closeh err)] (app_drop (c_drop e) s e)
                   else Some (Live s, [])).

(** The label [out] of the response handlers of a session that has no request left. *)
Definition out (s : sipsess) (err : Z) (e : env) : res :=
  if terminated s =? 0 then sipsess_terminate s err e else mem_deref s e.

Definition bye_resp_handler (s : sipsess) (x : Z + Z) (e : env) : res :=
  match x with
  | inl _ => mem_deref s e
  | inr scode =>
      let '(loops, l) := Sipreg.sip_request_loops (ls s) scode in
      let s := set_ls s l in
      if loops then mem_deref s e
      else if scode <? 200 then Some (Live s, [])
      else if scode <? 300 then mem_deref s e
      else if peerterm s then mem_deref s e
      else if (scode =? 401) || (scode =? 407) then
        if negb (auth_err e =? 0) then mem_deref s e
        else
          let '(err, s, a) := sipsess_bye s false e in
          emit a (if negb (err =? 0) then mem_deref s e else Some (Live s, []))
      else mem_deref s e
  end.

(** ** Calls of the application's handlers *)

Definition call (s : sipsess) (h : handler) : list act := if uh s then [Call h] else [].

(** The offer and the answer handler; the internal ones return [ENOSYS]. *)
Definition ask (s : sipsess) (h : handler) (e : env) (k : Z -> given -> sipsess -> res) : res :=
  if uh s then
    emit [Call h] (andthen (app_drop (h_drop e) s e) (k (h_err e) (h_desc e)))
  else k ENOSYS Untouched s.

(** ** Outgoing: connect.c, modify.c *)

(** A response: [retry_after] is the value of the header field. *)
Record resp := mk_resp { scode : Z; cseq : Z; retry_after : option Z }.

Definition invite (s : sipsess) (e : env) : Z * sipsess * list act :=
  let s := set_modify_pending (set_sent_offer s (desc s)) false in
  let err := send_err e in
  (err, if err =? 0 then set_req s (Some Invite) else s, [Send Invite (desc s) err]).

Definition sipsess_reinvite (s : sipsess) (reset_ls : bool) (e : env) : Z * sipsess * list act :=
  if isset (req s) then (EPROTO, s, [])
  else
    let s := set_modify_pending (set_sent_offer s (desc s)) false in
    let s := if reset_ls then set_ls s Sipreg.sip_loopstate_reset else s in
    let err := send_err e in
    (err, if err =? 0 then set_req s (Some ReInvite) else s, [Send ReInvite (desc s) err]).

(** After the offer or the answer handler. *)
Definition acked (s : sipsess) (m : resp) (err : Z) (d : bool) (e : env) : res :=
  emit [Ack (cseq m) d] (
    let err := Z.lor err (ack_err e) in
    let s := set_established s true in
    if negb (err =? 0) || negb (terminated s =? 0) then out s err e
    else
      let '(s, a) := if modify_pending s then let '(_, s, a) := sipsess_reinvite s true e in (s, a)
                     else (set_desc s false, []) in
      emit a (Some (Live s, call s Estabh))).

Definition invite_success (s : sipsess) (m : resp) (e : env) : res :=
  if negb (create_err e =? 0) then out s (create_err e) e
  else
    let s := set_dlg s true in
    if sent_offer s then ask s Answerh e (fun err _ s => acked s m err false e)
    else ask (set_modify_pending s false) Offerh e (fun err d s => acked s m err (is_desc d) e).

(** [invite(sess)] after a response that asks for another one. *)
Definition invite_again (s : sipsess) (e : env) : res :=
  let '(err, s, a) := invite s e in
  emit a (if negb (err =? 0) then out s err e else Some (Live s, [])).

Definition invite_resp_handler (s : sipsess) (x : Z + resp) (e : env) : res :=
  match x with
  | inl err => out s err e
  | inr m =>
      let '(loops, l) := Sipreg.sip_request_loops (ls s) (scode m) in
      let s := set_ls s l in
      if loops then out s 0 e
      else if scode m <? 200 then Some (Live s, call s Progrh)
      else if scode m <? 300 then invite_success s m e
      else if scode m <? 400 then
        if negb (terminated s =? 0) then out s 0 e
        else if negb (update_err e =? 0) then out s (update_err e) e
        else invite_again s e
      else if negb (terminated s =? 0) then out s 0 e
      else if (scode m =? 401) || (scode m =? 407) then
        if negb (auth_err e =? 0) then out s (if auth_err e =? EAUTH then 0 else auth_err e) e
        else invite_again s e
      else out s 0 e
  end.

(** [tmr_start] of [sess->tmr]. *)
Definition start (now : Z) (s : sipsess) (delay : Z) : sipsess := set_tmr s (Some (u64 (delay + now))).

Definition modify_tmr_handler (s : sipsess) (e : env) : res :=
  let '(_, s, a) := sipsess_reinvite s true e in Some (Live s, a).

Definition reinvite_out (s : sipsess) (err : Z) (e : env) : res :=
  if negb (terminated s =? 0) then mem_deref s e
  else if err =? ETIMEDOUT then sipsess_terminate s err e
  else if modify_pending s then
    let '(_, s, a) := sipsess_reinvite s true e in Some (Live s, a)
  else Some (Live (set_desc s false), []).

Definition reinvite_refused (now : Z) (s : sipsess) (m : resp) (e : env) : res :=
  if (scode m =? 401) || (scode m =? 407) then
    if negb (auth_err e =? 0) then
      reinvite_out s (if auth_err e =? EAUTH then 0 else auth_err e) e
    else
      let '(err, s, a) := sipsess_reinvite s false e in
      emit a (if negb (err =? 0) then reinvite_out s err e else Some (Live s, []))
  else if (scode m =? 408) || (scode m =? 481) then sipsess_terminate s 0 e
  else if scode m =? 491 then Some (Live (start now s (if owner s then 3000 else 1000)), [])
  else if scode m =? 500 then
    match retry_after m with
    | None => reinvite_out s 0 e
    | Some v => Some (Live (start now s (u32 (v * 1000))), [])
    end
  else reinvite_out s 0 e.

Definition reinvite_resp_handler (now : Z) (s : sipsess) (x : Z + resp) (e : env) : res :=
  match x with
  | inl err => reinvite_out s err e
  | inr m =>
      let '(loops, l) := Sipreg.sip_request_loops (ls s) (scode m) in
      let s := set_ls s l in
      if loops then reinvite_out s 0 e
      else if scode m <? 200 then Some (Live s, [])
      else if scode m <? 300 then
        if sent_offer s then
          ask s Answerh e (fun _ _ s => emit [Ack (cseq m) false] (reinvite_out s 0 e))
        else
          ask (set_modify_pending s false) Offerh e
            (fun _ d s => emit [Ack (cseq m) (is_desc d)] (reinvite_out s 0 e))
      else if negb (terminated s =? 0) then reinvite_out s 0 e
      else reinvite_refused now s m e
  end.

(** [d]: the new description is not null. *)
Definition sipsess_modify (s : sipsess) (d : bool) (e : env) : Z * sipsess * list act :=
  if st s || negb (terminated s =? 0) then (EINVAL, s, [])
  else
    let s := set_desc s d in
    if isset (req s) || isset (tmr s) || nonempty (replyl s) then (0, set_modify_pending s true, [])
    else sipsess_reinvite s true e.

(** A session as [sipsess_alloc] leaves it. *)
Definition sipsess_alloc (own d info refer : bool) : sipsess :=
  mk_sess 1 true 0 false false own false false false false true info refer false None None [] [] d
    None Sipreg.sip_loopstate_reset.

(** A function that creates a session gives it back, or releases it after an error. *)
Definition created (err : Z) (s : sipsess) (e : env) : option (Z * option obj * list act) :=
  if negb (err =? 0) then '(o, a) ← mem_deref (set_app s false) e; Some (err, Some o, a)
  else Some (0, Some (Live s), []).

(** [err0]: the error of an allocation before the session is complete, or of the dialog. *)
Definition sipsess_connect (d info refer : bool) (err0 : Z) (e : env) :
    option (Z * option obj * list act) :=
  let s := sipsess_alloc true d info refer in
  if negb (err0 =? 0) then created err0 s e
  else
    let '(err, s, a) := invite s e in
    '(err, o, b) ← created err s e; Some (err, o, a ++ b).

(** ** Incoming: accept.c, reply.c *)

(** [tmr_start] of a reply. *)
Definition expiry (now delay : Z) : Z := u64 (delay + now).

(** [m]: the CSeq number of the request and whether it has a body; [d]: a description is
    given. *)
Definition sipsess_reply_2xx (now : Z) (s : sipsess) (m : Z * bool) (scode : Z) (d : bool) (e : env) :
    Z * sipsess * list act :=
  if negb (reply_mem e) then (ENOMEM, set_st s false, [])
  else
    let err := reply_err e in
    if negb (err =? 0) then (err, set_st s false, [Reply scode])
    else
      let aw := negb (snd m) && d in
      let r := mk_reply (fst m) aw 0 (expiry now (64 * SIP_T1)) (expiry now SIP_T1) in
      let s := set_replyl (set_st s (scode <? 200)) (replyl s ++ [r]) in
      (0, if aw then set_awaiting_answer s true else s, [Reply scode]).

(** [err0] as in [sipsess_connect]; [dlg_err]: of [sip_dialog_accept]; [st_err]: of
    [sip_strans_alloc]. *)
Definition sipsess_accept (now : Z) (m : Z * bool) (scode : Z) (d info refer : bool)
    (err0 dlg_err st_err : Z) (e : env) : option (Z * option obj * list act) :=
  if (scode <? 101) || (299 <? scode) then Some (EINVAL, None, [])
  else
    let s := sipsess_alloc false false info refer in
    if negb (err0 =? 0) then created err0 s e
    else if negb (dlg_err =? 0) then created dlg_err s e
    else
      let s := set_msg (set_dlg s true) (Some m) in
      if negb (st_err =? 0) then created st_err s e
      else
        let s := set_st s true in
        let '(err, s, a) := if 200 <=? scode then sipsess_reply_2xx now s m scode d e
                            else treply s scode (reply_err e) in
        '(err, o, b) ← created err s e; Some (err, o, a ++ b).

Definition sipsess_progress (s : sipsess) (scode : Z) (e : env) : Z * sipsess * list act :=
  if negb (st s) || negb (isset (msg s)) || (scode <? 101) || (199 <? scode) then (EINVAL, s, [])
  else treply s scode (reply_err e).

Definition sipsess_answer (now : Z) (s : sipsess) (scode : Z) (d : bool) (e : env) :
    Z * sipsess * list act :=
  match msg s with
  | Some m => if negb (st s) || (scode <? 200) || (299 <? scode) then (EINVAL, s, [])
              else sipsess_reply_2xx now s m scode d e
  | None => (EINVAL, s, [])
  end.

Definition sipsess_reject (s : sipsess) (scode : Z) (e : env) : Z * sipsess * list act :=
  if negb (st s) || negb (isset (msg s)) || (scode <? 300) then (EINVAL, s, [])
  else treply s scode (reply_err e).

Definition cancel_handler (s : sipsess) (e : env) : res :=
  let '(_, s, a) := treply s 487 (reply_err e) in
  let s := set_peerterm s true in
  emit a (if negb (terminated s =? 0) then Some (Live s, []) else sipsess_terminate s ECONNRESET e).

(** No ACK came for the [i]-th response. *)
Definition reply_tmr_handler (s : sipsess) (i : nat) (e : env) : res :=
  let s := set_replyl s (delete i (replyl s)) in
  if nonempty (replyl s) then Some (Live s, [])
  else
    let s := set_established s true in
    if terminated s =? 0 then sipsess_terminate s ETIMEDOUT e else mem_deref s e.

(** The [i]-th response is sent again. *)
Definition retransmit_handler (now : Z) (s : sipsess) (i : nat) : res :=
  match replyl s !! i with
  | None => None
  | Some r =>
      let n := u32 (r_txc r + 1) in
      x ← Ctrans.shl_T1 n;
      let r' := mk_reply (r_seq r) (r_awaiting r) n (r_tmr r) (expiry now (Z.min x SIP_T2)) in
      Some (Live (set_replyl s (<[i := r']> (replyl s))), [Resend (r_seq r)])
  end.

(** [sipsess_reply_ack]: the first response with this number. *)
Fixpoint reply_ack (l : list reply) (seq : Z) : option (bool * list reply) :=
  match l with
  | [] => None
  | r :: l =>
      if seq =? r_seq r then Some (r_awaiting r, l)
      else '(aw, l) ← reply_ack l seq; Some (aw, r :: l)
  end.

(** ** Requests of the peer: listen.c *)

(** After the answer handler; [err]: its result. *)
Definition ack_accepted (s : sipsess) (err : Z) (e : env) : res :=
  let '(s, a) := if modify_pending s && negb (nonempty (replyl s))
                 then let '(_, s, a) := sipsess_reinvite s true e in (s, a) else (s, []) in
  emit a (
    if established s then Some (Live s, [])
    else
      let s := set_established (set_msg s None) true in
      if negb (err =? 0) then sipsess_terminate s err e else Some (Live s, call s Estabh)).

Definition ack_handler (s : sipsess) (seq : Z) (e : env) : res :=
  match reply_ack (replyl s) seq with
  | None => Some (Live s, [])
  | Some (awaiting, l) =>
      let s := set_replyl s l in
      if negb (terminated s =? 0) then
        if nonempty (replyl s) then Some (Live s, [])
        else mem_deref (set_established s true) e
      else if awaiting then
        ask (set_awaiting_answer s false) Answerh e (fun err _ s => ack_accepted s err e)
      else ack_accepted s 0 e
  end.

(** [rseq_ok]: the result of [sip_dialog_rseq_valid]. *)
Definition bye_handler (s : sipsess) (rseq_ok : bool) (e : env) : res :=
  if negb rseq_ok then Some (Live s, [Reply 500])
  else
    emit [Reply 200] (
      let s := set_peerterm s true in
      if negb (terminated s =? 0) then Some (Live s, [])
      else
        let '(_, s, a) := if st s then treply s 487 (reply_err e) else (0, s, []) in
        emit a (sipsess_terminate s ECONNRESET e)).

(** A re-INVITE with the CSeq number and body [m].  The variable for the description is
    not initialised. *)
Definition reinvite_handler (now : Z) (s : sipsess) (m : Z * bool) (rseq_ok : bool) (e : env) : res :=
  if negb (terminated s =? 0) then Some (Live s, [Reply 481])
  else if negb rseq_ok then Some (Live s, [Reply 500])
  else if st s || awaiting_answer s then Some (Live s, [Reply 500])
  else if isset (req s) then Some (Live s, [Reply 491])
  else
    ask s Offerh e (fun err d s =>
      if negb (err =? 0) then Some (Live s, [Reply 488])
      else match d with
      | Untouched => None
      | _ =>
          let '(_, s, a) := sipsess_reply_2xx now s m 200 (is_desc d) e in
          Some (Live (set_tmr (set_modify_pending (set_desc s false) false) None), a)
      end).

Definition info_handler (s : sipsess) (rseq_ok : bool) : res :=
  if negb (terminated s =? 0) then Some (Live s, [Reply 481])
  else if negb rseq_ok then Some (Live s, [Reply 500])
  else if negb (infoh s) then Some (Live s, [Reply 501])
  else Some (Live s, [Call Infoh]).

Definition refer_handler (s : sipsess) (rseq_ok : bool) : res :=
  if negb (terminated s =? 0) then Some (Live s, [Reply 481])
  else if negb rseq_ok then Some (Live s, [Reply 500])
  else if negb (referh s) then Some (Live s, [Reply 501])
  else Some (Live s, [Call Referh]).

(** ** INFO requests: request.c, info.c *)

(** [mem_deref] of the [i]-th request. *)
Definition request_deref (s : sipsess) (i : nat) (e : env) : res :=
  let s := set_requestl s (delete i (requestl s)) in
  if negb (terminated s =? 0) && negb (nonempty (requestl s)) then mem_deref s e
  else Some (Live s, []).

(** [mem]: the request can be allocated; [ctype_mem]: so can the copy of its type, without
    which the destructor reads [req->sess] before it is set. *)
Definition sipsess_info (s : sipsess) (mem ctype_mem : bool) (e : env) : option (Z * obj * list act) :=
  if negb (terminated s =? 0) then Some (EINVAL, Live s, [])
  else if negb (dlg s) then Some (ENOTCONN, Live s, [])
  else if negb mem then Some (ENOMEM, Live s, [])
  else if negb ctype_mem then None
  else
    let i := length (requestl s) in
    let s := set_requestl s (requestl s ++ [Sipreg.sip_loopstate_reset]) in
    let err := send_err e in
    if negb (err =? 0) then
      '(o, a) ← request_deref s i e; Some (err, o, Info err :: a)
    else Some (0, Live s, [Info 0]).

(** From the label [out] of [info_resp_handler]. *)
Definition info_out (s : sipsess) (i : nat) (err : Z) (e : env) : res :=
  andthen
    (if terminated s =? 0 then
       if err =? ETIMEDOUT then sipsess_terminate s err e
       else emit [Call (Resph err)] (app_drop (c_drop e) s e)
     else Some (Live s, []))
    (fun s => request_deref s i e).

Definition info_refused (s : sipsess) (i : nat) (scode : Z) (e : env) : res :=
  if (scode =? 401) || (scode =? 407) then
    if negb (auth_err e =? 0) then info_out s i (if auth_err e =? EAUTH then 0 else auth_err e) e
    else
      emit [Info (send_err e)]
        (if negb (send_err e =? 0) then info_out s i (send_err e) e else Some (Live s, []))
  else if (scode =? 408) || (scode =? 481) then
    andthen (sipsess_terminate s 0 e) (fun s => info_out s i 0 e)
  else info_out s i 0 e.

Definition info_resp_handler (s : sipsess) (i : nat) (x : Z + Z) (e : env) : res :=
  match requestl s !! i with
  | None => None
  | Some l =>
      match x with
      | inl err => info_out s i err e
      | inr scode =>
          let '(loops, l) := Sipreg.sip_request_loops l scode in
          let s := set_requestl s (<[i := l]> (requestl s)) in
          if loops then info_out s i 0 e
          else if scode <? 200 then Some (Live s, [])
          else if scode <? 300 then info_out s i 0 e
          else if negb (terminated s =? 0) then info_out s i 0 e
          else info_refused s i scode e
      end
  end.

(** ** Runs *)

Definition final {A} (scode_of : A -> Z) (x : Z + A) : bool :=
  match x with inl _ => true | inr m => 200 <=? scode_of m end.

(** What can happen to a session: responses to its requests, its timers, what the peer
    sends and the calls of the application. *)
Inductive event :=
| EvResponse (k : kind) (x : Z + resp)
| EvInfoResponse (i : nat) (x : Z + Z)
| EvModifyTmr
| EvReplyTmr (i : nat)
| EvRetransmit (i : nat)
| EvCancel
| EvAck (seq : Z)
| EvBye (rseq_ok : bool)
| EvReinvite (m : Z * bool) (rseq_ok : bool)
| EvInfo (rseq_ok : bool)
| EvRefer (rseq_ok : bool)
| AppDeref
| AppModify (d : bool)
| AppProgress (scode : Z)
| AppAnswer (scode : Z) (d : bool)
| AppReject (scode : Z)
| AppInfo (mem ctype_mem : bool).

Definition silent (x : Z * sipsess * list act) : res := let '(_, s, a) := x in Some (Live s, a).

(** A request clears [sess->req] before it reports its final response; a timer that fires
    is not running. *)
Definition handle (now : Z) (s : sipsess) (ev : event) (e : env) : res :=
  match ev with
  | EvResponse k x =>
      let s := if final scode x then set_req s None else s in
      match k with
      | Invite => invite_resp_handler s x e
      | ReInvite => reinvite_resp_handler now s x e
      | Bye => bye_resp_handler s (match x with inl err => inl err | inr m => inr (scode m) end) e
      end
  | EvInfoResponse i x => info_resp_handler s i x e
  | EvModifyTmr => modify_tmr_handler (set_tmr s None) e
  | EvReplyTmr i => reply_tmr_handler s i e
  | EvRetransmit i => retransmit_handler now s i
  | EvCancel => cancel_handler s e
  | EvAck seq => ack_handler s seq e
  | EvBye rseq_ok => bye_handler s rseq_ok e
  | EvReinvite m rseq_ok => reinvite_handler now s m rseq_ok e
  | EvInfo rseq_ok => info_handler s rseq_ok
  | EvRefer rseq_ok => refer_handler s rseq_ok
  | AppDeref => mem_deref (set_app s false) e
  | AppModify d => silent (sipsess_modify s d e)
  | AppProgress scode => silent (sipsess_progress s scode e)
  | AppAnswer scode d => silent (sipsess_answer now s scode d e)
  | AppReject scode => silent (sipsess_reject s scode e)
  | AppInfo mem ctype_mem => '(_, o, a) ← sipsess_info s mem ctype_mem e; Some (o, a)
  end.

Definition reported {A} (scode_of : A -> Z) (x : Z + A) : Prop :=
  match x with inl err => err <> 0 | inr m => 100 <= scode_of m end.

(** A server transaction calls the cancel handler while it waits for a final response; a
    request of the peer finds the session by the tags of both sides; of two timers of a
    reply the earlier fires first; the application calls with its reference. *)
Definition enabled (now : Z) (s : sipsess) (ev : event) : Prop :=
  match ev with
  | EvResponse k x => req s = Some k /\ reported scode x
  | EvInfoResponse i x => (i < length (requestl s))%nat /\ reported id x
  | EvModifyTmr => exists t, tmr s = Some t /\ t <= now
  | EvReplyTmr i => exists r, replyl s !! i = Some r /\ r_tmr r <= now
  | EvRetransmit i => exists r, replyl s !! i = Some r /\ r_tmrg r <= now /\ r_tmrg r <= r_tmr r
  | EvCancel => st s = true
  | EvAck _ | EvBye _ | EvReinvite _ _ | EvInfo _ | EvRefer _ => dlg s = true
  | _ => app s = true
  end.

(** Two events cannot be handled: an INFO request whose content type cannot be copied, and
    a re-INVITE whose offer handler succeeds without storing a description. *)
Definition crashes (s : sipsess) (ev : event) (e : env) : Prop :=
  match ev with
  | AppInfo mem ctype_mem => terminated s = 0 /\ dlg s = true /\ mem = true /\ ctype_mem = false
  | EvReinvite _ rseq_ok => terminated s = 0 /\ rseq_ok = true /\ st s || awaiting_answer s = false /\ req s = None /\
      h_err e = 0 /\ h_desc e = Untouched
  | _ => False
  end.

Definition clock_max : Z := Ctrans.clock_max.

Record conf := mk_conf { block : obj; clock : Z; trace : list act }.

(** The offer and the answer handler do not give up the application's reference. *)
Inductive step (ev : event) : conf -> conf -> Prop :=
| step_event c now s e o acts : block c = Live s -> clock c <= now <= clock_max ->
    enabled now s ev -> h_drop e = false -> handle now s ev e = Some (o, acts) ->
    step ev c (mk_conf o now (trace c ++ acts)).

Inductive reachable : conf -> Prop :=
| reach_connect now d info refer e s acts : 0 <= now <= clock_max ->
    sipsess_connect d info refer 0 e = Some (0, Some (Live s), acts) ->
    reachable (mk_conf (Live s) now acts)
| reach_accept now m scode d info refer e s acts : 0 <= now <= clock_max ->
    sipsess_accept now m scode d info refer 0 0 0 e = Some (0, Some (Live s), acts) ->
    reachable (mk_conf (Live s) now acts)
| reach_event c ev c' : reachable c -> step ev c c' -> reachable c'.

End Sipsess.
