(* ===== verification/SipsessInv.v ===== *)
(** * The invariant of a SIP session

    Reference counts, calls of the application's handlers and BYEs of the sessions of
    [Sipsess]: every handler of a reachable session is defined and keeps the invariant,
    and a freed session leaves nothing behind. *)
From S2P Require Import Prelude Ctrans Sipreg Sipsess.
Import Sipsess.

Module SipsessInv.

(** ** The invariant *)

(** The calls of the application's handlers: at most one of the establish handler, none
    after the close handler. *)
Inductive phase := Early | Talking | Closed.

Definition call1 (p : phase) (a : act) : option phase :=
  match a with
  | Call h =>
      match p, h with
      | Closed, _ => None
      | _, Closeh _ => Some Closed
      | Early, Estabh => Some Talking
      | Talking, Estabh => None
      | _, _ => Some p
      end
  | _ => Some p
  end.

Fixpoint calls (p : phase) (tr : list act) : option phase :=
  match tr with [] => Some p | a :: tr => p ← call1 p a; calls p tr end.

Definition calls_ok (tr : list act) (s : sipsess) : Prop :=
  exists p, calls Early tr = Some p /\
    (uh s = true -> p <> Closed /\ (established s = false -> p = Early)).

Definition byed (tr : list act) : Prop := exists err, Send Bye false err ∈ tr.

(** The conditions that a session waits for: one reference each. *)
Definition busy (s : sipsess) : Z :=
  Z.b2z (isset (req s)) + Z.b2z (nonempty (replyl s)) + Z.b2z (nonempty (requestl s)).

Definition reply_ok (r : reply) : Prop :=
  0 <= r_txc r /\
  exists t, r_tmr r = t + 32000 /\ t + Ctrans.earliest (Z.to_nat (r_txc r)) <= r_tmrg r.

(** [k]: references that are neither the application's nor those of what is waited for. *)
Record inv (k : Z) (tr : list act) (s : sipsess) : Prop := {
  i_refs : nrefs s = Z.b2z (app s) + (if terminated s =? 0 then 0 else busy s) + k;
  i_range : terminated s = 0 \/ terminated s = 1 \/ terminated s = 2;
  i_open : terminated s = 0 -> uh s = true /\
    (st s = true -> isset (msg s) = true /\ replyl s = []);
  i_closed : terminated s <> 0 -> uh s = false /\ st s = false /\ tmr s = None;
  i_bye : req s = Some Bye -> terminated s = 2 /\ established s = true;
  i_over : terminated s = 2 ->
    replyl s = [] /\ requestl s = [] /\ (req s = None \/ req s = Some Bye);
  i_dlg : dlg s = false -> established s = false /\ replyl s = [] /\ requestl s = [];
  i_invite : req s = Some Invite -> dlg s = false;
  i_st : st s = true -> dlg s = true;
  i_replies : Forall reply_ok (replyl s);
  i_calls : calls_ok tr s;
  i_byed : terminated s = 2 -> established s = true -> peerterm s = false -> byed tr;
  i_sent : byed tr -> terminated s = 2 /\ established s = true;
  i_ls : 0 <= Sipreg.ls_failc (ls s) <= 15 + Z.b2z (negb (isset (req s))) }.

Definition post (tr : list act) (x : res) : Prop :=
  match x with
  | None => False
  | Some (Live s, a) => inv 0 (tr ++ a) s /\ 0 < nrefs s
  | Some (Freed s, a) => inv 0 (tr ++ a) s /\ nrefs s = 0 /\ terminated s = 2
  end.

(** ** The trace *)

Definition plain (a : act) : bool :=
  match a with Call _ => false | Send Bye _ _ => false | _ => true end.

Lemma calls_app p a b : calls p (a ++ b) = q ← calls p a; calls q b.
Proof. revert p. induction a as [|x a IH]; intros p; [done|]. simpl. destruct (call1 p x); simpl; auto. Qed.

Definition uncalled (a : act) : bool := match a with Call _ => false | _ => true end.

Lemma calls_uncalled p a : forallb uncalled a = true -> calls p a = Some p.
Proof.
  revert p. induction a as [|x a IH]; intros p; [done|]. simpl. intros [Hx Ha]%andb_true_iff.
  destruct x; try done; simpl; by apply IH.
Qed.

Lemma plain_uncalled a : forallb plain a = true -> forallb uncalled a = true.
Proof. rewrite !forallb_forall. intros H x Hx. apply H in Hx. by destruct x. Qed.

Lemma calls_plain p a : forallb plain a = true -> calls p a = Some p.
Proof. intros. by apply calls_uncalled, plain_uncalled. Qed.

Lemma byed_app a b : byed (a ++ b) <-> byed a \/ byed b.
Proof. unfold byed. setoid_rewrite elem_of_app. naive_solver. Qed.

Lemma byed_plain a : forallb plain a = true -> ~ byed a.
Proof.
  intros Ha [err He]. rewrite forallb_forall in Ha. apply list_elem_of_In, Ha in He. done.
Qed.

Lemma byed_send err : byed [Send Bye false err].
Proof. exists err. by left. Qed.

Lemma inv_plain k tr s a : inv k tr s -> forallb plain a = true -> inv k (tr ++ a) s.
Proof.
  intros [] Ha. split; try done.
  - destruct i_calls0 as (p&Hp&Hu). exists p. rewrite calls_app, Hp. simpl.
    by rewrite calls_plain.
  - intros ???. apply byed_app. left. auto.
  - intros [?|?]%byed_app; [auto|]. by apply byed_plain in Ha.
Qed.

(** A call of a handler of a session that is not terminated. *)
Lemma inv_call k tr s h : inv k tr s -> terminated s = 0 ->
  match h with Closeh _ => False | Estabh => False | _ => True end ->
  inv k (tr ++ [Call h]) s.
Proof.
  intros [] Ht Hh. split; try done; try (intros; lia).
  - destruct i_calls0 as (p&Hp&Hu). destruct (i_open0 Ht) as [Hu0 _]. destruct (Hu Hu0) as [Hc He].
    exists p. rewrite calls_app, Hp. split; [|done]. simpl. by destruct p, h.
  - intros [?|[err He]]%byed_app; [auto|]. by apply list_elem_of_singleton in He.
Qed.

Lemma inv_closeh k tr s p err : inv k tr s -> terminated s <> 0 -> calls Early tr = Some p ->
  p <> Closed -> inv k (tr ++ [Call (Closeh err)]) s.
Proof.
  intros [] Ht Hp Hc. destruct (i_closed0 Ht) as (Hu&_). split; try done.
  - exists Closed. rewrite calls_app, Hp. split; [by destruct p|]. by rewrite Hu.
  - intros ???. apply byed_app. left. auto.
  - intros [?|[x Hx]]%byed_app; [auto|]. by apply list_elem_of_singleton in Hx.
Qed.

(** ** Post-conditions *)

Lemma post_emit tr a m : post tr (emit a m) <-> post (tr ++ a) m.
Proof.
  unfold emit. destruct m as [[[s|s] b]|]; simpl; [..|done]; by rewrite (assoc_L (++)).
Qed.

Lemma post_live tr s a : inv 0 (tr ++ a) s -> 0 < nrefs s -> post tr (Some (Live s, a)).
Proof. done. Qed.

Lemma post_here tr s : inv 0 tr s -> 0 < nrefs s -> post tr (Some (Live s, [])).
Proof. intros. apply post_live; [|done]. by rewrite app_nil_r. Qed.

Lemma busy_nonneg s : 0 <= busy s <= 3.
Proof. unfold busy. destruct (isset _), (nonempty _), (nonempty _); simpl; lia. Qed.

Lemma busy_none s : busy s = 0 -> req s = None /\ replyl s = [] /\ requestl s = [].
Proof. unfold busy. by destruct (req s), (replyl s), (requestl s). Qed.

(** The fields that no condition is about. *)
#[local] Ltac frame := intros []; split; simpl; done.
Lemma inv_set_ls k tr s x : inv k tr s ->
  0 <= Sipreg.ls_failc x <= 15 + Z.b2z (negb (isset (req s))) -> inv k tr (set_ls s x).
Proof. frame. Qed.
Lemma inv_reset k tr s : inv k tr s -> inv k tr (set_ls s Sipreg.sip_loopstate_reset).
Proof. intros. apply inv_set_ls; [done|]. destruct (isset (req s)); simpl; lia. Qed.
Lemma inv_set_desc k tr s x : inv k tr s -> inv k tr (set_desc s x). Proof. frame. Qed.
Lemma inv_set_sent_offer k tr s x : inv k tr s -> inv k tr (set_sent_offer s x). Proof. frame. Qed.
Lemma inv_set_modify_pending k tr s x : inv k tr s -> inv k tr (set_modify_pending s x).
Proof. frame. Qed.
Lemma inv_set_awaiting_answer k tr s x : inv k tr s -> inv k tr (set_awaiting_answer s x).
Proof. frame. Qed.
Lemma inv_set_peerterm k tr s : inv k tr s -> inv k tr (set_peerterm s true). Proof. frame. Qed.

Create HintDb sess.
#[export] Hint Resolve inv_reset inv_set_desc inv_set_sent_offer inv_set_modify_pending
  inv_set_awaiting_answer inv_set_peerterm inv_plain : sess.
#[export] Hint Extern 4 (forallb plain _ = true) => reflexivity : sess.

Lemma inv_set_tmr k tr s x : inv k tr s -> terminated s = 0 \/ x = None -> inv k tr (set_tmr s x).
Proof.
  intros [] Hx. split; simpl; try done. intros Ht. destruct (i_closed0 Ht) as (?&?&?).
  by destruct Hx as [?| ->].
Qed.

Lemma inv_set_st k tr s x : inv k tr s -> st s = true \/ x = false -> inv k tr (set_st s x).
Proof.
  intros [] Hx. split; simpl; try done.
  - intros Ht. destruct (i_open0 Ht). split; [done|]. destruct Hx as [?| ->]; [auto|done].
  - intros Ht. destruct (i_closed0 Ht) as (?&?&?). destruct Hx as [?| ->]; [congruence|done].
  - destruct Hx as [?| ->]; [auto|done].
Qed.

Lemma inv_refs k k' tr s n : inv k tr s -> n = nrefs s + k' - k -> inv k' tr (set_nrefs s n).
Proof. intros [] ->. split; simpl; try done. unfold busy in *. simpl in *. lia. Qed.

Lemma inv_mem_ref k tr s : inv k tr s -> 0 <= nrefs s < 100 -> inv (k + 1) tr (mem_ref s).
Proof. intros H Hn. apply (inv_refs k); [done|]. rewrite u32_small by lia. lia. Qed.

Lemma treply_inv k tr s scode err e s' a : inv k tr s -> st s = true ->
  treply s scode err = (e, s', a) -> inv k (tr ++ a) s' /\ nrefs s' = nrefs s /\ terminated s' = terminated s.
Proof.
  intros H Hs. unfold treply. destruct (isset (msg s)); simpl.
  - destruct (err =? 0); simpl; intros [= <- <- <-]; (split; [|done]); apply inv_set_st; eauto with sess.
  - intros [= <- <- <-]. rewrite app_nil_r. done.
Qed.

(** ** Termination *)

(** What [termwait] leaves: the handlers are gone and a reference is taken for each
    condition to wait for. *)
Definition terminating (s : sipsess) : sipsess :=
  set_nrefs (set_st (set_tmr (drop_handlers (set_terminated s 1)) None) false) (nrefs s + busy s).

Lemma set_nrefs_same s : set_nrefs s (nrefs s) = s.
Proof. by destruct s. Qed.

Lemma wait_if_eq b w s : 0 <= nrefs s < 100 ->
  wait_if b (w, s) = (w || b, set_nrefs s (nrefs s + Z.b2z b)).
Proof.
  intros Hn. unfold wait_if, mem_ref. destruct b; simpl.
  - rewrite u32_small by lia. by rewrite orb_true_r.
  - by rewrite Z.add_0_r, set_nrefs_same, orb_false_r.
Qed.

Lemma treply_final s scode err : 200 <= scode -> isset (msg s) = true ->
  exists err', treply s scode err = (err', set_st s false, [Reply scode]).
Proof.
  intros Hs Hm. unfold treply. rewrite Hm. simpl. destruct (err =? 0); simpl; [|by eexists].
  destruct (Z.ltb_spec scode 200); [lia|]. by eexists.
Qed.

Lemma termwait_eq s e : (st s = true -> isset (msg s) = true) -> 0 <= nrefs s < 90 ->
  exists a, termwait s e = (0 <? busy s, terminating s, a) /\ forallb plain a = true.
Proof.
  intros Hm Hn. unfold termwait.
  set (s0 := set_tmr _ None).
  assert (exists err a, (if st s0 then treply s0 486 (reply_err e) else (0, s0, [])) =
    (err, set_st s0 false, a) /\ forallb plain a = true) as (err&a&->&Ha).
  { change (st s0) with (st s). destruct (st s) eqn:Es.
    - destruct (treply_final s0 486 (reply_err e)) as [x ->]; [lia|by apply Hm|]. by do 2 eexists.
    - exists 0, []. split; [|done]. unfold s0. destruct s. simpl in *. by subst. }
  change (req _) with (req s). change (replyl _) with (replyl s). change (requestl _) with (requestl s).
  assert (forall b : bool, 0 <= Z.b2z b <= 1) as Hb by (intros []; simpl; lia).
  pose proof (Hb (isset (req s))). pose proof (Hb (nonempty (replyl s))).
  do 3 (rewrite wait_if_eq by (simpl; lia); cbv beta iota).
  eexists (a ++ _). split; [f_equal; f_equal|].
  - unfold busy. by destruct (isset (req s)), (nonempty (replyl s)), (nonempty (requestl s)).
  - unfold terminating. change (set_nrefs (set_nrefs (set_nrefs ?a ?b) ?c) ?d) with (set_nrefs a d).
    f_equal. unfold busy. simpl. lia.
  - rewrite forallb_app, Ha. by destruct (isset (req s)).
Qed.

Lemma terminating_inv k tr s : inv k tr s -> terminated s = 0 -> inv k tr (terminating s).
Proof.
  intros [] Ht. rewrite Ht in *. simpl in *. split; simpl; try done; try lia; auto.
  - unfold terminating, busy. simpl. lia.
  - intros Hx. by destruct (i_bye0 Hx).
  - destruct i_calls0 as (p&Hp&_). by exists p.
  - intros Hb. by destruct (i_sent0 Hb).
Qed.

(** A session that waits for nothing becomes a closed one. *)
Lemma closed_inv k tr s : inv k tr s -> terminated s = 1 -> busy s = 0 ->
  (established s = true -> peerterm s = true) -> inv k tr (set_terminated s 2).
Proof.
  intros [] Ht Hb Hp. destruct (busy_none _ Hb) as (Hr&Hl&Hq). rewrite Ht in *. simpl in *.
  split; simpl; auto; try done.
  - by rewrite Hr.
  - intros _ He Hn. by rewrite (Hp He) in Hn.
  - intros Hx. by destruct (i_sent0 Hx).
Qed.

(** A BYE is sent; [x]: the request that is pending then. *)
Lemma bye_inv k tr s err x : inv k tr s -> terminated s = 1 \/ terminated s = 2 -> busy s = 0 ->
  established s = true -> x = None \/ x = Some Bye ->
  Sipreg.ls_failc (ls s) <= 15 ->
  inv (k - Z.b2z (isset x)) (tr ++ [Send Bye false err]) (set_req (set_terminated s 2) x).
Proof.
  intros [] Ht Hb He Hx Hls. destruct (busy_none _ Hb) as (Hr&Hl&Hq).
  assert (terminated s <> 0) as Ht0 by lia.
  destruct (Z.eqb_spec (terminated s) 0); [done|].
  split; simpl; auto; try done.
  - unfold busy in *. simpl. rewrite Hl, Hq. simpl. lia.
  - intros ->. by destruct Hx.
  - destruct i_calls0 as (p&Hp&_). exists p. rewrite calls_app, Hp. simpl. split; [done|].
    intros Hu. by rewrite (proj1 (i_closed0 Ht0)) in Hu.
  - intros _ _ _. apply byed_app. right. apply byed_send.
  - destruct (isset x); simpl; lia.
Qed.

Lemma terminate_inv k tr s e b s' a : inv k tr s -> terminated s = 1 -> busy s = 0 ->
  0 <= nrefs s < 100 -> terminate s e = (b, s', a) ->
  inv k (tr ++ a) s' /\ terminated s' = 2 /\ nrefs s' = nrefs s + Z.b2z b /\
  forallb uncalled a = true.
Proof.
  intros H Ht Hb Hn. destruct (busy_none _ Hb) as (Hr&_). unfold terminate, sipsess_bye, mem_ref. simpl.
  destruct (negb (established s) || peerterm s) eqn:E.
  { intros [= <- <- <-]. rewrite app_nil_r, Z.add_0_r. split; [|done].
    apply closed_inv; [done..|]. intros He. by rewrite He in E. }
  apply orb_false_iff in E as [He%negb_false_iff Hp]. rewrite Hr. simpl.
  destruct (Z.eqb_spec (bye_err e) 0) as [E|E]; simpl.
  - rewrite E. simpl. intros [= <- <- <-]. rewrite u32_small by lia. simpl. split; [|done].
    apply (inv_refs (k - 1)); [|simpl; lia].
    apply (bye_inv k tr (set_ls s Sipreg.sip_loopstate_reset) 0 (Some Bye)); auto;
      [by apply inv_reset|simpl; lia].
  - destruct (Z.eqb_spec (bye_err e) 0); [done|]. simpl. intros [= <- <- <-]. rewrite Z.add_0_r.
    split; [|done]. rewrite <- (Z.sub_0_r k).
    replace (set_ls (set_terminated s 2) _) with
      (set_req (set_terminated (set_ls s Sipreg.sip_loopstate_reset) 2) None)
      by (destruct s; simpl in *; by subst).
    apply (bye_inv k tr (set_ls s Sipreg.sip_loopstate_reset) (bye_err e) None); auto;
      [by apply inv_reset|simpl; lia].
Qed.

Lemma inv_nrefs k tr s : inv k tr s -> 0 <= k <= 10 -> 0 <= nrefs s <= 20.
Proof.
  intros [] Hk. pose proof (busy_nonneg s). destruct (app s), (terminated s =? 0); simpl in *; lia.
Qed.

Lemma release_post tr s : inv 0 tr s -> nrefs s = 0 -> terminated s = 2 -> post tr (release s).
Proof.
  intros H Hn Ht. unfold release.
  destruct (i_over _ _ _ H Ht) as (_&->&_). simpl. by rewrite app_nil_r.
Qed.

Lemma case1_post tr s e : inv 0 tr s -> nrefs s = 0 -> terminated s = 1 ->
  post tr (let '(w, s, a) := terminate s e in emit a (if w then Some (Live s, []) else release s)).
Proof.
  intros H Hn Ht.
  assert (busy s = 0) as Hb.
  { destruct H. rewrite Ht in *. simpl in *. pose proof (busy_nonneg s). destruct (app s); simpl in *; lia. }
  destruct (terminate s e) as [[w s'] a] eqn:E.
  destruct (terminate_inv 0 tr s e w s' a H Ht Hb ltac:(lia) E) as (H'&Ht'&Hn'&_).
  rewrite post_emit. destruct w; simpl in Hn'.
  - apply post_here; [done|lia].
  - apply release_post; (done || lia).
Qed.

Lemma destructor_post tr s e : inv 0 tr s -> nrefs s = 0 -> post tr (destructor s e).
Proof.
  intros H Hn. unfold destructor. destruct (Z.eqb_spec (terminated s) 0) as [Ht|Ht].
  - destruct (termwait_eq s e) as (a&->&Ha);
      [intros Hs; by destruct (proj2 (i_open _ _ _ H Ht) Hs)|lia|].
    assert (inv 0 (tr ++ a) (terminating s)) as H1 by (apply inv_plain; [by apply terminating_inv|done]).
    rewrite post_emit. pose proof (busy_nonneg s). destruct (Z.ltb_spec 0 (busy s)).
    + apply post_here; [done|]. simpl. lia.
    + apply case1_post; [done|simpl; lia|done].
  - destruct (Z.eqb_spec (terminated s) 1); [by apply case1_post|].
    apply release_post; [done..|].
    destruct (i_range _ _ _ H) as [?|[?|?]]; done.
Qed.

Lemma mem_deref_post tr s e : inv 1 tr s -> 0 < nrefs s -> post tr (mem_deref s e).
Proof.
  intros H Hn. pose proof (inv_nrefs _ _ _ H ltac:(lia)). unfold mem_deref. rewrite u32_small by lia.
  assert (inv 0 tr (set_nrefs s (nrefs s - 1))) as H1 by (apply (inv_refs 1); [done|lia]).
  destruct (Z.ltb_spec 0 (nrefs s - 1)).
  - by apply post_here.
  - apply destructor_post; [done|simpl; lia].
Qed.

Lemma app_deref_inv tr s : inv 0 tr s -> app s = true -> inv 1 tr (set_app s false).
Proof. intros [] Ha. rewrite Ha in *. split; simpl in *; try done. unfold busy in *. simpl. lia. Qed.

Lemma app_drop_post tr b s e : inv 0 tr s -> 0 < nrefs s -> post tr (app_drop b s e).
Proof.
  intros H Hn. unfold app_drop. destruct (b && app s) eqn:E; [|by apply post_here].
  apply andb_true_iff in E as [_ Ha]. apply mem_deref_post; [by apply app_deref_inv|done].
Qed.

Lemma sipsess_terminate_post tr s err e : inv 0 tr s -> 0 < nrefs s ->
  post tr (sipsess_terminate s err e).
Proof.
  intros H Hn. pose proof (inv_nrefs _ _ _ H ltac:(lia)). unfold sipsess_terminate.
  destruct (Z.eqb_spec (terminated s) 0) as [Ht|]; simpl; [|by apply post_here].
  destruct (i_open _ _ _ H Ht) as [Hu Hm].
  destruct (termwait_eq s e) as (a&->&Ha); [intros Hs; by destruct (Hm Hs)|lia|]. rewrite Hu.
  destruct (i_calls _ _ _ H) as (p&Hp&Hc). destruct (Hc Hu) as [Hpc _].
  assert (inv 0 (tr ++ a) (terminating s)) as H1 by (apply inv_plain; [by apply terminating_inv|done]).
  pose proof (busy_nonneg s). destruct (Z.ltb_spec 0 (busy s)).
  - rewrite app_nil_r, !post_emit. apply app_drop_post; [|simpl; lia].
    apply (inv_closeh _ _ _ p); [done..| |done]. by rewrite calls_app, Hp; apply calls_plain.
  - destruct (terminate (terminating s) e) as [[w s'] b] eqn:E.
    destruct (terminate_inv 0 (tr ++ a) (terminating s) e w s' b H1) as (H'&Ht'&Hn'&Hb');
      [done|change (busy s = 0); lia|simpl; lia|done|].
    rewrite (post_emit tr), post_emit, (assoc_L (++)).
    apply app_drop_post; [|simpl in Hn'; destruct w; simpl in *; lia].
    apply (inv_closeh _ _ _ p); [done|by rewrite Ht'| |done].
    rewrite !calls_app, Hp. simpl. rewrite calls_plain by done. simpl. by apply calls_uncalled.
Qed.

(** ** A session whose request was answered

    When it is terminated, the reference it kept for the request is still to be dropped. *)
Definition loose (tr : list act) (s : sipsess) : Prop :=
  inv (if terminated s =? 0 then 0 else 1) tr s /\ 0 < nrefs s.

Lemma loose_open tr s : loose tr s -> terminated s = 0 -> inv 0 tr s /\ 0 < nrefs s.
Proof. intros [H Hn] Ht. by rewrite Ht in H. Qed.

Lemma loose_over tr s : loose tr s -> terminated s <> 0 -> inv 1 tr s /\ 0 < nrefs s.
Proof. intros [H Hn] Ht. by destruct (Z.eqb_spec (terminated s) 0). Qed.

Lemma loose_plain tr s a : loose tr s -> forallb plain a = true -> loose (tr ++ a) s.
Proof. intros [H Hn] Ha. split; [by apply inv_plain|done]. Qed.

Lemma loose_set_ls tr s x : loose tr s -> req s = None -> 0 <= Sipreg.ls_failc x <= 16 ->
  loose tr (set_ls s x).
Proof. intros [H Hn] Hr Hx. split; [|done]. apply inv_set_ls; [done|]. by rewrite Hr. Qed.
Lemma loose_set_modify_pending tr s x : loose tr s -> loose tr (set_modify_pending s x).
Proof. intros [H Hn]. split; [by apply inv_set_modify_pending|done]. Qed.
#[export] Hint Resolve loose_set_modify_pending loose_plain : sess.

Lemma loose_answered tr s k : inv 0 tr s -> 0 < nrefs s -> req s = Some k -> loose tr (set_req s None).
Proof.
  intros [] Hn Hr. split; [|done]. split; simpl; try done.
  - unfold busy in *. simpl in *. rewrite Hr in *. simpl in *. destruct (terminated s =? 0); lia.
  - intros Ht. destruct (i_over0 Ht) as (?&?&_). auto.
  - rewrite Hr in *. simpl in *. lia.
Qed.

(** It has no reference for a request: one more would be a second. *)
Lemma loose_request tr s k : loose tr s -> req s = None -> Sipreg.ls_failc (ls s) <= 15 ->
  (terminated s = 0 /\ k <> Bye /\ (k = Invite -> dlg s = false)) \/
  (terminated s = 2 /\ k = Bye /\ established s = true) ->
  inv 0 tr (set_req s (Some k)).
Proof.
  intros [[] _] Hr Hls Hk. split; simpl; try done.
  - unfold busy in *. simpl in *. rewrite Hr in *. simpl in *. destruct (terminated s =? 0); simpl in *; lia.
  - intros [= ->]. destruct Hk as [(?&?&?)|(?&_&?)]; done.
  - intros Ht. destruct (i_over0 Ht) as (?&?&_). destruct Hk as [?|(_&->&_)]; [lia|auto].
  - intros [= ->]. naive_solver.
  - lia.
Qed.

Lemma out_post tr s err e : loose tr s -> post tr (out s err e).
Proof.
  intros H. unfold out. destruct (Z.eqb_spec (terminated s) 0) as [Ht|Ht].
  - destruct (loose_open _ _ H Ht). by apply sipsess_terminate_post.
  - destruct (loose_over _ _ H Ht). by apply mem_deref_post.
Qed.

(** ** Requests that are sent *)

(** What sending a request leaves alone. *)
Record same (s s' : sipsess) : Prop := {
  sa_refs : nrefs s' = nrefs s;
  sa_term : terminated s' = terminated s;
  sa_estab : established s' = established s;
  sa_dlg : dlg s' = dlg s;
  sa_uh : uh s' = uh s;
  sa_st : st s' = st s;
  sa_replyl : replyl s' = replyl s }.

Lemma sipsess_reinvite_inv tr s b e err s' a : inv 0 tr s -> terminated s = 0 ->
  (b = false -> Sipreg.ls_failc (ls s) <= 15) ->
  sipsess_reinvite s b e = (err, s', a) ->
  inv 0 (tr ++ a) s' /\ forallb plain a = true /\ same s s'.
Proof.
  intros H Ht Hls. unfold sipsess_reinvite. destruct (req s) as [k|] eqn:Er; simpl.
  { intros [= <- <- <-]. by rewrite app_nil_r. }
  set (s0 := if b then _ else _).
  assert (inv 0 tr s0 /\ req s0 = None /\ same s s0) as (H0&Hr0&Hs)
    by (unfold s0; destruct b; split_and!; eauto 6 with sess; by split).
  assert (Sipreg.ls_failc (ls s0) <= 15) as Hls0 by (unfold s0; destruct b; simpl; [lia|auto]).
  intros [= <- <- <-]. split_and!; [|done|by destruct Hs, (send_err e =? 0)].
  apply inv_plain; [|done]. destruct (send_err e =? 0); [|done].
  destruct (Z.le_gt_cases (nrefs s0) 0) as [Hn|Hn].
  - destruct H0. split; simpl; try done; rewrite ?(sa_term _ _ Hs), ?Ht in *; simpl in *; (lia || done).
  - apply (loose_request tr s0 ReInvite); [|done|done|].
    + split; [|lia]. by rewrite (sa_term _ _ Hs), Ht.
    + left. by rewrite (sa_term _ _ Hs), Ht.
Qed.

Lemma invite_again_post tr s e : loose tr s -> req s = None -> terminated s = 0 -> dlg s = false ->
  Sipreg.ls_failc (ls s) <= 15 -> post tr (invite_again s e).
Proof.
  intros H Hr Ht Hd Hls. unfold invite_again, invite. destruct (loose_open _ _ H Ht) as [H0 Hn].
  set (s0 := set_modify_pending (set_sent_offer s (desc s)) false).
  assert (loose (tr ++ [Send Invite (desc s) (send_err e)]) s0) as H1
    by (split; [|done]; unfold s0; simpl; rewrite Ht; simpl; eauto 6 with sess).
  rewrite post_emit. destruct (Z.eqb_spec (send_err e) 0) as [E|E]; cbn [negb]; [|by apply out_post].
  apply post_here; [|done]. apply (loose_request _ s0 Invite); [done..|by left].
Qed.

(** ** The offer and the answer handler *)

Lemma ask_post tr s h e k : loose tr s -> h_drop e = false ->
  match h with Closeh _ => False | Estabh => False | _ => True end ->
  (forall err d tr', loose tr' s -> (calls Early tr = Some Early -> calls Early tr' = Some Early) ->
    post tr' (k err d s)) ->
  post tr (ask s h e k).
Proof.
  intros H Hd Hh Hk. unfold ask. destruct (uh s) eqn:Eu; [|by apply Hk].
  rewrite post_emit. unfold andthen, app_drop. rewrite Hd. simpl.
  rewrite post_emit, app_nil_r.
  assert (terminated s = 0) as Ht.
  { destruct (Z.eq_dec (terminated s) 0); [done|]. destruct H as [[] _]. destruct (i_closed0 n); congruence. }
  destruct (loose_open _ _ H Ht). apply Hk.
  - split; [|done]. rewrite Ht. by apply inv_call.
  - intros Hc. rewrite calls_app, Hc. by destruct h.
Qed.

Lemma loose_established tr s : loose tr s -> dlg s = true -> terminated s <> 2 ->
  loose tr (set_established s true).
Proof.
  intros [[] Hn] Hd Ht. split; [|done]. simpl. split; simpl; try done.
  - intros Hx. by destruct (i_bye0 Hx).
  - by rewrite Hd.
  - destruct i_calls0 as (p&Hp&Hu). exists p. split; [done|]. simpl. intros Hx. split; [|done].
    by apply Hu.
  - intros Hx. by destruct (i_sent0 Hx).
Qed.

Lemma inv_estabh k tr s : inv k tr s -> terminated s = 0 -> established s = true ->
  calls Early tr = Some Early -> inv k (tr ++ call s Estabh) s.
Proof.
  intros [] Ht He Hc. unfold call. rewrite (proj1 (i_open0 Ht)). split; try done; try (intros; lia).
  - exists Talking. rewrite calls_app, Hc. split; [done|]. by rewrite He.
  - intros [?|[x Hx]]%byed_app; [auto|]. by apply list_elem_of_singleton in Hx.
Qed.

(** A call of the establish handler after the session sent what was pending. *)
Lemma estabh_post tr s (b : bool) e : inv 0 tr s -> 0 < nrefs s -> terminated s = 0 ->
  established s = true -> calls Early tr = Some Early ->
  post tr (let '(s, a) := if b then let '(_, s, a) := sipsess_reinvite s true e in (s, a)
                          else (set_desc s false, []) in
           emit a (Some (Live s, call s Estabh))).
Proof.
  intros H Hn Ht He Hc. destruct b.
  - destruct (sipsess_reinvite s true e) as [[err s'] a] eqn:E.
    destruct (sipsess_reinvite_inv tr s true e err s' a H Ht ltac:(done) E) as (H'&Ha&[]).
    rewrite post_emit. apply post_live; [|lia].
    apply inv_estabh; [done|congruence..|]. by rewrite calls_app, Hc; apply calls_plain.
  - rewrite post_emit, app_nil_r. apply post_live; [|done].
    apply (inv_estabh 0 tr (set_desc s false)); eauto with sess.
Qed.

Lemma acked_post tr s m err d e : loose tr s -> dlg s = true -> terminated s <> 2 ->
  calls Early tr = Some Early -> post tr (acked s m err d e).
Proof.
  intros H Hd Ht Hc. unfold acked. rewrite post_emit.
  assert (loose (tr ++ [Ack (cseq m) d]) (set_established s true)) as H1
    by (apply loose_established; eauto with sess).
  destruct (_ || _) eqn:E; [by apply out_post|].
  apply orb_false_iff in E as [_ Ht0%negb_false_iff%Z.eqb_eq].
  destruct (loose_open _ _ H1 Ht0). apply (estabh_post _ (set_established s true)); try done.
  by rewrite calls_app, Hc.
Qed.

(** ** Responses *)

Lemma loops_bound l c loops l' : 0 <= Sipreg.ls_failc l <= 15 -> 200 <= c ->
  Sipreg.sip_request_loops l c = (loops, l') ->
  0 <= Sipreg.ls_failc l' <= 16 /\ (loops = false -> Sipreg.ls_failc l' <= 15).
Proof.
  intros Hl Hc E. pose proof (Sipreg.loops_failc l c Hl Hc) as H. rewrite E in H. simpl in H.
  split; [|apply H]. split; [apply H|]. revert E. unfold Sipreg.sip_request_loops.
  rewrite u32_small by lia. destruct (c <? 200); [intros [= _ <-]; lia|].
  destruct (c <? 300); [intros [= _ <-]; simpl; lia|].
  destruct (c <? 400); [intros [= _ <-]; simpl; lia|].
  destruct (_ || _); intros [= _ <-]; simpl; lia.
Qed.

Lemma loose_range tr s : loose tr s -> terminated s = 0 \/ terminated s = 1 \/ terminated s = 2.
Proof. intros [[] _]. done. Qed.

Lemma loose_set_dlg tr s : loose tr s -> req s = None -> loose tr (set_dlg s true).
Proof. intros [[] Hn] Hr. split; [|done]. split; simpl; try done. by rewrite Hr. Qed.

Lemma early tr k s : inv k tr s -> uh s = true -> established s = false -> calls Early tr = Some Early.
Proof. intros [] Hu He. destruct i_calls0 as (p&Hp&Hc). destruct (Hc Hu) as [_ Hpe]. by rewrite Hp, (Hpe He). Qed.

(** After a call of a handler of a session that is not established, or of none. *)
Lemma acked_asked tr s h m e (f : given -> bool) : loose tr s -> dlg s = true -> terminated s <> 2 ->
  established s = false -> h_drop e = false ->
  match h with Closeh _ => False | Estabh => False | _ => True end ->
  post tr (ask s h e (fun err d s => acked s m err (f d) e)).
Proof.
  intros H Hd Ht He Hh Hk. destruct (uh s) eqn:Eu.
  - pose proof (early _ _ _ (proj1 H) Eu He) as Hc. apply ask_post; [done..|].
    intros err d tr' H' Hc'. apply acked_post; auto.
  - unfold ask. rewrite Eu. unfold acked. rewrite post_emit.
    assert (loose (tr ++ [Ack (cseq m) (f Untouched)]) (set_established s true)) as H1
      by (apply loose_established; eauto with sess).
    assert (terminated s <> 0) as Ht0.
    { intros E. destruct H as [[] _]. destruct (i_open0 E). congruence. }
    rewrite orb_comm. simpl. destruct (Z.eqb_spec (terminated s) 0); [done|]. simpl.
    by apply out_post.
Qed.

Lemma invite_success_post tr s m e : loose tr s -> req s = None -> terminated s <> 2 ->
  established s = false -> h_drop e = false -> post tr (invite_success s m e).
Proof.
  intros H Hr Ht He Hd. unfold invite_success.
  destruct (Z.eqb_spec (create_err e) 0); simpl; [|by apply out_post].
  pose proof (loose_set_dlg _ _ H Hr) as H1. destruct (sent_offer s).
  - by apply (acked_asked tr (set_dlg s true) Answerh m e (fun _ => false)).
  - apply (acked_asked tr (set_modify_pending (set_dlg s true) false) Offerh m e is_desc);
      eauto with sess.
Qed.

Lemma invite_final_post tr s x e : loose tr s -> req s = None -> terminated s <> 2 ->
  dlg s = false -> established s = false -> h_drop e = false ->
  final scode x = true -> Sipreg.ls_failc (ls s) <= 15 -> post tr (invite_resp_handler s x e).
Proof.
  intros H Hr Ht Hd He Hdr Hf Hls. unfold invite_resp_handler. destruct x as [err|m]; [by apply out_post|].
  simpl in Hf. apply Z.leb_le in Hf.
  destruct (Sipreg.sip_request_loops (ls s) (scode m)) as [loops l] eqn:El.
  destruct (loops_bound _ _ _ _ (conj (proj1 (i_ls _ _ _ (proj1 H))) Hls) Hf El) as [Hl1 Hl2].
  assert (loose tr (set_ls s l)) as H1 by (by apply loose_set_ls).
  destruct loops; [by apply out_post|].
  destruct (Z.ltb_spec (scode m) 200); [lia|].
  destruct (scode m <? 300); [by apply invite_success_post|].
  change (terminated (set_ls s l)) with (terminated s).
  destruct (Z.eqb_spec (terminated s) 0) as [E|E]; cbn [negb];
    [|by destruct (scode m <? 400); apply out_post].
  destruct (scode m <? 400); [|destruct (_ || _); [|by apply out_post]].
  - destruct (Z.eqb_spec (update_err e) 0); cbn [negb]; [|by apply out_post].
    apply invite_again_post; simpl; auto.
  - destruct (Z.eqb_spec (auth_err e) 0); cbn [negb]; [|by apply out_post].
    apply invite_again_post; simpl; auto.
Qed.

Lemma loops_provisional l c : c < 200 -> Sipreg.sip_request_loops l c = (false, l).
Proof. intros H. unfold Sipreg.sip_request_loops. by destruct (Z.ltb_spec c 200); [|lia]. Qed.

Lemma set_ls_same s : set_ls s (ls s) = s.
Proof. by destruct s. Qed.

Lemma post_call tr s h : inv 0 tr s -> 0 < nrefs s ->
  match h with Closeh _ => False | Estabh => False | _ => True end ->
  post tr (Some (Live s, call s h)).
Proof.
  intros H Hn Hh. apply post_live; [|done]. unfold call. destruct (uh s) eqn:Eu.
  - apply inv_call; [done| |done]. destruct (Z.eq_dec (terminated s) 0); [done|].
    destruct H. destruct (i_closed0 n). congruence.
  - by rewrite app_nil_r.
Qed.

Lemma invite_provisional_post tr s m e : inv 0 tr s -> 0 < nrefs s -> scode m < 200 ->
  post tr (invite_resp_handler s (inr m) e).
Proof.
  intros H Hn Hs. unfold invite_resp_handler. rewrite loops_provisional, set_ls_same by done.
  destruct (Z.ltb_spec (scode m) 200); [|lia]. by apply post_call.
Qed.

Lemma reinvite_post tr s e : inv 0 tr s -> 0 < nrefs s -> terminated s = 0 ->
  post tr (let '(_, s, a) := sipsess_reinvite s true e in Some (Live s, a)).
Proof.
  intros H Hn Ht. destruct (sipsess_reinvite s true e) as [[err s'] a] eqn:E.
  destruct (sipsess_reinvite_inv tr s true e err s' a H Ht ltac:(done) E) as (H'&Ha&[]). apply post_live; [done|lia].
Qed.

Lemma reinvite_out_post tr s err e : loose tr s -> post tr (reinvite_out s err e).
Proof.
  intros H. unfold reinvite_out. destruct (Z.eqb_spec (terminated s) 0) as [Ht|Ht]; simpl.
  - destruct (loose_open _ _ H Ht) as [H0 Hn].
    destruct (err =? ETIMEDOUT); [by apply sipsess_terminate_post|].
    destruct (modify_pending s); [by apply reinvite_post|]. apply post_here; eauto with sess.
  - destruct (loose_over _ _ H Ht). by apply mem_deref_post.
Qed.

Lemma start_post tr s now d : inv 0 tr s -> 0 < nrefs s -> terminated s = 0 ->
  post tr (Some (Live (start now s d), [])).
Proof. intros H Hn Ht. apply post_here; [|done]. by apply inv_set_tmr; [|left]. Qed.

Lemma reinvite_refused_post tr now s m e : loose tr s -> terminated s = 0 ->
  Sipreg.ls_failc (ls s) <= 15 -> post tr (reinvite_refused now s m e).
Proof.
  intros H Ht Hls. unfold reinvite_refused. destruct (loose_open _ _ H Ht) as [H0 Hn].
  destruct (_ || _).
  { destruct (negb (auth_err e =? 0)); [by apply reinvite_out_post|].
    destruct (sipsess_reinvite s false e) as [[err s'] a] eqn:E.
    destruct (sipsess_reinvite_inv tr s false e err s' a H0 Ht ltac:(done) E) as (H'&Ha&[]).
    rewrite post_emit. destruct (negb (err =? 0)); [|apply post_here; [done|lia]].
    apply reinvite_out_post. rewrite Ht in *. split; [|lia]. by rewrite sa_term0. }
  destruct (_ || _); [by apply sipsess_terminate_post|].
  destruct (scode m =? 491); [by apply start_post|].
  destruct (scode m =? 500); [|by apply reinvite_out_post].
  destruct (retry_after m); [by apply start_post|by apply reinvite_out_post].
Qed.

Lemma reinvite_final_post tr now s x e : loose tr s -> req s = None -> h_drop e = false ->
  final scode x = true -> Sipreg.ls_failc (ls s) <= 15 -> post tr (reinvite_resp_handler now s x e).
Proof.
  intros H Hr Hdr Hf Hls. unfold reinvite_resp_handler. destruct x as [err|m]; [by apply reinvite_out_post|].
  simpl in Hf. apply Z.leb_le in Hf.
  destruct (Sipreg.sip_request_loops (ls s) (scode m)) as [loops l] eqn:El.
  destruct (loops_bound _ _ _ _ (conj (proj1 (i_ls _ _ _ (proj1 H))) Hls) Hf El) as [Hl1 Hl2].
  assert (loose tr (set_ls s l)) as H1 by (by apply loose_set_ls).
  destruct loops; [by apply reinvite_out_post|].
  destruct (Z.ltb_spec (scode m) 200); [lia|].
  destruct (scode m <? 300).
  - destruct (sent_offer _); (apply ask_post; [eauto with sess|done|done|]);
      intros err d tr' H' _; rewrite post_emit; apply reinvite_out_post; eauto with sess.
  - destruct (Z.eqb_spec (terminated (set_ls s l)) 0); cbn [negb]; [|by apply reinvite_out_post].
    apply reinvite_refused_post; auto.
Qed.

Lemma sipsess_bye_inv tr s e err s' a : loose tr s -> req s = None -> terminated s = 2 ->
  established s = true -> Sipreg.ls_failc (ls s) <= 15 ->
  sipsess_bye s false e = (err, s', a) ->
  post tr (emit a (if negb (err =? 0) then mem_deref s' e else Some (Live s', []))).
Proof.
  intros H Hr Ht He Hls. destruct (loose_over _ _ H) as [H1 Hn]; [lia|].
  unfold sipsess_bye. rewrite Hr. simpl. intros [= <- <- <-]. rewrite post_emit.
  assert (loose (tr ++ [Send Bye false (bye_err e)]) s) as H2.
  { split; [|done]. rewrite Ht. simpl. destruct H1. split; try done.
    - destruct i_calls0 as (p&Hp&Hc). exists p. by rewrite calls_app, Hp.
    - intros _ _ _. apply byed_app. right. apply byed_send. }
  destruct (Z.eqb_spec (bye_err e) 0); cbn [negb].
  - apply post_here; [|done]. apply (loose_request _ s Bye); auto.
  - destruct (loose_over _ _ H2); [lia|]. by apply mem_deref_post.
Qed.

Lemma bye_final_post tr s x e : loose tr s -> req s = None -> terminated s = 2 ->
  established s = true -> final id x = true -> Sipreg.ls_failc (ls s) <= 15 ->
  post tr (bye_resp_handler s x e).
Proof.
  intros H Hr Ht He Hf Hls. destruct (loose_over _ _ H) as [H1 Hn]; [lia|]. unfold bye_resp_handler.
  destruct x as [err|c]; [by apply mem_deref_post|]. simpl in Hf. apply Z.leb_le in Hf. unfold id in Hf.
  destruct (Sipreg.sip_request_loops (ls s) c) as [loops l] eqn:El.
  destruct (loops_bound _ _ _ _ (conj (proj1 (i_ls _ _ _ (proj1 H))) Hls) Hf El) as [Hl1 Hl2].
  assert (loose tr (set_ls s l)) as H2 by (by apply loose_set_ls).
  destruct (loose_over _ _ H2) as [H3 _]; [simpl; lia|].
  assert (post tr (mem_deref (set_ls s l) e)) as Hd by (by apply mem_deref_post).
  destruct loops; [done|]. destruct (Z.ltb_spec c 200); [lia|]. destruct (c <? 300); [done|].
  destruct (peerterm _); [done|]. destruct (_ || _); [|done].
  destruct (negb (auth_err e =? 0)); [done|].
  destruct (sipsess_bye (set_ls s l) false e) as [[err s'] a] eqn:E.
  apply (sipsess_bye_inv tr (set_ls s l) e); auto.
Qed.

(** ** Responses to INVITEs and their acknowledgement *)

Lemma has_replies tr k s r : inv k tr s -> r ∈ replyl s -> dlg s = true /\ terminated s <> 2.
Proof.
  intros [] Hr. split.
  - destruct (dlg s); [done|]. destruct (i_dlg0 eq_refl) as (_&E&_). rewrite E in Hr.
    by apply not_elem_of_nil in Hr.
  - intros Ht. destruct (i_over0 Ht) as (E&_). rewrite E in Hr. by apply not_elem_of_nil in Hr.
Qed.

Lemma replyl_inv tr s l r : inv 0 tr s -> r ∈ replyl s -> Forall reply_ok l ->
  inv (if (terminated s =? 0) || nonempty l then 0 else 1) tr (set_replyl s l).
Proof.
  intros H Hr Hl. destruct (has_replies _ _ _ _ H Hr) as [Hd Ht]. destruct H.
  split; simpl; try done; [|intros E; destruct (i_open0 E) as [? Ho]; split; [done|]; intros Es|by rewrite Hd].
  2: { destruct (Ho Es) as [_ El]. rewrite El in Hr. by apply not_elem_of_nil in Hr. }
  unfold busy in *. simpl in *. destruct (replyl s); [by apply not_elem_of_nil in Hr|]. simpl in *.
  destruct (terminated s =? 0), (nonempty l); simpl; lia.
Qed.

Lemma expiry_small now d : 0 <= now <= clock_max -> 0 <= d <= 4294967296 -> expiry now d = d + now.
Proof. unfold expiry, clock_max, Ctrans.clock_max. intros. apply u64_small. lia. Qed.

Lemma sipsess_reply_2xx_inv tr now s m c d e err s' a : inv 0 tr s -> terminated s = 0 ->
  dlg s = true -> 0 <= now <= clock_max -> 200 <= c ->
  sipsess_reply_2xx now s m c d e = (err, s', a) ->
  inv 0 (tr ++ a) s' /\ nrefs s' = nrefs s /\ terminated s' = 0.
Proof.
  intros H Ht Hd Hn Hc. unfold sipsess_reply_2xx.
  destruct (reply_mem e); simpl.
  2: { intros [= <- <- <-]. rewrite app_nil_r. split; [|done]. apply inv_set_st; auto. }
  destruct (reply_err e =? 0); simpl.
  2: { intros [= <- <- <-]. split; [|done]. apply inv_plain; [|done]. apply inv_set_st; auto. }
  intros [= <- <- <-]. destruct (Z.ltb_spec c 200); [lia|].
  set (r := mk_reply _ _ _ _ _).
  assert (reply_ok r) as Hr.
  { split; [done|]. exists now. simpl. unfold SIP_T1, Ctrans.SIP_T1. rewrite !expiry_small by lia. lia. }
  assert (inv 0 (tr ++ [Reply c]) (set_replyl (set_st s false) (replyl s ++ [r]))) as H1.
  { apply inv_plain; [|done]. destruct H. split; simpl; try done.
    - rewrite Ht in *. done.
    - intros E. destruct (i_open0 E). by split.
    - lia.
    - by rewrite Hd.
    - apply Forall_app. auto. }
  destruct (_ && d); (split; [|done]); eauto with sess.
Qed.

Lemma reply_tmr_post tr s i e r : inv 0 tr s -> 0 < nrefs s -> replyl s !! i = Some r ->
  post tr (reply_tmr_handler s i e).
Proof.
  intros H Hn Hr. unfold reply_tmr_handler.
  pose proof (list_elem_of_lookup_2 _ _ _ Hr) as Hin. destruct (has_replies _ _ _ _ H Hin) as [Hd Ht].
  assert (Forall reply_ok (delete i (replyl s))) as Hl
    by (apply Forall_delete; apply (i_replies _ _ _ H)).
  pose proof (replyl_inv _ _ _ _ H Hin Hl) as H1.
  change (replyl (set_replyl s ?l)) with l.
  destruct (nonempty (delete i (replyl s))) eqn:E; rewrite ?orb_true_r, ?orb_false_r in H1;
    [by apply post_here|].
  apply (out_post tr (set_established (set_replyl s (delete i (replyl s))) true) ETIMEDOUT e).
  by apply loose_established.
Qed.

Lemma retransmit_post tr now s i r : inv 0 tr s -> 0 < nrefs s -> replyl s !! i = Some r ->
  r_tmrg r <= now -> r_tmrg r <= r_tmr r -> 0 <= now <= clock_max ->
  post tr (retransmit_handler now s i).
Proof.
  intros H Hn Hr Hg Hgt Hnow. unfold retransmit_handler. rewrite Hr.
  pose proof (list_elem_of_lookup_2 _ _ _ Hr) as Hin.
  pose proof (i_replies _ _ _ H) as Hall.
  destruct (proj1 (Forall_forall _ _) Hall r Hin) as (Hx&t&Ht&He).
  assert (r_txc r <= 9) as Htx.
  { destruct (Z.le_gt_cases (r_txc r) 9); [done|].
    pose proof (Ctrans.earliest_mono 10 (Z.to_nat (r_txc r)) ltac:(lia)) as Hm.
    change (Ctrans.earliest 10) with 35500 in Hm. lia. }
  rewrite u32_small, Ctrans.shl_T1_ok by lia. cbn [mbind option_bind].
  assert (0 < 2 ^ (r_txc r + 1)) by (apply Z.pow_pos_nonneg; lia).
  set (r' := mk_reply _ _ _ _ _). apply post_live; [|done]. apply inv_plain; [|done].
  assert (Forall reply_ok (<[i := r']> (replyl s))) as Hl.
  { apply Forall_insert; [done|]. split; [simpl; lia|]. exists t. simpl. split; [done|].
    unfold SIP_T2, Ctrans.SIP_T1, Ctrans.SIP_T2. rewrite expiry_small by lia.
    replace (Z.to_nat (r_txc r + 1)) with (S (Z.to_nat (r_txc r))) by lia. cbn [Ctrans.earliest].
    unfold Ctrans.SIP_T1, Ctrans.SIP_T2.
    replace (Z.of_nat (S (Z.to_nat (r_txc r)))) with (r_txc r + 1) by lia. lia. }
  pose proof (replyl_inv _ _ _ _ H Hin Hl) as H1.
  assert (nonempty (<[i := r']> (replyl s)) = true) as E
    by (destruct (replyl s); [done|by destruct i]).
  by rewrite E, orb_true_r in H1.
Qed.

Lemma cancel_post tr s e : inv 0 tr s -> 0 < nrefs s -> st s = true -> post tr (cancel_handler s e).
Proof.
  intros H Hn Hs. unfold cancel_handler.
  assert (terminated s = 0) as Ht.
  { destruct (Z.eq_dec (terminated s) 0); [done|]. destruct (i_closed _ _ _ H n) as (_&?&_). congruence. }
  destruct (treply s 487 (reply_err e)) as [[err s'] a] eqn:E.
  destruct (treply_inv 0 tr s 487 _ _ _ _ H Hs E) as (H'&Hn'&Ht').
  rewrite post_emit. change (terminated (set_peerterm s' true)) with (terminated s').
  rewrite Ht', Ht. simpl. apply sipsess_terminate_post; [eauto with sess|]. simpl. lia.
Qed.

Lemma reply_ack_spec l seq aw l' : reply_ack l seq = Some (aw, l') ->
  exists r, r ∈ l /\ r_seq r = seq /\ r_awaiting r = aw /\ length l = S (length l') /\
    (Forall reply_ok l -> Forall reply_ok l').
Proof.
  revert l'. induction l as [|r l IH]; intros l'; [done|]. simpl.
  destruct (Z.eqb_spec seq (r_seq r)) as [->|].
  - intros [= <- <-]. exists r. split_and!; try done; [by left|]. by intros [? ?]%Forall_cons_1.
  - destruct (reply_ack l seq) as [[aw' l0]|]; [|done]. simpl. intros [= -> <-].
    destruct (IH l0 eq_refl) as (r'&Hin&?&?&Hl&Hf). exists r'. split_and!; try done; [by right|simpl; lia|].
    intros [? ?]%Forall_cons_1. constructor; auto.
Qed.

Lemma ack_accepted_post tr s err e : inv 0 tr s -> 0 < nrefs s -> terminated s = 0 -> dlg s = true ->
  st s = false ->
  (established s = false -> calls Early tr = Some Early) -> post tr (ack_accepted s err e).
Proof.
  intros H Hn Ht Hd Hst Hc. unfold ack_accepted.
  set (b := modify_pending s && _).
  assert (exists s' a, (if b then let '(_, s, a) := sipsess_reinvite s true e in (s, a) else (s, [])) = (s', a) /\
    inv 0 (tr ++ a) s' /\ same s s' /\ forallb plain a = true) as (s'&a&->&H'&[]&Ha).
  { destruct b.
    - destruct (sipsess_reinvite s true e) as [[x s'] a] eqn:E.
      destruct (sipsess_reinvite_inv tr s true e x s' a H Ht ltac:(done) E) as (?&?&?). eauto 6.
    - exists s, []. rewrite app_nil_r. by split_and!. }
  rewrite post_emit. destruct (established s') eqn:Ee; [by apply post_here; [|lia]|].
  destruct (loose_established (tr ++ a) s') as [H1 Hn1]; [|congruence|lia|].
  { split; [|lia]. by rewrite sa_term0, Ht. }
  change (terminated (set_established s' true)) with (terminated s') in H1.
  rewrite sa_term0, Ht in H1. simpl in H1.
  assert (inv 0 (tr ++ a) (set_established (set_msg s' None) true)) as H2.
  { destruct H1. split; simpl in *; try done. intros E. destruct (i_open0 E). split; [done|]. rewrite sa_st0. congruence. }
  destruct (negb (err =? 0)); [by apply sipsess_terminate_post|].
  apply post_live; [|simpl; lia].
  apply (inv_estabh 0 (tr ++ a) (set_established (set_msg s' None) true)); [done|simpl; congruence|done|].
  rewrite calls_app, Hc by congruence. by apply calls_plain.
Qed.

Lemma ack_post tr s seq e : inv 0 tr s -> 0 < nrefs s -> h_drop e = false ->
  post tr (ack_handler s seq e).
Proof.
  intros H Hn Hdr. unfold ack_handler.
  destruct (reply_ack (replyl s) seq) as [[aw l]|] eqn:E; [|by apply post_here].
  destruct (reply_ack_spec _ _ _ _ E) as (r&Hin&_&_&Hlen&Hf).
  destruct (has_replies _ _ _ _ H Hin) as [Hd Ht2].
  pose proof (replyl_inv _ _ _ _ H Hin (Hf (i_replies _ _ _ H))) as H1.
  change (terminated (set_replyl s l)) with (terminated s).
  destruct (Z.eqb_spec (terminated s) 0) as [Ht|Ht]; cbn [negb orb] in *.
  - assert (st s = false) as Hst.
    { destruct (st s) eqn:Es; [|done]. destruct (proj2 (i_open _ _ _ H Ht) Es) as [_ El].
      rewrite El in Hin. by apply not_elem_of_nil in Hin. }
    pose proof (proj1 (i_open _ _ _ H Ht)) as Hu.
    assert (established s = false -> calls Early tr = Some Early) as Hc by (intros; by eapply early).
    destruct aw.
    + apply ask_post; [|done|done|].
      * split; [|done]. simpl. rewrite Ht. simpl. eauto with sess.
      * intros err _ tr' H' Hc'. destruct (loose_open _ _ H' Ht). apply ack_accepted_post; auto.
    + by apply ack_accepted_post.
  - change (replyl (set_replyl s l)) with l. destruct (nonempty l); [by apply post_here|].
    destruct (loose_established tr (set_replyl s l)) as [H2 Hn2]; [|done..|].
    { split; [|done]. simpl. by destruct (Z.eqb_spec (terminated s) 0). }
    simpl in H2. destruct (Z.eqb_spec (terminated s) 0); [done|]. by apply mem_deref_post.
Qed.

(** ** Requests of the peer *)

Lemma bye_handler_post tr s b e : inv 0 tr s -> 0 < nrefs s -> post tr (bye_handler s b e).
Proof.
  intros H Hn. unfold bye_handler. destruct b; simpl; [|apply post_live; [by apply inv_plain|done]].
  rewrite post_emit. destruct (Z.eqb_spec (terminated s) 0) as [Ht|Ht]; cbn [negb];
    [|apply post_here; eauto with sess].
  set (s0 := set_peerterm s true).
  assert (inv 0 (tr ++ [Reply 200]) s0) as H0 by (unfold s0; eauto with sess).
  change (st s) with (st s0). destruct (st s0) eqn:Es.
  - destruct (treply s0 487 (reply_err e)) as [[err s'] a] eqn:E.
    destruct (treply_inv _ _ _ _ _ _ _ _ H0 Es E) as (H'&Hn'&Ht').
    rewrite post_emit. apply sipsess_terminate_post; [done|]. simpl in Hn'. lia.
  - rewrite post_emit, app_nil_r. by apply sipsess_terminate_post.
Qed.

Lemma reinvite_handler_post tr now s m b e : inv 0 tr s -> 0 < nrefs s -> dlg s = true ->
  0 <= now <= clock_max -> h_drop e = false -> ~ crashes s (EvReinvite m b) e ->
  post tr (reinvite_handler now s m b e).
Proof.
  intros H Hn Hd Hnow Hdr Hcr. simpl in Hcr. unfold reinvite_handler.
  assert (forall c, post tr (Some (Live s, [Reply c]))) as Hp
    by (intros; apply post_live; [by apply inv_plain|done]).
  destruct (Z.eqb_spec (terminated s) 0) as [Ht|]; cbn [negb]; [|done].
  destruct b; cbn [negb]; [|done]. destruct (_ || _) eqn:Eor; [done|]. destruct (req s) eqn:Er; [apply Hp|]. cbn [isset].
  pose proof (proj1 (i_open _ _ _ H Ht)) as Hu. unfold ask. rewrite Hu, post_emit. unfold andthen, app_drop. rewrite Hdr.
  cbn [andb mbind option_bind]. rewrite post_emit, app_nil_r.
  assert (inv 0 (tr ++ [Call Offerh]) s) as H1 by by apply inv_call.
  destruct (Z.eqb_spec (h_err e) 0) as [Eh|]; cbn [negb]; [|apply post_live; [by apply inv_plain|done]].
  assert (post (tr ++ [Call Offerh]) (let '(_, s, a) := sipsess_reply_2xx now s m 200 (is_desc (h_desc e)) e in
    Some (Live (set_tmr (set_modify_pending (set_desc s false) false) None), a))) as Hok.
  { destruct (sipsess_reply_2xx now s m 200 (is_desc (h_desc e)) e) as [[x s'] a] eqn:E.
    destruct (sipsess_reply_2xx_inv (tr ++ [Call Offerh]) now s m 200 (is_desc (h_desc e)) e x s' a) as (H2&Hn2&Ht2); try done.
    apply post_live; [|simpl; lia]. apply inv_set_tmr; [|auto]. eauto with sess. }
  destruct (h_desc e) eqn:Ed; [|done..]. exfalso. by apply Hcr.
Qed.

Lemma called_post tr s h : inv 0 tr s -> 0 < nrefs s -> terminated s = 0 ->
  match h with Closeh _ => False | Estabh => False | _ => True end ->
  post tr (Some (Live s, [Call h])).
Proof. intros. apply post_live; [|done]. by apply inv_call. Qed.

Lemma info_handler_post tr s b : inv 0 tr s -> 0 < nrefs s -> post tr (info_handler s b).
Proof.
  intros H Hn. unfold info_handler.
  assert (forall c, post tr (Some (Live s, [Reply c]))) as Hp
    by (intros; apply post_live; [by apply inv_plain|done]).
  destruct (Z.eqb_spec (terminated s) 0) as [Ht|]; cbn [negb]; [|done].
  destruct b; cbn [negb]; [|done]. destruct (infoh s); cbn [negb]; [|done]. by apply called_post.
Qed.

Lemma refer_handler_post tr s b : inv 0 tr s -> 0 < nrefs s -> post tr (refer_handler s b).
Proof.
  intros H Hn. unfold refer_handler.
  assert (forall c, post tr (Some (Live s, [Reply c]))) as Hp
    by (intros; apply post_live; [by apply inv_plain|done]).
  destruct (Z.eqb_spec (terminated s) 0) as [Ht|]; cbn [negb]; [|done].
  destruct b; cbn [negb]; [|done]. destruct (referh s); cbn [negb]; [|done]. by apply called_post.
Qed.

(** ** INFO requests *)

Definition of_obj (o : obj) : sipsess := match o with Live s | Freed s => s end.

(** What terminating a session leaves alone: its requests. *)
Definition keeps (l : list loopstate) (m : res) : Prop :=
  forall o a, m = Some (o, a) -> requestl (of_obj o) = l.

Lemma keeps_some l o a : requestl (of_obj o) = l -> keeps l (Some (o, a)).
Proof. by intros ? ?? [= <- <-]. Qed.

Lemma keeps_emit l a m : keeps l m -> keeps l (emit a m).
Proof. intros H o b. unfold emit. destruct m as [[o' b']|]; [|done]. simpl. intros [= <- <-]. by eapply H. Qed.

Lemma treply_keeps s c err e s' a : treply s c err = (e, s', a) -> requestl s' = requestl s.
Proof. unfold treply. destruct (negb _); [by intros [= _ <- _]|]. by destruct (negb _); intros [= _ <- _]. Qed.

Lemma wait_if_keeps b w s w' s' : wait_if b (w, s) = (w', s') -> requestl s' = requestl s.
Proof. unfold wait_if. by destruct b; intros [= _ <-]. Qed.

Lemma termwait_keeps s e w s' a : termwait s e = (w, s', a) -> requestl s' = requestl s.
Proof.
  unfold termwait. set (s0 := set_tmr _ None). change (requestl s) with (requestl s0).
  destruct (if st s0 then _ else _) as [[x s1] a1] eqn:E1.
  assert (requestl s1 = requestl s0) as <-.
  { destruct (st s0); [by eapply treply_keeps|by injection E1 as _ <- _]. }
  destruct (wait_if _ (false, s1)) as [w1 s2] eqn:E2. destruct (wait_if _ (w1, s2)) as [w2 s3] eqn:E3.
  destruct (wait_if _ (w2, s3)) as [w3 s4] eqn:E4. intros [= _ <- _].
  apply wait_if_keeps in E2, E3, E4. congruence.
Qed.

Lemma terminate_keeps s e w s' a : terminate s e = (w, s', a) -> requestl s' = requestl s.
Proof.
  unfold terminate, sipsess_bye. simpl. destruct (_ || _); [by intros [= _ <- _]|].
  destruct (isset (req s)); [by intros [= _ <- _]|].
  destruct (bye_err e =? 0) eqn:E; rewrite ?E; simpl; by intros [= _ <- _].
Qed.

Lemma release_keeps s : keeps (requestl s) (release s).
Proof. unfold release. intros o a. destruct (nonempty _); [done|]. by intros [= <- <-]. Qed.

Lemma mem_deref_keeps s e : keeps (requestl s) (mem_deref s e).
Proof.
  unfold mem_deref. set (s0 := set_nrefs s _). change (requestl s) with (requestl s0).
  destruct (0 <? _); [by apply keeps_some|]. unfold destructor.
  assert (forall s0, keeps (requestl s0) (let '(w, s, a) := terminate s0 e in
    emit a (if w then Some (Live s, []) else release s))) as Hc.
  { intros s1. destruct (terminate s1 e) as [[w s2] a] eqn:E. rewrite <- (terminate_keeps _ _ _ _ _ E).
    apply keeps_emit. destruct w; [by apply keeps_some|apply release_keeps]. }
  destruct (terminated s0 =? 0); [|destruct (terminated s0 =? 1); [apply Hc|apply release_keeps]].
  destruct (termwait s0 e) as [[w s1] a] eqn:E. rewrite <- (termwait_keeps _ _ _ _ _ E).
  apply keeps_emit. destruct w; [by apply keeps_some|apply Hc].
Qed.

Lemma app_drop_keeps b s e : keeps (requestl s) (app_drop b s e).
Proof. unfold app_drop. destruct (_ && _); [apply (mem_deref_keeps (set_app s false))|by apply keeps_some]. Qed.

Lemma sipsess_terminate_keeps s err e : keeps (requestl s) (sipsess_terminate s err e).
Proof.
  unfold sipsess_terminate. destruct (negb _); [by apply keeps_some|].
  destruct (termwait s e) as [[w s1] a] eqn:E. rewrite <- (termwait_keeps _ _ _ _ _ E).
  assert (exists s2 b, (if w then (s1, []) else let '(_, s, b) := terminate s1 e in (s, b)) = (s2, b) /\
    requestl s2 = requestl s1) as (s2&b&->&<-).
  { destruct w; [by do 2 eexists|]. destruct (terminate s1 e) as [[w s2] b] eqn:E2.
    exists s2, b. split; [done|by eapply terminate_keeps]. }
  apply keeps_emit. destruct (uh s); [|by apply keeps_some]. apply keeps_emit, app_drop_keeps.
Qed.

(** A session with requests is not freed: the code may go on to use it. *)
Lemma andthen_post tr l m k : post tr m -> keeps l m -> l <> [] ->
  (forall tr' s, inv 0 tr' s -> 0 < nrefs s -> requestl s = l -> post tr' (k s)) ->
  post tr (andthen m k).
Proof.
  intros Hm Hl Hne Hk. unfold andthen. destruct m as [[[s|s] a]|]; simpl; [..|done].
  - simpl in Hm. rewrite post_emit. apply Hk; [apply Hm..|]. by apply (Hl (Live s) a).
  - destruct Hm as (H&_&Ht). destruct (i_over _ _ _ H Ht) as (_&E&_).
    specialize (Hl (Freed s) a eq_refl). simpl in Hl. congruence.
Qed.

Lemma requestl_inv tr s l : inv 0 tr s -> requestl s <> [] ->
  inv (if (terminated s =? 0) || nonempty l then 0 else 1) tr (set_requestl s l).
Proof.
  intros [] Hr. split; simpl; try done.
  - unfold busy in *. simpl in *. destruct (requestl s); [done|]. simpl in *.
    destruct (terminated s =? 0), (nonempty l); simpl; lia.
  - intros E. destruct (i_over0 E) as (?&?&?). congruence.
  - intros E. destruct (i_dlg0 E) as (?&?&?). congruence.
Qed.

Lemma request_deref_post tr s i e : inv 0 tr s -> 0 < nrefs s -> requestl s <> [] ->
  post tr (request_deref s i e).
Proof.
  intros H Hn Hr. unfold request_deref.
  pose proof (requestl_inv tr s (delete i (requestl s)) H Hr) as H1.
  change (terminated (set_requestl s ?l)) with (terminated s).
  change (requestl (set_requestl s ?l)) with l.
  destruct (terminated s =? 0); cbn [orb negb andb] in *; [by apply post_here|].
  destruct (nonempty _); cbn [negb]; [by apply post_here|by apply mem_deref_post].
Qed.

Lemma info_out_post tr s i err e : inv 0 tr s -> 0 < nrefs s -> requestl s <> [] ->
  post tr (info_out s i err e).
Proof.
  intros H Hn Hr. unfold info_out.
  apply (andthen_post tr (requestl s)); [| |done|].
  - destruct (Z.eqb_spec (terminated s) 0) as [Ht|]; [|by apply post_here].
    destruct (err =? ETIMEDOUT); [by apply sipsess_terminate_post|].
    rewrite post_emit. apply app_drop_post; [|done]. by apply inv_call.
  - destruct (terminated s =? 0); [|by apply keeps_some].
    destruct (err =? ETIMEDOUT); [apply sipsess_terminate_keeps|apply keeps_emit, app_drop_keeps].
  - intros tr' s' H' Hn' E. apply request_deref_post; congruence.
Qed.

Lemma info_refused_post tr s i c e : inv 0 tr s -> 0 < nrefs s -> requestl s <> [] ->
  post tr (info_refused s i c e).
Proof.
  intros H Hn Hr. unfold info_refused. destruct (_ || _).
  - destruct (negb (auth_err e =? 0)); [by apply info_out_post|].
    rewrite post_emit. destruct (negb (send_err e =? 0)); [apply info_out_post|apply post_here]; eauto with sess.
  - destruct (_ || _); [|by apply info_out_post].
    apply (andthen_post tr (requestl s)); [by apply sipsess_terminate_post|apply sipsess_terminate_keeps|done|].
    intros tr' s' H' Hn' E. apply info_out_post; congruence.
Qed.

Lemma info_resp_post tr s i x e : inv 0 tr s -> 0 < nrefs s -> (i < length (requestl s))%nat ->
  post tr (info_resp_handler s i x e).
Proof.
  intros H Hn Hi. unfold info_resp_handler.
  destruct (lookup_lt_is_Some_2 _ _ Hi) as [l ->].
  assert (requestl s <> []) as Hr by (destruct (requestl s); simpl in Hi; [lia|done]).
  destruct x as [err|c]; [by apply info_out_post|].
  destruct (Sipreg.sip_request_loops l c) as [loops l'].
  set (s' := set_requestl s _).
  assert (requestl s' <> []) as Hr' by (unfold s'; simpl; destruct (requestl s); [done|by destruct i]).
  assert (inv 0 tr s') as H'.
  { pose proof (requestl_inv tr s (<[i := l']> (requestl s)) H Hr) as H1.
    change (<[i := l']> (requestl s)) with (requestl s') in H1. unfold s'.
    destruct (requestl s') eqn:E; [done|]. simpl in H1. rewrite orb_true_r in H1.
    unfold s' in E. simpl in E. by rewrite E. }
  destruct loops; [by apply info_out_post|]. destruct (c <? 200); [by apply post_here|].
  destruct (c <? 300); [by apply info_out_post|].
  destruct (negb _); [by apply info_out_post|by apply info_refused_post].
Qed.

Lemma sipsess_info_post tr s mem e : inv 0 tr s -> 0 < nrefs s ->
  post tr ('(_, o, a) ← sipsess_info s mem true e; Some (o, a)).
Proof.
  intros H Hn. unfold sipsess_info. destruct (Z.eqb_spec (terminated s) 0) as [Ht|]; cbn [negb];
    [|by apply post_here].
  destruct (dlg s) eqn:Ed; cbn [negb]; [|by apply post_here]. destruct mem; cbn [negb]; [|by apply post_here].
  set (s' := set_requestl s _).
  assert (inv 0 tr s') as H'.
  { destruct H. unfold s'. split; simpl; try done.
    - rewrite Ht in *. done.
    - lia.
    - by rewrite Ed. }
  assert (requestl s' <> []) as Hr by (unfold s'; simpl; by destruct (requestl s)).
  destruct (Z.eqb_spec (send_err e) 0); cbn [negb]; [by apply post_live; [apply inv_plain|]|].
  assert (post (tr ++ [Info (send_err e)]) (request_deref s' (length (requestl s)) e)) as Hp
    by (apply request_deref_post; eauto with sess).
  destruct (request_deref s' (length (requestl s)) e) as [[o a]|]; [|done].
  simpl in Hp. cbn [mbind option_bind]. destruct o; by rewrite <- (assoc_L (++)) in Hp.
Qed.

(** ** Every event *)

Lemma silent_post tr s err s' a : inv 0 (tr ++ a) s' -> nrefs s' = nrefs s -> 0 < nrefs s ->
  post tr (silent (err, s', a)).
Proof. intros H En Hn. apply post_live; [done|lia]. Qed.

Lemma response_post tr now s k x e : inv 0 tr s -> 0 < nrefs s -> req s = Some k ->
  reported scode x -> h_drop e = false -> post tr (handle now s (EvResponse k x) e).
Proof.
  intros H Hn Hr Hx Hd. simpl. pose proof H as [].
  assert (Sipreg.ls_failc (ls s) <= 15) as Hls by (rewrite Hr in i_ls0; simpl in i_ls0; lia).
  destruct (final scode x) eqn:Ef.
  - pose proof (loose_answered tr s k H Hn Hr) as Hl. destruct k.
    + pose proof (i_invite0 Hr) as Hdl. destruct (i_dlg0 Hdl) as (He&_).
      apply invite_final_post; try done. intros Ht. simpl in Ht.
      destruct (i_over0 Ht) as (_&_&[?|?]); congruence.
    + by apply reinvite_final_post.
    + destruct (i_bye0 Hr) as [Ht He]. apply bye_final_post; try done. by destruct x.
  - destruct x as [err|m]; [done|]. simpl in Ef. apply Z.leb_gt in Ef. destruct k.
    + by apply invite_provisional_post.
    + simpl. unfold reinvite_resp_handler. rewrite loops_provisional, set_ls_same by done.
      destruct (Z.ltb_spec (scode m) 200); [|lia]. by apply post_here.
    + simpl. unfold bye_resp_handler. rewrite loops_provisional, set_ls_same by done.
      destruct (Z.ltb_spec (scode m) 200); [|lia]. by apply post_here.
Qed.

Lemma modify_post tr s d e : inv 0 tr s -> 0 < nrefs s -> post tr (silent (sipsess_modify s d e)).
Proof.
  intros H Hn. unfold sipsess_modify. destruct (_ || _) eqn:E; [by apply post_here|].
  apply orb_false_iff in E as [_ Ht%negb_false_iff%Z.eqb_eq].
  destruct (_ || _ || _); [apply post_here; eauto with sess|].
  destruct (sipsess_reinvite (set_desc s d) true e) as [[err s'] a] eqn:E.
  destruct (sipsess_reinvite_inv tr (set_desc s d) true e err s' a) as (H'&Ha&[]); eauto with sess; [done|].
  by apply (silent_post tr (set_desc s d)).
Qed.

Lemma provisional_post tr s c e : inv 0 tr s -> 0 < nrefs s -> post tr (silent (sipsess_progress s c e)).
Proof.
  intros H Hn. unfold sipsess_progress. destruct (_ || _) eqn:E; [by apply post_here|].
  rewrite !orb_false_iff in E. destruct E as (((Hs%negb_false_iff&_)&_)&_).
  destruct (treply s c (reply_err e)) as [[err s'] a] eqn:Et.
  destruct (treply_inv 0 tr s c _ _ _ _ H Hs Et) as (H'&Hn'&_). by apply (silent_post tr s).
Qed.

Lemma reject_post tr s c e : inv 0 tr s -> 0 < nrefs s -> post tr (silent (sipsess_reject s c e)).
Proof.
  intros H Hn. unfold sipsess_reject. destruct (_ || _) eqn:E; [by apply post_here|].
  rewrite !orb_false_iff in E. destruct E as ((Hs%negb_false_iff&_)&_).
  destruct (treply s c (reply_err e)) as [[err s'] a] eqn:Et.
  destruct (treply_inv 0 tr s c _ _ _ _ H Hs Et) as (H'&Hn'&_). by apply (silent_post tr s).
Qed.

Lemma answer_post tr now s c d e : inv 0 tr s -> 0 < nrefs s -> 0 <= now <= clock_max ->
  post tr (silent (sipsess_answer now s c d e)).
Proof.
  intros H Hn Hnow. unfold sipsess_answer. destruct (msg s) as [m|]; [|by apply post_here].
  destruct (_ || _) eqn:E; [by apply post_here|].
  rewrite !orb_false_iff in E. destruct E as ((Hs%negb_false_iff&Hc%Z.ltb_ge)&_).
  assert (terminated s = 0) as Ht.
  { destruct (Z.eq_dec (terminated s) 0); [done|]. destruct (i_closed _ _ _ H n) as (_&?&_). congruence. }
  destruct (sipsess_reply_2xx now s m c d e) as [[err s'] a] eqn:Et.
  destruct (sipsess_reply_2xx_inv tr now s m c d e err s' a) as (H'&Hn'&_); try done.
  { by apply (i_st _ _ _ H). }
  by apply (silent_post tr s).
Qed.

Lemma handle_post tr now s ev e : inv 0 tr s -> 0 < nrefs s -> enabled now s ev ->
  h_drop e = false -> ~ crashes s ev e -> 0 <= now <= clock_max -> post tr (handle now s ev e).
Proof.
  intros H Hn Hen Hd Hcr Hnow. destruct ev; simpl in Hen.
  - destruct Hen. by apply response_post.
  - destruct Hen. by apply info_resp_post.
  - destruct Hen as (t&Ht&_). apply (reinvite_post tr (set_tmr s None)); [by apply inv_set_tmr; [|right]|done|].
    destruct (Z.eq_dec (terminated s) 0); [done|]. destruct (i_closed _ _ _ H n) as (_&_&?). congruence.
  - destruct Hen as (r&Hr&_). by eapply reply_tmr_post.
  - destruct Hen as (r&Hr&Hle&Hgt). by eapply retransmit_post.
  - by apply cancel_post.
  - by apply ack_post.
  - by apply bye_handler_post.
  - by apply reinvite_handler_post.
  - by apply info_handler_post.
  - by apply refer_handler_post.
  - apply mem_deref_post; [by apply app_deref_inv|done].
  - by apply modify_post.
  - by apply provisional_post.
  - by apply answer_post.
  - by apply reject_post.
  - destruct ctype_mem; [by apply sipsess_info_post|]. simpl. unfold sipsess_info.
    destruct (Z.eqb_spec (terminated s) 0) as [Ht|]; cbn [negb]; [|by apply post_here].
    destruct (dlg s) eqn:Ed; cbn [negb]; [|by apply post_here]. destruct mem; cbn [negb]; [|by apply post_here].
    exfalso. by apply Hcr.
Qed.

Lemma crashes_none tr now s ev e : inv 0 tr s -> crashes s ev e -> h_drop e = false -> handle now s ev e = None.
Proof.
  intros H Hc Hd. destruct ev; try done; simpl in *.
  - destruct Hc as (Ht&->&Hst&Hr&He&Hx). unfold reinvite_handler. rewrite Ht, Hst, Hr. simpl.
    unfold ask. rewrite (proj1 (i_open _ _ _ H Ht)), Hd. simpl. by rewrite He, Hx.
  - destruct Hc as (Ht&Hdl&->&->). unfold sipsess_info. by rewrite Ht, Hdl.
Qed.

Lemma crashes_dec s ev e : crashes s ev e \/ ~ crashes s ev e.
Proof.
  destruct ev; simpl; try tauto.
  - destruct (decide (terminated s = 0)); [|tauto]. destruct rseq_ok; [|right; by intros (_&?&_)].
    destruct (st s || awaiting_answer s); [right; by intros (_&_&?&_)|]. destruct (req s); [right; by intros (_&_&_&?&_)|].
    destruct (decide (h_err e = 0)); [|tauto]. destruct (h_desc e); [by left|right; by intros (_&_&_&_&_&?)..].
  - destruct (decide (terminated s = 0)); [|tauto]. destruct (dlg s), mem, ctype_mem; try (right; by intros (_&?&?&?)). by left.
Qed.

(** An offer or answer handler that gives up the application's reference when the INVITE is
    accepted: the session is freed under the response handler. *)
Lemma accepted_drop tr now s m e : inv 0 tr s -> terminated s = 0 -> app s = true -> req s = Some Invite ->
  established s = false -> 200 <= scode m < 300 -> create_err e = 0 -> h_drop e = true ->
  handle now s (EvResponse Invite (inr m)) e = None.
Proof.
  intros H Ht Ha Hr Hes Hs Hc Hd. pose proof (proj1 (i_open _ _ _ H Ht)) as Hu. pose proof (i_invite _ _ _ H Hr) as Hdl.
  destruct (i_dlg _ _ _ H Hdl) as (_&Hrep&Hreq).
  assert (st s = false) as Hst by (destruct (st s) eqn:E; [|done]; apply (i_st _ _ _ H) in E; congruence).
  pose proof (i_refs _ _ _ H) as Hn. rewrite Ht, Ha in Hn. simpl in Hn.
  simpl. unfold final. rewrite (proj2 (Z.leb_le 200 (scode m))) by lia. unfold invite_resp_handler.
  unfold Sipreg.sip_request_loops. destruct (Z.ltb_spec (scode m) 200); [lia|]. destruct (Z.ltb_spec (scode m) 300); [|lia].
  unfold invite_success. rewrite Hc. cbn [negb Z.eqb].
  set (s1 := set_dlg (set_ls (set_req s None) _) true).
  assert (forall s0 h k, nrefs s0 = 1 -> uh s0 = true -> app s0 = true -> terminated s0 = 0 -> st s0 = false -> req s0 = None ->
    replyl s0 = [] -> requestl s0 = [] -> established s0 = false -> ask s0 h e k = None) as Hask.
  { intros s0 h k E1 E2 E3 E4 E5 E6 E7 E8 E9. unfold ask, app_drop. rewrite E2, Hd, E3. cbn [andb].
    unfold mem_deref. cbn [nrefs set_app]. rewrite E1. change (u32 (1 - 1)) with 0. cbn [Z.ltb Z.compare].
    unfold destructor. cbn [terminated set_nrefs set_app]. rewrite E4. cbn [Z.eqb].
    unfold termwait. cbn. rewrite E5. cbn. rewrite E6, E7, E8. cbn. unfold terminate. cbn. rewrite E9. cbn.
    unfold release. cbn. by rewrite E8. }
  destruct (sent_offer s1); by rewrite Hask by done.
Qed.

(** ** New sessions *)

Lemma alloc_inv own d info refer : inv 0 [] (sipsess_alloc own d info refer).
Proof.
  split; simpl; try done; try lia; auto.
  - by exists Early.
  - by intros [? ?%not_elem_of_nil].
Qed.

(** An error releases the session. *)
Lemma created_error err s e : err <> 0 -> nrefs s = 1 -> app s = true -> terminated s = 0 ->
  st s = false -> busy s = 0 -> established s = false ->
  exists s' a, created err s e = Some (err, Some (Freed s'), a).
Proof.
  intros He Hn Ha Ht Hs Hb Hes. unfold created. destruct (Z.eqb_spec err 0); [done|]. cbn [negb].
  unfold mem_deref. cbn [nrefs set_app]. rewrite Hn. change (u32 (1 - 1)) with 0. cbn [Z.ltb Z.compare].
  unfold destructor. cbn [terminated set_nrefs set_app]. rewrite Ht. cbn [Z.eqb].
  set (s0 := set_nrefs (set_app s false) 0).
  destruct (termwait_eq s0 e) as (a&->&_); [by simpl; rewrite Hs|simpl; lia|].
  change (busy s0) with (busy s). rewrite Hb. cbn [Z.ltb Z.compare].
  unfold terminate. cbn [established set_terminated terminating set_st set_tmr drop_handlers set_nrefs].
  change (established _) with (established s). rewrite Hes. simpl.
  unfold release. change (requestl _) with (requestl s). destruct (busy_none _ Hb) as (_&_&->). simpl.
  by do 2 eexists.
Qed.

Lemma created_live s e : created 0 s e = Some (0, Some (Live s), []).
Proof. done. Qed.

(** The result of creating a session: a session that satisfies the invariant, or none. *)
Definition created_ok (r : option (Z * option obj * list act)) : Prop :=
  match r with
  | Some (err, Some (Live s), a) => err = 0 /\ inv 0 a s /\ nrefs s = 1 /\ app s = true
  | Some (err, _, _) => err <> 0
  | None => False
  end.

Lemma connect_ok d info refer err0 e : created_ok (sipsess_connect d info refer err0 e).
Proof.
  unfold sipsess_connect. destruct (Z.eqb_spec err0 0) as [->|E]; cbn [negb].
  2: { destruct (created_error err0 (sipsess_alloc true d info refer) e) as (s'&a&->); done. }
  unfold invite. set (s0 := set_modify_pending _ _).
  assert (loose [Send Invite d (send_err e)] s0) as H0.
  { split; [|done]. simpl. unfold s0. apply (inv_plain 0 [] _ [_]); [|done].
    apply inv_set_modify_pending, inv_set_sent_offer, alloc_inv. }
  destruct (Z.eqb_spec (send_err e) 0) as [E|E].
  - rewrite E in *. simpl. split_and!; try done. by apply (loose_request _ s0 Invite); [| | |left].
  - destruct (created_error (send_err e) s0 e) as (s'&a&->); done.
Qed.

Lemma accept_ok now m c d info refer err0 dlg_err st_err e : 0 <= now <= clock_max ->
  created_ok (sipsess_accept now m c d info refer err0 dlg_err st_err e).
Proof.
  intros Hnow. unfold sipsess_accept. destruct (_ || _); [done|].
  destruct (Z.eqb_spec err0 0); cbn [negb];
    [|by destruct (created_error err0 (sipsess_alloc false false info refer) e) as (s'&a&->)].
  destruct (Z.eqb_spec dlg_err 0); cbn [negb];
    [|by destruct (created_error dlg_err (sipsess_alloc false false info refer) e) as (s'&a&->)].
  set (s1 := set_msg _ _).
  destruct (Z.eqb_spec st_err 0); cbn [negb];
    [|by destruct (created_error st_err s1 e) as (s'&a&->)].
  set (s2 := set_st s1 true).
  assert (inv 0 [] s2) as H2.
  { unfold s2, s1. destruct (alloc_inv false false info refer). by split. }
  destruct (Z.leb_spec 200 c).
  - pose proof (sipsess_reply_2xx_inv [] now s2 m c d e) as Hi.
    unfold sipsess_reply_2xx in *.
    destruct (reply_mem e); cbn [negb] in *; [|by destruct (created_error ENOMEM (set_st s2 false) e) as (s'&a&->)].
    destruct (Z.eqb_spec (reply_err e) 0) as [E|E]; cbn [negb] in *;
      [|by destruct (created_error (reply_err e) (set_st s2 false) e) as (s'&a&->)].
    destruct (Hi _ _ _ H2 eq_refl eq_refl Hnow H eq_refl) as (H'&Hn'&_).
    rewrite created_live. simpl. split_and!; [done|done|done|]. by destruct (_ && d).
  - unfold treply. cbn [isset msg negb s2 s1 set_st set_msg].
    destruct (Z.eqb_spec (reply_err e) 0) as [E|E]; cbn [negb];
      [|by destruct (created_error (reply_err e) (set_st s2 false) e) as (s'&a&->)].
    rewrite created_live. simpl. split_and!; try done. apply (inv_plain 0 [] _ [_]); [|done].
    apply inv_set_st; auto.
Qed.

(** ** Reachable sessions *)

Definition conf_ok (c : conf) : Prop :=
  0 <= clock c <= clock_max /\
  match block c with
  | Live s => inv 0 (trace c) s /\ 0 < nrefs s
  | Freed s => inv 0 (trace c) s /\ nrefs s = 0 /\ terminated s = 2
  end.

Lemma sess_reachable_ok c : reachable c -> conf_ok c.
Proof.
  induction 1 as [now d info refer e s acts Hnow E|now m sc d info refer e s acts Hnow E|
                  c ev c' _ [Hc IH] Hst].
  - pose proof (connect_ok d info refer 0 e) as H. rewrite E in H. destruct H as (_&H&Hn&_).
    split; [done|]. simpl. split; [done|lia].
  - pose proof (accept_ok now m sc d info refer 0 0 0 e Hnow) as H. rewrite E in H.
    destruct H as (_&H&Hn&_). split; [done|]. simpl. split; [done|lia].
  - destruct Hst as [c now s e o acts Hb Hnow Hen Hd Hh]. rewrite Hb in IH. destruct IH as [H Hn].
    assert (~ crashes s ev e) as Hcr by (intros Hx%(crashes_none (trace c) now); [congruence|done..]).
    pose proof (handle_post _ now s ev e H Hn Hen Hd Hcr ltac:(lia)) as Hp. rewrite Hh in Hp.
    split; [simpl; lia|]. simpl. by destruct o.
Qed.

(** C20: a session is never used after it was freed, and freed only when nothing refers to
    it any more, with the exceptions that are named here.  In a reachable session the
    reference count is exactly the application's reference and, once the session is
    terminated, one for each condition it waits for: a request, unacknowledged responses,
    INFO requests.  As long as the offer and the answer handler do not give up the
    application's reference while they are called, the handling of whatever can happen is
    undefined (a use of the freed block, its release while a request still points to it, a
    read through a null or an uninitialised pointer, a shift past the width of int) if and
    only if it is an INFO request whose content type cannot be copied, or a re-INVITE whose
    offer handler succeeds without storing a description.  And a handler that does give the
    reference up when the INVITE is accepted frees the session under its caller. *)
Theorem sess_no_dangling c s : reachable c -> block c = Live s ->
  nrefs s = Z.b2z (app s) + (if terminated s =? 0 then 0 else busy s) /\ 0 < nrefs s /\
  (forall now ev e, clock c <= now <= clock_max -> enabled now s ev -> h_drop e = false ->
    (handle now s ev e = None <-> crashes s ev e)) /\
  (forall now m e, req s = Some Invite -> terminated s = 0 -> app s = true -> 200 <= scode m < 300 ->
    create_err e = 0 -> h_drop e = true -> handle now s (EvResponse Invite (inr m)) e = None).
Proof.
  intros [Hc H]%sess_reachable_ok Hb. rewrite Hb in H. destruct H as [H Hn].
  split_and!; [by rewrite (i_refs _ _ _ H), Z.add_0_r|done| |].
  - intros now ev e Hnow Hen Hd. split; [|intros Hx; by apply (crashes_none (trace c) now s ev e)].
    intros E. destruct (crashes_dec s ev e) as [|Hcr]; [done|].
    pose proof (handle_post _ now s ev e H Hn Hen Hd Hcr ltac:(lia)) as Hp. by rewrite E in Hp.
  - intros now m e Hr Ht Ha Hs Hce Hd. eapply accepted_drop; try done.
    by destruct (i_dlg _ _ _ H (i_invite _ _ _ H Hr)).
Qed.

(** C21: what a freed session leaves behind.  It has no request, no response waiting for its
    ACK, no INFO request, no server transaction and no timer, and nobody holds it; if it was
    established and the peer did not end it, a BYE was sent or attempted, and no BYE was if
    it was never established. *)
Theorem sess_freed_clean c s : reachable c -> block c = Freed s ->
  app s = false /\ req s = None /\ replyl s = [] /\ requestl s = [] /\ st s = false /\ tmr s = None /\
  (established s = true -> peerterm s = false -> byed (trace c)) /\
  (established s = false -> ~ byed (trace c)).
Proof.
  intros [Hc H]%sess_reachable_ok Hb. rewrite Hb in H. destruct H as ([]&Hn&Ht).
  rewrite Ht in *. simpl in *. pose proof (busy_nonneg s).
  assert (busy s = 0) as Hb0 by (destruct (app s); simpl in *; lia).
  destruct (busy_none _ Hb0) as (?&?&?). destruct i_closed0 as (_&?&?); [done|].
  split_and!; auto.
  - destruct (app s); simpl in *; [lia|done].
  - intros He Hx. destruct (i_sent0 Hx). congruence.
Qed.

Lemma calls_closed tr : calls Closed tr <> None -> forallb uncalled tr = true.
Proof. induction tr as [|a tr IH]; [done|]. simpl. by destruct a. Qed.

Lemma calls_talking tr : calls Talking tr <> None -> Call Estabh ∉ tr.
Proof.
  induction tr as [|a tr IH]; intros H; [apply not_elem_of_nil|].
  apply not_elem_of_cons. simpl in H. destruct a as [| | | | | |h]; try (split; [done|by apply IH]).
  destruct h; simpl in H; try done; try (split; [done|by apply IH]).
  split; [done|]. intros Hin. apply calls_closed in H. rewrite forallb_forall in H.
  apply list_elem_of_In, H in Hin. done.
Qed.

Lemma calls_split tr p q : calls p tr = Some q -> forall a x b, tr = a ++ x :: b ->
  exists p1 p2, calls p a = Some p1 /\ call1 p1 x = Some p2 /\ calls p2 b = Some q.
Proof.
  intros H a x b ->. rewrite calls_app in H. destruct (calls p a) as [p1|]; [|done]. simpl in H.
  destruct (call1 p1 x) as [p2|] eqn:E; [|done]. by exists p1, p2.
Qed.

(** C22: the calls of the application's handlers.  Whatever happens to a session, its close
    handler is called at most once and no other of its handlers after it, and its establish
    handler is called at most once. *)
Theorem sess_calls c a h b : reachable c -> trace c = a ++ Call h :: b ->
  match h with
  | Closeh _ => forallb uncalled b = true
  | Estabh => Call Estabh ∉ b
  | _ => True
  end.
Proof.
  intros [_ H]%sess_reachable_ok Htr.
  assert (calls_ok (trace c) (of_obj (block c))) as (q&Hq&_) by (destruct (block c); apply H).
  destruct (calls_split _ _ _ Hq a (Call h) b Htr) as (p1&p2&_&H1&H2). destruct h; try done.
  - destruct p1; simpl in H1; try done. injection H1 as <-. apply calls_talking. congruence.
  - assert (p2 = Closed) as -> by (destruct p1; simpl in H1; congruence). apply calls_closed. congruence.
Qed.

(** ** A call *)

Definition env0 : env := mk_env 0 0 0 true 0 0 0 0 0 Desc false false.

(** The session of a caller: the INVITE is sent, answered, acknowledged; the application
    gives the session up, which sends a BYE, and the response to it frees the session. *)
Definition ex_invited : sipsess :=
  mk_sess 1 true 0 false false true false true false false true true true false None (Some Invite) [] []
    true None Sipreg.sip_loopstate_reset.
Definition ex_talking : sipsess :=
  mk_sess 1 true 0 true false true true true false false true true true false None None [] []
    false None (Sipreg.mk_ls 0 200).
Definition ex_ending : sipsess :=
  mk_sess 1 false 2 true false true true true false false false false false false None (Some Bye) [] []
    false None Sipreg.sip_loopstate_reset.
Definition ex_ended : sipsess :=
  mk_sess 0 false 2 true false true true true false false false false false false None None [] []
    false None (Sipreg.mk_ls 0 200).

Definition ex_trace : list act :=
  [Send Invite true 0; Call Answerh; Ack 1 false; Call Estabh; Send Bye false 0].

Lemma ex_reach_invited : reachable (mk_conf (Live ex_invited) 0 [Send Invite true 0]).
Proof. by apply (reach_connect 0 true true true env0). Qed.

Lemma ex_reach_talking : reachable (mk_conf (Live ex_talking) 100 (take 4 ex_trace)).
Proof.
  eapply reach_event; [apply ex_reach_invited|].
  refine (step_event (EvResponse Invite (inr (mk_resp 200 1 None)))
    (mk_conf (Live ex_invited) 0 [Send Invite true 0]) 100 ex_invited env0 (Live ex_talking)
    [Call Answerh; Ack 1 false; Call Estabh] eq_refl _ _ _ _); done.
Qed.

Lemma ex_reach_ending : reachable (mk_conf (Live ex_ending) 200 ex_trace).
Proof.
  eapply reach_event; [apply ex_reach_talking|].
  by refine (step_event AppDeref (mk_conf (Live ex_talking) 100 (take 4 ex_trace)) 200 ex_talking
    env0 (Live ex_ending) [Send Bye false 0] eq_refl _ _ _ _).
Qed.

Lemma ex_reach_ended : reachable (mk_conf (Freed ex_ended) 300 ex_trace).
Proof.
  eapply reach_event; [apply ex_reach_ending|].
  refine (step_event (EvResponse Bye (inr (mk_resp 200 2 None)))
    (mk_conf (Live ex_ending) 200 ex_trace) 300 ex_ending env0 (Freed ex_ended) []
    eq_refl _ _ _ _); done.
Qed.

(** A handler that gives the session up while its caller still uses it. *)
Example answer_handler_drops :
  handle 0 ex_invited (EvResponse Invite (inr (mk_resp 200 1 None)))
    (mk_env 0 0 0 true 0 0 0 0 0 Desc true false) = None.
Proof. reflexivity. Qed.

(** Without memory for the content type the destructor of the request reads a null pointer. *)
Example info_out_of_memory :
  dlg ex_talking = true /\ sipsess_info ex_talking true false env0 = None.
Proof. done. Qed.

(** A 2xx without a usable Contact: no ACK and no BYE. *)
Example contact_missing :
  handle 0 ex_invited (EvResponse Invite (inr (mk_resp 200 1 None)))
    (mk_env 0 0 0 true 0 0 EBADMSG 0 0 Desc false true) =
  Some (Freed (mk_sess 0 false 2 false false true false true false false false false false false
    None None [] [] true None (Sipreg.mk_ls 0 200)), [Call (Closeh EBADMSG)]).
Proof. reflexivity. Qed.

(** The load generator's own offer handler succeeds without storing a description. *)
Example reinvite_uninitialised :
  terminated ex_talking = 0 /\ handle 0 ex_talking (EvReinvite (2, true) true)
    (mk_env 0 0 0 true 0 0 0 0 0 Untouched false false) = None.
Proof. done. Qed.

Lemma sess_no_dangling_witness :
  nrefs ex_ending = Z.b2z (app ex_ending) + (if terminated ex_ending =? 0 then 0 else busy ex_ending) /\
  forall now ev e, 200 <= now <= clock_max -> enabled now ex_ending ev -> h_drop e = false ->
    (handle now ex_ending ev e = None <-> crashes ex_ending ev e).
Proof.
  destruct (sess_no_dangling (mk_conf (Live ex_ending) 200 ex_trace) ex_ending ex_reach_ending eq_refl) as (H1&_&H3&_).
  split; [exact H1|exact H3].
Defined.

Lemma sess_freed_clean_witness :
  app ex_ended = false /\ req ex_ended = None /\ replyl ex_ended = [] /\ requestl ex_ended = [] /\
  st ex_ended = false /\ tmr ex_ended = None /\
  (established ex_ended = true -> peerterm ex_ended = false -> byed ex_trace) /\
  (established ex_ended = false -> ~ byed ex_trace).
Proof. apply (sess_freed_clean (mk_conf (Freed ex_ended) 300 ex_trace) ex_ended ex_reach_ended eq_refl). Defined.

Lemma sess_calls_witness : Call Estabh ∉ [Send Bye false 0].
Proof.
  apply (sess_calls (mk_conf (Live ex_ending) 200 ex_trace)
    [Send Invite true 0; Call Answerh; Ack 1 false] Estabh [Send Bye false 0] ex_reach_ending eq_refl).
Defined.

End SipsessInv.
