(* ===== verification/SipsessEnd.v ===== *)
(** * The end of a SIP session

    A session that its application gave up is freed after a bounded number of completions. *)
From S2P Require Import Prelude Ctrans Sipreg Sipsess SipsessInv.
Import Sipsess SipsessInv.

Module SipsessEnd.

(** ** Winding down

    What is left to complete for a session that the application gave up. *)
Definition left (s : sipsess) : Z :=
  if terminated s =? 1 then
    20 + Z.b2z (isset (req s)) + Z.of_nat (length (replyl s)) + Z.of_nat (length (requestl s))
  else 16 - Sipreg.ls_failc (ls s).

(** A final response, a response that is not acknowledged in time, its ACK. *)
Definition completes (s : sipsess) (ev : event) : bool :=
  match ev with
  | EvResponse _ x => final scode x
  | EvInfoResponse _ x => final id x
  | EvReplyTmr _ => true
  | EvAck seq => isset (reply_ack (replyl s) seq)
  | _ => false
  end.

(** Afterwards the session is freed, or [n] is left at most. *)
Definition left_at_most (n : Z) (m : res) : Prop :=
  match m with
  | Some (Live s, _) => app s = false /\ left s <= n
  | _ => True
  end.

Lemma left_emit n a m : left_at_most n m -> left_at_most n (emit a m).
Proof. unfold emit. by destruct m as [[[s|s] b]|]. Qed.

Lemma left_bounds k tr s : inv k tr s -> app s = false -> terminated s <> 0 ->
  req s <> None \/ replyl s <> [] \/ requestl s <> [] -> 0 < left s.
Proof.
  intros [] Ha Ht Hb. unfold left. destruct (Z.eqb_spec (terminated s) 1).
  - destruct (isset (req s)); simpl; lia.
  - destruct i_over0 as (E1&E2&E3); [lia|]. rewrite E1, E2 in Hb. destruct (req s); simpl in *; [lia|].
    naive_solver.
Qed.

(** Dropping a reference of a session that waits. *)
Lemma deref_left s e : app s = false -> terminated s = 1 -> left_at_most (left s) (mem_deref s e).
Proof.
  intros Ha Ht. unfold mem_deref. set (s0 := set_nrefs s _).
  destruct (0 <? _); [done|]. unfold destructor. change (terminated s0) with (terminated s). rewrite Ht.
  cbn [Z.eqb]. unfold terminate, sipsess_bye.
  assert (forall s, left_at_most (left s0) (release s)) as Hr
    by (intros s1; unfold release; by destruct (nonempty _)).
  change (established (set_terminated s0 2)) with (established s).
  change (peerterm (set_terminated s0 2)) with (peerterm s).
  change (req (set_terminated s0 2)) with (req s).
  destruct (negb (established s) || peerterm s); [by apply left_emit|].
  destruct (isset (req s)); cbn [negb]; [by apply left_emit|].
  destruct (bye_err e =? 0) eqn:E; rewrite ?E; apply left_emit; [|done].
  simpl. split; [done|]. unfold left. simpl. rewrite Ht. simpl. destruct (isset (req s)); simpl; lia.
Qed.

Lemma deref_freed s e : nrefs s = 1 -> terminated s = 2 -> requestl s = [] -> left_at_most 0 (mem_deref s e).
Proof.
  intros Hn Ht Hr. unfold mem_deref. rewrite Hn. change (u32 (1 - 1)) with 0. cbn [Z.ltb Z.compare].
  unfold destructor. cbn [terminated set_nrefs]. rewrite Ht. cbn [Z.eqb]. unfold release.
  cbn [requestl set_nrefs]. by rewrite Hr.
Qed.

Lemma left_mono n n' m : left_at_most n m -> n <= n' -> left_at_most n' m.
Proof. unfold left_at_most. destruct m as [[[s|s] a]|]; [|done..]. intros [? ?]. split; [done|lia]. Qed.

Lemma out_left s err e : app s = false -> terminated s = 1 -> left_at_most (left s) (out s err e).
Proof. intros Ha Ht. unfold out. rewrite Ht. by apply deref_left. Qed.

(** [s'] is [s] as far as what is left is concerned. *)
Lemma acked_left s m err d e : app s = false -> terminated s = 1 ->
  left_at_most (left s) (acked s m err d e).
Proof.
  intros Ha Ht. unfold acked. apply left_emit. cbn [terminated set_established]. rewrite Ht, orb_true_r.
  by apply (out_left (set_established s true)).
Qed.

Lemma invite_left s x e : app s = false -> uh s = false -> terminated s = 1 ->
  left_at_most (left s) (invite_resp_handler s x e).
Proof.
  intros Ha Hu Ht. unfold invite_resp_handler. destruct x as [err|m]; [by apply out_left|].
  destruct (Sipreg.sip_request_loops (ls s) (scode m)) as [loops l].
  set (s0 := set_ls s l).
  assert (left s = left s0) as -> by (unfold left, s0; simpl; by rewrite Ht).
  assert (app s0 = false /\ uh s0 = false /\ terminated s0 = 1) as (Ha0&Hu0&Ht0) by done.
  destruct loops; [by apply out_left|]. destruct (_ <? 200); [done|]. rewrite !Ht0. cbn [Z.eqb negb].
  destruct (_ <? 300); [|by destruct (_ <? 400); apply out_left].
  unfold invite_success, ask. destruct (negb _); [by apply out_left|].
  change (uh (set_modify_pending (set_dlg s0 true) false)) with (uh s0).
  change (uh (set_dlg s0 true)) with (uh s0). rewrite Hu0.
  change (sent_offer (set_dlg s0 true)) with (sent_offer s0).
  destruct (sent_offer s0); [by apply (acked_left (set_dlg s0 true))|].
  by apply (acked_left (set_modify_pending (set_dlg s0 true) false)).
Qed.

Lemma reinvite_out_left s err e : app s = false -> terminated s = 1 ->
  left_at_most (left s) (reinvite_out s err e).
Proof. intros Ha Ht. unfold reinvite_out. rewrite Ht. by apply deref_left. Qed.

Lemma reinvite_left now s x e : app s = false -> uh s = false -> terminated s = 1 ->
  left_at_most (left s) (reinvite_resp_handler now s x e).
Proof.
  intros Ha Hu Ht. unfold reinvite_resp_handler. destruct x as [err|m]; [by apply reinvite_out_left|].
  destruct (Sipreg.sip_request_loops (ls s) (scode m)) as [loops l].
  set (s0 := set_ls s l).
  assert (left s = left s0) as -> by (unfold left, s0; simpl; by rewrite Ht).
  assert (app s0 = false /\ uh s0 = false /\ terminated s0 = 1) as (Ha0&Hu0&Ht0) by done.
  destruct loops; [by apply reinvite_out_left|]. destruct (_ <? 200); [done|].
  rewrite !Ht0. cbn [Z.eqb negb]. destruct (_ <? 300); [|by apply reinvite_out_left].
  unfold ask. change (uh (set_modify_pending s0 false)) with (uh s0). rewrite Hu0.
  destruct (sent_offer s0); apply left_emit; [by apply reinvite_out_left|].
  by apply (reinvite_out_left (set_modify_pending s0 false)).
Qed.

(** Each refused BYE is counted. *)
Lemma loops_counts l c l' : 0 <= Sipreg.ls_failc l <= 15 -> 300 <= c ->
  Sipreg.sip_request_loops l c = (false, l') -> Sipreg.ls_failc l' = Sipreg.ls_failc l + 1.
Proof.
  intros Hl Hc. unfold Sipreg.sip_request_loops. rewrite u32_small by lia.
  destruct (Z.ltb_spec c 200); [lia|]. destruct (Z.ltb_spec c 300); [lia|].
  destruct (c <? 400); [by intros [= _ <-]|]. destruct (_ || _); by intros [= _ <-].
Qed.

Lemma bye_left s x e : app s = false -> terminated s = 2 -> nrefs s = 1 -> requestl s = [] -> req s = None ->
  0 <= Sipreg.ls_failc (ls s) <= 15 -> final id x = true ->
  left_at_most (left s - 1) (bye_resp_handler s x e).
Proof.
  intros Ha Ht Hn Hq Hr Hl Hf.
  assert (0 < left s) as Hp by (unfold left; rewrite Ht; simpl; lia).
  assert (forall s1, terminated s1 = 2 -> nrefs s1 = 1 -> requestl s1 = [] ->
    left_at_most (left s - 1) (mem_deref s1 e)) as Hd
    by (intros; apply (left_mono 0); [by apply deref_freed|lia]).
  unfold bye_resp_handler. destruct x as [err|c]; [by apply Hd|]. simpl in Hf. apply Z.leb_le in Hf.
  unfold id in Hf. destruct (Sipreg.sip_request_loops (ls s) c) as [loops l] eqn:El.
  destruct loops; [by apply Hd|]. destruct (Z.ltb_spec c 200); [lia|].
  destruct (Z.ltb_spec c 300); [by apply Hd|]. destruct (peerterm _); [by apply Hd|].
  destruct (_ || _); [|by apply Hd]. destruct (negb _); [by apply Hd|].
  unfold sipsess_bye. cbn [req set_ls]. rewrite Hr. cbn [isset].
  destruct (Z.eqb_spec (bye_err e) 0); cbn [negb]; apply left_emit; [|by apply Hd].
  simpl. split; [done|]. unfold left. simpl. rewrite Ht. simpl.
  pose proof (loops_counts _ c _ Hl ltac:(lia) El). lia.
Qed.

Lemma request_deref_left s i e : app s = false -> terminated s = 1 -> (i < length (requestl s))%nat ->
  left_at_most (left s - 1) (request_deref s i e).
Proof.
  intros Ha Ht Hi. unfold request_deref. set (s0 := set_requestl s _).
  assert (left s0 = left s - 1) as <-.
  { unfold left, s0. simpl. rewrite Ht. simpl. rewrite length_delete by (by apply lookup_lt_is_Some_2). lia. }
  change (terminated s0) with (terminated s). rewrite Ht. cbn [Z.eqb negb andb].
  destruct (nonempty (requestl s0)); cbn [negb]; [done|by apply deref_left].
Qed.

Lemma info_out_left s i err e : app s = false -> terminated s = 1 -> (i < length (requestl s))%nat ->
  left_at_most (left s - 1) (info_out s i err e).
Proof.
  intros Ha Ht Hi. unfold info_out, andthen. rewrite Ht. cbn [Z.eqb]. cbn [mbind option_bind].
  by apply left_emit, request_deref_left.
Qed.

Lemma info_left s i x e : app s = false -> terminated s = 1 -> (i < length (requestl s))%nat ->
  left_at_most (left s - if final id x then 1 else 0) (info_resp_handler s i x e).
Proof.
  intros Ha Ht Hi. unfold info_resp_handler. destruct (lookup_lt_is_Some_2 _ _ Hi) as [l ->].
  destruct x as [err|c]; [by apply info_out_left|].
  destruct (Sipreg.sip_request_loops l c) as [loops l'] eqn:El. set (s0 := set_requestl s _).
  assert (left s0 = left s) as <- by (unfold left, s0; simpl; by rewrite length_insert).
  assert (left_at_most (left s0 - 1) (info_out s0 i 0 e)) as Ho
    by (apply info_out_left; [done..|unfold s0; simpl; by rewrite length_insert]).
  unfold final, id. destruct (Z.leb_spec 200 c).
  - destruct loops; [done|]. destruct (Z.ltb_spec c 200); [lia|]. destruct (c <? 300); [done|].
    change (terminated s0) with (terminated s). by rewrite Ht.
  - rewrite loops_provisional in El by done. injection El as <- <-.
    destruct (Z.ltb_spec c 200); [|lia]. rewrite Z.sub_0_r. done.
Qed.

Lemma reply_tmr_left s i e : app s = false -> terminated s = 1 -> (i < length (replyl s))%nat ->
  left_at_most (left s - 1) (reply_tmr_handler s i e).
Proof.
  intros Ha Ht Hi. unfold reply_tmr_handler. set (s0 := set_replyl s _).
  assert (left s0 = left s - 1) as <-.
  { unfold left, s0. simpl. rewrite Ht. simpl. rewrite length_delete by (by apply lookup_lt_is_Some_2). lia. }
  destruct (nonempty _); [done|]. cbn [terminated set_established].
  change (terminated s0) with (terminated s). rewrite Ht. cbn [Z.eqb].
  by apply (deref_left (set_established s0 true)).
Qed.

Lemma ack_left s seq e : app s = false -> terminated s = 1 ->
  left_at_most (left s - if isset (reply_ack (replyl s) seq) then 1 else 0) (ack_handler s seq e).
Proof.
  intros Ha Ht. unfold ack_handler. destruct (reply_ack (replyl s) seq) as [[aw l]|] eqn:E; simpl.
  2: { by rewrite Z.sub_0_r. }
  destruct (reply_ack_spec _ _ _ _ E) as (_&_&_&_&Hl&_).
  rewrite Ht. simpl. assert (left (set_replyl s l) = left s - 1) as <-
    by (unfold left; simpl; rewrite Ht; simpl; lia).
  destruct (nonempty l); [done|]. by apply (deref_left (set_established (set_replyl s l) true)).
Qed.

(** A final response to the request of a session that was given up. *)
Lemma response_left tr now s k x e : inv 0 tr s -> app s = false -> terminated s <> 0 ->
  req s = Some k -> reported scode x ->
  left_at_most (left s - if final scode x then 1 else 0) (handle now s (EvResponse k x) e).
Proof.
  intros H Ha Ht Hr Hx. pose proof H as []. destruct (i_closed0 Ht) as (Hu&_).
  destruct (Z.eqb_spec (terminated s) 0) as [|_]; [done|].
  assert (Hf : final scode x = true -> terminated s = 1 -> left (set_req s None) = left s - 1)
    by (intros _ E; unfold left; simpl; rewrite E, Hr; simpl; lia).
  destruct (final scode x) eqn:Ef; simpl; rewrite Ef.
  - destruct (Z.eq_dec (terminated s) 1) as [E|E].
    + rewrite <- Hf by done. destruct k; [by apply invite_left|by apply reinvite_left|].
      destruct (i_bye0 Hr). lia.
    + assert (terminated s = 2) as E2 by lia. destruct (i_over0 E2) as (El&Eq&Eo).
      assert (k = Bye) as -> by naive_solver.
      assert (left s = left (set_req s None)) as -> by (unfold left; simpl; by rewrite E2).
      apply (bye_left (set_req s None)); simpl; auto.
      * unfold busy in i_refs0. rewrite Ha, El, Eq, Hr in i_refs0. simpl in i_refs0. lia.
      * rewrite Hr in i_ls0. simpl in i_ls0. lia.
      * by destruct x.
  - rewrite Z.sub_0_r. destruct x as [err|m]; [done|]. simpl in Ef. apply Z.leb_gt in Ef.
    destruct k; simpl.
    + unfold invite_resp_handler. rewrite loops_provisional, set_ls_same by done.
      destruct (Z.ltb_spec (scode m) 200); [|lia]. done.
    + unfold reinvite_resp_handler. rewrite loops_provisional, set_ls_same by done.
      destruct (Z.ltb_spec (scode m) 200); [|lia]. done.
    + unfold bye_resp_handler. rewrite loops_provisional, set_ls_same by done.
      destruct (Z.ltb_spec (scode m) 200); [|lia]. done.
Qed.

Lemma handle_left tr now s ev e : inv 0 tr s -> app s = false -> terminated s <> 0 -> enabled now s ev ->
  left_at_most (left s - if completes s ev then 1 else 0) (handle now s ev e).
Proof.
  intros H Ha Ht Hen. pose proof H as []. destruct (i_closed0 Ht) as (Hu&Hs&Htm).
  assert (terminated s = 1 \/ replyl s = [] /\ requestl s = []) as Hone.
  { destruct i_range0 as [?|[?|E]]; [done|auto|]. destruct (i_over0 E) as (?&?&_). auto. }
  assert (forall a, left_at_most (left s) (Some (Live s, a))) as Hsame by done.
  destruct ev; simpl in Hen; cbn [completes]; rewrite ?Z.sub_0_r; try congruence.
  - destruct Hen. by eapply response_left.
  - destruct Hen as [Hi _]. apply info_left; [done| |done]. destruct Hone as [?|[_ E]]; [done|].
    rewrite E in Hi. simpl in Hi. lia.
  - destruct Hen as (t&?&_). congruence.
  - destruct Hen as (r&Hr&_). pose proof (lookup_lt_Some _ _ _ Hr) as Hi.
    apply reply_tmr_left; [done| |done]. destruct Hone as [?|[E _]]; [done|].
    rewrite E in Hi. simpl in Hi. lia.
  - destruct Hen as (r&Hr&_). simpl. unfold retransmit_handler. rewrite Hr.
    destruct (Ctrans.shl_T1 _) as [x|]; [|done]. simpl. split; [done|].
    unfold left. simpl. by rewrite length_insert.
  - destruct Hone as [?|[E _]]; [by apply ack_left|]. simpl. rewrite E. simpl. unfold ack_handler.
    rewrite E. simpl. split; [done|lia].
  - simpl. unfold bye_handler. destruct rseq_ok; simpl; [|done].
    apply left_emit. destruct (Z.eqb_spec (terminated s) 0); done.
  - simpl. unfold reinvite_handler. by destruct (Z.eqb_spec (terminated s) 0).
  - simpl. unfold info_handler. by destruct (Z.eqb_spec (terminated s) 0).
  - simpl. unfold refer_handler. by destruct (Z.eqb_spec (terminated s) 0).
Qed.

(** A run from a session that the application gave up, with the number of completions. *)
Inductive winding : conf -> Z -> conf -> Prop :=
| wind_nil c : winding c 0 c
| wind_step c s ev c' n c'' : block c = Live s -> step ev c c' -> winding c' n c'' ->
    winding c (n + if completes s ev then 1 else 0) c''.

Lemma waits_given_up k tr s : inv k tr s -> k = 0 -> 0 < nrefs s -> app s = false ->
  terminated s <> 0 /\ (req s <> None \/ replyl s <> [] \/ requestl s <> []).
Proof.
  intros [] -> Hn Ha. rewrite Ha in i_refs0. simpl in i_refs0.
  destruct (Z.eqb_spec (terminated s) 0); [lia|]. split; [done|].
  unfold busy in i_refs0. destruct (req s); [by left|]. destruct (replyl s); [|by right; left].
  destruct (requestl s); [simpl in *; lia|by right; right].
Qed.

Lemma winding_left c n c' : winding c n c' -> reachable c -> forall s, block c = Live s -> app s = false ->
  reachable c' /\ (forall s', block c' = Live s' -> app s' = false /\ left s' + n <= left s).
Proof.
  induction 1 as [c|c s0 ev c' n c'' Hb Hst Hw IH]; intros Hr s Hs Ha.
  - split; [done|]. intros s' Hs'. rewrite Hs in Hs'. injection Hs' as <-. split; [done|lia].
  - assert (s0 = s) as -> by congruence.
    pose proof (reach_event c ev c' Hr Hst) as Hr'.
    destruct (sess_reachable_ok _ Hr) as [_ Hc]. rewrite Hs in Hc. destruct Hc as [H Hn].
    destruct (waits_given_up _ _ _ H eq_refl Hn Ha) as [Ht _].
    destruct Hst as [c now s1 e o acts Hb1 Hnow Hen Hd Hh]. assert (s1 = s) as -> by congruence.
    pose proof (handle_left _ now s ev e H Ha Ht Hen) as Hl. rewrite Hh in Hl. simpl in *.
    destruct o as [s1|s1].
    + destruct Hl as [Ha1 Hl]. destruct (IH Hr' s1 eq_refl Ha1) as [? Hall]. split; [done|].
      intros s' Hs'. destruct (Hall s' Hs') as [? ?]. split; [done|]. destruct (completes s ev); lia.
    + inversion Hw as [|? ? ? ? ? ? Hx]; subst; [|done]. split; [done|]. by intros s' [=].
Qed.

(** C23: a session that the application gave up is freed.  It always waits for something: the
    response to a request, the ACK of a response or the response to an INFO request; every
    run that frees it not completes less than [left s] of them (at most the conditions it
    waits for and seventeen BYEs), whatever else happens in between. *)
Theorem sess_released c s : reachable c -> block c = Live s -> app s = false ->
  (req s <> None \/ replyl s <> [] \/ requestl s <> []) /\
  forall n c', winding c n c' ->
    (exists s', block c' = Freed s') \/ (exists s', block c' = Live s' /\ n < left s).
Proof.
  intros Hr Hb Ha. pose proof (sess_reachable_ok _ Hr) as [_ Hc]. rewrite Hb in Hc. destruct Hc as [H Hn].
  destruct (waits_given_up _ _ _ H eq_refl Hn Ha) as [Ht Hw]. split; [done|].
  intros n c' Hwind. destruct (winding_left _ _ _ Hwind Hr s Hb Ha) as [Hr' Hl].
  destruct (block c') as [s'|s'] eqn:Eb; [right|left; by eexists].
  exists s'. split; [done|]. destruct (Hl s' eq_refl) as [Ha' Hle].
  pose proof (sess_reachable_ok _ Hr') as [_ Hc']. rewrite Eb in Hc'. destruct Hc' as [H' Hn'].
  destruct (waits_given_up _ _ _ H' eq_refl Hn' Ha') as [Ht' Hw'].
  pose proof (left_bounds _ _ _ H' Ha' Ht' Hw'). lia.
Qed.

Lemma sess_released_witness :
  (req ex_ending <> None \/ replyl ex_ending <> [] \/ requestl ex_ending <> []) /\
  forall n c', winding (mk_conf (Live ex_ending) 200 ex_trace) n c' ->
    (exists s', block c' = Freed s') \/ (exists s', block c' = Live s' /\ n < left ex_ending).
Proof. apply (sess_released (mk_conf (Live ex_ending) 200 ex_trace) ex_ending ex_reach_ending eq_refl eq_refl). Defined.

End SipsessEnd.
